(* ===== verification/_CoqProject ===== *)
-Q . S2P
Prelude.v
PoolMath.v
PoolState.v
PoolModel.v
PoolFacts.v
PoolSafety.v
PoolSpec.v
PoolProps.v
PoolWitness.v
Js.v
Enums.v
EventStore.v
Service.v
Ledger.v
LedgerProps.v
Obligation.v
ObligationProps.v
Lockbox.v
LockboxProps.v
Mandate.v
MandateProps.v
Loan.v
Servicing.v
SandboxCredit.v
LoanProps.v
ServicingProps.v
LoanLedger.v
RepaymentProps.v
ScheduleProps.v
LoanBook.v
AcceptanceProps.v
Application.v
Decision.v
DecisionProps.v
Risk.v
RiskProps.v
Spend.v
SpendProps.v
SpendDays.v
Router.v
RouterProps.v
Trading.v
Matching.v
Facility.v
Settlement.v
FacilityProps.v
Desk.v
DeskProps.v
SettlementProps.v
MatchingProps.v
Quota.v
QuotaProps.v
QuotaCapacity.v
AbusePolicy.v
AbuseControl.v
AbuseProps.v
AbuseBudget.v
Identity.v
IdentityProps.v
Scenarios.v
CreditScenarios.v
LoanScenarios.v
ApplicationScenarios.v
TradingScenarios.v
QuotaScenarios.v
AbuseScenarios.v
IdentityScenarios.v
