(* ===== verification/Prelude.v ===== *)
(** * IPO.ONE credit kernel: a verification library

    ** The program

    IPO.ONE is a sandbox credit platform written in JavaScript.  Its core is a set
    of in-memory services over shared domain code: an event store that records
    evidence, a double-entry ledger, lockboxes that capture revenue, mandates that
    bound what an agent may do, credit lines, spend policies, obligations, and a
    router that pays obligations from captured revenue.  Beside them stand two
    self-contained models: a secured lending pool (the reference for on-chain
    contracts) and the sandbox loan, from the application and its decision through
    the acceptance of the offer, execution, interest, repayment and servicing to
    write-off.  On top of a loan, trading capital: a request matched with a
    provider's mandate, and a synthetic trading facility that both sides fund.  In
    front of the platform's commands, a service that budgets requests over a store of
    quotas.

    ** Files and what they model

    - Prelude: [DomainError] (src/packages/domain/src/errors.js), results, the
      state-and-error monad [M] with its weakest-precondition rules, JavaScript
      maps, sums.
    - PoolMath, PoolState, PoolModel: the secured pool
      (secured-pool-reference-math.js, -state.js and -model.js of
      src/packages/domain/src/); PoolSpec is its abstract specification, PoolFacts,
      PoolSafety and PoolProps the proofs, PoolWitness concrete pools.
    - Js: values, serialization, identifiers and validators (ids.js,
      validators.js); the class [Platform] holds what comes from outside.
    - Enums: enumerations and transition tables (enums.js, state-machines.js).
    - EventStore: the event store (src/modules/event-audit/src/event-store.js) and
      the system record [Sys] every service shares; Service: how a service's
      methods run on its own fields and the shared system.
    - Ledger, Obligation, Lockbox, Mandate, Risk, Spend, Router, each with a
      [...Props] file, and SpendDays (the totals of a policy's days): the services of src/modules/ledger, obligation, lockbox,
      authorization (mandate-service.js), risk, spend-policy and payment
      (repayment-router.js).  A service that owns another has it as a field of its
      state, as src/packages/mvp-flow/src/services.js wires them: the lockboxes own
      the ledger, credit lines and spend policies own the mandates, the router owns
      lockboxes, obligations and credit lines.
    - Loan: the acceptance of an offer and the obligation made from it
      (credit-acceptance.js); Servicing: sandbox-servicing.js; SandboxCredit:
      sandbox-credit.js.  LoanProps (invariant, interest), ServicingProps,
      LoanLedger (transactions), RepaymentProps, ScheduleProps, AcceptanceProps and
      LoanBook (a loan with its postings) hold the proofs.
    - Application: intents and offers (credit-contracts.js); Decision: the evidence
      snapshot, the decision, its passport and its offer (risk-evidence.js,
      credit-decision.js); DecisionProps the proofs, to the loan.
    - Trading: what the trading files share, their enumerations and checks;
      Matching, Facility, Settlement: trading-capital-matching.js, -facility.js and
      -settlement.js.  FacilityProps holds what a stored facility satisfies, Desk a
      facility with its orders and the sequences of requests on it, DeskProps,
      SettlementProps and MatchingProps the proofs.
    - Quota: the in-memory quota store of src/modules/abuse-control/src/ and the
      contract of its requests (in-memory-quota-store.js, quota-store-contract.js,
      abuse-utils.js); QuotaProps the proofs on rates, QuotaCapacity on capacities.
    - AbusePolicy, AbuseControl: the classes of requests and their limits, and the
      service that admits and completes requests on the quota store (abuse-policy.js,
      abuse-contexts.js, abuse-control-service.js), its methods split where they wait.
      AbuseProps has the event loop that interleaves them, AbuseBudget joins the
      service, the policy and the store.
    - Identity, IdentityProps: principals, subjects and their accounts
      (src/modules/identity/src/identity-service.js).
    - Scenarios, CreditScenarios, LoanScenarios, ApplicationScenarios,
      TradingScenarios, QuotaScenarios, AbuseScenarios, IdentityScenarios: concrete platforms and runs of the code on them, at which the
      theorems are applied.

    ** How code becomes definitions

    A method of a service is a function in [M S A], from a state to a result and a
    state: a throw keeps what was written before it.  Pure functions that may throw
    return [result A].  A BigInt or a validated amount is a [Z]; the pool's 256-bit
    range check is kept, as is the limit of 78 digits on amounts.  A [Date] is its
    time value in milliseconds.  A [Map] that is iterated is an association list in
    insertion order.  Objects that reach a hash or a check for personal data are
    built as [json] values with their field names.  Frozen or cloned objects are
    values; the one shared mutable object, the pool's position, is read and written
    through its account id.

    ** What is assumed

    [Platform] gives random identifiers, the clock, SHA3-256, the parsing of dates
    and [localeCompare].  [PlatformLaws]: identifiers do not repeat and use
    hexadecimal digits and hyphens.  [LocaleLaws]: [localeCompare] is a consistent
    order (used only for the order of due dates and of matched mandates).  [DateLaws]: an accepted date is
    an instant of the language.  [accounts_distinct]: the hashes of a loan's ledger
    accounts differ.  [DigestLaws]: a digest has 64 hexadecimal digits.  [reads]: the
    platform reads back the times a decision writes.  [days_pass]: while the spends
    of a policy are counted the clock does not return to a day it left.  The scenario
    files prove each law of a concrete platform.

    ** What is proved

    - Pool: in every execution each action takes exactly the step specified for it,
      with its interest, price, collateral and liquidity conditions ([pool_step],
      labelled by the action and its time); the accounting check at the end of a
      transition never fires below 2^120; the share price never falls through
      deposits, withdrawals, loans and repayments; bad debt and liquidation; no profit
      from rounding; other accounts are untouched.
    - Ledger: always balanced, postings move exactly the accounts they name,
      posting twice under one key posts once.
    - Obligations, lockboxes, mandates, credit lines, spend policies: their
      invariants over every sequence of calls, the exact effect of the operations
      that move amounts, and that approvals imply the conditions they stand for; a
      policy's total of the day is what was approved on it, and no day's approvals
      exceed the daily limit.
    - Router: what a route applies to each obligation, takes from the lockbox and
      releases on the credit line; earliest due first; idempotent.
    - Loans: the schedule spreads the principal; interest does not depend on how
      often it is computed; a repayment succeeds whenever it can and follows the
      waterfall; servicing of a loan that is not written off or closed is total,
      idempotent and agrees with the days past due, and it reopens a written-off one;
      offers are accepted once; after any sequence of operations the ledger accounts
      show the loan's balances less what was written off.
    - Applications: which are approved and what their offers say; an approval's
      reasons rest on finalized evidence; an application within the policy whose
      evidence is clear can be carried through to a loan.
    - Trading capital: the matches of a request are the first compatible mandates;
      a proposal is bilaterally accepted exactly when both sides' own actors accepted
      its terms, and a facility is created from it exactly before its deadline; under every sequence of requests a facility's exposure, capital and
      equity agree with its orders and contributions, protection only tightens, and a
      request on an old version is refused; an active facility can be wound down to a
      settlement that returns each contribution, except one whose evaluation reached
      FLATTEN, which can never be.
    - Quotas: however calls are ordered, what is admitted in a fixed window of a rate stays
      within its limit; the units counted at a capacity are those of running requests
      and those that were kept, as long as only kept ones are released; releasing what
      a running request holds makes every later call fail.
    - Request budgets: under every interleaving of the service's methods an
      admission's handler runs at most once and its end is reported at most once, and
      what a bucket is granted in a fixed window is within the policy's limit.
    - Identities: an account belongs to one subject, a subject to one principal, and
      each lists exactly what belongs to it, after any calls.
    - Events are append-only with consecutive versions; amounts survive printing
      and parsing.

    ** Fuel and bounds

    Every loop of the modelled code is structural here, except the pool's accrual
    over periods, whose fuel is the number of periods computed from the clock
    ([accrual_terminates] shows it is enough).  The bound 2^120 on the pool's
    amounts keeps every product below the 2^256 range check.

    ** Not modelled

    The HTTP servers and the web application, SQL persistence, the asynchronous
    command gateway, authentication and approval workflows, the SQL store of the
    request quotas with its transactions, blockchain and trading
    venue adapters and the release tooling: they are I/O around the code above or
    depend on services outside the repository.  The plugin, rail, payment, settlement
    and admin services, credit learning and the evidence behind a trading
    credit profile are not modelled; the profile is a record of what matching
    reads of it.  Timestamps beyond the range of the language's dates are left out
    of the loans' theorems ([time_ok]). *)

From stdpp Require Import base tactics list strings numbers gmap.

(** ** Errors and results

    [DomainError] of src/packages/domain/src/errors.js.  The [details] object,
    which no code of the modelled components reads, is not kept. *)
Record DomainError := MkDomainError { err_code : string; err_text : string }.

#[export] Instance DomainError_eq_dec : EqDecision DomainError.
Proof. solve_decision. Defined.

(** [error.message], as the constructor of [DomainError] builds it. *)
Definition DomainError_message (e : DomainError) : string :=
  err_code e +:+ ": " +:+ err_text e.

(** A computation that returns or throws. *)
Inductive result (A : Type) : Type :=
| Ok (a : A)
| Err (e : DomainError).

Arguments Ok {A} a.
Arguments Err {A} e.

#[export] Instance result_ret : MRet result := fun A a => Ok a.
#[export] Instance result_bind : MBind result := fun A B f m =>
  match m with Ok a => f a | Err e => Err e end.

Definition fail {A} (code text : string) : result A := Err (MkDomainError code text).

(** [if (c) throw new DomainError(code, text)] *)
Definition guard (c : bool) (code text : string) : result unit :=
  if c then fail code text else Ok ().

Definition is_ok {A} (r : result A) : bool :=
  match r with Ok _ => true | Err _ => false end.

(** [collect f l]: [l.map(f)] for an [f] that may throw; the first throw wins. *)
Fixpoint collect {A B} (f : A -> result B) (l : list A) : result (list B) :=
  match l with
  | [] => Ok []
  | x :: l => y ← f x; ys ← collect f l; Ok (y :: ys)
  end.

Lemma bind_Ok {A B} (f : A -> result B) m b :
  m ≫= f = Ok b <-> exists a, m = Ok a /\ f a = Ok b.
Proof.
  destruct m as [a|e]; cbn; split.
  - intros H. by exists a.
  - by intros (? & [= ->] & ?).
  - done.
  - by intros (? & ? & ?).
Qed.

Lemma bind_Err {A B} (f : A -> result B) m e :
  m ≫= f = Err e <-> m = Err e \/ exists a, m = Ok a /\ f a = Err e.
Proof.
  destruct m as [a|e']; cbn; split.
  - intros H. right. by exists a.
  - by intros [?|(? & [= ->] & ?)].
  - intros [= ->]. by left.
  - by intros [[= ->]|(? & ? & ?)].
Qed.

Lemma guard_Ok c code text u : guard c code text = Ok u <-> c = false.
Proof. unfold guard, fail. by destruct c, u; split. Qed.

Lemma guard_Err c code text e :
  guard c code text = Err e <-> c = true /\ e = MkDomainError code text.
Proof.
  unfold guard, fail. destruct c; split.
  - by intros [= <-].
  - by intros [_ ->].
  - done.
  - by intros [? _].
Qed.

(** Inverts a chain of binds that returned. *)
Ltac result_inv :=
  repeat match goal with
  | H : Ok _ = Ok _ |- _ => apply (inj Ok) in H || injection H as H; subst
  | H : Err _ = Err _ |- _ => injection H as H; subst
  | H : Ok _ = Err _ |- _ => discriminate H
  | H : Err _ = Ok _ |- _ => discriminate H
  | H : fail _ _ = Ok _ |- _ => discriminate H
  | H : mret _ = Ok _ |- _ => injection H as H; subst
  | H : _ ≫= _ = Ok _ |- _ =>
      apply bind_Ok in H; let x := fresh "v" in let E := fresh "E" in
      destruct H as (x & E & H)
  | H : guard _ _ _ = Ok ?u |- _ => apply guard_Ok in H; try clear u
  end.

#[export] Instance Ok_inj A : Inj (=) (=) (@Ok A).
Proof. by intros ?? [= ->]. Qed.

(** ** Stateful computations

    A method of a service reads and writes the service's fields and may throw;
    what it wrote before the throw stays written. *)
Definition M (S A : Type) : Type := S -> result A * S.

#[export] Instance M_ret S : MRet (M S) := fun A a s => (Ok a, s).
#[export] Instance M_bind S : MBind (M S) := fun A B f m s =>
  match m s with
  | (Ok a, s') => f a s'
  | (Err e, s') => (Err e, s')
  end.

Section operations.
  Context {S : Type}.

Definition throw {A} (code text : string) : M S A :=
    fun s => (fail code text, s).

  (** [if (c) throw new DomainError(code, text)] *)
Definition throw_if (c : bool) (code text : string) : M S unit :=
    fun s => (guard c code text, s).

  (** A pure computation that may throw. *)
Definition lift {A} (r : result A) : M S A := fun s => (r, s).

Definition gets {A} (f : S -> A) : M S A := fun s => (Ok (f s), s).
Definition modify (f : S -> S) : M S unit := fun s => (Ok (), f s).

  (** [try { ... } catch (error)]: the outcome as a value, the state kept. *)
Definition attempt {A} (m : M S A) : M S (result A) :=
    fun s => let (r, s') := m s in (Ok r, s').

Definition when (c : bool) (m : M S unit) : M S unit :=
    if c then m else mret ().

  (** [lookup_or code text o]: the value of a [Map.get], or a throw. *)
Definition some_or {A} (o : option A) (code text : string) : M S A :=
    match o with Some a => mret a | None => throw code text end.
End operations.

(** [l.map(f)] for a method [f] that reads and writes the state. *)
Fixpoint map_m {S A B} (f : A -> M S B) (l : list A) : M S (list B) :=
  match l with
  | [] => mret []
  | x :: l => y ← f x; ys ← map_m f l; mret (y :: ys)
  end.

(** An exception of the language that is not a [DomainError]: a property read
    of [undefined]. *)
Definition TypeError : DomainError := MkDomainError "TypeError" "cannot read properties of undefined".

(** [zoom get set m] runs [m], a method of a sub-component, on the part of the
    state that holds the sub-component. *)
Definition zoom {S T A} (get : S -> T) (set : T -> S -> S) (m : M T A) : M S A :=
  fun s => let (r, t) := m (get s) in (r, set t s).

(** ** Weakest preconditions

    [wp m Q E s]: started in [s], [m] returns with [Q] or throws with [E]. *)
Definition wp {S A} (m : M S A) (Q : A -> S -> Prop) (E : DomainError -> S -> Prop) (s : S) : Prop :=
  match m s with
  | (Ok a, s') => Q a s'
  | (Err e, s') => E e s'
  end.

Section wp.
  Context {S : Type}.
  Implicit Types (s : S).

Lemma wp_run {A} (m : M S A) Q E s r s' :
    wp m Q E s -> m s = (r, s') ->
    match r with Ok a => Q a s' | Err e => E e s' end.
  Proof. unfold wp. intros H Hm. rewrite Hm in H. by destruct r. Qed.

Lemma wp_of_run {A} (m : M S A) Q E s :
    (forall r s', m s = (r, s') -> match r with Ok a => Q a s' | Err e => E e s' end) ->
    wp m Q E s.
  Proof. unfold wp. intros H. destruct (m s) as [[a|e] s'] eqn:Hm; exact (H _ _ eq_refl). Qed.

Lemma wp_mono {A} (m : M S A) (Q Q' : A -> S -> Prop) (E E' : DomainError -> S -> Prop) s :
    wp m Q E s ->
    (forall a s', Q a s' -> Q' a s') -> (forall e s', E e s' -> E' e s') ->
    wp m Q' E' s.
  Proof. unfold wp. destruct (m s) as [[a|e] s']; auto. Qed.

Lemma wp_conj {A} (m : M S A) (Q Q' : A -> S -> Prop) (E E' : DomainError -> S -> Prop) s :
    wp m Q E s -> wp m Q' E' s ->
    wp m (fun a s' => Q a s' /\ Q' a s') (fun e s' => E e s' /\ E' e s') s.
  Proof. unfold wp. destruct (m s) as [[a|e] s']; auto. Qed.

Lemma wp_bind {A B} (m : M S A) (f : A -> M S B) Q E s :
    wp m (fun a s' => wp (f a) Q E s') E s -> wp (m ≫= f) Q E s.
  Proof. unfold wp, mbind, M_bind. destruct (m s) as [[a|e] s']; auto. Qed.

Lemma wp_ret {A} (a : A) Q E s : Q a s -> wp (mret a) Q E s.
  Proof. done. Qed.

Lemma wp_throw {A} code text (Q : A -> S -> Prop) E s :
    E (MkDomainError code text) s -> wp (throw code text) Q E s.
  Proof. done. Qed.

Lemma wp_throw_if c code text Q E s :
    (c = true -> E (MkDomainError code text) s) -> (c = false -> Q () s) ->
    wp (throw_if c code text) Q E s.
  Proof. unfold wp, throw_if. destruct c; cbn; auto. Qed.

Lemma wp_lift {A} (r : result A) Q E s :
    (forall e, r = Err e -> E e s) -> (forall a, r = Ok a -> Q a s) -> wp (lift r) Q E s.
  Proof. unfold wp, lift. destruct r; cbn; auto. Qed.

(** A check that is known to pass. *)
Lemma wp_passes {A B} (r : result A) a (f : A -> M S B) Q E s :
    r = Ok a -> wp (f a) Q E s -> wp (lift r ≫= f) Q E s.
  Proof. intros -> H. exact H. Qed.

Lemma wp_not_thrown {B} c code text (m : M S B) Q E s :
    c = false -> wp m Q E s -> wp (throw_if c code text ;; m) Q E s.
  Proof. intros -> H. exact H. Qed.

Lemma wp_gets {A} (f : S -> A) (Q : A -> S -> Prop) E s : Q (f s) s -> wp (gets f) Q E s.
  Proof. done. Qed.

Lemma wp_modify f (Q : unit -> S -> Prop) E s : Q () (f s) -> wp (modify f) Q E s.
  Proof. done. Qed.

Lemma wp_attempt {A} (m : M S A) (Q : result A -> S -> Prop) E s :
    wp m (fun a s' => Q (Ok a) s') (fun e s' => Q (Err e) s') s -> wp (attempt m) Q E s.
  Proof. unfold wp, attempt. destruct (m s) as [[a|e] s']; auto. Qed.

Lemma wp_when (c : bool) m (Q : unit -> S -> Prop) E s :
    (c = true -> wp m Q E s) -> (c = false -> Q () s) -> wp (when c m) Q E s.
  Proof. destruct c; cbn; auto. Qed.

Lemma wp_some_or {A} (o : option A) code text (Q : A -> S -> Prop) E s :
    (forall a, o = Some a -> Q a s) -> (o = None -> E (MkDomainError code text) s) ->
    wp (some_or o code text) Q E s.
  Proof. destruct o; cbn; unfold wp; cbn; auto. Qed.

Lemma wp_if {A} (c : bool) (m1 m2 : M S A) Q E s :
    (c = true -> wp m1 Q E s) -> (c = false -> wp m2 Q E s) ->
    wp (if c then m1 else m2) Q E s.
  Proof. destruct c; auto. Qed.
End wp.

Lemma wp_zoom {S T A} (get : S -> T) set (m : M T A) (Q : A -> S -> Prop) E s :
  wp m (fun a t => Q a (set t s)) (fun e t => E e (set t s)) (get s) ->
  wp (zoom get set m) Q E s.
Proof. unfold wp, zoom. destruct (m (get s)) as [[a|e] t]; auto. Qed.

(** One symbolic step of a method. *)
Ltac wp_step :=
  lazymatch goal with
  | |- wp (_ ≫= _) _ _ _ => apply wp_bind
  | |- wp (mret _) _ _ _ => apply wp_ret
  | |- wp (throw _ _) _ _ _ => apply wp_throw
  | |- wp (throw_if _ _ _) _ _ _ => apply wp_throw_if; [intros ?|intros ?]
  | |- wp (lift _) _ _ _ => apply wp_lift; [intros ? ?|intros ? ?]
  | |- wp (gets _) _ _ _ => apply wp_gets
  | |- wp (modify _) _ _ _ => apply wp_modify
  | |- wp (attempt _) _ _ _ => apply wp_attempt
  | |- wp (when _ _) _ _ _ => apply wp_when; [intros ?|intros ?]
  | |- wp (some_or _ _ _) _ _ _ => apply wp_some_or; [intros ? ?|intros ?]
  | |- wp (zoom _ _ _) _ _ _ => apply wp_zoom
  | |- wp (if _ then _ else _) _ _ _ => apply wp_if; [intros ?|intros ?]
  | |- wp (let (_, _) := ?p in _) _ _ _ => destruct p
  end; cbv beta.
Ltac wp_steps := repeat wp_step.

(** A method that keeps [I] whether it returns or throws. *)
Definition preserves {S A} (I : S -> Prop) (m : M S A) : Prop :=
  forall s, I s -> wp m (fun _ s' => I s') (fun _ s' => I s') s.

(** ** JavaScript maps

    A [Map] iterates in insertion order and overwrites in place: an association
    list with the source's order.  Maps that are only looked up are [gmap]s. *)
Definition jsmap (V : Type) : Type := list (string * V).

Section jsmap.
  Context {V : Type}.
  Implicit Types (m : jsmap V) (k : string) (v : V).

Fixpoint map_get k m : option V :=
    match m with
    | [] => None
    | (k', v) :: m => if String.eqb k k' then Some v else map_get k m
    end.

Fixpoint map_set k v m : jsmap V :=
    match m with
    | [] => [(k, v)]
    | (k', v') :: m => if String.eqb k k' then (k', v) :: m else (k', v') :: map_set k v m
    end.

Definition map_values m : list V := m.*2.
Definition map_keys m : list string := m.*1.

Lemma map_get_set_eq k v m : map_get k (map_set k v m) = Some v.
  Proof.
    induction m as [|[k' v'] m IH]; cbn; [by rewrite String.eqb_refl|].
    destruct (String.eqb k k') eqn:E; cbn; by rewrite E.
  Qed.

Lemma map_get_set_ne k k' v m : k <> k' -> map_get k' (map_set k v m) = map_get k' m.
  Proof.
    intros Hne. induction m as [|[j w] m IH]; cbn.
    - destruct (String.eqb_spec k' k); congruence.
    - destruct (String.eqb_spec k j); cbn; destruct (String.eqb_spec k' j); congruence.
  Qed.

Lemma map_get_set k k' v m :
    map_get k' (map_set k v m) = if decide (k = k') then Some v else map_get k' m.
  Proof. case_decide; subst; [apply map_get_set_eq|by apply map_get_set_ne]. Qed.

Lemma map_get_None k m : map_get k m = None <-> k ∉ map_keys m.
  Proof.
    unfold map_keys. induction m as [|[j w] m IH]; cbn; [set_solver|].
    destruct (String.eqb_spec k j) as [->|Hne]; set_solver.
  Qed.

Lemma map_get_elem k v m : map_get k m = Some v -> (k, v) ∈ m.
  Proof.
    induction m as [|[j w] m IH]; cbn; [done|].
    destruct (String.eqb_spec k j) as [->|Hne]; [intros [= ->]; left|right; auto].
  Qed.

Lemma map_get_value k v m : map_get k m = Some v -> v ∈ map_values m.
  Proof. intros H%map_get_elem. unfold map_values. apply list_elem_of_fmap. by exists (k, v). Qed.

Lemma elem_map_get k v m : NoDup (map_keys m) -> (k, v) ∈ m -> map_get k m = Some v.
  Proof.
    unfold map_keys. induction m as [|[j w] m IH]; cbn; [set_solver|].
    rewrite NoDup_cons, elem_of_cons. intros [Hj Hm] [[= -> ->]|Hin].
    - by rewrite String.eqb_refl.
    - destruct (String.eqb_spec k j) as [->|Hne]; [|auto].
      destruct Hj. apply list_elem_of_fmap. by exists (j, v).
  Qed.

Lemma map_keys_set_fresh k v m :
    map_get k m = None -> map_set k v m = m ++ [(k, v)].
  Proof.
    induction m as [|[j w] m IH]; cbn; [done|].
    destruct (String.eqb k j); [done|]. intros H. by rewrite IH.
  Qed.

Lemma map_keys_set_existing k v w m :
    map_get k m = Some w -> map_keys (map_set k v m) = map_keys m.
  Proof.
    unfold map_keys. induction m as [|[j x] m IH]; cbn; [done|].
    destruct (String.eqb k j); cbn; [done|]. intros H. by rewrite IH.
  Qed.

Lemma map_set_NoDup k v m : NoDup (map_keys m) -> NoDup (map_keys (map_set k v m)).
  Proof.
    intros Hm. destruct (map_get k m) as [w|] eqn:Hk.
    - by erewrite map_keys_set_existing.
    - rewrite (map_keys_set_fresh _ _ _ Hk). unfold map_keys in *. rewrite fmap_app.
      apply NoDup_app. split; [done|]. split; [|apply NoDup_singleton].
      apply map_get_None in Hk. unfold map_keys in Hk. set_solver.
  Qed.

Lemma map_get_Forall (P : V -> Prop) k v m :
    Forall P (map_values m) -> map_get k m = Some v -> P v.
  Proof. rewrite Forall_forall. intros H Hk. apply H. by eapply map_get_value. Qed.

Lemma map_set_Forall (P : V -> Prop) k v m :
    Forall P (map_values m) -> P v -> Forall P (map_values (map_set k v m)).
  Proof.
    unfold map_values. induction m as [|[j w] m IH]; cbn; intros Hm Hv.
    - by constructor.
    - inversion Hm; subst. destruct (String.eqb k j); cbn; constructor; auto.
  Qed.
End jsmap.

(** ** Sums *)
Definition sum_by {A} (f : A -> Z) (l : list A) : Z := foldr (fun x n => f x + n)%Z 0%Z l.
Arguments sum_by : simpl never.

Section sums.
  Context {A : Type}.
  Implicit Types (f g : A -> Z) (l : list A).
  Local Open Scope Z_scope.

Lemma sum_by_nil f : sum_by f [] = 0.
  Proof. done. Qed.
Lemma sum_by_cons f x l : sum_by f (x :: l) = f x + sum_by f l.
  Proof. done. Qed.
Lemma sum_by_app f l k : sum_by f (l ++ k) = sum_by f l + sum_by f k.
  Proof. induction l; rewrite ?sum_by_nil, ?app_nil_l, <-?app_comm_cons, ?sum_by_cons; lia. Qed.
Lemma sum_by_ext f g l : (forall x, x ∈ l -> f x = g x) -> sum_by f l = sum_by g l.
  Proof.
    induction l as [|x l IH]; intros H; [done|].
    rewrite !sum_by_cons, IH, (H x); [done|left|intros; apply H; by right].
  Qed.
Lemma sum_by_zero f l : (forall x, x ∈ l -> f x = 0) -> sum_by f l = 0.
  Proof.
    intros Hf. induction l as [|x l IH]; [done|].
    rewrite sum_by_cons, (Hf x), IH; [done|intros; apply Hf; by right|left].
  Qed.
Lemma sum_by_nonneg f l : (forall x, x ∈ l -> 0 <= f x) -> 0 <= sum_by f l.
  Proof.
    induction l as [|x l IH]; intros H; [done|].
    rewrite sum_by_cons. assert (0 <= f x) by (apply H; left).
    assert (0 <= sum_by f l) by (apply IH; intros; apply H; by right). lia.
  Qed.
Lemma sum_by_elem f l x : (forall y, y ∈ l -> 0 <= f y) -> x ∈ l -> f x <= sum_by f l.
  Proof.
    induction l as [|y l IH]; intros H; [set_solver|].
    rewrite sum_by_cons, elem_of_cons. assert (0 <= f y) by (apply H; left).
    assert (0 <= sum_by f l) by (apply sum_by_nonneg; intros; apply H; by right).
    intros [->|Hx]; [lia|]. assert (f x <= sum_by f l) by (apply IH; [intros; apply H; by right|done]). lia.
  Qed.
Lemma sum_by_le f g l : (forall x, x ∈ l -> f x <= g x) -> sum_by f l <= sum_by g l.
  Proof.
    induction l as [|x l IH]; intros H; [done|]. rewrite !sum_by_cons.
    assert (f x <= g x) by (apply H; left).
    assert (sum_by f l <= sum_by g l) by (apply IH; intros; apply H; by right). lia.
  Qed.
Lemma sum_by_add f g l : sum_by (fun x => f x + g x) l = sum_by f l + sum_by g l.
  Proof. induction l; rewrite ?sum_by_nil, ?sum_by_cons; lia. Qed.
Lemma foldl_sum f l n : foldl (fun s x => s + f x) n l = n + sum_by f l.
  Proof. revert n. induction l as [|x l IH]; intros n; cbn [foldl]; rewrite ?IH, ?sum_by_nil, ?sum_by_cons; lia. Qed.
End sums.

(** The sum over a map after one entry is set. *)
Lemma sum_values_set {V} (f : V -> Z) k v (m : jsmap V) :
  (sum_by f (map_values (map_set k v m)) =
   sum_by f (map_values m) + f v - match map_get k m with Some w => f w | None => 0 end)%Z.
Proof.
  unfold map_values. induction m as [|[j w] m IH]; cbn [map_set map_get].
  - rewrite fmap_cons, sum_by_cons, fmap_nil, !sum_by_nil. cbn [snd]. lia.
  - destruct (String.eqb k j); rewrite !fmap_cons, !sum_by_cons; cbn [snd]; lia.
Qed.
