(* ===== verification/PoolMath.v ===== *)
(** * Secured pool: integer arithmetic

    src/packages/domain/src/secured-pool-reference-math.js: the fixture policy,
    the 256-bit range check, the two rounding directions and the rate curves.
    Amounts are [BigInt]s, modelled by [Z].  [BigInt] division truncates and
    [Z.div] floors; both agree here because every operand of a division has
    passed [assertReferenceUint]. *)

From stdpp Require Import base tactics sets strings numbers list.
From S2P Require Import Prelude.
Local Open Scope Z_scope.

Record PoolPolicy := MkPoolPolicy {
  bps : Z; wad : Z; debtAssetScale : Z; collateralAssetScale : Z; priceScale : Z;
  secondsPerYear : Z; maxAccrualChunkSeconds : Z; maxAccrualChunksPerTransition : Z;
  kinkBps : Z; baseBorrowAprBps : Z; slope1Bps : Z; slope2Bps : Z;
  reserveFactorBps : Z; loanToValueBps : Z; liquidationThresholdBps : Z;
  closeFactorBps : Z; liquidationBonusBps : Z;
  maxOracleAgeSeconds : Z; maxOracleFutureSkewSeconds : Z; maxOracleDeviationBps : Z;
  policyChainId : string; collateralAssetId : string; oracleSourceId : string }.

Definition M2_POOL_REFERENCE_SCHEMA_VERSION : string := "secured_pool_reference_model.v1".
Definition M2_POOL_REFERENCE_POLICY_VERSION : string := "m2_secured_pool_fixture_policy.v1".

Definition M2_POOL_REFERENCE_POLICY : PoolPolicy := {|
  bps := 10000;
  wad := 10 ^ 18;
  debtAssetScale := 10 ^ 6;
  collateralAssetScale := 10 ^ 18;
  priceScale := 10 ^ 18;
  secondsPerYear := 365 * 24 * 60 * 60;
  maxAccrualChunkSeconds := 7 * 24 * 60 * 60;
  maxAccrualChunksPerTransition := 1024;
  kinkBps := 8000;
  baseBorrowAprBps := 200;
  slope1Bps := 800;
  slope2Bps := 6000;
  reserveFactorBps := 1000;
  loanToValueBps := 7500;
  liquidationThresholdBps := 8000;
  closeFactorBps := 5000;
  liquidationBonusBps := 500;
  maxOracleAgeSeconds := 3600;
  maxOracleFutureSkewSeconds := 60;
  maxOracleDeviationBps := 2000;
  policyChainId := "eip155:84532";
  collateralAssetId := "weth";
  oracleSourceId := "deterministic_m2_fixture.v1" |}.

Definition MAX_MODEL_UINT : Z := Z.shiftl 1 256 - 1.

Definition invalidPoolReference {A} (text : string) : result A :=
  fail "invalid_secured_pool_reference_model" text.

Definition unavailablePoolAction {A} (text : string) : result A :=
  fail "secured_pool_action_unavailable" text.

Definition unavailable_if (c : bool) (text : string) : result unit :=
  if c then unavailablePoolAction text else Ok ().

Definition invalid_if (c : bool) (text : string) : result unit :=
  if c then invalidPoolReference text else Ok ().

Definition assertReferenceUint (name : string) (value : Z) (positive : bool) : result Z :=
  if (value <? 0) || (MAX_MODEL_UINT <? value) || (positive && (value =? 0))
  then invalidPoolReference
         (name +:+ " must be a bounded " +:+ (if positive then "positive" else "unsigned") +:+ " BigInt")
  else Ok value.

Definition mulDivDown (left right denominator : Z) : result Z :=
  assertReferenceUint "left" left false ;;
  assertReferenceUint "right" right false ;;
  assertReferenceUint "denominator" denominator true ;;
  Ok (left * right / denominator).

Definition mulDivUp (left right denominator : Z) : result Z :=
  floor ← mulDivDown left right denominator;
  Ok (if (left =? 0) || (right =? 0) || (left * right mod denominator =? 0)
      then floor else floor + 1).

(** [minReference(...values)]; the [name] of the offending value carries its index. *)
Definition minReference (values : list Z) : result Z :=
  match values with
  | [] => invalidPoolReference "minReference requires values"
  | v :: rest =>
      collect (fun x => assertReferenceUint "values" x false) values ;;
      Ok (foldl (fun current value => if value <? current then value else current) v rest)
  end.

Definition calculateUtilizationBps (cashAssets performingDebtAssets : Z) : result Z :=
  assertReferenceUint "cashAssets" cashAssets false ;;
  assertReferenceUint "performingDebtAssets" performingDebtAssets false ;;
  let grossAssets := cashAssets + performingDebtAssets in
  if grossAssets =? 0 then Ok 0
  else mulDivDown performingDebtAssets (bps M2_POOL_REFERENCE_POLICY) grossAssets.

Definition calculateBorrowAprBps (cashAssets performingDebtAssets : Z) : result Z :=
  utilizationBps ← calculateUtilizationBps cashAssets performingDebtAssets;
  let policy := M2_POOL_REFERENCE_POLICY in
  if utilizationBps <=? kinkBps policy then
    slope ← mulDivDown (slope1Bps policy) utilizationBps (kinkBps policy);
    Ok (baseBorrowAprBps policy + slope)
  else
    slope ← mulDivDown (slope2Bps policy) (utilizationBps - kinkBps policy)
                       (bps policy - kinkBps policy);
    Ok (baseBorrowAprBps policy + slope1Bps policy + slope).

Definition calculateSupplyAprBps (cashAssets performingDebtAssets : Z) : result Z :=
  let policy := M2_POOL_REFERENCE_POLICY in
  borrowAprBps ← calculateBorrowAprBps cashAssets performingDebtAssets;
  utilizationBps ← calculateUtilizationBps cashAssets performingDebtAssets;
  grossSupplyAprBps ← mulDivDown borrowAprBps utilizationBps (bps policy);
  mulDivDown grossSupplyAprBps (bps policy - reserveFactorBps policy) (bps policy).

(** The result is the pair ([interestAssets], [reserveAssets]). *)
Definition calculateInterestAtRate (debtAssets borrowAprBps elapsedSeconds : Z) : result (Z * Z) :=
  assertReferenceUint "debtAssets" debtAssets false ;;
  assertReferenceUint "borrowAprBps" borrowAprBps false ;;
  assertReferenceUint "elapsedSeconds" elapsedSeconds false ;;
  let policy := M2_POOL_REFERENCE_POLICY in
  interestAssets ← mulDivUp debtAssets (borrowAprBps * elapsedSeconds)
                            (secondsPerYear policy * bps policy);
  reserveAssets ← mulDivDown interestAssets (reserveFactorBps policy) (bps policy);
  Ok (interestAssets, reserveAssets).

Definition calculateCollateralValueAssets (collateralAssets priceUsdWad : Z) : result Z :=
  assertReferenceUint "collateralAssets" collateralAssets false ;;
  assertReferenceUint "priceUsdWad" priceUsdWad true ;;
  let policy := M2_POOL_REFERENCE_POLICY in
  mulDivDown collateralAssets (priceUsdWad * debtAssetScale policy)
             (collateralAssetScale policy * priceScale policy).

Definition calculateCollateralRequiredForValue (valueAssets priceUsdWad : Z) : result Z :=
  assertReferenceUint "valueAssets" valueAssets false ;;
  assertReferenceUint "priceUsdWad" priceUsdWad true ;;
  let policy := M2_POOL_REFERENCE_POLICY in
  mulDivUp valueAssets (collateralAssetScale policy * priceScale policy)
           (priceUsdWad * debtAssetScale policy).

(** ** Specifications *)

(** The values [assertReferenceUint] lets through. *)
Definition uint (z : Z) : Prop := 0 <= z <= MAX_MODEL_UINT.

(** Division rounded up. *)
Definition ceil_div (n d : Z) : Z := - ((- n) / d).

Lemma MAX_MODEL_UINT_value : MAX_MODEL_UINT = 2 ^ 256 - 1.
Proof. reflexivity. Qed.

Lemma ceil_div_spec n d : 0 < d -> n <= ceil_div n d * d < n + d.
Proof.
  intros Hd. unfold ceil_div.
  pose proof (Z.div_mod (- n) d). pose proof (Z.mod_pos_bound (- n) d). nia.
Qed.

Lemma ceil_div_le n d q : 0 < d -> n <= q * d -> ceil_div n d <= q.
Proof. intros Hd H. pose proof (ceil_div_spec n d Hd). nia. Qed.

Lemma ceil_div_ge n d q : 0 < d -> q * d < n -> q < ceil_div n d.
Proof. intros Hd H. pose proof (ceil_div_spec n d Hd). nia. Qed.

Lemma ceil_div_nonneg n d : 0 < d -> 0 <= n -> 0 <= ceil_div n d.
Proof. intros Hd Hn. unfold ceil_div. pose proof (Z.div_le_upper_bound (- n) d 0). lia. Qed.

Lemma floor_div_spec n d : 0 < d -> n / d * d <= n < n / d * d + d.
Proof. intros Hd. pose proof (Z.div_mod n d). pose proof (Z.mod_pos_bound n d). nia. Qed.

Lemma ceil_div_mod n d : 0 < d -> ceil_div n d = n / d + (if n mod d =? 0 then 0 else 1).
Proof.
  intros Hd. pose proof (ceil_div_spec n d Hd) as Hc.
  pose proof (Z.div_mod n d ltac:(lia)) as Hdm. pose proof (Z.mod_pos_bound n d Hd) as Hm.
  destruct (Z.eqb_spec (n mod d) 0); nia.
Qed.

(** What is not reduced by a floor is the ceiling of the rest. *)
Lemma sub_ceil_floor n b d : 0 < d -> n - ceil_div (b * n) d = (d - b) * n / d.
Proof.
  intros Hd. unfold ceil_div.
  replace ((d - b) * n) with (- (b * n) + n * d) by ring.
  rewrite Z.div_add by lia. lia.
Qed.

Lemma assertReferenceUint_Ok name v p r :
  assertReferenceUint name v p = Ok r <-> r = v /\ uint v /\ (p = true -> 0 < v).
Proof.
  unfold assertReferenceUint, uint. destruct (_ || _) eqn:E.
  - unfold invalidPoolReference, fail. split; [done|]. intros (-> & Hu & Hp). destruct p; lia.
  - split; [intros [= <-]|by intros [-> _]]. destruct p; split_and!; intros; lia.
Qed.

Lemma assertReferenceUint_pass name v p :
  uint v -> (p = true -> 0 < v) -> assertReferenceUint name v p = Ok v.
Proof. intros. by apply assertReferenceUint_Ok. Qed.

Lemma mulDivDown_Ok a b d r :
  mulDivDown a b d = Ok r <-> uint a /\ uint b /\ uint d /\ 0 < d /\ r = a * b / d.
Proof.
  unfold mulDivDown. rewrite !bind_Ok. split.
  - intros (? & (-> & ? & _)%assertReferenceUint_Ok & K1).
    apply bind_Ok in K1 as (? & (-> & ? & _)%assertReferenceUint_Ok & K2).
    apply bind_Ok in K2 as (? & (-> & ? & Hd)%assertReferenceUint_Ok & K3).
    injection K3 as <-. split_and!; auto.
  - intros (Ha & Hb & Hd & Hpos & ->). exists a. split; [by apply assertReferenceUint_pass|].
    rewrite assertReferenceUint_pass by done. cbn.
    by rewrite assertReferenceUint_pass by done.
Qed.

Lemma mulDivUp_Ok a b d r :
  mulDivUp a b d = Ok r <-> uint a /\ uint b /\ uint d /\ 0 < d /\ r = ceil_div (a * b) d.
Proof.
  unfold mulDivUp. rewrite bind_Ok. setoid_rewrite mulDivDown_Ok.
  assert (Hr : uint a -> uint b -> 0 < d ->
    (if (a =? 0) || (b =? 0) || (a * b mod d =? 0) then a * b / d else a * b / d + 1)
    = ceil_div (a * b) d).
  { intros _ _ Hd. rewrite (ceil_div_mod _ _ Hd).
    destruct (Z.eqb_spec a 0) as [->|]; [by rewrite Z.mul_0_l, Z.mod_0_l, Z.add_0_r by lia|].
    destruct (Z.eqb_spec b 0) as [->|]; [by rewrite Z.mul_0_r, Z.mod_0_l, Z.add_0_r by lia|].
    cbn. destruct (a * b mod d =? 0); lia. }
  split.
  - intros (q & (? & ? & ? & ? & ->) & [= <-]). split_and!; try done. by apply Hr.
  - intros (Ha & Hb & Hd & Hpos & ->). exists (a * b / d).
    split; [by split_and!|]. by rewrite Hr.
Qed.

Lemma unavailable_if_Ok c text u : unavailable_if c text = Ok u <-> c = false.
Proof. unfold unavailable_if, unavailablePoolAction, fail. by destruct c, u; split. Qed.

Lemma invalid_if_Ok c text u : invalid_if c text = Ok u <-> c = false.
Proof. unfold invalid_if, invalidPoolReference, fail. by destruct c, u; split. Qed.

(** The policy constants as numbers. *)
Ltac policy :=
  cbn [bps wad debtAssetScale collateralAssetScale priceScale secondsPerYear
       maxAccrualChunkSeconds maxAccrualChunksPerTransition kinkBps baseBorrowAprBps
       slope1Bps slope2Bps reserveFactorBps loanToValueBps liquidationThresholdBps
       closeFactorBps liquidationBonusBps maxOracleAgeSeconds maxOracleFutureSkewSeconds
       maxOracleDeviationBps M2_POOL_REFERENCE_POLICY] in *.

Ltac uint_lia := unfold uint in *; rewrite ?MAX_MODEL_UINT_value in *; lia.

Lemma mulDivDown_pass a b d :
  uint a -> uint b -> uint d -> 0 < d -> mulDivDown a b d = Ok (a * b / d).
Proof. intros. by apply mulDivDown_Ok. Qed.

Lemma mulDivUp_pass a b d :
  uint a -> uint b -> uint d -> 0 < d -> mulDivUp a b d = Ok (ceil_div (a * b) d).
Proof. intros. by apply mulDivUp_Ok. Qed.

Lemma minReference_Ok l r :
  minReference l = Ok r -> r ∈ l /\ Forall (fun x => r <= x) l.
Proof.
  destruct l as [|v l]; [done|]. cbn [minReference]. rewrite bind_Ok. intros (_ & _ & [= <-]).
  revert v. induction l as [|x l IH]; intros v; cbn [foldl].
  - split; [left|]. by repeat constructor.
  - destruct (Z.ltb_spec x v) as [Hlt|Hge].
    + destruct (IH x) as [Hin Hall]. split; [by right|].
      inversion Hall as [|? ? Hx Hl]; subst. constructor; [lia|done].
    + destruct (IH v) as [Hin Hall]. split; [set_solver|].
      inversion Hall as [|? ? Hv Hl]; subst. constructor; [done|]. constructor; [lia|done].
Qed.

Lemma minReference_uint l r : minReference l = Ok r -> Forall uint l.
Proof.
  destruct l as [|v l]; [done|]. cbn [minReference]. rewrite bind_Ok. intros (k & H & _).
  revert k H. generalize (v :: l). intros l'. induction l' as [|x l' IH]; intros k; [by constructor|].
  cbn [collect]. intros (a & (_ & Hx & _)%assertReferenceUint_Ok & H)%bind_Ok.
  apply bind_Ok in H as (ys & H & _). constructor; [done|by eapply IH].
Qed.

Lemma minReference_pass v l :
  Forall uint (v :: l) -> exists r, minReference (v :: l) = Ok r.
Proof.
  intros H. cbn [minReference].
  assert (Hc : collect (fun x => assertReferenceUint "values" x false) (v :: l) = Ok (v :: l)).
  { revert H. generalize (v :: l). induction l0 as [|x l0 IH]; intros H; [done|].
    inversion H; subst. cbn [collect]. rewrite assertReferenceUint_pass by done. cbn.
    by rewrite IH. }
  rewrite Hc. cbn. by eexists.
Qed.

(** ** The rate curves *)

Lemma calculateUtilizationBps_pass c d :
  uint c -> uint d -> uint (c + d) ->
  exists u, calculateUtilizationBps c d = Ok u /\ 0 <= u <= 10000.
Proof.
  intros Hc Hd Hg. unfold calculateUtilizationBps.
  rewrite !assertReferenceUint_pass by done. cbn [mbind result_bind].
  destruct (Z.eqb_spec (c + d) 0) as [E|E]; [by exists 0|]. policy.
  rewrite mulDivDown_pass by uint_lia. eexists; split; [done|].
  pose proof (floor_div_spec (d * 10000) (c + d)) as F. unfold uint in *. nia.
Qed.

Lemma calculateBorrowAprBps_pass c d :
  uint c -> uint d -> uint (c + d) ->
  exists r, calculateBorrowAprBps c d = Ok r /\ 200 <= r <= 7000.
Proof.
  intros Hc Hd Hg. unfold calculateBorrowAprBps.
  destruct (calculateUtilizationBps_pass c d) as (u & -> & Hu); try done. cbn [mbind result_bind].
  policy. destruct (Z.leb_spec u 8000) as [Hk|Hk]; rewrite mulDivDown_pass by uint_lia;
    cbn [mbind result_bind]; eexists; (split; [done|]).
  - pose proof (floor_div_spec (800 * u) 8000). lia.
  - pose proof (floor_div_spec (6000 * (u - 8000)) (10000 - 8000)). lia.
Qed.

Lemma calculateUtilizationBps_bounds c d u :
  calculateUtilizationBps c d = Ok u -> 0 <= u <= 10000.
Proof.
  unfold calculateUtilizationBps. intros H. result_inv.
  repeat match goal with E : assertReferenceUint _ _ _ = _ |- _ => apply assertReferenceUint_Ok in E as (? & ? & _) end.
  destruct (Z.eqb_spec (c + d) 0); [result_inv; lia|]. policy.
  apply mulDivDown_Ok in H as (? & ? & ? & ? & ->).
  pose proof (floor_div_spec (d * 10000) (c + d)). unfold uint in *. nia.
Qed.

Lemma calculateBorrowAprBps_bounds c d r :
  calculateBorrowAprBps c d = Ok r -> 200 <= r <= 7000.
Proof.
  unfold calculateBorrowAprBps. rewrite bind_Ok. intros (u & Hu%calculateUtilizationBps_bounds & H).
  policy. destruct (Z.leb_spec u 8000); apply bind_Ok in H as (q & Hq & [= <-]);
    apply mulDivDown_Ok in Hq as (? & ? & ? & ? & ->).
  - pose proof (floor_div_spec (800 * u) 8000). lia.
  - pose proof (floor_div_spec (6000 * (u - 8000)) (10000 - 8000)). lia.
Qed.
