(* ===== verification/PoolState.v ===== *)
(** * Secured pool: state, positions and the accounting check

    src/packages/domain/src/secured-pool-reference-state.js. *)

From stdpp Require Import base tactics sets strings numbers list.
From S2P Require Import Prelude PoolMath.
Local Open Scope Z_scope.

(** ** Data *)

Record OracleObservation := MkOracle {
  chainId : string; assetId : string; sourceId : string;
  complete : bool; roundId : string; priceUsdWad : Z; observedAt : Z }.

Record Position := MkPosition {
  accountId : string; supplyShares : Z; collateralAssets : Z;
  debtShares : Z; pos_badDebtAssets : Z }.

Record PoolState := MkPool {
  schemaVersion : string; policyVersion : string;
  cashAssets : Z; grossDebtAssets : Z; reservesAssets : Z; badDebtAssets : Z;
  totalSupplyShares : Z; totalDebtShares : Z; lastAccruedAt : Z;
  marketDebtCapAssets : Z; borrowerDebtCapAssets : Z;
  lastAcceptedOracle : option OracleObservation;
  positions : list Position }.

(** ** Operations *)

Definition is_alnum (c : Ascii.ascii) : bool :=
  let n := Ascii.N_of_ascii c in
  ((65 <=? n) && (n <=? 90) || (97 <=? n) && (n <=? 122) || (48 <=? n) && (n <=? 57))%N.

(** The class [[A-Za-z0-9._:-]]. *)
Definition is_id_char (c : Ascii.ascii) : bool :=
  let n := Ascii.N_of_ascii c in
  is_alnum c || ((n =? 46) || (n =? 95) || (n =? 58) || (n =? 45))%N.

Fixpoint string_all (f : Ascii.ascii -> bool) (s : string) : bool :=
  match s with
  | EmptyString => true
  | String c s => f c && string_all f s
  end.

(** [/^[A-Za-z0-9][A-Za-z0-9._:-]{0,127}$/] *)
Definition ACCOUNT_ID_PATTERN (s : string) : bool :=
  match s with
  | EmptyString => false
  | String c s => is_alnum c && string_all is_id_char s && (String.length s <=? 127)%nat
  end.

Definition BLOCKED_ACCOUNT_IDS : list string := ["__proto__"; "constructor"; "prototype"]%string.

Definition assertReferenceAccountId (value : string) : result string :=
  if negb (ACCOUNT_ID_PATTERN value) || bool_decide (value ∈ BLOCKED_ACCOUNT_IDS)
  then invalidPoolReference "accountId must be a bounded opaque identifier"
  else Ok value.

Definition emptyPoolReferencePosition (id : string) : Position :=
  {| accountId := id; supplyShares := 0; collateralAssets := 0; debtShares := 0;
     pos_badDebtAssets := 0 |}.

Definition find_position (id : string) (ps : list Position) : option Position :=
  List.find (fun p => String.eqb (accountId p) id) ps.

Definition findPoolReferencePosition (state : PoolState) (id : string) : Position :=
  default (emptyPoolReferencePosition id) (find_position id (positions state)).

Definition poolReferencePerformingDebtAssets (state : PoolState) : Z :=
  grossDebtAssets state - badDebtAssets state.

Definition poolReferenceLpClaimAssets (state : PoolState) : Z :=
  let signedClaim := cashAssets state + grossDebtAssets state -
                     reservesAssets state - badDebtAssets state in
  if 0 <? signedClaim then signedClaim else 0.

Definition positionPerformingDebtAssets (state : PoolState) (position : Position) : result Z :=
  if debtShares position =? 0 then Ok 0
  else
    let performingDebt := poolReferencePerformingDebtAssets state in
    if debtShares position =? totalDebtShares state then Ok performingDebt
    else mulDivUp (debtShares position) performingDebt (totalDebtShares state).

Definition assertPoolReferenceOracleBinding (observation : OracleObservation) : result unit :=
  let policy := M2_POOL_REFERENCE_POLICY in
  unavailable_if
    (negb (String.eqb (chainId observation) (policyChainId policy)) ||
     negb (String.eqb (assetId observation) (collateralAssetId policy)) ||
     negb (String.eqb (sourceId observation) (oracleSourceId policy)) ||
     negb (complete observation) ||
     negb (ACCOUNT_ID_PATTERN (roundId observation)))
    "oracle observation binding is invalid" ;;
  assertReferenceUint "oracleObservation.priceUsdWad" (priceUsdWad observation) true ;;
  assertReferenceUint "oracleObservation.observedAt" (observedAt observation) false ;;
  Ok ().

(** The running totals of the loop over [state.positions]. *)
Record Totals := MkTotals {
  seen : list string; tot_supply : Z; tot_debt : Z; tot_bad : Z; tot_claims : Z }.

Definition check_position (state : PoolState) (claimAssets : Z) (acc : Totals) (position : Position)
    : result Totals :=
  assertReferenceAccountId (accountId position) ;;
  invalid_if (bool_decide (accountId position ∈ seen acc)) "duplicate account position" ;;
  assertReferenceUint "position.supplyShares" (supplyShares position) false ;;
  assertReferenceUint "position.collateralAssets" (collateralAssets position) false ;;
  assertReferenceUint "position.debtShares" (debtShares position) false ;;
  assertReferenceUint "position.badDebtAssets" (pos_badDebtAssets position) false ;;
  claims ← (if 0 <? totalSupplyShares state
            then mulDivDown (supplyShares position) claimAssets (totalSupplyShares state)
            else Ok 0);
  Ok {| seen := accountId position :: seen acc;
        tot_supply := tot_supply acc + supplyShares position;
        tot_debt := tot_debt acc + debtShares position;
        tot_bad := tot_bad acc + pos_badDebtAssets position;
        tot_claims := tot_claims acc + claims |}.

Fixpoint check_positions (state : PoolState) (claimAssets : Z) (acc : Totals) (ps : list Position)
    : result Totals :=
  match ps with
  | [] => Ok acc
  | p :: ps => acc' ← check_position state claimAssets acc p; check_positions state claimAssets acc' ps
  end.

Definition check_fields (state : PoolState) : result unit :=
  assertReferenceUint "state.cashAssets" (cashAssets state) false ;;
  assertReferenceUint "state.grossDebtAssets" (grossDebtAssets state) false ;;
  assertReferenceUint "state.reservesAssets" (reservesAssets state) false ;;
  assertReferenceUint "state.badDebtAssets" (badDebtAssets state) false ;;
  assertReferenceUint "state.totalSupplyShares" (totalSupplyShares state) false ;;
  assertReferenceUint "state.totalDebtShares" (totalDebtShares state) false ;;
  assertReferenceUint "state.lastAccruedAt" (lastAccruedAt state) false ;;
  assertReferenceUint "state.marketDebtCapAssets" (marketDebtCapAssets state) false ;;
  assertReferenceUint "state.borrowerDebtCapAssets" (borrowerDebtCapAssets state) false ;;
  Ok ().

Record InvariantReport := MkReport {
  rep_lpClaimAssets : Z; rep_performingDebtAssets : Z; rep_aggregateSupplyClaims : Z; rep_positions : Z }.

Definition assertPoolReferenceInvariants (state : PoolState) : result InvariantReport :=
  invalid_if (negb (String.eqb (schemaVersion state) M2_POOL_REFERENCE_SCHEMA_VERSION) ||
              negb (String.eqb (policyVersion state) M2_POOL_REFERENCE_POLICY_VERSION))
    "state schema or policy version is invalid" ;;
  check_fields state ;;
  invalid_if (grossDebtAssets state <? badDebtAssets state)
    "recognized bad debt exceeds gross outstanding debt" ;;
  let claimAssets := poolReferenceLpClaimAssets state in
  totals ← check_positions state claimAssets (MkTotals [] 0 0 0 0) (positions state);
  invalid_if (negb (tot_supply totals =? totalSupplyShares state) ||
              negb (tot_debt totals =? totalDebtShares state) ||
              negb (tot_bad totals =? badDebtAssets state) ||
              (claimAssets <? tot_claims totals))
    "aggregate position accounting does not reconcile" ;;
  let performingDebt := poolReferencePerformingDebtAssets state in
  invalid_if (negb (Bool.eqb (performingDebt =? 0) (totalDebtShares state =? 0)))
    "performing debt and debt shares must become empty together" ;;
  invalid_if (performingDebt <? totalDebtShares state)
    "performing debt assets cannot fall below debt shares" ;;
  match lastAcceptedOracle state with
  | Some observation => assertPoolReferenceOracleBinding observation
  | None => Ok ()
  end ;;
  Ok {| rep_lpClaimAssets := claimAssets;
        rep_performingDebtAssets := performingDebt;
        rep_aggregateSupplyClaims := tot_claims totals;
        rep_positions := Z.of_nat (length (positions state)) |}.

(** ** The check as a proposition *)

Definition account_id_ok (id : string) : Prop := assertReferenceAccountId id = Ok id.

Record position_ok (p : Position) : Prop := {
  ok_id : account_id_ok (accountId p);
  ok_supply : uint (supplyShares p);
  ok_collateral : uint (collateralAssets p);
  ok_debt : uint (debtShares p);
  ok_bad : uint (pos_badDebtAssets p) }.

Definition oracle_ok (o : OracleObservation) : Prop :=
  assertPoolReferenceOracleBinding o = Ok ().

Record fields_ok (s : PoolState) : Prop := {
  ok_cash : uint (cashAssets s);
  ok_gross : uint (grossDebtAssets s);
  ok_reserves : uint (reservesAssets s);
  ok_badDebt : uint (badDebtAssets s);
  ok_totalSupply : uint (totalSupplyShares s);
  ok_totalDebt : uint (totalDebtShares s);
  ok_time : uint (lastAccruedAt s);
  ok_marketCap : uint (marketDebtCapAssets s);
  ok_borrowerCap : uint (borrowerDebtCapAssets s) }.

(** Everything [assertPoolReferenceInvariants] checks, except the inequality
    between the aggregated supply claims and the LP claim, which follows. *)
Record PoolInv (s : PoolState) : Prop := {
  inv_schema : schemaVersion s = M2_POOL_REFERENCE_SCHEMA_VERSION;
  inv_policy : policyVersion s = M2_POOL_REFERENCE_POLICY_VERSION;
  inv_fields : fields_ok s;
  inv_bad_le : badDebtAssets s <= grossDebtAssets s;
  inv_positions : Forall position_ok (positions s);
  inv_unique : NoDup (accountId <$> positions s);
  inv_claim : 0 < totalSupplyShares s -> uint (poolReferenceLpClaimAssets s);
  inv_sum_supply : sum_by supplyShares (positions s) = totalSupplyShares s;
  inv_sum_debt : sum_by debtShares (positions s) = totalDebtShares s;
  inv_sum_bad : sum_by pos_badDebtAssets (positions s) = badDebtAssets s;
  inv_empty : poolReferencePerformingDebtAssets s = 0 <-> totalDebtShares s = 0;
  inv_cover : totalDebtShares s <= poolReferencePerformingDebtAssets s;
  inv_oracle : forall o, lastAcceptedOracle s = Some o -> oracle_ok o }.

Lemma assertReferenceAccountId_value id v : assertReferenceAccountId id = Ok v -> v = id.
Proof. unfold assertReferenceAccountId. by case_match; intros [= <-]. Qed.

Lemma lp_claim_nonneg s : 0 <= poolReferenceLpClaimAssets s.
Proof. unfold poolReferenceLpClaimAssets. case_match; lia. Qed.

(** Inverts and consumes the range checks of a chain of binds. *)
Ltac uint_inv :=
  repeat match goal with
  | H : assertReferenceUint _ _ _ = Ok _ |- _ => apply assertReferenceUint_Ok in H as (? & ? & ?); subst
  | H : invalid_if _ _ = Ok _ |- _ => apply invalid_if_Ok in H
  | H : unavailable_if _ _ = Ok _ |- _ => apply unavailable_if_Ok in H
  end.

Lemma check_fields_Ok s u : check_fields s = Ok u <-> fields_ok s.
Proof.
  unfold check_fields. split.
  - intros H. result_inv. uint_inv. by constructor.
  - intros []. repeat (rewrite assertReferenceUint_pass by done; cbn [mbind result_bind]). by destruct u.
Qed.

(** The claims each position contributes. *)
Definition claim_of (s : PoolState) (c : Z) (p : Position) : Z :=
  if 0 <? totalSupplyShares s then supplyShares p * c / totalSupplyShares s else 0.

Section check_positions.
  Context (s : PoolState) (c : Z).

Definition grow (acc : Totals) (ps : list Position) : Totals := {|
    seen := rev (accountId <$> ps) ++ seen acc;
    tot_supply := tot_supply acc + sum_by supplyShares ps;
    tot_debt := tot_debt acc + sum_by debtShares ps;
    tot_bad := tot_bad acc + sum_by pos_badDebtAssets ps;
    tot_claims := tot_claims acc + sum_by (claim_of s c) ps |}.

Lemma check_position_Ok acc p acc' :
    check_position s c acc p = Ok acc' ->
    position_ok p /\ (accountId p ∉ seen acc) /\ acc' = grow acc [p] /\
    (0 < totalSupplyShares s -> uint c).
  Proof.
    unfold check_position, grow, claim_of. intros H. result_inv. uint_inv.
    match goal with E : assertReferenceAccountId _ = _ |- _ =>
      pose proof (assertReferenceAccountId_value _ _ E); subst end.
    match goal with E : bool_decide _ = false |- _ => apply bool_decide_eq_false in E end.
    rewrite !sum_by_cons, !sum_by_nil, !Z.add_0_r. cbn [fmap list_fmap rev app].
    destruct (Z.ltb_spec 0 (totalSupplyShares s)).
    - match goal with E : mulDivDown _ _ _ = _ |- _ => apply mulDivDown_Ok in E as (? & ? & ? & ? & ->) end.
      split_and!; [by constructor|done|done|done].
    - result_inv. split_and!; [by constructor|done|done|lia].
  Qed.

Lemma check_position_pass acc p :
    position_ok p -> accountId p ∉ seen acc -> uint (totalSupplyShares s) ->
    (0 < totalSupplyShares s -> uint c) ->
    check_position s c acc p = Ok (grow acc [p]).
  Proof.
    intros [Hid ? ? ? ?] Hseen Ht Hc. unfold check_position, grow, claim_of.
    rewrite Hid. cbn [mbind result_bind]. rewrite bool_decide_false by done. cbn [invalid_if mbind result_bind].
    repeat (rewrite assertReferenceUint_pass by done; cbn [mbind result_bind]).
    rewrite !sum_by_cons, !sum_by_nil, !Z.add_0_r.
    destruct (Z.ltb_spec 0 (totalSupplyShares s)); [|done].
    by rewrite mulDivDown_pass by auto.
  Qed.

Lemma grow_cons acc p ps : grow (grow acc [p]) ps = grow acc (p :: ps).
  Proof.
    unfold grow; cbn [seen tot_supply tot_debt tot_bad tot_claims].
    rewrite !sum_by_cons, !sum_by_nil, !Z.add_0_r, <- !Z.add_assoc, fmap_cons.
    cbn [rev fmap list_fmap app]. by rewrite <- app_assoc.
  Qed.

Lemma check_positions_Ok acc ps acc' :
    check_positions s c acc ps = Ok acc' ->
    Forall position_ok ps /\ NoDup (accountId <$> ps) /\
    (forall p, p ∈ ps -> accountId p ∉ seen acc) /\ acc' = grow acc ps /\
    (ps <> [] -> 0 < totalSupplyShares s -> uint c).
  Proof.
    revert acc. induction ps as [|p ps IH]; intros acc; cbn [check_positions].
    - intros [= <-]. unfold grow. rewrite !sum_by_nil, !Z.add_0_r. destruct acc.
      split_and!; try constructor; try done; set_solver.
    - rewrite bind_Ok. intros (acc1 & (Hp & Hseen & -> & Hc)%check_position_Ok & H).
      apply IH in H as (Hps & Hnd & Hs & -> & Hc'). rewrite grow_cons.
      split_and!; [by constructor| | |done|done].
      2: { intros q [->|Hq]%elem_of_cons; [done|]. specialize (Hs q Hq). cbn in Hs. set_solver. }
      rewrite fmap_cons, NoDup_cons. split; [|done].
      intros (q & Heq & Hq)%list_elem_of_fmap. apply (Hs q Hq). rewrite <- Heq. cbn. by left.
  Qed.

Lemma check_positions_pass acc ps :
    Forall position_ok ps -> NoDup (accountId <$> ps) ->
    (forall p, p ∈ ps -> accountId p ∉ seen acc) -> uint (totalSupplyShares s) ->
    (0 < totalSupplyShares s -> uint c) ->
    check_positions s c acc ps = Ok (grow acc ps).
  Proof.
    intros Hps Hnd Hs Ht Hc. revert acc Hs. induction ps as [|p ps IH]; intros acc Hs; cbn [check_positions].
    - unfold grow. rewrite !sum_by_nil, !Z.add_0_r. by destruct acc.
    - inversion Hps; subst. rewrite fmap_cons, NoDup_cons in Hnd. destruct Hnd as [Hp Hnd].
      rewrite check_position_pass by (auto; apply Hs; left). cbn [mbind result_bind].
      rewrite IH, grow_cons; try done. intros q Hq. cbn. rewrite not_elem_of_cons. split.
      + intros Heq. apply Hp, list_elem_of_fmap. by exists q.
      + apply Hs. by right.
  Qed.
End check_positions.

(** The floors of the pro-rata claims never add up to more than the whole claim. *)
Lemma claims_within s c ps :
  0 <= c -> (forall p, p ∈ ps -> 0 <= supplyShares p) ->
  sum_by supplyShares ps <= totalSupplyShares s ->
  sum_by (claim_of s c) ps <= c.
Proof.
  intros Hc Hpos Hsum. unfold claim_of.
  destruct (Z.ltb_spec 0 (totalSupplyShares s)) as [Ht|Ht].
  - assert (H : sum_by (fun p => supplyShares p * c / totalSupplyShares s) ps * totalSupplyShares s
                <= sum_by supplyShares ps * c).
    { clear Hsum. induction ps as [|p ps IH]; [done|]. rewrite !sum_by_cons.
      pose proof (floor_div_spec (supplyShares p * c) (totalSupplyShares s) Ht).
      assert (forall q, q ∈ ps -> 0 <= supplyShares q) by (intros; apply Hpos; by right).
      specialize (IH ltac:(done)). nia. }
    assert (0 <= sum_by supplyShares ps) by (by apply sum_by_nonneg). nia.
  - clear Hsum Hpos. induction ps as [|p ps IH]; [done|]. rewrite sum_by_cons. lia.
Qed.

(** ** Reflection *)

Theorem assertPoolReferenceInvariants_Inv s r :
  assertPoolReferenceInvariants s = Ok r -> PoolInv s.
Proof.
  unfold assertPoolReferenceInvariants. intros H. result_inv. uint_inv.
  match goal with E : check_fields _ = _ |- _ => apply check_fields_Ok in E as Hf end.
  match goal with E : check_positions _ _ _ _ = _ |- _ =>
    apply check_positions_Ok in E as (Hp & Hnd & _ & -> & Hc) end.
  cbn [grow seen tot_supply tot_debt tot_bad tot_claims] in *.
  destruct Hf.
  repeat match goal with E : _ || _ = false |- _ => apply orb_false_iff in E as [? ?] end.
  repeat match goal with E : negb _ = false |- _ => apply negb_false_iff in E end.
  repeat match goal with E : String.eqb _ _ = true |- _ => apply String.eqb_eq in E end.
  match goal with E : Bool.eqb _ _ = true |- _ => apply eqb_prop in E end.
  constructor; try done; try lia.
  - intros Ht. apply Hc; [|done]. intros Hnil. rewrite Hnil, sum_by_nil in *. lia.
  - intros o Ho. rewrite Ho in *. unfold oracle_ok.
    match goal with E : assertPoolReferenceOracleBinding o = Ok ?u |- _ => by destruct u end.
Qed.

Theorem assertPoolReferenceInvariants_pass s :
  PoolInv s ->
  assertPoolReferenceInvariants s = Ok {|
    rep_lpClaimAssets := poolReferenceLpClaimAssets s;
    rep_performingDebtAssets := poolReferencePerformingDebtAssets s;
    rep_aggregateSupplyClaims := sum_by (claim_of s (poolReferenceLpClaimAssets s)) (positions s);
    rep_positions := Z.of_nat (length (positions s)) |}.
Proof.
  intros [Hsv Hpv Hf Hbad Hps Hnd Hclaim Hss Hsd Hsb Hempty Hcover Horacle].
  unfold assertPoolReferenceInvariants. rewrite Hsv, Hpv, !String.eqb_refl. cbn [negb orb invalid_if mbind result_bind].
  rewrite (proj2 (check_fields_Ok s ()) Hf). cbn [mbind result_bind].
  rewrite (proj2 (Z.ltb_ge _ _) Hbad). cbn [invalid_if mbind result_bind].
  rewrite check_positions_pass; [|done|done|set_solver|apply Hf|done].
  cbn [mbind result_bind grow tot_supply tot_debt tot_bad tot_claims].
  rewrite !Z.add_0_l, Hss, Hsd, Hsb, !Z.eqb_refl. cbn [negb orb].
  assert (Hcl : sum_by (claim_of s (poolReferenceLpClaimAssets s)) (positions s)
                <= poolReferenceLpClaimAssets s).
  { apply claims_within; [apply lp_claim_nonneg| |lia].
    intros p Hp. rewrite Forall_forall in Hps. destruct (Hps p Hp). uint_lia. }
  rewrite (proj2 (Z.ltb_ge _ _) Hcl).
  cbn [invalid_if mbind result_bind].
  replace (Bool.eqb _ _) with true.
  2: { symmetry. apply eqb_true_iff.
       destruct (Z.eqb_spec (poolReferencePerformingDebtAssets s) 0),
                (Z.eqb_spec (totalDebtShares s) 0); tauto. }
  rewrite (proj2 (Z.ltb_ge _ _) Hcover). cbn [negb invalid_if mbind result_bind].
  destruct (lastAcceptedOracle s) as [o|]; [|done]. by rewrite (Horacle o eq_refl).
Qed.
