(* ===== verification/PoolModel.v ===== *)
(** * Secured pool: the transitions

    src/packages/domain/src/secured-pool-reference-model.js.  Every transition
    clones the state, accrues interest up to [now], checks its guards, moves
    assets and shares, and runs the accounting check on what it returns.  The
    JavaScript [position] is a reference into [state.positions]; here it is
    named by its account id, read with [findPoolReferencePosition] and written
    with [update_position]. *)

From stdpp Require Import base tactics sets strings numbers list.
From S2P Require Import Prelude PoolMath PoolState.
Local Open Scope Z_scope.

(** ** Field updates *)

(** [next.cashAssets += cash], [next.grossDebtAssets += gross] and so on: what
    one transition adds to each aggregate (a subtraction is a negative amount). *)
Definition move (s : PoolState) (cash gross reserves bad supply debt : Z) : PoolState :=
  MkPool (schemaVersion s) (policyVersion s) (cashAssets s + cash) (grossDebtAssets s + gross)
    (reservesAssets s + reserves) (badDebtAssets s + bad) (totalSupplyShares s + supply)
    (totalDebtShares s + debt) (lastAccruedAt s) (marketDebtCapAssets s) (borrowerDebtCapAssets s)
    (lastAcceptedOracle s) (positions s).

(** The writes of one accrual chunk: [i] interest, [r] of it to reserves, [t] seconds. *)
Definition grown (s : PoolState) (i r t : Z) : PoolState :=
  MkPool (schemaVersion s) (policyVersion s) (cashAssets s) (grossDebtAssets s + i)
    (reservesAssets s + r) (badDebtAssets s) (totalSupplyShares s) (totalDebtShares s)
    (lastAccruedAt s + t) (marketDebtCapAssets s) (borrowerDebtCapAssets s)
    (lastAcceptedOracle s) (positions s).

Definition set_oracle (o : OracleObservation) (s : PoolState) : PoolState :=
  MkPool (schemaVersion s) (policyVersion s) (cashAssets s) (grossDebtAssets s)
    (reservesAssets s) (badDebtAssets s) (totalSupplyShares s) (totalDebtShares s)
    (lastAccruedAt s) (marketDebtCapAssets s) (borrowerDebtCapAssets s)
    (Some o) (positions s).
Definition set_positions (ps : list Position) (s : PoolState) : PoolState :=
  MkPool (schemaVersion s) (policyVersion s) (cashAssets s) (grossDebtAssets s)
    (reservesAssets s) (badDebtAssets s) (totalSupplyShares s) (totalDebtShares s)
    (lastAccruedAt s) (marketDebtCapAssets s) (borrowerDebtCapAssets s)
    (lastAcceptedOracle s) ps.

Definition add_supplyShares (n : Z) (p : Position) : Position :=
  MkPosition (accountId p) (supplyShares p + n) (collateralAssets p) (debtShares p) (pos_badDebtAssets p).
Definition add_collateral (n : Z) (p : Position) : Position :=
  MkPosition (accountId p) (supplyShares p) (collateralAssets p + n) (debtShares p) (pos_badDebtAssets p).
Definition add_debtShares (n : Z) (p : Position) : Position :=
  MkPosition (accountId p) (supplyShares p) (collateralAssets p) (debtShares p + n) (pos_badDebtAssets p).
Definition add_positionBad (n : Z) (p : Position) : Position :=
  MkPosition (accountId p) (supplyShares p) (collateralAssets p) (debtShares p) (pos_badDebtAssets p + n).

(** A write through the reference that [find] returned: the first match. *)
Fixpoint update_first (id : string) (f : Position -> Position) (ps : list Position) : list Position :=
  match ps with
  | [] => []
  | p :: ps => if String.eqb (accountId p) id then f p :: ps else p :: update_first id f ps
  end.

Definition update_position (id : string) (f : Position -> Position) (s : PoolState) : PoolState :=
  set_positions (update_first id f (positions s)) s.

(** ** Helpers of the source *)

Definition mutablePosition (state : PoolState) (id : string) : PoolState :=
  match find_position id (positions state) with
  | Some _ => state
  | None => set_positions (positions state ++ [emptyPoolReferencePosition id]) state
  end.

Definition oracle_out_of_window (observation : OracleObservation) (now : Z) : bool :=
  let policy := M2_POOL_REFERENCE_POLICY in
  (now + maxOracleFutureSkewSeconds policy <? observedAt observation) ||
  ((observedAt observation <? now) && (maxOracleAgeSeconds policy <? now - observedAt observation)).

Definition assertCurrentOracle (state : PoolState) (now : Z) : result OracleObservation :=
  assertReferenceUint "now" now false ;;
  match lastAcceptedOracle state with
  | None => unavailablePoolAction "a valid accepted oracle observation is required"
  | Some observation =>
      assertPoolReferenceOracleBinding observation ;;
      unavailable_if (oracle_out_of_window observation now)
        "oracle observation is stale or too far in the future" ;;
      Ok observation
  end.

Record Accrual := MkAccrual {
  acc_state : PoolState; interestAccruedAssets : Z; reservesAccruedAssets : Z; chunks : Z }.

Definition with_state (a : Accrual) (s : PoolState) : Accrual :=
  MkAccrual s (interestAccruedAssets a) (reservesAccruedAssets a) (chunks a).

(** One iteration of the [while] loop of [accrueInternal]. *)
Definition accrueChunk (now : Z) (a : Accrual) : result Accrual :=
  let policy := M2_POOL_REFERENCE_POLICY in
  let next := acc_state a in
  let remaining := now - lastAccruedAt next in
  elapsedSeconds ← minReference [remaining; maxAccrualChunkSeconds policy];
  let performingDebt := poolReferencePerformingDebtAssets next in
  if 0 <? performingDebt then
    borrowAprBps ← calculateBorrowAprBps (cashAssets next) performingDebt;
    accrual ← calculateInterestAtRate performingDebt borrowAprBps elapsedSeconds;
    Ok (MkAccrual
          (grown next (accrual.1) (accrual.2) elapsedSeconds)
          (interestAccruedAssets a + accrual.1) (reservesAccruedAssets a + accrual.2)
          (chunks a + 1))
  else
    Ok (MkAccrual (grown next 0 0 elapsedSeconds)
          (interestAccruedAssets a) (reservesAccruedAssets a) (chunks a + 1)).

(** The error of a loop cut short; the code has no such error and
    [accrueInternal] never returns it. *)
Definition fuel_exhausted : DomainError := MkDomainError "fuel_exhausted" "".

Fixpoint accrueLoop (fuel : nat) (now : Z) (a : Accrual) : result Accrual :=
  if lastAccruedAt (acc_state a) <? now then
    match fuel with
    | O => Err fuel_exhausted
    | S fuel => a' ← accrueChunk now a; accrueLoop fuel now a'
    end
  else Ok a.

Definition accrueInternal (state : PoolState) (now : Z) : result Accrual :=
  assertReferenceUint "now" now false ;;
  assertPoolReferenceInvariants state ;;
  unavailable_if (now <? lastAccruedAt state) "accrual timestamp regressed" ;;
  let policy := M2_POOL_REFERENCE_POLICY in
  let elapsed := now - lastAccruedAt state in
  requiredChunks ← (if elapsed =? 0 then Ok 0
                    else mulDivUp elapsed 1 (maxAccrualChunkSeconds policy));
  unavailable_if (maxAccrualChunksPerTransition policy <? requiredChunks)
    "accrual catch-up exceeds the bounded reference-model window" ;;
  accrued ← accrueLoop (Z.to_nat requiredChunks) now (MkAccrual state 0 0 0);
  assertPoolReferenceInvariants (acc_state accrued) ;;
  Ok accrued.

Record Repayment := MkRepayment {
  sharesBurned : Z; debtReducedAssets : Z; reserveDustAssets : Z }.

Definition repayPerformingInternal (state : PoolState) (id : string) (amountAssets : Z)
    : result (PoolState * Repayment) :=
  let position := findPoolReferencePosition state id in
  let performingDebt := poolReferencePerformingDebtAssets state in
  quotedDebtAssets ← positionPerformingDebtAssets state position;
  unavailable_if ((quotedDebtAssets =? 0) || (quotedDebtAssets <? amountAssets))
    "repayment exceeds the current performing debt quote" ;;
  burned ← (if amountAssets =? quotedDebtAssets
            then Ok (debtShares position, amountAssets)
            else
              shares ← mulDivDown amountAssets (totalDebtShares state) performingDebt;
              unavailable_if (shares =? 0) "repayment would burn zero debt shares" ;;
              reduced ← mulDivUp shares performingDebt (totalDebtShares state);
              Ok (shares, reduced));
  let (shares, reduced) := (burned : Z * Z) in
  let dust := amountAssets - reduced in
  Ok (update_position id (add_debtShares (- shares))
        (move state amountAssets (- reduced) dust 0 0 (- shares)),
      MkRepayment shares reduced dust).

Definition recognizeBadDebtInternal (state : PoolState) (id : string) : result (PoolState * Z) :=
  let position := findPoolReferencePosition state id in
  unavailable_if (negb (collateralAssets position =? 0) || (debtShares position =? 0))
    "bad debt requires exhausted collateral and remaining debt shares" ;;
  recognizedBadDebtAssets ← positionPerformingDebtAssets state position;
  Ok (update_position id (fun p => add_positionBad recognizedBadDebtAssets
                                     (add_debtShares (- debtShares p) p))
        (move state 0 0 0 recognizedBadDebtAssets 0 (- debtShares position)),
      recognizedBadDebtAssets).

(** ** Exported transitions *)

Definition createSecuredPoolReferenceState (initialTimestamp marketDebtCap borrowerDebtCap : Z)
    : result PoolState :=
  assertReferenceUint "initialTimestamp" initialTimestamp false ;;
  assertReferenceUint "marketDebtCapAssets" marketDebtCap true ;;
  assertReferenceUint "borrowerDebtCapAssets" borrowerDebtCap true ;;
  let state := {|
    schemaVersion := M2_POOL_REFERENCE_SCHEMA_VERSION;
    policyVersion := M2_POOL_REFERENCE_POLICY_VERSION;
    cashAssets := 0; grossDebtAssets := 0; reservesAssets := 0; badDebtAssets := 0;
    totalSupplyShares := 0; totalDebtShares := 0; lastAccruedAt := initialTimestamp;
    marketDebtCapAssets := marketDebtCap; borrowerDebtCapAssets := borrowerDebtCap;
    lastAcceptedOracle := None; positions := [] |} in
  assertPoolReferenceInvariants state ;;
  Ok state.

Record PoolAccounting := MkAccounting {
  ac_cashAssets : Z; ac_grossDebtAssets : Z; ac_performingDebtAssets : Z; ac_reservesAssets : Z;
  ac_badDebtAssets : Z; ac_grossAssets : Z; ac_lpClaimAssets : Z; ac_utilizationBps : Z;
  ac_borrowAprBps : Z; ac_supplyAprBps : Z; ac_exchangeRateWad : Z }.

Definition poolReferenceAccounting (state : PoolState) : result PoolAccounting :=
  assertPoolReferenceInvariants state ;;
  let performingDebt := poolReferencePerformingDebtAssets state in
  let claimAssets := poolReferenceLpClaimAssets state in
  utilization ← calculateUtilizationBps (cashAssets state) performingDebt;
  borrowApr ← calculateBorrowAprBps (cashAssets state) performingDebt;
  supplyApr ← calculateSupplyAprBps (cashAssets state) performingDebt;
  rate ← (if totalSupplyShares state =? 0 then Ok (wad M2_POOL_REFERENCE_POLICY)
          else mulDivDown claimAssets (wad M2_POOL_REFERENCE_POLICY) (totalSupplyShares state));
  Ok (MkAccounting (cashAssets state) (grossDebtAssets state) performingDebt (reservesAssets state)
        (badDebtAssets state) (cashAssets state + grossDebtAssets state) claimAssets
        utilization borrowApr supplyApr rate).

(** The position, its performing debt and its total outstanding debt. *)
Definition poolReferencePosition (state : PoolState) (requestedAccountId : string)
    : result (Position * Z * Z) :=
  assertPoolReferenceInvariants state ;;
  id ← assertReferenceAccountId requestedAccountId;
  let position := findPoolReferencePosition state id in
  performing ← positionPerformingDebtAssets state position;
  Ok (position, performing, performing + pos_badDebtAssets position).

Definition acceptPoolReferenceOracle (state : PoolState) (observation : OracleObservation) (now : Z)
    : result PoolState :=
  assertPoolReferenceInvariants state ;;
  assertReferenceUint "now" now false ;;
  assertPoolReferenceOracleBinding observation ;;
  let policy := M2_POOL_REFERENCE_POLICY in
  unavailable_if (oracle_out_of_window observation now)
    "oracle observation is stale or too far in the future" ;;
  match lastAcceptedOracle state with
  | Some previous =>
      unavailable_if (observedAt observation <? observedAt previous) "oracle timestamp regressed" ;;
      let difference := if priceUsdWad previous <? priceUsdWad observation
                        then priceUsdWad observation - priceUsdWad previous
                        else priceUsdWad previous - priceUsdWad observation in
      unavailable_if (priceUsdWad previous * maxOracleDeviationBps policy <? difference * bps policy)
        "oracle deviation exceeds the fixture bound" ;;
      unavailable_if ((observedAt observation =? observedAt previous) &&
                      (negb (String.eqb (roundId observation) (roundId previous)) ||
                       negb (priceUsdWad observation =? priceUsdWad previous)))
        "oracle observation conflicts at the accepted timestamp"
  | None => Ok ()
  end ;;
  let next := set_oracle observation state in
  assertPoolReferenceInvariants next ;;
  Ok next.

Definition accruePoolReferenceInterest (state : PoolState) (now : Z) : result Accrual :=
  accrueInternal state now.

(** The result is the accrual and [sharesMinted]. *)
Definition supplyPoolReferenceAssets (state : PoolState) (requestedAccountId : string) (amountAssets now : Z)
    : result (Accrual * Z) :=
  id ← assertReferenceAccountId requestedAccountId;
  assertReferenceUint "amountAssets" amountAssets true ;;
  accrued ← accrueInternal state now;
  let next := acc_state accrued in
  let claimBefore := poolReferenceLpClaimAssets next in
  sharesMinted ← (if totalSupplyShares next =? 0 then Ok amountAssets
                  else mulDivDown amountAssets (totalSupplyShares next) claimBefore);
  unavailable_if (sharesMinted =? 0) "supply would mint zero shares" ;;
  let next := move next amountAssets 0 0 0 sharesMinted 0 in
  let next := update_position id (add_supplyShares sharesMinted) (mutablePosition next id) in
  assertPoolReferenceInvariants next ;;
  Ok (with_state accrued next, sharesMinted).

(** The result is the accrual and [donatedAssets]. *)
Definition donatePoolReferenceCash (state : PoolState) (amountAssets now : Z) : result (Accrual * Z) :=
  assertReferenceUint "amountAssets" amountAssets true ;;
  accrued ← accrueInternal state now;
  let next := move (acc_state accrued) amountAssets 0 0 0 0 0 in
  assertPoolReferenceInvariants next ;;
  Ok (with_state accrued next, amountAssets).

(** The result is the accrual and [sharesBurned]. *)
Definition withdrawPoolReferenceAssets (state : PoolState) (requestedAccountId : string) (amountAssets now : Z)
    : result (Accrual * Z) :=
  id ← assertReferenceAccountId requestedAccountId;
  assertReferenceUint "amountAssets" amountAssets true ;;
  accrued ← accrueInternal state now;
  let next := acc_state accrued in
  unavailable_if (cashAssets next <? amountAssets) "withdrawal exceeds available cash" ;;
  let claimAssets := poolReferenceLpClaimAssets next in
  unavailable_if ((claimAssets =? 0) || (totalSupplyShares next =? 0)) "no LP claim is available" ;;
  burned ← mulDivUp amountAssets (totalSupplyShares next) claimAssets;
  let next := mutablePosition next id in
  let position := findPoolReferencePosition next id in
  unavailable_if ((burned =? 0) || (supplyShares position <? burned))
    "withdrawal exceeds the account share claim" ;;
  let next := update_position id (add_supplyShares (- burned))
                (move next (- amountAssets) 0 0 0 (- burned) 0) in
  assertPoolReferenceInvariants next ;;
  Ok (with_state accrued next, burned).

(** The result is the accrual, [amountAssets] and [sharesBurned]. *)
Definition redeemAllPoolReferenceShares (state : PoolState) (requestedAccountId : string) (now : Z)
    : result (Accrual * Z * Z) :=
  id ← assertReferenceAccountId requestedAccountId;
  accrued ← accrueInternal state now;
  let next := mutablePosition (acc_state accrued) id in
  let position := findPoolReferencePosition next id in
  unavailable_if (supplyShares position =? 0) "account has no supply shares" ;;
  amountAssets ← (if supplyShares position =? totalSupplyShares next
                  then Ok (poolReferenceLpClaimAssets next)
                  else mulDivDown (supplyShares position) (poolReferenceLpClaimAssets next)
                                  (totalSupplyShares next));
  unavailable_if ((amountAssets =? 0) || (cashAssets next <? amountAssets))
    "full redemption is not currently liquid" ;;
  let burned := supplyShares position in
  let next := update_position id (fun p => add_supplyShares (- supplyShares p) p)
                (move next (- amountAssets) 0 0 0 (- burned) 0) in
  assertPoolReferenceInvariants next ;;
  Ok (with_state accrued next, amountAssets, burned).

(** The result is the accrual and [collateralAddedAssets]. *)
Definition addPoolReferenceCollateral (state : PoolState) (requestedAccountId : string) (amountAssets now : Z)
    : result (Accrual * Z) :=
  id ← assertReferenceAccountId requestedAccountId;
  assertReferenceUint "amountAssets" amountAssets true ;;
  accrued ← accrueInternal state now;
  let next := update_position id (add_collateral amountAssets) (mutablePosition (acc_state accrued) id) in
  assertPoolReferenceInvariants next ;;
  Ok (with_state accrued next, amountAssets).

Record Health := MkHealth {
  h_priceUsdWad : Z; h_collateralValueAssets : Z; h_borrowCapacityAssets : Z;
  h_liquidationThresholdAssets : Z; h_debtAssets : Z; h_healthFactorWad : option Z;
  h_liquidatable : bool }.

Definition healthFromState (state : PoolState) (id : string) (now : Z)
    (collateralOverride : option Z) (debtIncrease : Z) : result Health :=
  oracle ← assertCurrentOracle state now;
  let position := findPoolReferencePosition state id in
  let collateral := default (collateralAssets position) collateralOverride in
  performing ← positionPerformingDebtAssets state position;
  let debtAssets := performing + pos_badDebtAssets position + debtIncrease in
  collateralValueAssets ← calculateCollateralValueAssets collateral (priceUsdWad oracle);
  let policy := M2_POOL_REFERENCE_POLICY in
  borrowCapacityAssets ← mulDivDown collateralValueAssets (loanToValueBps policy) (bps policy);
  liquidationThresholdAssets ←
    mulDivDown collateralValueAssets (liquidationThresholdBps policy) (bps policy);
  healthFactorWad ← (if debtAssets =? 0 then Ok None
                     else f ← mulDivDown liquidationThresholdAssets (wad policy) debtAssets; Ok (Some f));
  Ok (MkHealth (priceUsdWad oracle) collateralValueAssets borrowCapacityAssets
        liquidationThresholdAssets debtAssets healthFactorWad
        ((0 <? debtShares position) && (liquidationThresholdAssets <? debtAssets))).

Definition poolReferenceHealth (state : PoolState) (requestedAccountId : string) (now : Z) : result Health :=
  assertPoolReferenceInvariants state ;;
  id ← assertReferenceAccountId requestedAccountId;
  healthFromState state id now None 0.

(** The result is the accrual, [debtSharesMinted] and [healthAfter]. *)
Definition borrowPoolReferenceAssets (state : PoolState) (requestedAccountId : string) (amountAssets now : Z)
    : result (Accrual * Z * Health) :=
  id ← assertReferenceAccountId requestedAccountId;
  assertReferenceUint "amountAssets" amountAssets true ;;
  accrued ← accrueInternal state now;
  let next := mutablePosition (acc_state accrued) id in
  let position := findPoolReferencePosition next id in
  unavailable_if (0 <? pos_badDebtAssets position) "recognized bad debt blocks new risk" ;;
  unavailable_if (cashAssets next <? amountAssets) "borrow exceeds available cash" ;;
  debtBefore ← positionPerformingDebtAssets next position;
  healthAfter ← healthFromState next id now None amountAssets;
  unavailable_if (borrowerDebtCapAssets next <? debtBefore + amountAssets)
    "borrow exceeds the borrower fixture cap" ;;
  unavailable_if (marketDebtCapAssets next <? grossDebtAssets next + amountAssets)
    "borrow exceeds the market fixture cap" ;;
  unavailable_if (h_borrowCapacityAssets healthAfter <? h_debtAssets healthAfter)
    "borrow exceeds collateral capacity" ;;
  let performingBefore := poolReferencePerformingDebtAssets next in
  debtSharesMinted ← (if totalDebtShares next =? 0 then Ok amountAssets
                      else mulDivUp amountAssets (totalDebtShares next) performingBefore);
  let next := update_position id (add_debtShares debtSharesMinted)
                (move next (- amountAssets) amountAssets 0 0 0 debtSharesMinted) in
  assertPoolReferenceInvariants next ;;
  Ok (with_state accrued next, debtSharesMinted, healthAfter).

(** The result is the accrual, the repayment of performing debt when there was
    one, and [badDebtRecoveredAssets]. *)
Definition repayPoolReferenceAssets (state : PoolState) (requestedAccountId : string) (amountAssets now : Z)
    : result (Accrual * option Repayment * Z) :=
  id ← assertReferenceAccountId requestedAccountId;
  assertReferenceUint "amountAssets" amountAssets true ;;
  accrued ← accrueInternal state now;
  let next := mutablePosition (acc_state accrued) id in
  let position := findPoolReferencePosition next id in
  if 0 <? pos_badDebtAssets position then
    unavailable_if (negb (debtShares position =? 0) || (pos_badDebtAssets position <? amountAssets))
      "bad-debt recovery must remain within the recognized amount" ;;
    let next := update_position id (add_positionBad (- amountAssets))
                  (move next amountAssets (- amountAssets) 0 (- amountAssets) 0 0) in
    assertPoolReferenceInvariants next ;;
    Ok (with_state accrued next, None, amountAssets)
  else
    repaid ← repayPerformingInternal next id amountAssets;
    let (next, repayment) := (repaid : PoolState * Repayment) in
    assertPoolReferenceInvariants next ;;
    Ok (with_state accrued next, Some repayment, 0).

(** The result is the accrual, [collateralReleasedAssets] and [healthAfter]. *)
Definition releasePoolReferenceCollateral (state : PoolState) (requestedAccountId : string) (amountAssets now : Z)
    : result (Accrual * Z * Health) :=
  id ← assertReferenceAccountId requestedAccountId;
  assertReferenceUint "amountAssets" amountAssets true ;;
  accrued ← accrueInternal state now;
  let next := mutablePosition (acc_state accrued) id in
  let position := findPoolReferencePosition next id in
  unavailable_if (collateralAssets position <? amountAssets)
    "collateral release exceeds the account balance" ;;
  let remainingCollateral := collateralAssets position - amountAssets in
  healthAfter ← healthFromState next id now (Some remainingCollateral) 0;
  unavailable_if (h_borrowCapacityAssets healthAfter <? h_debtAssets healthAfter)
    "collateral release would exceed borrowing capacity" ;;
  let next := update_position id (add_collateral (- amountAssets)) next in
  assertPoolReferenceInvariants next ;;
  Ok (with_state accrued next, amountAssets, healthAfter).

Record Liquidation := MkLiquidation {
  liq_repayment : Repayment; collateralSeizedAssets : Z; badDebtRecognizedAssets : Z;
  repaymentLimitAssets : Z; healthBefore : Health }.

Definition liquidatePoolReferencePosition (state : PoolState) (requestedAccountId : string)
    (repayAmountAssets now : Z) : result (Accrual * Liquidation) :=
  id ← assertReferenceAccountId requestedAccountId;
  assertReferenceUint "repayAmountAssets" repayAmountAssets true ;;
  accrued ← accrueInternal state now;
  let next := mutablePosition (acc_state accrued) id in
  let position := findPoolReferencePosition next id in
  health ← healthFromState next id now None 0;
  unavailable_if (negb (h_liquidatable health)) "position is not liquidatable" ;;
  let policy := M2_POOL_REFERENCE_POLICY in
  performingDebt ← positionPerformingDebtAssets next position;
  closeLimit ← mulDivDown performingDebt (closeFactorBps policy) (bps policy);
  collateralCoverageLimit ← mulDivUp (h_collateralValueAssets health) (bps policy)
                                     (bps policy + liquidationBonusBps policy);
  limit ← minReference [performingDebt; closeLimit; collateralCoverageLimit];
  unavailable_if (limit <? repayAmountAssets)
    "liquidation repayment exceeds the close or collateral limit" ;;
  repaid ← repayPerformingInternal next id repayAmountAssets;
  let (next, repayment) := (repaid : PoolState * Repayment) in
  seizeValueAssets ← mulDivUp repayAmountAssets (bps policy + liquidationBonusBps policy) (bps policy);
  collateralQuotedAssets ← calculateCollateralRequiredForValue seizeValueAssets (h_priceUsdWad health);
  seized ← minReference [collateralAssets (findPoolReferencePosition next id); collateralQuotedAssets];
  let next := update_position id (add_collateral (- seized)) next in
  let position := findPoolReferencePosition next id in
  recognized ← (if (collateralAssets position =? 0) && (0 <? debtShares position)
                then recognizeBadDebtInternal next id
                else Ok (next, 0));
  let (next, badDebt) := (recognized : PoolState * Z) in
  assertPoolReferenceInvariants next ;;
  Ok (with_state accrued next, MkLiquidation repayment seized badDebt limit health).
