(* ===== verification/PoolFacts.v ===== *)
(** * Secured pool: lemmas

    How the accounting check behaves under the writes the transitions make:
    positions, share arithmetic, and the accrual loop. *)

From stdpp Require Import base tactics sets strings numbers list.
From S2P Require Import Prelude PoolMath PoolState PoolModel.
Local Open Scope Z_scope.

(** ** Positions *)

Lemma find_position_id id ps p : find_position id ps = Some p -> accountId p = id /\ p ∈ ps.
Proof.
  unfold find_position. induction ps as [|q ps IH]; cbn; [done|].
  destruct (String.eqb_spec (accountId q) id) as [Hq|Hq].
  - intros [= ->]. split; [done|left].
  - intros H%IH. set_solver.
Qed.

Lemma find_position_None id ps : find_position id ps = None <-> id ∉ accountId <$> ps.
Proof.
  unfold find_position. induction ps as [|q ps IH]; cbn; [set_solver|].
  destruct (String.eqb_spec (accountId q) id); set_solver.
Qed.

Lemma update_first_ids id g ps :
  (forall p, accountId (g p) = accountId p) -> accountId <$> update_first id g ps = accountId <$> ps.
Proof.
  intros Hg. induction ps as [|q ps IH]; [done|]. cbn [update_first].
  destruct (String.eqb _ _); cbn; rewrite ?Hg; [done|]. f_equal. apply IH.
Qed.

Lemma update_first_sum (f : Position -> Z) id g ps p :
  find_position id ps = Some p ->
  sum_by f (update_first id g ps) = sum_by f ps + (f (g p) - f p).
Proof.
  unfold find_position. induction ps as [|q ps IH]; cbn; [done|].
  destruct (String.eqb _ _).
  - intros [= ->]. rewrite !sum_by_cons. lia.
  - intros H. rewrite !sum_by_cons, IH by done. lia.
Qed.

Lemma update_first_Forall (P : Position -> Prop) id g ps p :
  find_position id ps = Some p -> Forall P ps -> P (g p) -> Forall P (update_first id g ps).
Proof.
  unfold find_position. induction ps as [|q ps IH]; cbn; [done|].
  intros H Hall Hg. inversion Hall; subst. destruct (String.eqb _ _).
  - injection H as ->. by constructor.
  - constructor; auto.
Qed.

Lemma find_update_eq id g ps p :
  (forall p, accountId (g p) = accountId p) ->
  find_position id ps = Some p -> find_position id (update_first id g ps) = Some (g p).
Proof.
  intros Hg. unfold find_position. induction ps as [|q ps IH]; cbn; [done|].
  destruct (String.eqb _ _) eqn:E.
  - intros [= ->]. cbn. by rewrite Hg, E.
  - intros H. cbn. rewrite E. auto.
Qed.

Lemma find_update_ne id id' g ps :
  (forall p, accountId (g p) = accountId p) -> id <> id' ->
  find_position id' (update_first id g ps) = find_position id' ps.
Proof.
  intros Hg Hne. unfold find_position. induction ps as [|q ps IH]; cbn; [done|].
  destruct (String.eqb_spec (accountId q) id) as [Hq|Hq]; cbn; rewrite ?Hg.
  - destruct (String.eqb_spec (accountId q) id'); congruence.
  - destruct (String.eqb _ _); auto.
Qed.

(** The pool with the account's position present. *)
Lemma mutablePosition_find s id :
  find_position id (positions (mutablePosition s id)) = Some (findPoolReferencePosition s id).
Proof.
  unfold mutablePosition, findPoolReferencePosition.
  destruct (find_position id (positions s)) as [p|] eqn:E; [done|].
  cbn [default set_positions positions]. revert E. unfold find_position.
  induction (positions s) as [|q ps IH]; cbn.
  - by rewrite String.eqb_refl.
  - destruct (String.eqb _ _); [done|auto].
Qed.

Lemma mutablePosition_position s id :
  findPoolReferencePosition (mutablePosition s id) id = findPoolReferencePosition s id.
Proof. unfold findPoolReferencePosition at 1. by rewrite mutablePosition_find. Qed.

Lemma mutablePosition_other s id id' :
  id <> id' -> findPoolReferencePosition (mutablePosition s id) id' = findPoolReferencePosition s id'.
Proof.
  intros Hne. unfold mutablePosition, findPoolReferencePosition. destruct (find_position id _) eqn:E; [done|].
  cbn [set_positions positions]. f_equal. unfold find_position. induction (positions s) as [|q ps IH]; cbn.
  - by destruct (String.eqb_spec id id').
  - unfold find_position in E. cbn in E. destruct (String.eqb (accountId q) id) eqn:F; [done|].
    destruct (String.eqb (accountId q) id'); [done|]. apply IH, E.
Qed.

(** [mutablePosition] changes [positions] alone. *)
Lemma mutablePosition_fields s id :
  exists ps, mutablePosition s id = set_positions ps s.
Proof.
  unfold mutablePosition. destruct (find_position _ _); [|by eexists].
  exists (positions s). by destruct s.
Qed.

Lemma position_ok_empty id : account_id_ok id -> position_ok (emptyPoolReferencePosition id).
Proof. constructor; [done|..]; cbn; uint_lia. Qed.

Lemma inv_position s p : PoolInv s -> p ∈ positions s -> position_ok p.
Proof. intros [] Hp. rewrite Forall_forall in *. auto. Qed.

Lemma inv_find s id : PoolInv s -> account_id_ok id -> position_ok (findPoolReferencePosition s id).
Proof.
  intros Hinv Hid. unfold findPoolReferencePosition.
  destruct (find_position id (positions s)) eqn:E; cbn; [|by apply position_ok_empty].
  apply find_position_id in E as [_ Hin]. by eapply inv_position.
Qed.

Lemma find_accountId s id : accountId (findPoolReferencePosition s id) = id.
Proof.
  unfold findPoolReferencePosition. destruct (find_position _ _) eqn:E; cbn; [|done].
  by apply find_position_id in E as [? _].
Qed.

Lemma mutablePosition_Inv s id : account_id_ok id -> PoolInv s -> PoolInv (mutablePosition s id).
Proof.
  intros Hid Hinv. unfold mutablePosition. destruct (find_position id _) eqn:E; [done|].
  apply find_position_None in E. destruct Hinv as [? ? [] ? ? ? ? ? ? ? ? ? ?].
  constructor; cbn [set_positions schemaVersion policyVersion badDebtAssets grossDebtAssets positions
    totalSupplyShares totalDebtShares lastAcceptedOracle]; try done.
  - apply Forall_app. split; [done|]. constructor; [by apply position_ok_empty|constructor].
  - rewrite fmap_app. apply NoDup_app. split; [done|]. split; [|apply NoDup_singleton]. set_solver.
  - rewrite sum_by_app, sum_by_cons, sum_by_nil. cbn. lia.
  - rewrite sum_by_app, sum_by_cons, sum_by_nil. cbn. lia.
  - rewrite sum_by_app, sum_by_cons, sum_by_nil. cbn. lia.
Qed.

(** A position's shares are part of the totals. *)
Lemma inv_shares_le s p :
  PoolInv s -> p ∈ positions s ->
  0 <= supplyShares p <= totalSupplyShares s /\ 0 <= debtShares p <= totalDebtShares s /\
  0 <= pos_badDebtAssets p <= badDebtAssets s.
Proof.
  intros Hinv Hp. pose proof (inv_position s p Hinv Hp) as [].
  rewrite <- (inv_sum_supply s Hinv), <- (inv_sum_debt s Hinv), <- (inv_sum_bad s Hinv).
  assert (Hok : forall q, q ∈ positions s -> position_ok q) by (intros; by eapply inv_position).
  split_and!; try uint_lia; apply sum_by_elem; try done; intros q Hq; destruct (Hok q Hq); uint_lia.
Qed.

Lemma inv_find_shares_le s id :
  PoolInv s -> let p := findPoolReferencePosition s id in
  0 <= supplyShares p <= totalSupplyShares s /\ 0 <= debtShares p <= totalDebtShares s /\
  0 <= pos_badDebtAssets p <= badDebtAssets s.
Proof.
  intros Hinv. unfold findPoolReferencePosition. destruct (find_position id _) eqn:E; cbn.
  - apply find_position_id in E as [_ ?]. by apply inv_shares_le.
  - destruct (inv_fields s Hinv). uint_lia.
Qed.

(** The accounting check after a write to one position and to the totals. *)
Lemma PoolInv_write s s' id p g :
  PoolInv s -> find_position id (positions s) = Some p ->
  (forall q, accountId (g q) = accountId q) -> position_ok (g p) ->
  (schemaVersion s', policyVersion s', lastAccruedAt s', marketDebtCapAssets s',
   borrowerDebtCapAssets s', lastAcceptedOracle s') =
  (schemaVersion s, policyVersion s, lastAccruedAt s, marketDebtCapAssets s,
   borrowerDebtCapAssets s, lastAcceptedOracle s) ->
  positions s' = update_first id g (positions s) ->
  totalSupplyShares s' - totalSupplyShares s = supplyShares (g p) - supplyShares p ->
  totalDebtShares s' - totalDebtShares s = debtShares (g p) - debtShares p ->
  badDebtAssets s' - badDebtAssets s = pos_badDebtAssets (g p) - pos_badDebtAssets p ->
  uint (cashAssets s') -> uint (grossDebtAssets s') -> uint (reservesAssets s') ->
  uint (totalSupplyShares s') -> uint (poolReferenceLpClaimAssets s') ->
  0 <= badDebtAssets s' -> 0 <= totalDebtShares s' ->
  (poolReferencePerformingDebtAssets s' = 0 <-> totalDebtShares s' = 0) ->
  totalDebtShares s' <= poolReferencePerformingDebtAssets s' ->
  PoolInv s'.
Proof.
  intros [Hsv Hpv [] ? ? ? ? Hss Hsd Hsb ? ? ?] Hfind Hg Hok Heq Hps ? ? ? ? ? ? ? ? ? ? ? Hcov.
  injection Heq as Ea Eb Ec Ed Ee Ef. unfold poolReferencePerformingDebtAssets in Hcov.
  constructor; rewrite ?Ea, ?Eb, ?Ef, ?Hps; try done.
  - constructor; rewrite ?Ec, ?Ed, ?Ee; try done; uint_lia.
  - lia.
  - by eapply update_first_Forall.
  - by rewrite update_first_ids.
  - rewrite (update_first_sum _ _ _ _ _ Hfind). lia.
  - rewrite (update_first_sum _ _ _ _ _ Hfind). lia.
  - rewrite (update_first_sum _ _ _ _ _ Hfind). lia.
Qed.

(** ** Error codes *)

Definition invalid_code : string := "invalid_secured_pool_reference_model".
Definition unavailable_code : string := "secured_pool_action_unavailable".

(** [m] throws no other error than [codes]. *)
Definition throws_only {A} (codes : list string) (m : result A) : Prop :=
  forall e, m = Err e -> err_code e ∈ codes.

Lemma throws_bind {A B} codes (m : result A) (f : A -> result B) :
  throws_only codes m -> (forall a, m = Ok a -> throws_only codes (f a)) -> throws_only codes (m ≫= f).
Proof. intros Hm Hf e [?|(a & ? & ?)]%bind_Err; [auto|by eapply Hf]. Qed.

Lemma throws_Ok {A} codes (a : A) : throws_only codes (Ok a).
Proof. by intros e [=]. Qed.

Lemma throws_uint codes name v p : invalid_code ∈ codes -> throws_only codes (assertReferenceUint name v p).
Proof. intros ? e. unfold assertReferenceUint. by case_match; [intros [= <-]|]. Qed.

Lemma throws_invalid_if codes c text : invalid_code ∈ codes -> throws_only codes (invalid_if c text).
Proof. intros ? e. destruct c; [by intros [= <-]|done]. Qed.

Lemma throws_unavailable_if codes c text :
  unavailable_code ∈ codes -> throws_only codes (unavailable_if c text).
Proof. intros ? e. destruct c; [by intros [= <-]|done]. Qed.

Create HintDb throws.
#[export] Hint Resolve throws_Ok throws_uint throws_invalid_if throws_unavailable_if : throws.
Ltac throws :=
  repeat lazymatch goal with
  | |- throws_only _ (_ ≫= _) => apply throws_bind; [|intros ? _]
  | |- throws_only _ (if ?c then _ else _) => destruct c
  | |- throws_only _ (match ?x with _ => _ end) => destruct x
  | |- _ => solve [eauto 2 with throws]
  end.

Lemma throws_down codes a b d : invalid_code ∈ codes -> throws_only codes (mulDivDown a b d).
Proof. intros. unfold mulDivDown. throws. Qed.
#[export] Hint Resolve throws_down : throws.

Lemma throws_up codes a b d : invalid_code ∈ codes -> throws_only codes (mulDivUp a b d).
Proof. intros. unfold mulDivUp. throws. Qed.
#[export] Hint Resolve throws_up : throws.

Lemma throws_collect {A B} codes (f : A -> result B) l :
  (forall x, throws_only codes (f x)) -> throws_only codes (collect f l).
Proof. intros Hf. induction l; cbn [collect]; throws. Qed.

Lemma throws_min codes l : invalid_code ∈ codes -> throws_only codes (minReference l).
Proof.
  intros. destruct l; cbn [minReference]; [by intros ? [= <-]|].
  apply throws_bind; [apply throws_collect|]; throws.
Qed.
#[export] Hint Resolve throws_min : throws.

Lemma throws_chunk codes now a : invalid_code ∈ codes -> throws_only codes (accrueChunk now a).
Proof.
  intros. unfold accrueChunk, calculateBorrowAprBps, calculateUtilizationBps, calculateInterestAtRate. throws.
Qed.
#[export] Hint Resolve throws_chunk : throws.

(** ** The accrual loop *)

Lemma grown_grown s i r t i' r' t' : grown (grown s i r t) i' r' t' = grown s (i + i') (r + r') (t + t').
Proof. unfold grown; cbn. f_equal; lia. Qed.

Lemma grown_0 s : grown s 0 0 0 = s.
Proof. destruct s. unfold grown; cbn. f_equal; lia. Qed.

Definition week : Z := 604800.

(** A week of interest at any rate of the curve is less than 1/64 of the debt, rounded up. *)
Lemma interest_bound D apr e :
  0 < D -> 200 <= apr <= 7000 -> 0 <= e <= week ->
  0 <= ceil_div (D * (apr * e)) (365 * 24 * 60 * 60 * 10000) /\
  64 * ceil_div (D * (apr * e)) (365 * 24 * 60 * 60 * 10000) <= D + 64.
Proof.
  intros HD Ha He. unfold week in He.
  assert (Hp : 0 <= apr * e <= 7000 * 604800) by nia.
  pose proof (ceil_div_spec (D * (apr * e)) (365 * 24 * 60 * 60 * 10000) ltac:(lia)) as Hc.
  assert (0 <= D * (apr * e) <= D * (7000 * 604800)) by nia. lia.
Qed.

Lemma accrueChunk_Ok now a a' :
  accrueChunk now a = Ok a' ->
  let s := acc_state a in
  let D := poolReferencePerformingDebtAssets s in
  exists i r e,
    a' = MkAccrual (grown s i r e) (interestAccruedAssets a + i) (reservesAccruedAssets a + r) (chunks a + 1) /\
    e = Z.min (now - lastAccruedAt s) week /\
    0 <= 10 * r <= i /\ (D <= 0 -> i = 0) /\ (0 < D -> 64 * i <= D + 64).
Proof.
  unfold accrueChunk. intros H. result_inv.
  match goal with E : minReference _ = Ok ?e |- _ => apply minReference_Ok in E as [Hin Hall]; rename e into el end.
  policy. apply Forall_cons in Hall as [Hm1 Hall]. apply Forall_cons in Hall as [Hm2 _].
  assert (He : el = Z.min (now - lastAccruedAt (acc_state a)) week).
  { unfold week. apply elem_of_cons in Hin as [->|Hin%list_elem_of_singleton]; lia. }
  destruct (Z.ltb_spec 0 (poolReferencePerformingDebtAssets (acc_state a))) as [HD|HD].
  - match type of H with _ ≫= _ = _ => apply bind_Ok in H as (apr & Hapr & H) end.
    apply bind_Ok in H as ([i r] & Hi & [= <-]). unfold calculateInterestAtRate in Hi. policy.
    result_inv. repeat match goal with E : assertReferenceUint _ _ _ = _ |- _ => apply assertReferenceUint_Ok in E as (? & ? & _) end.
    match goal with E : mulDivUp _ _ _ = _ |- _ => apply mulDivUp_Ok in E as (? & ? & ? & ? & ->) end.
    match goal with E : mulDivDown _ _ _ = _ |- _ => apply mulDivDown_Ok in E as (? & ? & ? & ? & ->) end.
    apply calculateBorrowAprBps_bounds in Hapr.
    remember (Z.min (now - lastAccruedAt (acc_state a)) week) as el eqn:Hel.
    injection Hi as <- <-.
    assert (He0 : 0 <= el <= week) by (unfold week; uint_lia).
    pose proof (interest_bound _ apr el HD Hapr He0) as [Hi0 Hi64].
    pose proof (floor_div_spec (ceil_div (poolReferencePerformingDebtAssets (acc_state a) * (apr * el))
       (365 * 24 * 60 * 60 * 10000) * 1000) 10000 ltac:(lia)).
    do 3 eexists. split_and!; [reflexivity|done|lia..].
  - injection H as <-. exists 0, 0, el. split_and!; try lia.
    f_equal; lia.
Qed.

Lemma accrueLoop_Ok fuel now a a' :
  accrueLoop fuel now a = Ok a' -> lastAccruedAt (acc_state a) <= now ->
  let s := acc_state a in
  let D := poolReferencePerformingDebtAssets s in
  exists i r,
    a' = MkAccrual (grown s i r (now - lastAccruedAt s)) (interestAccruedAssets a + i)
           (reservesAccruedAssets a + r) (chunks a + ceil_div (now - lastAccruedAt s) week) /\
    0 <= 10 * r <= i /\ (D <= 0 -> i = 0).
Proof.
  revert a. induction fuel as [|fuel IH]; intros a; cbn [accrueLoop].
  all: destruct (Z.ltb_spec (lastAccruedAt (acc_state a)) now) as [Hlt|Hge]; intros H Hle.
  2, 4: injection H as <-; exists 0, 0; replace (now - _) with 0 by lia;
        rewrite grown_0, !Z.add_0_r; split_and!; try lia; by destruct a.
  - done.
  - apply bind_Ok in H as (a1 & (i & r & e & -> & He & Hr & H0 & _)%accrueChunk_Ok & H).
    assert (He' : 0 < e <= week /\ e <= now - lastAccruedAt (acc_state a)) by (unfold week in *; lia).
    apply IH in H; cbn [acc_state interestAccruedAssets reservesAccruedAssets chunks grown lastAccruedAt] in *; [|lia].
    destruct H as (i' & r' & -> & Hr' & H0'). exists (i + i'), (r + r').
    unfold poolReferencePerformingDebtAssets in *; cbn [grown grossDebtAssets badDebtAssets] in *.
    fold (grown (acc_state a) i r e). rewrite grown_grown.
    split_and!; [|lia|lia|lia].
    f_equal; try lia; [f_equal; lia|].
    pose proof (ceil_div_spec (now - (lastAccruedAt (acc_state a) + e)) week ltac:(done)).
    pose proof (ceil_div_spec (now - lastAccruedAt (acc_state a)) week ltac:(done)).
    unfold week in *. lia.
Qed.

(** The measure of the loop: the weeks that remain. *)
Lemma accrueLoop_no_exhaustion fuel now a :
  now - lastAccruedAt (acc_state a) <= Z.of_nat fuel * week ->
  throws_only [invalid_code] (accrueLoop fuel now a).
Proof.
  revert a. induction fuel as [|fuel IH]; intros a Hfuel; cbn [accrueLoop].
  all: destruct (Z.ltb_spec (lastAccruedAt (acc_state a)) now) as [Hlt|Hge]; try apply throws_Ok.
  - lia.
  - apply throws_bind; [apply throws_chunk; left|]. intros a1 H.
    apply IH. apply accrueChunk_Ok in H as (i & r & e & -> & He & _).
    cbn [acc_state grown lastAccruedAt]. unfold week in *. lia.
Qed.

(** *** Growth and totality *)

Lemma chunk_growth now a a' :
  accrueChunk now a = Ok a' -> 0 <= poolReferencePerformingDebtAssets (acc_state a) ->
  poolReferencePerformingDebtAssets (acc_state a) <= poolReferencePerformingDebtAssets (acc_state a') /\
  64 * (poolReferencePerformingDebtAssets (acc_state a') + 64) <=
    65 * (poolReferencePerformingDebtAssets (acc_state a) + 64).
Proof.
  intros (i & r & e & -> & _ & ? & ? & ?)%accrueChunk_Ok HD.
  unfold poolReferencePerformingDebtAssets in *; cbn [acc_state grown grossDebtAssets badDebtAssets] in *. lia.
Qed.

Lemma accrueLoop_growth fuel now a a' :
  accrueLoop fuel now a = Ok a' -> 0 <= poolReferencePerformingDebtAssets (acc_state a) ->
  (poolReferencePerformingDebtAssets (acc_state a') + 64) * 64 ^ Z.of_nat fuel <=
  (poolReferencePerformingDebtAssets (acc_state a) + 64) * 65 ^ Z.of_nat fuel.
Proof.
  revert a. induction fuel as [|fuel IH]; intros a; cbn [accrueLoop].
  all: destruct (Z.ltb_spec (lastAccruedAt (acc_state a)) now) as [Hlt|Hge]; intros H HD.
  2, 4: injection H as <-; apply Z.mul_le_mono_nonneg_l; [lia|]; apply Z.pow_le_mono_l; lia.
  - done.
  - apply bind_Ok in H as (a1 & Hc & H). destruct (chunk_growth _ _ _ Hc HD) as [Hm Hg].
    apply IH in H; [|lia]. rewrite Nat2Z.inj_succ, !Z.pow_succ_r by lia.
    assert (0 < 64 ^ Z.of_nat fuel) by (apply Z.pow_pos_nonneg; lia).
    assert (0 < 65 ^ Z.of_nat fuel) by (apply Z.pow_pos_nonneg; lia). nia.
Qed.

Lemma accrueChunk_total now a :
  let s := acc_state a in
  0 <= cashAssets s <= 2 ^ 200 -> 0 <= poolReferencePerformingDebtAssets s <= 2 ^ 200 ->
  uint now -> 0 <= lastAccruedAt s < now ->
  exists a', accrueChunk now a = Ok a'.
Proof.
  cbv zeta. intros Hc HD Hn Ht. unfold accrueChunk. policy.
  destruct (minReference_pass (now - lastAccruedAt (acc_state a)) [7 * 24 * 60 * 60]) as (e & He).
  { repeat constructor; uint_lia. }
  rewrite He. cbn [mbind result_bind].
  apply minReference_Ok in He as [Hin Hall]. apply Forall_cons in Hall as [_ Hall]. apply Forall_cons in Hall as [Hw _].
  assert (He0 : 0 <= e <= week).
  { unfold week. apply elem_of_cons in Hin as [->|Hin%list_elem_of_singleton]; lia. }
  destruct (Z.ltb_spec 0 (poolReferencePerformingDebtAssets (acc_state a))) as [Hpos|]; [|by eexists].
  destruct (calculateBorrowAprBps_pass (cashAssets (acc_state a)) (poolReferencePerformingDebtAssets (acc_state a)))
    as (apr & -> & Hapr); [uint_lia..|]. cbn [mbind result_bind].
  pose proof (interest_bound _ apr e Hpos Hapr He0) as [Hi0 Hi64]. unfold week in *.
  assert (0 <= apr * e <= 7000 * 604800) by nia.
  unfold calculateInterestAtRate. policy.
  do 3 (rewrite assertReferenceUint_pass by uint_lia; cbn [mbind result_bind]).
  rewrite mulDivUp_pass by uint_lia. cbn [mbind result_bind].
  rewrite mulDivDown_pass by uint_lia. by eexists.
Qed.

Lemma accrueLoop_total fuel now a :
  let s := acc_state a in
  0 <= cashAssets s <= 2 ^ 200 -> 0 <= poolReferencePerformingDebtAssets s ->
  (poolReferencePerformingDebtAssets s + 64) * 65 ^ Z.of_nat fuel <= 2 ^ 200 * 64 ^ Z.of_nat fuel ->
  uint now -> 0 <= lastAccruedAt s -> now - lastAccruedAt s <= Z.of_nat fuel * week ->
  exists a', accrueLoop fuel now a = Ok a'.
Proof.
  cbv zeta. revert a. induction fuel as [|fuel IH]; intros a Hc HD Hg Hn Ht Hf; cbn [accrueLoop].
  all: destruct (Z.ltb_spec (lastAccruedAt (acc_state a)) now) as [Hlt|Hge]; try (by eexists).
  - lia.
  - assert (P64 : 0 < 64 ^ Z.of_nat fuel) by (apply Z.pow_pos_nonneg; lia).
    assert (P65 : 64 ^ Z.of_nat fuel <= 65 ^ Z.of_nat fuel) by (apply Z.pow_le_mono_l; lia).
    rewrite Nat2Z.inj_succ, !Z.pow_succ_r in Hg by lia.
    destruct (accrueChunk_total now a) as (a1 & H1); [done|split; [done|nia]|done|done|].
    rewrite H1. cbn [mbind result_bind]. pose proof (chunk_growth _ _ _ H1 HD) as [Hm Hg1].
    apply accrueChunk_Ok in H1 as (i & r & e & -> & He & _).
    apply IH; cbn [acc_state] in *; try done; cbn [grown cashAssets lastAccruedAt] in *;
      unfold week in *; try lia. nia.
Qed.

(** 1024 chunks multiply the debt by less than 2^23. *)
Lemma growth_1024 n : 0 <= n <= 1024 -> 65 ^ n <= 2 ^ 23 * 64 ^ n.
Proof.
  intros Hn. assert (H : 65 ^ 1024 <= 2 ^ 23 * 64 ^ 1024) by (vm_compute; discriminate).
  replace 1024 with (n + (1024 - n)) in H by lia. rewrite !Z.pow_add_r in H by lia.
  assert (0 < 64 ^ (1024 - n)) by (apply Z.pow_pos_nonneg; lia).
  assert (64 ^ (1024 - n) <= 65 ^ (1024 - n)) by (apply Z.pow_le_mono_l; lia).
  assert (0 < 64 ^ n) by (apply Z.pow_pos_nonneg; lia).
  assert (0 < 65 ^ n) by (apply Z.pow_pos_nonneg; lia). nia.
Qed.

(** ** [accrueInternal] *)

Lemma accrueInternal_Ok s now a :
  accrueInternal s now = Ok a ->
  PoolInv s /\ PoolInv (acc_state a) /\ uint now /\ lastAccruedAt s <= now /\
  exists i r, a = MkAccrual (grown s i r (now - lastAccruedAt s)) i r (ceil_div (now - lastAccruedAt s) week) /\
    0 <= 10 * r <= i /\ (poolReferencePerformingDebtAssets s <= 0 -> i = 0) /\ chunks a <= 1024.
Proof.
  unfold accrueInternal. intros H. result_inv. uint_inv.
  repeat match goal with E : assertPoolReferenceInvariants _ = _ |- _ => apply assertPoolReferenceInvariants_Inv in E end.
  match goal with E : (now <? _) = false |- _ => apply Z.ltb_ge in E as Hle end.
  match goal with E : accrueLoop _ _ _ = Ok ?x |- _ =>
    apply accrueLoop_Ok in E as (i & r & Ha & Hr & Hi); [|done]; cbn in Ha; subst x end.
  split_and!; try done. exists i, r. split_and!; [done|lia|lia|exact Hi|]. policy.
  match goal with E : (1024 <? ?n) = false |- _ => apply Z.ltb_ge in E; rename n into n0 end.
  cbn [chunks]. destruct (Z.eqb_spec (now - lastAccruedAt s) 0) as [->|].
  - vm_compute. discriminate.
  - match goal with E : mulDivUp _ _ _ = _ |- _ => apply mulDivUp_Ok in E as (_ & _ & _ & _ & ->) end.
    rewrite Z.mul_1_r in *. done.
Qed.

(** A pool whose amounts are far from the 256-bit limit. *)
Definition LIM : Z := 2 ^ 120.
Record pool_small (s : PoolState) : Prop := {
  small_cash : cashAssets s <= LIM; small_gross : grossDebtAssets s <= LIM;
  small_reserves : reservesAssets s <= LIM; small_supply : totalSupplyShares s <= LIM;
  small_collateral : Forall (fun p => collateralAssets p <= LIM) (positions s);
  small_price : forall o, lastAcceptedOracle s = Some o -> priceUsdWad o <= LIM }.

Lemma PoolInv_grown s i r t :
  PoolInv s -> pool_small s -> 0 <= r <= i -> i <= 2 ^ 150 ->
  (poolReferencePerformingDebtAssets s <= 0 -> i = 0) -> uint (lastAccruedAt s + t) ->
  PoolInv (grown s i r t).
Proof.
  intros [? ? [] ? ? ? ? ? ? ? He ? ?] [] Hr Hi H0 Ht. unfold LIM in *.
  constructor; cbn [grown schemaVersion policyVersion badDebtAssets grossDebtAssets positions
    totalSupplyShares totalDebtShares lastAcceptedOracle]; try done.
  - constructor; cbn; try done; uint_lia.
  - lia.
  - intros Hs. unfold poolReferenceLpClaimAssets. cbn. case_match; uint_lia.
  - unfold poolReferencePerformingDebtAssets in *; cbn [grown badDebtAssets grossDebtAssets] in *. lia.
  - unfold poolReferencePerformingDebtAssets in *; cbn [grown badDebtAssets grossDebtAssets] in *. lia.
Qed.

(** From a reconciled pool of bounded amounts, accrual returns or reports that it
    is unavailable; the accounting check of its result never fires. *)
Lemma accrueInternal_total s now :
  PoolInv s -> pool_small s -> uint now ->
  (exists e, accrueInternal s now = Err e /\ err_code e = unavailable_code) \/
  (exists i r, accrueInternal s now =
     Ok (MkAccrual (grown s i r (now - lastAccruedAt s)) i r (ceil_div (now - lastAccruedAt s) week)) /\
     0 <= 10 * r <= i /\ i <= 2 ^ 150 /\ PoolInv (grown s i r (now - lastAccruedAt s))).
Proof.
  intros Hinv Hsmall Hn. pose proof (inv_fields s Hinv) as [].
  pose proof (inv_bad_le s Hinv) as Hbad.
  assert (HD : 0 <= poolReferencePerformingDebtAssets s <= LIM).
  { destruct Hsmall. unfold poolReferencePerformingDebtAssets. uint_lia. }
  unfold accrueInternal. rewrite assertReferenceUint_pass by done. cbn [mbind result_bind].
  rewrite (assertPoolReferenceInvariants_pass s Hinv). cbn [mbind result_bind].
  destruct (Z.ltb_spec now (lastAccruedAt s)) as [Hlt|Hge]; [left; by eexists|].
  cbn [unavailable_if mbind result_bind]. policy.
  set (el := now - lastAccruedAt s).
  replace (if el =? 0 then Ok 0 else mulDivUp el 1 (7 * 24 * 60 * 60))
    with (Ok (ceil_div el week)).
  2: { destruct (Z.eqb_spec el 0) as [->|]; [done|].
       rewrite mulDivUp_pass by (unfold el; uint_lia). by rewrite Z.mul_1_r. }
  cbn [mbind result_bind].
  destruct (Z.ltb_spec 1024 (ceil_div el week)) as [Hc|Hc]; [left; by eexists|].
  cbn [unavailable_if mbind result_bind].
  pose proof (ceil_div_spec el week ltac:(done)) as Hel.
  set (n := Z.to_nat (ceil_div el week)).
  assert (Hn0 : 0 <= ceil_div el week) by (unfold week, el in *; lia).
  assert (Hnz : Z.of_nat n = ceil_div el week) by (unfold n; lia).
  pose proof (growth_1024 (Z.of_nat n) ltac:(lia)) as Hg.
  assert (P64 : 0 < 64 ^ Z.of_nat n) by (apply Z.pow_pos_nonneg; lia).
  destruct (accrueLoop_total n now (MkAccrual s 0 0 0)) as (a & Ha); cbn [acc_state]; try done.
  { destruct Hsmall. unfold LIM in *. uint_lia. }
  { lia. }
  { unfold LIM in HD. nia. }
  { uint_lia. }
  { unfold el in *. lia. }
  pose proof (accrueLoop_growth n now _ _ Ha ltac:(cbn; lia)) as Hgrow. cbn [acc_state] in Hgrow.
  rewrite Ha. cbn [mbind result_bind].
  apply accrueLoop_Ok in Ha as (i & r & -> & Hr & H0); [|done].
  cbn [acc_state interestAccruedAssets reservesAccruedAssets chunks] in *.
  fold el in Hgrow |- *.
  assert (Hi : i <= 2 ^ 150).
  { unfold poolReferencePerformingDebtAssets, LIM in *. cbn [grown grossDebtAssets badDebtAssets] in *. nia. }
  assert (Hinv' : PoolInv (grown s i r el)) by (apply PoolInv_grown; try done; [lia|by replace (_ + el) with now by (unfold el; lia)]).
  rewrite (assertPoolReferenceInvariants_pass _ Hinv'). cbn [mbind result_bind].
  right. by exists i, r.
Qed.

(** ** Debt quotes and share arithmetic *)

(** A position's performing debt: its pro-rata part, rounded up. *)
Definition quote (s : PoolState) (p : Position) : Z :=
  if debtShares p =? 0 then 0
  else ceil_div (debtShares p * poolReferencePerformingDebtAssets s) (totalDebtShares s).

Lemma quote_Ok s p q :
  0 <= totalDebtShares s -> positionPerformingDebtAssets s p = Ok q -> q = quote s p.
Proof.
  unfold positionPerformingDebtAssets, quote. intros HS.
  destruct (Z.eqb_spec (debtShares p) 0); [by intros [= <-]|].
  destruct (Z.eqb_spec (debtShares p) (totalDebtShares s)) as [Heq|].
  - intros [= <-]. rewrite Heq in *. pose proof (ceil_div_spec (totalDebtShares s * poolReferencePerformingDebtAssets s)
      (totalDebtShares s) ltac:(lia)). nia.
  - by intros (_ & _ & _ & _ & ->)%mulDivUp_Ok.
Qed.

Lemma quote_pass s p :
  PoolInv s -> 0 <= debtShares p <= totalDebtShares s -> positionPerformingDebtAssets s p = Ok (quote s p).
Proof.
  intros Hinv Hd. pose proof (inv_fields s Hinv) as []. pose proof (inv_bad_le s Hinv).
  destruct (positionPerformingDebtAssets s p) as [q|e] eqn:E; [f_equal; apply quote_Ok; [uint_lia|done]|].
  exfalso. revert E. unfold positionPerformingDebtAssets.
  destruct (Z.eqb_spec (debtShares p) 0); [done|].
  destruct (Z.eqb_spec (debtShares p) (totalDebtShares s)); [done|].
  rewrite mulDivUp_pass; [done|..]; unfold poolReferencePerformingDebtAssets; uint_lia.
Qed.

(** Removing [b] of [S] shares and the rounded-up debt behind them keeps the
    remaining debt at least the remaining shares, and empties both together. *)
Lemma shares_burn S D b :
  0 < S <= D -> 0 <= b <= S ->
  let r := ceil_div (b * D) S in
  b <= r <= D /\ S - b <= D - r /\ (D - r = 0 <-> S - b = 0) /\ (D - r) * S <= D * (S - b).
Proof.
  intros HS Hb r. pose proof (ceil_div_spec (b * D) S ltac:(lia)) as Hr. fold r in Hr.
  assert (H1 : r <= D) by (apply ceil_div_le; nia).
  assert (H2 : S - b <= D - r).
  { unfold r. rewrite sub_ceil_floor by lia. apply Z.div_le_lower_bound; nia. }
  assert (H3 : b <= r) by nia. split_and!; try lia; nia.
Qed.

(** Minting shares for [a] rounded up never mints more than [a]. *)
Lemma shares_mint S D a :
  0 < S <= D -> 0 < a -> 0 < ceil_div (a * S) D <= a /\ (D + a) * S <= D * (S + ceil_div (a * S) D).
Proof.
  intros HS Ha. pose proof (ceil_div_spec (a * S) D ltac:(lia)) as Hm.
  split; [split; [|apply ceil_div_le]; nia|nia].
Qed.

Lemma quote_bounds s p :
  PoolInv s -> 0 <= debtShares p <= totalDebtShares s ->
  debtShares p <= quote s p <= poolReferencePerformingDebtAssets s /\
  (quote s p = 0 <-> debtShares p = 0).
Proof.
  intros Hinv Hd. pose proof (inv_cover s Hinv). pose proof (inv_fields s Hinv) as [].
  pose proof (inv_bad_le s Hinv).
  unfold quote. destruct (Z.eqb_spec (debtShares p) 0) as [E|E].
  - unfold poolReferencePerformingDebtAssets in *. lia.
  - destruct (shares_burn (totalDebtShares s) (poolReferencePerformingDebtAssets s) (debtShares p)) as (? & _); lia.
Qed.

(** The signed claim of the liquidity providers. *)
Definition equity (s : PoolState) : Z :=
  cashAssets s + grossDebtAssets s - reservesAssets s - badDebtAssets s.

Lemma claim_equity s : poolReferenceLpClaimAssets s = Z.max 0 (equity s).
Proof. unfold poolReferenceLpClaimAssets, equity. case_match; lia. Qed.
