(* ===== verification/PoolSafety.v ===== *)
(** * Secured pool: the accounting check never fires

    Every transition ends by re-checking the whole pool.  From a reconciled
    pool whose amounts are below 2^120 the check is redundant: a transition
    returns, or it reports that the action is unavailable. *)

From stdpp Require Import base tactics sets strings numbers list.
From S2P Require Import Prelude PoolMath PoolState PoolModel PoolFacts.
Local Open Scope Z_scope.

Inductive PoolAction :=
| AcceptOracle (o : OracleObservation)
| AccrueInterest
| SupplyAssets (id : string) (amount : Z)
| DonateCash (amount : Z)
| WithdrawAssets (id : string) (amount : Z)
| RedeemAll (id : string)
| AddCollateral (id : string) (amount : Z)
| BorrowAssets (id : string) (amount : Z)
| RepayAssets (id : string) (amount : Z)
| ReleaseCollateral (id : string) (amount : Z)
| LiquidatePosition (id : string) (amount : Z).

(** The exported transitions, with the state they return. *)
Definition run_action (s : PoolState) (act : PoolAction) (now : Z) : result PoolState :=
  match act with
  | AcceptOracle o => acceptPoolReferenceOracle s o now
  | AccrueInterest => a ← accruePoolReferenceInterest s now; Ok (acc_state a)
  | SupplyAssets id n => r ← supplyPoolReferenceAssets s id n now; Ok (acc_state r.1)
  | DonateCash n => r ← donatePoolReferenceCash s n now; Ok (acc_state r.1)
  | WithdrawAssets id n => r ← withdrawPoolReferenceAssets s id n now; Ok (acc_state r.1)
  | RedeemAll id => r ← redeemAllPoolReferenceShares s id now; Ok (acc_state r.1.1)
  | AddCollateral id n => r ← addPoolReferenceCollateral s id n now; Ok (acc_state r.1)
  | BorrowAssets id n => r ← borrowPoolReferenceAssets s id n now; Ok (acc_state r.1.1)
  | RepayAssets id n => r ← repayPoolReferenceAssets s id n now; Ok (acc_state r.1.1)
  | ReleaseCollateral id n => r ← releasePoolReferenceCollateral s id n now; Ok (acc_state r.1.1)
  | LiquidatePosition id n => r ← liquidatePoolReferencePosition s id n now; Ok (acc_state r.1)
  end.

(** Well-formed inputs of bounded size. *)
Definition amount_ok (n : Z) : Prop := 0 < n <= LIM.
Definition action_ok (act : PoolAction) : Prop :=
  match act with
  | AcceptOracle o => oracle_ok o
  | AccrueInterest => True
  | RedeemAll id => account_id_ok id
  | DonateCash n => amount_ok n
  | SupplyAssets id n | WithdrawAssets id n | AddCollateral id n | BorrowAssets id n
  | RepayAssets id n | ReleaseCollateral id n | LiquidatePosition id n =>
      account_id_ok id /\ amount_ok n
  end.

(** ** After accrual *)

Record ready (s : PoolState) : Prop := {
  rd_inv : PoolInv s;
  rd_cash : 0 <= cashAssets s <= 2 ^ 120; rd_gross : 0 <= grossDebtAssets s <= 2 ^ 151;
  rd_reserves : 0 <= reservesAssets s <= 2 ^ 151; rd_supply : 0 <= totalSupplyShares s <= 2 ^ 120;
  rd_bad : 0 <= badDebtAssets s <= grossDebtAssets s;
  rd_debt : 0 <= totalDebtShares s <= poolReferencePerformingDebtAssets s;
  rd_collateral : Forall (fun p => collateralAssets p <= 2 ^ 120) (positions s);
  rd_price : forall o, lastAcceptedOracle s = Some o -> priceUsdWad o <= 2 ^ 120 }.

Lemma ready_grown s i r t :
  pool_small s -> PoolInv s -> PoolInv (grown s i r t) -> 0 <= 10 * r <= i -> i <= 2 ^ 150 ->
  ready (grown s i r t).
Proof.
  intros [] Hs Hinv Hr Hi. pose proof (inv_fields _ Hinv) as []. pose proof (inv_bad_le _ Hinv).
  pose proof (inv_cover _ Hinv). unfold LIM in *. cbn [grown cashAssets grossDebtAssets reservesAssets
    totalSupplyShares totalDebtShares badDebtAssets] in *.
  constructor; cbn [grown cashAssets grossDebtAssets reservesAssets totalSupplyShares totalDebtShares
    badDebtAssets positions lastAcceptedOracle] in *; try done; uint_lia.
Qed.

Lemma ready_mutable s id : account_id_ok id -> ready s -> ready (mutablePosition s id).
Proof.
  intros Hid []. pose proof (mutablePosition_Inv s id Hid ltac:(done)).
  unfold mutablePosition in *. destruct (find_position id _); [done|].
  constructor; try done. cbn. apply Forall_app. split; [done|]. constructor; [cbn; lia|constructor].
Qed.

Lemma ready_find s id :
  ready s -> let p := findPoolReferencePosition s id in
  0 <= supplyShares p <= totalSupplyShares s /\ 0 <= debtShares p <= totalDebtShares s /\
  0 <= pos_badDebtAssets p <= badDebtAssets s /\ 0 <= collateralAssets p <= 2 ^ 120.
Proof.
  intros [Hinv ? ? ? ? ? ? Hcol ?] p. pose proof (inv_find_shares_le s id Hinv) as (? & ? & ?).
  do 3 (split; [done|]). unfold p, findPoolReferencePosition.
  destruct (find_position id (positions s)) eqn:E; cbn; [|lia].
  apply find_position_id in E as [_ Hin]. destruct (inv_position s _ Hinv Hin).
  rewrite Forall_forall in Hcol. split; [uint_lia|by apply Hcol].
Qed.

(** A transition that accrues first. *)
Lemma after_accrual {A} s now (k : Accrual -> result A) :
  PoolInv s -> pool_small s -> uint now ->
  (forall i r, ready (grown s i r (now - lastAccruedAt s)) -> 0 <= 10 * r <= i ->
     throws_only [unavailable_code]
       (k (MkAccrual (grown s i r (now - lastAccruedAt s)) i r (ceil_div (now - lastAccruedAt s) week)))) ->
  throws_only [unavailable_code] (accrueInternal s now ≫= k).
Proof.
  intros Hinv Hsmall Hn Hk.
  destruct (accrueInternal_total s now Hinv Hsmall Hn) as [(e & -> & He)|(i & r & -> & Hr & Hi & Hinv')].
  - intros e' [= <-]. rewrite He. left.
  - cbn [mbind result_bind]. apply Hk; [by apply ready_grown|done].
Qed.

(** The final check passes. *)
Lemma check_passes {A} s (a : A) codes :
  PoolInv s -> throws_only codes (assertPoolReferenceInvariants s ;; Ok a).
Proof. intros H. rewrite (assertPoolReferenceInvariants_pass s H). apply throws_Ok. Qed.

(** Steps through a guard whose failure is an [unavailable] error. *)
Ltac unavailable_step E :=
  apply throws_bind;
  [apply throws_unavailable_if; left|intros ? E%unavailable_if_Ok]; cbn beta zeta.
Ltac pass_uint := rewrite assertReferenceUint_pass by (unfold amount_ok, LIM in *; uint_lia); cbn [mbind result_bind].
Ltac pass_id := match goal with H : account_id_ok _ |- _ => rewrite H end; cbn [mbind result_bind].

(** Side conditions of [PoolInv_write] that only unfold. *)
Ltac write_fields :=
  cbn [update_position set_positions move schemaVersion policyVersion lastAccruedAt marketDebtCapAssets
       borrowerDebtCapAssets lastAcceptedOracle positions cashAssets grossDebtAssets reservesAssets
       badDebtAssets totalSupplyShares totalDebtShares
       add_supplyShares add_collateral add_debtShares add_positionBad
       accountId supplyShares collateralAssets debtShares pos_badDebtAssets] in *.

Lemma mutablePosition_move s id c g r b u d :
  mutablePosition (move s c g r b u d) id = move (mutablePosition s id) c g r b u d.
Proof. unfold mutablePosition. cbn [move positions]. by case_match. Qed.

Lemma move_0 s : move s 0 0 0 0 0 0 = s.
Proof. unfold move. rewrite !Z.add_0_r. by destruct s. Qed.

(** [PoolInv_write] at the position [mutablePosition] made present. *)
Lemma write_mutable s id f c g r b u d :
  ready s -> account_id_ok id ->
  let p := findPoolReferencePosition s id in
  (forall q, accountId (f q) = accountId q) ->
  (supplyShares (f p) = supplyShares p + u /\ debtShares (f p) = debtShares p + d /\
   pos_badDebtAssets (f p) = pos_badDebtAssets p + b) ->
  0 <= supplyShares p + u <= 2 ^ 250 -> 0 <= debtShares p + d <= 2 ^ 250 ->
  0 <= pos_badDebtAssets p + b <= 2 ^ 250 -> 0 <= collateralAssets (f p) <= 2 ^ 250 ->
  0 <= cashAssets s + c <= 2 ^ 250 -> 0 <= grossDebtAssets s + g <= 2 ^ 250 ->
  0 <= reservesAssets s + r <= 2 ^ 250 ->
  (poolReferencePerformingDebtAssets s + g - b = 0 <-> totalDebtShares s + d = 0) ->
  totalDebtShares s + d <= poolReferencePerformingDebtAssets s + g - b ->
  PoolInv (update_position id f (move (mutablePosition s id) c g r b u d)).
Proof.
  intros Hr Hid p Hf (Hu & Hd & Hb) ? ? ? ? ? ? ? He Hc.
  pose proof (ready_mutable s id Hid Hr) as [Hinv].
  pose proof (ready_find s id Hr) as (K1 & K2 & K3 & K4). fold p in K1, K2, K3, K4. destruct Hr.
  pose proof (mutablePosition_find s id) as Hfind. fold p in Hfind.
  destruct (mutablePosition_fields s id) as (ps & Hps). rewrite Hps in *.
  unfold poolReferencePerformingDebtAssets in *.
  eapply (PoolInv_write (set_positions ps s) _ id p f); try done;
    unfold poolReferencePerformingDebtAssets; write_fields; rewrite ?claim_equity; unfold equity; write_fields.
  - constructor; rewrite ?Hu, ?Hd, ?Hb; try uint_lia. rewrite Hf. unfold p. by rewrite find_accountId.
  - lia.
  - lia.
  - lia.
  - uint_lia.
  - uint_lia.
  - uint_lia.
  - uint_lia.
  - uint_lia.
  - lia.
  - lia.
  - replace (grossDebtAssets s + g - (badDebtAssets s + b)) with (grossDebtAssets s - badDebtAssets s + g - b) by lia. done.
  - lia.
Qed.

Ltac write_done Hinv :=
  apply write_mutable; try done; write_fields;
  rewrite ?Z.add_0_r, ?Z.sub_0_r; try apply Hinv; unfold poolReferencePerformingDebtAssets in *; try lia.

(** ** Health *)

(** What a returned health report says. *)
Record health_of (s : PoolState) (id : string) (collateral increase : Z) (h : Health) : Prop := {
  ho_price : 0 < h_priceUsdWad h;
  ho_oracle : exists o, lastAcceptedOracle s = Some o /\ h_priceUsdWad h = priceUsdWad o;
  ho_value : h_collateralValueAssets h = collateral * (h_priceUsdWad h * 10 ^ 6) / 10 ^ 36;
  ho_capacity : h_borrowCapacityAssets h = h_collateralValueAssets h * 7500 / 10000;
  ho_threshold : h_liquidationThresholdAssets h = h_collateralValueAssets h * 8000 / 10000;
  ho_debt : h_debtAssets h = quote s (findPoolReferencePosition s id)
              + pos_badDebtAssets (findPoolReferencePosition s id) + increase;
  ho_liquidatable : h_liquidatable h =
    (0 <? debtShares (findPoolReferencePosition s id)) && (h_liquidationThresholdAssets h <? h_debtAssets h) }.

Lemma health_Ok s id now co inc h :
  0 <= totalDebtShares s -> healthFromState s id now co inc = Ok h ->
  health_of s id (default (collateralAssets (findPoolReferencePosition s id)) co) inc h.
Proof.
  intros HS. unfold healthFromState, assertCurrentOracle, calculateCollateralValueAssets. policy. intros H.
  destruct (lastAcceptedOracle s) as [o|] eqn:Ho; result_inv; [|done]. uint_inv.
  repeat match goal with E : mulDivDown _ _ _ = _ |- _ => apply mulDivDown_Ok in E as (? & ? & ? & ? & ->) end.
  match goal with E : positionPerformingDebtAssets _ _ = _ |- _ => apply quote_Ok in E; [subst|done] end.
  constructor; cbn; try done; try lia. by exists v.
Qed.

Lemma health_safe s id now co inc :
  ready s -> account_id_ok id -> uint now ->
  0 <= default (collateralAssets (findPoolReferencePosition s id)) co <= 2 ^ 120 ->
  0 <= inc <= 2 ^ 120 ->
  throws_only [unavailable_code] (healthFromState s id now co inc).
Proof.
  intros Hr Hid Hn Hco Hinc. pose proof (ready_find s id Hr) as (? & ? & ? & ?). destruct Hr as [Hinv].
  unfold healthFromState, assertCurrentOracle. rewrite assertReferenceUint_pass by done. cbn [mbind result_bind].
  destruct (lastAcceptedOracle s) as [o|] eqn:Ho; [|by intros e [= <-]; left].
  pose proof (inv_oracle _ Hinv _ Ho) as Hok. unfold oracle_ok in Hok. rewrite Hok. cbn [mbind result_bind].
  assert (0 < priceUsdWad o <= 2 ^ 120).
  { split; [|by apply rd_price0]. unfold assertPoolReferenceOracleBinding in Hok. result_inv. uint_inv. auto. }
  apply throws_bind.
  { apply throws_bind; [apply throws_unavailable_if; left|intros; apply throws_Ok]. }
  intros ? E. result_inv. rewrite quote_pass by done. cbn [mbind result_bind].
  pose proof (quote_bounds s (findPoolReferencePosition s id) Hinv ltac:(lia)) as [Hq _].
  unfold calculateCollateralValueAssets. set (c := default _ co) in *. policy.
  do 2 (rewrite assertReferenceUint_pass by uint_lia; cbn [mbind result_bind]).
  rewrite mulDivDown_pass by uint_lia. cbn [mbind result_bind].
  set (w := c * (priceUsdWad a * 10 ^ 6) / _).
  assert (Hv : 0 <= w <= 2 ^ 145).
  { unfold w. split; [apply Z.div_pos; nia|]. apply Z.div_le_upper_bound; [lia|]. nia. }
  clearbody w. rewrite !mulDivDown_pass by uint_lia. cbn [mbind result_bind].
  assert (0 <= w * 8000 / 10000 <= w) by (split; [apply Z.div_pos; lia|apply Z.div_le_upper_bound; lia]).
  unfold poolReferencePerformingDebtAssets in *.
  case_match; cbn [mbind result_bind]; [apply throws_Ok|].
  rewrite mulDivDown_pass by uint_lia. apply throws_Ok.
Qed.

(** ** Repaying performing debt *)

Lemma throws_err {A} e : err_code e = unavailable_code -> throws_only [unavailable_code] (@Err A e).
Proof. intros He e' [= <-]. rewrite He. left. Qed.

(** Repaying [n] of a position's performing debt: a refusal, or a burn of [b]
    shares that retires their rounded-up debt and keeps the rest as reserves. *)
Lemma repay_cases s id n :
  PoolInv s -> uint n -> 0 < n ->
  let p := findPoolReferencePosition s id in
  let D := poolReferencePerformingDebtAssets s in
  let S := totalDebtShares s in
  (exists e, repayPerformingInternal s id n = Err e /\ err_code e = unavailable_code) \/
  (exists b, let r := ceil_div (b * D) S in
     0 < S <= D /\ 0 < b <= debtShares p /\ r <= n <= quote s p /\ (n = quote s p <-> b = debtShares p) /\
     repayPerformingInternal s id n =
       Ok (update_position id (add_debtShares (- b)) (move s n (- r) (n - r) 0 0 (- b)),
           MkRepayment b r (n - r))).
Proof.
  intros Hinv Hn Hpos p D S. pose proof (inv_find_shares_le s id Hinv) as (_ & Hd & _). fold p S in Hd.
  pose proof (inv_fields s Hinv) as []. pose proof (inv_cover s Hinv) as HSD. fold S D in HSD.
  pose proof (inv_bad_le s Hinv). pose proof (quote_bounds s p Hinv Hd) as [Hq Hq0]. fold D in Hq.
  assert (HD : uint D) by (unfold D, poolReferencePerformingDebtAssets; uint_lia).
  unfold repayPerformingInternal. fold p. rewrite quote_pass by done. cbn [mbind result_bind]. fold D S.
  destruct ((quote s p =? 0) || (quote s p <? n)) eqn:Hc; [left; by eexists|].
  apply orb_false_iff in Hc as [Hc0%Z.eqb_neq Hc%Z.ltb_ge]. cbn [unavailable_if mbind result_bind].
  assert (Hqe : quote s p = ceil_div (debtShares p * D) S).
  { unfold quote. destruct (Z.eqb_spec (debtShares p) 0); [|done]. destruct Hc0. by apply Hq0. }
  destruct (Z.eqb_spec n (quote s p)) as [->|Hne].
  - right. exists (debtShares p). cbn [mbind result_bind]. rewrite <- Hqe. split_and!; try done; lia.
  - assert (HSu : uint S) by done. rewrite mulDivDown_pass by (uint_lia || (unfold S in *; lia)). cbn [mbind result_bind].
    set (b := n * S / D). destruct (Z.eqb_spec b 0); [left; by eexists|]. cbn [unavailable_if mbind result_bind].
    assert (HD0 : 0 < D) by lia. assert (HS0 : 0 < S) by lia.
    pose proof (floor_div_spec (n * S) D HD0) as Hb. fold b in Hb.
    pose proof (ceil_div_spec (debtShares p * D) S HS0) as Hqs. rewrite <- Hqe in Hqs.
    assert (Hnd : n * S < debtShares p * D) by nia.
    assert (0 <= n * S) by nia.
    assert (Hb0 : 0 <= b) by (unfold b; apply Z.div_pos; lia). assert (b < debtShares p) by nia.
    rewrite mulDivUp_pass by uint_lia. cbn [mbind result_bind].
    right. exists b. split_and!; try lia; [|done]. apply ceil_div_le; lia.
Qed.

Lemma update_update id f g s :
  (forall p, accountId (g p) = accountId p) ->
  update_position id f (update_position id g s) = update_position id (fun p => f (g p)) s.
Proof.
  intros Hg. unfold update_position, set_positions. cbn [positions schemaVersion policyVersion cashAssets
    grossDebtAssets reservesAssets badDebtAssets totalSupplyShares totalDebtShares lastAccruedAt
    marketDebtCapAssets borrowerDebtCapAssets lastAcceptedOracle]. f_equal.
  induction (positions s) as [|p ps IH]; [done|]. cbn [update_first].
  destruct (String.eqb _ _) eqn:E; cbn [update_first]; rewrite ?Hg, E; [done|by rewrite IH].
Qed.

Lemma move_update id f s c g r b u d :
  move (update_position id f s) c g r b u d = update_position id f (move s c g r b u d).
Proof. done. Qed.

Lemma move_move s c g r b u d c' g' r' b' u' d' :
  move (move s c g r b u d) c' g' r' b' u' d' =
  move s (c + c') (g + g') (r + r') (b + b') (u + u') (d + d').
Proof. unfold move. cbn. by rewrite !Z.add_assoc. Qed.

Lemma mutablePosition_idem s id :
  mutablePosition (mutablePosition s id) id = mutablePosition s id.
Proof.
  unfold mutablePosition at 1. by rewrite mutablePosition_find.
Qed.

Lemma find_update_move s id f c g r b u d :
  (forall p, accountId (f p) = accountId p) ->
  findPoolReferencePosition (update_position id f (move (mutablePosition s id) c g r b u d)) id =
  f (findPoolReferencePosition s id).
Proof.
  intros Hf. unfold findPoolReferencePosition at 1. cbn [update_position set_positions move positions].
  by rewrite (find_update_eq _ _ _ _ Hf (mutablePosition_find s id)).
Qed.

(** Continues after accrual from the pool with the account's position present. *)
Ltac after_accrual_present id s2 Hr Hp Hinv2 :=
  apply after_accrual; try done;
  let i := fresh "i" in let r := fresh "r" in let Hr1 := fresh in
  intros i r Hr1 ?; cbn [acc_state];
  match type of Hr1 with ready ?s1 =>
    pose proof (ready_mutable s1 id ltac:(done) Hr1) as Hr; pose proof (mutablePosition_idem s1 id) as Hp;
    generalize dependent (mutablePosition s1 id); intros s2 Hr Hp end;
  pose proof Hr as [Hinv2]; pose proof (ready_find s2 id Hr) as (? & ? & ? & ?); cbn zeta.

Lemma present_inv s id f c g r b u d :
  mutablePosition s id = s ->
  PoolInv (update_position id f (move (mutablePosition s id) c g r b u d)) ->
  PoolInv (update_position id f (move s c g r b u d)).
Proof. by intros ->. Qed.
Ltac write_present Hpresent Hinv := apply (present_inv _ _ _ _ _ _ _ _ _ Hpresent); write_done Hinv.

Lemma find_present s id f c g r b u d :
  mutablePosition s id = s -> (forall p, accountId (f p) = accountId p) ->
  find_position id (positions (update_position id f (move s c g r b u d))) =
  Some (f (findPoolReferencePosition s id)).
Proof.
  intros Hp Hf. cbn [update_position set_positions move positions].
  apply find_update_eq; [done|]. rewrite <- (mutablePosition_find s id). by rewrite Hp.
Qed.

(** Recognizing the whole debt of a position as bad debt. *)
Lemma recognize_inv s id p :
  PoolInv s -> find_position id (positions s) = Some p -> 0 < debtShares p -> equity s <= MAX_MODEL_UINT ->
  let q := quote s p in
  PoolInv (update_position id (fun p => add_positionBad q (add_debtShares (- debtShares p) p))
             (move s 0 0 0 q 0 (- debtShares p))).
Proof.
  intros Hinv Hf Hd He q. pose proof (find_position_id _ _ _ Hf) as [_ Hin].
  pose proof (inv_shares_le s p Hinv Hin) as (? & ? & ?). pose proof (inv_position s p Hinv Hin) as [].
  pose proof (quote_bounds s p Hinv ltac:(lia)) as [Hq _]. pose proof (inv_fields s Hinv) as [].
  pose proof (inv_cover s Hinv) as Hcov. pose proof (inv_bad_le s Hinv).
  assert (Hqe : q = ceil_div (debtShares p * poolReferencePerformingDebtAssets s) (totalDebtShares s)).
  { unfold q, quote. destruct (Z.eqb_spec (debtShares p) 0); [lia|done]. }
  destruct (shares_burn (totalDebtShares s) (poolReferencePerformingDebtAssets s) (debtShares p))
    as (Hb1 & Hb2 & Hb3 & _); [lia|lia|]. rewrite <- Hqe in Hb1, Hb2, Hb3. fold q in Hq.
  clearbody q. unfold poolReferencePerformingDebtAssets, equity in *.
  eapply (PoolInv_write s _ id p (fun p => add_positionBad q (add_debtShares (- debtShares p) p))); try done; unfold poolReferencePerformingDebtAssets; write_fields;
    rewrite ?claim_equity; unfold equity; write_fields; try lia; try uint_lia.
  constructor; write_fields; try done; uint_lia.
Qed.

Lemma recognize_safe {A} s id p (k : PoolState -> Z -> A) :
  PoolInv s -> find_position id (positions s) = Some p -> equity s <= MAX_MODEL_UINT ->
  throws_only [unavailable_code]
    (let position := findPoolReferencePosition s id in
     recognized ← (if (collateralAssets position =? 0) && (0 <? debtShares position)
                   then recognizeBadDebtInternal s id
                   else Ok (s, 0));
     let (next, badDebt) := (recognized : PoolState * Z) in
     assertPoolReferenceInvariants next ;;
     Ok (k next badDebt)).
Proof.
  intros Hinv Hf He. assert (Hp : findPoolReferencePosition s id = p).
  { unfold findPoolReferencePosition. by rewrite Hf. }
  unfold recognizeBadDebtInternal. rewrite Hp. cbn zeta.
  pose proof (inv_shares_le s p Hinv (proj2 (find_position_id _ _ _ Hf))) as (_ & Hd & _).
  destruct (Z.eqb_spec (collateralAssets p) 0) as [Hc|]; cbn [andb]; [|by apply check_passes].
  destruct (Z.ltb_spec 0 (debtShares p)) as [Hd0|]; [|by apply check_passes].
  rewrite (proj2 (Z.eqb_neq (debtShares p) 0)) by lia. cbn [negb orb unavailable_if mbind result_bind].
  rewrite quote_pass by done. cbn [mbind result_bind].
  apply check_passes. by apply recognize_inv.
Qed.

(** The end of a liquidation: collateral leaves, and debt without collateral
    becomes bad debt. *)
Lemma seize_safe {A} s id n b cq (k : PoolState -> Z -> Z -> A) :
  ready s -> account_id_ok id -> mutablePosition s id = s ->
  let p := findPoolReferencePosition s id in
  let rd := ceil_div (b * poolReferencePerformingDebtAssets s) (totalDebtShares s) in
  let s3 := update_position id (add_debtShares (- b)) (move s n (- rd) (n - rd) 0 0 (- b)) in
  0 < b <= debtShares p -> rd <= n <= 2 ^ 120 -> 0 <= cq <= 2 ^ 245 ->
  throws_only [unavailable_code]
    (seized ← minReference [collateralAssets (findPoolReferencePosition s3 id); cq];
     let next := update_position id (add_collateral (- seized)) s3 in
     let position := findPoolReferencePosition next id in
     recognized ← (if (collateralAssets position =? 0) && (0 <? debtShares position)
                   then recognizeBadDebtInternal next id
                   else Ok (next, 0));
     let (next, badDebt) := (recognized : PoolState * Z) in
     assertPoolReferenceInvariants next ;;
     Ok (k next seized badDebt)).
Proof.
  intros Hr Hid Hp p rd s3 Hb Hrd Hcq. pose proof Hr as [Hinv].
  pose proof (ready_find s id Hr) as (? & Hd & ? & ?). fold p in Hd.
  destruct (shares_burn (totalDebtShares s) (poolReferencePerformingDebtAssets s) b)
    as (Hr1 & Hr2 & Hr3 & _); [lia|lia|]. fold rd in Hr1, Hr2, Hr3.
  pose proof (find_present s id (add_debtShares (- b)) n (- rd) (n - rd) 0 0 (- b) Hp ltac:(done)) as Hf1.
  fold s3 in Hf1. replace (findPoolReferencePosition s3 id) with (add_debtShares (- b) p)
    by (unfold findPoolReferencePosition; by rewrite Hf1).
  destruct (minReference_pass (collateralAssets (add_debtShares (- b) p)) [cq]) as (sz & Hsz).
  { repeat constructor; write_fields; unfold p; uint_lia. }
  rewrite Hsz. cbn [mbind result_bind]. apply minReference_Ok in Hsz as [Hsz1 Hsz2].
  assert (0 <= sz <= collateralAssets p).
  { apply Forall_cons in Hsz2 as [Hle _]. cbn in Hle.
    apply elem_of_cons in Hsz1 as [->|Hin%list_elem_of_singleton]; subst p; cbn in *; lia. }
  unfold s3. rewrite update_update by done. clear s3 Hf1. clearbody rd.
  set (f := fun q => add_collateral (- sz) (add_debtShares (- b) q)).
  pose proof (find_present s id f n (- rd) (n - rd) 0 0 (- b) Hp ltac:(done)) as Hf.
  assert (Hinv' : PoolInv (update_position id f (move s n (- rd) (n - rd) 0 0 (- b)))).
  { unfold f in *. subst p. write_present Hp Hinv. }
  assert (He : equity (update_position id f (move s n (- rd) (n - rd) 0 0 (- b))) <= MAX_MODEL_UINT).
  { unfold equity. write_fields. uint_lia. }
  generalize dependent (update_position id f (move s n (- rd) (n - rd) 0 0 (- b))).
  intros s4 Hf4 Hinv4 He4. by apply recognize_safe with (f p).
Qed.

Section transitions.
  Context (s : PoolState) (now : Z).
  Context (Hinv : PoolInv s) (Hsmall : pool_small s) (Hnow : uint now).

Lemma donate_safe n : amount_ok n -> throws_only [unavailable_code] (donatePoolReferenceCash s n now).
  Proof.
    intros Hn. unfold donatePoolReferenceCash. pass_uint.
    apply after_accrual; try done. intros i r Hr _. cbn [acc_state].
    apply check_passes. destruct Hr as [[? ? [] ? ? ? ? ? ? ? ? ? ?] ? ? ? ? ? ? ? ?].
    unfold amount_ok, LIM in *.
    constructor; write_fields; try done.
    - constructor; write_fields; try done; uint_lia.
    - lia.
    - intros _. rewrite claim_equity. unfold equity. write_fields. uint_lia.
    - unfold poolReferencePerformingDebtAssets in *. write_fields. lia.
    - lia.
    - lia.
    - unfold poolReferencePerformingDebtAssets in *. write_fields. lia.
    - unfold poolReferencePerformingDebtAssets in *. write_fields. lia.
  Qed.

Lemma supply_safe id n :
    account_id_ok id -> amount_ok n ->
    (totalSupplyShares s = 0 \/ 0 < equity s) ->
    throws_only [unavailable_code] (supplyPoolReferenceAssets s id n now).
  Proof.
    intros Hid Hn Hlp. unfold supplyPoolReferenceAssets. pass_id. pass_uint.
    apply after_accrual; try done. intros i r Hr Hir. cbn [acc_state].
    set (s1 := grown s i r (now - lastAccruedAt s)) in *.
    assert (Hlp1 : totalSupplyShares s1 = 0 \/ 0 < poolReferenceLpClaimAssets s1).
    { rewrite claim_equity. unfold equity, s1 in *. cbn. lia. }
    pose proof (lp_claim_nonneg s1). pose proof Hr as [Hinv1]. pose proof (inv_fields _ Hinv1) as [].
    assert (Hm : exists m, (if totalSupplyShares s1 =? 0 then Ok n
       else mulDivDown n (totalSupplyShares s1) (poolReferenceLpClaimAssets s1)) = Ok m /\ 0 <= m <= 2 ^ 240).
    { unfold amount_ok, LIM in Hn. destruct (Z.eqb_spec (totalSupplyShares s1) 0); [exists n; split; [done|lia]|].
      assert (uint (poolReferenceLpClaimAssets s1)) by (apply (inv_claim _ Hinv1); uint_lia).
      rewrite mulDivDown_pass by uint_lia. eexists. split; [done|]. split.
      - apply Z.div_pos; nia.
      - transitivity (n * totalSupplyShares s1); [apply Z.div_le_upper_bound; nia|nia]. }
    destruct Hm as (m & -> & Hm). cbn [mbind result_bind].
    unavailable_step Hm0. apply check_passes. rewrite mutablePosition_move.
    pose proof (ready_find s1 id Hr) as (? & ? & ? & ?). unfold amount_ok, LIM in Hn.
    write_done Hinv1.
  Qed.

Lemma withdraw_safe id n :
    account_id_ok id -> amount_ok n ->
    throws_only [unavailable_code] (withdrawPoolReferenceAssets s id n now).
  Proof.
    intros Hid Hn. unfold withdrawPoolReferenceAssets. pass_id. pass_uint.
    apply after_accrual; try done. intros i r Hr Hir. cbn [acc_state].
    set (s1 := grown s i r (now - lastAccruedAt s)) in *.
    unavailable_step Hcash. unavailable_step Hclaim. unfold amount_ok, LIM in Hn.
    apply orb_false_iff in Hclaim as [Hc0%Z.eqb_neq Ht0%Z.eqb_neq]. apply Z.ltb_ge in Hcash.
    pose proof (lp_claim_nonneg s1). pose proof Hr as [Hinv1]. pose proof (inv_fields _ Hinv1) as [].
    assert (uint (poolReferenceLpClaimAssets s1)) by (apply (inv_claim _ Hinv1); uint_lia).
    rewrite mulDivUp_pass by uint_lia. cbn [mbind result_bind].
    rewrite mutablePosition_position.
    set (m := ceil_div (n * _) _). unavailable_step Hm. apply orb_false_iff in Hm as [Hm0%Z.eqb_neq Hm%Z.ltb_ge].
    assert (0 <= m).
    { apply ceil_div_nonneg; [lia|apply Z.mul_nonneg_nonneg; lia]. }
    apply check_passes. pose proof (ready_find s1 id Hr) as (? & ? & ? & ?). write_done Hinv1.
  Qed.

Lemma redeem_safe id :
    account_id_ok id -> throws_only [unavailable_code] (redeemAllPoolReferenceShares s id now).
  Proof.
    intros Hid. unfold redeemAllPoolReferenceShares. pass_id.
    apply after_accrual; try done. intros i r Hr Hir. cbn [acc_state].
    set (s1 := grown s i r (now - lastAccruedAt s)) in *.
    pose proof Hr as [Hinv1]. pose proof (inv_fields _ Hinv1) as [].
    pose proof (ready_find s1 id Hr) as (? & ? & ? & ?). rewrite mutablePosition_position.
    set (p := findPoolReferencePosition s1 id) in *.
    unavailable_step Hs0. apply Z.eqb_neq in Hs0.
    destruct (mutablePosition_fields s1 id) as (ps & Hps).
    replace (poolReferenceLpClaimAssets (mutablePosition s1 id)) with (poolReferenceLpClaimAssets s1) by (by rewrite Hps).
    replace (totalSupplyShares (mutablePosition s1 id)) with (totalSupplyShares s1) by (by rewrite Hps).
    replace (cashAssets (mutablePosition s1 id)) with (cashAssets s1) by (by rewrite Hps).
    pose proof (lp_claim_nonneg s1).
    assert (uint (poolReferenceLpClaimAssets s1)) by (apply (inv_claim _ Hinv1); uint_lia).
    assert (Hm : exists m, (if supplyShares p =? totalSupplyShares s1 then Ok (poolReferenceLpClaimAssets s1)
       else mulDivDown (supplyShares p) (poolReferenceLpClaimAssets s1) (totalSupplyShares s1)) = Ok m /\ 0 <= m).
    { case_match; [by eexists|]. rewrite mulDivDown_pass by uint_lia. eexists. split; [done|]. apply Z.div_pos; nia. }
    destruct Hm as (m & -> & Hm). cbn [mbind result_bind].
    unavailable_step Hl. apply orb_false_iff in Hl as [Hm0%Z.eqb_neq Hl%Z.ltb_ge]. apply check_passes.
    subst p. write_done Hinv1.
  Qed.

Lemma addCollateral_safe id n :
    account_id_ok id -> amount_ok n ->
    throws_only [unavailable_code] (addPoolReferenceCollateral s id n now).
  Proof.
    intros Hid Hn. unfold addPoolReferenceCollateral. pass_id. pass_uint.
    apply after_accrual; try done. intros i r Hr Hir. cbn [acc_state].
    set (s1 := grown s i r (now - lastAccruedAt s)) in *. pose proof Hr as [Hinv1].
    pose proof (ready_find s1 id Hr) as (? & ? & ? & ?). unfold amount_ok, LIM in Hn.
    apply check_passes. rewrite <- (move_0 (mutablePosition s1 id)). write_done Hinv1.
  Qed.

Lemma borrow_safe id n :
    account_id_ok id -> amount_ok n ->
    throws_only [unavailable_code] (borrowPoolReferenceAssets s id n now).
  Proof.
    intros Hid Hn. unfold borrowPoolReferenceAssets. pass_id. pass_uint.
    after_accrual_present id s2 Hr Hp Hinv2. unfold amount_ok, LIM in Hn.
    unavailable_step Hbad. unavailable_step Hcash. apply Z.ltb_ge in Hcash.
    rewrite quote_pass by done. cbn [mbind result_bind].
    apply throws_bind; [apply health_safe; try done; cbn; lia|]. intros h _.
    do 3 (apply throws_bind; [apply throws_unavailable_if; left|intros _ _]).
    pose proof (inv_fields _ Hinv2) as []. pose proof (inv_empty _ Hinv2) as Hempty.
    assert (Hm : exists m, (if totalDebtShares s2 =? 0 then Ok n
       else mulDivUp n (totalDebtShares s2) (poolReferencePerformingDebtAssets s2)) = Ok m /\ 0 < m <= n).
    { destruct (Z.eqb_spec (totalDebtShares s2) 0); [exists n; split; [done|lia]|].
      rewrite mulDivUp_pass by (unfold poolReferencePerformingDebtAssets in *; uint_lia).
      eexists. split; [done|]. destruct (shares_mint (totalDebtShares s2) (poolReferencePerformingDebtAssets s2) n); lia. }
    destruct Hm as (m & -> & Hm). cbn [mbind result_bind].
    apply check_passes. write_present Hp Hinv2.
  Qed.

Lemma release_safe id n :
    account_id_ok id -> amount_ok n ->
    throws_only [unavailable_code] (releasePoolReferenceCollateral s id n now).
  Proof.
    intros Hid Hn. unfold releasePoolReferenceCollateral. pass_id. pass_uint.
    after_accrual_present id s2 Hr Hp Hinv2. unfold amount_ok, LIM in Hn.
    unavailable_step Hc. apply Z.ltb_ge in Hc.
    apply throws_bind; [apply health_safe; try done; cbn; lia|]. intros h _.
    apply throws_bind; [apply throws_unavailable_if; left|intros _ _].
    apply check_passes. rewrite <- (move_0 s2) at 1. write_present Hp Hinv2.
  Qed.

Lemma repay_safe id n :
    account_id_ok id -> amount_ok n ->
    throws_only [unavailable_code] (repayPoolReferenceAssets s id n now).
  Proof.
    intros Hid Hn. unfold repayPoolReferenceAssets. pass_id. pass_uint.
    after_accrual_present id s2 Hr Hp Hinv2. unfold amount_ok, LIM in Hn.
    destruct (Z.ltb_spec 0 (pos_badDebtAssets (findPoolReferencePosition s2 id))) as [Hb|Hb].
    - unavailable_step Hc. apply orb_false_iff in Hc as [Hd%negb_false_iff%Z.eqb_eq Hc%Z.ltb_ge].
      apply check_passes. pose proof (inv_empty _ Hinv2). write_present Hp Hinv2.
    - destruct (repay_cases s2 id n Hinv2) as [(e & -> & He)|(b & HS & Hbd & Hrn & _ & ->)]; [uint_lia|lia|..].
      { by apply throws_err. }
      cbn [mbind result_bind]. apply check_passes.
      destruct (shares_burn (totalDebtShares s2) (poolReferencePerformingDebtAssets s2) b) as (? & ? & ? & _); [lia|lia|].
      pose proof (quote_bounds s2 (findPoolReferencePosition s2 id) Hinv2 ltac:(lia)) as [? _].
      write_present Hp Hinv2.
  Qed.

Lemma liquidate_safe id n :
    account_id_ok id -> amount_ok n ->
    throws_only [unavailable_code] (liquidatePoolReferencePosition s id n now).
  Proof.
    intros Hid Hn. unfold liquidatePoolReferencePosition. pass_id. pass_uint.
    after_accrual_present id s2 Hr Hp Hinv2. unfold amount_ok, LIM in Hn.
    apply throws_bind; [apply health_safe; try done; cbn; lia|]. intros h Hh.
    apply health_Ok in Hh as [Hprice (o & Ho & Hpo) Hval _ _ _ _]; [|lia]. cbn [default] in Hval.
    unavailable_step Hliq. pose proof (rd_price _ Hr o Ho). rewrite <- Hpo in *.
    assert (Hv : 0 <= h_collateralValueAssets h <= 2 ^ 145).
    { rewrite Hval. split; [apply Z.div_pos; nia|]. apply Z.div_le_upper_bound; nia. }
    rewrite quote_pass by done. cbn [mbind result_bind].
    set (p := findPoolReferencePosition s2 id) in *.
    pose proof (quote_bounds s2 p Hinv2 ltac:(lia)) as [Hq _].
    assert (0 <= quote s2 p <= 2 ^ 152) by (unfold poolReferencePerformingDebtAssets in *; lia).
    unfold calculateCollateralRequiredForValue. policy.
    rewrite mulDivDown_pass by uint_lia. cbn [mbind result_bind].
    pose proof (floor_div_spec (quote s2 p * 5000) 10000 ltac:(lia)).
    pose proof (ceil_div_spec (h_collateralValueAssets h * 10000) (10000 + 500) ltac:(lia)).
    pose proof (ceil_div_spec (n * (10000 + 500)) 10000 ltac:(lia)).
    repeat (rewrite mulDivUp_pass by uint_lia; cbn [mbind result_bind]).
    match goal with |- context [minReference (?v :: ?l)] =>
      destruct (minReference_pass v l) as (lim & Hlim); [repeat constructor; uint_lia|] end.
    rewrite Hlim. cbn [mbind result_bind]. clear Hlim.
    unavailable_step Hn2. clear Hn2.
    destruct (repay_cases s2 id n Hinv2) as [(e & -> & He)|(b & HS & Hbd & Hrn & _ & ->)]; [uint_lia|lia|..].
    { by apply throws_err. }
    fold p in Hbd, Hrn. cbn [mbind result_bind]. set (sv := ceil_div (n * _) _) in *.
    do 2 (rewrite assertReferenceUint_pass by uint_lia; cbn [mbind result_bind]).
    set (cq := ceil_div (sv * _) _).
    assert (Hcq : 0 <= cq <= 2 ^ 245).
    { split; [apply ceil_div_nonneg; lia|]. apply ceil_div_le; nia. }
    apply (seize_safe s2 id n b cq (fun next sz bad =>
      (with_state _ next, MkLiquidation _ sz bad lim h))); try done; lia.
  Qed.

Lemma accrue_safe : throws_only [unavailable_code] (accruePoolReferenceInterest s now).
  Proof.
    unfold accruePoolReferenceInterest. intros e He.
    destruct (accrueInternal_total s now Hinv Hsmall Hnow) as [(e' & He' & Hc)|(i & r & He' & _)];
      rewrite He' in He; [|done]. injection He as ->. rewrite Hc. left.
  Qed.

Lemma oracle_safe o : oracle_ok o -> throws_only [unavailable_code] (acceptPoolReferenceOracle s o now).
  Proof.
    intros Ho. unfold acceptPoolReferenceOracle. rewrite (assertPoolReferenceInvariants_pass s Hinv).
    cbn [mbind result_bind]. pass_uint. unfold oracle_ok in Ho. rewrite Ho. cbn [mbind result_bind].
    apply throws_bind; [apply throws_unavailable_if; left|intros _ _].
    apply throws_bind.
    - destruct (lastAcceptedOracle s); [|apply throws_Ok].
      repeat (apply throws_bind; [apply throws_unavailable_if; left|intros _ _]). apply throws_unavailable_if. left.
    - intros _ _. apply check_passes. destruct Hinv as [? ? [] ? ? ? ? ? ? ? ? ? ?].
      constructor; try done. by intros ? [= <-].
  Qed.
End transitions.

(** C23: the accounting check that ends every transition is redundant.  From a
    reconciled pool whose amounts are at most 2^120, a transition with
    well-formed inputs returns a new state or throws
    [secured_pool_action_unavailable]; it never throws
    [invalid_secured_pool_reference_model], neither from a range check on an
    intermediate value nor from the check of the state it computed.  Supplying
    is covered when the pool is empty of shares or the providers' equity is
    positive. *)
Theorem transitions_never_invalid s act now :
  PoolInv s -> pool_small s -> uint now -> action_ok act ->
  (forall id n, act = SupplyAssets id n -> totalSupplyShares s = 0 \/ 0 < equity s) ->
  throws_only [unavailable_code] (run_action s act now).
Proof.
  intros Hinv Hsmall Hnow Hact Hsup.
  destruct act; cbn [run_action action_ok] in *;
    lazymatch goal with H : _ /\ amount_ok _ |- _ => destruct H | _ => idtac end;
    lazymatch goal with |- throws_only _ (_ ≫= _) => apply throws_bind; [|intros; apply throws_Ok] | _ => idtac end.
  - by apply oracle_safe.
  - by apply accrue_safe.
  - apply supply_safe; try done. by eapply Hsup.
  - by apply donate_safe.
  - by apply withdraw_safe.
  - by apply redeem_safe.
  - by apply addCollateral_safe.
  - by apply borrow_safe.
  - by apply repay_safe.
  - by apply release_safe.
  - by apply liquidate_safe.
Qed.
