(* ===== verification/PoolSpec.v ===== *)
(** * Secured pool: the abstract transitions

    What each action must do to the pool, in exact integer arithmetic with the
    policy's figures written out: interest week by week ([accrues]), then the one
    step [pool_step] allows the action at that time, with its collateral, price
    and liquidity conditions.  The transitions of the source refine it, action by
    action ([action_refines]), and the properties of the pool are proved on the
    steps. *)

From stdpp Require Import base tactics relations sets strings numbers list.
From S2P Require Import Prelude PoolMath PoolState PoolModel PoolFacts PoolSafety.
Local Open Scope Z_scope.

Abbreviation claim := poolReferenceLpClaimAssets.
Abbreviation performing := poolReferencePerformingDebtAssets.
Abbreviation position_of := findPoolReferencePosition.

(** The debt behind [b] of the pool's debt shares, rounded up. *)
Definition debt_behind (s : PoolState) (b : Z) : Z := ceil_div (b * performing s) (totalDebtShares s).

Definition recognize (id : string) (s : PoolState) : PoolState :=
  let q := quote s (position_of s id) in
  update_position id (fun p => add_positionBad q (add_debtShares (- debtShares p) p))
    (move s 0 0 0 q 0 (- debtShares (position_of s id))).

(** *** Interest *)

Definition utilization (c d : Z) : Z := if c + d =? 0 then 0 else d * 10000 / (c + d).

(** The yearly rate in basis points: 2% when idle, 10% at the kink of 80%
    utilization, 70% when everything is lent. *)
Definition borrow_rate (c d : Z) : Z :=
  let u := utilization c d in
  if u <=? 8000 then 200 + 800 * u / 8000 else 1000 + 6000 * (u - 8000) / 2000.

(** What [t] seconds charge the borrowers, rounded up. *)
Definition interest (s : PoolState) (t : Z) : Z :=
  if 0 <? performing s
  then ceil_div (performing s * (borrow_rate (cashAssets s) (performing s) * t)) (31536000 * 10000)
  else 0.

(** [accrues now s s']: interest is charged up to [now] in steps of at most a
    week, each at the rate of the pool it finds, a tenth of it to reserves. *)
Inductive accrues (now : Z) : PoolState -> PoolState -> Prop :=
| accrues_done s : lastAccruedAt s = now -> accrues now s s
| accrues_week s s' :
    lastAccruedAt s < now ->
    let t := Z.min (now - lastAccruedAt s) week in
    accrues now (grown s (interest s t) (interest s t * 1000 / 10000) t) s' ->
    accrues now s s'.

(** *** Prices *)

(** The observation is at most an hour old and at most a minute ahead. *)
Definition oracle_fresh (o : OracleObservation) (now : Z) : Prop :=
  observedAt o <= now + 60 /\ now - observedAt o <= 3600.

(** What [o] may follow: no older, within a fifth of the price, and the same
    observation if it carries the same time. *)
Definition oracle_follows (o previous : OracleObservation) : Prop :=
  observedAt previous <= observedAt o /\
  Z.abs (priceUsdWad o - priceUsdWad previous) * 10000 <= priceUsdWad previous * 2000 /\
  (observedAt o = observedAt previous -> roundId o = roundId previous /\ priceUsdWad o = priceUsdWad previous).

(** The price in force: that of an accepted observation that is still fresh. *)
Definition price_in_force (s : PoolState) (now price : Z) : Prop :=
  exists o, lastAcceptedOracle s = Some o /\ oracle_fresh o now /\ priceUsdWad o = price /\ 0 < price.

(** The value of [c] of collateral in debt assets. *)
Definition collateral_value (price c : Z) : Z := c * (price * 10 ^ 6) / 10 ^ 36.

(** Three quarters of the collateral's value may be owed, and above four fifths
    the position can be liquidated. *)
Definition borrow_capacity (price c : Z) : Z := collateral_value price c * 7500 / 10000.
Definition liquidation_threshold (price c : Z) : Z := collateral_value price c * 8000 / 10000.

Definition debt_of (s : PoolState) (id : string) : Z :=
  quote s (position_of s id) + pos_badDebtAssets (position_of s id).

(** *** Repayment and seizure *)

(** The debt shares a payment of [n] burns: all of them when it pays the debt off. *)
Definition shares_for (s : PoolState) (id : string) (n : Z) : Z :=
  if n =? quote s (position_of s id) then debtShares (position_of s id)
  else n * totalDebtShares s / performing s.

(** The collateral worth [n] and a twentieth more at [price], as far as there is some. *)
Definition seizure (price n c : Z) : Z :=
  Z.min c (ceil_div (ceil_div (n * 10500) 10000 * 10 ^ 36) (price * 10 ^ 6)).

(** *** Steps *)

(** [pool_step now act s s']: from the accrued pool [s], the action leads to [s'] at [now]. *)
Inductive pool_step (now : Z) : PoolAction -> PoolState -> PoolState -> Prop :=
| step_oracle o s :
    oracle_ok o -> oracle_fresh o now ->
    (forall previous, lastAcceptedOracle s = Some previous -> oracle_follows o previous) ->
    pool_step now (AcceptOracle o) s (set_oracle o s)
| step_accrue s :
    pool_step now AccrueInterest s s
| step_supply id n m s :
    0 < n -> 0 < m ->
    (totalSupplyShares s = 0 /\ m = n \/
     0 < totalSupplyShares s /\ 0 < claim s /\ m = n * totalSupplyShares s / claim s) ->
    pool_step now (SupplyAssets id n) s
      (update_position id (add_supplyShares m) (move (mutablePosition s id) n 0 0 0 m 0))
| step_donate n s :
    0 < n -> pool_step now (DonateCash n) s (move s n 0 0 0 0 0)
| step_withdraw id n s :
    0 < claim s -> 0 < totalSupplyShares s -> 0 < n <= cashAssets s ->
    let m := ceil_div (n * totalSupplyShares s) (claim s) in
    0 < m <= supplyShares (position_of s id) ->
    pool_step now (WithdrawAssets id n) s
      (update_position id (add_supplyShares (- m)) (move (mutablePosition s id) (- n) 0 0 0 (- m) 0))
| step_redeem id s :
    let m := supplyShares (position_of s id) in
    let n := m * claim s / totalSupplyShares s in
    0 < m -> 0 < totalSupplyShares s -> 0 < n <= cashAssets s ->
    pool_step now (RedeemAll id) s
      (update_position id (fun p => add_supplyShares (- supplyShares p) p)
         (move (mutablePosition s id) (- n) 0 0 0 (- m) 0))
| step_add_collateral id n s :
    0 < n -> pool_step now (AddCollateral id n) s
      (update_position id (add_collateral n) (mutablePosition s id))
| step_borrow id n m price s :
    price_in_force s now price ->
    debt_of s id + n <= borrow_capacity price (collateralAssets (position_of s id)) ->
    pos_badDebtAssets (position_of s id) = 0 -> 0 < n <= cashAssets s ->
    quote s (position_of s id) + n <= borrowerDebtCapAssets s ->
    grossDebtAssets s + n <= marketDebtCapAssets s ->
    (totalDebtShares s = 0 /\ m = n \/ 0 < totalDebtShares s /\ m = ceil_div (n * totalDebtShares s) (performing s)) ->
    pool_step now (BorrowAssets id n) s
      (update_position id (add_debtShares m) (move (mutablePosition s id) (- n) n 0 0 0 m))
| step_recover id n s :
    debtShares (position_of s id) = 0 -> 0 < n <= pos_badDebtAssets (position_of s id) ->
    pool_step now (RepayAssets id n) s
      (update_position id (add_positionBad (- n)) (move (mutablePosition s id) n (- n) 0 (- n) 0 0))
| step_repay id n s :
    let b := shares_for s id n in
    pos_badDebtAssets (position_of s id) = 0 -> 0 < b <= debtShares (position_of s id) ->
    debt_behind s b <= n <= quote s (position_of s id) -> 0 < n ->
    pool_step now (RepayAssets id n) s
      (update_position id (add_debtShares (- b))
         (move (mutablePosition s id) n (- debt_behind s b) (n - debt_behind s b) 0 0 (- b)))
| step_release id n price s :
    price_in_force s now price ->
    debt_of s id <= borrow_capacity price (collateralAssets (position_of s id) - n) ->
    0 < n <= collateralAssets (position_of s id) ->
    pool_step now (ReleaseCollateral id n) s
      (update_position id (add_collateral (- n)) (mutablePosition s id))
| step_liquidate id n price s :
    price_in_force s now price ->
    let held := collateralAssets (position_of s id) in
    liquidation_threshold price held < debt_of s id ->
    n <= ceil_div (collateral_value price held * 10000) 10500 ->
    let b := shares_for s id n in
    let sz := seizure price n held in
    0 < b <= debtShares (position_of s id) -> 0 < n ->
    debt_behind s b <= n -> 2 * n <= quote s (position_of s id) ->
    0 <= sz <= held ->
    let s4 := update_position id (fun p => add_collateral (- sz) (add_debtShares (- b) p))
                (move (mutablePosition s id) n (- debt_behind s b) (n - debt_behind s b) 0 0 (- b)) in
    pool_step now (LiquidatePosition id n) s
      (if (collateralAssets (position_of s4 id) =? 0) && (0 <? debtShares (position_of s4 id))
       then recognize id s4 else s4).

(** ** Refinement *)

(** [accrued s s1]: [s1] is [s] with interest accrued over [t] seconds. *)
Definition accrued (s s1 : PoolState) : Prop :=
  exists i r t, s1 = grown s i r t /\ 0 <= 10 * r <= i /\ 0 <= t /\ (performing s <= 0 -> i = 0).

Lemma accrued_refl s : accrued s s.
Proof. exists 0, 0, 0. rewrite grown_0. split_and!; [done|lia..]. Qed.

Lemma borrow_rate_Ok c d r : calculateBorrowAprBps c d = Ok r -> r = borrow_rate c d.
Proof.
  unfold calculateBorrowAprBps, calculateUtilizationBps, borrow_rate, utilization. policy.
  intros (u & Hu & H)%bind_Ok.
  assert (u = if c + d =? 0 then 0 else d * 10000 / (c + d)) as <-.
  { result_inv. destruct (c + d =? 0); [congruence|]. by apply mulDivDown_Ok in Hu as (_ & _ & _ & _ & ->). }
  destruct (u <=? 8000); apply bind_Ok in H as (q & (_ & _ & _ & _ & ->)%mulDivDown_Ok & [= <-]); done.
Qed.

Lemma borrow_rate_nonneg c d : 0 <= c -> 0 < d -> 0 <= borrow_rate c d.
Proof.
  intros Hc Hd. unfold borrow_rate, utilization. destruct (Z.eqb_spec (c + d) 0); [lia|].
  assert (0 <= d * 10000 / (c + d)) by (apply Z.div_pos; lia).
  destruct (Z.leb_spec (d * 10000 / (c + d)) 8000).
  - pose proof (floor_div_spec (800 * (d * 10000 / (c + d))) 8000). lia.
  - pose proof (floor_div_spec (6000 * (d * 10000 / (c + d) - 8000)) 2000). lia.
Qed.

Lemma interest_nonneg s t : 0 <= cashAssets s -> 0 <= t -> 0 <= interest s t.
Proof.
  intros Hc Ht. unfold interest. destruct (Z.ltb_spec 0 (performing s)); [|done].
  pose proof (borrow_rate_nonneg (cashAssets s) (performing s) Hc ltac:(done)).
  apply ceil_div_nonneg; [lia|]. apply Z.mul_nonneg_nonneg; [lia|]. by apply Z.mul_nonneg_nonneg.
Qed.

(** One pass of the loop charges the interest of its chunk. *)
Lemma accrueChunk_interest now a a' :
  accrueChunk now a = Ok a' ->
  let s := acc_state a in let t := Z.min (now - lastAccruedAt s) week in
  acc_state a' = grown s (interest s t) (interest s t * 1000 / 10000) t.
Proof.
  intros H s t. pose proof (accrueChunk_Ok _ _ _ H) as (i & r & e & -> & -> & _).
  unfold accrueChunk in H. fold s in H |- *. fold t in H |- *. cbn [acc_state] in *. policy.
  apply bind_Ok in H as (e & _ & H). unfold interest. destruct (0 <? performing s).
  - apply bind_Ok in H as (apr & ->%borrow_rate_Ok & H). apply bind_Ok in H as ([i' r'] & Hi & H).
    injection H as Ei Er Et _ _. assert (i' = i /\ r' = r /\ e = t) as (-> & -> & ->) by (cbn in *; lia).
    unfold calculateInterestAtRate in Hi. policy. result_inv.
    repeat match goal with
    | E : mulDivDown _ _ _ = _ |- _ => apply mulDivDown_Ok in E as (_ & _ & _ & _ & ->)
    | E : mulDivUp _ _ _ = _ |- _ => apply mulDivUp_Ok in E as (_ & _ & _ & _ & ->)
    end. by injection Hi as <- <-.
  - injection H as Ei Er _ _ _. by assert (i = 0 /\ r = 0) as [-> ->] by lia.
Qed.

Lemma accrueLoop_accrues fuel now a a' :
  accrueLoop fuel now a = Ok a' -> lastAccruedAt (acc_state a) <= now ->
  accrues now (acc_state a) (acc_state a').
Proof.
  revert a. induction fuel as [|fuel IH]; intros a; cbn [accrueLoop];
    destruct (Z.ltb_spec (lastAccruedAt (acc_state a)) now) as [Hlt|Hge]; intros H Hle.
  2, 4: injection H as <-; apply accrues_done; lia.
  - done.
  - apply bind_Ok in H as (a1 & H1%accrueChunk_interest & H). apply accrues_week; [done|]. rewrite <- H1.
    apply IH; [done|]. rewrite H1. unfold week. cbn. lia.
Qed.

Lemma accrueInternal_accrues s now a : accrueInternal s now = Ok a -> accrues now s (acc_state a).
Proof.
  intros H. pose proof (accrueInternal_Ok _ _ _ H) as (_ & _ & _ & Hle & _).
  unfold accrueInternal in H. result_inv.
  match goal with E : accrueLoop _ _ _ = _ |- _ => by apply accrueLoop_accrues in E end.
Qed.

Lemma accrues_accrued now s s1 : 0 <= cashAssets s -> accrues now s s1 -> accrued s s1.
Proof.
  intros Hc H. induction H as [s|s s1 Hlt t H IH]; [apply accrued_refl|].
  assert (0 <= t) by (unfold t, week; lia). pose proof (interest_nonneg s t Hc ltac:(done)) as Hi.
  destruct (IH Hc) as (i & r & t' & -> & Hr & Ht' & Hz). exists (interest s t + i), (interest s t * 1000 / 10000 + r), (t + t').
  pose proof (floor_div_spec (interest s t * 1000) 10000 ltac:(lia)). rewrite grown_grown. split_and!; [done|lia..|].
  intros HD. unfold poolReferencePerformingDebtAssets in *. cbn [grown grossDebtAssets badDebtAssets] in Hz.
  assert (interest s t = 0) as E.
  { unfold interest, poolReferencePerformingDebtAssets. destruct (Z.ltb_spec 0 (grossDebtAssets s - badDebtAssets s)); lia. }
  rewrite E in *. lia.
Qed.

Lemma accrueInternal_accrued s now a :
  accrueInternal s now = Ok a -> PoolInv s /\ PoolInv (acc_state a) /\ accrued s (acc_state a).
Proof.
  intros (? & ? & ? & ? & i & r & -> & ? & ? & _)%accrueInternal_Ok. split_and!; try done.
  exists i, r, (now - lastAccruedAt s). split_and!; try done; lia.
Qed.

(** The fields [mutablePosition] leaves alone. *)
Lemma mutable_same s id :
  claim (mutablePosition s id) = claim s /\ performing (mutablePosition s id) = performing s /\
  totalSupplyShares (mutablePosition s id) = totalSupplyShares s /\
  totalDebtShares (mutablePosition s id) = totalDebtShares s /\
  cashAssets (mutablePosition s id) = cashAssets s /\
  grossDebtAssets (mutablePosition s id) = grossDebtAssets s /\
  borrowerDebtCapAssets (mutablePosition s id) = borrowerDebtCapAssets s /\
  marketDebtCapAssets (mutablePosition s id) = marketDebtCapAssets s /\
  forall p, quote (mutablePosition s id) p = quote s p.
Proof. destruct (mutablePosition_fields s id) as (ps & ->). split_and!; done. Qed.

Ltac spec_inv :=
  repeat match goal with
  | H : assertReferenceAccountId _ = Ok _ |- _ => apply assertReferenceAccountId_value in H; subst
  | H : assertReferenceUint _ _ _ = Ok _ |- _ => apply assertReferenceUint_Ok in H as (-> & ? & ?)
  | H : unavailable_if _ _ = Ok _ |- _ => apply unavailable_if_Ok in H
  | H : assertPoolReferenceInvariants _ = Ok _ |- _ => apply assertPoolReferenceInvariants_Inv in H
  | H : accrueInternal _ _ = Ok _ |- _ =>
      pose proof (accrueInternal_accrues _ _ _ H); apply accrueInternal_accrued in H as (? & ? & ?)
  | H : _ || _ = false |- _ => apply orb_false_iff in H as [? ?]
  | H : (_ =? _) = false |- _ => apply Z.eqb_neq in H
  | H : (_ <? _) = false |- _ => apply Z.ltb_ge in H
  | H : negb _ = false |- _ => apply negb_false_iff in H
  | H : (_ =? _) = true |- _ => apply Z.eqb_eq in H
  | H : mulDivDown _ _ _ = Ok _ |- _ => apply mulDivDown_Ok in H as (? & ? & ? & ? & ->)
  | H : mulDivUp _ _ _ = Ok _ |- _ => apply mulDivUp_Ok in H as (? & ? & ? & ? & ->)
  end.

(** What precedes the step: interest up to [now], except for a price, which
    leaves the debts as they are. *)
Definition settled (now : Z) (act : PoolAction) (s s1 : PoolState) : Prop :=
  match act with AcceptOracle _ => s1 = s | _ => accrues now s s1 end.

Lemma settled_accrued now act s s1 : PoolInv s -> settled now act s s1 -> accrued s s1.
Proof.
  intros Hinv H. pose proof (inv_fields s Hinv) as [].
  assert (Hc : 0 <= cashAssets s) by uint_lia.
  destruct act; cbn in H; try by apply (accrues_accrued now). subst. apply accrued_refl.
Qed.

(** A transition refines the step of its own action: it settles the interest
    and then takes it. *)
Definition refines (now : Z) (act : PoolAction) (s s' : PoolState) : Prop :=
  exists s1, settled now act s s1 /\ PoolInv s /\ PoolInv s1 /\ PoolInv s' /\ pool_step now act s1 s'.

(** Inverts a transition that returned, up to the accrued pool [s1]. *)
Ltac start_refine s1 :=
  let H := fresh in intros H; result_inv; spec_inv; cbn [fst with_state acc_state] in *;
  match goal with E : accrued _ (acc_state ?a) |- _ => destruct a as [s1 ? ? ?]; cbn [acc_state] in * end;
  rewrite ?mutablePosition_move in *; exists s1; split_and!; try done.

Lemma supply_refines id n s now s' : run_action s (SupplyAssets id n) now = Ok s' -> refines now (SupplyAssets id n) s s'.
Proof.
  cbn [run_action]. unfold supplyPoolReferenceAssets. start_refine s1.
  pose proof (inv_fields s1 ltac:(done)) as [].
  pose proof (lp_claim_nonneg s1).
  destruct (Z.eqb_spec (totalSupplyShares s1) 0); result_inv; spec_inv.
  - apply step_supply; auto.
  - apply step_supply; try right; auto; [|split_and!; try done; uint_lia].
    assert (0 <= n * totalSupplyShares s1) by (apply Z.mul_nonneg_nonneg; uint_lia).
    assert (0 <= n * totalSupplyShares s1 / claim s1) by (apply Z.div_pos; lia). lia.
Qed.

Lemma donate_refines n s now s' : run_action s (DonateCash n) now = Ok s' -> refines now (DonateCash n) s s'.
Proof. cbn [run_action]. unfold donatePoolReferenceCash. start_refine s1. constructor; auto. Qed.

Lemma withdraw_refines id n s now s' : run_action s (WithdrawAssets id n) now = Ok s' -> refines now (WithdrawAssets id n) s s'.
Proof.
  cbn [run_action]. unfold withdrawPoolReferenceAssets. start_refine s1.
  rewrite mutablePosition_position in *. pose proof (inv_fields s1 ltac:(done)) as [].
  apply step_withdraw; auto; try uint_lia. split; [|done].
  pose proof (ceil_div_nonneg (n * totalSupplyShares s1) (claim s1)).
  assert (0 <= n * totalSupplyShares s1) by (apply Z.mul_nonneg_nonneg; uint_lia). lia.
Qed.

Lemma redeem_step id s now s' :
  run_action s (RedeemAll id) now = Ok s' ->
  exists a, accrueInternal s now = Ok a /\ PoolInv s' /\ pool_step now (RedeemAll id) (acc_state a) s'.
Proof.
  cbn [run_action]. unfold redeemAllPoolReferenceShares. intros H. result_inv.
  match goal with E : accrueInternal s now = Ok ?a |- _ =>
    exists a; split; [exact E|]; apply accrueInternal_accrued in E as (_ & ? & _);
    destruct a as [s1 i1 r1 c1] end.
  cbn [fst with_state acc_state] in *. spec_inv. split; [done|].
  rewrite mutablePosition_position in *. pose proof (inv_fields s1 ltac:(done)) as [].
  pose proof (inv_find_shares_le s1 id ltac:(done)) as (? & _ & _).
  destruct (mutable_same s1 id) as (Hc & _ & Ht & _ & Hcash & _). rewrite Hc, Ht, Hcash in *.
  set (p := position_of s1 id) in *. pose proof (lp_claim_nonneg s1).
  match goal with E : (if _ then _ else _) = Ok ?v |- _ => assert (Hv : v = supplyShares p * claim s1 / totalSupplyShares s1) end.
  { destruct (Z.eqb_spec (supplyShares p) (totalSupplyShares s1)) as [->|]; result_inv; spec_inv; [|done].
    rewrite Z.mul_comm, Z.div_mul; [done|lia]. }
  rewrite Hv in *. assert (0 <= supplyShares p * claim s1 / totalSupplyShares s1).
  { apply Z.div_pos; [apply Z.mul_nonneg_nonneg|]; lia. }
  apply step_redeem; fold p; try done; lia.
Qed.

Lemma redeem_refines id s now s' : run_action s (RedeemAll id) now = Ok s' -> refines now (RedeemAll id) s s'.
Proof.
  intros (a & H & ? & ?)%redeem_step. exists (acc_state a). spec_inv. done.
Qed.

Lemma oracle_window o now : oracle_out_of_window o now = false -> oracle_fresh o now.
Proof.
  unfold oracle_out_of_window, oracle_fresh. policy. intros [? H]%orb_false_iff.
  apply andb_false_iff in H. lia.
Qed.

Lemma oracle_refines o s now s' : run_action s (AcceptOracle o) now = Ok s' -> refines now (AcceptOracle o) s s'.
Proof.
  cbn [run_action]. unfold acceptPoolReferenceOracle. policy. intros H. result_inv.
  match goal with E : assertPoolReferenceOracleBinding _ = Ok ?u |- _ => destruct u; rename E into Hok end.
  spec_inv. match goal with E : oracle_out_of_window _ _ = _ |- _ => apply oracle_window in E end.
  exists s. split_and!; try done. constructor; [done..|].
  intros previous Hp. rewrite Hp in *. result_inv. spec_inv. unfold oracle_follows.
  destruct (Z.ltb_spec (priceUsdWad previous) (priceUsdWad o)); split_and!; try lia.
  all: intros Ht; rewrite Ht, Z.eqb_refl in *; cbn [andb] in *; spec_inv.
  all: match goal with E : String.eqb _ _ = true |- _ => apply String.eqb_eq in E end; done.
Qed.

Lemma accrue_refines s now s' : run_action s AccrueInterest now = Ok s' -> refines now AccrueInterest s s'.
Proof. cbn [run_action]. unfold accruePoolReferenceInterest. start_refine s1. constructor. Qed.

Lemma addCollateral_refines id n s now s' :
  run_action s (AddCollateral id n) now = Ok s' -> refines now (AddCollateral id n) s s'.
Proof. cbn [run_action]. unfold addPoolReferenceCollateral. start_refine s1. constructor; auto. Qed.

(** What a health report of the account rests on. *)
Lemma health_report s id now co inc h :
  0 <= totalDebtShares s -> healthFromState (mutablePosition s id) id now co inc = Ok h ->
  let c := default (collateralAssets (position_of s id)) co in
  price_in_force s now (h_priceUsdWad h) /\ h_debtAssets h = debt_of s id + inc /\
  h_collateralValueAssets h = collateral_value (h_priceUsdWad h) c /\
  h_borrowCapacityAssets h = borrow_capacity (h_priceUsdWad h) c /\
  h_liquidatable h = (0 <? debtShares (position_of s id)) && (liquidation_threshold (h_priceUsdWad h) c <? debt_of s id + inc).
Proof.
  intros HS H c. destruct (mutable_same s id) as (_ & _ & _ & HS' & _ & _ & _ & _ & Hq).
  destruct (health_Ok _ _ _ _ _ _ ltac:(rewrite HS'; exact HS) H) as [Hp (o & Ho & Hpo) Hv Hc Ht Hd Hl].
  rewrite mutablePosition_position, Hq in *. fold c in Hv.
  unfold borrow_capacity, liquidation_threshold, collateral_value, debt_of.
  rewrite Hc, Hl, Ht, Hd, Hv. split_and!; try done. exists o.
  assert (lastAcceptedOracle s = Some o) as Hso.
  { destruct (mutablePosition_fields s id) as (ps & E). by rewrite E in Ho. }
  split_and!; try done. unfold healthFromState, assertCurrentOracle in H. rewrite Ho in H. result_inv. spec_inv.
  by apply oracle_window.
Qed.

Lemma release_refines id n s now s' :
  run_action s (ReleaseCollateral id n) now = Ok s' -> refines now (ReleaseCollateral id n) s s'.
Proof.
  cbn [run_action]. unfold releasePoolReferenceCollateral. start_refine s1.
  rewrite mutablePosition_position in *. pose proof (inv_find_shares_le s1 id ltac:(done)) as (_ & ? & ?).
  match goal with E : healthFromState _ _ _ _ _ = _ |- _ =>
    apply health_report in E as (Hp & Hd & _ & Hc & _); [cbn [default] in *; rewrite Hc, Hd, Z.add_0_r in *|lia] end.
  eapply step_release; eauto.
Qed.

Lemma borrow_refines id n s now s' :
  run_action s (BorrowAssets id n) now = Ok s' -> refines now (BorrowAssets id n) s s'.
Proof.
  cbn [run_action]. unfold borrowPoolReferenceAssets. start_refine s1.
  rewrite mutablePosition_position in *. pose proof (inv_fields s1 ltac:(done)) as [].
  pose proof (inv_find_shares_le s1 id ltac:(done)) as (_ & ? & ?).
  destruct (mutable_same s1 id) as (_ & Hpf & _ & Hd & Hcash & Hg & Hbc & Hmc & Hq). rewrite Hpf, Hd, Hcash, Hg, Hbc, Hmc in *.
  match goal with E : positionPerformingDebtAssets _ _ = _ |- _ => apply quote_Ok in E; [rewrite Hq in E; subst|rewrite Hd; lia] end.
  match goal with E : healthFromState _ _ _ _ _ = _ |- _ =>
    apply health_report in E as (Hp & Hdebt & _ & Hc & _); [cbn [default] in *; rewrite Hc, Hdebt in *|lia] end.
  eapply step_borrow; eauto; try lia.
  destruct (Z.eqb_spec (totalDebtShares s1) 0); result_inv; spec_inv; [by left|right]. split; [lia|done].
Qed.

Lemma debt_behind_mutable s id b : debt_behind (mutablePosition s id) b = debt_behind s b.
Proof. unfold debt_behind. by destruct (mutable_same s id) as (_ & -> & _ & -> & _). Qed.

(** The shares a repayment burns. *)
Lemma repay_burn s id n v rep :
  0 <= totalDebtShares s -> repayPerformingInternal s id n = Ok (v, rep) -> sharesBurned rep = shares_for s id n.
Proof.
  intros HS. unfold repayPerformingInternal, shares_for. intros (q & ->%quote_Ok & H)%bind_Ok; [|done].
  apply bind_Ok in H as (u & _ & H). apply bind_Ok in H as ([sh red] & Hb & [= _ <-]). cbn [sharesBurned].
  destruct (n =? quote s (position_of s id)); [by injection Hb|]. result_inv. spec_inv. by injection Hb.
Qed.

Lemma shares_for_mutable s id n : shares_for (mutablePosition s id) id n = shares_for s id n.
Proof.
  unfold shares_for. rewrite mutablePosition_position.
  by destruct (mutable_same s id) as (_ & -> & _ & -> & _ & _ & _ & _ & ->).
Qed.

(** What [repayPerformingInternal] returns. *)
Lemma repay_Ok s id n v :
  PoolInv s -> uint n -> 0 < n -> repayPerformingInternal s id n = Ok v ->
  exists b, b = shares_for s id n /\ 0 < b <= debtShares (position_of s id) /\
    debt_behind s b <= n <= quote s (position_of s id) /\
    v = (update_position id (add_debtShares (- b)) (move s n (- debt_behind s b) (n - debt_behind s b) 0 0 (- b)),
         MkRepayment b (debt_behind s b) (n - debt_behind s b)).
Proof.
  intros Hinv Hu Hn H. destruct (repay_cases s id n Hinv Hu Hn) as [(e & He & _)|(b & _ & Hb & Hr & _ & He)]; rewrite He in H; [done|].
  injection H as <-. exists b. unfold debt_behind. pose proof (inv_fields s Hinv) as [].
  apply repay_burn in He; [|uint_lia]. split_and!; try done; lia.
Qed.

Lemma account_id_value id v : assertReferenceAccountId id = Ok v -> v = id /\ account_id_ok id.
Proof. intros H. pose proof (assertReferenceAccountId_value _ _ H). by subst. Qed.

Lemma repay_refines id n s now s' :
  run_action s (RepayAssets id n) now = Ok s' -> refines now (RepayAssets id n) s s'.
Proof.
  cbn [run_action]. unfold repayPoolReferenceAssets.
  intros H. apply bind_Ok in H as (v & H & [= <-]). apply bind_Ok in H as (v1 & [-> Hid]%account_id_value & H).
  apply bind_Ok in H as (v2 & H2 & H). apply bind_Ok in H as ([s1 ? ? ?] & H3 & H). spec_inv.
  cbn [acc_state] in *. exists s1. rewrite mutablePosition_position in *.
  pose proof (inv_find_shares_le s1 id ltac:(done)) as (_ & ? & ?).
  destruct (Z.ltb_spec 0 (pos_badDebtAssets (position_of s1 id))).
  - result_inv. spec_inv. cbn [fst with_state acc_state]. split_and!; try done.
    apply step_recover; [done|split; auto].
  - apply bind_Ok in H as (v4 & H4' & H).
    apply repay_Ok in H4' as (b & -> & Hb & Hd & ->); [|by apply mutablePosition_Inv|done|auto].
    result_inv. spec_inv. cbn [fst with_state acc_state].
    destruct (mutable_same s1 id) as (_ & _ & _ & _ & _ & _ & _ & _ & Hq).
    rewrite shares_for_mutable, mutablePosition_position, debt_behind_mutable, Hq in *.
    split_and!; try done. apply step_repay; auto; lia.
Qed.

(** The pool after [b] shares were burned for [n] assets and [sz] collateral seized. *)
Definition seized_state (s : PoolState) (id : string) (n b sz : Z) : PoolState :=
  update_position id (fun p => add_collateral (- sz) (add_debtShares (- b) p))
    (move (mutablePosition s id) n (- debt_behind s b) (n - debt_behind s b) 0 0 (- b)).

Definition exhausted (s : PoolState) (id : string) : bool :=
  (collateralAssets (position_of s id) =? 0) && (0 <? debtShares (position_of s id)).

(** What a liquidation that returned did, with the report it returned. *)
Record liquidated (now : Z) (s1 : PoolState) (id : string) (n b sz : Z) (s' : PoolState) (l : Liquidation) : Prop := {
  lq_price : let held := collateralAssets (position_of s1 id) in
    exists price, price_in_force s1 now price /\ liquidation_threshold price held < debt_of s1 id /\
      n <= ceil_div (collateral_value price held * 10000) 10500 /\ sz = seizure price n held;
  lq_shares : b = shares_for s1 id n;
  lq_burn : 0 < b <= debtShares (position_of s1 id);
  lq_pos : 0 < n; lq_dust : debt_behind s1 b <= n; lq_close : 2 * n <= quote s1 (position_of s1 id);
  lq_seize : 0 <= sz <= collateralAssets (position_of s1 id);
  lq_state : let s4 := seized_state s1 id n b sz in s' = if exhausted s4 id then recognize id s4 else s4;
  lq_bad : let s4 := seized_state s1 id n b sz in
           badDebtRecognizedAssets l = if exhausted s4 id then quote s4 (position_of s4 id) else 0;
  lq_report : liq_repayment l = MkRepayment b (debt_behind s1 b) (n - debt_behind s1 b);
  lq_seized : collateralSeizedAssets l = sz }.

Lemma recognize_Ok s id v :
  0 <= totalDebtShares s ->
  (if exhausted s id then recognizeBadDebtInternal s id else Ok (s, 0)) = Ok v ->
  v = if exhausted s id then (recognize id s, quote s (position_of s id)) else (s, 0).
Proof.
  intros HS. destruct (exhausted s id); [|by intros [= <-]].
  unfold recognizeBadDebtInternal. intros H. result_inv.
  match goal with E : positionPerformingDebtAssets _ _ = _ |- _ => apply quote_Ok in E; [by subst|done] end.
Qed.

Lemma minReference_pair a b r : minReference [a; b] = Ok r -> r = Z.min a b.
Proof.
  intros [Hin Hmin]%minReference_Ok. rewrite !Forall_cons in Hmin.
  apply elem_of_cons in Hin as [->|Hin%list_elem_of_singleton]; lia.
Qed.

Lemma seizure_Ok price n held sv cq sz :
  mulDivUp n 10500 10000 = Ok sv -> calculateCollateralRequiredForValue sv price = Ok cq ->
  minReference [held; cq] = Ok sz -> sz = seizure price n held.
Proof.
  intros (_ & _ & _ & _ & ->)%mulDivUp_Ok H ->%minReference_pair. unfold calculateCollateralRequiredForValue in H.
  policy. result_inv. by apply mulDivUp_Ok in H as (_ & _ & _ & _ & ->).
Qed.

Lemma liquidate_Ok id n s now a l :
  liquidatePoolReferencePosition s id n now = Ok (a, l) ->
  exists a1 b sz, accrueInternal s now = Ok a1 /\ a = with_state a1 (acc_state a) /\
    PoolInv (acc_state a) /\ liquidated now (acc_state a1) id n b sz (acc_state a) l.
Proof.
  unfold liquidatePoolReferencePosition. policy. change (10000 + 500) with 10500. intros H. apply bind_Ok in H as (v1 & [-> Hid]%account_id_value & H).
  apply bind_Ok in H as (v2 & H2 & H). apply bind_Ok in H as (a1 & H3 & H). pose proof (accrueInternal_accrued _ _ _ H3) as (? & ? & ?).
  remember (accrueInternal s now) as acc eqn:Hacc. spec_inv.
  exists a1. destruct a1 as [s1 i1 r1 c1]. cbn [acc_state] in *.
  pose proof (inv_find_shares_le s1 id ltac:(done)) as (_ & ? & ?).
  apply bind_Ok in H as (h & Hh & H). apply bind_Ok in H as (u & Hl & H). apply unavailable_if_Ok, negb_false_iff in Hl.
  apply health_report in Hh as (Hprice & _ & Hval & _ & Hliq); [|lia]. rewrite Hliq, Z.add_0_r in Hl.
  apply andb_true_iff in Hl as [_ Hl%Z.ltb_lt]. cbn [default] in *. rewrite Hval in H.
  destruct (mutable_same s1 id) as (_ & _ & _ & HS & _ & _ & _ & _ & Hq).
  apply bind_Ok in H as (q & E & H). apply quote_Ok in E; [|rewrite HS; lia]. rewrite Hq in E.
  apply bind_Ok in H as (cl & Hcl & H). apply bind_Ok in H as (cc & Hcc & H).
  apply bind_Ok in H as (lim & Hlim & H). apply bind_Ok in H as (u2 & Hu2 & H). spec_inv.
  apply bind_Ok in H as ([s3 rep] & H4' & H).
  apply repay_Ok in H4' as (b & Hbs & Hb & Hd & Hs3); [|by apply mutablePosition_Inv|done|auto].
  rewrite shares_for_mutable in Hbs. rewrite mutablePosition_position, debt_behind_mutable, Hq in *. injection Hs3 as -> ->.
  apply bind_Ok in H as (sv & Hsv & H). apply bind_Ok in H as (cq & Hcq & H). apply bind_Ok in H as (sz & Hsz & H).
  rewrite update_update in H by done. rewrite find_update_move in Hsz by done.
  cbn [add_debtShares collateralAssets] in Hsz. pose proof (seizure_Ok _ _ _ _ _ _ Hsv Hcq Hsz) as Hseize.
  pose proof (minReference_uint _ _ Hsz) as Hu. apply minReference_Ok in Hsz as [Hin Hmin], Hlim as [_ Hmin2].
  rewrite !Forall_cons in *. cbn [add_debtShares collateralAssets] in *.
  assert (0 <= sz <= collateralAssets (position_of s1 id)).
  { apply elem_of_cons in Hin as [->|Hin%list_elem_of_singleton]; uint_lia. }
  pose proof (floor_div_spec (quote s1 (position_of s1 id) * 5000) 10000 ltac:(lia)).
  apply bind_Ok in H as (v & Hrec & H). fold (seized_state s1 id n b sz) in *.
  apply recognize_Ok in Hrec; [|cbn; lia].
  exists b, sz. subst q. unfold exhausted in *.
  destruct (_ && _) eqn:Hx in Hrec; subst v; apply bind_Ok in H as (rp & Hrp & H); injection H as <- <-; spec_inv;
    cbn [acc_state with_state interestAccruedAssets reservesAccruedAssets chunks]; (split_and!; [done..|]);
    constructor; unfold exhausted; rewrite ?Hx; try done; auto; try lia;
    exists (h_priceUsdWad h); split_and!; try done; lia.
Qed.

Lemma liquidate_refines id n s now s' :
  run_action s (LiquidatePosition id n) now = Ok s' -> refines now (LiquidatePosition id n) s s'.
Proof.
  cbn [run_action]. intros H. apply bind_Ok in H as ([a l] & H & [= <-]).
  apply liquidate_Ok in H as (a1 & b & sz & H & _ & Hinv & [(price & ? & ? & ? & ->) -> ? ? ? ? ? Hs _ _ _]). spec_inv.
  exists (acc_state a1). split_and!; try done. cbn zeta in Hs. cbn [fst]. rewrite Hs.
  by apply (step_liquidate now id n price).
Qed.

(** Every exported transition implements the abstract one. *)
Lemma action_refines act s now s' : run_action s act now = Ok s' -> refines now act s s'.
Proof.
  destruct act.
  - apply oracle_refines.
  - apply accrue_refines.
  - apply supply_refines.
  - apply donate_refines.
  - apply withdraw_refines.
  - apply redeem_refines.
  - apply addCollateral_refines.
  - apply borrow_refines.
  - apply repay_refines.
  - apply release_refines.
  - apply liquidate_refines.
Qed.

(** ** Executions *)

(** A sequence of transitions, each with its timestamp; the first throw ends it. *)
Fixpoint run_actions (s : PoolState) (acts : list (PoolAction * Z)) : result PoolState :=
  match acts with
  | [] => Ok s
  | (act, now) :: acts => s' ← run_action s act now; run_actions s' acts
  end.

(** The abstract executions, labelled with the actions they take and when. *)
Inductive pool_trace : PoolState -> list (PoolAction * Z) -> PoolState -> Prop :=
| trace_nil s : pool_trace s [] s
| trace_cons act now acts s s1 s' :
    refines now act s s1 -> pool_trace s1 acts s' -> pool_trace s ((act, now) :: acts) s'.

Lemma run_actions_trace acts s s' : run_actions s acts = Ok s' -> pool_trace s acts s'.
Proof.
  revert s. induction acts as [|[act now] acts IH]; intros s; cbn [run_actions].
  - intros [= ->]. constructor.
  - intros (s1 & H1%action_refines & H)%bind_Ok. eapply trace_cons; [done|by apply IH].
Qed.

(** Rule induction over the executions from a new pool. *)
Lemma reachable_ind (P : PoolState -> Prop) :
  (forall t mc bc s0, createSecuredPoolReferenceState t mc bc = Ok s0 -> P s0) ->
  (forall now act s s', P s -> refines now act s s' -> P s') ->
  forall t mc bc s0 acts s,
    createSecuredPoolReferenceState t mc bc = Ok s0 -> run_actions s0 acts = Ok s -> P s.
Proof.
  intros H0 Hstep t mc bc s0 acts s Hc Hr%run_actions_trace.
  assert (Hs : P s0) by (by eapply H0). clear Hc.
  induction Hr as [s|act now acts s1 s2 s3 H12 _ IH]; [done|]. apply IH. by eapply Hstep.
Qed.
