(* ===== verification/PoolProps.v ===== *)
(** * Secured pool: what the transitions guarantee

    Properties of every execution of the pool, proved on the abstract steps. *)

From stdpp Require Import base tactics relations sets strings numbers list.
From S2P Require Import Prelude PoolMath PoolState PoolModel PoolFacts PoolSafety PoolSpec.
Local Open Scope Z_scope.

(** ** Accrual *)

Lemma throws_invalid {A} codes text : invalid_code ∈ codes -> throws_only codes (@invalidPoolReference A text).
Proof. by intros ? e [= <-]. Qed.
#[export] Hint Resolve throws_invalid : throws.

Lemma throws_check_positions codes s c acc ps :
  invalid_code ∈ codes -> throws_only codes (check_positions s c acc ps).
Proof.
  intros Hc. revert acc. induction ps as [|p ps IH]; intros acc; cbn [check_positions]; [throws|].
  apply throws_bind; [|intros; apply IH]. unfold check_position, assertReferenceAccountId.
  throws.
Qed.

#[export] Hint Resolve throws_check_positions : throws.

Lemma throws_check codes s :
  invalid_code ∈ codes -> unavailable_code ∈ codes -> throws_only codes (assertPoolReferenceInvariants s).
Proof.
  intros. unfold assertPoolReferenceInvariants, check_fields, assertPoolReferenceOracleBinding.
  throws.
Qed.

Lemma throws_accrue s now : throws_only [invalid_code; unavailable_code] (accrueInternal s now).
Proof.
  unfold accrueInternal. policy. apply throws_bind; [apply throws_uint; left|intros _ _].
  apply throws_bind; [apply throws_check; set_solver|intros _ _].
  apply throws_bind; [apply throws_unavailable_if; set_solver|intros ? Hle%unavailable_if_Ok].
  apply throws_bind; [case_match; [apply throws_Ok|apply throws_up; left]|intros n Hn].
  apply throws_bind; [apply throws_unavailable_if; set_solver|intros _ _].
  apply throws_bind; [|intros ? _; apply throws_bind; [apply throws_check; set_solver|intros; apply throws_Ok]].
  intros e He. eapply accrueLoop_no_exhaustion in He; [set_solver|]. cbn [acc_state]. apply Z.ltb_ge in Hle.
  destruct (Z.eqb_spec (now - lastAccruedAt s) 0) as [->|]; [injection Hn as <-; cbn; lia|].
  apply mulDivUp_Ok in Hn as (_ & _ & _ & _ & ->). rewrite Z.mul_1_r.
  pose proof (ceil_div_spec (now - lastAccruedAt s) (7 * 24 * 60 * 60) ltac:(lia)).
  pose proof (ceil_div_nonneg (now - lastAccruedAt s) (7 * 24 * 60 * 60) ltac:(lia)). unfold week. lia.
Qed.

(** C38: the accrual loop terminates within its bound.  The loop is run with the
    number of chunks the code computes as fuel; it never runs out, for any
    state and any timestamp.  When accrual returns, the pool stands at [now],
    the loop took one chunk per started week and at most 1024, and nothing but
    the debt, the reserves (at most a tenth of the interest) and the timestamp
    changed. *)
Theorem accrual_terminates s now :
  accrueInternal s now <> Err fuel_exhausted /\
  forall a, accrueInternal s now = Ok a ->
    lastAccruedAt (acc_state a) = now /\
    chunks a = ceil_div (now - lastAccruedAt s) week /\ 0 <= chunks a <= 1024 /\
    0 <= 10 * reservesAccruedAssets a <= interestAccruedAssets a /\
    acc_state a = grown s (interestAccruedAssets a) (reservesAccruedAssets a) (now - lastAccruedAt s).
Proof.
  split.
  - intros H%throws_accrue. cbn in H. set_solver.
  - intros a (_ & _ & _ & ? & i & r & -> & ? & _ & ?)%accrueInternal_Ok.
    cbn [acc_state chunks interestAccruedAssets reservesAccruedAssets grown lastAccruedAt] in *.
    pose proof (ceil_div_nonneg (now - lastAccruedAt s) week ltac:(done) ltac:(lia)). split_and!; try done; lia.
Qed.

(** ** Invariants of every execution *)

Lemma Forall_write (P : Position -> Prop) s id f c g r b u d :
  Forall P (positions s) -> P (emptyPoolReferencePosition id) -> P (f (position_of s id)) ->
  Forall P (positions (update_position id f (move (mutablePosition s id) c g r b u d))).
Proof.
  intros Hs He Hf. cbn [update_position set_positions move positions].
  eapply update_first_Forall; [apply mutablePosition_find| |done].
  unfold mutablePosition. destruct (find_position id (positions s)); [done|].
  cbn. apply Forall_app. split; [done|]. by constructor.
Qed.

Lemma Forall_position_of (P : Position -> Prop) s id :
  Forall P (positions s) -> P (emptyPoolReferencePosition id) -> P (position_of s id).
Proof.
  intros Hs He. unfold findPoolReferencePosition. destruct (find_position id _) eqn:E; cbn; [|done].
  apply find_position_id in E as [_ ?]. rewrite Forall_forall in Hs. auto.
Qed.

(** Collateral moves are steps that move no amounts. *)
Lemma update_as_move id f s :
  update_position id f (mutablePosition s id) = update_position id f (move (mutablePosition s id) 0 0 0 0 0 0).
Proof. by rewrite move_0. Qed.

Lemma present_write s id f c g r b u d :
  (forall p, accountId (f p) = accountId p) ->
  let s' := update_position id f (move (mutablePosition s id) c g r b u d) in mutablePosition s' id = s'.
Proof.
  intros Hf s'. unfold mutablePosition at 1. unfold s' at 1. cbn [update_position set_positions move positions].
  by rewrite (find_update_eq _ _ _ _ Hf (mutablePosition_find s id)).
Qed.

Lemma Forall_present (P : Position -> Prop) s id f c g r b u d :
  mutablePosition s id = s -> Forall P (positions s) -> P (f (position_of s id)) ->
  Forall P (positions (update_position id f (move s c g r b u d))).
Proof.
  intros Hp Hs Hf. eapply update_first_Forall; [|done|exact Hf].
  cbn [move positions]. rewrite <- (mutablePosition_find s id). by rewrite Hp.
Qed.

(** A position that bad debt was recognized on has no debt shares. *)
Definition exclusive (p : Position) : Prop := 0 < pos_badDebtAssets p -> debtShares p = 0.

Lemma exclusive_step now act s s' :
  PoolInv s -> pool_step now act s s' -> Forall exclusive (positions s) -> Forall exclusive (positions s').
Proof.
  intros Hinv Hstep Hs.
  assert (He : forall id, exclusive (emptyPoolReferencePosition id)) by done.
  assert (Hp : forall id, exclusive (position_of s id)) by (intros; by apply Forall_position_of).
  destruct Hstep; try done; rewrite ?update_as_move.
  1-8: apply Forall_write; try done; unfold exclusive in *; cbn in *; try done; try lia; specialize (Hp id); lia.
  pose proof (inv_find_shares_le s id Hinv) as (_ & ? & ?).
  assert (Hb : pos_badDebtAssets (position_of s id) = 0).
  { specialize (Hp id). unfold exclusive in Hp. lia. }
  assert (Hx4 : Forall exclusive (positions s4)).
  { apply Forall_write; try done. unfold exclusive. cbn. lia. }
  destruct (_ && _); [|done]. unfold recognize.
  apply Forall_present; [by apply present_write|done|]. unfold exclusive. cbn. lia.
Qed.

(** In every execution from a new pool, an account on which bad debt was
    recognized owes no debt shares, so no interest accrues on it and a later
    repayment recovers the recognized amount alone.  No transition checks this. *)
Theorem bad_debt_exclusive t mc bc s0 acts s :
  createSecuredPoolReferenceState t mc bc = Ok s0 -> run_actions s0 acts = Ok s ->
  PoolInv s /\ forall p, p ∈ positions s -> 0 < pos_badDebtAssets p -> debtShares p = 0.
Proof.
  intros H0 H. assert (K : PoolInv s /\ Forall exclusive (positions s)).
  { revert t mc bc s0 acts s H0 H. apply (reachable_ind (fun s => PoolInv s /\ Forall exclusive (positions s))).
    - unfold createSecuredPoolReferenceState. intros t mc bc s0 H. result_inv. spec_inv. split; [done|constructor].
    - intros now act s s' [_ Hs] (s1 & Hset & Hinv & Hinv1 & Hinv' & Hstep). split; [done|].
      apply (settled_accrued _ _ _ _ Hinv) in Hset as (i & r & t & -> & _).
      by apply (exclusive_step now act (grown s i r t)). }
  destruct K as [Hinv Hx]. split; [done|]. by rewrite Forall_forall in Hx.
Qed.

(** ** Liquidity providers *)

Lemma claim_move s id f c g r b u d :
  claim (update_position id f (move (mutablePosition s id) c g r b u d)) =
    Z.max 0 (equity s + c + g - r - b) /\
  totalSupplyShares (update_position id f (move (mutablePosition s id) c g r b u d)) = totalSupplyShares s + u.
Proof.
  rewrite claim_equity. destruct (mutablePosition_fields s id) as (ps & ->). unfold equity. cbn.
  split; [f_equal; lia|done].
Qed.

Lemma claim_accrued s s1 : accrued s s1 -> claim s <= claim s1 /\ totalSupplyShares s1 = totalSupplyShares s.
Proof.
  intros (i & r & t & -> & ? & _). rewrite !claim_equity. unfold equity. cbn. split; [lia|done].
Qed.

Lemma price_up c x c' T T' : c + x <= c' -> 0 <= T -> c * T' <= (c + x) * T -> c * T' <= c' * T.
Proof. nia. Qed.

Lemma price_write s id f c g r b u d :
  let s' := update_position id f (move (mutablePosition s id) c g r b u d) in
  0 <= totalSupplyShares s -> claim s * u <= (c + g - r - b) * totalSupplyShares s ->
  claim s * totalSupplyShares s' <= claim s' * totalSupplyShares s.
Proof.
  intros s' HT H. unfold s'. destruct (claim_move s id f c g r b u d) as [-> ->].
  pose proof (claim_equity s). destruct (Z.eq_dec (claim s) 0) as [->|]; [nia|].
  apply (price_up _ (c + g - r - b)); lia.
Qed.

Lemma share_price_step now act s s' :
  pool_step now act s s' -> (forall id n, act <> LiquidatePosition id n) -> 0 < totalSupplyShares s ->
  claim s * totalSupplyShares s' <= claim s' * totalSupplyShares s.
Proof.
  intros Hstep Hliq HT. destruct Hstep; try (by edestruct Hliq); try apply Z.le_refl; rewrite ?update_as_move;
    try (apply price_write; [lia|]); try lia.
  - pose proof (floor_div_spec (n * totalSupplyShares s) (claim s)). nia.
  - rewrite !claim_equity. unfold equity. cbn. rewrite Z.add_0_r. apply Z.mul_le_mono_nonneg_r; lia.
  - pose proof (ceil_div_spec (n * totalSupplyShares s) (claim s) ltac:(done)) as Hm. fold m in Hm. lia.
  - pose proof (floor_div_spec (m * claim s) (totalSupplyShares s) ltac:(done)) as Hn. fold n in Hn. lia.
Qed.

(** C24: no transition but a liquidation dilutes the liquidity providers.  With
    shares outstanding, the LP claim per share after the transition (interest
    included) is at least the claim per share before it, whatever the amounts
    and the direction of every rounding; stated by cross-multiplication. *)
Theorem lp_share_price_monotone act s now s' :
  run_action s act now = Ok s' -> (forall id n, act <> LiquidatePosition id n) ->
  0 < totalSupplyShares s ->
  claim s * totalSupplyShares s' <= claim s' * totalSupplyShares s.
Proof.
  intros (s1 & Hacc & Hinv & Hinv1 & Hinv' & Hstep)%action_refines Hliq HT.
  apply (settled_accrued _ _ _ _ Hinv), claim_accrued in Hacc as [Hc HT1].
  pose proof (share_price_step _ _ _ _ Hstep Hliq ltac:(lia)) as H. rewrite HT1 in H.
  pose proof (inv_fields _ Hinv') as []. etransitivity; [|exact H].
  apply Z.mul_le_mono_nonneg_r; uint_lia.
Qed.

(** ** Isolation of accounts *)

Definition actor (act : PoolAction) : option string :=
  match act with
  | AcceptOracle _ | AccrueInterest | DonateCash _ => None
  | SupplyAssets id _ | WithdrawAssets id _ | RedeemAll id | AddCollateral id _ | BorrowAssets id _
  | RepayAssets id _ | ReleaseCollateral id _ | LiquidatePosition id _ => Some id
  end.

Lemma position_write_other s id id' f c g r b u d :
  (forall p, accountId (f p) = accountId p) -> id <> id' ->
  position_of (update_position id f (move (mutablePosition s id) c g r b u d)) id' = position_of s id'.
Proof.
  intros Hf Hne. rewrite <- (mutablePosition_other s id id' Hne).
  unfold findPoolReferencePosition. cbn [update_position set_positions move positions].
  by rewrite find_update_ne.
Qed.

Lemma position_update_other s id id' f c g r b u d :
  (forall p, accountId (f p) = accountId p) -> id <> id' ->
  position_of (update_position id f (move s c g r b u d)) id' = position_of s id'.
Proof.
  intros Hf Hne. unfold findPoolReferencePosition. cbn [update_position set_positions move positions].
  by rewrite find_update_ne.
Qed.

Lemma step_others now act s s' id' :
  pool_step now act s s' -> actor act <> Some id' -> position_of s' id' = position_of s id'.
Proof.
  intros Hstep Ha. destruct Hstep; try done; rewrite ?update_as_move; cbn in Ha;
    assert (Hne : id <> id') by congruence; try (by rewrite position_write_other).
  unfold recognize. destruct (_ && _); [rewrite position_update_other by done|]; unfold s4; by rewrite position_write_other.
Qed.

(** The debt per share of the pool does not grow: [D' / S' <= D / S]. *)
Definition debt_price_le (s s' : PoolState) : Prop :=
  performing s' * totalDebtShares s <= performing s * totalDebtShares s'.

Lemma quote_price s s' p :
  debt_price_le s s' -> 0 <= debtShares p <= totalDebtShares s -> debtShares p <= totalDebtShares s' ->
  quote s' p <= quote s p.
Proof.
  unfold debt_price_le, quote. intros H Hp Hp'. destruct (Z.eqb_spec (debtShares p) 0); [lia|].
  pose proof (ceil_div_spec (debtShares p * performing s) (totalDebtShares s) ltac:(lia)) as Hq.
  apply ceil_div_le; [lia|]. set (q := ceil_div _ _) in *. clearbody q.
  apply (Z.mul_le_mono_pos_r _ _ (totalDebtShares s)); [lia|]. nia.
Qed.

Lemma debt_move s id f c g r b u d :
  let s' := update_position id f (move (mutablePosition s id) c g r b u d) in
  performing s' = performing s + g - b /\ totalDebtShares s' = totalDebtShares s + d.
Proof.
  destruct (mutablePosition_fields s id) as (ps & ->). unfold poolReferencePerformingDebtAssets. cbn. lia.
Qed.

Lemma debt_price_write s id f c g r b u d :
  (g - b) * totalDebtShares s <= performing s * d ->
  debt_price_le s (update_position id f (move (mutablePosition s id) c g r b u d)).
Proof. intros H. unfold debt_price_le. destruct (debt_move s id f c g r b u d) as [-> ->]. nia. Qed.

Lemma debt_price_trans s1 s2 s3 :
  0 < totalDebtShares s2 -> 0 <= totalDebtShares s1 -> 0 <= totalDebtShares s3 ->
  debt_price_le s1 s2 -> debt_price_le s2 s3 -> debt_price_le s1 s3.
Proof.
  unfold debt_price_le. intros H2 H1 H3 H12 H23.
  apply (Z.mul_le_mono_pos_r _ _ (totalDebtShares s2)); [lia|]. nia.
Qed.

Lemma burn_price s b :
  PoolInv s -> 0 < b <= totalDebtShares s ->
  - debt_behind s b * totalDebtShares s <= performing s * - b.
Proof.
  intros Hinv Hb. pose proof (inv_cover s Hinv). unfold debt_behind.
  destruct (shares_burn (totalDebtShares s) (performing s) b) as (_ & _ & _ & ?); lia.
Qed.

Lemma recognize_price s id :
  0 < debtShares (position_of s id) <= totalDebtShares s ->
  debt_price_le s (recognize id s).
Proof.
  intros Hd. unfold debt_price_le, recognize, quote.
  destruct (Z.eqb_spec (debtShares (position_of s id)) 0); [lia|].
  pose proof (ceil_div_spec (debtShares (position_of s id) * performing s) (totalDebtShares s) ltac:(lia)).
  unfold poolReferencePerformingDebtAssets in *. cbn in *. nia.
Qed.

Lemma step_debt_price now act s s' :
  PoolInv s -> PoolInv s' -> pool_step now act s s' -> debt_price_le s s'.
Proof.
  intros Hinv Hinv' Hstep. pose proof (inv_cover s Hinv). pose proof (inv_fields s Hinv) as [].
  pose proof (fun id => inv_find_shares_le s id Hinv) as Hle. 
  destruct Hstep; rewrite ?update_as_move; try (apply debt_price_write; lia).
  - unfold debt_price_le, poolReferencePerformingDebtAssets. cbn. lia.
  - unfold debt_price_le. lia.
  - unfold debt_price_le, poolReferencePerformingDebtAssets. cbn. lia.
  - apply debt_price_write. match goal with H : _ \/ _ |- _ => destruct H as [[HS ->]|[HS ->]] end.
    + pose proof (proj2 (inv_empty s Hinv) HS). rewrite HS. lia.
    + destruct (shares_mint (totalDebtShares s) (performing s) n); lia.
  - apply debt_price_write. destruct (Hle id) as (_ & ? & _). pose proof (burn_price s b Hinv ltac:(lia)). lia.
  - destruct (Hle id) as (_ & Hd & _). pose proof (burn_price s b Hinv ltac:(lia)) as Hb.
    assert (Hp4 : debt_price_le s s4) by (apply debt_price_write; lia).
    destruct (_ && _) eqn:Hx; [|done]. apply andb_true_iff in Hx as [_ Hx%Z.ltb_lt].
    assert (Hs4 : debtShares (position_of s4 id) = debtShares (position_of s id) - b).
    { unfold s4. rewrite find_update_move by done. cbn. lia. }
    assert (HS4 : totalDebtShares s4 = totalDebtShares s - b).
    { unfold s4. rewrite (proj2 (debt_move _ _ _ _ _ _ _ _ _)). lia. }
    apply (debt_price_trans s s4); try done; [lia|uint_lia| |apply recognize_price; lia].
    pose proof (inv_fields _ Hinv') as []. uint_lia.
Qed.

(** Accounts are isolated.  A transition leaves the position of every
    account but the one it names as it was, and apart from the interest that
    accrued first no other account's debt grows: rounding on a borrow, a
    repayment, a liquidation or a recognition of bad debt is never charged to a
    third party. *)
Theorem other_accounts_isolated act s now s' id' :
  run_action s act now = Ok s' -> actor act <> Some id' ->
  position_of s' id' = position_of s id' /\
  exists s1, accrued s s1 /\ quote s' (position_of s' id') <= quote s1 (position_of s id').
Proof.
  intros (s1 & Hacc & Hinv & Hinv1 & Hinv' & Hstep)%action_refines Ha.
  pose proof (step_others _ _ _ _ id' Hstep Ha) as Heq. apply (settled_accrued _ _ _ _ Hinv) in Hacc.
  assert (Hp : position_of s1 id' = position_of s id') by (by destruct Hacc as (i & r & t & -> & _)).
  split; [congruence|]. exists s1. split; [done|]. rewrite <- Hp, Heq.
  pose proof (inv_find_shares_le s1 id' Hinv1) as (_ & ? & _).
  pose proof (inv_find_shares_le s' id' Hinv') as (_ & ? & _). rewrite Heq in *.
  apply quote_price; [by eapply step_debt_price|lia|lia].
Qed.

(** ** Liquidation *)

Lemma quote_nonneg s p :
  0 <= debtShares p -> 0 < totalDebtShares s -> 0 <= performing s -> 0 <= quote s p.
Proof.
  intros. unfold quote. destruct (_ =? _); [lia|]. apply ceil_div_nonneg; [lia|]. by apply Z.mul_nonneg_nonneg.
Qed.

Lemma seized_fields s id n b sz :
  let s4 := seized_state s id n b sz in
  position_of s4 id = add_collateral (- sz) (add_debtShares (- b) (position_of s id)) /\
  cashAssets s4 = cashAssets s + n /\ equity s4 = equity s.
Proof.
  cbv zeta. unfold seized_state. rewrite find_update_move by done.
  destruct (mutablePosition_fields s id) as (ps & ->). unfold equity. cbn. split_and!; [done|lia..].
Qed.

Lemma recognize_fields s id :
  mutablePosition s id = s ->
  let q := quote s (position_of s id) in
  position_of (recognize id s) id = add_positionBad q (add_debtShares (- debtShares (position_of s id)) (position_of s id)) /\
  cashAssets (recognize id s) = cashAssets s /\ equity (recognize id s) = equity s - q.
Proof.
  intros Hp q. unfold recognize, equity. fold q. split_and!; [|cbn; lia|cbn; lia].
  unfold findPoolReferencePosition at 1. by rewrite find_present.
Qed.

(** What a liquidation does.  At most half of the position's debt is
    repaid; the seized collateral is what leaves the position and never more
    than it holds; the providers lose exactly the bad debt that is recognized;
    bad debt is recognized only on a position whose collateral is gone, and
    such a position is left with no debt shares. *)
Theorem liquidation_outcome s id n now a l :
  liquidatePoolReferencePosition s id n now = Ok (a, l) ->
  exists s1, accrued s s1 /\
    let p := position_of s1 id in
    let p' := position_of (acc_state a) id in
    2 * n <= quote s1 p /\
    0 <= collateralSeizedAssets l <= collateralAssets p /\
    collateralAssets p' = collateralAssets p - collateralSeizedAssets l /\
    0 <= badDebtRecognizedAssets l /\
    pos_badDebtAssets p' = pos_badDebtAssets p + badDebtRecognizedAssets l /\
    (collateralAssets p' = 0 -> debtShares p' = 0) /\
    (0 < badDebtRecognizedAssets l -> collateralAssets p' = 0) /\
    cashAssets (acc_state a) = cashAssets s1 + n /\
    equity (acc_state a) = equity s1 - badDebtRecognizedAssets l.
Proof.
  intros (a1 & b & sz & H1 & _ & Hinv' & [_ _ Hb Hn Hdust Hclose Hsz Hs Hbad Hrep Hsd])%liquidate_Ok.
  apply accrueInternal_accrued in H1 as (_ & Hinv1 & Hacc). generalize dependent (acc_state a1). intros s1 **.
  exists s1. split; [done|]. cbv zeta in *. rewrite Hs, Hbad, Hsd. pose proof (inv_find_shares_le s1 id Hinv1) as (_ & ? & _).
  destruct (seized_fields s1 id n b sz) as (Hp4 & Hc4 & He4).
  assert (Hpres : mutablePosition (seized_state s1 id n b sz) id = seized_state s1 id n b sz) by (by apply present_write).
  assert (HS4 : totalDebtShares (seized_state s1 id n b sz) = totalDebtShares s1 - b).
  { unfold seized_state. rewrite (proj2 (debt_move _ _ _ _ _ _ _ _ _)). lia. }
  unfold exhausted. rewrite Hp4. cbn [add_collateral add_debtShares collateralAssets debtShares pos_badDebtAssets] in *.
  destruct (Z.eqb_spec (collateralAssets (position_of s1 id) + - sz) 0) as [Hc|Hc]; cbn [andb].
  2: { rewrite Hp4. write_fields. split_and!; lia. }
  destruct (Z.ltb_spec 0 (debtShares (position_of s1 id) + - b)) as [Hd|Hd].
  2: { rewrite Hp4. write_fields. split_and!; lia. }
  assert (0 <= quote (seized_state s1 id n b sz) (add_collateral (- sz) (add_debtShares (- b) (position_of s1 id)))).
  { apply quote_nonneg; [cbn; lia|lia|]. unfold seized_state.
    rewrite (proj1 (debt_move _ _ _ _ _ _ _ _ _)). pose proof (inv_cover s1 Hinv1).
    destruct (shares_burn (totalDebtShares s1) (performing s1) b) as (? & _); unfold debt_behind; lia. }
  destruct (recognize_fields _ id Hpres) as (Hp5 & Hc5 & He5). rewrite Hp5, Hc5, He5, Hp4, Hc4, He4. write_fields.
  split_and!; lia.
Qed.

(** ** Supplying and redeeming at once *)

Lemma accrue_now s a : accrueInternal s (lastAccruedAt s) = Ok a -> acc_state a = s.
Proof.
  unfold accrueInternal. rewrite Z.sub_diag. cbn [Z.eqb]. intros H. result_inv.
  match goal with E : accrueLoop _ _ _ = _ |- _ =>
    change (Z.to_nat 0) with O in E; cbn [accrueLoop acc_state] in E; rewrite Z.ltb_irrefl in E; by injection E as <- end.
Qed.

Lemma supply_time id n s now s' : run_action s (SupplyAssets id n) now = Ok s' -> lastAccruedAt s' = now.
Proof.
  cbn [run_action]. unfold supplyPoolReferenceAssets. intros H. result_inv.
  match goal with E : accrueInternal _ _ = _ |- _ => apply accrueInternal_Ok in E as (_ & _ & _ & ? & i & r & -> & _) end.
  cbn [fst with_state acc_state]. rewrite mutablePosition_move.
  match goal with |- context [mutablePosition ?x ?y] => destruct (mutablePosition_fields x y) as (ps & ->) end. cbn. lia.
Qed.

(** Redeeming right after the last accrual. *)
Lemma redeem_now id s s' :
  run_action s (RedeemAll id) (lastAccruedAt s) = Ok s' -> pool_step (lastAccruedAt s) (RedeemAll id) s s'.
Proof.
  intros (a & Ha%accrue_now & _ & H)%redeem_step. by rewrite Ha in H.
Qed.

Lemma redeem_fields now id s s' :
  pool_step now (RedeemAll id) s s' ->
  let m := supplyShares (position_of s id) in
  cashAssets s' = cashAssets s - m * claim s / totalSupplyShares s /\
  totalSupplyShares s' = totalSupplyShares s - m /\ supplyShares (position_of s' id) = 0.
Proof.
  intros H m. inversion H; subst. rewrite find_update_move by done.
  destruct (mutablePosition_fields s id) as (ps & ->). cbn.
  split_and!; [done|done|lia].
Qed.

(** The share arithmetic of the round trip. *)
Lemma round_trip c T n m :
  0 < c -> 0 < T -> 0 < n -> 0 < m -> m = n * T / c -> m * (c + n) / (T + m) <= n.
Proof.
  intros Hc HT Hn Hm ->. pose proof (floor_div_spec (n * T) c Hc) as Hf. set (m := n * T / c) in *.
  apply Z.div_le_upper_bound; [lia|]. nia.
Qed.

(** C34: supplying and redeeming at the same instant never pays.  An account
    without shares that supplies to a pool with shares and at once redeems all
    of its shares takes out no more cash than it put in; the pool's shares are
    as before. *)
Theorem supply_redeem_no_profit id n s now s1 s2 :
  run_action s (SupplyAssets id n) now = Ok s1 ->
  run_action s1 (RedeemAll id) now = Ok s2 ->
  0 < totalSupplyShares s -> supplyShares (position_of s id) = 0 ->
  cashAssets s <= cashAssets s2 /\ totalSupplyShares s2 = totalSupplyShares s /\
  supplyShares (position_of s2 id) = 0.
Proof.
  intros H1 H2 HT H0. pose proof (supply_time _ _ _ _ _ H1) as Ht. rewrite <- Ht in H2. apply redeem_now in H2.
  apply action_refines in H1 as (s0 & Hset & Hinv & _ & _ & Hstep).
  apply (settled_accrued _ _ _ _ Hinv) in Hset as (i & r & t & -> & Hr & _).
  inversion Hstep as [| |? ? m ? Hn Hm Hmint| | | | | | | | |]; subst. clear Hstep.
  destruct Hmint as [[? _]|(HT0 & Hc & Hmv)]; [cbn in *; lia|].
  set (s0 := grown s i r t) in *. set (s1 := update_position _ _ _) in *.
  destruct (claim_move s0 id (add_supplyShares m) n 0 0 0 m 0) as [Hc1 HT1]. fold s1 in Hc1, HT1.
  assert (Hp : position_of s1 id = add_supplyShares m (position_of s0 id)) by (by apply find_update_move).
  assert (Hp0 : supplyShares (position_of s1 id) = m) by (rewrite Hp; change (position_of s0 id) with (position_of s id); cbn; lia).
  assert (Hcash : cashAssets s1 = cashAssets s + n).
  { unfold s1. destruct (mutablePosition_fields s0 id) as (ps & ->). done. }
  assert (HT2 : totalSupplyShares s1 = totalSupplyShares s + m) by done. clearbody s1.
  apply redeem_fields in H2 as (-> & -> & ->). rewrite Hp0, HT2, Hc1, Hcash. split_and!; [|lia|done].
  replace (equity s0 + n + 0 - 0 - 0) with (equity s0 + n) by lia. rewrite claim_equity in *.
  pose proof (round_trip (Z.max 0 (equity s0)) (totalSupplyShares s) n m Hc ltac:(lia) ltac:(lia) ltac:(lia) Hmv).
  replace (Z.max 0 (equity s0 + n)) with (Z.max 0 (equity s0) + n) by lia. lia.
Qed.

(** ** Rates *)

Lemma utilization_monotone c d1 d2 u1 u2 :
  calculateUtilizationBps c d1 = Ok u1 -> calculateUtilizationBps c d2 = Ok u2 -> d1 <= d2 -> u1 <= u2.
Proof.
  unfold calculateUtilizationBps. intros H1 H2 Hd. result_inv. uint_inv. policy.
  destruct (Z.eqb_spec (c + d1) 0), (Z.eqb_spec (c + d2) 0); result_inv; spec_inv; try uint_lia.
  - apply Z.div_pos; uint_lia.
  - apply Z.div_le_lower_bound; [lia|].
    pose proof (floor_div_spec (d1 * 10000) (c + d1) ltac:(lia)).
    apply (Z.mul_le_mono_pos_r _ _ (c + d1)); [lia|]. unfold uint in *. nia.
Qed.

(** The rate at a utilization. *)
Definition curve (u : Z) : Z :=
  if u <=? 8000 then 200 + 800 * u / 8000 else 1000 + 6000 * (u - 8000) / 2000.

Lemma calculateBorrowAprBps_curve c d r :
  calculateBorrowAprBps c d = Ok r -> exists u, calculateUtilizationBps c d = Ok u /\ r = curve u.
Proof.
  unfold calculateBorrowAprBps, curve. policy. intros (u & Hu & H)%bind_Ok. exists u. split; [done|].
  destruct (u <=? 8000); apply bind_Ok in H as (q & Hq & [= <-]); spec_inv; done.
Qed.

Lemma curve_monotone u1 u2 : 0 <= u1 <= u2 -> curve u1 <= curve u2.
Proof.
  unfold curve. intros H. destruct (Z.leb_spec u1 8000), (Z.leb_spec u2 8000);
    Z.to_euclidean_division_equations; lia.
Qed.

(** The rate curve is well behaved.  At a fixed amount of cash, more
    performing debt never lowers the borrow rate, which stays between 2% and
    70%; the rate paid to suppliers is at most nine tenths of it. *)
Theorem borrow_rate_monotone c d1 d2 r1 r2 q :
  calculateBorrowAprBps c d1 = Ok r1 -> calculateBorrowAprBps c d2 = Ok r2 -> d1 <= d2 ->
  calculateSupplyAprBps c d2 = Ok q ->
  200 <= r1 <= r2 /\ r2 <= 7000 /\ 0 <= 10 * q <= 9 * r2.
Proof.
  intros H1 H2 Hd Hq. pose proof (calculateBorrowAprBps_bounds _ _ _ H1) as Hb1.
  pose proof (calculateBorrowAprBps_bounds _ _ _ H2) as Hb2.
  assert (Hmono : r1 <= r2).
  { apply calculateBorrowAprBps_curve in H1 as (u1 & Hu1 & ->), H2 as (u2 & Hu2 & ->).
    apply curve_monotone. split; [apply calculateUtilizationBps_bounds in Hu1; lia|].
    by eapply utilization_monotone. }
  unfold calculateSupplyAprBps in Hq. rewrite H2 in Hq. cbn [mbind result_bind] in Hq. policy. result_inv. spec_inv.
  match goal with E : calculateUtilizationBps _ _ = _ |- _ => apply calculateUtilizationBps_bounds in E end.
  match goal with |- context [?r * ?u / 10000 * _ / _] =>
    pose proof (floor_div_spec (r * u) 10000 ltac:(lia)); assert (0 <= r * u <= r * 10000) by nia;
    assert (0 <= r * u / 10000) by (apply Z.div_pos; lia) end.
  match goal with |- context [?x / 10000] => pose proof (floor_div_spec x 10000 ltac:(lia)); assert (0 <= x / 10000) by (apply Z.div_pos; lia) end.
  lia.
Qed.

(** ** The accounting check *)

(** The runtime check decides the accounting invariant: it returns exactly
    on the pools that satisfy [PoolInv], and then the claims it adds up,
    account by account and rounded down, are within the LP claim. *)
Theorem accounting_check_decides s :
  (PoolInv s <-> exists r, assertPoolReferenceInvariants s = Ok r) /\
  forall r, assertPoolReferenceInvariants s = Ok r ->
    rep_lpClaimAssets r = claim s /\ rep_performingDebtAssets r = performing s /\
    0 <= rep_aggregateSupplyClaims r <= claim s /\
    rep_positions r = Z.of_nat (length (positions s)).
Proof.
  split; [split|].
  - intros H. eexists. by apply assertPoolReferenceInvariants_pass.
  - intros (r & H). by eapply assertPoolReferenceInvariants_Inv.
  - intros r H. pose proof (assertPoolReferenceInvariants_Inv _ _ H) as Hinv.
    rewrite (assertPoolReferenceInvariants_pass s Hinv) in H. injection H as <-. cbn.
    assert (Hpos : forall p, p ∈ positions s -> 0 <= supplyShares p).
    { intros p Hp. destruct (inv_position s p Hinv Hp). uint_lia. }
    pose proof (inv_sum_supply s Hinv). pose proof (lp_claim_nonneg s).
    split_and!; try done; [|apply claims_within; [done|done|lia]].
    apply sum_by_nonneg. intros p Hp. unfold claim_of. destruct (Z.ltb_spec 0 (totalSupplyShares s)); [|done].
    apply Z.div_pos; [|done]. apply Z.mul_nonneg_nonneg; [auto|done].
Qed.

(** ** Supplying to a pool without equity *)

(** C40: in a pool whose providers' equity is gone while shares are outstanding,
    every supply fails on the division by the zero claim, with the error that
    means a malformed model rather than with [secured_pool_action_unavailable]. *)
Theorem supply_without_equity s id n now a :
  account_id_ok id -> uint n -> 0 < n -> accrueInternal s now = Ok a ->
  0 < totalSupplyShares (acc_state a) -> claim (acc_state a) = 0 ->
  supplyPoolReferenceAssets s id n now =
    Err (MkDomainError invalid_code "denominator must be a bounded positive BigInt").
Proof.
  intros Hid Hn Hpos Ha HT Hc. unfold supplyPoolReferenceAssets. pass_id. pass_uint. rewrite Ha.
  cbn [mbind result_bind]. rewrite Hc. rewrite (proj2 (Z.eqb_neq (totalSupplyShares (acc_state a)) 0)) by lia.
  apply accrueInternal_accrued in Ha as (_ & Hinv & _). pose proof (inv_fields _ Hinv) as [].
  unfold mulDivDown. rewrite (assertReferenceUint_pass "left"), (assertReferenceUint_pass "right") by uint_lia. done.
Qed.

(** ** Refinement *)

Lemma transition_inv now act s s' : refines now act s s' -> PoolInv s /\ PoolInv s'.
Proof. by intros (s1 & _ & ? & _ & ? & _). Qed.

(** C1: the pool implements its specification, action by action.  In every
    execution of the exported operations from a new pool, each action in turn
    takes exactly the step [pool_step] prescribes for that action at its time:
    first the interest up to then, week by week at the rate of the pool it finds
    (except for a price observation), then the action's own movement of assets
    and shares under its own conditions.  A borrow needs a fresh accepted price,
    liquidity, room under both caps and a debt within three quarters of the
    collateral's value; a release leaves the debt within that bound; a
    liquidation needs a debt above four fifths of it, repays at most half of the
    debt and seizes the collateral worth a twentieth more; an observation is
    fresh, no older than and within a fifth of the one before.  The execution
    ends in a pool that satisfies the accounting invariant. *)
Theorem pool_trace_refines t mc bc s0 acts s :
  createSecuredPoolReferenceState t mc bc = Ok s0 -> run_actions s0 acts = Ok s ->
  pool_trace s0 acts s /\ PoolInv s.
Proof.
  intros H0 H. split; [by eapply run_actions_trace|].
  revert t mc bc s0 acts s H0 H. apply (reachable_ind PoolInv).
  - unfold createSecuredPoolReferenceState. intros t mc bc s0 H. result_inv. by spec_inv.
  - intros now act s s' _ [_ H]%transition_inv. done.
Qed.
