(* ===== verification/PoolWitness.v ===== *)
(** * Secured pool: concrete executions

    Pools reached by running the transitions, at which the hypotheses of the
    pool's theorems hold. *)

From stdpp Require Import base tactics relations sets strings numbers list.
From S2P Require Import Prelude PoolMath PoolState PoolModel PoolFacts PoolSafety PoolSpec PoolProps.
Local Open Scope Z_scope.

Definition observation (price at_ : Z) (round : string) : OracleObservation :=
  MkOracle "eip155:84532" "weth" "deterministic_m2_fixture.v1" true round price at_.

(** A pool, or an empty one when the actions fail. *)
Definition pool_at (t : Z) (acts : list (PoolAction * Z)) : PoolState :=
  match createSecuredPoolReferenceState t (10 ^ 12) (10 ^ 12) with
  | Ok s0 => match run_actions s0 acts with Ok s => s | Err _ => s0 end
  | Err _ => MkPool "" "" 0 0 0 0 0 0 0 0 0 None []
  end.

Definition opening : list (PoolAction * Z) :=
  [ (AcceptOracle (observation (2000 * 10 ^ 18) 1000 "r0"), 1000);
    (SupplyAssets "lp-1" 1500, 1000);
    (AddCollateral "borrower-1" (10 ^ 12), 1000);
    (BorrowAssets "borrower-1" 1500, 1000) ]%string.

Definition lent : PoolState := Eval vm_compute in pool_at 1000 opening.

(** [n] observations, each a fifth below the one before. *)
Fixpoint crash (n : nat) (price t : Z) : list (PoolAction * Z) :=
  match n with
  | O => []
  | S n => let price := price * 8 / 10 + 1 in
           (AcceptOracle (observation price t "r"), t) :: crash n price (t + 1)
  end.

Definition after_week : Z := 1000 + week.
Definition crashed : PoolState := Eval vm_compute in
  pool_at 1000 (opening ++ crash 30 (2000 * 10 ^ 18) after_week).
Definition wiped_out : PoolState := Eval vm_compute in
  pool_at 1000 (opening ++ crash 30 (2000 * 10 ^ 18) after_week ++
                [(LiquidatePosition "borrower-1"%string 2, after_week + 30)]).

Definition new_pool : PoolState := Eval vm_compute in pool_at 1000 [].

Lemma new_pool_created : createSecuredPoolReferenceState 1000 (10 ^ 12) (10 ^ 12) = Ok new_pool.
Proof. vm_compute. reflexivity. Qed.

Lemma lent_inv : PoolInv lent.
Proof.
  destruct (assertPoolReferenceInvariants lent) as [r|e] eqn:E; [by eapply assertPoolReferenceInvariants_Inv|].
  exfalso. revert E. vm_compute. discriminate.
Qed.

Lemma lent_small : pool_small lent.
Proof.
  constructor.
  1-4: vm_compute; discriminate.
  - repeat constructor; vm_compute; discriminate.
  - intros o [= <-]. vm_compute. discriminate.
Qed.

(** Opening, a crash of the price and a liquidation that leaves bad debt. *)
Definition wipe_out : list (PoolAction * Z) :=
  opening ++ crash 30 (2000 * 10 ^ 18) after_week ++ [(LiquidatePosition "borrower-1"%string 2, after_week + 30)].

Lemma pool_trace_refines_witness : pool_trace new_pool wipe_out wiped_out /\ PoolInv wiped_out.
Proof.
  apply (pool_trace_refines 1000 (10 ^ 12) (10 ^ 12) new_pool wipe_out wiped_out).
  - vm_compute. reflexivity.
  - vm_compute. reflexivity.
Defined.

Lemma transitions_never_invalid_witness :
  throws_only [unavailable_code] (run_action lent (BorrowAssets "lp-1" 5) 2000).
Proof.
  apply (transitions_never_invalid lent (BorrowAssets "lp-1" 5) 2000).
  - exact lent_inv.
  - exact lent_small.
  - split; vm_compute; discriminate.
  - split; [vm_compute; reflexivity|split; vm_compute; [reflexivity|discriminate]].
  - intros id n H. discriminate H.
Defined.

Lemma bad_debt_exclusive_witness :
  PoolInv wiped_out /\ forall p, p ∈ positions wiped_out -> 0 < pos_badDebtAssets p -> debtShares p = 0.
Proof.
  apply (bad_debt_exclusive 1000 (10 ^ 12) (10 ^ 12) new_pool
    (opening ++ crash 30 (2000 * 10 ^ 18) after_week ++
     [(LiquidatePosition "borrower-1" 2, after_week + 30)]) wiped_out).
  - vm_compute. reflexivity.
  - vm_compute. reflexivity.
Defined.

(** The pool after a repayment of 400, and after another account supplied 700. *)
Definition repaid : PoolState := Eval vm_compute in
  pool_at 1000 (opening ++ [(RepayAssets "borrower-1" 400, after_week)]).
Definition supplied : PoolState := Eval vm_compute in
  pool_at 1000 (opening ++ [(RepayAssets "borrower-1" 400, after_week); (SupplyAssets "lp-2" 700, after_week)]).
Definition redeemed : PoolState := Eval vm_compute in
  pool_at 1000 (opening ++ [(RepayAssets "borrower-1" 400, after_week); (SupplyAssets "lp-2" 700, after_week);
                            (RedeemAll "lp-2", after_week)]).

Lemma lp_share_price_monotone_witness :
  claim repaid * totalSupplyShares supplied <= claim supplied * totalSupplyShares repaid.
Proof.
  apply (lp_share_price_monotone (SupplyAssets "lp-2" 700) repaid after_week supplied).
  - vm_compute. reflexivity.
  - intros id n H. discriminate H.
  - vm_compute. reflexivity.
Defined.

Lemma other_accounts_isolated_witness :
  position_of repaid "lp-1" = position_of lent "lp-1" /\
  exists s1, accrued lent s1 /\ quote repaid (position_of repaid "lp-1") <= quote s1 (position_of lent "lp-1").
Proof.
  apply (other_accounts_isolated (RepayAssets "borrower-1" 400) lent after_week repaid "lp-1").
  - vm_compute. reflexivity.
  - discriminate.
Defined.

Definition liquidation : Accrual * Liquidation := Eval vm_compute in
  match liquidatePoolReferencePosition crashed "borrower-1" 2 (after_week + 30) with
  | Ok v => v
  | Err _ => (MkAccrual crashed 0 0 0,
              MkLiquidation (MkRepayment 0 0 0) 0 0 0 (MkHealth 0 0 0 0 0 None false))
  end.

Lemma liquidation_outcome_witness :
  badDebtRecognizedAssets liquidation.2 = 1520 /\
  exists s1, accrued crashed s1 /\ equity (acc_state liquidation.1) = equity s1 - 1520.
Proof.
  split; [vm_compute; reflexivity|].
  destruct (liquidation_outcome crashed "borrower-1" 2 (after_week + 30) liquidation.1 liquidation.2)
    as (s1 & Hacc & _ & _ & _ & _ & _ & _ & _ & _ & He).
  - vm_compute. reflexivity.
  - exists s1. split; [exact Hacc|]. rewrite He. vm_compute. reflexivity.
Defined.

Lemma supply_redeem_no_profit_witness : cashAssets repaid <= cashAssets redeemed.
Proof.
  apply (supply_redeem_no_profit "lp-2" 700 repaid after_week supplied redeemed).
  - vm_compute. reflexivity.
  - vm_compute. reflexivity.
  - vm_compute. reflexivity.
  - vm_compute. reflexivity.
Defined.

Lemma borrow_rate_monotone_witness : 200 <= 900 <= 2500 /\ 2500 <= 7000 /\ 0 <= 10 * 1912 <= 9 * 2500.
Proof.
  apply (borrow_rate_monotone 300 700 1700 900 2500 1912).
  - vm_compute. reflexivity.
  - vm_compute. reflexivity.
  - vm_compute. discriminate.
  - vm_compute. reflexivity.
Defined.

Lemma supply_without_equity_witness :
  supplyPoolReferenceAssets wiped_out "lp-2" 50 (after_week + 30) =
    Err (MkDomainError invalid_code "denominator must be a bounded positive BigInt").
Proof.
  apply (supply_without_equity wiped_out "lp-2" 50 (after_week + 30) (MkAccrual wiped_out 0 0 0)).
  - vm_compute. reflexivity.
  - split; vm_compute; discriminate.
  - vm_compute. reflexivity.
  - vm_compute. reflexivity.
  - vm_compute. reflexivity.
  - vm_compute. reflexivity.
Defined.
