(* ===== verification/Js.v ===== *)
(** * JavaScript values, validators and identifiers

    src/packages/domain/src/validators.js and ids.js.  A JavaScript string is a
    [string] of its code units, restricted to the code units below 256.  A [Date]
    is its time value in milliseconds.  An amount in minor units is a [Z] once it
    has been validated: the code keeps it as the decimal string of a BigInt and
    reads it back with [BigInt], which [toMinorUnitBigInt_toString] makes the
    identity on the amounts the validators admit. *)

From Stdlib Require Import DecimalString DecimalN DecimalFacts DecimalPos Sorted Ascii.
From stdpp Require Import base tactics sets numbers strings list.
From S2P Require Import Prelude.
Local Open Scope string_scope.
Local Open Scope Z_scope.

(** ** Values *)

Inductive json :=
| JUndef
| JNull
| JBool (b : bool)
| JNum (z : Z)
| JBig (z : Z)
| JStr (s : string)
| JArr (l : list json)
| JObj (l : list (string * json)).

Definition opt_json (o : option string) : json :=
  match o with Some s => JStr s | None => JUndef end.

(** [value?.[key]] *)
Definition prop (key : string) (value : json) : json :=
  match value with
  | JObj l => default JUndef (map_get key l)
  | _ => JUndef
  end.

(** [a ?? b] *)
Definition nullish (a b : json) : json :=
  match a with JUndef | JNull => b | _ => a end.

(** [BigInt.prototype.toString] and [Number.prototype.toString] on integers. *)
Definition toString (z : Z) : string :=
  if z <? 0 then "-" +:+ NilZero.string_of_uint (N.to_uint (Z.abs_N z))
  else NilZero.string_of_uint (N.to_uint (Z.to_N z)).

Definition code (c : ascii) : Z := Z.of_N (N_of_ascii c).
Definition chr (n : N) : string := String (ascii_of_N n) EmptyString.
Definition NUL : string := chr 0.
Definition QUOTE : string := chr 34.
Definition BACKSLASH : string := chr 92.

Definition hex_digit (n : N) : string := chr (if (n <? 10)%N then 48 + n else 87 + n).

(** The escapes of [JSON.stringify] on a string. *)
Definition json_escape (c : ascii) : string :=
  let n := N_of_ascii c in
  if (n =? 34)%N then BACKSLASH +:+ QUOTE
  else if (n =? 92)%N then BACKSLASH +:+ BACKSLASH
  else if (n =? 8)%N then BACKSLASH +:+ "b"
  else if (n =? 9)%N then BACKSLASH +:+ "t"
  else if (n =? 10)%N then BACKSLASH +:+ "n"
  else if (n =? 12)%N then BACKSLASH +:+ "f"
  else if (n =? 13)%N then BACKSLASH +:+ "r"
  else if (n <? 32)%N then BACKSLASH +:+ "u00" +:+ hex_digit (n / 16) +:+ hex_digit (n mod 16)
  else String c EmptyString.

Fixpoint json_escapes (s : string) : string :=
  match s with EmptyString => EmptyString | String c s => json_escape c +:+ json_escapes s end.

Definition json_quote (s : string) : string := QUOTE +:+ json_escapes s +:+ QUOTE.

(** [keys.sort()] on the entries of an object: by code units. *)
Fixpoint insert_entry {A} (e : string * A) (l : list (string * A)) : list (string * A) :=
  match l with
  | [] => [e]
  | e' :: l => if String.leb (fst e) (fst e') then e :: e' :: l else e' :: insert_entry e l
  end.
Definition sort_entries {A} (l : list (string * A)) : list (string * A) := foldr insert_entry [] l.

Fixpoint join (sep : string) (l : list string) : string :=
  match l with
  | [] => ""
  | [s] => s
  | s :: l => s +:+ sep +:+ join sep l
  end.

Definition is_undefined (v : json) : bool := match v with JUndef => true | _ => false end.

Fixpoint stableSerialize (value : json) : string :=
  match value with
  | JNull | JUndef => "null"
  | JBig z => toString z
  | JBool b => if b then "true" else "false"
  | JNum z => toString z
  | JStr s => json_quote s
  | JArr l => "[" +:+ join "," ((fix items (l : list json) : list string :=
                match l with [] => [] | v :: l => stableSerialize v :: items l end) l) +:+ "]"
  | JObj l =>
      "{" +:+ join "," (map (fun e => json_quote (fst e) +:+ ":" +:+ snd e)
        (sort_entries ((fix entries (l : list (string * json)) : list (string * string) :=
           match l with
           | [] => []
           | (k, v) :: l => if is_undefined v then entries l
                            else (k, stableSerialize v) :: entries l
           end) l))) +:+ "}"
  end.

(** [array.sort(compare)]: stable, for a comparison that is a total preorder. *)
Section sort.
  Context {A : Type} (compare : A -> A -> comparison).
Fixpoint sort_insert (x : A) (l : list A) : list A :=
    match l with
    | [] => [x]
    | y :: l => match compare x y with Gt => y :: sort_insert x l | _ => x :: y :: l end
    end.
Definition stable_sort (l : list A) : list A := foldr sort_insert [] l.

Lemma sort_insert_perm x l : sort_insert x l ≡ₚ x :: l.
  Proof.
    induction l as [|y l IH]; [done|]. cbn. destruct (compare x y); [done|done|].
    rewrite IH. apply Permutation_swap.
  Qed.
Lemma stable_sort_perm l : stable_sort l ≡ₚ l.
  Proof. induction l as [|x l IH]; [done|]. cbn. by rewrite sort_insert_perm, IH. Qed.
End sort.

(** The result is sorted when the comparison is a consistent order. *)
Section sorted.
Context {A : Type} (cmp : A -> A -> comparison).
Context (Hopp : forall a b, cmp b a = CompOpp (cmp a b))
  (Htrans : forall a b c, cmp a b <> Gt -> cmp b c <> Gt -> cmp a c <> Gt).

Lemma sort_insert_sorted x l :
  StronglySorted (fun a b => cmp a b <> Gt) l -> StronglySorted (fun a b => cmp a b <> Gt) (sort_insert cmp x l).
Proof.
  induction 1 as [|z l Hs IH Hf]; cbn; [by repeat constructor|].
  destruct (cmp x z) eqn:E; (constructor; [first [done|by constructor]|]).
  1, 2: constructor; [congruence|]; eapply Forall_impl; [exact Hf|]; intros w Hw; apply (Htrans x z w); congruence.
  rewrite (sort_insert_perm cmp x l). constructor; [rewrite Hopp, E; done|done].
Qed.

Lemma stable_sort_sorted l : StronglySorted (fun a b => cmp a b <> Gt) (stable_sort cmp l).
Proof. induction l as [|x l IH]; [constructor|]. by apply sort_insert_sorted. Qed.
End sorted.

(** ** The platform

    What the code takes from Node.js and the machine it runs on: the [n]-th
    random UUID, the [n]-th reading of the clock, the SHA3-256 digest in
    hexadecimal, [Date.parse] and [String.prototype.localeCompare]. *)
Class Platform := {
  randomUUID : nat -> string;
  clock : nat -> Z;
  sha3_256_hex : string -> string;
  date_parse : string -> option Z;
  localeCompare : string -> string -> comparison }.

(** ** Dates *)

(** The civil date of a day counted from 1970-01-01. *)
Definition civil_from_days (days : Z) : Z * Z * Z :=
  let z := days + 719468 in
  let era := z / 146097 in
  let doe := z mod 146097 in
  let yoe := (doe - doe / 1460 + doe / 36524 - doe / 146096) / 365 in
  let doy := doe - (365 * yoe + yoe / 4 - yoe / 100) in
  let mp := (5 * doy + 2) / 153 in
  let d := doy - (153 * mp + 2) / 5 + 1 in
  let m := if mp <? 10 then mp + 3 else mp - 9 in
  let y := yoe + era * 400 + (if m <=? 2 then 1 else 0) in
  (y, m, d).

Fixpoint pad_with (n : nat) (s : string) : string :=
  match n with O => s | S n => if (String.length s <=? n)%nat then "0" +:+ pad_with n s else pad_with n s end.
Definition pad (width : nat) (z : Z) : string := pad_with width (toString z).

Definition iso_year (y : Z) : string :=
  if (0 <=? y) && (y <=? 9999) then pad 4 y
  else (if y <? 0 then "-" else "+") +:+ pad 6 (Z.abs y).

Definition day_ms : Z := 86400000.

Definition toISOString (t : Z) : string :=
  let ms := t mod day_ms in
  match civil_from_days (t / day_ms) with
  | (y, m, d) =>
      iso_year y +:+ "-" +:+ pad 2 m +:+ "-" +:+ pad 2 d +:+ "T" ++
      pad 2 (ms / 3600000) +:+ ":" +:+ pad 2 (ms / 60000 mod 60) +:+ ":" ++
      pad 2 (ms / 1000 mod 60) +:+ "." +:+ pad 3 (ms mod 1000) +:+ "Z"
  end.

Example toISOString_epoch : toISOString 0 = "1970-01-01T00:00:00.000Z".
Proof. vm_compute. reflexivity. Qed.
Example toISOString_leap : toISOString 1709210096789 = "2024-02-29T12:34:56.789Z".
Proof. vm_compute. reflexivity. Qed.
Example toISOString_before : toISOString (-1) = "1969-12-31T23:59:59.999Z".
Proof. vm_compute. reflexivity. Qed.

(** ** Identifiers *)

Definition DEMO_HASH_DOMAIN : string := "IPO_ONE_DEMO_V1".

Definition hashId `{Platform} (namespace : string) (payload : json) : string :=
  "0x" +:+ sha3_256_hex (DEMO_HASH_DOMAIN +:+ NUL +:+ namespace +:+ NUL +:+ stableSerialize payload).

Definition createAccountHash `{Platform} (accountId : string) : string :=
  hashId "account" (JObj [("accountId", JStr accountId)]).
Definition createSpendPolicyHash `{Platform} (payload : json) : string := hashId "spend_policy" payload.
Definition createObligationHash `{Platform} (payload : json) : string := hashId "obligation" payload.

(** ** Validators *)

Definition MAX_DOMAIN_STRING_LENGTH : nat := 2048.
Definition MAX_MINOR_UNIT_DIGITS : nat := 78.

Definition BANNED_PII_KEYS : list string :=
  ["ssn"; "passport"; "passportnumber"; "idnumber"; "nationalid"; "phonenumber"; "rawkyc";
   "accountnumber"; "bankaccount"; "bankaccountnumber"; "routingnumber"; "iban"; "privatekey";
   "apikey"; "accesstoken"; "refreshtoken"; "password"; "clientsecret"; "webhooksecret";
   "credentials"; "seedphrase"; "mnemonic"; "secret"].

Definition assertEnumValue (name value : string) (allowedValues : list string) : result unit :=
  guard (bool_decide (value ∉ allowedValues)) "invalid_enum_value"
    (name +:+ " must be one of " +:+ join ", " allowedValues).

(** The characters [String.prototype.trim] removes. *)
Definition is_space (c : ascii) : bool :=
  let n := code c in ((9 <=? n) && (n <=? 13)) || (n =? 32) || (n =? 160).

Fixpoint all_chars (f : ascii -> bool) (s : string) : bool :=
  match s with EmptyString => true | String c s => f c && all_chars f s end.

Definition assertNonEmptyString (name : string) (value : json) : result unit :=
  guard (match value with
         | JStr s => all_chars is_space s || (MAX_DOMAIN_STRING_LENGTH <? String.length s)%nat
         | _ => true
         end)
    "invalid_string" (name +:+ " must be a non-empty string").

(** An amount as a caller passes it: a string, a BigInt, or anything else. *)
Inductive minor := MString (s : string) | MBigInt (z : Z) | MOther (v : json).

Definition json_of_minor (m : minor) : json :=
  match m with MString s => JStr s | MBigInt z => JBig z | MOther v => v end.

Definition is_digit (c : ascii) : bool := (48 <=? code c) && (code c <=? 57).

(** The pattern of an amount: [0], or a nonzero digit and more digits. *)
Definition MINOR_PATTERN (s : string) : bool :=
  match s with
  | EmptyString => false
  | String c rest =>
      if code c =? 48 then match rest with EmptyString => true | _ => false end
      else is_digit c && all_chars is_digit rest
  end.

(** [BigInt] of a string of decimal digits. *)
Definition BigInt (s : string) : Z :=
  match NilEmpty.uint_of_string s with Some d => Z.of_N (N.of_uint d) | None => 0 end.

Definition toMinorUnitBigInt (value : minor) (name : string) : result Z :=
  match value with
  | MBigInt z =>
      guard (MAX_MINOR_UNIT_DIGITS <? String.length (toString (Z.abs z)))%nat
        "invalid_minor_units" (name +:+ " exceeds the supported decimal width") ;;
      Ok z
  | MString s =>
      guard ((MAX_MINOR_UNIT_DIGITS <? String.length s)%nat || negb (MINOR_PATTERN s))
        "invalid_minor_units" (name +:+ " must be an unsigned integer string") ;;
      Ok (BigInt s)
  | MOther _ => fail "invalid_minor_units" (name +:+ " must be an unsigned integer string")
  end.

Definition assertPositiveMinorUnits (value : minor) (name : string) : result Z :=
  parsed ← toMinorUnitBigInt value name;
  guard (parsed <=? 0) "invalid_minor_units" (name +:+ " must be greater than zero") ;;
  Ok parsed.

Definition assertNonNegativeMinorUnits (value : minor) (name : string) : result Z :=
  parsed ← toMinorUnitBigInt value name;
  guard (parsed <? 0) "invalid_minor_units" (name +:+ " must be zero or greater") ;;
  Ok parsed.

Definition is_lower (c : ascii) : bool := (97 <=? code c) && (code c <=? 122).
Definition is_upper (c : ascii) : bool := (65 <=? code c) && (code c <=? 90).
Definition is_namespace_char (c : ascii) : bool := is_lower c || is_digit c || (code c =? 45).
Definition is_reference_char (c : ascii) : bool := is_lower c || is_upper c || is_digit c || (code c =? 45).
(** The class [[A-Za-z0-9:._%-]]. *)
Definition is_address_char (c : ascii) : bool :=
  is_reference_char c || (code c =? 58) || (code c =? 46) || (code c =? 95) || (code c =? 37).

(** [s.split(":")] *)
Fixpoint split_colon (s : string) : list string :=
  match s with
  | EmptyString => [""]
  | String c s =>
      if code c =? 58 then "" :: split_colon s
      else match split_colon s with
           | [] => [String c EmptyString]
           | w :: ws => String c w :: ws
           end
  end.

Definition nonempty_of (f : ascii -> bool) (s : string) : bool :=
  match s with EmptyString => false | _ => all_chars f s end.

(** [/^[a-z0-9-]+:[A-Za-z0-9-]+$/] *)
Definition CAIP2_PATTERN (s : string) : bool :=
  match split_colon s with
  | [a; b] => nonempty_of is_namespace_char a && nonempty_of is_reference_char b
  | _ => false
  end.

(** [/^[a-z0-9-]+:[A-Za-z0-9-]+:[A-Za-z0-9:._%-]+$/] *)
Definition CAIP10_PATTERN (s : string) : bool :=
  match split_colon s with
  | a :: b :: c =>
      nonempty_of is_namespace_char a && nonempty_of is_reference_char b &&
      nonempty_of is_address_char (join ":" c)
  | _ => false
  end.

Definition assertCAIP2 (chainId : string) : result unit :=
  assertNonEmptyString "chainId" (JStr chainId) ;;
  guard (negb (CAIP2_PATTERN chainId)) "invalid_caip2" "chainId must use CAIP-2 format".

Definition assertCAIP10 (accountId : string) : result unit :=
  assertNonEmptyString "accountId" (JStr accountId) ;;
  guard (negb (CAIP10_PATTERN accountId)) "invalid_caip10" "accountId must use CAIP-10 format".

Definition chainIdFromCAIP10 (accountId : string) : result string :=
  assertCAIP10 accountId ;;
  match split_colon accountId with
  | namespace :: reference :: _ => Ok (namespace +:+ ":" +:+ reference)
  | _ => Ok (accountId +:+ ":undefined")
  end.

(** [key.toLowerCase().replace(/[^a-z0-9]/g, "")] *)
Fixpoint normalize_key (s : string) : string :=
  match s with
  | EmptyString => EmptyString
  | String c s =>
      if is_upper c then String (ascii_of_N (N_of_ascii c + 32)) (normalize_key s)
      else if is_lower c || is_digit c then String c (normalize_key s)
      else normalize_key s
  end.

Definition pii_error : DomainError :=
  MkDomainError "raw_pii_prohibited" "raw PII, KYC, or secrets are prohibited".

(** The entries of an array are visited under their indices, which no banned key is. *)
Fixpoint assertNoRawPiiReference (value : json) : result unit :=
  match value with
  | JObj l =>
      (fix entries (l : list (string * json)) : result unit :=
         match l with
         | [] => Ok ()
         | (key, nested) :: l =>
             (if bool_decide (normalize_key key ∈ BANNED_PII_KEYS) then Err pii_error else Ok ()) ;;
             assertNoRawPiiReference nested ;;
             entries l
         end) l
  | JArr l =>
      (fix items (l : list json) : result unit :=
         match l with [] => Ok () | v :: l => assertNoRawPiiReference v ;; items l end) l
  | _ => Ok ()
  end.

Definition assertDueAt `{Platform} (value : string) : result unit :=
  guard (match date_parse value with Some _ => false | None => true end)
    "invalid_due_at" "dueAt must be an ISO timestamp".

(** ** Amounts print and parse *)

Lemma string_of_uint_digits d : all_chars is_digit (NilEmpty.string_of_uint d) = true.
Proof. by induction d. Qed.

Lemma unorm_shape d : Decimal.unorm d = Decimal.zero \/
  (Decimal.unorm d <> Decimal.Nil /\ forall d', Decimal.unorm d <> Decimal.D0 d').
Proof.
  unfold Decimal.unorm. pose proof (nzhead_nonzero d) as Hz.
  destruct (Decimal.nzhead d) eqn:E; [by left|by destruct (Hz u)|right; split; congruence..].
Qed.

Lemma to_uint_unorm n : N.to_uint n = Decimal.unorm (N.to_uint n).
Proof. by rewrite <- DecimalN.Unsigned.to_of, DecimalN.Unsigned.of_to. Qed.

Lemma toString_uint z : 0 <= z -> toString z = NilEmpty.string_of_uint (N.to_uint (Z.to_N z)).
Proof.
  intros Hz. unfold toString. rewrite (proj2 (Z.ltb_ge z 0) Hz). unfold NilZero.string_of_uint.
  pose proof (unorm_shape (N.to_uint (Z.to_N z))) as H. rewrite <- to_uint_unorm in H.
  destruct (N.to_uint (Z.to_N z)); try done. by destruct H as [|[? _]].
Qed.

Lemma toString_pattern z : 0 <= z -> MINOR_PATTERN (toString z) = true.
Proof.
  intros Hz. rewrite toString_uint by done.
  pose proof (unorm_shape (N.to_uint (Z.to_N z))) as H. rewrite <- to_uint_unorm in H.
  destruct (N.to_uint (Z.to_N z)) as [|d|d|d|d|d|d|d|d|d|d]; try apply (string_of_uint_digits d).
  - by destruct H as [|[? _]].
  - destruct H as [[= ->]|[_ H]]; [done|by destruct (H d)].
Qed.

Lemma BigInt_toString z : 0 <= z -> BigInt (toString z) = z.
Proof.
  intros Hz. unfold BigInt. rewrite toString_uint by done.
  rewrite NilEmpty.usu, DecimalN.Unsigned.of_to. lia.
Qed.

Lemma digit_uint c d : is_digit c = true -> exists d', uint_of_char c (Some d) = Some d' /\
  ((code c =? 48) = false -> forall d'', d' <> Decimal.D0 d'') /\ d' <> Decimal.Nil.
Proof.
  destruct c as [[] [] [] [] [] [] [] []]; intros H; try discriminate H; eexists; (split; [reflexivity|]);
    split; try discriminate; intros E d''; first [discriminate E|congruence].
Qed.

Lemma digits_uint s : all_chars is_digit s = true -> exists d, NilEmpty.uint_of_string s = Some d.
Proof.
  induction s as [|c s IH]; cbn [all_chars NilEmpty.uint_of_string]; [by eexists|].
  intros [Hc Hs]%andb_true_iff. destruct (IH Hs) as (d & ->). by destruct (digit_uint c d Hc) as (d' & -> & _); eexists.
Qed.

Lemma MINOR_PATTERN_uint s : MINOR_PATTERN s = true ->
  exists d, NilEmpty.uint_of_string s = Some d /\ Decimal.unorm d = d.
Proof.
  destruct s as [|c s]; [done|]. cbn [MINOR_PATTERN]. destruct (code c =? 48) eqn:Hz.
  - destruct s; [|done]. intros _. exists (Decimal.D0 Decimal.Nil). split; [|done].
    destruct c as [[] [] [] [] [] [] [] []]; try discriminate Hz. done.
  - intros [Hc [d Hd]%digits_uint]%andb_true_iff. cbn [NilEmpty.uint_of_string]. rewrite Hd.
    destruct (digit_uint c d Hc) as (d' & -> & Hd' & Hn). exists d'. split; [done|].
    destruct d'; try done. by destruct (Hd' Hz d').
Qed.

Lemma string_of_uint_length d : String.length (NilEmpty.string_of_uint d) = Decimal.nb_digits d.
Proof. induction d; cbn [NilEmpty.string_of_uint String.length Decimal.nb_digits]; congruence. Qed.

Lemma of_uint_acc_bound d acc :
  Z.pos acc * 10 ^ Z.of_nat (Decimal.nb_digits d) <= Z.pos (Pos.of_uint_acc d acc) <
  (Z.pos acc + 1) * 10 ^ Z.of_nat (Decimal.nb_digits d).
Proof.
  revert acc. induction d; intros acc; cbn [Pos.of_uint_acc Decimal.nb_digits]; [lia|..];
    rewrite Nat2Z.inj_succ, Z.pow_succ_r by lia;
    match goal with |- context [Pos.of_uint_acc d ?a] => specialize (IHd a); revert IHd end;
    set (p := 10 ^ _); intros; assert (0 < p) by (apply Z.pow_pos_nonneg; lia); nia.
Qed.

Lemma toString_width z : 0 < z ->
  10 ^ (Z.of_nat (String.length (toString z)) - 1) <= z < 10 ^ Z.of_nat (String.length (toString z)).
Proof.
  intros Hz. rewrite toString_uint, string_of_uint_length by lia.
  pose proof (DecimalN.Unsigned.of_to (Z.to_N z)) as Hof. pose proof (to_uint_unorm (Z.to_N z)) as Hn.
  pose proof (unorm_shape (N.to_uint (Z.to_N z))) as Hs. rewrite <- Hn in Hs.
  assert (Hz' : z = Z.of_N (N.of_uint (N.to_uint (Z.to_N z)))) by lia. revert Hs Hz'. clear Hof Hn.
  destruct (N.to_uint (Z.to_N z)) as [|d|d|d|d|d|d|d|d|d|d]; intros [Hs|[Hn Hs]] Hz'; try discriminate; try done;
    try (injection Hs as ->; cbn in Hz'; lia); try (by destruct (Hs d));
    unfold N.of_uint, Pos.of_uint in Hz'; cbn [Decimal.nb_digits];
    match type of Hz' with context [Pos.of_uint_acc d ?a] => pose proof (of_uint_acc_bound d a) as Hb end;
    rewrite Nat2Z.inj_succ; replace (Z.succ (Z.of_nat (Decimal.nb_digits d)) - 1) with (Z.of_nat (Decimal.nb_digits d)) by lia;
    rewrite Z.pow_succ_r by lia; change (Z.of_N (N.pos ?p)) with (Z.pos p) in Hz'; rewrite <- Hz' in Hb; nia.
Qed.

(** An amount fits when it has at most 78 digits. *)
Lemma fits_iff z : 0 <= z -> (String.length (toString z) <= MAX_MINOR_UNIT_DIGITS)%nat <-> z < 10 ^ 78.
Proof.
  intros Hz. destruct (decide (z = 0)) as [->|Hne]; [split; [done|vm_compute; lia]|].
  pose proof (toString_width z ltac:(lia)) as [Hlo Hhi]. unfold MAX_MINOR_UNIT_DIGITS. split.
  - intros Hl. eapply Z.lt_le_trans; [exact Hhi|]. apply Z.pow_le_mono_r; lia.
  - intros Hl. assert (Z.of_nat (String.length (toString z)) - 1 < 78); [|lia]. apply (Z.pow_lt_mono_r_iff 10); lia.
Qed.

Lemma toMinorUnitBigInt_toString z name :
  0 <= z -> (String.length (toString z) <= MAX_MINOR_UNIT_DIGITS)%nat ->
  toMinorUnitBigInt (MString (toString z)) name = Ok z.
Proof.
  intros Hz Hl. unfold toMinorUnitBigInt. rewrite toString_pattern by done.
  rewrite (proj2 (Nat.ltb_ge _ _) Hl). cbn. by rewrite BigInt_toString.
Qed.

Lemma toMinorUnitBigInt_string s z name :
  toMinorUnitBigInt (MString s) name = Ok z -> toString z = s /\ 0 <= z.
Proof.
  unfold toMinorUnitBigInt. intros H. result_inv.
  match goal with E : _ || _ = false |- _ => apply orb_false_iff in E as [_ E%negb_false_iff]; rename E into Hp end.
  apply MINOR_PATTERN_uint in Hp as (d & Hd & Hn).
  assert (Hb : BigInt s = Z.of_N (N.of_uint d)) by (unfold BigInt; by rewrite Hd).
  split; [|lia]. rewrite Hb, toString_uint by lia. rewrite N2Z.id, DecimalN.Unsigned.to_of, Hn.
  by apply NilEmpty.sus.
Qed.

Lemma toMinorUnitBigInt_width m name z :
  toMinorUnitBigInt m name = Ok z -> (String.length (toString (Z.abs z)) <= MAX_MINOR_UNIT_DIGITS)%nat.
Proof.
  destruct m as [s|b|v]; [|cbn; intros H; result_inv; by apply Nat.ltb_ge|done].
  intros H. pose proof (toMinorUnitBigInt_string _ _ _ H) as [Hs Hz]. rewrite (Z.abs_eq z Hz), Hs.
  cbn in H. result_inv.
  match goal with E : _ || _ = false |- _ => apply orb_false_iff in E as [E _]; by apply Nat.ltb_ge end.
Qed.

(** C39: minor-unit amounts survive the string form the services keep them in.
    Every amount from zero up to, but not including, 10^78 prints to a string the
    validator parses back to it, and every string the validator accepts is the
    printed form of the amount it returns, which lies in that range, so no two
    strings denote one amount and no larger amount is let in. *)
Theorem minor_units_round_trip :
  (forall z name, 0 <= z < 10 ^ 78 -> toMinorUnitBigInt (MString (toString z)) name = Ok z) /\
  (forall s z name, toMinorUnitBigInt (MString s) name = Ok z -> toString z = s /\ 0 <= z < 10 ^ 78).
Proof.
  split.
  - intros z name [Hz Hb]. apply toMinorUnitBigInt_toString, fits_iff; done.
  - intros s z name Hs. pose proof (toMinorUnitBigInt_string _ _ _ Hs) as [Hp Hz]. split_and!; [done..|].
    apply fits_iff; [done|]. apply toMinorUnitBigInt_width in Hs. by rewrite Z.abs_eq in Hs.
Qed.

(** The amounts the validators return. *)
Lemma assertPositiveMinorUnits_pos m name z : assertPositiveMinorUnits m name = Ok z -> 0 < z.
Proof. unfold assertPositiveMinorUnits. intros H. result_inv. lia. Qed.

Lemma assertNonNegativeMinorUnits_nonneg m name z : assertNonNegativeMinorUnits m name = Ok z -> 0 <= z.
Proof. unfold assertNonNegativeMinorUnits. intros H. result_inv. lia. Qed.

(** A validated amount passed on as a string is validated again to itself. *)
Lemma assertPositiveMinorUnits_reparse m name name' z :
  assertPositiveMinorUnits m name = Ok z -> assertPositiveMinorUnits (MString (toString z)) name' = Ok z.
Proof.
  intros H. pose proof (assertPositiveMinorUnits_pos _ _ _ H) as Hz. unfold assertPositiveMinorUnits in *. result_inv.
  match goal with E : toMinorUnitBigInt _ _ = Ok _ |- _ => apply toMinorUnitBigInt_width in E; rename E into Hw end.
  rewrite Z.abs_eq in Hw by lia. rewrite toMinorUnitBigInt_toString by (done || lia). cbn.
  by rewrite (proj2 (guard_Ok _ _ _ ())) by lia.
Qed.
