(* ===== verification/Enums.v ===== *)
(** * Enumerations and state machines

    src/packages/domain/src/enums.js and state-machines.js: the enumerations the
    modelled services use, with the strings they stand for, and the transition
    tables. *)

From stdpp Require Import base tactics sets relations numbers strings list.
From S2P Require Import Prelude Js.
Local Open Scope string_scope.

(** ** Enumerations *)

(** An enumeration object of the source: its members and their strings. *)
Class Enum (A : Type) := { value : A -> string; enum_values : list A }.
Class EnumLaws (A : Type) `{Enum A} := {
  value_inj :: Inj (=) (=) (@value A _);
  enum_values_all : forall x : A, x ∈ enum_values }.

(** [Object.values(enumObject)] *)
Definition enumValues (A : Type) `{Enum A} : list string := map value (enum_values (A := A)).

#[export] Instance enum_eq_dec `{EnumLaws A} : EqDecision A.
Proof.
  intros x y. destruct (decide (value x = value y)) as [E|E].
  - left. by apply (inj value).
  - right. intros ->. by apply E.
Defined.

Ltac enum_laws :=
  split; [intros [] []; (reflexivity || discriminate)|
          intros []; repeat (first [left|right])].

Inductive SubjectStatus :=
  | SubjectStatus_PENDING | SubjectStatus_ACTIVE
  | SubjectStatus_SUSPENDED | SubjectStatus_CLOSED.
#[export] Instance Enum_SubjectStatus : Enum SubjectStatus := {|
  value x := match x with
    | SubjectStatus_PENDING => "pending"
    | SubjectStatus_ACTIVE => "active"
    | SubjectStatus_SUSPENDED => "suspended"
    | SubjectStatus_CLOSED => "closed"
    end;
  enum_values := [SubjectStatus_PENDING; SubjectStatus_ACTIVE; SubjectStatus_SUSPENDED;
    SubjectStatus_CLOSED] |}.
#[export] Instance EnumLaws_SubjectStatus : EnumLaws SubjectStatus.
Proof. enum_laws. Qed.

Inductive PrincipalStatus :=
  | PrincipalStatus_ACTIVE | PrincipalStatus_UNDER_REVIEW
  | PrincipalStatus_RESTRICTED | PrincipalStatus_CLOSED.
#[export] Instance Enum_PrincipalStatus : Enum PrincipalStatus := {|
  value x := match x with
    | PrincipalStatus_ACTIVE => "active"
    | PrincipalStatus_UNDER_REVIEW => "under_review"
    | PrincipalStatus_RESTRICTED => "restricted"
    | PrincipalStatus_CLOSED => "closed"
    end;
  enum_values := [PrincipalStatus_ACTIVE; PrincipalStatus_UNDER_REVIEW; PrincipalStatus_RESTRICTED;
    PrincipalStatus_CLOSED] |}.
#[export] Instance EnumLaws_PrincipalStatus : EnumLaws PrincipalStatus.
Proof. enum_laws. Qed.

Inductive MandateStatus :=
  | MandateStatus_DRAFT | MandateStatus_ACTIVE | MandateStatus_SUSPENDED
  | MandateStatus_REVOKED | MandateStatus_EXPIRED.
#[export] Instance Enum_MandateStatus : Enum MandateStatus := {|
  value x := match x with
    | MandateStatus_DRAFT => "draft"
    | MandateStatus_ACTIVE => "active"
    | MandateStatus_SUSPENDED => "suspended"
    | MandateStatus_REVOKED => "revoked"
    | MandateStatus_EXPIRED => "expired"
    end;
  enum_values := [MandateStatus_DRAFT; MandateStatus_ACTIVE; MandateStatus_SUSPENDED;
    MandateStatus_REVOKED; MandateStatus_EXPIRED] |}.
#[export] Instance EnumLaws_MandateStatus : EnumLaws MandateStatus.
Proof. enum_laws. Qed.

Inductive MandateCapability :=
  | MandateCapability_REQUEST_CREDIT
  | MandateCapability_ACCEPT_CREDIT_OFFER | MandateCapability_EXECUTE_SANDBOX_CREDIT
  | MandateCapability_PROVIDER_SPEND | MandateCapability_CAPTURE_REVENUE
  | MandateCapability_ROUTE_REPAYMENT.
#[export] Instance Enum_MandateCapability : Enum MandateCapability := {|
  value x := match x with
    | MandateCapability_REQUEST_CREDIT => "request_credit"
    | MandateCapability_ACCEPT_CREDIT_OFFER => "accept_credit_offer"
    | MandateCapability_EXECUTE_SANDBOX_CREDIT => "execute_sandbox_credit"
    | MandateCapability_PROVIDER_SPEND => "provider_spend"
    | MandateCapability_CAPTURE_REVENUE => "capture_revenue"
    | MandateCapability_ROUTE_REPAYMENT => "route_repayment"
    end;
  enum_values := [MandateCapability_REQUEST_CREDIT; MandateCapability_ACCEPT_CREDIT_OFFER;
    MandateCapability_EXECUTE_SANDBOX_CREDIT; MandateCapability_PROVIDER_SPEND;
    MandateCapability_CAPTURE_REVENUE; MandateCapability_ROUTE_REPAYMENT] |}.
#[export] Instance EnumLaws_MandateCapability : EnumLaws MandateCapability.
Proof. enum_laws. Qed.

Inductive LockboxStatus :=
  | LockboxStatus_CREATED | LockboxStatus_ACTIVE | LockboxStatus_FROZEN
  | LockboxStatus_CLOSED.
#[export] Instance Enum_LockboxStatus : Enum LockboxStatus := {|
  value x := match x with
    | LockboxStatus_CREATED => "created"
    | LockboxStatus_ACTIVE => "active"
    | LockboxStatus_FROZEN => "frozen"
    | LockboxStatus_CLOSED => "closed"
    end;
  enum_values := [LockboxStatus_CREATED; LockboxStatus_ACTIVE; LockboxStatus_FROZEN;
    LockboxStatus_CLOSED] |}.
#[export] Instance EnumLaws_LockboxStatus : EnumLaws LockboxStatus.
Proof. enum_laws. Qed.

Inductive LedgerAccountStatus :=
  | LedgerAccountStatus_ACTIVE | LedgerAccountStatus_FROZEN
  | LedgerAccountStatus_CLOSED.
#[export] Instance Enum_LedgerAccountStatus : Enum LedgerAccountStatus := {|
  value x := match x with
    | LedgerAccountStatus_ACTIVE => "active"
    | LedgerAccountStatus_FROZEN => "frozen"
    | LedgerAccountStatus_CLOSED => "closed"
    end;
  enum_values := [LedgerAccountStatus_ACTIVE; LedgerAccountStatus_FROZEN;
    LedgerAccountStatus_CLOSED] |}.
#[export] Instance EnumLaws_LedgerAccountStatus : EnumLaws LedgerAccountStatus.
Proof. enum_laws. Qed.

Inductive LedgerEntryDirection :=
  | LedgerEntryDirection_DEBIT | LedgerEntryDirection_CREDIT.
#[export] Instance Enum_LedgerEntryDirection : Enum LedgerEntryDirection := {|
  value x := match x with
    | LedgerEntryDirection_DEBIT => "debit"
    | LedgerEntryDirection_CREDIT => "credit"
    end;
  enum_values := [LedgerEntryDirection_DEBIT; LedgerEntryDirection_CREDIT] |}.
#[export] Instance EnumLaws_LedgerEntryDirection : EnumLaws LedgerEntryDirection.
Proof. enum_laws. Qed.

Inductive LedgerNormalSide :=
  | LedgerNormalSide_DEBIT | LedgerNormalSide_CREDIT.
#[export] Instance Enum_LedgerNormalSide : Enum LedgerNormalSide := {|
  value x := match x with
    | LedgerNormalSide_DEBIT => "debit"
    | LedgerNormalSide_CREDIT => "credit"
    end;
  enum_values := [LedgerNormalSide_DEBIT; LedgerNormalSide_CREDIT] |}.
#[export] Instance EnumLaws_LedgerNormalSide : EnumLaws LedgerNormalSide.
Proof. enum_laws. Qed.

Inductive LedgerAccountType :=
  | LedgerAccountType_LOCKBOX_ASSET
  | LedgerAccountType_EXTERNAL_REVENUE | LedgerAccountType_REPAYMENT_CLEARING
  | LedgerAccountType_SANDBOX_FUNDING_SOURCE | LedgerAccountType_PRINCIPAL_RECEIVABLE
  | LedgerAccountType_INTEREST_RECEIVABLE | LedgerAccountType_FEE_RECEIVABLE
  | LedgerAccountType_SYNTHETIC_INTEREST_INCOME | LedgerAccountType_SYNTHETIC_FEE_INCOME
  | LedgerAccountType_WRITE_OFF_LOSS.
#[export] Instance Enum_LedgerAccountType : Enum LedgerAccountType := {|
  value x := match x with
    | LedgerAccountType_LOCKBOX_ASSET => "lockbox_asset"
    | LedgerAccountType_EXTERNAL_REVENUE => "external_revenue"
    | LedgerAccountType_REPAYMENT_CLEARING => "repayment_clearing"
    | LedgerAccountType_SANDBOX_FUNDING_SOURCE => "sandbox_funding_source"
    | LedgerAccountType_PRINCIPAL_RECEIVABLE => "principal_receivable"
    | LedgerAccountType_INTEREST_RECEIVABLE => "interest_receivable"
    | LedgerAccountType_FEE_RECEIVABLE => "fee_receivable"
    | LedgerAccountType_SYNTHETIC_INTEREST_INCOME => "synthetic_interest_income"
    | LedgerAccountType_SYNTHETIC_FEE_INCOME => "synthetic_fee_income"
    | LedgerAccountType_WRITE_OFF_LOSS => "write_off_loss"
    end;
  enum_values := [LedgerAccountType_LOCKBOX_ASSET; LedgerAccountType_EXTERNAL_REVENUE;
    LedgerAccountType_REPAYMENT_CLEARING; LedgerAccountType_SANDBOX_FUNDING_SOURCE;
    LedgerAccountType_PRINCIPAL_RECEIVABLE; LedgerAccountType_INTEREST_RECEIVABLE;
    LedgerAccountType_FEE_RECEIVABLE; LedgerAccountType_SYNTHETIC_INTEREST_INCOME;
    LedgerAccountType_SYNTHETIC_FEE_INCOME; LedgerAccountType_WRITE_OFF_LOSS] |}.
#[export] Instance EnumLaws_LedgerAccountType : EnumLaws LedgerAccountType.
Proof. enum_laws. Qed.

Inductive CreditLineStatus :=
  | CreditLineStatus_REQUESTED | CreditLineStatus_APPROVED
  | CreditLineStatus_REJECTED | CreditLineStatus_FROZEN | CreditLineStatus_CLOSED.
#[export] Instance Enum_CreditLineStatus : Enum CreditLineStatus := {|
  value x := match x with
    | CreditLineStatus_REQUESTED => "requested"
    | CreditLineStatus_APPROVED => "approved"
    | CreditLineStatus_REJECTED => "rejected"
    | CreditLineStatus_FROZEN => "frozen"
    | CreditLineStatus_CLOSED => "closed"
    end;
  enum_values := [CreditLineStatus_REQUESTED; CreditLineStatus_APPROVED; CreditLineStatus_REJECTED;
    CreditLineStatus_FROZEN; CreditLineStatus_CLOSED] |}.
#[export] Instance EnumLaws_CreditLineStatus : EnumLaws CreditLineStatus.
Proof. enum_laws. Qed.

Inductive ObligationStatus :=
  | ObligationStatus_CREATED | ObligationStatus_ACTIVE
  | ObligationStatus_PARTIALLY_REPAID | ObligationStatus_FULLY_REPAID | ObligationStatus_DELINQUENT
  | ObligationStatus_OVERDUE | ObligationStatus_DEFAULTED | ObligationStatus_RESTRUCTURED
  | ObligationStatus_REPURCHASED | ObligationStatus_WRITTEN_OFF | ObligationStatus_CLOSED.
#[export] Instance Enum_ObligationStatus : Enum ObligationStatus := {|
  value x := match x with
    | ObligationStatus_CREATED => "created"
    | ObligationStatus_ACTIVE => "active"
    | ObligationStatus_PARTIALLY_REPAID => "partially_repaid"
    | ObligationStatus_FULLY_REPAID => "fully_repaid"
    | ObligationStatus_DELINQUENT => "delinquent"
    | ObligationStatus_OVERDUE => "overdue"
    | ObligationStatus_DEFAULTED => "defaulted"
    | ObligationStatus_RESTRUCTURED => "restructured"
    | ObligationStatus_REPURCHASED => "repurchased"
    | ObligationStatus_WRITTEN_OFF => "written_off"
    | ObligationStatus_CLOSED => "closed"
    end;
  enum_values := [ObligationStatus_CREATED; ObligationStatus_ACTIVE;
    ObligationStatus_PARTIALLY_REPAID; ObligationStatus_FULLY_REPAID; ObligationStatus_DELINQUENT;
    ObligationStatus_OVERDUE; ObligationStatus_DEFAULTED; ObligationStatus_RESTRUCTURED;
    ObligationStatus_REPURCHASED; ObligationStatus_WRITTEN_OFF; ObligationStatus_CLOSED] |}.
#[export] Instance EnumLaws_ObligationStatus : EnumLaws ObligationStatus.
Proof. enum_laws. Qed.

Inductive SpendRequestStatus :=
  | SpendRequestStatus_REQUESTED | SpendRequestStatus_APPROVED
  | SpendRequestStatus_REJECTED | SpendRequestStatus_SETTLED | SpendRequestStatus_FAILED.
#[export] Instance Enum_SpendRequestStatus : Enum SpendRequestStatus := {|
  value x := match x with
    | SpendRequestStatus_REQUESTED => "requested"
    | SpendRequestStatus_APPROVED => "approved"
    | SpendRequestStatus_REJECTED => "rejected"
    | SpendRequestStatus_SETTLED => "settled"
    | SpendRequestStatus_FAILED => "failed"
    end;
  enum_values := [SpendRequestStatus_REQUESTED; SpendRequestStatus_APPROVED;
    SpendRequestStatus_REJECTED; SpendRequestStatus_SETTLED; SpendRequestStatus_FAILED] |}.
#[export] Instance EnumLaws_SpendRequestStatus : EnumLaws SpendRequestStatus.
Proof. enum_laws. Qed.

Inductive SpendPolicyStatus :=
  | SpendPolicyStatus_ACTIVE | SpendPolicyStatus_PAUSED
  | SpendPolicyStatus_EXPIRED.
#[export] Instance Enum_SpendPolicyStatus : Enum SpendPolicyStatus := {|
  value x := match x with
    | SpendPolicyStatus_ACTIVE => "active"
    | SpendPolicyStatus_PAUSED => "paused"
    | SpendPolicyStatus_EXPIRED => "expired"
    end;
  enum_values := [SpendPolicyStatus_ACTIVE; SpendPolicyStatus_PAUSED;
    SpendPolicyStatus_EXPIRED] |}.
#[export] Instance EnumLaws_SpendPolicyStatus : EnumLaws SpendPolicyStatus.
Proof. enum_laws. Qed.

Inductive ProviderStatus :=
  | ProviderStatus_PENDING | ProviderStatus_ALLOWLISTED
  | ProviderStatus_SUSPENDED | ProviderStatus_CLOSED.
#[export] Instance Enum_ProviderStatus : Enum ProviderStatus := {|
  value x := match x with
    | ProviderStatus_PENDING => "pending"
    | ProviderStatus_ALLOWLISTED => "allowlisted"
    | ProviderStatus_SUSPENDED => "suspended"
    | ProviderStatus_CLOSED => "closed"
    end;
  enum_values := [ProviderStatus_PENDING; ProviderStatus_ALLOWLISTED; ProviderStatus_SUSPENDED;
    ProviderStatus_CLOSED] |}.
#[export] Instance EnumLaws_ProviderStatus : EnumLaws ProviderStatus.
Proof. enum_laws. Qed.

Inductive PluginStatus :=
  | PluginStatus_PENDING | PluginStatus_ACTIVE | PluginStatus_SUSPENDED
  | PluginStatus_REVOKED.
#[export] Instance Enum_PluginStatus : Enum PluginStatus := {|
  value x := match x with
    | PluginStatus_PENDING => "pending"
    | PluginStatus_ACTIVE => "active"
    | PluginStatus_SUSPENDED => "suspended"
    | PluginStatus_REVOKED => "revoked"
    end;
  enum_values := [PluginStatus_PENDING; PluginStatus_ACTIVE; PluginStatus_SUSPENDED;
    PluginStatus_REVOKED] |}.
#[export] Instance EnumLaws_PluginStatus : EnumLaws PluginStatus.
Proof. enum_laws. Qed.

Inductive TransferIntentStatus :=
  | TransferIntentStatus_CREATED | TransferIntentStatus_QUOTED
  | TransferIntentStatus_AUTHORIZED | TransferIntentStatus_SUBMITTED | TransferIntentStatus_PENDING
  | TransferIntentStatus_SETTLED | TransferIntentStatus_FAILED | TransferIntentStatus_REVERSED
  | TransferIntentStatus_EXPIRED.
#[export] Instance Enum_TransferIntentStatus : Enum TransferIntentStatus := {|
  value x := match x with
    | TransferIntentStatus_CREATED => "created"
    | TransferIntentStatus_QUOTED => "quoted"
    | TransferIntentStatus_AUTHORIZED => "authorized"
    | TransferIntentStatus_SUBMITTED => "submitted"
    | TransferIntentStatus_PENDING => "pending"
    | TransferIntentStatus_SETTLED => "settled"
    | TransferIntentStatus_FAILED => "failed"
    | TransferIntentStatus_REVERSED => "reversed"
    | TransferIntentStatus_EXPIRED => "expired"
    end;
  enum_values := [TransferIntentStatus_CREATED; TransferIntentStatus_QUOTED;
    TransferIntentStatus_AUTHORIZED; TransferIntentStatus_SUBMITTED; TransferIntentStatus_PENDING;
    TransferIntentStatus_SETTLED; TransferIntentStatus_FAILED; TransferIntentStatus_REVERSED;
    TransferIntentStatus_EXPIRED] |}.
#[export] Instance EnumLaws_TransferIntentStatus : EnumLaws TransferIntentStatus.
Proof. enum_laws. Qed.

Inductive RiskAction :=
  | RiskAction_NONE | RiskAction_REDUCE_LIMIT | RiskAction_FREEZE_LOCKBOX
  | RiskAction_SUSPEND_SUBJECT | RiskAction_CLOSE_CREDIT_LINE.
#[export] Instance Enum_RiskAction : Enum RiskAction := {|
  value x := match x with
    | RiskAction_NONE => "none"
    | RiskAction_REDUCE_LIMIT => "reduce_limit"
    | RiskAction_FREEZE_LOCKBOX => "freeze_lockbox"
    | RiskAction_SUSPEND_SUBJECT => "suspend_subject"
    | RiskAction_CLOSE_CREDIT_LINE => "close_credit_line"
    end;
  enum_values := [RiskAction_NONE; RiskAction_REDUCE_LIMIT; RiskAction_FREEZE_LOCKBOX;
    RiskAction_SUSPEND_SUBJECT; RiskAction_CLOSE_CREDIT_LINE] |}.
#[export] Instance EnumLaws_RiskAction : EnumLaws RiskAction.
Proof. enum_laws. Qed.

Inductive RiskTier :=
  | RiskTier_PRIME | RiskTier_STRONG | RiskTier_STANDARD | RiskTier_WATCH
  | RiskTier_RESTRICTED.
#[export] Instance Enum_RiskTier : Enum RiskTier := {|
  value x := match x with
    | RiskTier_PRIME => "prime"
    | RiskTier_STRONG => "strong"
    | RiskTier_STANDARD => "standard"
    | RiskTier_WATCH => "watch"
    | RiskTier_RESTRICTED => "restricted"
    end;
  enum_values := [RiskTier_PRIME; RiskTier_STRONG; RiskTier_STANDARD; RiskTier_WATCH;
    RiskTier_RESTRICTED] |}.
#[export] Instance EnumLaws_RiskTier : EnumLaws RiskTier.
Proof. enum_laws. Qed.

Inductive FinalityStatus :=
  | FinalityStatus_PENDING | FinalityStatus_CONFIRMED
  | FinalityStatus_FINALIZED | FinalityStatus_REORGED | FinalityStatus_INVALIDATED.
#[export] Instance Enum_FinalityStatus : Enum FinalityStatus := {|
  value x := match x with
    | FinalityStatus_PENDING => "pending"
    | FinalityStatus_CONFIRMED => "confirmed"
    | FinalityStatus_FINALIZED => "finalized"
    | FinalityStatus_REORGED => "reorged"
    | FinalityStatus_INVALIDATED => "invalidated"
    end;
  enum_values := [FinalityStatus_PENDING; FinalityStatus_CONFIRMED; FinalityStatus_FINALIZED;
    FinalityStatus_REORGED; FinalityStatus_INVALIDATED] |}.
#[export] Instance EnumLaws_FinalityStatus : EnumLaws FinalityStatus.
Proof. enum_laws. Qed.

Inductive RiskDecisionStatus :=
  | RiskDecisionStatus_APPROVED | RiskDecisionStatus_REJECTED | RiskDecisionStatus_FROZEN.
#[export] Instance Enum_RiskDecisionStatus : Enum RiskDecisionStatus := {|
  value x := match x with
    | RiskDecisionStatus_APPROVED => "approved"
    | RiskDecisionStatus_REJECTED => "rejected"
    | RiskDecisionStatus_FROZEN => "frozen"
    end;
  enum_values := [RiskDecisionStatus_APPROVED; RiskDecisionStatus_REJECTED; RiskDecisionStatus_FROZEN] |}.
#[export] Instance EnumLaws_RiskDecisionStatus : EnumLaws RiskDecisionStatus.
Proof. enum_laws. Qed.

Inductive SandboxRepaymentSource :=
  | SandboxRepaymentSource_SYNTHETIC_WALLET | SandboxRepaymentSource_SYNTHETIC_BANK
  | SandboxRepaymentSource_SYNTHETIC_REVENUE.
#[export] Instance Enum_SandboxRepaymentSource : Enum SandboxRepaymentSource := {|
  value x := match x with
    | SandboxRepaymentSource_SYNTHETIC_WALLET => "synthetic_wallet"
    | SandboxRepaymentSource_SYNTHETIC_BANK => "synthetic_bank"
    | SandboxRepaymentSource_SYNTHETIC_REVENUE => "synthetic_revenue"
    end;
  enum_values := [SandboxRepaymentSource_SYNTHETIC_WALLET; SandboxRepaymentSource_SYNTHETIC_BANK;
    SandboxRepaymentSource_SYNTHETIC_REVENUE] |}.
#[export] Instance EnumLaws_SandboxRepaymentSource : EnumLaws SandboxRepaymentSource.
Proof. enum_laws. Qed.

Inductive CreditAuthorityType :=
  | CreditAuthorityType_CONSENT | CreditAuthorityType_MANDATE.
#[export] Instance Enum_CreditAuthorityType : Enum CreditAuthorityType := {|
  value x := match x with
    | CreditAuthorityType_CONSENT => "consent"
    | CreditAuthorityType_MANDATE => "mandate"
    end;
  enum_values := [CreditAuthorityType_CONSENT; CreditAuthorityType_MANDATE] |}.
#[export] Instance EnumLaws_CreditAuthorityType : EnumLaws CreditAuthorityType.
Proof. enum_laws. Qed.

Inductive ConsentPurpose :=
  | ConsentPurpose_CREDIT_APPLICATION | ConsentPurpose_CREDIT_DECISION
  | ConsentPurpose_CREDIT_OFFER_ACCEPTANCE | ConsentPurpose_IDENTITY_REFERENCE_USE
  | ConsentPurpose_OBLIGATION_SERVICING | ConsentPurpose_EVIDENCE_SHARING.
#[export] Instance Enum_ConsentPurpose : Enum ConsentPurpose := {|
  value x := match x with
    | ConsentPurpose_CREDIT_APPLICATION => "credit_application"
    | ConsentPurpose_CREDIT_DECISION => "credit_decision"
    | ConsentPurpose_CREDIT_OFFER_ACCEPTANCE => "credit_offer_acceptance"
    | ConsentPurpose_IDENTITY_REFERENCE_USE => "identity_reference_use"
    | ConsentPurpose_OBLIGATION_SERVICING => "obligation_servicing"
    | ConsentPurpose_EVIDENCE_SHARING => "evidence_sharing"
    end;
  enum_values := [ConsentPurpose_CREDIT_APPLICATION; ConsentPurpose_CREDIT_DECISION;
    ConsentPurpose_CREDIT_OFFER_ACCEPTANCE; ConsentPurpose_IDENTITY_REFERENCE_USE;
    ConsentPurpose_OBLIGATION_SERVICING; ConsentPurpose_EVIDENCE_SHARING] |}.
#[export] Instance EnumLaws_ConsentPurpose : EnumLaws ConsentPurpose.
Proof. enum_laws. Qed.

Inductive ConsentStatus :=
  | ConsentStatus_ACTIVE | ConsentStatus_REVOKED | ConsentStatus_EXPIRED.
#[export] Instance Enum_ConsentStatus : Enum ConsentStatus := {|
  value x := match x with
    | ConsentStatus_ACTIVE => "active"
    | ConsentStatus_REVOKED => "revoked"
    | ConsentStatus_EXPIRED => "expired"
    end;
  enum_values := [ConsentStatus_ACTIVE; ConsentStatus_REVOKED; ConsentStatus_EXPIRED] |}.
#[export] Instance EnumLaws_ConsentStatus : EnumLaws ConsentStatus.
Proof. enum_laws. Qed.

Inductive CreditIntentStatus :=
  | CreditIntentStatus_SUBMITTED | CreditIntentStatus_DECIDED | CreditIntentStatus_WITHDRAWN
  | CreditIntentStatus_EXPIRED.
#[export] Instance Enum_CreditIntentStatus : Enum CreditIntentStatus := {|
  value x := match x with
    | CreditIntentStatus_SUBMITTED => "submitted"
    | CreditIntentStatus_DECIDED => "decided"
    | CreditIntentStatus_WITHDRAWN => "withdrawn"
    | CreditIntentStatus_EXPIRED => "expired"
    end;
  enum_values := [CreditIntentStatus_SUBMITTED; CreditIntentStatus_DECIDED;
    CreditIntentStatus_WITHDRAWN; CreditIntentStatus_EXPIRED] |}.
#[export] Instance EnumLaws_CreditIntentStatus : EnumLaws CreditIntentStatus.
Proof. enum_laws. Qed.

Inductive CreditOfferStatus :=
  | CreditOfferStatus_OFFERED | CreditOfferStatus_ACCEPTED | CreditOfferStatus_DECLINED
  | CreditOfferStatus_EXPIRED | CreditOfferStatus_WITHDRAWN | CreditOfferStatus_SUPERSEDED.
#[export] Instance Enum_CreditOfferStatus : Enum CreditOfferStatus := {|
  value x := match x with
    | CreditOfferStatus_OFFERED => "offered"
    | CreditOfferStatus_ACCEPTED => "accepted"
    | CreditOfferStatus_DECLINED => "declined"
    | CreditOfferStatus_EXPIRED => "expired"
    | CreditOfferStatus_WITHDRAWN => "withdrawn"
    | CreditOfferStatus_SUPERSEDED => "superseded"
    end;
  enum_values := [CreditOfferStatus_OFFERED; CreditOfferStatus_ACCEPTED;
    CreditOfferStatus_DECLINED; CreditOfferStatus_EXPIRED; CreditOfferStatus_WITHDRAWN;
    CreditOfferStatus_SUPERSEDED] |}.
#[export] Instance EnumLaws_CreditOfferStatus : EnumLaws CreditOfferStatus.
Proof. enum_laws. Qed.

Inductive RepaymentFrequency :=
  | RepaymentFrequency_WEEKLY | RepaymentFrequency_BIWEEKLY | RepaymentFrequency_MONTHLY
  | RepaymentFrequency_END_OF_TERM.
#[export] Instance Enum_RepaymentFrequency : Enum RepaymentFrequency := {|
  value x := match x with
    | RepaymentFrequency_WEEKLY => "weekly"
    | RepaymentFrequency_BIWEEKLY => "biweekly"
    | RepaymentFrequency_MONTHLY => "monthly"
    | RepaymentFrequency_END_OF_TERM => "end_of_term"
    end;
  enum_values := [RepaymentFrequency_WEEKLY; RepaymentFrequency_BIWEEKLY;
    RepaymentFrequency_MONTHLY; RepaymentFrequency_END_OF_TERM] |}.
#[export] Instance EnumLaws_RepaymentFrequency : EnumLaws RepaymentFrequency.
Proof. enum_laws. Qed.

Inductive ObligationExecutionStatus :=
  | ObligationExecutionStatus_PENDING | ObligationExecutionStatus_EXECUTED
  | ObligationExecutionStatus_FAILED.
#[export] Instance Enum_ObligationExecutionStatus : Enum ObligationExecutionStatus := {|
  value x := match x with
    | ObligationExecutionStatus_PENDING => "pending"
    | ObligationExecutionStatus_EXECUTED => "executed"
    | ObligationExecutionStatus_FAILED => "failed"
    end;
  enum_values := [ObligationExecutionStatus_PENDING; ObligationExecutionStatus_EXECUTED;
    ObligationExecutionStatus_FAILED] |}.
#[export] Instance EnumLaws_ObligationExecutionStatus : EnumLaws ObligationExecutionStatus.
Proof. enum_laws. Qed.

Inductive ServicingClassification :=
  | ServicingClassification_CURRENT | ServicingClassification_GRACE_PERIOD
  | ServicingClassification_DPD_1_30 | ServicingClassification_DPD_31_60
  | ServicingClassification_DPD_61_89 | ServicingClassification_DEFAULTED
  | ServicingClassification_CURED | ServicingClassification_RESTRUCTURED
  | ServicingClassification_REPURCHASED | ServicingClassification_WRITTEN_OFF.
#[export] Instance Enum_ServicingClassification : Enum ServicingClassification := {|
  value x := match x with
    | ServicingClassification_CURRENT => "current"
    | ServicingClassification_GRACE_PERIOD => "grace_period"
    | ServicingClassification_DPD_1_30 => "dpd_1_30"
    | ServicingClassification_DPD_31_60 => "dpd_31_60"
    | ServicingClassification_DPD_61_89 => "dpd_61_89"
    | ServicingClassification_DEFAULTED => "defaulted"
    | ServicingClassification_CURED => "cured"
    | ServicingClassification_RESTRUCTURED => "restructured"
    | ServicingClassification_REPURCHASED => "repurchased"
    | ServicingClassification_WRITTEN_OFF => "written_off"
    end;
  enum_values := [ServicingClassification_CURRENT; ServicingClassification_GRACE_PERIOD;
    ServicingClassification_DPD_1_30; ServicingClassification_DPD_31_60;
    ServicingClassification_DPD_61_89; ServicingClassification_DEFAULTED;
    ServicingClassification_CURED; ServicingClassification_RESTRUCTURED;
    ServicingClassification_REPURCHASED; ServicingClassification_WRITTEN_OFF] |}.
#[export] Instance EnumLaws_ServicingClassification : EnumLaws ServicingClassification.
Proof. enum_laws. Qed.

Inductive SandboxServicingOwner :=
  | SandboxServicingOwner_PLATFORM | SandboxServicingOwner_ORIGINATOR.
#[export] Instance Enum_SandboxServicingOwner : Enum SandboxServicingOwner := {|
  value x := match x with
    | SandboxServicingOwner_PLATFORM => "sandbox_platform"
    | SandboxServicingOwner_ORIGINATOR => "sandbox_originator"
    end;
  enum_values := [SandboxServicingOwner_PLATFORM; SandboxServicingOwner_ORIGINATOR] |}.
#[export] Instance EnumLaws_SandboxServicingOwner : EnumLaws SandboxServicingOwner.
Proof. enum_laws. Qed.

Inductive SandboxServicingResolution :=
  | SandboxServicingResolution_RESTRUCTURE | SandboxServicingResolution_REPURCHASE
  | SandboxServicingResolution_WRITE_OFF.
#[export] Instance Enum_SandboxServicingResolution : Enum SandboxServicingResolution := {|
  value x := match x with
    | SandboxServicingResolution_RESTRUCTURE => "restructure"
    | SandboxServicingResolution_REPURCHASE => "repurchase"
    | SandboxServicingResolution_WRITE_OFF => "write_off"
    end;
  enum_values := [SandboxServicingResolution_RESTRUCTURE; SandboxServicingResolution_REPURCHASE;
    SandboxServicingResolution_WRITE_OFF] |}.
#[export] Instance EnumLaws_SandboxServicingResolution : EnumLaws SandboxServicingResolution.
Proof. enum_laws. Qed.

Inductive CreditEventType :=
  | CreditEventType_SUBJECT_CREATED
  | CreditEventType_SUBJECT_STATUS_CHANGED | CreditEventType_PRINCIPAL_CREATED
  | CreditEventType_ACCOUNT_BOUND | CreditEventType_AGENT_ACCOUNT_CHALLENGE_CREATED
  | CreditEventType_AGENT_ACCOUNT_CHALLENGE_EXPIRED | CreditEventType_AGENT_ACCOUNT_PROOF_VERIFIED
  | CreditEventType_EXECUTION_ACCOUNT_BINDING_CHALLENGE_CREATED
  | CreditEventType_EXECUTION_ACCOUNT_BINDING_CHALLENGE_EXPIRED
  | CreditEventType_EXECUTION_ACCOUNT_BINDING_VERIFIED
  | CreditEventType_EXECUTION_ACCOUNT_BINDING_REVOKED | CreditEventType_WALLET_BOUND
  | CreditEventType_MANDATE_CREATED | CreditEventType_MANDATE_STATUS_CHANGED
  | CreditEventType_CONSENT_RECORDED | CreditEventType_CONSENT_STATUS_CHANGED
  | CreditEventType_IDENTITY_REFERENCE_RECORDED | CreditEventType_IDENTITY_REFERENCE_STATUS_CHANGED
  | CreditEventType_MANDATE_UTILIZATION_RESERVED | CreditEventType_MANDATE_UTILIZATION_RELEASED
  | CreditEventType_LEDGER_ACCOUNT_OPENED | CreditEventType_LEDGER_TRANSACTION_POSTED
  | CreditEventType_PLUGIN_REGISTERED | CreditEventType_PLUGIN_STATUS_CHANGED
  | CreditEventType_LOCKBOX_CREATED | CreditEventType_LOCKBOX_STATUS_CHANGED
  | CreditEventType_LOCKBOX_BALANCE_DEBITED | CreditEventType_REVENUE_CAPTURED
  | CreditEventType_PROVIDER_ALLOWLISTED | CreditEventType_SPEND_POLICY_CREATED
  | CreditEventType_SPEND_REQUESTED | CreditEventType_SPEND_APPROVED
  | CreditEventType_SPEND_REJECTED | CreditEventType_SPEND_SETTLED
  | CreditEventType_METERED_USAGE_ADMITTED | CreditEventType_METERED_USAGE_CORRECTED
  | CreditEventType_CREDIT_LINE_DECIDED | CreditEventType_CREDIT_LINE_GRANTED
  | CreditEventType_CREDIT_LINE_UTILIZED | CreditEventType_CREDIT_LINE_RELEASED
  | CreditEventType_CREDIT_LINE_ADJUSTED | CreditEventType_CREDIT_LINE_STATUS_CHANGED
  | CreditEventType_CREDIT_INTENT_CREATED | CreditEventType_CREDIT_INTENT_STATUS_CHANGED
  | CreditEventType_CREDIT_OFFER_CREATED | CreditEventType_CREDIT_OFFER_ACCEPTED
  | CreditEventType_CREDIT_OFFER_ACCEPTANCE_RECORDED | CreditEventType_CREDIT_OFFER_STATUS_CHANGED
  | CreditEventType_RISK_DECISION_CREATED | CreditEventType_OBLIGATION_CREATED
  | CreditEventType_OBLIGATION_SANDBOX_EXECUTED | CreditEventType_INTEREST_ACCRUED
  | CreditEventType_OBLIGATION_STATUS_CHANGED | CreditEventType_OBLIGATION_UPDATED
  | CreditEventType_REPAYMENT_POSTED | CreditEventType_REPAYMENT_CAPTURED
  | CreditEventType_REPAYMENT_ROUTED | CreditEventType_DEFAULT_RECORDED
  | CreditEventType_SERVICING_ADVANCED | CreditEventType_OBLIGATION_CURED
  | CreditEventType_OBLIGATION_RESTRUCTURED | CreditEventType_OBLIGATION_REPURCHASED
  | CreditEventType_OBLIGATION_WRITTEN_OFF | CreditEventType_POOL_OBLIGATION_BOUND
  | CreditEventType_POOL_OBLIGATION_EFFECT_IMPORTED | CreditEventType_TRANSFER_INTENT_CREATED
  | CreditEventType_TRANSFER_QUOTED | CreditEventType_TRANSFER_AUTHORIZED
  | CreditEventType_TRANSFER_SUBMITTED | CreditEventType_TRANSFER_EXPIRED
  | CreditEventType_SETTLEMENT_RECEIPT_RECORDED | CreditEventType_CREDIT_PROFILE_CREATED
  | CreditEventType_CREDIT_SCORE_UPDATED | CreditEventType_REPUTATION_SIGNAL_RECORDED
  | CreditEventType_CREDIT_LIMIT_RECOMMENDED | CreditEventType_INTEREST_RATE_RECOMMENDED
  | CreditEventType_RISK_TIER_UPDATED | CreditEventType_CREDIT_LEARNING_CYCLE_COMPLETED
  | CreditEventType_PILOT_FEEDBACK_RECORDED | CreditEventType_PILOT_CASE_FILED
  | CreditEventType_PILOT_CASE_ASSIGNED | CreditEventType_PILOT_CASE_RESOLVED
  | CreditEventType_CREDIT_PASSPORT_ARTIFACT_ISSUED
  | CreditEventType_CREDIT_PASSPORT_ARTIFACT_SUPERSEDED
  | CreditEventType_CREDIT_PASSPORT_ARTIFACT_REVOKED
  | CreditEventType_OFFICIAL_REPORT_ARTIFACT_ISSUED
  | CreditEventType_OFFICIAL_REPORT_ARTIFACT_REVOKED
  | CreditEventType_TRADING_ACCOUNT_BINDING_CHALLENGE_CREATED
  | CreditEventType_TRADING_SYNTHETIC_HISTORY_IMPORTED
  | CreditEventType_TRADING_HYPERLIQUID_HISTORY_IMPORTED
  | CreditEventType_TRADING_EVIDENCE_SNAPSHOT_FINALIZED
  | CreditEventType_TRADING_CAPITAL_REQUEST_CREATED
  | CreditEventType_TRADING_PROVIDER_MANDATE_CREATED
  | CreditEventType_TRADING_MATCH_PROPOSAL_CREATED
  | CreditEventType_TRADING_MATCH_PROVIDER_ACCEPTED
  | CreditEventType_TRADING_MATCH_SUBJECT_ACCEPTED | CreditEventType_TRADING_FACILITY_CREATED
  | CreditEventType_TRADING_FACILITY_SUBJECT_COLLATERAL_RECORDED
  | CreditEventType_TRADING_FACILITY_PROVIDER_FUNDING_RECORDED
  | CreditEventType_TRADING_FACILITY_ACTIVATED
  | CreditEventType_AGENT_SECURED_FACILITY_AUTHORIZATION_CREATED
  | CreditEventType_AGENT_SECURED_FACILITY_AUTHORIZATION_REVOKED
  | CreditEventType_TRADING_ORDER_INTENT_SUBMITTED | CreditEventType_TRADING_ORDER_INTENT_CANCELED
  | CreditEventType_TRADING_FACILITY_RISK_EVALUATED
  | CreditEventType_TRADING_FACILITY_NEW_RISK_PAUSED | CreditEventType_TRADING_FACILITY_FLATTENED
  | CreditEventType_TRADING_FACILITY_CLOSE_REQUESTED | CreditEventType_TRADING_FACILITY_SETTLED
  | CreditEventType_TRADING_PERFORMANCE_PROOF_ISSUED
  | CreditEventType_TRADING_MATCH_BILATERALLY_ACCEPTED
  | CreditEventType_DELEGATED_WALLET_GRANT_PREPARED
  | CreditEventType_DELEGATED_WALLET_GRANT_ACTIVATED
  | CreditEventType_DELEGATED_WALLET_GRANT_REVOKED
  | CreditEventType_DELEGATED_WALLET_PENDING_EXPOSURE_RESERVED
  | CreditEventType_DELEGATED_WALLET_PENDING_EXPOSURE_RELEASED
  | CreditEventType_WALLET_EXECUTION_PREPARED | CreditEventType_WALLET_EXECUTION_PREFLIGHTED
  | CreditEventType_HYPERCORE_ACCOUNT_BINDING_RECORDED
  | CreditEventType_HYPERCORE_DELEGATE_PREPARED | CreditEventType_HYPERCORE_DELEGATE_TERMINATED
  | CreditEventType_ADMIN_ACTION_RECORDED.
#[export] Instance Enum_CreditEventType : Enum CreditEventType := {|
  value x := match x with
    | CreditEventType_SUBJECT_CREATED => "subject_created"
    | CreditEventType_SUBJECT_STATUS_CHANGED => "subject_status_changed"
    | CreditEventType_PRINCIPAL_CREATED => "principal_created"
    | CreditEventType_ACCOUNT_BOUND => "account_bound"
    | CreditEventType_AGENT_ACCOUNT_CHALLENGE_CREATED => "agent_account_challenge_created"
    | CreditEventType_AGENT_ACCOUNT_CHALLENGE_EXPIRED => "agent_account_challenge_expired"
    | CreditEventType_AGENT_ACCOUNT_PROOF_VERIFIED => "agent_account_proof_verified"
    | CreditEventType_EXECUTION_ACCOUNT_BINDING_CHALLENGE_CREATED => "execution_account_binding_challenge_created"
    | CreditEventType_EXECUTION_ACCOUNT_BINDING_CHALLENGE_EXPIRED => "execution_account_binding_challenge_expired"
    | CreditEventType_EXECUTION_ACCOUNT_BINDING_VERIFIED => "execution_account_binding_verified"
    | CreditEventType_EXECUTION_ACCOUNT_BINDING_REVOKED => "execution_account_binding_revoked"
    | CreditEventType_WALLET_BOUND => "wallet_bound"
    | CreditEventType_MANDATE_CREATED => "mandate_created"
    | CreditEventType_MANDATE_STATUS_CHANGED => "mandate_status_changed"
    | CreditEventType_CONSENT_RECORDED => "consent_recorded"
    | CreditEventType_CONSENT_STATUS_CHANGED => "consent_status_changed"
    | CreditEventType_IDENTITY_REFERENCE_RECORDED => "identity_reference_recorded"
    | CreditEventType_IDENTITY_REFERENCE_STATUS_CHANGED => "identity_reference_status_changed"
    | CreditEventType_MANDATE_UTILIZATION_RESERVED => "mandate_utilization_reserved"
    | CreditEventType_MANDATE_UTILIZATION_RELEASED => "mandate_utilization_released"
    | CreditEventType_LEDGER_ACCOUNT_OPENED => "ledger_account_opened"
    | CreditEventType_LEDGER_TRANSACTION_POSTED => "ledger_transaction_posted"
    | CreditEventType_PLUGIN_REGISTERED => "plugin_registered"
    | CreditEventType_PLUGIN_STATUS_CHANGED => "plugin_status_changed"
    | CreditEventType_LOCKBOX_CREATED => "lockbox_created"
    | CreditEventType_LOCKBOX_STATUS_CHANGED => "lockbox_status_changed"
    | CreditEventType_LOCKBOX_BALANCE_DEBITED => "lockbox_balance_debited"
    | CreditEventType_REVENUE_CAPTURED => "revenue_captured"
    | CreditEventType_PROVIDER_ALLOWLISTED => "provider_allowlisted"
    | CreditEventType_SPEND_POLICY_CREATED => "spend_policy_created"
    | CreditEventType_SPEND_REQUESTED => "spend_requested"
    | CreditEventType_SPEND_APPROVED => "spend_approved"
    | CreditEventType_SPEND_REJECTED => "spend_rejected"
    | CreditEventType_SPEND_SETTLED => "spend_settled"
    | CreditEventType_METERED_USAGE_ADMITTED => "metered_usage_admitted"
    | CreditEventType_METERED_USAGE_CORRECTED => "metered_usage_corrected"
    | CreditEventType_CREDIT_LINE_DECIDED => "credit_line_decided"
    | CreditEventType_CREDIT_LINE_GRANTED => "credit_line_granted"
    | CreditEventType_CREDIT_LINE_UTILIZED => "credit_line_utilized"
    | CreditEventType_CREDIT_LINE_RELEASED => "credit_line_released"
    | CreditEventType_CREDIT_LINE_ADJUSTED => "credit_line_adjusted"
    | CreditEventType_CREDIT_LINE_STATUS_CHANGED => "credit_line_status_changed"
    | CreditEventType_CREDIT_INTENT_CREATED => "credit_intent_created"
    | CreditEventType_CREDIT_INTENT_STATUS_CHANGED => "credit_intent_status_changed"
    | CreditEventType_CREDIT_OFFER_CREATED => "credit_offer_created"
    | CreditEventType_CREDIT_OFFER_ACCEPTED => "credit_offer_accepted"
    | CreditEventType_CREDIT_OFFER_ACCEPTANCE_RECORDED => "credit_offer_acceptance_recorded"
    | CreditEventType_CREDIT_OFFER_STATUS_CHANGED => "credit_offer_status_changed"
    | CreditEventType_RISK_DECISION_CREATED => "risk_decision_created"
    | CreditEventType_OBLIGATION_CREATED => "obligation_created"
    | CreditEventType_OBLIGATION_SANDBOX_EXECUTED => "obligation_sandbox_executed"
    | CreditEventType_INTEREST_ACCRUED => "interest_accrued"
    | CreditEventType_OBLIGATION_STATUS_CHANGED => "obligation_status_changed"
    | CreditEventType_OBLIGATION_UPDATED => "obligation_updated"
    | CreditEventType_REPAYMENT_POSTED => "repayment_posted"
    | CreditEventType_REPAYMENT_CAPTURED => "repayment_captured"
    | CreditEventType_REPAYMENT_ROUTED => "repayment_routed"
    | CreditEventType_DEFAULT_RECORDED => "default_recorded"
    | CreditEventType_SERVICING_ADVANCED => "servicing_advanced"
    | CreditEventType_OBLIGATION_CURED => "obligation_cured"
    | CreditEventType_OBLIGATION_RESTRUCTURED => "obligation_restructured"
    | CreditEventType_OBLIGATION_REPURCHASED => "obligation_repurchased"
    | CreditEventType_OBLIGATION_WRITTEN_OFF => "obligation_written_off"
    | CreditEventType_POOL_OBLIGATION_BOUND => "pool_obligation_bound"
    | CreditEventType_POOL_OBLIGATION_EFFECT_IMPORTED => "pool_obligation_effect_imported"
    | CreditEventType_TRANSFER_INTENT_CREATED => "transfer_intent_created"
    | CreditEventType_TRANSFER_QUOTED => "transfer_quoted"
    | CreditEventType_TRANSFER_AUTHORIZED => "transfer_authorized"
    | CreditEventType_TRANSFER_SUBMITTED => "transfer_submitted"
    | CreditEventType_TRANSFER_EXPIRED => "transfer_expired"
    | CreditEventType_SETTLEMENT_RECEIPT_RECORDED => "settlement_receipt_recorded"
    | CreditEventType_CREDIT_PROFILE_CREATED => "credit_profile_created"
    | CreditEventType_CREDIT_SCORE_UPDATED => "credit_score_updated"
    | CreditEventType_REPUTATION_SIGNAL_RECORDED => "reputation_signal_recorded"
    | CreditEventType_CREDIT_LIMIT_RECOMMENDED => "credit_limit_recommended"
    | CreditEventType_INTEREST_RATE_RECOMMENDED => "interest_rate_recommended"
    | CreditEventType_RISK_TIER_UPDATED => "risk_tier_updated"
    | CreditEventType_CREDIT_LEARNING_CYCLE_COMPLETED => "credit_learning_cycle_completed"
    | CreditEventType_PILOT_FEEDBACK_RECORDED => "pilot_feedback_recorded"
    | CreditEventType_PILOT_CASE_FILED => "pilot_case_filed"
    | CreditEventType_PILOT_CASE_ASSIGNED => "pilot_case_assigned"
    | CreditEventType_PILOT_CASE_RESOLVED => "pilot_case_resolved"
    | CreditEventType_CREDIT_PASSPORT_ARTIFACT_ISSUED => "credit_passport_artifact_issued"
    | CreditEventType_CREDIT_PASSPORT_ARTIFACT_SUPERSEDED => "credit_passport_artifact_superseded"
    | CreditEventType_CREDIT_PASSPORT_ARTIFACT_REVOKED => "credit_passport_artifact_revoked"
    | CreditEventType_OFFICIAL_REPORT_ARTIFACT_ISSUED => "official_report_artifact_issued"
    | CreditEventType_OFFICIAL_REPORT_ARTIFACT_REVOKED => "official_report_artifact_revoked"
    | CreditEventType_TRADING_ACCOUNT_BINDING_CHALLENGE_CREATED => "trading_account_binding_challenge_created"
    | CreditEventType_TRADING_SYNTHETIC_HISTORY_IMPORTED => "trading_synthetic_history_imported"
    | CreditEventType_TRADING_HYPERLIQUID_HISTORY_IMPORTED => "trading_hyperliquid_history_imported"
    | CreditEventType_TRADING_EVIDENCE_SNAPSHOT_FINALIZED => "trading_evidence_snapshot_finalized"
    | CreditEventType_TRADING_CAPITAL_REQUEST_CREATED => "trading_capital_request_created"
    | CreditEventType_TRADING_PROVIDER_MANDATE_CREATED => "trading_provider_mandate_created"
    | CreditEventType_TRADING_MATCH_PROPOSAL_CREATED => "trading_match_proposal_created"
    | CreditEventType_TRADING_MATCH_PROVIDER_ACCEPTED => "trading_match_provider_accepted"
    | CreditEventType_TRADING_MATCH_SUBJECT_ACCEPTED => "trading_match_subject_accepted"
    | CreditEventType_TRADING_FACILITY_CREATED => "trading_facility_created"
    | CreditEventType_TRADING_FACILITY_SUBJECT_COLLATERAL_RECORDED => "trading_facility_subject_collateral_recorded"
    | CreditEventType_TRADING_FACILITY_PROVIDER_FUNDING_RECORDED => "trading_facility_provider_funding_recorded"
    | CreditEventType_TRADING_FACILITY_ACTIVATED => "trading_facility_activated"
    | CreditEventType_AGENT_SECURED_FACILITY_AUTHORIZATION_CREATED => "agent_secured_facility_authorization_created"
    | CreditEventType_AGENT_SECURED_FACILITY_AUTHORIZATION_REVOKED => "agent_secured_facility_authorization_revoked"
    | CreditEventType_TRADING_ORDER_INTENT_SUBMITTED => "trading_order_intent_submitted"
    | CreditEventType_TRADING_ORDER_INTENT_CANCELED => "trading_order_intent_canceled"
    | CreditEventType_TRADING_FACILITY_RISK_EVALUATED => "trading_facility_risk_evaluated"
    | CreditEventType_TRADING_FACILITY_NEW_RISK_PAUSED => "trading_facility_new_risk_paused"
    | CreditEventType_TRADING_FACILITY_FLATTENED => "trading_facility_flattened"
    | CreditEventType_TRADING_FACILITY_CLOSE_REQUESTED => "trading_facility_close_requested"
    | CreditEventType_TRADING_FACILITY_SETTLED => "trading_facility_settled"
    | CreditEventType_TRADING_PERFORMANCE_PROOF_ISSUED => "trading_performance_proof_issued"
    | CreditEventType_TRADING_MATCH_BILATERALLY_ACCEPTED => "trading_match_bilaterally_accepted"
    | CreditEventType_DELEGATED_WALLET_GRANT_PREPARED => "delegated_wallet_grant_prepared"
    | CreditEventType_DELEGATED_WALLET_GRANT_ACTIVATED => "delegated_wallet_grant_activated"
    | CreditEventType_DELEGATED_WALLET_GRANT_REVOKED => "delegated_wallet_grant_revoked"
    | CreditEventType_DELEGATED_WALLET_PENDING_EXPOSURE_RESERVED => "delegated_wallet_pending_exposure_reserved"
    | CreditEventType_DELEGATED_WALLET_PENDING_EXPOSURE_RELEASED => "delegated_wallet_pending_exposure_released"
    | CreditEventType_WALLET_EXECUTION_PREPARED => "wallet_execution_prepared"
    | CreditEventType_WALLET_EXECUTION_PREFLIGHTED => "wallet_execution_preflighted"
    | CreditEventType_HYPERCORE_ACCOUNT_BINDING_RECORDED => "hypercore_account_binding_recorded"
    | CreditEventType_HYPERCORE_DELEGATE_PREPARED => "hypercore_delegate_prepared"
    | CreditEventType_HYPERCORE_DELEGATE_TERMINATED => "hypercore_delegate_terminated"
    | CreditEventType_ADMIN_ACTION_RECORDED => "admin_action_recorded"
    end;
  enum_values := [CreditEventType_SUBJECT_CREATED; CreditEventType_SUBJECT_STATUS_CHANGED;
    CreditEventType_PRINCIPAL_CREATED; CreditEventType_ACCOUNT_BOUND;
    CreditEventType_AGENT_ACCOUNT_CHALLENGE_CREATED;
    CreditEventType_AGENT_ACCOUNT_CHALLENGE_EXPIRED; CreditEventType_AGENT_ACCOUNT_PROOF_VERIFIED;
    CreditEventType_EXECUTION_ACCOUNT_BINDING_CHALLENGE_CREATED;
    CreditEventType_EXECUTION_ACCOUNT_BINDING_CHALLENGE_EXPIRED;
    CreditEventType_EXECUTION_ACCOUNT_BINDING_VERIFIED;
    CreditEventType_EXECUTION_ACCOUNT_BINDING_REVOKED; CreditEventType_WALLET_BOUND;
    CreditEventType_MANDATE_CREATED; CreditEventType_MANDATE_STATUS_CHANGED;
    CreditEventType_CONSENT_RECORDED; CreditEventType_CONSENT_STATUS_CHANGED;
    CreditEventType_IDENTITY_REFERENCE_RECORDED; CreditEventType_IDENTITY_REFERENCE_STATUS_CHANGED;
    CreditEventType_MANDATE_UTILIZATION_RESERVED; CreditEventType_MANDATE_UTILIZATION_RELEASED;
    CreditEventType_LEDGER_ACCOUNT_OPENED; CreditEventType_LEDGER_TRANSACTION_POSTED;
    CreditEventType_PLUGIN_REGISTERED; CreditEventType_PLUGIN_STATUS_CHANGED;
    CreditEventType_LOCKBOX_CREATED; CreditEventType_LOCKBOX_STATUS_CHANGED;
    CreditEventType_LOCKBOX_BALANCE_DEBITED; CreditEventType_REVENUE_CAPTURED;
    CreditEventType_PROVIDER_ALLOWLISTED; CreditEventType_SPEND_POLICY_CREATED;
    CreditEventType_SPEND_REQUESTED; CreditEventType_SPEND_APPROVED;
    CreditEventType_SPEND_REJECTED; CreditEventType_SPEND_SETTLED;
    CreditEventType_METERED_USAGE_ADMITTED; CreditEventType_METERED_USAGE_CORRECTED;
    CreditEventType_CREDIT_LINE_DECIDED; CreditEventType_CREDIT_LINE_GRANTED;
    CreditEventType_CREDIT_LINE_UTILIZED; CreditEventType_CREDIT_LINE_RELEASED;
    CreditEventType_CREDIT_LINE_ADJUSTED; CreditEventType_CREDIT_LINE_STATUS_CHANGED;
    CreditEventType_CREDIT_INTENT_CREATED; CreditEventType_CREDIT_INTENT_STATUS_CHANGED;
    CreditEventType_CREDIT_OFFER_CREATED; CreditEventType_CREDIT_OFFER_ACCEPTED;
    CreditEventType_CREDIT_OFFER_ACCEPTANCE_RECORDED; CreditEventType_CREDIT_OFFER_STATUS_CHANGED;
    CreditEventType_RISK_DECISION_CREATED; CreditEventType_OBLIGATION_CREATED;
    CreditEventType_OBLIGATION_SANDBOX_EXECUTED; CreditEventType_INTEREST_ACCRUED;
    CreditEventType_OBLIGATION_STATUS_CHANGED; CreditEventType_OBLIGATION_UPDATED;
    CreditEventType_REPAYMENT_POSTED; CreditEventType_REPAYMENT_CAPTURED;
    CreditEventType_REPAYMENT_ROUTED; CreditEventType_DEFAULT_RECORDED;
    CreditEventType_SERVICING_ADVANCED; CreditEventType_OBLIGATION_CURED;
    CreditEventType_OBLIGATION_RESTRUCTURED; CreditEventType_OBLIGATION_REPURCHASED;
    CreditEventType_OBLIGATION_WRITTEN_OFF; CreditEventType_POOL_OBLIGATION_BOUND;
    CreditEventType_POOL_OBLIGATION_EFFECT_IMPORTED; CreditEventType_TRANSFER_INTENT_CREATED;
    CreditEventType_TRANSFER_QUOTED; CreditEventType_TRANSFER_AUTHORIZED;
    CreditEventType_TRANSFER_SUBMITTED; CreditEventType_TRANSFER_EXPIRED;
    CreditEventType_SETTLEMENT_RECEIPT_RECORDED; CreditEventType_CREDIT_PROFILE_CREATED;
    CreditEventType_CREDIT_SCORE_UPDATED; CreditEventType_REPUTATION_SIGNAL_RECORDED;
    CreditEventType_CREDIT_LIMIT_RECOMMENDED; CreditEventType_INTEREST_RATE_RECOMMENDED;
    CreditEventType_RISK_TIER_UPDATED; CreditEventType_CREDIT_LEARNING_CYCLE_COMPLETED;
    CreditEventType_PILOT_FEEDBACK_RECORDED; CreditEventType_PILOT_CASE_FILED;
    CreditEventType_PILOT_CASE_ASSIGNED; CreditEventType_PILOT_CASE_RESOLVED;
    CreditEventType_CREDIT_PASSPORT_ARTIFACT_ISSUED;
    CreditEventType_CREDIT_PASSPORT_ARTIFACT_SUPERSEDED;
    CreditEventType_CREDIT_PASSPORT_ARTIFACT_REVOKED;
    CreditEventType_OFFICIAL_REPORT_ARTIFACT_ISSUED;
    CreditEventType_OFFICIAL_REPORT_ARTIFACT_REVOKED;
    CreditEventType_TRADING_ACCOUNT_BINDING_CHALLENGE_CREATED;
    CreditEventType_TRADING_SYNTHETIC_HISTORY_IMPORTED;
    CreditEventType_TRADING_HYPERLIQUID_HISTORY_IMPORTED;
    CreditEventType_TRADING_EVIDENCE_SNAPSHOT_FINALIZED;
    CreditEventType_TRADING_CAPITAL_REQUEST_CREATED;
    CreditEventType_TRADING_PROVIDER_MANDATE_CREATED;
    CreditEventType_TRADING_MATCH_PROPOSAL_CREATED;
    CreditEventType_TRADING_MATCH_PROVIDER_ACCEPTED;
    CreditEventType_TRADING_MATCH_SUBJECT_ACCEPTED; CreditEventType_TRADING_FACILITY_CREATED;
    CreditEventType_TRADING_FACILITY_SUBJECT_COLLATERAL_RECORDED;
    CreditEventType_TRADING_FACILITY_PROVIDER_FUNDING_RECORDED;
    CreditEventType_TRADING_FACILITY_ACTIVATED;
    CreditEventType_AGENT_SECURED_FACILITY_AUTHORIZATION_CREATED;
    CreditEventType_AGENT_SECURED_FACILITY_AUTHORIZATION_REVOKED;
    CreditEventType_TRADING_ORDER_INTENT_SUBMITTED; CreditEventType_TRADING_ORDER_INTENT_CANCELED;
    CreditEventType_TRADING_FACILITY_RISK_EVALUATED;
    CreditEventType_TRADING_FACILITY_NEW_RISK_PAUSED; CreditEventType_TRADING_FACILITY_FLATTENED;
    CreditEventType_TRADING_FACILITY_CLOSE_REQUESTED; CreditEventType_TRADING_FACILITY_SETTLED;
    CreditEventType_TRADING_PERFORMANCE_PROOF_ISSUED;
    CreditEventType_TRADING_MATCH_BILATERALLY_ACCEPTED;
    CreditEventType_DELEGATED_WALLET_GRANT_PREPARED;
    CreditEventType_DELEGATED_WALLET_GRANT_ACTIVATED;
    CreditEventType_DELEGATED_WALLET_GRANT_REVOKED;
    CreditEventType_DELEGATED_WALLET_PENDING_EXPOSURE_RESERVED;
    CreditEventType_DELEGATED_WALLET_PENDING_EXPOSURE_RELEASED;
    CreditEventType_WALLET_EXECUTION_PREPARED; CreditEventType_WALLET_EXECUTION_PREFLIGHTED;
    CreditEventType_HYPERCORE_ACCOUNT_BINDING_RECORDED;
    CreditEventType_HYPERCORE_DELEGATE_PREPARED; CreditEventType_HYPERCORE_DELEGATE_TERMINATED;
    CreditEventType_ADMIN_ACTION_RECORDED] |}.

(** ** State machines *)

(** [machine(definition)]: the statuses each status may change to. *)
Definition SubjectTransitions (from : SubjectStatus) : list SubjectStatus :=
  match from with
  | SubjectStatus_PENDING => [SubjectStatus_ACTIVE; SubjectStatus_SUSPENDED; SubjectStatus_CLOSED]
  | SubjectStatus_ACTIVE => [SubjectStatus_SUSPENDED; SubjectStatus_CLOSED]
  | SubjectStatus_SUSPENDED => [SubjectStatus_ACTIVE; SubjectStatus_CLOSED]
  | SubjectStatus_CLOSED => []
  end.

Definition LockboxTransitions (from : LockboxStatus) : list LockboxStatus :=
  match from with
  | LockboxStatus_CREATED => [LockboxStatus_ACTIVE; LockboxStatus_CLOSED]
  | LockboxStatus_ACTIVE => [LockboxStatus_FROZEN; LockboxStatus_CLOSED]
  | LockboxStatus_FROZEN => [LockboxStatus_ACTIVE; LockboxStatus_CLOSED]
  | LockboxStatus_CLOSED => []
  end.

Definition MandateTransitions (from : MandateStatus) : list MandateStatus :=
  match from with
  | MandateStatus_DRAFT => [MandateStatus_ACTIVE; MandateStatus_REVOKED; MandateStatus_EXPIRED]
  | MandateStatus_ACTIVE => [MandateStatus_SUSPENDED; MandateStatus_REVOKED; MandateStatus_EXPIRED]
  | MandateStatus_SUSPENDED => [MandateStatus_ACTIVE; MandateStatus_REVOKED; MandateStatus_EXPIRED]
  | MandateStatus_REVOKED => []
  | MandateStatus_EXPIRED => []
  end.

Definition PluginTransitions (from : PluginStatus) : list PluginStatus :=
  match from with
  | PluginStatus_PENDING => [PluginStatus_ACTIVE; PluginStatus_REVOKED]
  | PluginStatus_ACTIVE => [PluginStatus_SUSPENDED; PluginStatus_REVOKED]
  | PluginStatus_SUSPENDED => [PluginStatus_ACTIVE; PluginStatus_REVOKED]
  | PluginStatus_REVOKED => []
  end.

Definition ObligationTransitions (from : ObligationStatus) : list ObligationStatus :=
  match from with
  | ObligationStatus_CREATED => [ObligationStatus_ACTIVE; ObligationStatus_CLOSED]
  | ObligationStatus_ACTIVE => [ObligationStatus_PARTIALLY_REPAID; ObligationStatus_FULLY_REPAID;
      ObligationStatus_DELINQUENT; ObligationStatus_OVERDUE; ObligationStatus_DEFAULTED;
      ObligationStatus_RESTRUCTURED; ObligationStatus_REPURCHASED; ObligationStatus_WRITTEN_OFF;
      ObligationStatus_CLOSED]
  | ObligationStatus_PARTIALLY_REPAID => [ObligationStatus_FULLY_REPAID;
      ObligationStatus_DELINQUENT; ObligationStatus_OVERDUE; ObligationStatus_DEFAULTED;
      ObligationStatus_RESTRUCTURED; ObligationStatus_REPURCHASED; ObligationStatus_WRITTEN_OFF;
      ObligationStatus_CLOSED]
  | ObligationStatus_FULLY_REPAID => [ObligationStatus_CLOSED]
  | ObligationStatus_OVERDUE => [ObligationStatus_PARTIALLY_REPAID; ObligationStatus_FULLY_REPAID;
      ObligationStatus_DEFAULTED; ObligationStatus_CLOSED]
  | ObligationStatus_DELINQUENT => [ObligationStatus_ACTIVE; ObligationStatus_PARTIALLY_REPAID;
      ObligationStatus_FULLY_REPAID; ObligationStatus_DEFAULTED; ObligationStatus_RESTRUCTURED;
      ObligationStatus_REPURCHASED; ObligationStatus_WRITTEN_OFF; ObligationStatus_CLOSED]
  | ObligationStatus_DEFAULTED => [ObligationStatus_ACTIVE; ObligationStatus_PARTIALLY_REPAID;
      ObligationStatus_FULLY_REPAID; ObligationStatus_RESTRUCTURED; ObligationStatus_REPURCHASED;
      ObligationStatus_WRITTEN_OFF; ObligationStatus_CLOSED]
  | ObligationStatus_RESTRUCTURED => [ObligationStatus_PARTIALLY_REPAID;
      ObligationStatus_FULLY_REPAID; ObligationStatus_DELINQUENT; ObligationStatus_DEFAULTED;
      ObligationStatus_REPURCHASED; ObligationStatus_WRITTEN_OFF; ObligationStatus_CLOSED]
  | ObligationStatus_REPURCHASED => [ObligationStatus_PARTIALLY_REPAID;
      ObligationStatus_FULLY_REPAID; ObligationStatus_DELINQUENT; ObligationStatus_DEFAULTED;
      ObligationStatus_RESTRUCTURED; ObligationStatus_WRITTEN_OFF; ObligationStatus_CLOSED]
  | ObligationStatus_WRITTEN_OFF => [ObligationStatus_CLOSED]
  | ObligationStatus_CLOSED => []
  end.

Definition SpendRequestTransitions (from : SpendRequestStatus) : list SpendRequestStatus :=
  match from with
  | SpendRequestStatus_REQUESTED => [SpendRequestStatus_APPROVED; SpendRequestStatus_REJECTED;
      SpendRequestStatus_FAILED]
  | SpendRequestStatus_APPROVED => [SpendRequestStatus_SETTLED; SpendRequestStatus_FAILED]
  | SpendRequestStatus_REJECTED => []
  | SpendRequestStatus_SETTLED => []
  | SpendRequestStatus_FAILED => []
  end.

Definition TransferIntentTransitions (from : TransferIntentStatus) : list TransferIntentStatus :=
  match from with
  | TransferIntentStatus_CREATED => [TransferIntentStatus_QUOTED; TransferIntentStatus_EXPIRED]
  | TransferIntentStatus_QUOTED => [TransferIntentStatus_AUTHORIZED; TransferIntentStatus_FAILED;
      TransferIntentStatus_EXPIRED]
  | TransferIntentStatus_AUTHORIZED => [TransferIntentStatus_SUBMITTED;
      TransferIntentStatus_FAILED; TransferIntentStatus_EXPIRED]
  | TransferIntentStatus_SUBMITTED => [TransferIntentStatus_PENDING; TransferIntentStatus_SETTLED;
      TransferIntentStatus_FAILED]
  | TransferIntentStatus_PENDING => [TransferIntentStatus_PENDING; TransferIntentStatus_SETTLED;
      TransferIntentStatus_FAILED]
  | TransferIntentStatus_SETTLED => [TransferIntentStatus_REVERSED]
  | TransferIntentStatus_FAILED => []
  | TransferIntentStatus_REVERSED => []
  | TransferIntentStatus_EXPIRED => []
  end.

Definition assertTransition {A} `{EnumLaws A} (machineName : string) (transitions : A -> list A)
    (from to : A) : result unit :=
  guard (bool_decide (to ∉ transitions from)) "invalid_state_transition"
    (machineName +:+ " cannot transition from " +:+ value from +:+ " to " +:+ value to).

Lemma assertTransition_Ok {A} `{EnumLaws A} name (tr : A -> list A) from to u :
  assertTransition name tr from to = Ok u <-> to ∈ tr from.
Proof.
  unfold assertTransition. rewrite guard_Ok, bool_decide_eq_false. split; [apply dec_stable|tauto].
Qed.

(** One step of a machine, and the statuses it can still reach. *)
Definition steps {A} (tr : A -> list A) (from to : A) : Prop := to ∈ tr from.

(** A set of statuses no transition leaves. *)
Lemma closed_set {A} (tr : A -> list A) (P : A -> Prop) from to :
  (forall x y, P x -> y ∈ tr x -> P y) -> P from -> rtc (steps tr) from to -> P to.
Proof. intros HP Hf Hr. induction Hr as [|x y z Hxy _ IH]; [done|]. apply IH. by eapply HP. Qed.

(** The obligation lifecycle.  [CLOSED] is the one status without a
    successor and every status can reach it; a repaid or written-off obligation
    can only be closed, so it never becomes payable again; no obligation returns
    to [CREATED]. *)
Theorem obligation_lifecycle s :
  (ObligationTransitions s = [] <-> s = ObligationStatus_CLOSED) /\
  rtc (steps ObligationTransitions) s ObligationStatus_CLOSED /\
  (s = ObligationStatus_FULLY_REPAID \/ s = ObligationStatus_WRITTEN_OFF ->
   forall t, rtc (steps ObligationTransitions) s t -> t = s \/ t = ObligationStatus_CLOSED) /\
  (forall t, steps ObligationTransitions s t -> t <> ObligationStatus_CREATED).
Proof.
  split_and!.
  - by destruct s.
  - destruct (decide (s = ObligationStatus_CLOSED)) as [->|]; [apply rtc_refl|].
    apply rtc_once. unfold steps. destruct s; set_solver.
  - intros Hs t. apply (closed_set _ (fun t => t = s \/ t = ObligationStatus_CLOSED)); [|by left].
    intros x y Hx Hy. destruct Hs as [->| ->], Hx as [->| ->]; cbn in Hy; set_solver.
  - intros t Ht ->. unfold steps in Ht. destruct s; cbn in Ht; set_solver.
Qed.

(** Revocation and expiry are final.  A mandate that is revoked or expired,
    a closed lockbox, a closed subject, a revoked plugin and a settled, rejected
    or failed spend request reach no other status. *)
Theorem terminal_statuses_final :
  (forall s t, s = MandateStatus_REVOKED \/ s = MandateStatus_EXPIRED ->
     rtc (steps MandateTransitions) s t -> t = s) /\
  (forall t, rtc (steps LockboxTransitions) LockboxStatus_CLOSED t -> t = LockboxStatus_CLOSED) /\
  (forall t, rtc (steps SubjectTransitions) SubjectStatus_CLOSED t -> t = SubjectStatus_CLOSED) /\
  (forall t, rtc (steps PluginTransitions) PluginStatus_REVOKED t -> t = PluginStatus_REVOKED) /\
  (forall s t, SpendRequestTransitions s = [] -> rtc (steps SpendRequestTransitions) s t -> t = s) /\
  (forall s t, TransferIntentTransitions s = [] -> rtc (steps TransferIntentTransitions) s t -> t = s).
Proof.
  assert (Hend : forall A (tr : A -> list A) s t, tr s = [] -> rtc (steps tr) s t -> t = s).
  { intros A tr s t Hs. apply (closed_set tr (fun t => t = s)); [|done].
    intros x y -> Hy. rewrite Hs in Hy. set_solver. }
  split_and!; try (intros ?; by apply Hend); try (intros ? ?; by apply Hend).
  intros s t [->| ->]; by apply Hend.
Qed.
