(* ===== verification/EventStore.v ===== *)
(** * The system a service runs in, and the event store

    src/modules/event-audit/src/event-store.js, the evidence envelope of
    src/packages/domain/src/protocol-v2.js and the event constructors of
    src/packages/domain/src/models.js.  [Sys] holds what every service shares:
    the counters of the platform's random and clock streams and the event
    store.  The envelope keeps the strings of the source; the constant
    [schemaVersion] fields are not kept. *)

From stdpp Require Import base tactics relations sets gmap numbers strings list.
From S2P Require Import Prelude Js Enums.
Local Open Scope string_scope.
Local Open Scope Z_scope.

(** ** Data *)

Record CreditEvent := MkCreditEvent {
  ev_eventId : string; ev_eventType : CreditEventType; ev_subjectId : option string;
  ev_obligationId : option string; ev_chainId : option string; ev_finalityStatus : FinalityStatus;
  ev_payloadHash : string; ev_payload : json; ev_occurredAt : string }.

Record AuditEvent := MkAuditEvent {
  au_auditEventId : string; au_actorId : string; au_actionType : string; au_targetType : string;
  au_targetId : string; au_reason : string; au_payloadHash : string; au_payload : json;
  au_occurredAt : string }.

(** The result of [createEvidenceEnvelope]; [attestationRefs], empty for every
    caller here, is not kept. *)
Record Envelope := MkEnvelope {
  en_evidenceId : string; en_evidenceHash : string; en_eventType : string; en_aggregateType : string;
  en_aggregateId : string; en_aggregateVersion : Z; en_correlationId : json; en_idempotencyKey : json;
  en_actorRef : json; en_sourceFinality : FinalityStatus; en_payloadHash : string;
  en_optional : list (string * json); en_occurredAt : string; en_recordedAt : string; en_payload : json }.

Record EventStore := MkEventStore {
  creditEvents : list CreditEvent; auditEvents : list AuditEvent;
  seenCreditIds : gset string; seenAuditIds : gset string;
  evidenceEnvelopes : list Envelope; aggregateVersions : gmap string Z }.

Definition empty_store : EventStore := MkEventStore [] [] ∅ ∅ [] ∅.

Record Sys := MkSys { uuids : nat; ticks : nat; store : EventStore }.

Definition set_store (st : EventStore) (s : Sys) : Sys := MkSys (uuids s) (ticks s) st.

Section operations.
Context `{Platform}.

(** [new Date()] *)
Definition new_Date : M Sys Z :=
  fun s => (Ok (clock (ticks s)), MkSys (uuids s) (S (ticks s)) (store s)).

(** A parameter [now = new Date()]. *)
Definition default_now (now : option Z) : M Sys Z :=
  match now with Some t => mret t | None => new_Date end.

Definition createOperationalId (prefix : string) : M Sys string :=
  fun s => (Ok (prefix +:+ "_" +:+ randomUUID (uuids s)), MkSys (S (uuids s)) (ticks s) (store s)).

Definition createCreditEvent (eventType : CreditEventType) (subjectId obligationId : option string)
    (chainId : option string) (payload : json) (now : option Z) : M Sys CreditEvent :=
  now ← default_now now;
  eventId ← createOperationalId "credit_event";
  mret (MkCreditEvent eventId eventType subjectId obligationId chainId FinalityStatus_FINALIZED
          (hashId "event_payload" (nullish payload (JObj []))) payload (toISOString now)).

Definition createAuditEvent (actorId actionType targetType targetId reason : string) (payload : json)
    (now : option Z) : M Sys AuditEvent :=
  now ← default_now now;
  auditEventId ← createOperationalId "audit_event";
  mret (MkAuditEvent auditEventId actorId actionType targetType targetId reason
          (hashId "audit_payload" payload) payload (toISOString now)).

(** ** Evidence envelopes *)

Definition parseTimestamp (name : string) (value : json) : result Z :=
  assertNonEmptyString name value ;;
  match value with
  | JStr s => match date_parse s with
              | Some t => Ok t
              | None => fail "invalid_timestamp" (name +:+ " must be an ISO timestamp")
              end
  | _ => fail "invalid_timestamp" (name +:+ " must be an ISO timestamp")
  end.

Definition MAX_SAFE_INTEGER : Z := 2 ^ 53 - 1.

Fixpoint assert_all (l : list (string * json)) : result unit :=
  match l with
  | [] => Ok ()
  | (name, v) :: l => assertNonEmptyString name v ;; assert_all l
  end.

Definition defined_entries (l : list (string * json)) : list (string * json) :=
  List.filter (fun e => negb (is_undefined e.2)) l.

Record EnvelopeInput := MkEnvelopeInput {
  in_eventId : string; in_eventType : string; in_aggregateType : string; in_aggregateId : string;
  in_subjectId : json; in_obligationId : json; in_causationId : json; in_correlationId : json;
  in_idempotencyKey : json; in_actorRef : json; in_sourceFinality : FinalityStatus;
  in_payload : json; in_occurredAt : string }.

Definition createEvidenceEnvelope (i : EnvelopeInput) (aggregateVersion : Z) (sourceSystem recordedAt : string)
    : result Envelope :=
  assert_all [("eventId", JStr (in_eventId i)); ("eventType", JStr (in_eventType i));
              ("aggregateType", JStr (in_aggregateType i)); ("aggregateId", JStr (in_aggregateId i));
              ("actorRef", in_actorRef i); ("sourceSystem", JStr sourceSystem)] ;;
  guard ((MAX_SAFE_INTEGER <? aggregateVersion) || (aggregateVersion <? 1))
    "invalid_aggregate_version" "aggregateVersion must be a positive safe integer" ;;
  assertEnumValue "sourceFinality" (value (in_sourceFinality i)) (enumValues FinalityStatus) ;;
  assertNoRawPiiReference (in_payload i) ;;
  occurred ← parseTimestamp "occurredAt" (JStr (in_occurredAt i));
  recorded ← parseTimestamp "recordedAt" (JStr recordedAt);
  let correlationId := nullish (in_correlationId i) (JStr (in_eventId i)) in
  let idempotencyKey := nullish (in_idempotencyKey i) (JStr (in_eventId i)) in
  assertNonEmptyString "correlationId" correlationId ;;
  assertNonEmptyString "idempotencyKey" idempotencyKey ;;
  let payloadHash := hashId "evidence_payload" (in_payload i) in
  let optionalReferences := defined_entries
    [("subjectId", in_subjectId i); ("obligationId", in_obligationId i); ("causationId", in_causationId i)] in
  assert_all optionalReferences ;;
  let core := JObj ([("eventId", JStr (in_eventId i)); ("eventType", JStr (in_eventType i));
    ("aggregateType", JStr (in_aggregateType i)); ("aggregateId", JStr (in_aggregateId i));
    ("aggregateVersion", JNum aggregateVersion); ("correlationId", correlationId);
    ("idempotencyKey", idempotencyKey); ("actorRef", in_actorRef i); ("sourceSystem", JStr sourceSystem);
    ("sourceFinality", JStr (value (in_sourceFinality i))); ("payloadHash", JStr payloadHash)] ++
    optionalReferences ++ [("attestationRefs", JArr []); ("occurredAt", JStr (toISOString occurred));
    ("recordedAt", JStr (toISOString recorded))]) in
  Ok (MkEnvelope (in_eventId i) (hashId "evidence_envelope" core) (in_eventType i) (in_aggregateType i)
        (in_aggregateId i) aggregateVersion correlationId idempotencyKey (in_actorRef i)
        (in_sourceFinality i) payloadHash optionalReferences (toISOString occurred) (toISOString recorded)
        (in_payload i)).

(** ** The store *)

(** The first candidate whose id is a non-empty string. *)
Fixpoint first_candidate (l : list (string * json)) : option (string * string) :=
  match l with
  | [] => None
  | (ty, JStr (String c s)) :: _ => Some (ty, String c s)
  | _ :: l => first_candidate l
  end.

Definition aggregateForCreditEvent (event : CreditEvent) : string * string :=
  let p k := prop k (ev_payload event) in
  match first_candidate
    [("transfer_intent", p "transferIntentId"); ("mandate", p "mandateId"); ("plugin", p "pluginId");
     ("obligation", opt_json (ev_obligationId event)); ("lockbox", p "lockboxId");
     ("credit_line", p "creditLineId"); ("spend_request", p "spendRequestId");
     ("ledger_transaction", p "ledgerTransactionId"); ("subject", opt_json (ev_subjectId event))]
  with
  | Some selected => selected
  | None => ("protocol", value (ev_eventType event))
  end.

Definition aggregate_key (type id : string) : string := type +:+ NUL +:+ id.

Definition set_versions (v : gmap string Z) (st : EventStore) : EventStore :=
  MkEventStore (creditEvents st) (auditEvents st) (seenCreditIds st) (seenAuditIds st)
    (evidenceEnvelopes st) v.
Definition push_credit (e : CreditEvent) (en : Envelope) (st : EventStore) : EventStore :=
  MkEventStore (creditEvents st ++ [e]) (auditEvents st) ({[ev_eventId e]} ∪ seenCreditIds st)
    (seenAuditIds st) (evidenceEnvelopes st ++ [en]) (aggregateVersions st).
Definition push_audit (e : AuditEvent) (en : Envelope) (st : EventStore) : EventStore :=
  MkEventStore (creditEvents st) (auditEvents st ++ [e]) (seenCreditIds st)
    ({[au_auditEventId e]} ∪ seenAuditIds st) (evidenceEnvelopes st ++ [en]) (aggregateVersions st).

Definition buildEvidence (input : EnvelopeInput) : M Sys Envelope :=
  let aggregateKey := aggregate_key (in_aggregateType input) (in_aggregateId input) in
  versions ← gets (fun s => aggregateVersions (store s));
  let aggregateVersion := default 0 (versions !! aggregateKey) + 1 in
  recordedAt ← new_Date;
  envelope ← lift (createEvidenceEnvelope input aggregateVersion "ipo.one.demo" (toISOString recordedAt));
  modify (fun s => set_store (set_versions (<[aggregateKey := aggregateVersion]> (aggregateVersions (store s)))
                                (store s)) s) ;;
  mret envelope.

Definition appendCreditEvent (event : CreditEvent) : M Sys CreditEvent :=
  seen ← gets (fun s => seenCreditIds (store s));
  throw_if (bool_decide (ev_eventId event ∈ seen)) "duplicate_credit_event"
    "credit event ids are append-only and unique" ;;
  let (aggregateType, aggregateId) := aggregateForCreditEvent event in
  let p k := prop k (ev_payload event) in
  envelope ← buildEvidence
    (MkEnvelopeInput (ev_eventId event) (value (ev_eventType event)) aggregateType aggregateId
       (opt_json (ev_subjectId event)) (opt_json (ev_obligationId event)) (p "causationId")
       (nullish (p "correlationId") (opt_json (ev_subjectId event))) (p "idempotencyKey")
       (nullish (p "actorId") (JStr "system:ipo.one.demo")) (ev_finalityStatus event)
       (nullish (ev_payload event) (JObj [])) (ev_occurredAt event));
  modify (fun s => set_store (push_credit event envelope (store s)) s) ;;
  mret event.

(** [{ ...a, ...b }] on the entries of two objects. *)
Definition spread (a b : list (string * json)) : list (string * json) :=
  foldl (fun l e => map_set e.1 e.2 l) a b.
Definition entries_of (v : json) : list (string * json) := match v with JObj l => l | _ => [] end.

Definition appendAuditEvent (event : AuditEvent) : M Sys AuditEvent :=
  seen ← gets (fun s => seenAuditIds (store s));
  throw_if (bool_decide (au_auditEventId event ∈ seen)) "duplicate_audit_event"
    "audit event ids are append-only and unique" ;;
  let subjectId := prop "subjectId" (au_payload event) in
  envelope ← buildEvidence
    (MkEnvelopeInput (au_auditEventId event) (au_actionType event) (au_targetType event) (au_targetId event)
       subjectId JUndef JUndef subjectId JUndef (JStr (au_actorId event)) FinalityStatus_FINALIZED
       (JObj (spread [("reason", JStr (au_reason event))] (entries_of (au_payload event)))) (au_occurredAt event));
  modify (fun s => set_store (push_audit event envelope (store s)) s) ;;
  mret event.

(** The lists, filtered by the equalities a filter object denotes. *)
Definition listCreditEvents (filter : CreditEvent -> bool) (st : EventStore) : list CreditEvent :=
  List.filter filter (creditEvents st).
Definition listAuditEvents (filter : AuditEvent -> bool) (st : EventStore) : list AuditEvent :=
  List.filter filter (auditEvents st).
Definition listEvidenceEnvelopes (filter : Envelope -> bool) (st : EventStore) : list Envelope :=
  List.filter filter (evidenceEnvelopes st).

Inductive TimelineEntry := TimelineCredit (e : CreditEvent) | TimelineAudit (e : AuditEvent).
Definition timeline_at (e : TimelineEntry) : string :=
  match e with TimelineCredit e => ev_occurredAt e | TimelineAudit e => au_occurredAt e end.

Definition json_is (v : json) (s : string) : bool :=
  match v with JStr s' => String.eqb s' s | _ => false end.

Definition timeline (subjectId : string) (st : EventStore) : list TimelineEntry :=
  let credit := listCreditEvents (fun e => bool_decide (ev_subjectId e = Some subjectId)) st in
  let audit := listAuditEvents (fun e => json_is (prop "subjectId" (au_payload e)) subjectId ||
                                         String.eqb (au_targetId e) subjectId) st in
  stable_sort (fun a b => localeCompare (timeline_at a) (timeline_at b))
    (map TimelineCredit credit ++ map TimelineAudit audit)%list.

(** [eventStore.appendCreditEvent(createCreditEvent({ ... }))] *)
Definition emit (eventType : CreditEventType) (subjectId obligationId chainId : option string)
    (payload : json) (now : option Z) : M Sys unit :=
  event ← createCreditEvent eventType subjectId obligationId chainId payload now;
  appendCreditEvent event ;;
  mret ().
Definition emit_audit (actorId actionType targetType targetId reason : string) (payload : json)
    (now : option Z) : M Sys unit :=
  event ← createAuditEvent actorId actionType targetType targetId reason payload now;
  appendAuditEvent event ;;
  mret ().
End operations.

(** ** What the store guarantees *)

Definition envelope_key (en : Envelope) : string := aggregate_key (en_aggregateType en) (en_aggregateId en).

Definition versions_of (k : string) (l : list Envelope) : list Z :=
  en_aggregateVersion <$> List.filter (fun en => String.eqb (envelope_key en) k) l.

(** Ids are unique, and the envelopes of an aggregate carry the versions
    1, 2, ..., n, where n is the version the store keeps for it. *)
Record StoreInv (st : EventStore) : Prop := {
  si_credit : NoDup (ev_eventId <$> creditEvents st);
  si_credit_seen : seenCreditIds st = list_to_set (ev_eventId <$> creditEvents st);
  si_audit : NoDup (au_auditEventId <$> auditEvents st);
  si_audit_seen : seenAuditIds st = list_to_set (au_auditEventId <$> auditEvents st);
  si_count : length (evidenceEnvelopes st) = (length (creditEvents st) + length (auditEvents st))%nat;
  si_versions : forall k, let n := default 0 (aggregateVersions st !! k) in
    0 <= n /\ versions_of k (evidenceEnvelopes st) = seqZ 1 n }.

(** Nothing is removed or changed. *)
Record extends (st st' : EventStore) : Prop := {
  ext_credit : creditEvents st `prefix_of` creditEvents st';
  ext_audit : auditEvents st `prefix_of` auditEvents st';
  ext_evidence : evidenceEnvelopes st `prefix_of` evidenceEnvelopes st' }.

#[export] Instance extends_preorder : PreOrder extends.
Proof.
  split.
  - intros st. by split.
  - intros a b c [] []. split; by etrans.
Qed.

Lemma StoreInv_empty : StoreInv empty_store.
Proof.
  split; cbn; [constructor|done|constructor|done|done|]. intros k. by rewrite lookup_empty.
Qed.

Section append.
Context `{Platform}.

Lemma createEvidenceEnvelope_Ok i n src rec en :
  createEvidenceEnvelope i n src rec = Ok en ->
  en_aggregateType en = in_aggregateType i /\ en_aggregateId en = in_aggregateId i /\
  en_aggregateVersion en = n /\ en_evidenceId en = in_eventId i /\ en_payload en = in_payload i /\ 1 <= n.
Proof. unfold createEvidenceEnvelope. intros K. result_inv. cbn. split_and!; try done. lia. Qed.

Lemma wp_new_Date (Q : Z -> Sys -> Prop) E s :
  Q (clock (ticks s)) (MkSys (uuids s) (S (ticks s)) (store s)) -> wp new_Date Q E s.
Proof. done. Qed.

Lemma wp_createOperationalId prefix (Q : string -> Sys -> Prop) E s :
  Q (prefix +:+ "_" +:+ randomUUID (uuids s)) (MkSys (S (uuids s)) (ticks s) (store s)) ->
  wp (createOperationalId prefix) Q E s.
Proof. done. Qed.

Lemma wp_default_now now (Q : Z -> Sys -> Prop) E s :
  (forall t n, (ticks s <= n)%nat -> Q t (MkSys (uuids s) n (store s))) -> wp (default_now now) Q E s.
Proof.
  intros HQ. destruct now as [t|]; [apply wp_ret|apply wp_new_Date, HQ; lia].
  specialize (HQ t (ticks s) ltac:(lia)). by destruct s.
Qed.

(** The next version of an aggregate, recorded. *)
Definition bump (k : string) (st : EventStore) : EventStore :=
  set_versions (<[k := default 0 (aggregateVersions st !! k) + 1]> (aggregateVersions st)) st.

Lemma wp_buildEvidence i s :
  wp (buildEvidence i)
    (fun en s' => uuids s' = uuids s /\ store s' = bump (envelope_key en) (store s) /\
       envelope_key en = aggregate_key (in_aggregateType i) (in_aggregateId i) /\
       en_aggregateVersion en = default 0 (aggregateVersions (store s) !! envelope_key en) + 1)
    (fun _ s' => uuids s' = uuids s /\ store s' = store s) s.
Proof.
  unfold buildEvidence. apply wp_bind, wp_gets, wp_bind, wp_new_Date, wp_bind, wp_lift; [done|].
  intros en (Ht & Hi & Hv & _)%createEvidenceEnvelope_Ok.
  apply wp_bind, wp_modify, wp_ret. cbn. unfold bump, envelope_key. by rewrite Ht, Hi.
Qed.

(** An append that throws leaves the store as it was; one that returns adds the
    event and an envelope with the next version of its aggregate. *)
Lemma wp_appendCreditEvent e s :
  wp (appendCreditEvent e)
    (fun _ s' => uuids s' = uuids s /\ (ev_eventId e ∉ seenCreditIds (store s)) /\
       exists en, store s' = push_credit e en (bump (envelope_key en) (store s)) /\
         en_aggregateVersion en = default 0 (aggregateVersions (store s) !! envelope_key en) + 1)
    (fun _ s' => uuids s' = uuids s /\ store s' = store s) s.
Proof.
  unfold appendCreditEvent. apply wp_bind, wp_gets, wp_bind, wp_throw_if; [done|].
  intros Hseen%bool_decide_eq_false. destruct (aggregateForCreditEvent e) as [ty id].
  eapply wp_bind, wp_mono; [apply wp_buildEvidence| |done].
  intros en s1 (Hu & Hst & _ & Hv). cbv beta. apply wp_bind, wp_modify, wp_ret. cbn. rewrite Hst.
  split_and!; try done. by exists en.
Qed.

Lemma wp_appendAuditEvent e s :
  wp (appendAuditEvent e)
    (fun _ s' => uuids s' = uuids s /\ (au_auditEventId e ∉ seenAuditIds (store s)) /\
       exists en, store s' = push_audit e en (bump (envelope_key en) (store s)) /\
         en_aggregateVersion en = default 0 (aggregateVersions (store s) !! envelope_key en) + 1)
    (fun _ s' => uuids s' = uuids s /\ store s' = store s) s.
Proof.
  unfold appendAuditEvent. apply wp_bind, wp_gets, wp_bind, wp_throw_if; [done|].
  intros Hseen%bool_decide_eq_false. cbv zeta.
  eapply wp_bind, wp_mono; [apply wp_buildEvidence| |done].
  intros en s1 (Hu & Hst & _ & Hv). cbv beta. apply wp_bind, wp_modify, wp_ret. cbn. rewrite Hst.
  split_and!; try done. by exists en.
Qed.
End append.

(** ** The store's theorem *)

Lemma versions_push k en st :
  en_aggregateVersion en = default 0 (aggregateVersions st !! envelope_key en) + 1 ->
  (let n := default 0 (aggregateVersions st !! k) in
   0 <= n /\ versions_of k (evidenceEnvelopes st) = seqZ 1 n) ->
  let n := default 0 (aggregateVersions (bump (envelope_key en) st) !! k) in
  0 <= n /\ versions_of k (evidenceEnvelopes st ++ [en])%list = seqZ 1 n.
Proof.
  intros Hv [Hn Hs]. cbn. unfold versions_of in *. rewrite List.filter_app, fmap_app, Hs. cbn.
  destruct (String.eqb_spec (envelope_key en) k) as [<-|Hne].
  - rewrite lookup_insert_eq. cbn. rewrite Hv. split; [lia|].
    rewrite (seqZ_app 1 (default 0 (aggregateVersions st !! envelope_key en)) 1) by lia.
    rewrite (Z.add_comm 1). by rewrite (seqZ_cons _ 1).
  - rewrite lookup_insert_ne by done. by rewrite app_nil_r.
Qed.

Lemma StoreInv_credit e en st :
  StoreInv st -> ev_eventId e ∉ seenCreditIds st ->
  en_aggregateVersion en = default 0 (aggregateVersions st !! envelope_key en) + 1 ->
  StoreInv (push_credit e en (bump (envelope_key en) st)).
Proof.
  intros [Hc Hcs Ha Has Hl Hv] Hfresh Hen. rewrite Hcs in Hfresh. split; cbn; try done.
  - rewrite fmap_app. apply NoDup_app. split; [done|]. split; [set_solver|apply NoDup_singleton].
  - rewrite Hcs, fmap_app, list_to_set_app_L. set_solver.
  - rewrite !length_app, Hl. cbn. lia.
  - intros k. exact (versions_push k en st Hen (Hv k)).
Qed.

Lemma StoreInv_audit e en st :
  StoreInv st -> au_auditEventId e ∉ seenAuditIds st ->
  en_aggregateVersion en = default 0 (aggregateVersions st !! envelope_key en) + 1 ->
  StoreInv (push_audit e en (bump (envelope_key en) st)).
Proof.
  intros [Hc Hcs Ha Has Hl Hv] Hfresh Hen. rewrite Has in Hfresh. split; cbn; try done.
  - rewrite fmap_app. apply NoDup_app. split; [done|]. split; [set_solver|apply NoDup_singleton].
  - rewrite Has, fmap_app, list_to_set_app_L. set_solver.
  - rewrite !length_app, Hl. cbn. lia.
  - intros k. exact (versions_push k en st Hen (Hv k)).
Qed.

Lemma extends_credit e en k st : extends st (push_credit e en (bump k st)).
Proof. split; cbn; try done; by apply prefix_app_r. Qed.
Lemma extends_audit e en k st : extends st (push_audit e en (bump k st)).
Proof. split; cbn; try done; by apply prefix_app_r. Qed.

(** C35: the event store is append-only.  Appending a credit event (and, in the
    same way, an audit event) either throws and leaves the store exactly as it
    was, or adds that event and one evidence envelope at the end, keeping
    everything recorded before; event ids stay unique and each aggregate's
    envelopes stay numbered 1, 2, 3, ... without a gap. *)
Theorem event_store_append_only `{Platform} s :
  StoreInv (store s) ->
  (forall e r s', appendCreditEvent e s = (r, s') ->
     match r with
     | Ok _ => StoreInv (store s') /\ extends (store s) (store s') /\
               creditEvents (store s') = (creditEvents (store s) ++ [e])%list /\
               auditEvents (store s') = auditEvents (store s)
     | Err _ => store s' = store s
     end) /\
  (forall e r s', appendAuditEvent e s = (r, s') ->
     match r with
     | Ok _ => StoreInv (store s') /\ extends (store s) (store s') /\
               auditEvents (store s') = (auditEvents (store s) ++ [e])%list /\
               creditEvents (store s') = creditEvents (store s)
     | Err _ => store s' = store s
     end).
Proof.
  intros Hinv. split; intros e r s' Hr.
  - pose proof (wp_run _ _ _ _ _ _ (wp_appendCreditEvent e s) Hr) as K. destruct r; [|by destruct K].
    destruct K as (_ & Hf & en & -> & Hv). split_and!; [by apply StoreInv_credit|apply extends_credit|done|done].
  - pose proof (wp_run _ _ _ _ _ _ (wp_appendAuditEvent e s) Hr) as K. destruct r; [|by destruct K].
    destruct K as (_ & Hf & en & -> & Hv). split_and!; [by apply StoreInv_audit|apply extends_audit|done|done].
Qed.

(** ** Shared operations, as the services see them *)

(** What a service may rely on after any use of the system: identifiers are
    never reused, no clock reading is taken back and the store only grows. *)
Record grows (s s' : Sys) : Prop := {
  gr_uuids : (uuids s <= uuids s')%nat;
  gr_ticks : (ticks s <= ticks s')%nat;
  gr_store : extends (store s) (store s');
  gr_inv : StoreInv (store s) -> StoreInv (store s') }.

#[export] Instance grows_preorder : PreOrder grows.
Proof.
  split.
  - intros s. by split.
  - intros a b c [] []. split; [lia|lia|by etrans|auto].
Qed.

Lemma grows_same s n m : (uuids s <= n)%nat -> (ticks s <= m)%nat -> grows s (MkSys n m (store s)).
Proof. by split. Qed.

Lemma grows_store s s' : uuids s' = uuids s -> (ticks s <= ticks s')%nat -> store s' = store s -> grows s s'.
Proof. intros Hu Ht Hs. split; [lia|done|by rewrite Hs|by rewrite Hs]. Qed.

Section emit.
Context `{Platform}.

(** A use of the system that only grows it, whether it returns or throws. *)
Definition growing {A} (m : M Sys A) : Prop :=
  forall s, wp m (fun _ s' => grows s s') (fun _ s' => grows s s') s.

Lemma growing_bind {A B} (m : M Sys A) (f : A -> M Sys B) :
  growing m -> (forall a, growing (f a)) -> growing (m ≫= f).
Proof.
  intros Hm Hf s. apply wp_bind. eapply wp_mono; [apply Hm| |done]. intros a s1 H1. cbv beta.
  eapply wp_mono; [apply Hf|..]; intros ? s2 H2; cbv beta in *; by etrans.
Qed.

Lemma growing_ret {A} (a : A) : growing (mret a).
Proof. intros s. by apply wp_ret. Qed.

Lemma growing_default_now now : growing (default_now now).
Proof. intros s. apply wp_default_now. intros. apply grows_same; cbn; lia. Qed.

Lemma growing_createOperationalId prefix : growing (createOperationalId prefix).
Proof. intros s. apply wp_createOperationalId, grows_same; lia. Qed.

(** Appending reads the clock. *)
Lemma buildEvidence_ticks i s :
  wp (buildEvidence i) (fun _ s' => (ticks s <= ticks s')%nat) (fun _ s' => (ticks s <= ticks s')%nat) s.
Proof.
  unfold buildEvidence. apply wp_bind, wp_gets, wp_bind, wp_new_Date, wp_bind, wp_lift; [intros; cbn; lia|].
  intros. apply wp_bind, wp_modify, wp_ret. cbn. lia.
Qed.

Lemma appendCreditEvent_ticks e s :
  wp (appendCreditEvent e) (fun _ s' => (ticks s <= ticks s')%nat) (fun _ s' => (ticks s <= ticks s')%nat) s.
Proof.
  unfold appendCreditEvent. apply wp_bind, wp_gets, wp_bind, wp_throw_if; [done|]. intros _.
  destruct (aggregateForCreditEvent e) as [ty id]. eapply wp_bind, wp_mono; [apply buildEvidence_ticks| |done].
  intros en s1 Ht. cbv beta in *. by apply wp_bind, wp_modify, wp_ret.
Qed.

Lemma appendAuditEvent_ticks e s :
  wp (appendAuditEvent e) (fun _ s' => (ticks s <= ticks s')%nat) (fun _ s' => (ticks s <= ticks s')%nat) s.
Proof.
  unfold appendAuditEvent. apply wp_bind, wp_gets, wp_bind, wp_throw_if; [done|]. intros _.
  eapply wp_bind, wp_mono; [apply buildEvidence_ticks| |done].
  intros en s1 Ht. cbv beta in *. by apply wp_bind, wp_modify, wp_ret.
Qed.

Lemma growing_appendCreditEvent e : growing (appendCreditEvent e).
Proof.
  intros s. eapply wp_mono; [apply wp_conj; [apply wp_appendCreditEvent|apply appendCreditEvent_ticks]|..].
  - intros _ s' [(Hu & Hf & en & Hs & Hv) Ht]. split; [lia|done|rewrite Hs; apply extends_credit|].
    rewrite Hs. intros. by apply StoreInv_credit.
  - intros _ s' [[Hu Hs] Ht]. by apply grows_store.
Qed.

Lemma growing_appendAuditEvent e : growing (appendAuditEvent e).
Proof.
  intros s. eapply wp_mono; [apply wp_conj; [apply wp_appendAuditEvent|apply appendAuditEvent_ticks]|..].
  - intros _ s' [(Hu & Hf & en & Hs & Hv) Ht]. split; [lia|done|rewrite Hs; apply extends_audit|].
    rewrite Hs. intros. by apply StoreInv_audit.
  - intros _ s' [[Hu Hs] Ht]. by apply grows_store.
Qed.

End emit.

Create HintDb growing.
#[export] Hint Resolve growing_ret growing_default_now growing_createOperationalId
  growing_appendCreditEvent growing_appendAuditEvent : growing.
Ltac growing :=
  repeat lazymatch goal with
  | |- growing (_ ≫= _) => apply growing_bind; [|intros ?]
  | |- growing _ => solve [eauto with growing]
  end.

Lemma growing_emit `{Platform} ty sid oid cid p now : growing (emit ty sid oid cid p now).
Proof. unfold emit, createCreditEvent. growing. Qed.

Lemma growing_emit_audit `{Platform} a b c d e p now : growing (emit_audit a b c d e p now).
Proof. unfold emit_audit, createAuditEvent. growing. Qed.
#[export] Hint Resolve growing_emit growing_emit_audit : growing.
