(* ===== verification/Service.v ===== *)
(** * Services

    A service is an object with its own fields that shares the system: its
    methods run in [M (Sys * T)], where [T] holds its fields.  A service that
    owns other services has them in its [T] and calls them through [call]. *)

From Stdlib Require Import Ascii.
From stdpp Require Import base tactics sets relations numbers strings list.
From S2P Require Import Prelude Js Enums EventStore.
Local Open Scope string_scope.
Local Open Scope Z_scope.

(** The characters of a UUID: hexadecimal digits and hyphens. *)
Definition is_uuid_char (c : ascii) : bool := is_digit c || ((97 <=? code c) && (code c <=? 102)) || (code c =? 45).

(** What the code relies on of the platform: random UUIDs do not repeat, and are
    written in hexadecimal digits and hyphens. *)
Class PlatformLaws `{Platform} := {
  randomUUID_inj :: Inj (=) (=) randomUUID;
  randomUUID_chars : forall n, all_chars is_uuid_char (randomUUID n) = true }.

(** A map read where the empty string counts as absent ([if (id)]). *)
Definition truthy (o : option string) : option string :=
  match o with Some EmptyString => None | _ => o end.

Lemma truthy_Some o s : truthy o = Some s -> o = Some s.
Proof. destruct o as [[|]|]; done. Qed.

Section service.
  Context {T : Type}.

  (** A use of the shared system. *)
Definition sys {A} (m : M Sys A) : M (Sys * T) A :=
    fun s => let (r, y) := m (fst s) in (r, (y, snd s)).

  (** Reading and writing the service's own fields. *)
Definition own {A} (f : T -> A) : M (Sys * T) A := gets (fun s => f (snd s)).
Definition update (f : T -> T) : M (Sys * T) unit := modify (fun s => (fst s, f (snd s))).

  (** A method of a service kept in a field, which shares the system. *)
Definition call {U A} (get : T -> U) (set : U -> T -> T) (m : M (Sys * U) A) : M (Sys * T) A :=
    fun s => let '(r, (y, u)) := m (fst s, get (snd s)) in (r, (y, set u (snd s))).

(** The same for a field that may hold no service; [absent] is what is thrown
    then. *)
Definition call_opt {U A} (get : T -> option U) (set : U -> T -> T) (absent : DomainError) (m : M (Sys * U) A)
    : M (Sys * T) A := fun s =>
  match get (snd s) with
  | Some u => let '(r, (y, u')) := m (fst s, u) in (r, (y, set u' (snd s)))
  | None => (Err absent, s)
  end.

Lemma wp_sys {A} (m : M Sys A) (Q : A -> Sys * T -> Prop) E y t :
    growing m ->
    (forall a y', grows y y' -> Q a (y', t)) -> (forall e y', grows y y' -> E e (y', t)) ->
    wp (sys m) Q E (y, t).
  Proof.
    intros Hm HQ HE. unfold wp, sys. cbn. pose proof (Hm y) as K. unfold wp in K.
    destruct (m y) as [[a|e] y']; auto.
  Qed.

Lemma wp_sys_bind {A B} (m : M Sys A) (f : A -> M Sys B) (Q : B -> Sys * T -> Prop) E s :
    wp (sys m ≫= fun a => sys (f a)) Q E s -> wp (sys (m ≫= f)) Q E s.
  Proof.
    unfold wp, sys, mbind, M_bind. destruct s as [y t]. cbn. destruct (m y) as [[a|e] y']; done.
  Qed.

Lemma wp_sys_ret {A} (a : A) (Q : A -> Sys * T -> Prop) E s : Q a s -> wp (sys (mret a)) Q E s.
  Proof. by destruct s. Qed.

Lemma wp_own {A} (f : T -> A) (Q : A -> Sys * T -> Prop) E y t : Q (f t) (y, t) -> wp (own f) Q E (y, t).
  Proof. done. Qed.

Lemma wp_update f (Q : unit -> Sys * T -> Prop) E y t : Q () (y, f t) -> wp (update f) Q E (y, t).
  Proof. done. Qed.

Lemma wp_call {U A} (get : T -> U) set (m : M (Sys * U) A) (Q : A -> Sys * T -> Prop) E y t :
    wp m (fun a s => Q a (fst s, set (snd s) t)) (fun e s => E e (fst s, set (snd s) t)) (y, get t) ->
    wp (call get set m) Q E (y, t).
  Proof. unfold wp, call. cbn. destruct (m (y, get t)) as [[a|e] [y' u]]; auto. Qed.
Lemma wp_call_opt {U A} (get : T -> option U) set absent (m : M (Sys * U) A) (Q : A -> Sys * T -> Prop) E y t :
  (get t = None -> E absent (y, t)) ->
  (forall u, get t = Some u ->
     wp m (fun a s => Q a (s.1, set s.2 t)) (fun e s => E e (s.1, set s.2 t)) (y, u)) ->
  wp (call_opt get set absent m) Q E (y, t).
Proof.
  intros HN HS. unfold wp, call_opt. cbn. destruct (get t) as [u|]; [|by apply HN].
  specialize (HS u eq_refl). unfold wp in HS. by destruct (m (y, u)) as [[a|e] [y' u']].
Qed.
End service.

(** ** Operational identifiers *)

Section ids.
  Context `{Platform}.

Definition id_of (prefix : string) (n : nat) : string := prefix +:+ "_" +:+ randomUUID n.

  (** [id] was created with [prefix] before the [n]-th identifier. *)
Definition minted (prefix : string) (n : nat) (id : string) : Prop :=
    exists k, (k < n)%nat /\ id = id_of prefix k.

Lemma minted_mono prefix n m id : (n <= m)%nat -> minted prefix n id -> minted prefix m id.
  Proof. intros Hle (k & Hk & ->). exists k. split; [lia|done]. Qed.

Lemma minted_new prefix n : minted prefix (S n) (id_of prefix n).
  Proof. exists n. split; [lia|done]. Qed.

Lemma id_of_nonempty prefix n : id_of prefix n <> "".
  Proof. unfold id_of. by destruct prefix. Qed.

Lemma truthy_id prefix n id : minted prefix n id -> truthy (Some id) = Some id.
  Proof. intros (k & _ & ->). pose proof (id_of_nonempty prefix k). by destruct (id_of prefix k). Qed.

Lemma wp_new_id {T} prefix (Q : string -> Sys * T -> Prop) E y t :
    (forall y', uuids y' = S (uuids y) -> grows y y' -> Q (id_of prefix (uuids y)) (y', t)) ->
    wp (sys (createOperationalId prefix)) Q E (y, t).
  Proof. intros HQ. apply (HQ (MkSys (S (uuids y)) (ticks y) (store y))); [done|]. apply grows_same; lia. Qed.

Lemma wp_now {T} now (Q : Z -> Sys * T -> Prop) E y t :
    (forall n y', uuids y' = uuids y -> grows y y' -> Q n (y', t)) ->
    wp (sys (default_now now)) Q E (y, t).
  Proof.
    intros HQ. destruct now as [n|]; unfold wp, sys; cbn.
    - by apply HQ.
    - apply HQ; [done|]. apply grows_same; cbn; lia.
  Qed.

(** A reading of the clock itself. *)
Lemma wp_clock {T} (Q : Z -> Sys * T -> Prop) E y t :
    (forall y', uuids y' = uuids y -> ticks y' = S (ticks y) -> grows y y' -> Q (clock (ticks y)) (y', t)) ->
    wp (sys new_Date) Q E (y, t).
  Proof. intros HQ. apply (HQ (MkSys (uuids y) (S (ticks y)) (store y))); [done|done|]. apply grows_same; cbn; lia. Qed.

Lemma wp_now_given {T} now (Q : Z -> Sys * T -> Prop) E y t :
    (forall n y', (forall k, now = Some k -> n = k) -> uuids y' = uuids y -> grows y y' -> Q n (y', t)) ->
    wp (sys (default_now now)) Q E (y, t).
  Proof.
    intros HQ. destruct now as [n|]; unfold wp, sys; cbn.
    - apply HQ; [by intros ? [= ->]|done|done].
    - apply HQ; [done|done|]. apply grows_same; cbn; lia.
  Qed.

  Context {HL : PlatformLaws}.

Lemma minted_fresh prefix n id : minted prefix n id -> id <> id_of prefix n.
  Proof.
    intros (k & Hk & ->) E. unfold id_of in E.
    apply (inj (String.append prefix)), (inj (String.append "_")), (inj randomUUID) in E. lia.
  Qed.
End ids.

(** ** Invariants of a service

    [I n t]: the fields [t] are well formed when [n] identifiers have been
    minted.  [R t t']: what may change in the fields. *)
Section keeps.
  Context {T : Type} (I : nat -> T -> Prop) (R : T -> T -> Prop) `{!PreOrder R}.
  Context (I_mono : forall n m t, (n <= m)%nat -> I n t -> I m t).

Definition kept (y : Sys) (t : T) (s : Sys * T) : Prop :=
    I (uuids s.1) s.2 /\ grows y s.1 /\ R t s.2.

  (** A method keeps the invariant and changes only what it may, whether it
      returns or throws. *)
Definition keeps {A} (m : M (Sys * T) A) : Prop :=
    forall y t, I (uuids y) t -> wp m (fun _ => kept y t) (fun _ => kept y t) (y, t).

Lemma kept_same y y' t : I (uuids y) t -> grows y y' -> kept y t (y', t).
  Proof. intros Hi Hg. split_and!; [|done|done]. eapply I_mono; [|done]. apply Hg. Qed.

Lemma kept_step y y1 y' t t' :
    I (uuids y1) t' -> grows y1 y' -> grows y y1 -> R t t' -> kept y t (y', t').
  Proof. intros Hi Hg1 Hg HR. split_and!; [|by etrans|done]. eapply I_mono; [|done]. apply Hg1. Qed.

Lemma kept_trans y t s s' : kept y t s -> kept s.1 s.2 s' -> kept y t s'.
  Proof. intros (? & ? & ?) (? & ? & ?). split_and!; [done|by etrans|by etrans]. Qed.

Lemma keeps_bind {A B} (m : M (Sys * T) A) (f : A -> M (Sys * T) B) :
    keeps m -> (forall a, keeps (f a)) -> keeps (m ≫= f).
  Proof.
    intros Hm Hf y t Hi. apply wp_bind. eapply wp_mono; [by apply Hm| |done].
    intros a [y1 t1] H1. cbv beta. pose proof H1 as (Hi1 & _). eapply wp_mono; [by apply Hf|..];
    intros ? s H2; exact (kept_trans _ _ _ _ H1 H2).
  Qed.

Lemma keeps_ret {A} (a : A) : keeps (mret a).
  Proof. intros y t Hi. by apply wp_ret, kept_same. Qed.

  (** The fields after a sequence of calls, some of which may have thrown. *)
Definition exec {C A} (run : C -> M (Sys * T) A) (cs : list C) (s : Sys * T) : Sys * T :=
    foldl (fun s c => snd (run c s)) s cs.

Lemma exec_kept {C A} (run : C -> M (Sys * T) A) cs y t :
    (forall c, keeps (run c)) -> I (uuids y) t -> kept y t (exec run cs (y, t)).
  Proof.
    intros Hrun. revert y t. induction cs as [|c cs IH]; intros y t Hi; [by apply kept_same|].
    cbn [exec foldl]. pose proof (Hrun c y t Hi) as K. unfold wp in K.
    destruct (run c (y, t)) as [[a|e] [y1 t1]]; cbn [snd];
      (eapply kept_trans; [exact K|]; apply IH; apply K).
  Qed.
End keeps.

(** One symbolic step of a service's method. *)
Ltac svc_step :=
  lazymatch goal with
  | |- wp (sys (createOperationalId _)) _ _ _ => apply wp_new_id; intros ? ? ?
  | |- wp (sys (default_now _)) _ _ _ => apply wp_now; intros ? ? ? ?
  | |- wp (sys new_Date) _ _ _ => apply (wp_now None); intros ? ? ? ?
  | |- wp (sys (emit _ _ _ _ _ _)) _ _ _ => apply wp_sys; [apply growing_emit|intros ? ? ?|intros ? ? ?]
  | |- wp (sys (emit_audit _ _ _ _ _ _ _)) _ _ _ =>
      apply wp_sys; [apply growing_emit_audit|intros ? ? ?|intros ? ? ?]
  | |- wp (sys (_ ≫= _)) _ _ _ => apply wp_sys_bind
  | |- wp (sys (mret _)) _ _ _ => apply wp_sys_ret
  | |- wp (sys _) _ _ _ => apply wp_sys; [solve [eauto with growing]|intros ? ? ?|intros ? ? ?]
  | |- wp (own _) _ _ _ => apply wp_own
  | |- wp (update _) _ _ _ => apply wp_update
  | |- wp (call _ _ _) _ _ _ => apply wp_call
  | |- _ => wp_step
  end; cbv beta.
Ltac svc_steps := repeat svc_step.

(** Chains the growth steps of a symbolic execution. *)
Ltac grows :=
  repeat match goal with
  | |- grows ?a ?a => reflexivity
  | H : grows ?a ?b |- grows ?a ?c => first [exact H | etransitivity; [exact H|]; clear H]
  end.
