(* ===== verification/Ledger.v ===== *)
(** * The double-entry ledger

    src/modules/ledger/src/ledger-service.js, with the record constructors of
    src/packages/domain/src/models.js.  Stored objects are deep-frozen clones,
    so a value of the model is never shared. *)

From stdpp Require Import base tactics sets relations gmap numbers strings list.
From S2P Require Import Prelude Js Enums EventStore Service.
Local Open Scope string_scope.
Local Open Scope Z_scope.

(** ** Data *)

Record LedgerAccount := MkLedgerAccount {
  la_ledgerAccountId : string; la_ledgerAccountHash : string; la_ownerType : string;
  la_ownerId : string; la_assetId : string; la_accountType : LedgerAccountType;
  la_normalSide : LedgerNormalSide; la_status : LedgerAccountStatus; la_openedAt : string }.

Record LedgerTransaction := MkLedgerTransaction {
  lt_ledgerTransactionId : string; lt_transactionHash : string; lt_idempotencyKey : string;
  lt_transactionType : string; lt_assetId : string; lt_referenceType : string; lt_referenceId : string;
  lt_metadata : json; lt_metadataHash : string; lt_debitTotalMinor : Z; lt_creditTotalMinor : Z;
  lt_entryCount : Z; lt_postedAt : string }.

Record LedgerEntry := MkLedgerEntry {
  le_ledgerEntryId : string; le_ledgerTransactionId : string; le_ledgerAccountId : string;
  le_direction : LedgerEntryDirection; le_amountMinor : Z; le_sequence : Z; le_postedAt : string }.

Record Ledger := MkLedger {
  accounts : jsmap LedgerAccount; accountIdsByNaturalKey : jsmap string;
  transactions : jsmap LedgerTransaction; transactionIdsByIdempotencyKey : jsmap string;
  entries : list LedgerEntry }.

Definition empty_ledger : Ledger := MkLedger [] [] [] [] [].

(** The arguments of [openAccount] and of [postTransaction]. *)
Record OpenAccount := MkOpenAccount {
  oa_ownerType : string; oa_ownerId : string; oa_assetId : string; oa_accountType : LedgerAccountType;
  oa_normalSide : LedgerNormalSide; oa_subjectId : option string; oa_now : option Z }.

Record EntryInput := MkEntryInput {
  ei_ledgerAccountId : string; ei_direction : LedgerEntryDirection; ei_amountMinor : minor }.

Record PostTransaction := MkPostTransaction {
  pt_idempotencyKey : string; pt_transactionType : string; pt_assetId : string;
  pt_entries : list EntryInput; pt_referenceType : string; pt_referenceId : string;
  pt_subjectId : option string; pt_metadata : json; pt_now : option Z }.

(** A validated entry. *)
Record NormalEntry := MkNormalEntry {
  ne_ledgerAccountId : string; ne_direction : LedgerEntryDirection; ne_amountMinor : Z; ne_sequence : Z }.

(** What [getTransaction] returns. *)
Record TransactionView := MkTransactionView { tv_transaction : LedgerTransaction; tv_entries : list LedgerEntry }.

(** ** Operations *)

Section operations.
Context `{Platform}.

Definition add_account (a : LedgerAccount) (key : string) (t : Ledger) : Ledger :=
  MkLedger (map_set (la_ledgerAccountId a) a (accounts t))
    (map_set key (la_ledgerAccountId a) (accountIdsByNaturalKey t))
    (transactions t) (transactionIdsByIdempotencyKey t) (entries t).

Definition add_transaction (x : LedgerTransaction) (es : list LedgerEntry) (t : Ledger) : Ledger :=
  MkLedger (accounts t) (accountIdsByNaturalKey t)
    (map_set (lt_ledgerTransactionId x) x (transactions t))
    (map_set (lt_idempotencyKey x) (lt_ledgerTransactionId x) (transactionIdsByIdempotencyKey t))
    (entries t ++ es).

Definition requireAccount (t : Ledger) (ledgerAccountId : string) : result LedgerAccount :=
  match map_get ledgerAccountId (accounts t) with
  | Some account => Ok account
  | None => fail "ledger_account_not_found" "ledger account not found"
  end.

Definition createLedgerAccount (ownerType ownerId assetId : string) (accountType : LedgerAccountType)
    (normalSide : LedgerNormalSide) (now : Z) : M Sys LedgerAccount :=
  ledgerAccountId ← createOperationalId "ledger_account";
  mret (MkLedgerAccount ledgerAccountId
    (hashId "ledger_account" (JObj [("ownerType", JStr ownerType); ("ownerId", JStr ownerId);
       ("assetId", JStr assetId); ("accountType", JStr (value accountType))]))
    ownerType ownerId assetId accountType normalSide LedgerAccountStatus_ACTIVE (toISOString now)).

Definition natural_key (ownerType ownerId assetId : string) (accountType : LedgerAccountType) : string :=
  ownerType +:+ NUL +:+ ownerId +:+ NUL +:+ assetId +:+ NUL +:+ value accountType.

Definition openAccount (i : OpenAccount) : M (Sys * Ledger) LedgerAccount :=
  now ← sys (default_now (oa_now i));
  lift (assertNonEmptyString "ownerType" (JStr (oa_ownerType i))) ;;
  lift (assertNonEmptyString "ownerId" (JStr (oa_ownerId i))) ;;
  lift (assertNonEmptyString "assetId" (JStr (oa_assetId i))) ;;
  lift (assertEnumValue "accountType" (value (oa_accountType i)) (enumValues LedgerAccountType)) ;;
  lift (assertEnumValue "normalSide" (value (oa_normalSide i)) (enumValues LedgerNormalSide)) ;;
  let naturalKey := natural_key (oa_ownerType i) (oa_ownerId i) (oa_assetId i) (oa_accountType i) in
  t ← own id;
  match truthy (map_get naturalKey (accountIdsByNaturalKey t)) with
  | Some existingId =>
      existing ← lift (requireAccount t existingId);
      throw_if (negb (bool_decide (la_normalSide existing = oa_normalSide i))) "ledger_account_conflict"
        "ledger account natural key has a different normal side" ;;
      mret existing
  | None =>
      account ← sys (createLedgerAccount (oa_ownerType i) (oa_ownerId i) (oa_assetId i)
                       (oa_accountType i) (oa_normalSide i) now);
      update (add_account account naturalKey) ;;
      sys (emit CreditEventType_LEDGER_ACCOUNT_OPENED (oa_subjectId i) None None
        (JObj [("ledgerAccountId", JStr (la_ledgerAccountId account));
               ("ledgerAccountHash", JStr (la_ledgerAccountHash account));
               ("ownerType", JStr (oa_ownerType i)); ("ownerId", JStr (oa_ownerId i));
               ("assetId", JStr (oa_assetId i)); ("accountType", JStr (value (oa_accountType i)));
               ("normalSide", JStr (value (oa_normalSide i)))]) (Some now)) ;;
      mret account
  end.

(** The callback of [entries.map], with the accounts seen so far. *)
Fixpoint normalize (t : Ledger) (assetId : string) (seen : list string) (sequence : Z)
    (l : list EntryInput) : result (list NormalEntry) :=
  match l with
  | [] => Ok []
  | entry :: l =>
      let accountId := ei_ledgerAccountId entry in
      assertNonEmptyString "ledgerAccountId" (JStr accountId) ;;
      assertEnumValue "direction" (value (ei_direction entry)) (enumValues LedgerEntryDirection) ;;
      amount ← assertPositiveMinorUnits (ei_amountMinor entry) "amountMinor";
      guard (bool_decide (accountId ∈ seen)) "duplicate_ledger_account_entry"
        "an account may appear only once per transaction" ;;
      account ← requireAccount t accountId;
      guard (negb (bool_decide (la_status account = LedgerAccountStatus_ACTIVE)))
        "ledger_account_not_active" "ledger posting requires active accounts" ;;
      guard (negb (String.eqb (la_assetId account) assetId)) "ledger_asset_mismatch"
        "all ledger accounts must match the transaction asset" ;;
      rest ← normalize t assetId (accountId :: seen) (sequence + 1) l;
      Ok (MkNormalEntry accountId (ei_direction entry) amount sequence :: rest)
  end.

Definition total_of (d : LedgerEntryDirection) (l : list NormalEntry) : Z :=
  foldl (fun sum e => sum + ne_amountMinor e) 0 (List.filter (fun e => bool_decide (ne_direction e = d)) l).

Definition normal_json (e : NormalEntry) : json :=
  JObj [("ledgerAccountId", JStr (ne_ledgerAccountId e)); ("direction", JStr (value (ne_direction e)));
        ("amountMinor", JStr (toString (ne_amountMinor e))); ("sequence", JNum (ne_sequence e))].

(** The hash of a transaction, computed in [postTransaction] and again in
    [createLedgerTransaction] from the same fields. *)
Definition transaction_hash (i : PostTransaction) (l : list NormalEntry) : string :=
  hashId "ledger_transaction" (JObj [("idempotencyKey", JStr (pt_idempotencyKey i));
    ("transactionType", JStr (pt_transactionType i)); ("assetId", JStr (pt_assetId i));
    ("referenceType", JStr (pt_referenceType i)); ("referenceId", JStr (pt_referenceId i));
    ("metadata", pt_metadata i); ("entries", JArr (map normal_json l))]).

Definition createLedgerTransaction (i : PostTransaction) (l : list NormalEntry) (debits credits now : Z)
    : M Sys LedgerTransaction :=
  ledgerTransactionId ← createOperationalId "ledger_transaction";
  mret (MkLedgerTransaction ledgerTransactionId (transaction_hash i l) (pt_idempotencyKey i)
    (pt_transactionType i) (pt_assetId i) (pt_referenceType i) (pt_referenceId i)
    (nullish (pt_metadata i) (JObj [])) (hashId "ledger_metadata" (nullish (pt_metadata i) (JObj [])))
    debits credits (Z.of_nat (length l)) (toISOString now)).

Definition createLedgerEntry (ledgerTransactionId : string) (now : Z) (e : NormalEntry) : M Sys LedgerEntry :=
  ledgerEntryId ← createOperationalId "ledger_entry";
  mret (MkLedgerEntry ledgerEntryId ledgerTransactionId (ne_ledgerAccountId e) (ne_direction e)
          (ne_amountMinor e) (ne_sequence e) (toISOString now)).

Definition entries_of_transaction (t : Ledger) (id : string) : list LedgerEntry :=
  List.filter (fun e => String.eqb (le_ledgerTransactionId e) id) (entries t).

Definition getTransaction (t : Ledger) (ledgerTransactionId : string) : result TransactionView :=
  match map_get ledgerTransactionId (transactions t) with
  | None => fail "ledger_transaction_not_found" "ledger transaction not found"
  | Some x =>
      Ok (MkTransactionView x
            (stable_sort (fun a b => Z.compare (le_sequence a) (le_sequence b))
               (entries_of_transaction t ledgerTransactionId)))
  end.

(** The checks [postTransaction] makes before it looks at the idempotency key. *)
Definition check_posting (t : Ledger) (i : PostTransaction) : result (list NormalEntry) :=
  assertNonEmptyString "idempotencyKey" (JStr (pt_idempotencyKey i)) ;;
  assertNonEmptyString "transactionType" (JStr (pt_transactionType i)) ;;
  assertNonEmptyString "assetId" (JStr (pt_assetId i)) ;;
  assertNonEmptyString "referenceType" (JStr (pt_referenceType i)) ;;
  assertNonEmptyString "referenceId" (JStr (pt_referenceId i)) ;;
  assertNoRawPiiReference (pt_metadata i) ;;
  guard (length (pt_entries i) <? 2)%nat "ledger_entries_required"
    "ledger transaction requires at least two entries" ;;
  normalizedEntries ← normalize t (pt_assetId i) [] 0 (pt_entries i);
  guard (negb (total_of LedgerEntryDirection_DEBIT normalizedEntries =?
               total_of LedgerEntryDirection_CREDIT normalizedEntries))
    "unbalanced_ledger_transaction" "ledger debits and credits must balance" ;;
  Ok normalizedEntries.

Definition postTransaction (i : PostTransaction) : M (Sys * Ledger) (TransactionView * bool) :=
  now ← sys (default_now (pt_now i));
  t ← own id;
  normalizedEntries ← lift (check_posting t i);
  let debitTotal := total_of LedgerEntryDirection_DEBIT normalizedEntries in
  let creditTotal := total_of LedgerEntryDirection_CREDIT normalizedEntries in
  let transactionHash := transaction_hash i normalizedEntries in
  match truthy (map_get (pt_idempotencyKey i) (transactionIdsByIdempotencyKey t)) with
  | Some existingTransactionId =>
      existing ← lift (match map_get existingTransactionId (transactions t) with
                       | Some x => Ok x | None => Err TypeError end);
      throw_if (negb (String.eqb (lt_transactionHash existing) transactionHash)) "ledger_idempotency_conflict"
        "idempotency key was reused with a different transaction" ;;
      view ← lift (getTransaction t existingTransactionId);
      mret (view, true)
  | None =>
      transaction ← sys (createLedgerTransaction i normalizedEntries debitTotal creditTotal now);
      throw_if (negb (String.eqb (lt_transactionHash transaction) transactionHash)) "ledger_hash_mismatch"
        "ledger transaction hash construction is inconsistent" ;;
      storedEntries ← sys (map_m (createLedgerEntry (lt_ledgerTransactionId transaction) now) normalizedEntries);
      update (add_transaction transaction storedEntries) ;;
      sys (emit CreditEventType_LEDGER_TRANSACTION_POSTED (pt_subjectId i) None None
        (JObj [("ledgerTransactionId", JStr (lt_ledgerTransactionId transaction));
               ("transactionHash", JStr (lt_transactionHash transaction));
               ("transactionType", JStr (pt_transactionType i)); ("assetId", JStr (pt_assetId i));
               ("referenceType", JStr (pt_referenceType i)); ("referenceId", JStr (pt_referenceId i));
               ("debitTotalMinor", JStr (toString (lt_debitTotalMinor transaction)));
               ("creditTotalMinor", JStr (toString (lt_creditTotalMinor transaction)));
               ("entryCount", JNum (lt_entryCount transaction))]) (Some now)) ;;
      t ← own id;
      view ← lift (getTransaction t (lt_ledgerTransactionId transaction));
      mret (view, false)
  end.
End operations.

(** ** Queries *)

Definition getAccount (t : Ledger) (ledgerAccountId : string) : result LedgerAccount :=
  requireAccount t ledgerAccountId.

(** The filter object as the test it denotes. *)
Definition listAccounts (t : Ledger) (filter : LedgerAccount -> bool) : list LedgerAccount :=
  List.filter filter (map_values (accounts t)).

Definition listTransactions (t : Ledger) (filter : LedgerTransaction -> bool) : result (list TransactionView) :=
  collect (fun x => getTransaction t (lt_ledgerTransactionId x))
    (List.filter filter (map_values (transactions t))).

(** The sum of the entries a test selects. *)
Definition sum_where (f : LedgerEntry -> bool) (l : list LedgerEntry) : Z :=
  foldl (fun sum e => sum + le_amountMinor e) 0 (List.filter f l).

Definition getAccountTurnover (t : Ledger) (ledgerAccountId : string) (direction : LedgerEntryDirection)
    : result Z :=
  requireAccount t ledgerAccountId ;;
  assertEnumValue "direction" (value direction) (enumValues LedgerEntryDirection) ;;
  Ok (sum_where (fun e => String.eqb (le_ledgerAccountId e) ledgerAccountId &&
                          bool_decide (le_direction e = direction)) (entries t)).

Definition getAccountBalance (t : Ledger) (ledgerAccountId : string) : result Z :=
  account ← requireAccount t ledgerAccountId;
  debits ← getAccountTurnover t ledgerAccountId LedgerEntryDirection_DEBIT;
  credits ← getAccountTurnover t ledgerAccountId LedgerEntryDirection_CREDIT;
  Ok (if bool_decide (la_normalSide account = LedgerNormalSide_DEBIT) then debits - credits
      else credits - debits).

Record TrialBalance := MkTrialBalance {
  tb_assetId : string; tb_debitTotalMinor : Z; tb_creditTotalMinor : Z; tb_balanced : bool }.

Definition getTrialBalance (t : Ledger) (assetId : string) : result TrialBalance :=
  assertNonEmptyString "assetId" (JStr assetId) ;;
  let accountIds := map la_ledgerAccountId (listAccounts t (fun a => String.eqb (la_assetId a) assetId)) in
  let selected e := bool_decide (le_ledgerAccountId e ∈ accountIds) in
  let debitTotal := sum_where (fun e => selected e && bool_decide (le_direction e = LedgerEntryDirection_DEBIT)) (entries t) in
  let creditTotal := sum_where (fun e => selected e && negb (bool_decide (le_direction e = LedgerEntryDirection_DEBIT))) (entries t) in
  Ok (MkTrialBalance assetId debitTotal creditTotal (debitTotal =? creditTotal)).

Record Integrity := MkIntegrity { ig_balanced : bool; ig_transactionCount : Z; ig_violations : list string }.

Definition violates (t : Ledger) (x : LedgerTransaction) : bool :=
  let es := entries_of_transaction t (lt_ledgerTransactionId x) in
  (length es <? 2)%nat ||
  negb (sum_where (fun e => bool_decide (le_direction e = LedgerEntryDirection_DEBIT)) es =?
        sum_where (fun e => bool_decide (le_direction e = LedgerEntryDirection_CREDIT)) es).

Definition verifyIntegrity (t : Ledger) : Integrity :=
  let violations := map lt_ledgerTransactionId (List.filter (violates t) (map_values (transactions t))) in
  MkIntegrity (length violations =? 0)%nat (Z.of_nat (length (transactions t))) violations.

(** [new Set(values)]: the first occurrences, in order. *)
Fixpoint unique_from (seen : list string) (l : list string) : list string :=
  match l with
  | [] => []
  | x :: l => if bool_decide (x ∈ seen) then unique_from seen l else x :: unique_from (x :: seen) l
  end.
Definition unique (l : list string) : list string := unique_from [] l.

Record Snapshot := MkSnapshot {
  sn_accountCount : Z; sn_transactionCount : Z; sn_entryCount : Z; sn_integrity : Integrity;
  sn_trialBalances : list TrialBalance }.

Definition getSnapshot (t : Ledger) : result Snapshot :=
  let assets := unique (map la_assetId (map_values (accounts t))) in
  trialBalances ← collect (getTrialBalance t) assets;
  Ok (MkSnapshot (Z.of_nat (length (accounts t))) (Z.of_nat (length (transactions t)))
        (Z.of_nat (length (entries t))) (verifyIntegrity t) trialBalances).
