(* ===== verification/LedgerProps.v ===== *)
(** * The ledger's theorems *)

From stdpp Require Import base tactics sets relations gmap numbers strings list.
From S2P Require Import Prelude Js Enums EventStore Service Ledger.
Local Open Scope string_scope.
Local Open Scope Z_scope.

(** ** The invariant *)

(** Debits count positive, credits negative. *)
Definition signed (d : LedgerEntryDirection) (amount : Z) : Z :=
  match d with LedgerEntryDirection_DEBIT => amount | LedgerEntryDirection_CREDIT => - amount end.
Definition entry_signed (e : LedgerEntry) : Z := signed (le_direction e) (le_amountMinor e).
Definition normal_signed (e : NormalEntry) : Z := signed (ne_direction e) (ne_amountMinor e).

Definition asset_of (t : Ledger) (accountId : string) : option string :=
  la_assetId <$> map_get accountId (accounts t).

(** The signed amount an entry adds to the trial balance of an asset. *)
Definition in_asset (t : Ledger) (asset : string) (e : LedgerEntry) : Z :=
  if decide (asset_of t (le_ledgerAccountId e) = Some asset) then entry_signed e else 0.

Section ledger.
Context `{PlatformLaws}.

Record LedgerInv (n : nat) (t : Ledger) : Prop := {
  li_accounts_keys : NoDup (map_keys (accounts t));
  li_accounts : forall id a, map_get id (accounts t) = Some a ->
    la_ledgerAccountId a = id /\ minted "ledger_account" n id;
  li_active : forall id a, map_get id (accounts t) = Some a -> la_status a = LedgerAccountStatus_ACTIVE;
  li_natural : forall k id, map_get k (accountIdsByNaturalKey t) = Some id ->
    exists a, map_get id (accounts t) = Some a /\
      natural_key (la_ownerType a) (la_ownerId a) (la_assetId a) (la_accountType a) = k;
  li_transactions_keys : NoDup (map_keys (transactions t));
  li_transactions : forall id x, map_get id (transactions t) = Some x ->
    lt_ledgerTransactionId x = id /\ minted "ledger_transaction" n id;
  li_idempotency : forall k id, map_get k (transactionIdsByIdempotencyKey t) = Some id ->
    exists x, map_get id (transactions t) = Some x /\ lt_idempotencyKey x = k;
  li_entries : forall e, e ∈ entries t ->
    0 < le_amountMinor e /\
    exists x, map_get (le_ledgerTransactionId e) (transactions t) = Some x /\
              asset_of t (le_ledgerAccountId e) = Some (lt_assetId x);
  li_balanced : forall id x, map_get id (transactions t) = Some x ->
    (2 <= length (entries_of_transaction t id))%nat /\
    sum_by entry_signed (entries_of_transaction t id) = 0;
  li_assets : forall asset, sum_by (in_asset t asset) (entries t) = 0 }.

Lemma LedgerInv_empty n : LedgerInv n empty_ledger.
Proof. split; cbn; try done; try constructor; set_solver. Qed.

Lemma LedgerInv_mono n m t : (n <= m)%nat -> LedgerInv n t -> LedgerInv m t.
Proof.
  intros Hle []. split; try done.
  - intros id a Ha. destruct (li_accounts0 id a Ha). split; [done|by eapply minted_mono].
  - intros id x Hx. destruct (li_transactions0 id x Hx). split; [done|by eapply minted_mono].
Qed.

(** ** Opening an account *)

Lemma LedgerInv_add_account n t a k :
  LedgerInv n t -> la_ledgerAccountId a = id_of "ledger_account" n -> la_status a = LedgerAccountStatus_ACTIVE ->
  k = natural_key (la_ownerType a) (la_ownerId a) (la_assetId a) (la_accountType a) ->
  LedgerInv (S n) (add_account a k t).
Proof.
  intros Hinv Hid Hact Hk.
  assert (Hfresh : map_get (la_ledgerAccountId a) (accounts t) = None).
  { destruct (map_get _ _) as [a'|] eqn:E; [|done].
    apply (li_accounts _ _ Hinv) in E as [_ Hm]. apply minted_fresh in Hm. congruence. }
  assert (Hasset : forall id, id <> la_ledgerAccountId a -> asset_of (add_account a k t) id = asset_of t id).
  { intros id Hne. unfold asset_of. cbn. by rewrite map_get_set_ne. }
  assert (Hent : forall e, e ∈ entries t -> le_ledgerAccountId e <> la_ledgerAccountId a).
  { intros e He Heq. apply (li_entries _ _ Hinv) in He as (_ & x & _ & Ha).
    unfold asset_of in Ha. by rewrite Heq, Hfresh in Ha. }
  split; cbn [add_account accounts accountIdsByNaturalKey transactions transactionIdsByIdempotencyKey entries].
  - apply map_set_NoDup, Hinv.
  - intros id a'. rewrite map_get_set. case_decide as E.
    + intros [= <-]. split; [done|]. rewrite <- E, Hid. apply minted_new.
    + intros Ha. destruct (li_accounts _ _ Hinv id a' Ha). split; [done|eapply minted_mono; [|done]; lia].
  - intros id a'. rewrite map_get_set. case_decide; [by intros [= <-]|apply (li_active _ _ Hinv)].
  - intros k' id. rewrite map_get_set. case_decide as E.
    + intros [= <-]. exists a. rewrite map_get_set_eq. by subst.
    + intros Hn. destruct (li_natural _ _ Hinv k' id Hn) as (a' & Ha' & Hk').
      exists a'. rewrite map_get_set_ne; [done|]. intros <-. by rewrite Hfresh in Ha'.
  - apply Hinv.
  - intros id x Hx. destruct (li_transactions _ _ Hinv id x Hx). split; [done|eapply minted_mono; [|done]; lia].
  - apply Hinv.
  - intros e He. destruct (li_entries _ _ Hinv e He) as (? & x & ? & ?). split; [done|].
    exists x. rewrite Hasset by auto. done.
  - apply Hinv.
  - intros asset. rewrite <- (li_assets _ _ Hinv asset). apply sum_by_ext. intros e He.
    unfold in_asset. by rewrite Hasset by auto.
Qed.

(** Nothing on the books is removed or changed. *)
Record ledger_extends (t t' : Ledger) : Prop := {
  lx_accounts : forall id a, map_get id (accounts t) = Some a -> map_get id (accounts t') = Some a;
  lx_transactions : forall id x, map_get id (transactions t) = Some x -> map_get id (transactions t') = Some x;
  lx_keys : forall k id, map_get k (transactionIdsByIdempotencyKey t) = Some id ->
    map_get k (transactionIdsByIdempotencyKey t') = Some id;
  lx_entries : forall id x, map_get id (transactions t) = Some x ->
    entries_of_transaction t' id = entries_of_transaction t id }.

#[export] Instance ledger_extends_preorder : PreOrder ledger_extends.
Proof.
  split.
  - intros t. by split.
  - intros a b c [] []. split; auto. intros id x Hx. rewrite <- (lx_entries0 id x Hx). eauto.
Qed.

Lemma fresh_account n t id : LedgerInv n t -> id = id_of "ledger_account" n -> map_get id (accounts t) = None.
Proof.
  intros Hinv ->. destruct (map_get _ _) as [a|] eqn:E; [|done].
  apply (li_accounts _ _ Hinv) in E as [_ Hm]. by apply minted_fresh in Hm.
Qed.

Lemma fresh_transaction n t id : LedgerInv n t -> id = id_of "ledger_transaction" n -> map_get id (transactions t) = None.
Proof.
  intros Hinv ->. destruct (map_get _ _) as [a|] eqn:E; [|done].
  apply (li_transactions _ _ Hinv) in E as [_ Hm]. by apply minted_fresh in Hm.
Qed.

Lemma extends_add_account n t a k :
  LedgerInv n t -> la_ledgerAccountId a = id_of "ledger_account" n -> ledger_extends t (add_account a k t).
Proof.
  intros Hinv Hid%(fresh_account _ _ _ Hinv). split; try done. intros id a' Ha. cbn. rewrite map_get_set_ne; [done|].
  intros E. rewrite E in Hid. congruence.
Qed.

Abbreviation safe := (keeps LedgerInv ledger_extends).

(** Closes a leaf of a symbolic execution that did not touch the ledger. *)
Ltac unchanged := apply (kept_same _ _ LedgerInv_mono); [assumption|cbn [fst]; grows].

Lemma wp_createLedgerAccount ot oid asset ty side now (Q : LedgerAccount -> Sys * Ledger -> Prop) E y t :
  (forall y', uuids y' = S (uuids y) -> grows y y' ->
     Q (MkLedgerAccount (id_of "ledger_account" (uuids y))
          (hashId "ledger_account" (JObj [("ownerType", JStr ot); ("ownerId", JStr oid);
             ("assetId", JStr asset); ("accountType", JStr (value ty))]))
          ot oid asset ty side LedgerAccountStatus_ACTIVE (toISOString now)) (y', t)) ->
  wp (sys (createLedgerAccount ot oid asset ty side now)) Q E (y, t).
Proof. intros HQ. apply wp_sys_bind, wp_bind, wp_new_id. intros y' Hu Hg. apply wp_sys_ret. by apply HQ. Qed.

(** The account [openAccount] returns: the one it found or a new one, with the
    asset and the normal side asked for. *)
Definition opened (i : OpenAccount) (a : LedgerAccount) (t : Ledger) : Prop :=
  map_get (la_ledgerAccountId a) (accounts t) = Some a /\
  la_normalSide a = oa_normalSide i /\ la_status a = LedgerAccountStatus_ACTIVE /\
  natural_key (la_ownerType a) (la_ownerId a) (la_assetId a) (la_accountType a) =
    natural_key (oa_ownerType i) (oa_ownerId i) (oa_assetId i) (oa_accountType i).

Lemma wp_openAccount i y t :
  LedgerInv (uuids y) t ->
  wp (openAccount i) (fun a s => kept LedgerInv ledger_extends y t s /\ entries s.2 = entries t /\ opened i a s.2)
    (fun _ s => kept LedgerInv ledger_extends y t s /\ entries s.2 = entries t) (y, t).
Proof.
  intros Hi. unfold openAccount. do 2 svc_step.
  do 5 (svc_step; svc_step; [split; [unchanged|done]|]). do 2 svc_step. cbn [id].
  destruct (truthy _) as [existingId|] eqn:Hk.
  { svc_step. svc_step; [split; [unchanged|done]|]. svc_step. svc_step; [split; [unchanged|done]|]. svc_step. split; [unchanged|]. split; [done|].
    unfold requireAccount in *. destruct (map_get existingId (accounts t)) as [a'|] eqn:Ha; result_inv.
    destruct (li_accounts _ _ Hi _ _ Ha) as [Hid _]. unfold opened. rewrite Hid.
    apply truthy_Some, (li_natural _ _ Hi) in Hk as (acc & Hacc & Hk). rewrite Ha in Hacc. injection Hacc as <-.
    split_and!; [done| |by eapply (li_active _ _ Hi)|done].
    match goal with E : negb (bool_decide _) = false |- _ => by apply negb_false_iff, bool_decide_eq_true in E end. }
  apply wp_bind, wp_createLedgerAccount. intros y2 Hu2 Hg2. cbv beta.
  match goal with |- context [add_account ?a0 _] => set (acc := a0) end.
  assert (Hi' : LedgerInv (uuids y') t) by (eapply LedgerInv_mono; [|done]; apply gr_uuids; grows).
  assert (Hn : LedgerInv (uuids y2) (add_account acc (natural_key (oa_ownerType i) (oa_ownerId i) (oa_assetId i) (oa_accountType i)) t)).
  { rewrite Hu2. by apply LedgerInv_add_account. }
  assert (Hx := extends_add_account _ t acc (natural_key (oa_ownerType i) (oa_ownerId i) (oa_assetId i) (oa_accountType i)) Hi' eq_refl).
  svc_steps; (split; [eapply kept_step; [apply LedgerInv_mono|done| | |done]; grows|]); [|done].
  split; [done|]. unfold opened. cbn [snd add_account accounts]. by rewrite map_get_set_eq.
Qed.

Lemma openAccount_safe i : safe (openAccount i).
Proof. intros y t Hi. eapply wp_mono; [by apply wp_openAccount|..]; by intros ? ? [? _]. Qed.

(** ** Posting a transaction *)

Lemma normalize_accounts t t' asset seen seq l :
  accounts t = accounts t' -> normalize t asset seen seq l = normalize t' asset seen seq l.
Proof.
  intros Ha. revert seen seq. induction l as [|e l IH]; intros seen seq; cbn [normalize]; [done|].
  unfold requireAccount. rewrite Ha, IH. done.
Qed.

Lemma check_posting_accounts t t' i : accounts t = accounts t' -> check_posting t i = check_posting t' i.
Proof. intros Ha. unfold check_posting. by rewrite (normalize_accounts t t'). Qed.

Lemma normalize_Ok t asset seen seq l r :
  normalize t asset seen seq l = Ok r ->
  length r = length l /\
  Forall (fun e => 0 < ne_amountMinor e /\ asset_of t (ne_ledgerAccountId e) = Some asset) r.
Proof.
  revert seen seq r. induction l as [|e l IH]; intros seen seq r; cbn [normalize]; [by intros [= <-]|].
  intros K. result_inv.
  match goal with E : normalize _ _ _ _ _ = _ |- _ => apply IH in E as [Hl HF] end.
  split; [by cbn; f_equal|]. constructor; [|done]. cbn. split.
  - by eapply assertPositiveMinorUnits_pos.
  - unfold asset_of, requireAccount in *. destruct (map_get _ _) as [a|]; result_inv. cbn. f_equal.
    match goal with E : negb (String.eqb _ _) = false |- _ => by apply negb_false_iff, String.eqb_eq in E end.
Qed.

Lemma total_of_sum d l :
  total_of d l = sum_by (fun e => if decide (ne_direction e = d) then ne_amountMinor e else 0) l.
Proof.
  unfold total_of. rewrite foldl_sum, Z.add_0_l. induction l as [|e l IH]; [done|]. cbn [List.filter].
  rewrite (sum_by_cons _ e l). case_bool_decide; destruct (decide _); try done; rewrite ?sum_by_cons; lia.
Qed.

Lemma totals_balance l :
  total_of LedgerEntryDirection_DEBIT l - total_of LedgerEntryDirection_CREDIT l = sum_by normal_signed l.
Proof.
  rewrite !total_of_sum. induction l as [|e l IH]; [done|]. rewrite !sum_by_cons.
  change (normal_signed e) with (signed (ne_direction e) (ne_amountMinor e)).
  destruct (ne_direction e); cbn [signed]; repeat destruct (decide _); try done; lia.
Qed.

Lemma check_posting_Ok t i l :
  check_posting t i = Ok l ->
  (2 <= length l)%nat /\ sum_by normal_signed l = 0 /\
  Forall (fun e => 0 < ne_amountMinor e /\ asset_of t (ne_ledgerAccountId e) = Some (pt_assetId i)) l.
Proof.
  unfold check_posting. intros K. result_inv.
  match goal with E : normalize _ _ _ _ _ = _ |- _ => apply normalize_Ok in E as [Hl HF] end.
  match goal with E : (_ <? 2)%nat = false |- _ => apply Nat.ltb_ge in E end.
  rewrite <- totals_balance. split_and!; [lia|lia|done].
Qed.

(** The entry stored for a validated entry. *)
Definition stored_as (id : string) (n : NormalEntry) (e : LedgerEntry) : Prop :=
  le_ledgerTransactionId e = id /\ le_ledgerAccountId e = ne_ledgerAccountId n /\
  le_direction e = ne_direction n /\ le_amountMinor e = ne_amountMinor n /\ le_sequence e = ne_sequence n.

Lemma wp_createLedgerEntry {T} id now n (Q : LedgerEntry -> Sys * T -> Prop) E y t :
  (forall e y', stored_as id n e -> grows y y' -> Q e (y', t)) ->
  wp (sys (createLedgerEntry id now n)) Q E (y, t).
Proof.
  intros HQ. unfold createLedgerEntry. apply wp_sys_bind, wp_bind, wp_new_id. intros y1 _ Hg1. cbv beta.
  apply wp_sys_ret, HQ; [by split_and!|done].
Qed.

Lemma wp_storeEntries {T} id now l (Q : list LedgerEntry -> Sys * T -> Prop) E y t :
  (forall es y', Forall2 (stored_as id) l es -> grows y y' -> Q es (y', t)) ->
  wp (sys (map_m (createLedgerEntry id now) l)) Q E (y, t).
Proof.
  revert Q y. induction l as [|n l IH]; intros Q y HQ; cbn [map_m].
  - apply wp_sys_ret, HQ; [constructor|reflexivity].
  - apply wp_sys_bind, wp_bind, wp_createLedgerEntry. intros e y1 He Hg1. cbv beta.
    apply wp_sys_bind, wp_bind, IH. intros es y2 Hes Hg2. cbv beta.
    apply wp_sys_ret, HQ; [by constructor|grows].
Qed.

Lemma stored_signed id l es : Forall2 (stored_as id) l es -> sum_by entry_signed es = sum_by normal_signed l.
Proof.
  induction 1 as [|n e l es (_ & _ & Hd & Ha & _) _ IH]; [done|]. rewrite !sum_by_cons, IH.
  unfold entry_signed, normal_signed. congruence.
Qed.

Lemma filter_none {A} (f : A -> bool) l : (forall x, x ∈ l -> f x = false) -> List.filter f l = [].
Proof.
  induction l as [|x l IH]; intros Hf; [done|]. cbn. rewrite (Hf x) by left. apply IH. intros. apply Hf. by right.
Qed.
Lemma filter_all {A} (f : A -> bool) l : (forall x, x ∈ l -> f x = true) -> List.filter f l = l.
Proof.
  induction l as [|x l IH]; intros Hf; [done|]. cbn. rewrite (Hf x) by left. f_equal. apply IH. intros. apply Hf. by right.
Qed.

(** The invariant after a balanced posting under a new transaction id. *)
Lemma LedgerInv_add_transaction n t x l es :
  LedgerInv n t -> lt_ledgerTransactionId x = id_of "ledger_transaction" n ->
  map_get (lt_idempotencyKey x) (transactionIdsByIdempotencyKey t) = None ->
  Forall2 (stored_as (lt_ledgerTransactionId x)) l es -> (2 <= length l)%nat -> sum_by normal_signed l = 0 ->
  Forall (fun e => 0 < ne_amountMinor e /\ asset_of t (ne_ledgerAccountId e) = Some (lt_assetId x)) l ->
  LedgerInv (S n) (add_transaction x es t).
Proof.
  intros Hinv Hid Hkey Hst Hlen Hsum HF. set (xid := lt_ledgerTransactionId x) in *.
  assert (Hfresh : map_get xid (transactions t) = None).
  { destruct (map_get xid (transactions t)) as [x'|] eqn:E; [|done].
    apply (li_transactions _ _ Hinv) in E as [_ Hm]. apply minted_fresh in Hm. congruence. }
  assert (Hold : forall e, e ∈ entries t -> le_ledgerTransactionId e <> xid).
  { intros e He Heq. apply (li_entries _ _ Hinv) in He as (_ & x' & Hx' & _). rewrite Heq in Hx'. congruence. }
  assert (Hnew : forall e, e ∈ es -> le_ledgerTransactionId e = xid /\ 0 < le_amountMinor e /\
                   asset_of t (le_ledgerAccountId e) = Some (lt_assetId x)).
  { intros e (k & He)%list_elem_of_lookup_1. destruct (Forall2_lookup_r _ _ _ _ _ Hst He) as (ne & Hne & ? & Ha & _ & Hm & _).
    rewrite Forall_forall in HF. destruct (HF ne) as [? ?]; [by eapply list_elem_of_lookup_2|]. rewrite Hm, Ha. done. }
  assert (Hof : forall id, entries_of_transaction (add_transaction x es t) id =
     if decide (id = xid) then es else entries_of_transaction t id).
  { intros id. unfold entries_of_transaction. cbn. rewrite List.filter_app. case_decide as E.
    - rewrite (filter_none _ (entries t)), (filter_all _ es); [done|..]; intros e He.
      + rewrite E. apply String.eqb_eq. by apply Hnew.
      + rewrite E. apply String.eqb_neq. by apply Hold.
    - rewrite (filter_none _ es); [by rewrite app_nil_r|]. intros e He. apply String.eqb_neq.
      destruct (Hnew e He) as [-> _]. congruence. }
  split; cbn [add_transaction accounts accountIdsByNaturalKey transactions transactionIdsByIdempotencyKey entries]; fold xid.
  - apply Hinv.
  - intros id a Ha. destruct (li_accounts _ _ Hinv id a Ha). split; [done|eapply minted_mono; [|done]; lia].
  - apply Hinv.
  - apply Hinv.
  - apply map_set_NoDup, Hinv.
  - intros id x'. rewrite map_get_set. case_decide as E.
    + intros [= <-]. split; [done|]. rewrite <- E, Hid. apply minted_new.
    + intros Hx. destruct (li_transactions _ _ Hinv id x' Hx). split; [done|eapply minted_mono; [|done]; lia].
  - intros k id. rewrite map_get_set. case_decide as E.
    + intros [= <-]. exists x. by rewrite map_get_set_eq.
    + intros Hk. destruct (li_idempotency _ _ Hinv k id Hk) as (x' & Hx' & Hk').
      exists x'. rewrite map_get_set_ne; [done|]. intros E2. rewrite <- E2 in Hx'. congruence.
  - intros e [He|He]%elem_of_app.
    + destruct (li_entries _ _ Hinv e He) as (? & x' & Hx' & ?). split; [done|]. exists x'.
      rewrite map_get_set_ne; [done|]. intros E. by apply (Hold e He).
    + destruct (Hnew e He) as (-> & ? & ?). split; [done|]. exists x. by rewrite map_get_set_eq.
  - intros id x'. rewrite Hof, map_get_set. case_decide as E; case_decide as E'; try congruence.
    + intros _. rewrite <- (Forall2_length _ _ _ Hst), (stored_signed _ _ _ Hst). split; [lia|done].
    + apply (li_balanced _ _ Hinv).
  - intros asset. rewrite sum_by_app. change (in_asset (add_transaction x es t)) with (in_asset t).
    rewrite (li_assets _ _ Hinv asset), Z.add_0_l.
    transitivity (sum_by (fun e => if decide (lt_assetId x = asset) then entry_signed e else 0) es).
    { apply sum_by_ext. intros e He. unfold in_asset. destruct (Hnew e He) as (_ & _ & ->).
      destruct (decide (Some _ = Some asset)), (decide (lt_assetId x = asset)); congruence. }
    case_decide; [change (sum_by entry_signed es = 0); by rewrite (stored_signed _ _ _ Hst)|]. by apply sum_by_zero.
Qed.

(** A new transaction [x] with entries [es] was recorded for the input [i]. *)
Record recorded (n : nat) (t : Ledger) (i : PostTransaction) (x : LedgerTransaction) (es : list LedgerEntry)
    (t' : Ledger) : Prop := {
  rc_new : truthy (map_get (pt_idempotencyKey i) (transactionIdsByIdempotencyKey t)) = None;
  rc_entries : exists l, check_posting t i = Ok l /\ Forall2 (stored_as (lt_ledgerTransactionId x)) l es /\
                 lt_transactionHash x = transaction_hash i l;
  rc_id : exists k, (n <= k)%nat /\ lt_ledgerTransactionId x = id_of "ledger_transaction" k;
  rc_key : lt_idempotencyKey x = pt_idempotencyKey i;
  rc_asset : lt_assetId x = pt_assetId i;
  rc_state : t' = add_transaction x es t }.

(** [i] was a replay: its key names [x], which has the same hash. *)
Record replays (t : Ledger) (i : PostTransaction) (x : LedgerTransaction) : Prop := {
  rp_key : truthy (map_get (pt_idempotencyKey i) (transactionIdsByIdempotencyKey t)) = Some (lt_ledgerTransactionId x);
  rp_entries : exists l, check_posting t i = Ok l /\ lt_transactionHash x = transaction_hash i l;
  rp_stored : map_get (lt_ledgerTransactionId x) (transactions t) = Some x }.

Lemma LedgerInv_key n t k id :
  LedgerInv n t -> map_get k (transactionIdsByIdempotencyKey t) = Some id -> truthy (Some id) = Some id.
Proof.
  intros Hinv (x & Hx & _)%(li_idempotency _ _ Hinv). apply (li_transactions _ _ Hinv) in Hx as [_ Hm].
  by eapply truthy_id.
Qed.

Lemma recorded_extends n t i x es t' : LedgerInv n t -> recorded n t i x es t' -> ledger_extends t t'.
Proof.
  intros Hi [Hnew (l & _ & Hst & _) (k & Hk & Hid) Hkey _ ->].
  apply (LedgerInv_mono _ k) in Hi; [|done]. pose proof (fresh_transaction _ _ _ Hi Hid) as Hf. split; cbn; try done.
  - intros id x' Hx. rewrite map_get_set_ne; [done|]. intros E. rewrite E in Hf. congruence.
  - intros k' id Hk'. rewrite map_get_set_ne; [done|]. intros E. rewrite Hkey in E. rewrite E, Hk' in Hnew.
    rewrite (LedgerInv_key _ _ _ _ Hi Hk') in Hnew. done.
  - intros id x' Hx. unfold entries_of_transaction. cbn. rewrite List.filter_app, (filter_none _ es); [by rewrite app_nil_r|].
    intros e (j & He)%list_elem_of_lookup_1. destruct (Forall2_lookup_r _ _ _ _ _ Hst He) as (ne & _ & -> & _).
    apply String.eqb_neq. intros E. rewrite E in Hf. congruence.
Qed.

Lemma wp_postTransaction i y t :
  LedgerInv (uuids y) t ->
  wp (postTransaction i)
    (fun v s => grows y s.1 /\
       ((v.2 = true /\ s.2 = t /\ exists x, replays t i x /\ getTransaction t (lt_ledgerTransactionId x) = Ok v.1) \/
        (v.2 = false /\ exists x es, recorded (uuids y) t i x es s.2 /\ LedgerInv (uuids s.1) s.2 /\
           getTransaction s.2 (lt_ledgerTransactionId x) = Ok v.1)))
    (fun _ s => grows y s.1 /\
       (s.2 = t \/ exists x es, recorded (uuids y) t i x es s.2 /\ LedgerInv (uuids s.1) s.2)) (y, t).
Proof.
  intros Hi. unfold postTransaction. do 2 svc_step. rename y' into y1. svc_step. apply wp_own. cbn [id].
  svc_step. apply wp_lift; [intros; split; [cbn; grows|by left]|]. intros l Hl. cbv zeta.
  destruct (truthy _) as [existingId|] eqn:Hkey.
  - svc_step. apply wp_lift; [intros; split; [cbn; grows|by left]|]. intros x Hx.
    destruct (map_get existingId (transactions t)) as [x'|] eqn:Hg; [injection Hx as ->|done].
    destruct (li_transactions _ _ Hi _ _ Hg) as [Hxid _].
    svc_step. apply wp_throw_if; [intros; split; [cbn; grows|by left]|]. intros Hh%negb_false_iff%String.eqb_eq.
    svc_step. apply wp_lift; [intros; split; [cbn; grows|by left]|]. intros v Hv. svc_step.
    split; [cbn; grows|]. left. split_and!; try done. exists x. rewrite Hxid. split; [|done].
    split; rewrite ?Hxid; try done. by exists l.
  - apply wp_bind. unfold createLedgerTransaction. apply wp_sys_bind, wp_bind, wp_new_id. intros y2 Hu2 Hg2. cbv beta.
    apply wp_sys_ret. cbn [lt_transactionHash lt_ledgerTransactionId lt_debitTotalMinor lt_creditTotalMinor lt_entryCount].
    apply wp_bind, wp_throw_if; [by rewrite String.eqb_refl|]. intros _.
    apply wp_bind, wp_storeEntries. intros es y3 Hes Hg3. cbv beta. apply wp_bind, wp_update.
    match goal with |- context [add_transaction ?x es t] => set (x0 := x) in * end.
    assert (Hrec : recorded (uuids y) t i x0 es (add_transaction x0 es t)).
    { split; try done; [by exists l|]. exists (uuids y1). split; [apply gr_uuids; grows|done]. }
    assert (Hinv : LedgerInv (uuids y3) (add_transaction x0 es t)).
    { apply check_posting_Ok in Hl as (? & ? & ?). eapply (LedgerInv_mono (S (uuids y1))); [rewrite <- Hu2; apply gr_uuids; grows|].
      eapply (LedgerInv_add_transaction _ _ _ l); try done; [by apply (LedgerInv_mono (uuids y)); [apply gr_uuids; grows|]|].
      cbn. destruct (map_get _ _) as [id|] eqn:E; [|done].
      apply (li_idempotency _ _ Hi) in E as (x' & Hx' & _). apply (li_transactions _ _ Hi) in Hx' as [_ Hm].
      by rewrite (truthy_id _ _ _ Hm) in Hkey. }
    apply wp_bind, wp_sys; [apply growing_emit|..].
    2: { intros e y4 Hg4. split; [cbn; grows|]. right. exists x0, es. split; [done|].
         eapply LedgerInv_mono; [|done]. by apply gr_uuids. }
    intros _ y4 Hg4. cbv beta. apply wp_bind, wp_own. cbn [id]. apply wp_bind, wp_lift.
    { intros. split; [cbn; grows|]. right. exists x0, es. split; [done|].
      eapply LedgerInv_mono; [|done]. by apply gr_uuids. }
    intros v Hv. cbv beta. apply wp_ret. split; [cbn; grows|]. right. split; [done|]. exists x0, es.
    split_and!; [done| |done]. eapply LedgerInv_mono; [|done]. by apply gr_uuids.
Qed.

Lemma postTransaction_safe i : safe (postTransaction i).
Proof.
  intros y t Hi. eapply wp_mono; [by apply wp_postTransaction|..].
  - intros v [y' t'] (Hg & [(_ & Hs & _)|(_ & x & es & Hr & ? & _)]); cbn in Hs || split_and!; try done.
    + subst. by apply (kept_same _ _ LedgerInv_mono).
    + by eapply recorded_extends.
  - intros v [y' t'] (Hg & [Hs|(x & es & Hr & ?)]); cbn in Hs || split_and!; try done.
    + subst. by apply (kept_same _ _ LedgerInv_mono).
    + by eapply recorded_extends.
Qed.

(** ** Balances *)

Lemma sum_where_sum f l : sum_where f l = sum_by (fun e => if f e then le_amountMinor e else 0) l.
Proof.
  unfold sum_where. rewrite foldl_sum, Z.add_0_l. induction l as [|e l IH]; [done|]. cbn [List.filter].
  rewrite (sum_by_cons _ e l). destruct (f e); rewrite ?sum_by_cons; lia.
Qed.

(** Debits less credits among the entries a test selects. *)
Lemma sum_where_signed f l :
  sum_where (fun e => f e && bool_decide (le_direction e = LedgerEntryDirection_DEBIT)) l -
  sum_where (fun e => f e && bool_decide (le_direction e = LedgerEntryDirection_CREDIT)) l =
  sum_by (fun e => if f e then entry_signed e else 0) l.
Proof.
  rewrite !sum_where_sum. induction l as [|e l IH]; [done|]. rewrite !sum_by_cons.
  assert (He : entry_signed e = signed (le_direction e) (le_amountMinor e)) by done. rewrite He.
  destruct (f e), (le_direction e); repeat case_bool_decide; try done; cbn [andb signed]; lia.
Qed.

Lemma violates_none n t : LedgerInv n t -> List.filter (violates t) (map_values (transactions t)) = [].
Proof.
  intros Hinv. apply filter_none. intros x ([k x'] & -> & Hx)%list_elem_of_fmap. cbn [snd].
  apply elem_map_get in Hx; [|apply Hinv]. destruct (li_transactions _ _ Hinv _ _ Hx) as [Hid _].
  destruct (li_balanced _ _ Hinv _ _ Hx) as [Hlen Hsum]. unfold violates. rewrite Hid.
  rewrite (proj2 (Nat.ltb_ge _ _) Hlen). cbn [orb].
  pose proof (sum_where_signed (fun _ => true) (entries_of_transaction t k)) as Hs. cbn [andb] in Hs.
  change (sum_by (fun e => entry_signed e) (entries_of_transaction t k)) with
    (sum_by entry_signed (entries_of_transaction t k)) in Hs.
  rewrite negb_false_iff, Z.eqb_eq. lia.
Qed.

Lemma selected_asset n t asset id :
  LedgerInv n t ->
  id ∈ map la_ledgerAccountId (listAccounts t (fun a => String.eqb (la_assetId a) asset)) <->
  asset_of t id = Some asset.
Proof.
  intros Hinv. unfold listAccounts, asset_of. rewrite list_elem_of_In, in_map_iff. split.
  - intros (a & Hid & [Hin Ha%String.eqb_eq]%filter_In). apply list_elem_of_In in Hin.
    apply list_elem_of_fmap in Hin as ([k a'] & -> & Hin). cbn [snd] in *.
    apply elem_map_get in Hin; [|apply Hinv]. destruct (li_accounts _ _ Hinv _ _ Hin) as [Hk _].
    rewrite <- Hid, Hk, Hin. cbn. by rewrite Ha.
  - destruct (map_get id (accounts t)) as [a|] eqn:E; [|done]. cbn. intros [= Ha]. exists a.
    destruct (li_accounts _ _ Hinv _ _ E) as [Hk _]. split; [done|]. apply filter_In.
    split; [|by apply String.eqb_eq]. apply list_elem_of_In. by eapply map_get_value.
Qed.

Lemma trial_balance n t asset b :
  LedgerInv n t -> getTrialBalance t asset = Ok b -> tb_balanced b = true.
Proof.
  intros Hinv. unfold getTrialBalance. intros K. result_inv. cbn. apply Z.eqb_eq.
  pose (f := fun e => bool_decide (le_ledgerAccountId e ∈
    map la_ledgerAccountId (listAccounts t (fun a => String.eqb (la_assetId a) asset)))).
  change (sum_where (fun e => f e && bool_decide (le_direction e = LedgerEntryDirection_DEBIT)) (entries t) =
    sum_where (fun e => f e && negb (bool_decide (le_direction e = LedgerEntryDirection_DEBIT))) (entries t)).
  pose proof (sum_where_signed f (entries t)) as Hs.
  assert (Hz : sum_by (fun e => if f e then entry_signed e else 0) (entries t) = 0).
  { transitivity (sum_by (in_asset t asset) (entries t)); [|apply Hinv].
    apply sum_by_ext. intros e _. unfold f, in_asset.
    case_bool_decide as Hsel; rewrite (selected_asset n t asset _ Hinv) in Hsel;
      destruct (decide (asset_of t (le_ledgerAccountId e) = Some asset)); tauto. }
  assert (Hc : sum_where (fun e => f e && negb (bool_decide (le_direction e = LedgerEntryDirection_DEBIT))) (entries t) =
               sum_where (fun e => f e && bool_decide (le_direction e = LedgerEntryDirection_CREDIT)) (entries t)).
  { rewrite !sum_where_sum. apply sum_by_ext. intros e _. by destruct (f e), (le_direction e). }
  rewrite Hc. lia.
Qed.

(** ** The balance of an account *)

Definition on_account (id : string) (e : LedgerEntry) : Z :=
  if String.eqb (le_ledgerAccountId e) id then entry_signed e else 0.
(** Debits less credits. *)
Definition net (t : Ledger) (id : string) : Z := sum_by (on_account id) (entries t).
Definition side (a : LedgerAccount) (z : Z) : Z :=
  if bool_decide (la_normalSide a = LedgerNormalSide_DEBIT) then z else - z.

(** What a posting adds to an account. *)
Definition posted_to (id : string) (e : NormalEntry) : Z :=
  if String.eqb (ne_ledgerAccountId e) id then normal_signed e else 0.

Lemma getAccountBalance_net t id a :
  map_get id (accounts t) = Some a -> getAccountBalance t id = Ok (side a (net t id)).
Proof.
  intros Ha. unfold getAccountBalance, getAccountTurnover, requireAccount. rewrite Ha. cbn [mbind result_bind].
  assert (Hd : forall d : LedgerEntryDirection, assertEnumValue "direction" (value d) (enumValues LedgerEntryDirection) = Ok ())
    by (by intros []). rewrite !Hd. cbn [mbind result_bind].
  pose proof (sum_where_signed (fun e => String.eqb (le_ledgerAccountId e) id) (entries t)) as Hs. cbv beta in Hs.
  change (sum_by (fun e => if String.eqb (le_ledgerAccountId e) id then entry_signed e else 0) (entries t))
    with (net t id) in Hs. f_equal. unfold side. case_bool_decide; lia.
Qed.

Lemma net_add_transaction x es l t id :
  Forall2 (stored_as (lt_ledgerTransactionId x)) l es ->
  net (add_transaction x es t) id = net t id + sum_by (posted_to id) l.
Proof.
  intros Hst. unfold net. cbn [add_transaction entries]. rewrite sum_by_app. f_equal.
  induction Hst as [|ne e l es (_ & Ha & Hd & Hm & _) _ IH]; [done|]. rewrite !sum_by_cons, IH. f_equal.
  unfold on_account, posted_to, entry_signed, normal_signed. by rewrite Ha, Hd, Hm.
Qed.

Lemma net_recorded n t i x es t' id :
  recorded n t i x es t' ->
  exists l, check_posting t i = Ok l /\ net t' id = net t id + sum_by (posted_to id) l.
Proof.
  intros [_ (l & Hl & Hst & _) _ _ _ ->]. exists l. split; [done|]. by apply net_add_transaction.
Qed.

Lemma net_absent n t id : LedgerInv n t -> map_get id (accounts t) = None -> net t id = 0.
Proof.
  intros Hinv Hn. apply sum_by_zero. intros e He. unfold on_account.
  destruct (String.eqb_spec (le_ledgerAccountId e) id) as [E|]; [|done].
  apply (li_entries _ _ Hinv) in He as (_ & x & _ & Ha). unfold asset_of in Ha. by rewrite E, Hn in Ha.
Qed.

(** ** Replays *)

Lemma normalize_extends t t' asset seen seq l r :
  ledger_extends t t' -> normalize t asset seen seq l = Ok r -> normalize t' asset seen seq l = Ok r.
Proof.
  intros Hx. revert seen seq r. induction l as [|e l IH]; intros seen seq r; cbn [normalize]; [done|].
  intros K. unfold requireAccount in *. result_inv.
  destruct (map_get (ei_ledgerAccountId e) (accounts t)) as [a|] eqn:Ha; [|done].
  rewrite (lx_accounts _ _ Hx _ _ Ha). result_inv.
  repeat match goal with E : ?m = Ok _ |- context [?m] => rewrite E; cbn [mbind result_bind] end.
  repeat match goal with |- context [guard ?c ?x ?y] => rewrite (proj2 (guard_Ok c x y ())) by done; cbn [mbind result_bind] end.
  erewrite IH by done. done.
Qed.
Lemma check_posting_extends t t' i l :
  ledger_extends t t' -> check_posting t i = Ok l -> check_posting t' i = Ok l.
Proof.
  unfold check_posting. intros Hx K. apply bind_Ok in K as (u & E & K). rewrite E. cbn [mbind result_bind].
  do 6 (apply bind_Ok in K as ([] & E' & K); rewrite E'; clear E'; cbn [mbind result_bind]).
  apply bind_Ok in K as (r & E' & K). by rewrite (normalize_extends _ _ _ _ _ _ _ Hx E').
Qed.

Lemma getTransaction_extends t t' id v :
  ledger_extends t t' -> getTransaction t id = Ok v -> getTransaction t' id = Ok v.
Proof.
  unfold getTransaction. intros Hx. destruct (map_get id (transactions t)) as [x|] eqn:Hg; [|done].
  by rewrite (lx_transactions _ _ Hx _ _ Hg), (lx_entries _ _ Hx _ _ Hg).
Qed.

(** A posting that is on the books already is answered from them. *)
Lemma postTransaction_replayed n y t i x l v :
  LedgerInv n t -> check_posting t i = Ok l ->
  map_get (pt_idempotencyKey i) (transactionIdsByIdempotencyKey t) = Some (lt_ledgerTransactionId x) ->
  map_get (lt_ledgerTransactionId x) (transactions t) = Some x -> lt_transactionHash x = transaction_hash i l ->
  getTransaction t (lt_ledgerTransactionId x) = Ok v ->
  wp (postTransaction i) (fun w s => w = (v, true) /\ s.2 = t /\ grows y s.1) (fun _ _ => False) (y, t).
Proof.
  intros Hinv Hl Hk Hg Hh Hv. unfold postTransaction. svc_step. apply wp_now. intros now y1 _ Hg1. cbv beta.
  apply wp_bind, wp_own. cbn [id]. apply wp_bind, wp_lift; rewrite Hl; [done|]. intros l' [= <-]. cbv beta zeta.
  rewrite Hk, (LedgerInv_key _ _ _ _ Hinv Hk), Hg. apply wp_bind, wp_lift; [done|]. intros x' [= <-]. cbv beta.
  rewrite Hh, String.eqb_refl, Hv. apply wp_bind, wp_throw_if; [done|]. intros _. cbv beta.
  apply wp_bind, wp_lift; [done|]. intros v' [= <-]. by apply wp_ret.
Qed.

(** What an input moves on an account. *)
Definition input_amount (e : EntryInput) : Z :=
  match assertPositiveMinorUnits (ei_amountMinor e) "amountMinor" with Ok z => z | Err _ => 0 end.
Definition moved (i : PostTransaction) (id : string) : Z :=
  sum_by (fun e => if String.eqb (ei_ledgerAccountId e) id then signed (ei_direction e) (input_amount e) else 0)
    (pt_entries i).

Lemma normalize_moved t asset seen seq l r id :
  normalize t asset seen seq l = Ok r ->
  sum_by (posted_to id) r =
  sum_by (fun e => if String.eqb (ei_ledgerAccountId e) id then signed (ei_direction e) (input_amount e) else 0) l.
Proof.
  revert seen seq r. induction l as [|e l IH]; intros seen seq r; cbn [normalize]; [by intros [= <-]|].
  intros K. result_inv. rewrite !sum_by_cons. erewrite IH by done. f_equal.
  unfold posted_to, normal_signed, input_amount. cbn.
  by match goal with E : assertPositiveMinorUnits _ _ = Ok _ |- _ => rewrite E end.
Qed.

Lemma check_posting_moved t i l id : check_posting t i = Ok l -> sum_by (posted_to id) l = moved i id.
Proof. unfold check_posting. intros K. result_inv. by eapply normalize_moved. Qed.

(** ** Executions *)

Inductive ledger_call := CallOpenAccount (i : OpenAccount) | CallPostTransaction (i : PostTransaction).

Definition run_ledger (c : ledger_call) : M (Sys * Ledger) unit :=
  match c with
  | CallOpenAccount i => openAccount i ;; mret ()
  | CallPostTransaction i => postTransaction i ;; mret ()
  end.

Lemma run_ledger_safe c : safe (run_ledger c).
Proof.
  destruct c; (apply keeps_bind; [apply _| |intros ?; apply keeps_ret; [apply _|apply LedgerInv_mono]]);
    auto using openAccount_safe, postTransaction_safe.
Qed.

Lemma run_ledger_ok cs y : LedgerInv (uuids (exec run_ledger cs (y, empty_ledger)).1) (exec run_ledger cs (y, empty_ledger)).2.
Proof. apply (exec_kept _ _ LedgerInv_mono run_ledger cs y empty_ledger run_ledger_safe), LedgerInv_empty. Qed.

(** C2: the books always balance.  After any sequence of calls from an empty
    ledger, whichever of them threw, [verifyIntegrity] reports no violation and
    the trial balance of every asset balances. *)
Theorem ledger_always_balanced cs y :
  let t := (exec run_ledger cs (y, empty_ledger)).2 in
  verifyIntegrity t = MkIntegrity true (Z.of_nat (length (transactions t))) [] /\
  forall asset b, getTrialBalance t asset = Ok b -> tb_balanced b = true.
Proof.
  intros t. pose proof (run_ledger_ok cs y) as Hinv. fold t in Hinv. split.
  - unfold verifyIntegrity. by rewrite (violates_none _ _ Hinv).
  - intros asset b. by eapply trial_balance.
Qed.

(** C33: posting is idempotent.  Once a posting has returned, posting the same
    input again, after any other calls, returns the same transaction and
    entries marked as a replay, and leaves the ledger as it is. *)
Theorem posting_idempotent cs y i v b s1 more :
  postTransaction i (exec run_ledger cs (y, empty_ledger)) = (Ok (v, b), s1) ->
  exists y', postTransaction i (exec run_ledger more s1) = (Ok (v, true), (y', (exec run_ledger more s1).2)).
Proof.
  intros Hrun. pose proof (run_ledger_ok cs y) as Hi. destruct (exec run_ledger cs _) as [y0 t0]. cbn [fst snd] in Hi.
  pose proof (wp_run _ _ _ _ _ _ (wp_postTransaction i y0 t0 Hi) Hrun) as K.
  pose proof (wp_run _ _ _ _ _ _ (postTransaction_safe i y0 t0 Hi) Hrun) as (Hi1 & _ & _).
  assert (exists x l, check_posting s1.2 i = Ok l /\ lt_transactionHash x = transaction_hash i l /\
    map_get (pt_idempotencyKey i) (transactionIdsByIdempotencyKey s1.2) = Some (lt_ledgerTransactionId x) /\
    map_get (lt_ledgerTransactionId x) (transactions s1.2) = Some x /\
    getTransaction s1.2 (lt_ledgerTransactionId x) = Ok v) as (x & l & Hl & Hh & Hk & Hg & Hv).
  { destruct K as (_ & [(_ & -> & x & [Hk (l & Hl & Hh) Hg] & Hv)|(_ & x & es & Hrec & _ & Hv)]).
    - exists x, l. split_and!; try done. by apply truthy_Some.
    - destruct (recorded_extends _ _ _ _ _ _ Hi Hrec) as [Hacc ? ? ?]. pose proof Hrec as [_ (l & Hl & _ & Hh) _ Hkey _ Hs1].
      exists x, l. rewrite Hs1 in *. rewrite (check_posting_accounts _ t0) by done. cbn. rewrite Hkey, !map_get_set_eq. done. }
  destruct s1 as [y1 t1]. cbn [fst snd] in *.
  destruct (exec_kept _ _ LedgerInv_mono run_ledger more y1 t1 run_ledger_safe Hi1) as (Hi2 & _ & Hx).
  destruct (exec run_ledger more (y1, t1)) as [y2 t2]. cbn [fst snd] in *.
  assert (R := postTransaction_replayed _ y2 t2 i x l v Hi2 (check_posting_extends _ _ _ _ Hx Hl)
    (lx_keys _ _ Hx _ _ Hk) (lx_transactions _ _ Hx _ _ Hg) Hh (getTransaction_extends _ _ _ _ Hx Hv)).
  unfold wp in R. destruct (postTransaction i (y2, t2)) as [[w|e] [y3 t3]]; [|done].
  destruct R as (-> & Ht & _). cbn in Ht. subst. by exists y3.
Qed.

(** A posting moves exactly the balances it names.  A posting that returns
    and is not a replay changes the balance of each account by the signed sum of
    its entries on that account, seen from the account's normal side; every
    other account keeps its balance. *)
Theorem posting_moves_balances cs y i v s1 id a b :
  postTransaction i (exec run_ledger cs (y, empty_ledger)) = (Ok (v, false), s1) ->
  map_get id (accounts (exec run_ledger cs (y, empty_ledger)).2) = Some a ->
  getAccountBalance (exec run_ledger cs (y, empty_ledger)).2 id = Ok b ->
  getAccountBalance s1.2 id = Ok (b + side a (moved i id)).
Proof.
  intros Hrun Ha Hb. pose proof (run_ledger_ok cs y) as Hi. destruct (exec run_ledger cs _) as [y0 t0]. cbn [fst snd] in *.
  pose proof (wp_run _ _ _ _ _ _ (wp_postTransaction i y0 t0 Hi) Hrun) as (_ & [(? & _)|(_ & x & es & Hrec & _)]); [done|].
  pose proof (recorded_extends _ _ _ _ _ _ Hi Hrec) as Hx. destruct (net_recorded _ _ _ _ _ _ id Hrec) as (l & Hl & Hn).
  rewrite (check_posting_moved _ _ _ id Hl) in Hn.
  rewrite (getAccountBalance_net _ _ _ Ha) in Hb. injection Hb as <-.
  rewrite (getAccountBalance_net _ _ _ (lx_accounts _ _ Hx _ _ Ha)), Hn. f_equal. unfold side. case_bool_decide; lia.
Qed.
End ledger.
