(* ===== verification/Obligation.v ===== *)
(** * Obligations

    src/modules/obligation/src/obligation-service.js, with [createObligation]
    and [createRepayment] of src/packages/domain/src/models.js.  The fields a
    new obligation gets as constants and no operation changes
    ([accruedFeesMinor], [repaymentPriority], [attestationIds],
    [chainExecutions]) are not kept. *)

From stdpp Require Import base tactics sets relations gmap numbers strings list.
From S2P Require Import Prelude Js Enums EventStore Service.
Local Open Scope string_scope.
Local Open Scope Z_scope.

(** ** Data *)

Record Obligation := MkObligation {
  ob_obligationId : string; ob_obligationHash : string; ob_subjectId : option string;
  ob_principalId : option string; ob_mandateId : json; ob_assetId : option string;
  ob_principalAmountMinor : Z; ob_outstandingPrincipalMinor : Z; ob_repaidAmountMinor : Z;
  ob_spendPolicyId : option string; ob_cashflowRouteId : option string; ob_dueAt : string;
  ob_status : ObligationStatus; ob_createdAt : string; ob_updatedAt : string }.

Record Repayment := MkRepayment {
  re_repaymentId : string; re_obligationId : string; re_subjectId : option string;
  re_assetId : option string; re_amountMinor : Z; re_remainingMinor : Z; re_occurredAt : string }.

Record Obligations := MkObligations { obligations : jsmap Obligation; repayments : jsmap Repayment }.

Definition empty_obligations : Obligations := MkObligations [] [].

(** The argument of [createObligation]. *)
Record CreateObligation := MkCreateObligation {
  co_subjectId : option string; co_principalId : option string; co_mandateId : json;
  co_assetId : option string; co_amountMinor : minor; co_dueAt : string;
  co_spendPolicyId : option string; co_cashflowRouteId : option string; co_nonce : option string;
  co_now : option Z }.

(** What [applyRepayment] returns. *)
Record RepaymentResult := MkRepaymentResult {
  rr_obligation : Obligation; rr_repayment : Repayment; rr_surplusMinor : Z }.

Definition put_obligation (o : Obligation) (t : Obligations) : Obligations :=
  MkObligations (map_set (ob_obligationId o) o (obligations t)) (repayments t).
Definition put_repayment (r : Repayment) (t : Obligations) : Obligations :=
  MkObligations (obligations t) (map_set (re_repaymentId r) r (repayments t)).

Definition set_status (st : ObligationStatus) (at_ : Z) (o : Obligation) : Obligation :=
  MkObligation (ob_obligationId o) (ob_obligationHash o) (ob_subjectId o) (ob_principalId o) (ob_mandateId o)
    (ob_assetId o) (ob_principalAmountMinor o) (ob_outstandingPrincipalMinor o) (ob_repaidAmountMinor o)
    (ob_spendPolicyId o) (ob_cashflowRouteId o) (ob_dueAt o) st (ob_createdAt o) (toISOString at_).
Definition set_repaid (outstanding repaid : Z) (o : Obligation) : Obligation :=
  MkObligation (ob_obligationId o) (ob_obligationHash o) (ob_subjectId o) (ob_principalId o) (ob_mandateId o)
    (ob_assetId o) (ob_principalAmountMinor o) outstanding repaid
    (ob_spendPolicyId o) (ob_cashflowRouteId o) (ob_dueAt o) (ob_status o) (ob_createdAt o) (ob_updatedAt o).

(** The statuses [applyRepayment] admits. *)
Definition repayable (s : ObligationStatus) : bool :=
  bool_decide (s ∈ [ObligationStatus_ACTIVE; ObligationStatus_PARTIALLY_REPAID; ObligationStatus_OVERDUE]).

(** ** Operations *)

Section operations.
Context `{Platform}.

(** The constructor of models.js; [amount] is the value of [amountMinor]. *)
Definition newObligation (i : CreateObligation) (amount : Z) : M Sys Obligation :=
  now ← default_now (co_now i);
  obligationId ← createOperationalId "obligation";
  mret (MkObligation obligationId
    (createObligationHash (JObj [("subjectId", opt_json (co_subjectId i)); ("principalId", opt_json (co_principalId i));
       ("mandateId", co_mandateId i); ("assetId", opt_json (co_assetId i));
       ("amountMinor", json_of_minor (co_amountMinor i)); ("dueAt", JStr (co_dueAt i));
       ("spendPolicyId", opt_json (co_spendPolicyId i)); ("cashflowRouteId", opt_json (co_cashflowRouteId i));
       ("nonce", opt_json (co_nonce i))]))
    (co_subjectId i) (co_principalId i) (co_mandateId i) (co_assetId i) amount amount 0
    (co_spendPolicyId i) (co_cashflowRouteId i) (co_dueAt i) ObligationStatus_CREATED
    (toISOString now) (toISOString now)).

Definition createObligation (i : CreateObligation) : M (Sys * Obligations) Obligation :=
  lift (assertNonEmptyString "mandateId" (co_mandateId i)) ;;
  amount ← lift (assertPositiveMinorUnits (co_amountMinor i) "amountMinor");
  lift (assertDueAt (co_dueAt i)) ;;
  obligation ← sys (newObligation i amount);
  update (put_obligation obligation) ;;
  sys (emit CreditEventType_OBLIGATION_CREATED (ob_subjectId obligation) (Some (ob_obligationId obligation)) None
    (JObj [("obligationId", JStr (ob_obligationId obligation)); ("obligationHash", JStr (ob_obligationHash obligation));
           ("principalId", opt_json (ob_principalId obligation)); ("mandateId", ob_mandateId obligation);
           ("amountMinor", json_of_minor (co_amountMinor i)); ("dueAt", JStr (ob_dueAt obligation))]) None) ;;
  mret obligation.

Definition requireObligation (obligationId : string) : M (Sys * Obligations) Obligation :=
  t ← own obligations;
  some_or (map_get obligationId t) "obligation_not_found" "obligation not found".

Definition emitStatusChange (obligation : Obligation) (previousStatus nextStatus : ObligationStatus)
    (reason : string) : M Sys unit :=
  emit CreditEventType_OBLIGATION_STATUS_CHANGED (ob_subjectId obligation) (Some (ob_obligationId obligation)) None
    (JObj [("obligationId", JStr (ob_obligationId obligation)); ("previousStatus", JStr (value previousStatus));
           ("newStatus", JStr (value nextStatus)); ("reason", JStr reason)]) None.

Definition setStatus (obligationId : string) (nextStatus : ObligationStatus) (reason : string)
    : M (Sys * Obligations) Obligation :=
  obligation ← requireObligation obligationId;
  lift (assertTransition "obligation" ObligationTransitions (ob_status obligation) nextStatus) ;;
  let previousStatus := ob_status obligation in
  at_ ← sys new_Date;
  let obligation := set_status nextStatus at_ obligation in
  update (put_obligation obligation) ;;
  sys (emitStatusChange obligation previousStatus nextStatus reason) ;;
  mret obligation.

Definition activateObligation (obligationId : string) := setStatus obligationId ObligationStatus_ACTIVE "activate".
Definition markOverdue (obligationId reason : string) := setStatus obligationId ObligationStatus_OVERDUE reason.
Definition closeObligation (obligationId reason : string) := setStatus obligationId ObligationStatus_CLOSED reason.

Definition markDefault (obligationId : string) (dpd : Z) (reasonCode : string) : M (Sys * Obligations) Obligation :=
  obligation ← setStatus obligationId ObligationStatus_DEFAULTED reasonCode;
  sys (emit CreditEventType_DEFAULT_RECORDED (ob_subjectId obligation) (Some obligationId) None
    (JObj [("obligationId", JStr obligationId); ("dpd", JNum dpd); ("reasonCode", JStr reasonCode);
           ("amountMinor", JStr (toString (ob_outstandingPrincipalMinor obligation)))]) None) ;;
  mret obligation.

Definition createRepayment (obligationId : string) (subjectId assetId : option string) (amount remaining : Z)
    : M Sys Repayment :=
  now ← default_now None;
  repaymentId ← createOperationalId "repayment";
  mret (MkRepayment repaymentId obligationId subjectId assetId amount remaining (toISOString now)).

Definition repayment_json (r : Repayment) : json :=
  JObj [("repaymentId", JStr (re_repaymentId r)); ("obligationId", JStr (re_obligationId r));
        ("subjectId", opt_json (re_subjectId r)); ("assetId", opt_json (re_assetId r));
        ("amountMinor", JStr (toString (re_amountMinor r))); ("remainingMinor", JStr (toString (re_remainingMinor r)));
        ("occurredAt", JStr (re_occurredAt r)); ("schemaVersion", JStr "repayment.v1")].

Definition applyRepayment (obligationId : string) (amountMinor : minor) : M (Sys * Obligations) RepaymentResult :=
  obligation ← requireObligation obligationId;
  amount ← lift (assertPositiveMinorUnits amountMinor "amountMinor");
  throw_if (negb (repayable (ob_status obligation))) "obligation_not_repayable"
    "obligation is not in a repayable state" ;;
  let outstanding := ob_outstandingPrincipalMinor obligation in
  let applied := if outstanding <? amount then outstanding else amount in
  let remaining := outstanding - applied in
  let previousStatus := ob_status obligation in
  let nextStatus := if remaining =? 0 then ObligationStatus_FULLY_REPAID else ObligationStatus_PARTIALLY_REPAID in
  let changed := negb (bool_decide (previousStatus = nextStatus)) in
  when changed (lift (assertTransition "obligation" ObligationTransitions previousStatus nextStatus)) ;;
  at_ ← sys new_Date;
  let obligation := set_status nextStatus at_
        (set_repaid remaining (ob_repaidAmountMinor obligation + applied) obligation) in
  update (put_obligation obligation) ;;
  repayment ← sys (createRepayment obligationId (ob_subjectId obligation) (ob_assetId obligation) applied remaining);
  update (put_repayment repayment) ;;
  sys (emit CreditEventType_REPAYMENT_CAPTURED (ob_subjectId obligation) (Some obligationId) None
         (repayment_json repayment) None) ;;
  sys (emit CreditEventType_OBLIGATION_UPDATED (ob_subjectId obligation) (Some obligationId) None
    (JObj [("obligationId", JStr obligationId);
           ("outstandingPrincipalMinor", JStr (toString (ob_outstandingPrincipalMinor obligation)));
           ("repaidAmountMinor", JStr (toString (ob_repaidAmountMinor obligation)));
           ("status", JStr (value (ob_status obligation)))]) None) ;;
  when changed (sys (emitStatusChange obligation previousStatus nextStatus "repayment")) ;;
  mret (MkRepaymentResult obligation repayment (amount - applied)).
End operations.

(** ** Queries *)

Definition getObligation (t : Obligations) (obligationId : string) : result Obligation :=
  match map_get obligationId (obligations t) with
  | Some o => Ok o
  | None => fail "obligation_not_found" "obligation not found"
  end.
Definition listObligations (t : Obligations) (filter : Obligation -> bool) : list Obligation :=
  List.filter filter (map_values (obligations t)).
Definition listRepayments (t : Obligations) (filter : Repayment -> bool) : list Repayment :=
  List.filter filter (map_values (repayments t)).
