(* ===== verification/ObligationProps.v ===== *)
(** * The obligations' theorems *)

From stdpp Require Import base tactics sets relations gmap numbers strings list.
From S2P Require Import Prelude Js Enums EventStore Service Obligation.
Local Open Scope string_scope.
Local Open Scope Z_scope.

(** ** The invariant *)

(** The repayments recorded for an obligation. *)
Definition repaid_for (id : string) (r : Repayment) : Z :=
  if decide (re_obligationId r = id) then re_amountMinor r else 0.
Definition repaid_total (t : Obligations) (id : string) : Z := sum_by (repaid_for id) (map_values (repayments t)).

(** An obligation's amounts and what its status says about them. *)
Record sound (o : Obligation) : Prop := {
  so_principal : 0 < ob_principalAmountMinor o;
  so_outstanding : 0 <= ob_outstandingPrincipalMinor o;
  so_conserved : ob_outstandingPrincipalMinor o + ob_repaidAmountMinor o = ob_principalAmountMinor o;
  so_repaid : ob_status o = ObligationStatus_FULLY_REPAID -> ob_outstandingPrincipalMinor o = 0;
  so_zero : ob_outstandingPrincipalMinor o = 0 ->
    ob_status o = ObligationStatus_FULLY_REPAID \/ ob_status o = ObligationStatus_CLOSED }.

(** What an operation may change of an obligation. *)
Record evolves (o o' : Obligation) : Prop := {
  ev_id : ob_obligationId o' = ob_obligationId o;
  ev_hash : ob_obligationHash o' = ob_obligationHash o;
  ev_subject : ob_subjectId o' = ob_subjectId o;
  ev_asset : ob_assetId o' = ob_assetId o;
  ev_principal : ob_principalAmountMinor o' = ob_principalAmountMinor o;
  ev_outstanding : ob_outstandingPrincipalMinor o' <= ob_outstandingPrincipalMinor o;
  ev_status : rtc (steps ObligationTransitions) (ob_status o) (ob_status o') }.

#[export] Instance evolves_preorder : PreOrder evolves.
Proof.
  split.
  - intros o. by split.
  - intros a b c [] []. split; try congruence; [lia|by etrans].
Qed.

Record obligations_evolve (t t' : Obligations) : Prop := {
  oe_obligations : forall id o, map_get id (obligations t) = Some o ->
    exists o', map_get id (obligations t') = Some o' /\ evolves o o';
  oe_repayments : repayments t `prefix_of` repayments t' }.

#[export] Instance obligations_evolve_preorder : PreOrder obligations_evolve.
Proof.
  split.
  - intros t. split; [|done]. intros id o Ho. by exists o.
  - intros a b c [H1 P1] [H2 P2]. split; [|by etrans]. intros id o Ho.
    destruct (H1 id o Ho) as (o1 & Ho1 & He1). destruct (H2 id o1 Ho1) as (o2 & Ho2 & He2).
    exists o2. split; [done|by etrans].
Qed.

Section obligations.
Context `{PlatformLaws}.

Record ObligationInv (n : nat) (t : Obligations) : Prop := {
  oi_obligations : forall id o, map_get id (obligations t) = Some o ->
    ob_obligationId o = id /\ minted "obligation" n id /\ sound o /\ ob_repaidAmountMinor o = repaid_total t id;
  oi_repayments : forall id r, map_get id (repayments t) = Some r ->
    re_repaymentId r = id /\ minted "repayment" n id;
  oi_amounts : Forall (fun r => 0 < re_amountMinor r /\ map_get (re_obligationId r) (obligations t) <> None)
    (map_values (repayments t)) }.

Lemma ObligationInv_empty n : ObligationInv n empty_obligations.
Proof. by split. Qed.

Lemma ObligationInv_mono n m t : (n <= m)%nat -> ObligationInv n t -> ObligationInv m t.
Proof.
  intros Hle [Ho Hr Ha]. split; [intros id o Hg|intros id r Hg|done].
  - destruct (Ho id o Hg) as (? & ? & ? & ?). split_and!; try done. by eapply minted_mono.
  - destruct (Hr id r Hg). split; [done|by eapply minted_mono].
Qed.

Abbreviation keeps := (keeps ObligationInv obligations_evolve).
Abbreviation kept := (kept ObligationInv obligations_evolve).

(** Closes a leaf that did not touch the obligations. *)
Ltac unchanged := apply (kept_same _ _ ObligationInv_mono); [assumption|cbn [fst]; grows].

(** ** Creating an obligation *)

Lemma repaid_total_absent n t id :
  ObligationInv n t -> map_get id (obligations t) = None -> repaid_total t id = 0.
Proof.
  intros Hi Hn. unfold repaid_total. pose proof (oi_amounts _ _ Hi) as Ha. rewrite Forall_forall in Ha.
  apply sum_by_zero. intros r Hr. unfold repaid_for. case_decide as E; [|done].
  destruct (Ha r Hr) as [_ Hne]. by rewrite E in Hne.
Qed.

Lemma ObligationInv_new n t o :
  ObligationInv n t -> ob_obligationId o = id_of "obligation" n -> sound o -> ob_repaidAmountMinor o = 0 ->
  ObligationInv (S n) (put_obligation o t) /\ obligations_evolve t (put_obligation o t).
Proof.
  intros Hi Hid Hs Hz.
  assert (Hf : map_get (ob_obligationId o) (obligations t) = None).
  { destruct (map_get _ _) as [o'|] eqn:E; [|done].
    apply (oi_obligations _ _ Hi) in E as (_ & Hm & _). apply minted_fresh in Hm. congruence. }
  split; split; cbn [put_obligation obligations repayments].
  - intros id o'. rewrite map_get_set. case_decide as E.
    + intros [= <-]. split_and!; [done|rewrite <- E, Hid; apply minted_new|done|].
      rewrite Hz, <- E. symmetry. exact (repaid_total_absent _ _ _ Hi Hf).
    + intros Hg. destruct (oi_obligations _ _ Hi _ _ Hg) as (? & ? & ? & ?).
      split_and!; try done. eapply minted_mono; [|done]. lia.
  - intros id r Hg. destruct (oi_repayments _ _ Hi _ _ Hg). split; [done|eapply minted_mono; [|done]; lia].
  - eapply Forall_impl; [apply Hi|]. intros r [? ?]. split; [done|]. rewrite map_get_set. by case_decide.
  - intros id o' Hg. exists o'. rewrite map_get_set_ne; [done|]. intros E. rewrite E in Hf. congruence.
  - done.
Qed.

Lemma wp_newObligation i amount (Q : Obligation -> Sys * Obligations -> Prop) E y t :
  0 < amount ->
  (forall o y1 y', grows y y1 -> uuids y' = S (uuids y1) -> grows y1 y' ->
     ob_obligationId o = id_of "obligation" (uuids y1) -> sound o -> ob_repaidAmountMinor o = 0 -> Q o (y', t)) ->
  wp (sys (newObligation i amount)) Q E (y, t).
Proof.
  intros Ha HQ. unfold newObligation. svc_step. svc_step. apply wp_now. intros n y1 Hu1 Hg1. cbv beta.
  svc_step. svc_step. apply wp_new_id. intros y2 Hu2 Hg2. svc_step.
  eapply HQ; try done. split; cbn; try done; lia.
Qed.

Lemma createObligation_keeps i : keeps (createObligation i).
Proof.
  intros y t Hi. unfold createObligation. svc_step. svc_step; [unchanged|]. svc_step. svc_step; [unchanged|].
  svc_step. svc_step; [unchanged|].
  match goal with E : assertPositiveMinorUnits _ _ = Ok _ |- _ => apply assertPositiveMinorUnits_pos in E end.
  apply wp_bind, wp_newObligation; [done|]. intros o y1 y2 Hg1 Hu2 Hg2 Hid Hs Hz. cbv beta.
  assert (Hi' : ObligationInv (uuids y1) t) by (eapply ObligationInv_mono; [|done]; by apply gr_uuids).
  destruct (ObligationInv_new _ t o Hi' Hid Hs Hz) as [Hn He]. rewrite <- Hu2 in Hn.
  svc_steps; (eapply kept_step; [apply ObligationInv_mono|done| | |done]; grows).
Qed.

(** ** Changing an obligation *)

(** Replacing an obligation by one it may become. *)
Lemma obligations_evolve_put t o o' :
  map_get (ob_obligationId o) (obligations t) = Some o -> evolves o o' ->
  obligations_evolve t (put_obligation o' t).
Proof.
  intros Hg He. split; [|done]. intros id o1 H1. cbn. rewrite map_get_set, (ev_id _ _ He).
  case_decide as E; [|by exists o1]. exists o'. split; [done|]. subst. rewrite Hg in H1. by injection H1 as <-.
Qed.

Lemma ObligationInv_put n t o o' :
  ObligationInv n t -> map_get (ob_obligationId o) (obligations t) = Some o ->
  evolves o o' -> sound o' -> ob_repaidAmountMinor o' = ob_repaidAmountMinor o ->
  ObligationInv n (put_obligation o' t).
Proof.
  intros Hi Hg He Hs Hr. split; cbn [put_obligation obligations repayments].
  - intros id o1. rewrite map_get_set, (ev_id _ _ He). case_decide as E.
    + intros [= <-]. destruct (oi_obligations _ _ Hi _ _ Hg) as (? & ? & ? & ?). subst id.
      split_and!; [by apply He|done|done|]. by rewrite Hr.
    + apply (oi_obligations _ _ Hi).
  - apply Hi.
  - eapply Forall_impl; [apply Hi|]. intros r [? ?]. split; [done|]. rewrite map_get_set. by case_decide.
Qed.

Lemma set_status_ok st a o :
  sound o -> steps ObligationTransitions (ob_status o) st ->
  st <> ObligationStatus_FULLY_REPAID ->
  sound (set_status st a o) /\ evolves o (set_status st a o).
Proof.
  intros [] Hst Hne. split; split; cbn; try done.
  - intros Hz. right. destruct (so_zero0 Hz) as [E|E]; rewrite E in Hst; unfold steps in Hst; cbn in Hst; set_solver.
  - by apply rtc_once.
Qed.

Lemma growing_emitStatusChange o a b c : growing (emitStatusChange o a b c).
Proof. apply growing_emit. Qed.
#[local] Hint Resolve growing_emitStatusChange : growing.

Lemma obligation_setStatus_keeps id st reason : st <> ObligationStatus_FULLY_REPAID -> keeps (setStatus id st reason).
Proof.
  intros Hne y t Hi. unfold setStatus, requireObligation. do 3 svc_step. svc_step; [|unchanged].
  rename a into o, H1 into Hg. svc_step. svc_step; [unchanged|].
  match goal with E : assertTransition _ _ _ _ = Ok _ |- _ => apply assertTransition_Ok in E; rename E into Hst end.
  destruct (oi_obligations _ _ Hi _ _ Hg) as (Hid & Hm & Hs & Hr). rewrite <- Hid in Hg.
  svc_step. apply (wp_now None). intros at_ y1 Hu1 Hg1. cbv beta zeta. do 2 svc_step.
  destruct (set_status_ok st at_ o Hs Hst Hne) as [Hs' He].
  assert (Hi' : ObligationInv (uuids y1) (put_obligation (set_status st at_ o) t)).
  { rewrite Hu1. by eapply ObligationInv_put. }
  svc_steps; (eapply kept_step; [apply ObligationInv_mono|done| | |by eapply obligations_evolve_put]; grows).
Qed.

Lemma markDefault_keeps id dpd reason : keeps (markDefault id dpd reason).
Proof.
  apply (keeps_bind _ _); [by apply obligation_setStatus_keeps|]. intros o y t Hi. svc_steps; unchanged.
Qed.

(** ** Repaying *)

(** [amount] was applied to [o], which became [o'] and got the repayment [r]. *)
Record applies (n : nat) (t : Obligations) (id : string) (amount : Z) (o o' : Obligation) (r : Repayment)
    (t' : Obligations) : Prop := {
  ap_found : map_get id (obligations t) = Some o;
  ap_repayable : repayable (ob_status o) = true;
  ap_amount : re_amountMinor r = Z.min amount (ob_outstandingPrincipalMinor o);
  ap_positive : 0 < re_amountMinor r;
  ap_for : re_obligationId r = id;
  ap_id : exists k, (n <= k)%nat /\ re_repaymentId r = id_of "repayment" k;
  ap_outstanding : ob_outstandingPrincipalMinor o' = ob_outstandingPrincipalMinor o - re_amountMinor r;
  ap_repaid : ob_repaidAmountMinor o' = ob_repaidAmountMinor o + re_amountMinor r;
  ap_status : ob_status o' = if ob_outstandingPrincipalMinor o' =? 0 then ObligationStatus_FULLY_REPAID
                             else ObligationStatus_PARTIALLY_REPAID;
  ap_evolves : evolves o o';
  ap_sound : sound o';
  ap_state : t' = put_repayment r (put_obligation o' t) }.

(** A repayable obligation may become what the repayment makes of it, so the
    transition check never fails. *)
Lemma repayable_steps st next :
  repayable st = true -> next = ObligationStatus_FULLY_REPAID \/ next = ObligationStatus_PARTIALLY_REPAID ->
  st = next \/ steps ObligationTransitions st next.
Proof.
  unfold repayable, steps. rewrite bool_decide_eq_true. intros Hst Hn.
  destruct st; try set_solver; destruct Hn as [->| ->]; cbn; (left; reflexivity) || (right; set_solver).
Qed.

Lemma repayable_outstanding o : sound o -> repayable (ob_status o) = true -> 0 < ob_outstandingPrincipalMinor o.
Proof.
  intros [] Hr. destruct (decide (ob_outstandingPrincipalMinor o = 0)) as [Hz|]; [|lia].
  by destruct (so_zero0 Hz) as [E|E]; rewrite E in Hr.
Qed.

Lemma repayment_fresh n k t r :
  ObligationInv n t -> re_repaymentId r = id_of "repayment" k -> (n <= k)%nat ->
  map_get (re_repaymentId r) (repayments t) = None.
Proof.
  intros Hi Hid Hk. destruct (map_get _ (repayments t)) as [r'|] eqn:E; [|done]. apply (oi_repayments _ _ Hi) in E as [_ E].
  apply (minted_mono _ n k) in E; [|done]. apply minted_fresh in E. congruence.
Qed.

Lemma repayment_appended t r :
  map_get (re_repaymentId r) (repayments t) = None ->
  map_values (map_set (re_repaymentId r) r (repayments t)) = (map_values (repayments t) ++ [r])%list.
Proof. intros Hf. rewrite (map_keys_set_fresh _ _ _ Hf). unfold map_values. by rewrite fmap_app. Qed.

Lemma ObligationInv_applies n t id amount o o' r t' k :
  ObligationInv n t -> applies n t id amount o o' r t' -> re_repaymentId r = id_of "repayment" k -> (n <= k)%nat ->
  ObligationInv (S k) t' /\ obligations_evolve t t'.
Proof.
  intros Hi [Hf _ _ Hpos Hfor _ _ Hrep _ He Hs ->] Hid Hk.
  destruct (oi_obligations _ _ Hi _ _ Hf) as (Hoid & Hm & _ & Htot).
  assert (Hfresh := repayment_fresh _ _ _ _ Hi Hid Hk). assert (Hvals := repayment_appended _ _ Hfresh).
  assert (Htot' : forall j, repaid_total (put_repayment r (put_obligation o' t)) j = repaid_total t j + repaid_for j r).
  { intros j. unfold repaid_total. cbn [put_repayment put_obligation repayments].
    rewrite Hvals, sum_by_app, sum_by_cons, sum_by_nil. lia. }
  split; [split|].
  - intros j o1. rewrite Htot'. cbn [put_repayment put_obligation obligations]. rewrite map_get_set, (ev_id _ _ He), Hoid.
    unfold repaid_for. rewrite Hfor. case_decide as E.
    + intros [= <-]. subst j. split_and!; [by rewrite (ev_id _ _ He)| |done|lia].
      eapply minted_mono; [|done]. lia.
    + intros Hg. destruct (oi_obligations _ _ Hi _ _ Hg) as (? & ? & ? & ?).
      split_and!; try done; [eapply minted_mono; [|done]; lia|lia].
  - intros j r1. cbn [put_repayment put_obligation repayments]. rewrite map_get_set. case_decide as E.
    + intros [= <-]. split; [done|]. rewrite <- E, Hid. apply minted_new.
    + intros Hg. destruct (oi_repayments _ _ Hi _ _ Hg). split; [done|eapply minted_mono; [|done]; lia].
  - cbn [put_repayment put_obligation repayments obligations]. rewrite Hvals. apply Forall_app. split.
    + eapply Forall_impl; [apply Hi|]. intros r1 [? ?]. split; [done|]. rewrite map_get_set. by case_decide.
    + constructor; [|constructor]. split; [done|]. rewrite Hfor, (ev_id _ _ He), Hoid. by rewrite map_get_set_eq.
  - rewrite <- Hoid in Hf. destruct (obligations_evolve_put _ _ _ Hf He) as [Hob _]. split; [done|].
    cbn. rewrite (map_keys_set_fresh _ _ _ Hfresh). by apply prefix_app_r.
Qed.

(** The obligation after a repayment of [applied]. *)
Definition repaid_obligation (applied at_ : Z) (o : Obligation) : Obligation :=
  let remaining := ob_outstandingPrincipalMinor o - applied in
  set_status (if remaining =? 0 then ObligationStatus_FULLY_REPAID else ObligationStatus_PARTIALLY_REPAID) at_
    (set_repaid remaining (ob_repaidAmountMinor o + applied) o).

Lemma repaid_obligation_ok applied a o :
  sound o -> repayable (ob_status o) = true -> 0 < applied <= ob_outstandingPrincipalMinor o ->
  sound (repaid_obligation applied a o) /\ evolves o (repaid_obligation applied a o).
Proof.
  intros [] Hr Ha. unfold repaid_obligation.
  assert (Hst : ob_status o = (if ob_outstandingPrincipalMinor o - applied =? 0
            then ObligationStatus_FULLY_REPAID else ObligationStatus_PARTIALLY_REPAID) \/
          steps ObligationTransitions (ob_status o) (if ob_outstandingPrincipalMinor o - applied =? 0
            then ObligationStatus_FULLY_REPAID else ObligationStatus_PARTIALLY_REPAID)).
  { apply repayable_steps; [done|]. case_match; auto. }
  split; split; cbn; try done; try lia.
  - destruct (Z.eqb_spec (ob_outstandingPrincipalMinor o - applied) 0); [done|discriminate].
  - intros ->. by left.
  - destruct Hst as [<-|Hst]; [done|by apply rtc_once].
Qed.

Lemma wp_when_ok {S} (c : bool) (r : result unit) (Q : unit -> S -> Prop) E s :
  (c = true -> r = Ok ()) -> Q () s -> wp (when c (lift r)) Q E s.
Proof. intros Hr HQ. apply wp_when; [intros Hc; apply wp_lift; rewrite (Hr Hc)|done]; [done|by intros []]. Qed.

Lemma applied_min amount outstanding :
  (if outstanding <? amount then outstanding else amount) = Z.min amount outstanding.
Proof. destruct (Z.ltb_spec outstanding amount); lia. Qed.

Lemma wp_applyRepayment id m y t :
  ObligationInv (uuids y) t ->
  wp (applyRepayment id m)
    (fun v s => grows y s.1 /\ ObligationInv (uuids s.1) s.2 /\ obligations_evolve t s.2 /\
       exists amount o, assertPositiveMinorUnits m "amountMinor" = Ok amount /\
         applies (uuids y) t id amount o (rr_obligation v) (rr_repayment v) s.2 /\
         rr_surplusMinor v = amount - re_amountMinor (rr_repayment v))
    (fun _ s => grows y s.1 /\
       (s.2 = t \/ ObligationInv (uuids s.1) s.2 /\ obligations_evolve t s.2 /\
         exists amount o o' r, assertPositiveMinorUnits m "amountMinor" = Ok amount /\
           applies (uuids y) t id amount o o' r s.2)) (y, t).
Proof.
  intros Hi. unfold applyRepayment, requireObligation.
  svc_step. svc_step. svc_step. svc_step; [|split; [done|by left]]. rename a into o, H1 into Hf.
  svc_step. svc_step; [split; [done|by left]|]. rename a into amount, H1 into Ha.
  svc_step. svc_step; [split; [done|by left]|].
  match goal with E : negb (repayable _) = false |- _ => apply negb_false_iff in E; rename E into Hr end.
  rewrite applied_min. set (applied := Z.min amount (ob_outstandingPrincipalMinor o)).
  destruct (oi_obligations _ _ Hi _ _ Hf) as (Hoid & Hm & Hs & Htot).
  pose proof (repayable_outstanding o Hs Hr) as Hout. pose proof (assertPositiveMinorUnits_pos _ _ _ Ha) as Hpos.
  assert (Happ : 0 < applied <= ob_outstandingPrincipalMinor o) by lia. cbv zeta.
  apply wp_bind, wp_when_ok.
  { intros Hc%negb_true_iff%bool_decide_eq_false. apply assertTransition_Ok.
    destruct (repayable_steps (ob_status o) (if ob_outstandingPrincipalMinor o - applied =? 0
      then ObligationStatus_FULLY_REPAID else ObligationStatus_PARTIALLY_REPAID) Hr); [|done|done].
    case_match; auto. }
  apply wp_bind, (wp_now None). intros a1 y1 Hu1 Hg1. cbv beta. fold (repaid_obligation applied a1 o).
  destruct (repaid_obligation_ok applied a1 o Hs Hr Happ) as [Hs' He']. set (o' := repaid_obligation applied a1 o) in *.
  apply wp_bind, wp_update. unfold createRepayment. apply wp_bind, wp_sys_bind, wp_bind, wp_now. intros a2 y2 Hu2 Hg2.
  cbv beta. apply wp_sys_bind, wp_bind, wp_new_id. intros y3 Hu3 Hg3. cbv beta. apply wp_sys_ret.
  match goal with |- context [put_repayment ?r0] => set (r := r0) end. apply wp_bind, wp_update.
  set (t' := put_repayment r (put_obligation o' t)).
  assert (Hap : applies (uuids y) t id amount o o' r t').
  { split; try done; [cbn; lia|]. exists (uuids y2). split; [apply gr_uuids; grows|done]. }
  destruct (ObligationInv_applies _ _ _ _ _ _ _ _ (uuids y2) Hi Hap) as [Hi' He]; [done|apply gr_uuids; grows|].
  rewrite <- Hu3 in Hi'.
  assert (Hfin : forall y4, grows y3 y4 -> grows y y4 /\ ObligationInv (uuids y4) t' /\ obligations_evolve t t').
  { intros y4 Hg4. split_and!; [grows|eapply ObligationInv_mono; [|done]; by apply gr_uuids|done]. }
  svc_steps; cbn [fst snd rr_obligation rr_repayment rr_surplusMinor];
    match goal with |- grows y ?y4 /\ _ => destruct (Hfin y4) as (? & ? & ?); [grows|] end.
  all: split; [done|].
  all: first [right; split_and!; [done|done|]; by exists amount, o, o', r
             |split_and!; [done|done|]; by exists amount, o].
Qed.

Lemma applyRepayment_keeps id m : keeps (applyRepayment id m).
Proof.
  intros y t Hi. eapply wp_mono; [by apply wp_applyRepayment|..].
  - intros v s (Hg & Hi' & He & _). by split_and!.
  - intros e [y' t'] (Hg & [Ht|(Hi' & He & _)]); [|by split_and!]. cbn in Ht. subst.
    by apply (kept_same _ _ ObligationInv_mono).
Qed.

(** ** Executions *)

Inductive obligation_call :=
| CallCreateObligation (i : CreateObligation)
| CallActivateObligation (obligationId : string)
| CallApplyRepayment (obligationId : string) (amountMinor : minor)
| CallMarkOverdue (obligationId reason : string)
| CallMarkDefault (obligationId : string) (dpd : Z) (reasonCode : string)
| CallCloseObligation (obligationId reason : string).

Definition run_obligation (c : obligation_call) : M (Sys * Obligations) unit :=
  match c with
  | CallCreateObligation i => createObligation i ;; mret ()
  | CallActivateObligation id => activateObligation id ;; mret ()
  | CallApplyRepayment id m => applyRepayment id m ;; mret ()
  | CallMarkOverdue id reason => markOverdue id reason ;; mret ()
  | CallMarkDefault id dpd reason => markDefault id dpd reason ;; mret ()
  | CallCloseObligation id reason => closeObligation id reason ;; mret ()
  end.

Lemma run_obligation_keeps c : keeps (run_obligation c).
Proof.
  destruct c; (apply keeps_bind; [apply _| |intros ?; apply keeps_ret; [apply _|apply ObligationInv_mono]]);
    auto using createObligation_keeps, obligation_setStatus_keeps, applyRepayment_keeps, markDefault_keeps;
    by apply obligation_setStatus_keeps.
Qed.

(** C3: an obligation's debt is conserved.  After any sequence of calls from an
    empty service, whichever of them threw, every obligation has outstanding
    plus repaid equal to its principal, neither negative; the repaid amount is
    the sum of the repayments on record for it; a fully repaid obligation owes
    nothing, and one that owes nothing is fully repaid or closed.  Whatever is
    called next, the obligation stays, its principal, hash, subject and asset
    do not change, what it owes never grows, and its status moves along the
    transition table. *)
Theorem obligations_conserved cs y id o :
  map_get id (obligations (exec run_obligation cs (y, empty_obligations)).2) = Some o ->
  sound o /\
  ob_repaidAmountMinor o = repaid_total (exec run_obligation cs (y, empty_obligations)).2 id /\
  forall more, exists o',
    map_get id (obligations (exec run_obligation more (exec run_obligation cs (y, empty_obligations))).2) = Some o' /\
    evolves o o'.
Proof.
  intros Hg.
  destruct (exec_kept _ _ ObligationInv_mono run_obligation cs y empty_obligations run_obligation_keeps
    (ObligationInv_empty _)) as (Hi & _ & _).
  destruct (exec run_obligation cs (y, empty_obligations)) as [y1 t1]. cbn [fst snd] in *.
  destruct (oi_obligations _ _ Hi _ _ Hg) as (_ & _ & Hs & Hr). split_and!; [done..|].
  intros more.
  destruct (exec_kept _ _ ObligationInv_mono run_obligation more y1 t1 run_obligation_keeps Hi) as (_ & _ & [He _]).
  by apply He.
Qed.

(** A repayment applies exactly what it should.  On a service reached by any
    calls, a repayment that returns has applied the smaller of the amount and
    the debt, returns the rest as surplus, and has changed that obligation and
    added that repayment, nothing else; the obligation is fully repaid exactly
    when nothing is left.  A call that throws has either changed nothing or
    applied the repayment in full. *)
Theorem applyRepayment_exact cs y id m r s' :
  let s := exec run_obligation cs (y, empty_obligations) in
  applyRepayment id m s = (r, s') ->
  match r with
  | Ok v => exists amount o, assertPositiveMinorUnits m "amountMinor" = Ok amount /\
      applies (uuids s.1) s.2 id amount o (rr_obligation v) (rr_repayment v) s'.2 /\
      rr_surplusMinor v = amount - Z.min amount (ob_outstandingPrincipalMinor o)
  | Err _ => s'.2 = s.2 \/ exists amount o o' rep, assertPositiveMinorUnits m "amountMinor" = Ok amount /\
      applies (uuids s.1) s.2 id amount o o' rep s'.2
  end.
Proof.
  intros s Hrun.
  destruct (exec_kept _ _ ObligationInv_mono run_obligation cs y empty_obligations run_obligation_keeps
    (ObligationInv_empty _)) as (Hi & _ & _). fold s in Hi. destruct s as [y1 t1]. cbn [fst snd] in *.
  pose proof (wp_run _ _ _ _ _ _ (wp_applyRepayment id m y1 t1 Hi) Hrun) as K. destruct r as [v|e].
  - destruct K as (_ & _ & _ & amount & o & Ha & Hap & Hsur). exists amount, o. split_and!; [done..|].
    by rewrite Hsur, (ap_amount _ _ _ _ _ _ _ _ Hap).
  - destruct K as (_ & [Hs|(_ & _ & amount & o & o' & rep & ? & ?)]); [by left|right]. by exists amount, o, o', rep.
Qed.
End obligations.
