(* ===== verification/Lockbox.v ===== *)
(** * Lockboxes

    src/modules/lockbox/src/lockbox-service.js, with [createLockbox] of
    src/packages/domain/src/models.js.  The service owns the ledger: it is the
    one client that opens accounts and posts transactions
    (src/packages/mvp-flow/src/services.js), so the ledger is a field of its
    state and its [ledger_unavailable] check, for a service built without one,
    does not arise. *)

From stdpp Require Import base tactics sets relations gmap numbers strings list.
From S2P Require Import Prelude Js Enums EventStore Service Ledger.
Local Open Scope string_scope.
Local Open Scope Z_scope.

(** ** Data *)

Record Lockbox := MkLockbox {
  lb_lockboxId : string; lb_lockboxHash : string; lb_subjectId : option string; lb_chainId : string;
  lb_assetId : string; lb_accountIdRef : string; lb_status : LockboxStatus; lb_balanceMinor : Z;
  lb_capturedRevenueMinor : Z; lb_createdAt : string; lb_updatedAt : string;
  lb_ledgerAccountId : string; lb_revenueLedgerAccountId : string; lb_repaymentLedgerAccountId : string }.

Record Lockboxes := MkLockboxes { ledger : Ledger; lockboxes : jsmap Lockbox }.

Definition empty_lockboxes : Lockboxes := MkLockboxes empty_ledger [].

Definition set_ledger (l : Ledger) (t : Lockboxes) : Lockboxes := MkLockboxes l (lockboxes t).
Definition put_lockbox (b : Lockbox) (t : Lockboxes) : Lockboxes :=
  MkLockboxes (ledger t) (map_set (lb_lockboxId b) b (lockboxes t)).

Definition with_accounts (asset revenue repayment : string) (b : Lockbox) : Lockbox :=
  MkLockbox (lb_lockboxId b) (lb_lockboxHash b) (lb_subjectId b) (lb_chainId b) (lb_assetId b) (lb_accountIdRef b)
    (lb_status b) (lb_balanceMinor b) (lb_capturedRevenueMinor b) (lb_createdAt b) (lb_updatedAt b)
    asset revenue repayment.
Definition with_status (st : LockboxStatus) (b : Lockbox) : Lockbox :=
  MkLockbox (lb_lockboxId b) (lb_lockboxHash b) (lb_subjectId b) (lb_chainId b) (lb_assetId b) (lb_accountIdRef b)
    st (lb_balanceMinor b) (lb_capturedRevenueMinor b) (lb_createdAt b) (lb_updatedAt b)
    (lb_ledgerAccountId b) (lb_revenueLedgerAccountId b) (lb_repaymentLedgerAccountId b).
Definition with_updatedAt (at_ : string) (b : Lockbox) : Lockbox :=
  MkLockbox (lb_lockboxId b) (lb_lockboxHash b) (lb_subjectId b) (lb_chainId b) (lb_assetId b) (lb_accountIdRef b)
    (lb_status b) (lb_balanceMinor b) (lb_capturedRevenueMinor b) (lb_createdAt b) at_
    (lb_ledgerAccountId b) (lb_revenueLedgerAccountId b) (lb_repaymentLedgerAccountId b).
Definition with_balance (balance captured : Z) (b : Lockbox) : Lockbox :=
  MkLockbox (lb_lockboxId b) (lb_lockboxHash b) (lb_subjectId b) (lb_chainId b) (lb_assetId b) (lb_accountIdRef b)
    (lb_status b) balance captured (lb_createdAt b) (lb_updatedAt b)
    (lb_ledgerAccountId b) (lb_revenueLedgerAccountId b) (lb_repaymentLedgerAccountId b).

(** ** Operations *)

Section operations.
Context `{Platform}.

(** The constructor of models.js. *)
Definition newLockbox (subjectId : option string) (chainId assetId accountId : string) : M Sys Lockbox :=
  now ← default_now None;
  lockboxId ← createOperationalId "lockbox";
  mret (MkLockbox lockboxId
    (hashId "lockbox" (JObj [("subjectId", opt_json subjectId); ("chainId", JStr chainId);
                             ("assetId", JStr assetId); ("accountId", JStr accountId)]))
    subjectId chainId assetId accountId LockboxStatus_CREATED 0 0 (toISOString now) (toISOString now) "" "" "").

(** A method of the ledger service. *)
Definition on_ledger {A} (m : M (Sys * Ledger) A) : M (Sys * Lockboxes) A := call ledger set_ledger m.

Definition createLockbox (subjectId : option string) (assetId accountId : string) : M (Sys * Lockboxes) Lockbox :=
  lift (assertCAIP10 accountId) ;;
  chainId ← lift (chainIdFromCAIP10 accountId);
  lockbox ← sys (newLockbox subjectId chainId assetId accountId);
  assetAccount ← on_ledger (openAccount (MkOpenAccount "lockbox" (lb_lockboxId lockbox) assetId
    LedgerAccountType_LOCKBOX_ASSET LedgerNormalSide_DEBIT subjectId None));
  revenueAccount ← on_ledger (openAccount (MkOpenAccount "system" "external_revenue" assetId
    LedgerAccountType_EXTERNAL_REVENUE LedgerNormalSide_CREDIT None None));
  repaymentAccount ← on_ledger (openAccount (MkOpenAccount "system" "repayment_clearing" assetId
    LedgerAccountType_REPAYMENT_CLEARING LedgerNormalSide_DEBIT None None));
  let lockbox := with_accounts (la_ledgerAccountId assetAccount) (la_ledgerAccountId revenueAccount)
                   (la_ledgerAccountId repaymentAccount) lockbox in
  update (put_lockbox lockbox) ;;
  sys (emit CreditEventType_LOCKBOX_CREATED subjectId None (Some (lb_chainId lockbox))
    (JObj [("lockboxId", JStr (lb_lockboxId lockbox)); ("lockboxHash", JStr (lb_lockboxHash lockbox));
           ("assetId", JStr assetId); ("accountRef", JStr accountId);
           ("ledgerAccountId", JStr (lb_ledgerAccountId lockbox))]) None) ;;
  mret lockbox.

Definition requireLockbox (lockboxId : string) : M (Sys * Lockboxes) Lockbox :=
  m ← own lockboxes;
  some_or (map_get lockboxId m) "lockbox_not_found" "lockbox not found".

Definition setStatus (lockboxId : string) (nextStatus : LockboxStatus) (reason : option string)
    : M (Sys * Lockboxes) Lockbox :=
  lockbox ← requireLockbox lockboxId;
  lift (assertTransition "lockbox" LockboxTransitions (lb_status lockbox) nextStatus) ;;
  let previousStatus := lb_status lockbox in
  at_ ← sys new_Date;
  let lockbox := with_updatedAt (toISOString at_) (with_status nextStatus lockbox) in
  update (put_lockbox lockbox) ;;
  sys (emit CreditEventType_LOCKBOX_STATUS_CHANGED (lb_subjectId lockbox) None None
    (JObj [("lockboxId", JStr lockboxId); ("previousStatus", JStr (value previousStatus));
           ("newStatus", JStr (value nextStatus)); ("reason", opt_json reason)]) None) ;;
  mret lockbox.

Definition activateLockbox (lockboxId : string) := setStatus lockboxId LockboxStatus_ACTIVE (Some "activate").
Definition freezeLockbox (lockboxId : string) (reason : option string) := setStatus lockboxId LockboxStatus_FROZEN reason.
Definition closeLockbox (lockboxId : string) (reason : option string) := setStatus lockboxId LockboxStatus_CLOSED reason.

(** The two ledger queries fail together, on an unknown account, before the
    first assignment. *)
Definition syncFromLedger (lockbox : Lockbox) : M (Sys * Lockboxes) Lockbox :=
  l ← own ledger;
  balance ← lift (getAccountBalance l (lb_ledgerAccountId lockbox));
  captured ← lift (getAccountTurnover l (lb_ledgerAccountId lockbox) LedgerEntryDirection_DEBIT);
  let lockbox := with_balance balance captured lockbox in
  update (put_lockbox lockbox) ;;
  mret lockbox.

(** A parameter [idempotencyKey = createOperationalId(prefix)]. *)
Definition key_or (key : option string) (prefix : string) : M Sys string :=
  match key with Some k => mret k | None => createOperationalId prefix end.

(** What both money operations end with: synchronise the lockbox, stamp it,
    report the movement unless it was a replay, and return the lockbox. *)
Definition settle (lockbox : Lockbox) (moved : bool) (report : Lockbox -> M Sys unit) : M (Sys * Lockboxes) Lockbox :=
  lockbox ← syncFromLedger lockbox;
  at_ ← sys new_Date;
  let lockbox := with_updatedAt (toISOString at_) lockbox in
  update (put_lockbox lockbox) ;;
  when moved (sys (report lockbox)) ;;
  mret lockbox.

Definition captureRevenue (lockboxId : string) (amountMinor : minor) (source : string)
    (idempotencyKey : option string) : M (Sys * Lockboxes) Lockbox :=
  idempotencyKey ← sys (key_or idempotencyKey "revenue_capture");
  lockbox ← requireLockbox lockboxId;
  throw_if (negb (bool_decide (lb_status lockbox = LockboxStatus_ACTIVE))) "lockbox_not_active"
    "revenue capture requires active lockbox" ;;
  amount ← lift (assertPositiveMinorUnits amountMinor "amountMinor");
  lift (assertNonEmptyString "source" (JStr source)) ;;
  posting ← on_ledger (postTransaction (MkPostTransaction idempotencyKey "lockbox_revenue_capture"
    (lb_assetId lockbox)
    [MkEntryInput (lb_ledgerAccountId lockbox) LedgerEntryDirection_DEBIT (MString (toString amount));
     MkEntryInput (lb_revenueLedgerAccountId lockbox) LedgerEntryDirection_CREDIT (MString (toString amount))]
    "lockbox" lockboxId (lb_subjectId lockbox) (JObj [("source", JStr source)]) None));
  settle lockbox (negb posting.2) (fun lockbox => emit CreditEventType_REVENUE_CAPTURED (lb_subjectId lockbox) None (Some (lb_chainId lockbox))
    (JObj [("lockboxId", JStr lockboxId); ("amountMinor", JStr (toString amount));
           ("assetId", JStr (lb_assetId lockbox)); ("source", JStr source);
           ("ledgerTransactionId", JStr (lt_ledgerTransactionId (tv_transaction posting.1)))]) None).

Definition reduceBalance (lockboxId : string) (amountMinor : minor) (reason : string)
    (idempotencyKey : option string) : M (Sys * Lockboxes) Lockbox :=
  idempotencyKey ← sys (key_or idempotencyKey "lockbox_debit");
  lockbox ← requireLockbox lockboxId;
  throw_if (bool_decide (lb_status lockbox = LockboxStatus_CLOSED)) "lockbox_closed"
    "closed lockbox balance cannot change" ;;
  amount ← lift (assertPositiveMinorUnits amountMinor "amountMinor");
  lift (assertNonEmptyString "reason" (JStr reason)) ;;
  lockbox ← syncFromLedger lockbox;
  throw_if (lb_balanceMinor lockbox <? amount) "lockbox_insufficient_balance" "lockbox balance is insufficient" ;;
  posting ← on_ledger (postTransaction (MkPostTransaction idempotencyKey "lockbox_repayment_debit"
    (lb_assetId lockbox)
    [MkEntryInput (lb_repaymentLedgerAccountId lockbox) LedgerEntryDirection_DEBIT (MString (toString amount));
     MkEntryInput (lb_ledgerAccountId lockbox) LedgerEntryDirection_CREDIT (MString (toString amount))]
    "lockbox" lockboxId (lb_subjectId lockbox) (JObj [("reason", JStr reason)]) None));
  settle lockbox (negb posting.2) (fun lockbox => emit CreditEventType_LOCKBOX_BALANCE_DEBITED (lb_subjectId lockbox) None
    (Some (lb_chainId lockbox))
    (JObj [("lockboxId", JStr lockboxId); ("assetId", JStr (lb_assetId lockbox));
           ("amountMinor", JStr (toString amount)); ("balanceMinor", JStr (toString (lb_balanceMinor lockbox)));
           ("reason", JStr reason);
           ("ledgerTransactionId", JStr (lt_ledgerTransactionId (tv_transaction posting.1)))]) None).

Definition getLockbox (lockboxId : string) : M (Sys * Lockboxes) Lockbox :=
  lockbox ← requireLockbox lockboxId;
  syncFromLedger lockbox.

Definition listLockboxes : M (Sys * Lockboxes) (list Lockbox) :=
  m ← own lockboxes;
  map_m syncFromLedger (map_values m).
End operations.
