(* ===== verification/LockboxProps.v ===== *)
(** * The lockboxes' theorems *)

From Stdlib Require Import Ascii.
From stdpp Require Import base tactics sets relations gmap numbers strings list.
From S2P Require Import Prelude Js Enums EventStore Service Ledger LedgerProps Lockbox.
Local Open Scope string_scope.
Local Open Scope Z_scope.

(** ** Who owns an account *)

(** The natural key of an account, and the accounts a key prefix owns. *)
Definition key_of (a : LedgerAccount) : string :=
  natural_key (la_ownerType a) (la_ownerId a) (la_assetId a) (la_accountType a).
Definition owned_by (prefix : string) (a : LedgerAccount) : Prop := exists rest, key_of a = prefix +:+ NUL +:+ rest.

Lemma owned_lockbox_system a : owned_by "lockbox" a -> owned_by "system" a -> False.
Proof. intros [r1 E1] [r2 E2]. rewrite E1 in E2. discriminate E2. Qed.

(** Up to the first NUL. *)
Lemma prefix_nul s1 s2 r1 r2 :
  all_chars is_uuid_char s1 = true -> all_chars is_uuid_char s2 = true ->
  s1 +:+ NUL +:+ r1 = s2 +:+ NUL +:+ r2 -> s1 = s2.
Proof.
  revert s2. induction s1 as [|c s1 IH]; intros [|c2 s2]; cbn [all_chars]; try done.
  - intros _ [Hc _]%andb_true_iff [= <-]. done.
  - intros [Hc _]%andb_true_iff _ [= ->]. done.
  - intros [_ H1]%andb_true_iff [_ H2]%andb_true_iff [= -> E]. f_equal. by eapply IH.
Qed.

Section lockboxes.
Context `{PlatformLaws}.

(** No account a lockbox owns is overdrawn. *)
Record LockLedger (n : nat) (l : Ledger) : Prop := {
  ll_ledger : LedgerInv n l;
  ll_net : forall id a, map_get id (accounts l) = Some a -> owned_by "lockbox" a -> 0 <= net l id }.

Lemma LockLedger_mono n m l : (n <= m)%nat -> LockLedger n l -> LockLedger m l.
Proof. intros Hle []. split; [by eapply LedgerInv_mono|done]. Qed.

Abbreviation lkept := (kept LockLedger ledger_extends).

Lemma LockLedger_same_entries n m l l' :
  LockLedger n l -> LedgerInv m l' -> ledger_extends l l' -> entries l' = entries l -> LockLedger m l'.
Proof.
  intros [Hi Hn] Hi' Hx He. split; [done|]. intros id a Ha Ho. unfold net. rewrite He. fold (net l id).
  destruct (map_get id (accounts l)) as [a'|] eqn:Ha'; [|by rewrite (net_absent _ _ _ Hi Ha')].
  pose proof (lx_accounts _ _ Hx _ _ Ha'). simplify_eq. by eapply Hn.
Qed.

Lemma wp_open i y l :
  LockLedger (uuids y) l ->
  wp (openAccount i) (fun a s => lkept y l s /\ entries s.2 = entries l /\ opened i a s.2)
    (fun _ s => lkept y l s) (y, l).
Proof.
  intros Hl. eapply wp_mono; [apply wp_openAccount, Hl|..].
  - intros a s ((? & ? & ?) & He & ?). unfold kept. split_and!; try done. by eapply LockLedger_same_entries.
  - intros e s ((? & ? & ?) & He). unfold kept. split_and!; try done. by eapply LockLedger_same_entries.
Qed.

(** The key names a transaction on the books. *)
Definition key_used (l : Ledger) (k : string) : Prop := map_get k (transactionIdsByIdempotencyKey l) <> None.

Lemma wp_post i y l :
  LockLedger (uuids y) l ->
  (forall id a, map_get id (accounts l) = Some a -> owned_by "lockbox" a -> 0 <= net l id + moved i id) ->
  wp (postTransaction i)
    (fun v s => lkept y l s /\ ((v.2 = true /\ s.2 = l /\ key_used l (pt_idempotencyKey i)) \/ (v.2 = false /\ forall id, net s.2 id = net l id + moved i id)))
    (fun _ s => lkept y l s /\ (s.2 = l \/ forall id, net s.2 id = net l id + moved i id)) (y, l).
Proof.
  intros Hl Hm.
  assert (Hrec : forall s x es, grows y s.1 -> recorded (uuids y) l i x es s.2 -> LedgerInv (uuids s.1) s.2 ->
    lkept y l s /\ forall id, net s.2 id = net l id + moved i id).
  { intros s x es Hg Hr Hi. pose proof (recorded_extends _ _ _ _ _ _ (ll_ledger _ _ Hl) Hr) as Hx.
    assert (Hn : forall id, net s.2 id = net l id + moved i id).
    { intros id. destruct (net_recorded _ _ _ _ _ _ id Hr) as (k & Hk & ->). by rewrite (check_posting_moved _ _ _ id Hk). }
    split; [|done]. split_and!; [|done|done]. split; [done|]. intros id a Ha. rewrite Hn. apply Hm.
    by rewrite (rc_state _ _ _ _ _ _ Hr) in Ha. }
  eapply wp_mono; [apply wp_postTransaction, Hl|..].
  - intros v [y' l'] (Hg & [(Hv & Hs & x & [Hk%truthy_Some _ _] & _)|(Hv & x & es & Hr & Hi & _)]).
    + cbn in Hs. subst. split; [by apply (kept_same _ _ LockLedger_mono)|left]. split_and!; try done.
      unfold key_used. by rewrite Hk.
    + destruct (Hrec _ _ _ Hg Hr Hi). split; [done|by right].
  - intros e [y' l'] (Hg & [Hs|(x & es & Hr & Hi)]).
    + cbn in Hs. subst. split; [by apply (kept_same _ _ LockLedger_mono)|by left].
    + destruct (Hrec _ _ _ Hg Hr Hi). split; [done|by right].
Qed.

(** ** The invariant *)

Record box_ok (l : Ledger) (b : Lockbox) : Prop := {
  bk_asset : exists a, map_get (lb_ledgerAccountId b) (accounts l) = Some a /\
    la_normalSide a = LedgerNormalSide_DEBIT /\ owned_by ("lockbox" +:+ NUL +:+ lb_lockboxId b) a;
  bk_revenue : exists a, map_get (lb_revenueLedgerAccountId b) (accounts l) = Some a /\ owned_by "system" a;
  bk_repayment : exists a, map_get (lb_repaymentLedgerAccountId b) (accounts l) = Some a /\ owned_by "system" a }.

Record LockboxInv (n : nat) (t : Lockboxes) : Prop := {
  bi_ledger : LockLedger n (ledger t);
  bi_keys : NoDup (map_keys (lockboxes t));
  bi_boxes : forall id b, map_get id (lockboxes t) = Some b ->
    lb_lockboxId b = id /\ minted "lockbox" n id /\ box_ok (ledger t) b /\ 0 <= lb_balanceMinor b }.

(** What an operation may change of a lockbox. *)
Record box_evolves (b b' : Lockbox) : Prop := {
  be_id : lb_lockboxId b' = lb_lockboxId b;
  be_hash : lb_lockboxHash b' = lb_lockboxHash b;
  be_subject : lb_subjectId b' = lb_subjectId b;
  be_asset : lb_assetId b' = lb_assetId b;
  be_account : lb_ledgerAccountId b' = lb_ledgerAccountId b;
  be_revenue : lb_revenueLedgerAccountId b' = lb_revenueLedgerAccountId b;
  be_repayment : lb_repaymentLedgerAccountId b' = lb_repaymentLedgerAccountId b;
  be_status : rtc (steps LockboxTransitions) (lb_status b) (lb_status b') }.

#[export] Instance box_evolves_preorder : PreOrder box_evolves.
Proof.
  split.
  - intros b. by split.
  - intros a b c [] []. split; try congruence. by etrans.
Qed.

Record lockboxes_evolve (t t' : Lockboxes) : Prop := {
  le_ledger : ledger_extends (ledger t) (ledger t');
  le_boxes : forall id b, map_get id (lockboxes t) = Some b ->
    exists b', map_get id (lockboxes t') = Some b' /\ box_evolves b b' }.

#[export] Instance lockboxes_evolve_preorder : PreOrder lockboxes_evolve.
Proof.
  split.
  - intros t. split; [done|]. intros id b Hb. by exists b.
  - intros t1 t2 t3 [X1 B1] [X2 B2]. split; [by etrans|]. intros id b Hb.
    destruct (B1 id b Hb) as (b1 & Hb1 & E1). destruct (B2 id b1 Hb1) as (b2 & Hb2 & E2).
    exists b2. split; [done|by etrans].
Qed.

Lemma box_ok_extends l l' b : ledger_extends l l' -> box_ok l b -> box_ok l' b.
Proof.
  intros Hx [(a & ? & ?) (a1 & ? & ?) (a2 & ? & ?)].
  split; eexists; (split; [by apply (lx_accounts _ _ Hx)|done]).
Qed.

Lemma box_ok_evolves l b b' : box_evolves b b' -> box_ok l b -> box_ok l b'.
Proof. intros [Hid _ _ _ Ha Hr Hp _] []. split; by rewrite ?Hid, ?Ha, ?Hr, ?Hp. Qed.

Lemma LockboxInv_mono n m t : (n <= m)%nat -> LockboxInv n t -> LockboxInv m t.
Proof.
  intros Hle [Hl Hk Hb]. split; [by eapply LockLedger_mono|done|]. intros id b Hg.
  destruct (Hb id b Hg) as (? & ? & ? & ?). split_and!; try done. by eapply minted_mono.
Qed.

Lemma LockboxInv_empty n : LockboxInv n empty_lockboxes.
Proof. split; [by split; [apply LedgerInv_empty|]|constructor|done]. Qed.

Abbreviation keeps := (keeps LockboxInv lockboxes_evolve).
Abbreviation kept := (kept LockboxInv lockboxes_evolve).

(** A lockbox changes but keeps its accounts. *)
Lemma put_lockbox_ok n t b b' :
  LockboxInv n t -> map_get (lb_lockboxId b) (lockboxes t) = Some b -> box_evolves b b' -> 0 <= lb_balanceMinor b' ->
  LockboxInv n (put_lockbox b' t) /\ lockboxes_evolve t (put_lockbox b' t).
Proof.
  intros [Hl Hk Hb] Hg He Hbal. split; split; cbn [put_lockbox ledger lockboxes]; try done.
  - by apply map_set_NoDup.
  - intros id b1. rewrite map_get_set, (be_id _ _ He). case_decide as E; [|apply Hb]. intros [= <-].
    destruct (Hb _ _ Hg) as (? & ? & ? & _). subst id. split_and!; [by apply He|done|by eapply box_ok_evolves|done].
  - intros id b1 H1. rewrite map_get_set, (be_id _ _ He). case_decide as E; [|by exists b1].
    exists b'. split; [done|]. subst. rewrite Hg in H1. by injection H1 as <-.
Qed.

(** The ledger changes and the lockboxes do not. *)
Lemma set_ledger_ok n m t l :
  LockboxInv n t -> (n <= m)%nat -> LockLedger m l -> ledger_extends (ledger t) l ->
  LockboxInv m (set_ledger l t) /\ lockboxes_evolve t (set_ledger l t).
Proof.
  intros [Hl Hk Hb] Hle Hl' Hx. split; split; cbn [set_ledger ledger lockboxes]; try done.
  - intros id b Hg. destruct (Hb id b Hg) as (? & ? & ? & ?).
    split_and!; [done|by eapply minted_mono|by eapply box_ok_extends|done].
  - intros id b Hg. by exists b.
Qed.

Lemma kept_ledger y t s : LockboxInv (uuids y) t -> lkept y (ledger t) s -> kept y t (s.1, set_ledger s.2 t).
Proof.
  intros Hi (Hl & Hg & Hx). destruct (set_ledger_ok _ _ _ _ Hi (gr_uuids _ _ Hg) Hl Hx). by split_and!.
Qed.

(** Closes a leaf that did not touch the lockboxes. *)
Ltac unchanged := apply (kept_same _ _ LockboxInv_mono); [assumption|cbn [fst]; grows].

(** Continues after a state known to be kept. *)
Ltac after K := eapply (kept_trans _ _ _ _ _ _ K); cbn [fst snd].

(** ** Creating a lockbox *)

Lemma wp_on_ledger_open i y t (Q : LedgerAccount -> Sys * Lockboxes -> Prop) E :
  LockboxInv (uuids y) t ->
  (forall a y' l, kept y t (y', set_ledger l t) -> opened i a l -> Q a (y', set_ledger l t)) ->
  (forall e s, kept y t s -> E e s) ->
  wp (on_ledger (openAccount i)) Q E (y, t).
Proof.
  intros Hi HQ HE. apply wp_call. eapply wp_mono; [apply wp_open, Hi|..].
  - intros a s (Hk & _ & Ho). apply HQ; [by apply kept_ledger|done].
  - intros e s Hk. apply HE. by apply kept_ledger.
Qed.

Lemma opened_owned i a l prefix rest :
  opened i a l -> natural_key (oa_ownerType i) (oa_ownerId i) (oa_assetId i) (oa_accountType i) = prefix +:+ NUL +:+ rest ->
  owned_by prefix a.
Proof. intros (_ & _ & _ & Hk) Hn. exists rest. unfold key_of. by rewrite Hk. Qed.

Lemma opened_extends i a l l' : opened i a l -> ledger_extends l l' -> opened i a l'.
Proof. intros (? & ? & ? & ?) Hx. split_and!; try done. by apply (lx_accounts _ _ Hx). Qed.

Lemma put_new_lockbox n t b :
  LockboxInv n t -> map_get (lb_lockboxId b) (lockboxes t) = None -> minted "lockbox" n (lb_lockboxId b) ->
  box_ok (ledger t) b -> 0 <= lb_balanceMinor b ->
  LockboxInv n (put_lockbox b t) /\ lockboxes_evolve t (put_lockbox b t).
Proof.
  intros [Hl Hk Hb] Hn Hm Hok Hbal. split; split; cbn [put_lockbox ledger lockboxes]; try done.
  - by apply map_set_NoDup.
  - intros id b1. rewrite map_get_set. case_decide as E; [|apply Hb]. intros [= <-]. subst id. done.
  - intros id b1 H1. exists b1. rewrite map_get_set_ne; [done|]. intros E. rewrite E in Hn. congruence.
Qed.

Lemma wp_newLockbox sid chain asset acc (Q : Lockbox -> Sys * Lockboxes -> Prop) E y t :
  (forall b y1 y', grows y y1 -> uuids y' = S (uuids y1) -> grows y1 y' ->
     lb_lockboxId b = id_of "lockbox" (uuids y1) -> lb_balanceMinor b = 0 -> Q b (y', t)) ->
  wp (sys (newLockbox sid chain asset acc)) Q E (y, t).
Proof.
  intros HQ. unfold newLockbox. apply wp_sys_bind, wp_bind, wp_now. intros n y1 Hu1 Hg1. cbv beta.
  apply wp_sys_bind, wp_bind, wp_new_id. intros y2 Hu2 Hg2. apply wp_sys_ret. by eapply HQ.
Qed.

Lemma createLockbox_keeps sid asset acc : keeps (createLockbox sid asset acc).
Proof.
  intros y t Hi. unfold createLockbox. svc_step. svc_step; [unchanged|]. svc_step. svc_step; [unchanged|].
  svc_step. apply wp_newLockbox. intros b y1 y2 Hg1 Hu2 Hg2 Hid Hbal. cbv beta.
  assert (Hk0 : kept y t (y2, t)) by (unchanged).
  svc_step. apply wp_on_ledger_open; [apply Hk0| |intros; by after Hk0].
  intros a1 y3 l1 Hk1 Ho1. cbv beta.
  svc_step. apply wp_on_ledger_open; [apply Hk1| |intros; after Hk0; by after Hk1].
  intros a2 y4 l2 Hk2 Ho2. cbv beta. cbn [set_ledger ledger lockboxes] in Hk2.
  change (set_ledger l2 (set_ledger l1 t)) with (set_ledger l2 t) in *.
  svc_step. apply wp_on_ledger_open; [apply Hk2| |].
  2: { intros. after Hk0. after Hk1. by after Hk2. }
  intros a3 y5 l3 Hk3 Ho3. cbv beta zeta. change (set_ledger l3 (set_ledger l2 t)) with (set_ledger l3 t) in *.
  assert (Hk : kept y t (y5, set_ledger l3 t)).
  { after Hk0. after Hk1. by after Hk2. }
  destruct Hk1 as (_ & Hg3 & _), Hk2 as (_ & Hg4 & [Hx2 _]), Hk3 as (Hi3 & Hg5 & [Hx3 _]). cbn [fst snd set_ledger ledger] in *.
  apply (opened_extends _ _ _ l3) in Ho1; [|by etrans]. apply (opened_extends _ _ _ l3) in Ho2; [|done].
  match goal with |- context [put_lockbox ?b0] => set (b' := b0) end.
  destruct (put_new_lockbox (uuids y5) (set_ledger l3 t) b') as [Hi' He']; cbn [set_ledger ledger lockboxes]; try done.
  - destruct (map_get _ _) as [b0|] eqn:E; [|done]. apply (bi_boxes _ _ Hi) in E as (_ & Hm & _). cbn in Hm.
    apply (minted_mono _ _ (uuids y1)), minted_fresh in Hm; [|by apply gr_uuids]. by rewrite Hid in Hm.
  - cbn. rewrite Hid. eapply minted_mono; [|apply minted_new]. rewrite <- Hu2. apply gr_uuids. grows.
  - split; cbn; [exists a1|exists a2|exists a3]; (split; [apply Ho1 || apply Ho2 || apply Ho3|]).
    + split; [apply Ho1|]. eapply opened_owned; [done|]. reflexivity.
    + eapply opened_owned; [done|reflexivity].
    + eapply opened_owned; [done|reflexivity].
  - cbn. by rewrite Hbal.
  - svc_steps; (after Hk; eapply kept_step; [apply LockboxInv_mono|done| | |done]; cbn [fst]; grows).
Qed.

(** ** Status changes *)

Lemma lockbox_setStatus_keeps id st reason : keeps (setStatus id st reason).
Proof.
  intros y t Hi. unfold setStatus, requireLockbox. do 3 svc_step. svc_step; [|unchanged].
  rename a into b, H1 into Hg. svc_step. svc_step; [unchanged|].
  match goal with E : assertTransition _ _ _ _ = Ok _ |- _ => apply assertTransition_Ok in E; rename E into Hst end.
  destruct (bi_boxes _ _ Hi _ _ Hg) as (Hid & Hm & Hok & Hbal). rewrite <- Hid in Hg.
  svc_step. apply (wp_now None). intros at_ y1 Hu1 Hg1. cbv beta zeta. rewrite <- Hu1 in Hi.
  destruct (put_lockbox_ok _ _ b (with_updatedAt (toISOString at_) (with_status st b)) Hi Hg) as [Hi' He'];
    [split; try done; by apply rtc_once|done|].
  svc_steps; (eapply kept_step; [apply LockboxInv_mono|done| | |done]; grows).
Qed.

(** ** Reading the ledger *)

Lemma getAccountTurnover_Ok l id a d :
  map_get id (accounts l) = Some a -> exists z, getAccountTurnover l id d = Ok z.
Proof. intros Ha. unfold getAccountTurnover, requireAccount. rewrite Ha. destruct d; by eexists. Qed.

(** The balance a lockbox has on the ledger. *)
Definition ledger_balance (t : Lockboxes) (b : Lockbox) : Z := net (ledger t) (lb_ledgerAccountId b).

Lemma ledger_balance_ok n t id b : LockboxInv n t -> map_get id (lockboxes t) = Some b ->
  getAccountBalance (ledger t) (lb_ledgerAccountId b) = Ok (ledger_balance t b) /\ 0 <= ledger_balance t b.
Proof.
  intros Hi Hg. destruct (bi_boxes _ _ Hi _ _ Hg) as (_ & _ & [(a & Ha & Hs & rest & Hk) _ _] & _). split.
  - rewrite (getAccountBalance_net _ _ _ Ha). unfold side. by rewrite Hs.
  - eapply (ll_net _ _ (bi_ledger _ _ Hi)); [done|]. eexists. exact Hk.
Qed.

(** Synchronising cannot fail, and reads the ledger's balance. *)
Lemma wp_syncFromLedger b y t (Q : Lockbox -> Sys * Lockboxes -> Prop) E :
  LockboxInv (uuids y) t -> map_get (lb_lockboxId b) (lockboxes t) = Some b ->
  (forall b' t', LockboxInv (uuids y) t' -> lockboxes_evolve t t' -> t' = put_lockbox b' t -> box_evolves b b' ->
     lb_status b' = lb_status b -> lb_balanceMinor b' = ledger_balance t b ->
     getAccountTurnover (ledger t) (lb_ledgerAccountId b) LedgerEntryDirection_DEBIT = Ok (lb_capturedRevenueMinor b') ->
     Q b' (y, t')) ->
  wp (syncFromLedger b) Q E (y, t).
Proof.
  intros Hi Hg HQ. destruct (ledger_balance_ok _ _ _ _ Hi Hg) as [Hb Hpos].
  destruct (bi_boxes _ _ Hi _ _ Hg) as (_ & _ & [(a & Ha & _) _ _] & _).
  destruct (getAccountTurnover_Ok _ _ _ LedgerEntryDirection_DEBIT Ha) as [z Hz].
  unfold syncFromLedger. svc_step. apply wp_own. svc_step. apply wp_lift; rewrite Hb; [done|]. intros ? [= <-]. cbv beta.
  svc_step. apply wp_lift; rewrite Hz; [done|]. intros ? [= <-]. cbv beta zeta. svc_step. svc_step. svc_step.
  destruct (put_lockbox_ok _ _ b (with_balance (ledger_balance t b) z b) Hi Hg) as [Hi' He']; [by split|done|].
  by eapply HQ.
Qed.

(** Reading a lockbox synchronises it. *)
Lemma wp_getLockbox id y t :
  LockboxInv (uuids y) t ->
  wp (getLockbox id)
    (fun b' s => kept y t s /\ exists b, map_get id (lockboxes t) = Some b /\ s.2 = put_lockbox b' t /\ box_evolves b b' /\
       lb_status b' = lb_status b /\ lb_balanceMinor b' = ledger_balance t b)
    (fun _ s => kept y t s) (y, t).
Proof.
  intros Hi. unfold getLockbox, requireLockbox. do 3 svc_step. svc_step; [|unchanged]. rename a into b, H1 into Hg.
  destruct (bi_boxes _ _ Hi _ _ Hg) as (Hid & _). pose proof Hg as Hg'. rewrite <- Hid in Hg'.
  apply wp_syncFromLedger; [done|done|]. intros. split; [by split_and!|]. by exists b.
Qed.

Lemma getLockbox_keeps id : keeps (getLockbox id).
Proof. intros y t Hi. eapply wp_mono; [by apply wp_getLockbox|by intros ? ? [? _]|done]. Qed.

(** ** Moving money *)

(** [amount] was debited to the account [dr] and credited to the account [cr]. *)
Definition transfers (amount : Z) (dr cr : string) (l l' : Ledger) : Prop :=
  forall id, net l' id = net l id + (if String.eqb dr id then amount else 0) - (if String.eqb cr id then amount else 0).

Lemma moved_pair key ty asset dr cr m name amount rt rid sid meta now id :
  assertPositiveMinorUnits m name = Ok amount ->
  moved (MkPostTransaction key ty asset
    [MkEntryInput dr LedgerEntryDirection_DEBIT (MString (toString amount));
     MkEntryInput cr LedgerEntryDirection_CREDIT (MString (toString amount))] rt rid sid meta now) id =
  (if String.eqb dr id then amount else 0) - (if String.eqb cr id then amount else 0).
Proof.
  intros Hm. unfold moved. cbn [pt_entries]. rewrite !sum_by_cons, sum_by_nil. unfold input_amount.
  cbn [ei_amountMinor ei_ledgerAccountId ei_direction]. rewrite (assertPositiveMinorUnits_reparse _ _ _ _ Hm).
  unfold signed. repeat case_match; lia.
Qed.

Lemma wp_transfer key ty asset dr cr m name amount rt rid sid meta now y t
    (Q : TransactionView * bool -> Sys * Lockboxes -> Prop) E :
  LockboxInv (uuids y) t -> assertPositiveMinorUnits m name = Ok amount ->
  (forall a, map_get cr (accounts (ledger t)) = Some a -> owned_by "lockbox" a -> amount <= net (ledger t) cr) ->
  (forall v y' l, kept y t (y', set_ledger l t) ->
     (v.2 = true /\ l = ledger t /\ key_used (ledger t) key \/ v.2 = false /\ transfers amount dr cr (ledger t) l) -> Q v (y', set_ledger l t)) ->
  (forall e y' l, kept y t (y', set_ledger l t) ->
     (l = ledger t \/ transfers amount dr cr (ledger t) l) -> E e (y', set_ledger l t)) ->
  wp (on_ledger (postTransaction (MkPostTransaction key ty asset
    [MkEntryInput dr LedgerEntryDirection_DEBIT (MString (toString amount));
     MkEntryInput cr LedgerEntryDirection_CREDIT (MString (toString amount))] rt rid sid meta now))) Q E (y, t).
Proof.
  intros Hi Hm Hcr HQ HE. apply wp_call. pose proof (assertPositiveMinorUnits_pos _ _ _ Hm) as Hpos.
  assert (Hmv : forall l, (forall id, net l id = net (ledger t) id + moved (MkPostTransaction key ty asset
    [MkEntryInput dr LedgerEntryDirection_DEBIT (MString (toString amount));
     MkEntryInput cr LedgerEntryDirection_CREDIT (MString (toString amount))] rt rid sid meta now) id) ->
    transfers amount dr cr (ledger t) l).
  { intros l Hl id. rewrite Hl, (moved_pair _ _ _ _ _ _ _ _ _ _ _ _ _ _ Hm). lia. }
  eapply wp_mono; [apply wp_post; [apply Hi|]|..].
  - intros id a Ha Ho. rewrite (moved_pair _ _ _ _ _ _ _ _ _ _ _ _ _ _ Hm).
    pose proof (ll_net _ _ (bi_ledger _ _ Hi) _ _ Ha Ho). destruct (String.eqb_spec cr id) as [->|].
    + pose proof (Hcr _ Ha Ho). case_match; lia.
    + case_match; lia.
  - intros v [y' l] [Hk Hv]. apply HQ; [by apply (kept_ledger y t (y', l))|]. cbn in Hv. naive_solver.
  - intros e [y' l] [Hk Hv]. apply HE; [by apply (kept_ledger y t (y', l))|]. cbn in Hv. naive_solver.
Qed.

(** The end of both operations: synchronise, stamp, and report. *)
Lemma wp_settle b (report : Lockbox -> M Sys unit) c y t (Q : Lockbox -> Sys * Lockboxes -> Prop) E :
  LockboxInv (uuids y) t -> map_get (lb_lockboxId b) (lockboxes t) = Some b -> (forall b, growing (report b)) ->
  (forall b' s, kept y t s -> ledger s.2 = ledger t -> box_evolves b b' -> lb_balanceMinor b' = ledger_balance t b -> Q b' s) ->
  (forall e s, kept y t s -> ledger s.2 = ledger t -> E e s) ->
  wp (settle b c report) Q E (y, t).
Proof.
  intros Hi Hg Hrep HQ HE. apply wp_bind, wp_syncFromLedger; [done|done|].
  intros b' t' Hi' He' Ht' Hb' _ Hbal _. cbv beta. svc_step. apply (wp_now None). intros at_ y1 Hu1 Hg1. cbv beta zeta.
  assert (Hg' : map_get (lb_lockboxId b') (lockboxes t') = Some b') by (rewrite Ht'; cbn; by rewrite map_get_set_eq).
  assert (Hpos : 0 <= lb_balanceMinor b') by (rewrite Hbal; by eapply ledger_balance_ok).
  rewrite <- Hu1 in Hi'. destruct (put_lockbox_ok _ _ b' (with_updatedAt (toISOString at_) b') Hi' Hg') as [Hi2 He2];
    [by split|done|].
  assert (Hk : forall y2, grows y1 y2 -> kept y t (y2, put_lockbox (with_updatedAt (toISOString at_) b') t')).
  { intros y2 Hg2. eapply kept_step; [apply LockboxInv_mono|exact Hi2|grows|grows|by etrans]. }
  apply wp_bind, wp_update, wp_bind, wp_when; [intros _; apply wp_sys; [apply Hrep|..]|intros _]; intros.
  - apply wp_ret, HQ; [by apply Hk|by rewrite Ht'|by etrans; [exact Hb'|split]|done].
  - apply HE; [by apply Hk|by rewrite Ht'].
  - apply wp_ret, HQ; [by apply Hk|by rewrite Ht'|by etrans; [exact Hb'|split]|done].
Qed.

(** What a capture or a reduction did: it moved [amount] once, or found it moved. *)
Record money_moved (t : Lockboxes) (id : string) (m : minor) (dr cr : Lockbox -> string) (reused : Prop)
    (t' : Lockboxes) (b : Lockbox) (amount : Z) : Prop := {
  mm_found : map_get id (lockboxes t) = Some b;
  mm_amount : assertPositiveMinorUnits m "amountMinor" = Ok amount;
  mm_ledger : (ledger t' = ledger t /\ reused) \/ transfers amount (dr b) (cr b) (ledger t) (ledger t') }.

(** The key of the call, given or minted with [prefix], is on the books. *)
Definition reuses (t : Lockboxes) (prefix : string) (key : option string) : Prop :=
  exists k, key_used (ledger t) k /\ (key = Some k \/ key = None /\ exists n, k = id_of prefix n).

Lemma wp_key_or key prefix (Q : string -> Sys * Lockboxes -> Prop) E y t :
  (forall k y', grows y y' -> key = Some k \/ key = None /\ (exists n, k = id_of prefix n) -> Q k (y', t)) ->
  wp (sys (key_or key prefix)) Q E (y, t).
Proof.
  intros HQ. destruct key as [k|]; [apply wp_sys_ret, HQ; [done|by left]|].
  apply wp_new_id. intros y' _ Hg. apply HQ; [done|right]. split; [done|by eexists].
Qed.

Lemma wp_captureRevenue id m source key y t :
  LockboxInv (uuids y) t ->
  wp (captureRevenue id m source key)
    (fun b' s => kept y t s /\ exists b amount,
       money_moved t id m lb_ledgerAccountId lb_revenueLedgerAccountId (reuses t "revenue_capture" key) s.2 b amount /\
       lb_status b = LockboxStatus_ACTIVE /\ box_evolves b b' /\ lb_balanceMinor b' = ledger_balance s.2 b)
    (fun _ s => kept y t s /\ (ledger s.2 = ledger t \/ exists b amount,
       money_moved t id m lb_ledgerAccountId lb_revenueLedgerAccountId (reuses t "revenue_capture" key) s.2 b amount)) (y, t).
Proof.
  intros Hi. unfold captureRevenue, requireLockbox. svc_step. apply wp_key_or. intros k y1 Hg1 Hkey. cbv beta. do 3 svc_step. svc_step; [|split; [unchanged|by left]]. rename a into b, H1 into Hg.
  svc_step. svc_step; [split; [unchanged|by left]|].
  match goal with E : negb (bool_decide _) = false |- _ => apply negb_false_iff, bool_decide_eq_true in E; rename E into Hst end.
  svc_step. svc_step; [split; [unchanged|by left]|].
  match goal with E : assertPositiveMinorUnits _ _ = Ok ?z |- _ => rename z into amount, E into Ham end.
  svc_step. svc_step; [split; [unchanged|by left]|].
  destruct (bi_boxes _ _ Hi _ _ Hg) as (Hid & _ & [_ (ar & Har & Hsr) _] & _).
  assert (Hk1 : kept y t (y1, t)) by (unchanged).
  svc_step. eapply wp_transfer; [apply Hk1|done|..].
  { intros acc Hacc Ho. destruct (owned_lockbox_system acc Ho). congruence. }
  2: { intros e y' l Hk Hl. split; [by after Hk1|]. destruct Hl as [Hl|Hl]; [by left|right]. exists b, amount. split; [done|done|by right]. }
  intros v y2 l Hk Hl. cbv beta. apply wp_settle; [apply Hk|cbn; by rewrite Hid|intros; apply growing_emit|..].
  - intros b' s Hks Hls Hb' Hbal. split; [after Hk1; by after Hk|]. exists b, amount. split_and!; [|done|done|].
    + split; [done|done|]. rewrite Hls. destruct Hl as [(_ & Hl & Hu)|[_ Hl]]; [left; split; [done|by exists k]|by right].
    + unfold ledger_balance in *. by rewrite Hls.
  - intros e s Hks Hls. split; [after Hk1; by after Hk|]. right. exists b, amount. split; [done|done|].
    rewrite Hls. destruct Hl as [(_ & Hl & Hu)|[_ Hl]]; [left; split; [done|by exists k]|by right].
Qed.

Lemma wp_reduceBalance id m reason key y t :
  LockboxInv (uuids y) t ->
  wp (reduceBalance id m reason key)
    (fun b' s => kept y t s /\ exists b amount,
       money_moved t id m lb_repaymentLedgerAccountId lb_ledgerAccountId (reuses t "lockbox_debit" key) s.2 b amount /\
       lb_status b <> LockboxStatus_CLOSED /\ amount <= ledger_balance t b /\
       box_evolves b b' /\ lb_balanceMinor b' = ledger_balance s.2 b)
    (fun _ s => kept y t s /\ (ledger s.2 = ledger t \/ exists b amount,
       money_moved t id m lb_repaymentLedgerAccountId lb_ledgerAccountId (reuses t "lockbox_debit" key) s.2 b amount)) (y, t).
Proof.
  intros Hi. unfold reduceBalance, requireLockbox. svc_step. apply wp_key_or. intros k y1 Hg1 Hkey. cbv beta. do 3 svc_step. svc_step; [|split; [unchanged|by left]]. rename a into b, H1 into Hg.
  svc_step. svc_step; [split; [unchanged|by left]|].
  match goal with E : bool_decide _ = false |- _ => apply bool_decide_eq_false in E; rename E into Hst end.
  svc_step. svc_step; [split; [unchanged|by left]|].
  match goal with E : assertPositiveMinorUnits _ _ = Ok ?z |- _ => rename z into amount, E into Ham end.
  svc_step. svc_step; [split; [unchanged|by left]|].
  destruct (bi_boxes _ _ Hi _ _ Hg) as (Hid & _).
  assert (Hk1 : kept y t (y1, t)) by (unchanged).
  svc_step. apply wp_syncFromLedger; [apply Hk1|by rewrite Hid|].
  intros b1 t1 Hi1 He1 Ht1 Hb1 _ Hbal1 _. cbv beta.
  assert (Hk2 : kept y t (y1, t1)) by (after Hk1; split_and!; done).
  assert (Hl1 : ledger t1 = ledger t) by (by rewrite Ht1).
  svc_step. apply wp_throw_if; [intros _; split; [done|by left]|]. intros Hge%Z.ltb_ge. cbv beta. rewrite Hbal1 in Hge.
  svc_step. eapply wp_transfer; [apply Hi1|done|..].
  { intros acc _ _. rewrite Hl1, (be_account _ _ Hb1). done. }
  2: { intros e y' l Hk Hl. split; [by after Hk2|]. cbn. rewrite Hl1 in *. destruct Hl as [Hl|Hl]; [by left|right].
       exists b, amount. split; [done|done|right]. by rewrite (be_account _ _ Hb1), (be_repayment _ _ Hb1) in Hl. }
  intros v y2 l Hk Hl. cbv beta.
  assert (Hl' : (l = ledger t /\ reuses t "lockbox_debit" key) \/ transfers amount (lb_repaymentLedgerAccountId b) (lb_ledgerAccountId b) (ledger t) l).
  { rewrite (be_account _ _ Hb1), (be_repayment _ _ Hb1), Hl1 in Hl. destruct Hl as [(_ & Hl & Hu)|[_ Hl]]; [left; split; [done|by exists k]|by right]. }
  apply wp_settle; [apply Hk| |intros; apply growing_emit|..].
  - rewrite Ht1. cbn. by rewrite map_get_set_eq.
  - intros b' s Hks Hls Hb' Hbal. split; [after Hk2; by after Hk|]. exists b, amount. split_and!; [|done|done|by etrans|].
    + split; [done|done|]. by rewrite Hls.
    + unfold ledger_balance in *. by rewrite Hls, <- (be_account _ _ Hb1).
  - intros e s Hks Hls. split; [after Hk2; by after Hk|]. right. exists b, amount. split; [done|done|]. by rewrite Hls.
Qed.

Lemma captureRevenue_keeps id m source key : keeps (captureRevenue id m source key).
Proof. intros y t Hi. eapply wp_mono; [by apply wp_captureRevenue|..]; by intros ? ? [? _]. Qed.
Lemma reduceBalance_keeps id m reason key : keeps (reduceBalance id m reason key).
Proof. intros y t Hi. eapply wp_mono; [by apply wp_reduceBalance|..]; by intros ? ? [? _]. Qed.

Lemma wp_sync_all bs y t :
  LockboxInv (uuids y) t -> NoDup (lb_lockboxId <$> bs) ->
  (forall b, b ∈ bs -> map_get (lb_lockboxId b) (lockboxes t) = Some b) ->
  wp (map_m syncFromLedger bs) (fun _ => kept y t) (fun _ => kept y t) (y, t).
Proof.
  revert t. induction bs as [|b bs IH]; intros t Hi Hnd Hin; cbn [map_m]; [apply wp_ret; unchanged|].
  apply wp_bind, wp_syncFromLedger; [done|apply Hin; left|]. intros b' t' Hi' He' Ht' Hb' _ _ _. cbv beta.
  cbn in Hnd. apply NoDup_cons in Hnd as [Hnb Hnd].
  assert (Hk : kept y t (y, t')) by by split_and!.
  apply wp_bind. eapply wp_mono; [apply IH; [done|done|]|..].
  - intros b1 Hb1. rewrite Ht'. cbn. rewrite (be_id _ _ Hb'), map_get_set_ne; [apply Hin; by right|].
    intros E. apply Hnb. rewrite E. apply list_elem_of_fmap. by exists b1.
  - intros bs' [y2 t2] Hk2. apply wp_ret. by after Hk.
  - intros e s Hk2. by after Hk.
Qed.

Lemma listLockboxes_keeps : keeps listLockboxes.
Proof.
  intros y t Hi. unfold listLockboxes. apply wp_bind, wp_own.
  assert (Hv : forall b, b ∈ map_values (lockboxes t) -> map_get (lb_lockboxId b) (lockboxes t) = Some b).
  { intros b ([k b'] & -> & Hb)%list_elem_of_fmap. cbn. apply elem_map_get in Hb; [|apply Hi].
    by destruct (bi_boxes _ _ Hi _ _ Hb) as [-> _]. }
  apply wp_sync_all; [done| |done].
  replace (lb_lockboxId <$> map_values (lockboxes t)) with (map_keys (lockboxes t)); [apply Hi|].
  unfold map_keys, map_values. rewrite <- list_fmap_compose. apply list_fmap_ext. intros i [k b] Hb. cbn.
  apply list_elem_of_lookup_2, elem_map_get in Hb; [|apply Hi]. by destruct (bi_boxes _ _ Hi _ _ Hb) as [-> _].
Qed.

(** ** Executions *)

Inductive lockbox_call :=
| CallCreateLockbox (subjectId : option string) (assetId accountId : string)
| CallActivateLockbox (lockboxId : string)
| CallFreezeLockbox (lockboxId : string) (reason : option string)
| CallCloseLockbox (lockboxId : string) (reason : option string)
| CallCaptureRevenue (lockboxId : string) (amountMinor : minor) (source : string) (idempotencyKey : option string)
| CallReduceBalance (lockboxId : string) (amountMinor : minor) (reason : string) (idempotencyKey : option string)
| CallGetLockbox (lockboxId : string)
| CallListLockboxes.

Definition run_lockbox (c : lockbox_call) : M (Sys * Lockboxes) unit :=
  match c with
  | CallCreateLockbox sid asset acc => createLockbox sid asset acc ;; mret ()
  | CallActivateLockbox id => activateLockbox id ;; mret ()
  | CallFreezeLockbox id reason => freezeLockbox id reason ;; mret ()
  | CallCloseLockbox id reason => closeLockbox id reason ;; mret ()
  | CallCaptureRevenue id m source key => captureRevenue id m source key ;; mret ()
  | CallReduceBalance id m reason key => reduceBalance id m reason key ;; mret ()
  | CallGetLockbox id => getLockbox id ;; mret ()
  | CallListLockboxes => listLockboxes ;; mret ()
  end.

Lemma run_lockbox_keeps c : keeps (run_lockbox c).
Proof.
  destruct c; (apply keeps_bind; [apply _| |intros ?; apply keeps_ret; [apply _|apply LockboxInv_mono]]);
    auto using createLockbox_keeps, lockbox_setStatus_keeps, captureRevenue_keeps, reduceBalance_keeps, getLockbox_keeps,
      listLockboxes_keeps; apply lockbox_setStatus_keeps.
Qed.

Lemma run_lockboxes_ok cs y :
  LockboxInv (uuids (exec run_lockbox cs (y, empty_lockboxes)).1) (exec run_lockbox cs (y, empty_lockboxes)).2.
Proof. apply (exec_kept _ _ LockboxInv_mono run_lockbox cs y empty_lockboxes run_lockbox_keeps), LockboxInv_empty. Qed.

(** Different lockboxes have different ledger accounts. *)
Lemma accounts_distinct n t id1 id2 b1 b2 :
  LockboxInv n t -> map_get id1 (lockboxes t) = Some b1 -> map_get id2 (lockboxes t) = Some b2 -> id1 <> id2 ->
  lb_ledgerAccountId b1 <> lb_ledgerAccountId b2.
Proof.
  intros Hi H1 H2 Hne Heq.
  destruct (bi_boxes _ _ Hi _ _ H1) as (E1 & (k1 & _ & M1) & [(a1 & Ha1 & _ & r1 & K1) _ _] & _).
  destruct (bi_boxes _ _ Hi _ _ H2) as (E2 & (k2 & _ & M2) & [(a2 & Ha2 & _ & r2 & K2) _ _] & _).
  rewrite Heq, Ha2 in Ha1. injection Ha1 as ->. rewrite K1, E1, E2, M1, M2 in K2. apply Hne. rewrite M1, M2.
  unfold id_of in *. injection K2 as K2.
  apply (prefix_nul (randomUUID k1) (randomUUID k2)) in K2; [by rewrite K2|apply randomUUID_chars..].
Qed.

Lemma transfers_other n t l id1 id2 b1 b2 amount dr cr :
  LockboxInv n t -> map_get id1 (lockboxes t) = Some b1 -> map_get id2 (lockboxes t) = Some b2 -> id1 <> id2 ->
  (dr = lb_ledgerAccountId b1 /\ cr = lb_revenueLedgerAccountId b1 \/
   dr = lb_repaymentLedgerAccountId b1 /\ cr = lb_ledgerAccountId b1) ->
  transfers amount dr cr (ledger t) l -> net l (lb_ledgerAccountId b2) = net (ledger t) (lb_ledgerAccountId b2).
Proof.
  intros Hi H1 H2 Hne Hd Ht. rewrite Ht. pose proof (accounts_distinct _ _ _ _ _ _ Hi H1 H2 Hne) as Hacc.
  destruct (bi_boxes _ _ Hi _ _ H2) as (_ & _ & [(a2 & Ha2 & _ & r2 & K2) _ _] & _).
  destruct (bi_boxes _ _ Hi _ _ H1) as (_ & _ & [_ (ar & Har & Hsr) (ap & Hap & Hsp)] & _).
  assert (Ho : owned_by "lockbox" a2) by (eexists; exact K2).
  assert (lb_revenueLedgerAccountId b1 <> lb_ledgerAccountId b2)
    by (intros E; rewrite E in Har; simplify_eq; by eapply owned_lockbox_system).
  assert (lb_repaymentLedgerAccountId b1 <> lb_ledgerAccountId b2)
    by (intros E; rewrite E in Hap; simplify_eq; by eapply owned_lockbox_system).
  destruct Hd as [[-> ->]|[-> ->]]; rewrite !(proj2 (String.eqb_neq _ _)) by done; lia.
Qed.

Lemma transfers_self n t l id b amount :
  LockboxInv n t -> map_get id (lockboxes t) = Some b ->
  (transfers amount (lb_ledgerAccountId b) (lb_revenueLedgerAccountId b) (ledger t) l ->
   net l (lb_ledgerAccountId b) = ledger_balance t b + amount) /\
  (transfers amount (lb_repaymentLedgerAccountId b) (lb_ledgerAccountId b) (ledger t) l ->
   net l (lb_ledgerAccountId b) = ledger_balance t b - amount).
Proof.
  intros Hi Hg.
  destruct (bi_boxes _ _ Hi _ _ Hg) as (_ & _ & [(a & Ha & _ & r & K) (ar & Har & Hsr) (ap & Hap & Hsp)] & _).
  assert (Ho : owned_by "lockbox" a) by (eexists; exact K).
  assert (lb_revenueLedgerAccountId b <> lb_ledgerAccountId b)
    by (intros E; rewrite E in Har; simplify_eq; by eapply owned_lockbox_system).
  assert (lb_repaymentLedgerAccountId b <> lb_ledgerAccountId b)
    by (intros E; rewrite E in Hap; simplify_eq; by eapply owned_lockbox_system).
  split; intros Ht; rewrite Ht, String.eqb_refl, (proj2 (String.eqb_neq _ _)) by done; unfold ledger_balance; lia.
Qed.

(** C8: a lockbox is never overdrawn.  After any calls from an empty service,
    whichever of them threw, reading an existing lockbox succeeds and reports
    the balance of its ledger account: the revenue captured less what was
    debited, never negative. *)
Theorem lockbox_never_overdrawn cs y id b :
  map_get id (lockboxes (exec run_lockbox cs (y, empty_lockboxes)).2) = Some b ->
  let l := ledger (exec run_lockbox cs (y, empty_lockboxes)).2 in
  exists b' s' spent, getLockbox id (exec run_lockbox cs (y, empty_lockboxes)) = (Ok b', s') /\
    ledger s'.2 = l /\ getAccountBalance l (lb_ledgerAccountId b) = Ok (lb_balanceMinor b') /\
    getAccountTurnover l (lb_ledgerAccountId b) LedgerEntryDirection_CREDIT = Ok spent /\
    lb_balanceMinor b' = lb_capturedRevenueMinor b' - spent /\ 0 <= lb_balanceMinor b'.
Proof.
  intros Hg. pose proof (run_lockboxes_ok cs y) as Hi. destruct (exec run_lockbox cs _) as [y1 t1]. cbn [fst snd] in *.
  destruct (ledger_balance_ok _ _ _ _ Hi Hg) as [Hb Hpos].
  destruct (bi_boxes _ _ Hi _ _ Hg) as (Hid & _ & [(a & Ha & Hside & _) _ _] & _).
  destruct (getAccountTurnover_Ok _ _ _ LedgerEntryDirection_CREDIT Ha) as [spent Hs].
  assert (R : wp (getLockbox id) (fun b' s => ledger s.2 = ledger t1 /\ lb_balanceMinor b' = ledger_balance t1 b /\
    getAccountTurnover (ledger t1) (lb_ledgerAccountId b) LedgerEntryDirection_DEBIT = Ok (lb_capturedRevenueMinor b'))
    (fun _ _ => False) (y1, t1)).
  { unfold getLockbox, requireLockbox. do 3 svc_step. rewrite Hg. cbn [some_or]. apply wp_ret.
    apply wp_syncFromLedger; [done|by rewrite Hid|]. intros b' t' _ _ -> _ _ Hbal Hcap. done. }
  unfold wp in R. destruct (getLockbox id (y1, t1)) as [[b'|] s']; [|done]. destruct R as (Hl & Hbal & Hcap).
  exists b', s', spent. rewrite Hbal. split_and!; try done.
  unfold getAccountBalance, requireAccount in Hb. rewrite Ha in Hb. cbn [mbind result_bind] in Hb.
  rewrite Hcap, Hs in Hb. cbn [mbind result_bind] in Hb. rewrite Hside in Hb. by injection Hb.
Qed.

(** revenue is captured once and only into its lockbox.  A capture that
    returns found the lockbox active and either credited exactly the amount to
    it or, for a key already used for the same capture, changed nothing on the
    ledger; the balance it returns is the ledger's, and no other lockbox's
    balance moved. *)
Theorem captureRevenue_exact cs y id m source key b' s' :
  captureRevenue id m source key (exec run_lockbox cs (y, empty_lockboxes)) = (Ok b', s') ->
  let t := (exec run_lockbox cs (y, empty_lockboxes)).2 in
  exists b amount, map_get id (lockboxes t) = Some b /\ lb_status b = LockboxStatus_ACTIVE /\
    assertPositiveMinorUnits m "amountMinor" = Ok amount /\
    lb_balanceMinor b' = ledger_balance s'.2 b /\
    (ledger s'.2 = ledger t /\ reuses t "revenue_capture" key \/ ledger_balance s'.2 b = ledger_balance t b + amount) /\
    forall id2 b2, id <> id2 -> map_get id2 (lockboxes t) = Some b2 -> ledger_balance s'.2 b2 = ledger_balance t b2.
Proof.
  intros Hrun. pose proof (run_lockboxes_ok cs y) as Hi. destruct (exec run_lockbox cs _) as [y1 t1]. cbn [fst snd] in *.
  destruct (wp_run _ _ _ _ _ _ (wp_captureRevenue id m source key y1 t1 Hi) Hrun)
    as (_ & b & amount & [Hg Ha Hl] & Hst & _ & Hbal).
  exists b, amount. split_and!; [done..| |].
  - destruct Hl as [Hl|Hl]; [by left|right]. by apply (transfers_self _ _ _ _ _ _ Hi Hg).
  - intros id2 b2 Hne Hg2. unfold ledger_balance. destruct Hl as [[-> _]|Hl]; [done|].
    eapply (transfers_other _ _ _ id id2 b b2); [done..| |done]. by left.
Qed.

(** A debit never exceeds the balance.  A reduction that returns found the
    lockbox open and at least the amount on its ledger account, and either took
    exactly the amount from it or, for a key already used for the same debit,
    changed nothing on the ledger; no other lockbox's balance moved. *)
Theorem reduceBalance_exact cs y id m reason key b' s' :
  reduceBalance id m reason key (exec run_lockbox cs (y, empty_lockboxes)) = (Ok b', s') ->
  let t := (exec run_lockbox cs (y, empty_lockboxes)).2 in
  exists b amount, map_get id (lockboxes t) = Some b /\ lb_status b <> LockboxStatus_CLOSED /\
    assertPositiveMinorUnits m "amountMinor" = Ok amount /\ amount <= ledger_balance t b /\
    lb_balanceMinor b' = ledger_balance s'.2 b /\
    (ledger s'.2 = ledger t /\ reuses t "lockbox_debit" key \/ ledger_balance s'.2 b = ledger_balance t b - amount) /\
    forall id2 b2, id <> id2 -> map_get id2 (lockboxes t) = Some b2 -> ledger_balance s'.2 b2 = ledger_balance t b2.
Proof.
  intros Hrun. pose proof (run_lockboxes_ok cs y) as Hi. destruct (exec run_lockbox cs _) as [y1 t1]. cbn [fst snd] in *.
  destruct (wp_run _ _ _ _ _ _ (wp_reduceBalance id m reason key y1 t1 Hi) Hrun)
    as (_ & b & amount & [Hg Ha Hl] & Hst & Hge & _ & Hbal).
  exists b, amount. split_and!; [done..| |].
  - destruct Hl as [Hl|Hl]; [by left|right]. by apply (transfers_self _ _ _ _ _ _ Hi Hg).
  - intros id2 b2 Hne Hg2. unfold ledger_balance. destruct Hl as [[-> _]|Hl]; [done|].
    eapply (transfers_other _ _ _ id id2 b b2); [done..| |done]. by right.
Qed.
End lockboxes.
