(* ===== verification/Mandate.v ===== *)
(** * Mandates

    [MandateService] of src/modules/authorization/src/mandate-service.js, with
    [createMandate] of src/packages/domain/src/models.js.  Lists of strings are
    typed, so the [Array.isArray] tests do not arise; the flags [sandboxOnly]
    and [productionAuthority] are the constants the hashes contain. *)

From stdpp Require Import base tactics sets relations gmap numbers strings list.
From S2P Require Import Prelude Js Enums EventStore Service.
Local Open Scope string_scope.
Local Open Scope Z_scope.

(** ** Data *)

Record Mandate := MkMandate {
  ma_mandateId : string; ma_mandateHash : string; ma_termsHash : string; ma_principalId : string;
  ma_subjectId : string; ma_capabilities : list string; ma_allowedProviderIds : list string;
  ma_allowedCategories : list string; ma_assetIds : list string; ma_perActionLimitMinor : Z;
  ma_aggregateLimitMinor : Z; ma_utilizedMinor : Z; ma_validFrom : string; ma_expiresAt : string;
  ma_nonce : string; ma_termsRef : string; ma_status : MandateStatus; ma_createdAt : string;
  ma_updatedAt : string }.

Record Reservation := MkReservation {
  rs_reservationId : string; rs_reservationHash : string; rs_mandateId : string; rs_subjectId : string;
  rs_capability : string; rs_providerId : option string; rs_category : option string; rs_assetId : string;
  rs_amountMinor : Z; rs_releasedMinor : Z; rs_createdAt : string }.

Record Release := MkRelease {
  rl_releaseId : string; rl_releaseHash : string; rl_mandateId : string; rl_reservationId : string;
  rl_amountMinor : Z; rl_reason : string; rl_createdAt : string }.

Record Mandates := MkMandates {
  mandates : jsmap Mandate; mandateIdsByPrincipalNonce : jsmap string;
  reservations : jsmap Reservation; releases : jsmap Release }.

Definition empty_mandates : Mandates := MkMandates [] [] [] [].

Record CreateMandate := MkCreateMandate {
  cm_principalId : string; cm_subjectId : string; cm_nonce : string; cm_termsRef : string;
  cm_capabilities : list string; cm_allowedProviderIds : list string; cm_allowedCategories : list string;
  cm_assetIds : list string; cm_perActionLimitMinor : minor; cm_aggregateLimitMinor : minor;
  cm_validFrom : option string; cm_expiresAt : option string; cm_now : option Z }.

(** The argument of [assertAuthorized]; [None] is an absent property. *)
Record Authorize := MkAuthorize {
  az_mandateId : string; az_subjectId : string; az_capability : string; az_providerId : option string;
  az_category : option string; az_assetId : string; az_amountMinor : option minor;
  az_enforceAggregateLimit : bool; az_now : option Z }.

Record ReleaseUtilization := MkReleaseUtilization {
  ru_mandateId : string; ru_reservationId : string; ru_releaseId : string; ru_amountMinor : minor;
  ru_reason : string; ru_now : option Z }.

Definition put_mandate (m : Mandate) (t : Mandates) : Mandates :=
  MkMandates (map_set (ma_mandateId m) m (mandates t)) (mandateIdsByPrincipalNonce t) (reservations t) (releases t).
Definition put_nonce (key id : string) (t : Mandates) : Mandates :=
  MkMandates (mandates t) (map_set key id (mandateIdsByPrincipalNonce t)) (reservations t) (releases t).
Definition put_reservation (r : Reservation) (t : Mandates) : Mandates :=
  MkMandates (mandates t) (mandateIdsByPrincipalNonce t) (map_set (rs_reservationId r) r (reservations t)) (releases t).
Definition put_release (r : Release) (t : Mandates) : Mandates :=
  MkMandates (mandates t) (mandateIdsByPrincipalNonce t) (reservations t) (map_set (rl_releaseId r) r (releases t)).

Definition with_status (st : MandateStatus) (at_ : string) (m : Mandate) : Mandate :=
  MkMandate (ma_mandateId m) (ma_mandateHash m) (ma_termsHash m) (ma_principalId m) (ma_subjectId m)
    (ma_capabilities m) (ma_allowedProviderIds m) (ma_allowedCategories m) (ma_assetIds m)
    (ma_perActionLimitMinor m) (ma_aggregateLimitMinor m) (ma_utilizedMinor m) (ma_validFrom m) (ma_expiresAt m)
    (ma_nonce m) (ma_termsRef m) st (ma_createdAt m) at_.
Definition with_utilized (utilized : Z) (at_ : string) (m : Mandate) : Mandate :=
  MkMandate (ma_mandateId m) (ma_mandateHash m) (ma_termsHash m) (ma_principalId m) (ma_subjectId m)
    (ma_capabilities m) (ma_allowedProviderIds m) (ma_allowedCategories m) (ma_assetIds m)
    (ma_perActionLimitMinor m) (ma_aggregateLimitMinor m) utilized (ma_validFrom m) (ma_expiresAt m)
    (ma_nonce m) (ma_termsRef m) (ma_status m) (ma_createdAt m) at_.
Definition with_released (released : Z) (r : Reservation) : Reservation :=
  MkReservation (rs_reservationId r) (rs_reservationHash r) (rs_mandateId r) (rs_subjectId r) (rs_capability r)
    (rs_providerId r) (rs_category r) (rs_assetId r) (rs_amountMinor r) released (rs_createdAt r).

(** ** Helpers *)

Definition includes (l : list string) (o : option string) : bool :=
  match o with Some s => bool_decide (s ∈ l) | None => false end.

Definition uniqueStrings (name : string) (values : list string) (allowEmpty : bool) : result (list string) :=
  guard (negb allowEmpty && (length values =? 0)%nat) "invalid_string_list"
    (name +:+ " must be " +:+ (if allowEmpty then "an" else "a non-empty") +:+ " array") ;;
  normalized ← collect (fun v => assertNonEmptyString name (JStr v) ;; Ok v) values;
  guard (negb (bool_decide (NoDup normalized))) "duplicate_scope_value" (name +:+ " cannot contain duplicates") ;;
  Ok normalized.

Definition strings_json (l : list string) : json := JArr (map JStr l).

Section operations.
Context `{Platform}.

(** [now < new Date(value)] and [now >= new Date(value)]: false on an invalid date. *)
Definition before_date (now : Z) (value : string) : bool :=
  match date_parse value with Some d => now <? d | None => false end.
Definition from_date (now : Z) (value : string) : bool :=
  match date_parse value with Some d => d <=? now | None => false end.

(** ** Creation *)

(** The constructor of models.js, on the validated terms. *)
Definition newMandate (i : CreateMandate) (perAction aggregate : Z) (validFrom expiresAt : string) (now : Z)
    : M Sys Mandate :=
  let termsCore :=
    [("capabilities", strings_json (cm_capabilities i)); ("allowedProviderIds", strings_json (cm_allowedProviderIds i));
     ("allowedCategories", strings_json (cm_allowedCategories i)); ("assetIds", strings_json (cm_assetIds i));
     ("perActionLimitMinor", JStr (toString perAction)); ("aggregateLimitMinor", JStr (toString aggregate));
     ("validFrom", JStr validFrom); ("expiresAt", JStr expiresAt); ("nonce", JStr (cm_nonce i));
     ("termsRef", JStr (cm_termsRef i)); ("sandboxOnly", JBool true); ("productionAuthority", JBool false)] in
  mandateId ← createOperationalId "mandate";
  mret (MkMandate mandateId
    (hashId "mandate" (JObj ([("principalId", JStr (cm_principalId i)); ("subjectId", JStr (cm_subjectId i))] ++ termsCore)))
    (hashId "mandate_terms" (JObj termsCore)) (cm_principalId i) (cm_subjectId i) (cm_capabilities i)
    (cm_allowedProviderIds i) (cm_allowedCategories i) (cm_assetIds i) perAction aggregate 0 validFrom expiresAt
    (cm_nonce i) (cm_termsRef i) MandateStatus_DRAFT (toISOString now) (toISOString now)).

Definition requireMandate (mandateId : string) : M (Sys * Mandates) Mandate :=
  m ← own mandates;
  some_or (map_get mandateId m) "mandate_not_found" "mandate not found".

(** The checks of [createMandate] that read no state: the limits and the window. *)
Definition check_terms (i : CreateMandate) (now : Z) : result (Z * Z * Z * Z) :=
  let validFrom := default (toISOString now) (cm_validFrom i) in
  let expiresAt := default (toISOString (now + 365 * 86400000)) (cm_expiresAt i) in
  validFromDate ← parseTimestamp "validFrom" (JStr validFrom);
  expiresAtDate ← parseTimestamp "expiresAt" (JStr expiresAt);
  guard (expiresAtDate <=? validFromDate) "invalid_mandate_window" "expiresAt must be after validFrom" ;;
  capabilities ← uniqueStrings "capabilities" (cm_capabilities i) false;
  collect (fun c => assertEnumValue "capability" c (enumValues MandateCapability)) capabilities ;;
  uniqueStrings "allowedProviderIds" (cm_allowedProviderIds i) true ;;
  uniqueStrings "allowedCategories" (cm_allowedCategories i) true ;;
  uniqueStrings "assetIds" (cm_assetIds i) false ;;
  perActionLimit ← assertPositiveMinorUnits (cm_perActionLimitMinor i) "perActionLimitMinor";
  aggregateLimit ← assertPositiveMinorUnits (cm_aggregateLimitMinor i) "aggregateLimitMinor";
  guard (aggregateLimit <? perActionLimit) "invalid_mandate_limits" "per-action limit cannot exceed aggregate limit" ;;
  Ok (validFromDate, expiresAtDate, perActionLimit, aggregateLimit).

Definition createMandate (i : CreateMandate) : M (Sys * Mandates) Mandate :=
  lift (assertNonEmptyString "principalId" (JStr (cm_principalId i))) ;;
  lift (assertNonEmptyString "subjectId" (JStr (cm_subjectId i))) ;;
  lift (assertNonEmptyString "nonce" (JStr (cm_nonce i))) ;;
  lift (assertNonEmptyString "termsRef" (JStr (cm_termsRef i))) ;;
  lift (assertNoRawPiiReference (JObj [("termsRef", JStr (cm_termsRef i))])) ;;
  now ← sys (default_now (cm_now i));
  terms ← lift (check_terms i now);
  let '(validFromDate, expiresAtDate, perActionLimit, aggregateLimit) := terms in
  mandate ← sys (newMandate i perActionLimit aggregateLimit (toISOString validFromDate) (toISOString expiresAtDate) now);
  let nonceKey := ma_principalId mandate +:+ NUL +:+ ma_nonce mandate in
  existingId ← own (fun t => truthy (map_get nonceKey (mandateIdsByPrincipalNonce t)));
  match existingId with
  | Some existingId =>
      existing ← requireMandate existingId;
      throw_if (negb (String.eqb (ma_mandateHash existing) (ma_mandateHash mandate))) "mandate_nonce_conflict"
        "principal mandate nonce was reused with different terms" ;;
      mret existing
  | None =>
      update (put_mandate mandate) ;;
      update (put_nonce nonceKey (ma_mandateId mandate)) ;;
      sys (emit CreditEventType_MANDATE_CREATED (Some (ma_subjectId mandate)) None None
        (JObj [("mandateId", JStr (ma_mandateId mandate)); ("mandateHash", JStr (ma_mandateHash mandate));
               ("principalId", JStr (ma_principalId mandate)); ("capabilities", strings_json (ma_capabilities mandate));
               ("assetIds", strings_json (ma_assetIds mandate)); ("expiresAt", JStr (ma_expiresAt mandate))]) (Some now)) ;;
      mret mandate
  end.

(** ** Status *)

Definition setStatus (mandate : Mandate) (nextStatus : MandateStatus) (actorId reason : string) (now : Z)
    : M (Sys * Mandates) Mandate :=
  if bool_decide (ma_status mandate = nextStatus) then mret mandate else
  lift (assertNonEmptyString "actorId" (JStr actorId)) ;;
  lift (assertNonEmptyString "reason" (JStr reason)) ;;
  lift (assertTransition "mandate" MandateTransitions (ma_status mandate) nextStatus) ;;
  let previousStatus := ma_status mandate in
  let mandate := with_status nextStatus (toISOString now) mandate in
  update (put_mandate mandate) ;;
  sys (emit CreditEventType_MANDATE_STATUS_CHANGED (Some (ma_subjectId mandate)) None None
    (JObj [("mandateId", JStr (ma_mandateId mandate)); ("previousStatus", JStr (value previousStatus));
           ("newStatus", JStr (value nextStatus)); ("reason", JStr reason)]) (Some now)) ;;
  sys (emit_audit actorId ("mandate_" +:+ value nextStatus) "mandate" (ma_mandateId mandate) reason
    (JObj [("subjectId", JStr (ma_subjectId mandate)); ("previousStatus", JStr (value previousStatus));
           ("newStatus", JStr (value nextStatus))]) (Some now)) ;;
  mret mandate.

Definition activateMandate (mandateId actorId : string) (now : option Z) : M (Sys * Mandates) Mandate :=
  now ← sys (default_now now);
  mandate ← requireMandate mandateId;
  if bool_decide (ma_status mandate = MandateStatus_ACTIVE) then mret mandate else
  throw_if (before_date now (ma_validFrom mandate)) "mandate_not_yet_valid" "mandate cannot activate before validFrom" ;;
  if from_date now (ma_expiresAt mandate)
  then setStatus mandate MandateStatus_EXPIRED actorId "validity_window_elapsed" now
  else setStatus mandate MandateStatus_ACTIVE actorId "mandate_activated" now.

Definition suspendMandate (mandateId : string) (actorId : option string) (reason : string) (now : option Z)
    : M (Sys * Mandates) Mandate :=
  now ← sys (default_now now);
  lift (assertNonEmptyString "reason" (JStr reason)) ;;
  mandate ← requireMandate mandateId;
  setStatus mandate MandateStatus_SUSPENDED (default "system" actorId) reason now.

Definition revokeMandate (mandateId : string) (actorId : option string) (reason : string) (now : option Z)
    : M (Sys * Mandates) Mandate :=
  now ← sys (default_now now);
  lift (assertNonEmptyString "reason" (JStr reason)) ;;
  mandate ← requireMandate mandateId;
  setStatus mandate MandateStatus_REVOKED (default "system" actorId) reason now.

(** ** Authorization *)

(** The checks of [assertAuthorized] on the stored mandate. *)
Definition check_scope (mandate : Mandate) (i : Authorize) (now : Z) : result unit :=
  guard (negb (bool_decide (ma_status mandate = MandateStatus_ACTIVE))) "mandate_not_active"
    "an active mandate is required" ;;
  guard (before_date now (ma_validFrom mandate)) "mandate_not_yet_valid" "mandate is not yet valid" ;;
  guard (negb (String.eqb (ma_subjectId mandate) (az_subjectId i))) "mandate_subject_mismatch"
    "mandate does not authorize this subject" ;;
  guard (negb (bool_decide (az_capability i ∈ ma_capabilities mandate))) "mandate_capability_denied"
    "mandate does not include the requested capability" ;;
  guard (negb (bool_decide (az_assetId i ∈ ma_assetIds mandate))) "mandate_asset_denied"
    "mandate does not include the requested asset" ;;
  (if String.eqb (az_capability i) (value MandateCapability_PROVIDER_SPEND) then
     assertNonEmptyString "providerId" (opt_json (az_providerId i)) ;;
     assertNonEmptyString "category" (opt_json (az_category i)) ;;
     guard (negb (includes (ma_allowedProviderIds mandate) (az_providerId i))) "mandate_provider_denied"
       "provider is outside the mandate scope" ;;
     guard (negb (includes (ma_allowedCategories mandate) (az_category i))) "mandate_category_denied"
       "category is outside the mandate scope"
   else Ok ()) ;;
  match az_amountMinor i with
  | None => Ok ()
  | Some m =>
      amount ← assertPositiveMinorUnits m "amountMinor";
      guard (ma_perActionLimitMinor mandate <? amount) "mandate_per_action_limit_exceeded"
        "action exceeds the mandate per-action limit" ;;
      guard (az_enforceAggregateLimit i && (ma_aggregateLimitMinor mandate <? amount + ma_utilizedMinor mandate))
        "mandate_aggregate_limit_exceeded" "action exceeds the mandate aggregate limit"
  end.

Definition assertAuthorized (i : Authorize) : M (Sys * Mandates) Mandate :=
  now ← sys (default_now (az_now i));
  lift (assertNonEmptyString "mandateId" (JStr (az_mandateId i))) ;;
  lift (assertNonEmptyString "subjectId" (JStr (az_subjectId i))) ;;
  lift (assertEnumValue "capability" (az_capability i) (enumValues MandateCapability)) ;;
  lift (assertNonEmptyString "assetId" (JStr (az_assetId i))) ;;
  mandate ← requireMandate (az_mandateId i);
  mandate ← (if from_date now (ma_expiresAt mandate) &&
               negb (bool_decide (ma_status mandate ∈ [MandateStatus_EXPIRED; MandateStatus_REVOKED]))
             then setStatus mandate MandateStatus_EXPIRED "system" "validity_window_elapsed" now
             else mret mandate);
  lift (check_scope mandate i now) ;;
  mret mandate.

(** ** Utilization *)

Record ReserveResult := MkReserveResult { rv_mandate : Mandate; rv_reservation : Reservation; rv_replayed : bool }.
Record ReleaseResult := MkReleaseResult { lv_mandate : Mandate; lv_release : Release; lv_replayed : bool }.

Definition null_json (o : option string) : json := match o with Some s => JStr s | None => JNull end.
Definition minor_json (o : option minor) : json := match o with Some m => json_of_minor m | None => JUndef end.

Definition reservation_hash (reservationId : string) (i : Authorize) : string :=
  hashId "mandate_reservation" (JObj [("mandateId", JStr (az_mandateId i)); ("reservationId", JStr reservationId);
    ("subjectId", JStr (az_subjectId i)); ("capability", JStr (az_capability i));
    ("providerId", null_json (az_providerId i)); ("category", null_json (az_category i));
    ("assetId", JStr (az_assetId i)); ("amountMinor", minor_json (az_amountMinor i))]).

(** [BigInt(amountMinor)] after the validation; of an absent amount it throws. *)
Definition amount_of (o : option minor) : result Z :=
  match o with Some m => assertPositiveMinorUnits m "amountMinor" | None => Err TypeError end.

(** The argument is that of [assertAuthorized], which enforces the aggregate
    limit by default, and a [reservationId]. *)
Definition reserveUtilization (reservationId : string) (i : Authorize) : M (Sys * Mandates) ReserveResult :=
  now ← sys (default_now (az_now i));
  lift (assertNonEmptyString "reservationId" (JStr reservationId)) ;;
  let reservationHash := reservation_hash reservationId i in
  existing ← own (fun t => map_get reservationId (reservations t));
  match existing with
  | Some existing =>
      throw_if (negb (String.eqb (rs_reservationHash existing) reservationHash)) "mandate_reservation_conflict"
        "reservation id was reused with a different authorization" ;;
      mandate ← requireMandate (rs_mandateId existing);
      mret (MkReserveResult mandate existing true)
  | None =>
      mandate ← assertAuthorized (MkAuthorize (az_mandateId i) (az_subjectId i) (az_capability i) (az_providerId i)
                  (az_category i) (az_assetId i) (az_amountMinor i) true (Some now));
      amount ← lift (amount_of (az_amountMinor i));
      storedMandate ← requireMandate (ma_mandateId mandate);
      let storedMandate := with_utilized (ma_utilizedMinor storedMandate + amount) (toISOString now) storedMandate in
      update (put_mandate storedMandate) ;;
      let reservation := MkReservation reservationId reservationHash (az_mandateId i) (az_subjectId i)
        (az_capability i) (az_providerId i) (az_category i) (az_assetId i) amount 0 (toISOString now) in
      update (put_reservation reservation) ;;
      sys (emit CreditEventType_MANDATE_UTILIZATION_RESERVED (Some (az_subjectId i)) None None
        (JObj [("mandateId", JStr (az_mandateId i)); ("reservationId", JStr reservationId);
               ("capability", JStr (az_capability i)); ("amountMinor", JStr (toString amount));
               ("utilizedMinor", JStr (toString (ma_utilizedMinor storedMandate)))]) (Some now)) ;;
      mret (MkReserveResult storedMandate reservation false)
  end.

Definition release_hash (i : ReleaseUtilization) : string :=
  hashId "mandate_release" (JObj [("mandateId", JStr (ru_mandateId i)); ("reservationId", JStr (ru_reservationId i));
    ("releaseId", JStr (ru_releaseId i)); ("amountMinor", json_of_minor (ru_amountMinor i));
    ("reason", JStr (ru_reason i))]).

Definition releaseUtilization (i : ReleaseUtilization) : M (Sys * Mandates) ReleaseResult :=
  now ← sys (default_now (ru_now i));
  lift (assertNonEmptyString "releaseId" (JStr (ru_releaseId i))) ;;
  lift (assertNonEmptyString "reason" (JStr (ru_reason i))) ;;
  amount ← lift (assertPositiveMinorUnits (ru_amountMinor i) "amountMinor");
  let releaseHash := release_hash i in
  existingRelease ← own (fun t => map_get (ru_releaseId i) (releases t));
  match existingRelease with
  | Some existingRelease =>
      throw_if (negb (String.eqb (rl_releaseHash existingRelease) releaseHash)) "mandate_release_conflict"
        "release id was reused with different terms" ;;
      mandate ← requireMandate (ru_mandateId i);
      mret (MkReleaseResult mandate existingRelease true)
  | None =>
      mandate ← requireMandate (ru_mandateId i);
      found ← own (fun t => map_get (ru_reservationId i) (reservations t));
      reservation ← some_or (match found with
                             | Some r => if String.eqb (rs_mandateId r) (ru_mandateId i) then Some r else None
                             | None => None
                             end) "mandate_reservation_not_found" "mandate reservation not found";
      let reservationRemaining := rs_amountMinor reservation - rs_releasedMinor reservation in
      throw_if ((reservationRemaining <? amount) || (ma_utilizedMinor mandate <? amount))
        "mandate_release_exceeds_reservation" "release exceeds reserved utilization" ;;
      update (put_reservation (with_released (rs_releasedMinor reservation + amount) reservation)) ;;
      let mandate := with_utilized (ma_utilizedMinor mandate - amount) (toISOString now) mandate in
      update (put_mandate mandate) ;;
      let release := MkRelease (ru_releaseId i) releaseHash (ru_mandateId i) (ru_reservationId i) amount
        (ru_reason i) (toISOString now) in
      update (put_release release) ;;
      sys (emit CreditEventType_MANDATE_UTILIZATION_RELEASED (Some (ma_subjectId mandate)) None None
        (JObj [("mandateId", JStr (ru_mandateId i)); ("reservationId", JStr (ru_reservationId i));
               ("releaseId", JStr (ru_releaseId i)); ("amountMinor", JStr (toString amount));
               ("utilizedMinor", JStr (toString (ma_utilizedMinor mandate))); ("reason", JStr (ru_reason i))])
        (Some now)) ;;
      mret (MkReleaseResult mandate release false)
  end.
End operations.

(** ** Queries *)

Definition getMandate (t : Mandates) (mandateId : string) : result Mandate :=
  match map_get mandateId (mandates t) with
  | Some m => Ok m
  | None => fail "mandate_not_found" "mandate not found"
  end.
Definition listMandates (t : Mandates) (filter : Mandate -> bool) : list Mandate :=
  List.filter filter (map_values (mandates t)).
Definition getReservation (t : Mandates) (reservationId : string) : result Reservation :=
  match map_get reservationId (reservations t) with
  | Some r => Ok r
  | None => fail "mandate_reservation_not_found" "mandate reservation not found"
  end.
