(* ===== verification/MandateProps.v ===== *)
(** * The mandates' theorems *)

From stdpp Require Import base tactics sets relations gmap numbers strings list.
From S2P Require Import Prelude Js Enums EventStore Service Mandate.
Local Open Scope string_scope.
Local Open Scope Z_scope.

(** ** The invariant *)

(** What is reserved and not released under a mandate, and what was released of
    a reservation. *)
Definition reserved_on (id : string) (r : Reservation) : Z :=
  if decide (rs_mandateId r = id) then rs_amountMinor r - rs_releasedMinor r else 0.
Definition outstanding (t : Mandates) (id : string) : Z := sum_by (reserved_on id) (map_values (reservations t)).
Definition released_on (id : string) (l : Release) : Z :=
  if decide (rl_reservationId l = id) then rl_amountMinor l else 0.
Definition released_total (t : Mandates) (id : string) : Z := sum_by (released_on id) (map_values (releases t)).

Record within_limits (m : Mandate) : Prop := {
  wl_action : 0 < ma_perActionLimitMinor m <= ma_aggregateLimitMinor m;
  wl_utilized : 0 <= ma_utilizedMinor m <= ma_aggregateLimitMinor m }.

(** The terms of a mandate never change; its status follows the table. *)
Record mandate_evolves (m m' : Mandate) : Prop := {
  me_id : ma_mandateId m' = ma_mandateId m;
  me_hash : ma_mandateHash m' = ma_mandateHash m;
  me_principal : ma_principalId m' = ma_principalId m;
  me_subject : ma_subjectId m' = ma_subjectId m;
  me_capabilities : ma_capabilities m' = ma_capabilities m;
  me_providers : ma_allowedProviderIds m' = ma_allowedProviderIds m;
  me_categories : ma_allowedCategories m' = ma_allowedCategories m;
  me_assets : ma_assetIds m' = ma_assetIds m;
  me_action : ma_perActionLimitMinor m' = ma_perActionLimitMinor m;
  me_aggregate : ma_aggregateLimitMinor m' = ma_aggregateLimitMinor m;
  me_from : ma_validFrom m' = ma_validFrom m;
  me_until : ma_expiresAt m' = ma_expiresAt m;
  me_nonce : ma_nonce m' = ma_nonce m;
  me_status : rtc (steps MandateTransitions) (ma_status m) (ma_status m') }.

#[export] Instance mandate_evolves_preorder : PreOrder mandate_evolves.
Proof.
  split.
  - intros m. by split.
  - intros a b c [] []. split; try congruence. by etrans.
Qed.

Record reservation_evolves (r r' : Reservation) : Prop := {
  re_id : rs_reservationId r' = rs_reservationId r;
  re_hash : rs_reservationHash r' = rs_reservationHash r;
  re_mandate : rs_mandateId r' = rs_mandateId r;
  re_amount : rs_amountMinor r' = rs_amountMinor r;
  re_released : rs_releasedMinor r <= rs_releasedMinor r' }.

#[export] Instance reservation_evolves_preorder : PreOrder reservation_evolves.
Proof.
  split.
  - intros m. by split.
  - intros a b c [] []. split; try congruence. lia.
Qed.

Record mandates_evolve (t t' : Mandates) : Prop := {
  mv_mandates : forall id m, map_get id (mandates t) = Some m ->
    exists m', map_get id (mandates t') = Some m' /\ mandate_evolves m m';
  mv_reservations : forall id r, map_get id (reservations t) = Some r ->
    exists r', map_get id (reservations t') = Some r' /\ reservation_evolves r r';
  mv_releases : forall id l, map_get id (releases t) = Some l -> map_get id (releases t') = Some l }.

#[export] Instance mandates_evolve_preorder : PreOrder mandates_evolve.
Proof.
  split.
  - intros t. split; eauto.
    + intros id m Hm. by exists m.
    + intros id r Hr. by exists r.
  - intros t1 t2 t3 [M1 R1 L1] [M2 R2 L2]. split; eauto.
    + intros id m Hm. destruct (M1 id m Hm) as (m1 & Hm1 & E1). destruct (M2 id m1 Hm1) as (m2 & Hm2 & E2).
      exists m2. split; [done|by etrans].
    + intros id m Hm. destruct (R1 id m Hm) as (m1 & Hm1 & E1). destruct (R2 id m1 Hm1) as (m2 & Hm2 & E2).
      exists m2. split; [done|by etrans].
Qed.

Section mandates.
Context `{PlatformLaws}.

Record reservation_ok (t : Mandates) (r : Reservation) : Prop := {
  ro_amount : 0 < rs_amountMinor r;
  ro_released : 0 <= rs_releasedMinor r <= rs_amountMinor r;
  ro_total : rs_releasedMinor r = released_total t (rs_reservationId r);
  ro_mandate : exists m, map_get (rs_mandateId r) (mandates t) = Some m /\ rs_amountMinor r <= ma_perActionLimitMinor m }.

Record MandateInv (n : nat) (t : Mandates) : Prop := {
  mi_mandates : forall id m, map_get id (mandates t) = Some m ->
    ma_mandateId m = id /\ minted "mandate" n id /\ within_limits m /\ ma_utilizedMinor m = outstanding t id;
  mi_nonces : forall k id, map_get k (mandateIdsByPrincipalNonce t) = Some id -> map_get id (mandates t) <> None;
  mi_reservations : forall id r, map_get id (reservations t) = Some r -> rs_reservationId r = id /\ reservation_ok t r;
  mi_reserved : Forall (fun r => map_get (rs_mandateId r) (mandates t) <> None) (map_values (reservations t));
  mi_releases : forall id l, map_get id (releases t) = Some l -> rl_releaseId l = id /\ 0 < rl_amountMinor l;
  mi_released : Forall (fun l => map_get (rl_reservationId l) (reservations t) <> None) (map_values (releases t)) }.

Lemma MandateInv_empty n : MandateInv n empty_mandates.
Proof. by split. Qed.

Lemma MandateInv_mono n m t : (n <= m)%nat -> MandateInv n t -> MandateInv m t.
Proof.
  intros Hle []. split; try done. intros id x Hx. destruct (mi_mandates0 id x Hx) as (? & ? & ? & ?).
  split_and!; try done. by eapply minted_mono.
Qed.

Abbreviation keeps := (keeps MandateInv mandates_evolve).
Abbreviation kept := (kept MandateInv mandates_evolve).

Ltac unchanged := apply (kept_same _ _ MandateInv_mono); [assumption|cbn [fst]; grows].

(** ** A mandate changes, its reservations do not *)

Lemma put_mandate_ok n t m m' :
  MandateInv n t -> map_get (ma_mandateId m) (mandates t) = Some m -> mandate_evolves m m' ->
  ma_utilizedMinor m' = ma_utilizedMinor m ->
  MandateInv n (put_mandate m' t) /\ mandates_evolve t (put_mandate m' t).
Proof.
  intros Hi Hg He Hu. destruct (mi_mandates _ _ Hi _ _ Hg) as (Hid & Hm & [] & Hout).
  assert (Hin : forall id, map_get id (mandates t) <> None -> map_get id (mandates (put_mandate m' t)) <> None).
  { intros id Hn. cbn. rewrite map_get_set. by case_decide. }
  split; split; cbn [put_mandate mandates reservations releases mandateIdsByPrincipalNonce]; try apply Hi.
  - intros id m1. rewrite map_get_set, (me_id _ _ He). case_decide as E; [|apply Hi]. intros [= <-]. subst id.
    split_and!; [by apply He|done| |by rewrite Hu, Hout].
    split; rewrite ?Hu, ?(me_action _ _ He), ?(me_aggregate _ _ He); done.
  - intros k id Hk. apply Hin. by eapply (mi_nonces _ _ Hi).
  - intros id r Hr. destruct (mi_reservations _ _ Hi _ _ Hr) as [? [? ? ? (m1 & Hm1 & Hle)]]. split; [done|].
    split; try done. cbn. rewrite map_get_set, (me_id _ _ He). case_decide as E; [|by exists m1].
    exists m'. split; [done|]. rewrite (me_action _ _ He). rewrite E, Hm1 in Hg. by injection Hg as ->.
  - eapply Forall_impl; [apply Hi|]. intros r. apply Hin.
  - intros id m1 Hm1. rewrite map_get_set, (me_id _ _ He). case_decide as E; [|by exists m1].
    exists m'. split; [done|]. rewrite E, Hm1 in Hg. by injection Hg as ->.
  - intros id r Hr. by exists r.
  - done.
Qed.

Lemma setStatus_kept m st actor reason now y y1 t :
  MandateInv (uuids y1) t -> grows y y1 -> map_get (ma_mandateId m) (mandates t) = Some m ->
  wp (setStatus m st actor reason now)
    (fun m' s => kept y t s /\ ma_status m' = st /\ map_get (ma_mandateId m) (mandates s.2) = Some m' /\
       mandate_evolves m m' /\ (ma_status m = st -> s = (y1, t) /\ m' = m))
    (fun _ s => kept y t s) (y1, t).
Proof.
  intros Hi Hgr Hg. assert (Hk : forall y', grows y1 y' -> kept y t (y', t)).
  { intros y' Hg'. eapply kept_step; [apply MandateInv_mono|done|done|done|done]. }
  unfold setStatus. apply wp_if; intros Hst.
  { apply bool_decide_eq_true in Hst. apply wp_ret. split_and!; [by apply Hk|done|done|done|done]. }
  apply bool_decide_eq_false in Hst.
  svc_step. svc_step; [by apply Hk|]. svc_step. svc_step; [by apply Hk|]. svc_step. svc_step; [by apply Hk|].
  match goal with E : assertTransition _ _ _ _ = Ok _ |- _ => apply assertTransition_Ok in E; rename E into Htr end.
  destruct (put_mandate_ok _ _ m (with_status st (toISOString now) m) Hi Hg) as [Hi' He'];
    [split; try done; by apply rtc_once|done|]. cbv zeta.
  svc_steps; [split|..]; try (eapply kept_step; [apply MandateInv_mono|exact Hi'|grows|done|done]).
  split_and!; [done|cbn; by rewrite map_get_set_eq|split; try done; by apply rtc_once|done].
Qed.

(** ** Creating a mandate *)

Lemma outstanding_absent n t id : MandateInv n t -> map_get id (mandates t) = None -> outstanding t id = 0.
Proof.
  intros Hi Hn. apply sum_by_zero. intros r Hr. pose proof (mi_reserved _ _ Hi) as Hf. rewrite Forall_forall in Hf.
  unfold reserved_on. case_decide as E; [|done]. specialize (Hf r Hr). by rewrite E in Hf.
Qed.

Lemma new_mandate_ok n t m k :
  MandateInv n t -> ma_mandateId m = id_of "mandate" n -> within_limits m -> ma_utilizedMinor m = 0 ->
  MandateInv (S n) (put_nonce k (ma_mandateId m) (put_mandate m t)) /\
  mandates_evolve t (put_nonce k (ma_mandateId m) (put_mandate m t)).
Proof.
  intros Hi Hid Hw Hu.
  assert (Hf : map_get (ma_mandateId m) (mandates t) = None).
  { destruct (map_get _ (mandates t)) as [m'|] eqn:E; [|done].
    apply (mi_mandates _ _ Hi) in E as (_ & Hm & _). apply minted_fresh in Hm. congruence. }
  assert (Hin : forall id m', map_get id (mandates t) = Some m' -> map_get id (mandates (put_mandate m t)) = Some m').
  { intros id m' Hm'. cbn. rewrite map_get_set_ne; [done|]. intros E. rewrite E in Hf. congruence. }
  assert (Hin' : forall id, map_get id (mandates t) <> None -> map_get id (mandates (put_mandate m t)) <> None).
  { intros id Hn. destruct (map_get id (mandates t)) as [m'|] eqn:E; [|done]. by rewrite (Hin _ _ E). }
  split; split; cbn [put_nonce put_mandate mandates reservations releases mandateIdsByPrincipalNonce]; try apply Hi.
  - intros id m1. rewrite map_get_set. case_decide as E.
    + intros [= <-]. subst id. split_and!; [done|rewrite Hid; apply minted_new|done|].
      rewrite Hu. symmetry. exact (outstanding_absent _ _ _ Hi Hf).
    + intros Hm1. destruct (mi_mandates _ _ Hi _ _ Hm1) as (? & ? & ? & ?). split_and!; try done.
      eapply minted_mono; [|done]. lia.
  - intros k' id. rewrite map_get_set. case_decide as E.
    + intros [= <-]. by rewrite map_get_set_eq.
    + intros Hk. apply Hin'. by eapply (mi_nonces _ _ Hi).
  - intros id r Hr. destruct (mi_reservations _ _ Hi _ _ Hr) as [? [? ? ? (m1 & Hm1 & Hle)]]. split; [done|].
    split; try done. exists m1. split; [by apply Hin|done].
  - eapply Forall_impl; [apply Hi|]. intros r. apply Hin'.
  - intros id m1 Hm1. exists m1. split; [by apply Hin|done].
  - intros id r Hr. by exists r.
  - done.
Qed.

Lemma check_terms_Ok i now a b perAction aggregate :
  check_terms i now = Ok (a, b, perAction, aggregate) -> 0 < perAction <= aggregate /\ a < b.
Proof.
  unfold check_terms. intros K. result_inv.
  repeat match goal with E : assertPositiveMinorUnits _ _ = Ok _ |- _ => apply assertPositiveMinorUnits_pos in E end.
  simplify_eq. lia.
Qed.

Lemma createMandate_keeps i : keeps (createMandate i).
Proof.
  intros y t Hi. unfold createMandate. do 5 (svc_step; svc_step; [unchanged|]).
  svc_step. apply wp_now. intros now y1 Hu1 Hg1. cbv beta.
  svc_step. svc_step; [unchanged|]. destruct a4 as [[[d1 d2] perAction] aggregate].
  match goal with E : check_terms _ _ = Ok _ |- _ => apply check_terms_Ok in E as [Hlim _] end.
  svc_step. unfold newMandate. apply wp_sys_bind, wp_bind, wp_new_id. intros y2 Hu2 Hg2. cbv beta. apply wp_sys_ret.
  svc_step. apply wp_own. cbn [ma_principalId ma_nonce ma_mandateHash].
  destruct (truthy _) as [existingId|].
  { unfold requireMandate. svc_steps; unchanged. }
  match goal with |- context [put_mandate ?m0] => set (m := m0) end.
  assert (Hi1 : MandateInv (uuids y1) t) by (by rewrite Hu1).
  destruct (new_mandate_ok _ t m (cm_principalId i +:+ NUL +:+ cm_nonce i) Hi1) as [Hi' He'];
    [done|split; cbn; lia|done|]. rewrite <- Hu2 in Hi'.
  svc_steps; (eapply kept_step; [apply MandateInv_mono|exact Hi'|grows|grows|done]).
Qed.

(** ** Status operations *)

Lemma mandate_setStatus_keeps m st actor reason now y y1 t :
  MandateInv (uuids y1) t -> grows y y1 -> map_get (ma_mandateId m) (mandates t) = Some m ->
  wp (setStatus m st actor reason now) (fun _ => kept y t) (fun _ => kept y t) (y1, t).
Proof. intros. eapply wp_mono; [by apply setStatus_kept|by intros ? ? [? _]|done]. Qed.

Lemma found_mandate n t id m :
  MandateInv n t -> map_get id (mandates t) = Some m -> map_get (ma_mandateId m) (mandates t) = Some m.
Proof. intros Hi Hm. by destruct (mi_mandates _ _ Hi _ _ Hm) as [-> _]. Qed.

Lemma activateMandate_keeps id actor now : keeps (activateMandate id actor now).
Proof.
  intros y t Hi. unfold activateMandate, requireMandate. svc_step. apply wp_now. intros n y1 Hu1 Hg1. cbv beta.
  do 3 svc_step. svc_step; [|unchanged]. svc_step; [svc_step; unchanged|]. svc_step. svc_step; [unchanged|].
  svc_step; (apply mandate_setStatus_keeps; [by rewrite Hu1|done|by eapply found_mandate]).
Qed.

Lemma suspendMandate_keeps id actor reason now : keeps (suspendMandate id actor reason now).
Proof.
  intros y t Hi. unfold suspendMandate, requireMandate. svc_step. apply wp_now. intros n y1 Hu1 Hg1. cbv beta.
  svc_step. svc_step; [unchanged|]. do 3 svc_step. svc_step; [|unchanged].
  apply mandate_setStatus_keeps; [by rewrite Hu1|done|by eapply found_mandate].
Qed.

Lemma revokeMandate_keeps id actor reason now : keeps (revokeMandate id actor reason now).
Proof.
  intros y t Hi. unfold revokeMandate, requireMandate. svc_step. apply wp_now. intros n y1 Hu1 Hg1. cbv beta.
  svc_step. svc_step; [unchanged|]. do 3 svc_step. svc_step; [|unchanged].
  apply mandate_setStatus_keeps; [by rewrite Hu1|done|by eapply found_mandate].
Qed.

(** ** Authorization *)

(** What an authorization means: the mandate is active, [now] is in its window,
    and the action is in its scope and limits. *)
Record authorized (m : Mandate) (i : Authorize) (now : Z) : Prop := {
  au_active : ma_status m = MandateStatus_ACTIVE;
  au_from : before_date now (ma_validFrom m) = false;
  au_until : from_date now (ma_expiresAt m) = false;
  au_subject : az_subjectId i = ma_subjectId m;
  au_capability : az_capability i ∈ ma_capabilities m;
  au_asset : az_assetId i ∈ ma_assetIds m;
  au_provider : az_capability i = value MandateCapability_PROVIDER_SPEND ->
    exists p c, az_providerId i = Some p /\ az_category i = Some c /\
      p ∈ ma_allowedProviderIds m /\ c ∈ ma_allowedCategories m;
  au_amount : forall x, az_amountMinor i = Some x ->
    exists amount, assertPositiveMinorUnits x "amountMinor" = Ok amount /\ amount <= ma_perActionLimitMinor m /\
      (az_enforceAggregateLimit i = true -> amount + ma_utilizedMinor m <= ma_aggregateLimitMinor m) }.

Lemma includes_true l o : includes l o = true -> exists s, o = Some s /\ s ∈ l.
Proof. destruct o as [s|]; [|done]. cbn. rewrite bool_decide_eq_true. by exists s. Qed.

Lemma check_scope_Ok m i now u :
  check_scope m i now = Ok u -> from_date now (ma_expiresAt m) = false -> authorized m i now.
Proof.
  unfold check_scope. intros K Hu. result_inv.
  repeat match goal with E : negb _ = false |- _ => apply negb_false_iff in E end.
  repeat match goal with E : bool_decide _ = true |- _ => apply bool_decide_eq_true in E end.
  match goal with E : String.eqb _ _ = true |- _ => apply String.eqb_eq in E end.
  split; try done.
  - intros Hc. destruct (String.eqb_spec (az_capability i) (value MandateCapability_PROVIDER_SPEND)); [|done].
    result_inv. repeat match goal with E : negb _ = false |- _ => apply negb_false_iff, includes_true in E as (? & ? & ?) end.
    eauto 10.
  - intros x Hx. rewrite Hx in K. result_inv. eexists. split_and!; [done|lia|].
    intros He. rewrite He in *. cbn [andb] in *. lia.
Qed.

Lemma check_scope_inactive m i now :
  ma_status m <> MandateStatus_ACTIVE ->
  check_scope m i now = fail "mandate_not_active" "an active mandate is required".
Proof. intros Hs. unfold check_scope. by rewrite (bool_decide_eq_false_2 _ Hs). Qed.

(** An authorization that returns changed nothing; one that throws may have
    expired the mandate, and did if its window has closed. *)
Lemma wp_assertAuthorized i y t :
  MandateInv (uuids y) t ->
  wp (assertAuthorized i)
    (fun m s => grows y s.1 /\ s.2 = t /\ map_get (az_mandateId i) (mandates t) = Some m /\
       exists now, (forall k, az_now i = Some k -> now = k) /\ authorized m i now)
    (fun _ s => kept y t s) (y, t).
Proof.
  intros Hi. unfold assertAuthorized, requireMandate. svc_step. apply wp_now_given. intros now y1 Hnow Hu1 Hg1. cbv beta.
  do 4 (svc_step; svc_step; [unchanged|]). do 3 svc_step. svc_step; [|unchanged]. rename a3 into m, H5 into Hm.
  svc_step. apply wp_if; intros Hexp.
  - eapply wp_mono; [apply (setStatus_kept _ _ _ _ _ y); [by rewrite Hu1|done|by eapply found_mandate]| |done].
    intros m' s (Hk & Hst & _). cbv beta. svc_step.
    rewrite check_scope_inactive by (by rewrite Hst). by apply wp_lift.
  - apply wp_ret. svc_step. svc_step; [unchanged|]. svc_step. split_and!; [done|done|done|].
    exists now. split; [done|]. match goal with E : check_scope _ _ _ = Ok _ |- _ => rename E into Hc end.
    eapply check_scope_Ok; [done|]. unfold check_scope in Hc. result_inv.
    match goal with E : negb (bool_decide (ma_status m = _)) = false |- _ =>
      apply negb_false_iff, bool_decide_eq_true in E; rewrite E in Hexp end.
    by apply andb_false_iff in Hexp as [?|?].
Qed.

Lemma assertAuthorized_keeps i : keeps (assertAuthorized i).
Proof.
  intros y t Hi. eapply wp_mono; [by apply wp_assertAuthorized| |done].
  intros m [y' t'] (Hg & Ht & _). cbn in Ht. subst. unchanged.
Qed.

(** ** Reserving *)

Lemma released_absent n t id : MandateInv n t -> map_get id (reservations t) = None -> released_total t id = 0.
Proof.
  intros Hi Hn. apply sum_by_zero. intros l Hl. pose proof (mi_released _ _ Hi) as Hf. rewrite Forall_forall in Hf.
  unfold released_on. case_decide as E; [|done]. specialize (Hf l Hl). by rewrite E in Hf.
Qed.

(** A mandate's utilization moves to [u]; every other mandate is untouched. *)
Lemma utilized_mandates n t m u at_ id m1 :
  MandateInv n t -> map_get (ma_mandateId m) (mandates t) = Some m ->
  map_get id (mandates (put_mandate (with_utilized u at_ m) t)) = Some m1 ->
  exists m0, map_get id (mandates t) = Some m0 /\ mandate_evolves m0 m1 /\
    ma_utilizedMinor m1 = if decide (ma_mandateId m = id) then u else ma_utilizedMinor m0.
Proof.
  intros Hi Hg. cbn. rewrite map_get_set. case_decide as E.
  - intros [= <-]. exists m. subst id. split_and!; [done|by split|done].
  - intros Hm1. exists m1. by split_and!.
Qed.

Lemma utilized_found n t m u at_ id m0 :
  MandateInv n t -> map_get (ma_mandateId m) (mandates t) = Some m -> map_get id (mandates t) = Some m0 ->
  exists m1, map_get id (mandates (put_mandate (with_utilized u at_ m) t)) = Some m1 /\ mandate_evolves m0 m1.
Proof.
  intros Hi Hg H0'. cbn. rewrite map_get_set. case_decide as E; [|by exists m0].
  eexists. split; [done|]. rewrite E, H0' in Hg. injection Hg as ->. by split.
Qed.

Lemma not_none {A} (o : option A) : o <> None <-> exists x, o = Some x.
Proof. destruct o; split; eauto; by intros []. Qed.

Lemma reserve_ok n t m r u at_ :
  MandateInv n t -> map_get (ma_mandateId m) (mandates t) = Some m ->
  map_get (rs_reservationId r) (reservations t) = None -> rs_mandateId r = ma_mandateId m ->
  rs_releasedMinor r = 0 -> 0 < rs_amountMinor r <= ma_perActionLimitMinor m ->
  u = ma_utilizedMinor m + rs_amountMinor r -> u <= ma_aggregateLimitMinor m ->
  MandateInv n (put_reservation r (put_mandate (with_utilized u at_ m) t)) /\
  mandates_evolve t (put_reservation r (put_mandate (with_utilized u at_ m) t)).
Proof.
  intros Hi Hg Hf Hrm Hrel Ham Hu Hagg. set (t1 := put_mandate (with_utilized u at_ m) t).
  assert (Hout : forall id, outstanding (put_reservation r t1) id = outstanding t id + reserved_on id r).
  { intros id. unfold outstanding. cbn [put_reservation t1 put_mandate reservations]. rewrite sum_values_set, Hf. lia. }
  assert (Hin : forall id, map_get id (mandates t) <> None -> map_get id (mandates t1) <> None).
  { intros id [m0 Hm0]%not_none. destruct (utilized_found _ _ _ u at_ _ _ Hi Hg Hm0) as (m1 & E & _).
    fold t1 in E. by rewrite E. }
  split; split; cbn [put_reservation mandates reservations releases mandateIdsByPrincipalNonce].
  - intros id m1 (m0 & Hm0 & He & Hu1)%(utilized_mandates _ _ _ _ _ _ _ Hi Hg).
    destruct (mi_mandates _ _ Hi _ _ Hm0) as (Hid & Hmi & [] & Ho). rewrite Hout, Hu1. unfold reserved_on. rewrite Hrm, Hrel.
    split_and!; [by rewrite (me_id _ _ He)|done| |case_decide; [subst id; rewrite Hg in Hm0; injection Hm0 as ->|]; lia].
    split; rewrite ?Hu1, ?(me_action _ _ He), ?(me_aggregate _ _ He); [done|].
    case_decide; [|done]. subst id. rewrite Hg in Hm0. injection Hm0 as ->. lia.
  - intros k id Hk. apply Hin. by eapply (mi_nonces _ _ Hi).
  - intros id r1. rewrite map_get_set. case_decide as E.
    + intros [= <-]. split; [done|]. split; [lia|lia| |].
      * rewrite Hrel. symmetry. exact (released_absent _ _ _ Hi Hf).
      * rewrite Hrm. eexists. split; [cbn; by rewrite map_get_set_eq|cbn; lia].
    + intros Hr1. destruct (mi_reservations _ _ Hi _ _ Hr1) as [? [? ? ? (m0 & Hm0 & Hle)]]. split; [done|].
      destruct (utilized_found _ _ _ u at_ _ _ Hi Hg Hm0) as (m1 & Hm1 & He). split; try done.
      exists m1. split; [done|]. by rewrite (me_action _ _ He).
  - apply map_set_Forall; [|rewrite Hrm; cbn; by rewrite map_get_set_eq].
    eapply Forall_impl; [apply Hi|]. intros r1. apply Hin.
  - apply Hi.
  - eapply Forall_impl; [apply Hi|]. intros l Hl. rewrite map_get_set. by case_decide.
  - intros id m0 Hm0. by apply (utilized_found _ _ _ u at_ _ _ Hi Hg Hm0).
  - intros id r0 Hr0. exists r0. rewrite map_get_set_ne; [done|]. intros E. rewrite E in Hf. congruence.
  - done.
Qed.

(** ** Releasing *)

Lemma release_ok n t m r l u at_ :
  MandateInv n t -> map_get (ma_mandateId m) (mandates t) = Some m ->
  map_get (rs_reservationId r) (reservations t) = Some r -> rs_mandateId r = ma_mandateId m ->
  map_get (rl_releaseId l) (releases t) = None -> rl_reservationId l = rs_reservationId r -> 0 < rl_amountMinor l ->
  rs_releasedMinor r + rl_amountMinor l <= rs_amountMinor r ->
  u = ma_utilizedMinor m - rl_amountMinor l -> 0 <= u ->
  let t' := put_release l (put_mandate (with_utilized u at_ m)
              (put_reservation (with_released (rs_releasedMinor r + rl_amountMinor l) r) t)) in
  MandateInv n t' /\ mandates_evolve t t'.
Proof.
  intros Hi Hg Hr Hrm Hf Hlr Hpos Hle Hu Hu0 t'. set (r' := with_released (rs_releasedMinor r + rl_amountMinor l) r) in *.
  assert (Hout : forall id, outstanding t' id = outstanding t id + reserved_on id r' - reserved_on id r).
  { intros id. unfold outstanding. cbn [t' put_release put_mandate put_reservation reservations].
    rewrite sum_values_set. change (rs_reservationId r') with (rs_reservationId r). by rewrite Hr. }
  assert (Htot : forall id, released_total t' id = released_total t id + released_on id l).
  { intros id. unfold released_total. cbn [t' put_release releases]. rewrite sum_values_set.
    cbn [put_mandate put_reservation releases]. rewrite Hf. lia. }
  assert (Hin : forall id, map_get id (mandates t) <> None -> map_get id (mandates t') <> None).
  { intros id [m0 Hm0]%not_none. destruct (utilized_found _ _ _ u at_ _ _ Hi Hg Hm0) as (m1 & E & _).
    intros E'. change (map_get id (mandates t') = Some m1) in E. congruence. }
  split; split.
  - intros id m1 Hm1. destruct (utilized_mandates _ _ _ u at_ id m1 Hi Hg Hm1) as (m0 & Hm0 & He & Hu1).
    destruct (mi_mandates _ _ Hi _ _ Hm0) as (Hid & Hmi & [] & Ho). rewrite Hout, Hu1.
    unfold reserved_on. cbn [r' with_released rs_mandateId rs_amountMinor rs_releasedMinor]. rewrite Hrm.
    split_and!; [by rewrite (me_id _ _ He)|done| |case_decide; [subst id; rewrite Hg in Hm0; injection Hm0 as ->|]; lia].
    split; rewrite ?Hu1, ?(me_action _ _ He), ?(me_aggregate _ _ He); [done|].
    case_decide; [|done]. subst id. rewrite Hg in Hm0. injection Hm0 as ->. lia.
  - intros k id Hk. apply Hin. by eapply (mi_nonces _ _ Hi).
  - intros id r1. cbn [t' put_release put_mandate put_reservation reservations]. rewrite map_get_set.
    assert (Hmand : forall r2, (exists m0, map_get (rs_mandateId r2) (mandates t) = Some m0 /\ rs_amountMinor r2 <= ma_perActionLimitMinor m0) ->
      exists m1, map_get (rs_mandateId r2) (mandates t') = Some m1 /\ rs_amountMinor r2 <= ma_perActionLimitMinor m1).
    { intros r2 (m0 & Hm0 & Hle0). destruct (utilized_found _ _ _ u at_ _ _ Hi Hg Hm0) as (m1 & Hm1 & He).
      exists m1. split; [done|]. by rewrite (me_action _ _ He). }
    case_decide as E.
    + intros [= <-]. destruct (mi_reservations _ _ Hi _ _ Hr) as [_ [? ? Ht Hm]]. cbn in E.
      split; [done|]. split; [done|cbn; lia| |by apply (Hmand r)].
      rewrite Htot. unfold released_on. change (rs_reservationId r') with (rs_reservationId r).
      rewrite Hlr, decide_True, <- Ht by done. done.
    + intros Hr1. destruct (mi_reservations _ _ Hi _ _ Hr1) as [Hid [? ? Ht Hm]]. split; [done|].
      split; try done; [|by apply Hmand]. rewrite Htot, <- Ht. unfold released_on. rewrite decide_False; [lia|].
      rewrite Hlr. cbn in E. congruence.
  - cbn [t' put_release put_mandate put_reservation reservations]. apply map_set_Forall.
    + eapply Forall_impl; [apply Hi|]. intros r1. apply Hin.
    + apply (Hin (rs_mandateId r)). rewrite Hrm, Hg. done.
  - intros id l1. cbn [t' put_release releases]. rewrite map_get_set. case_decide; [by intros [= <-]|apply Hi].
  - assert (Hres : forall id, map_get id (reservations t) <> None -> map_get id (reservations t') <> None).
    { intros id Hn. cbn. rewrite map_get_set. by case_decide. }
    cbn [t' put_release releases]. apply map_set_Forall.
    + eapply Forall_impl; [apply Hi|]. intros l1. apply Hres.
    + apply Hres. by rewrite Hlr, Hr.
  - intros id m0 Hm0. exact (utilized_found _ _ _ u at_ _ _ Hi Hg Hm0).
  - intros id r0 Hr0. cbn [t' put_release put_mandate put_reservation reservations]. rewrite map_get_set.
    case_decide as E; [|by exists r0]. exists r'. split; [done|]. cbn in E. rewrite E, Hr0 in Hr. injection Hr as ->.
    split; try done. cbn. lia.
  - intros id l1 Hl1. cbn [t' put_release releases]. rewrite map_get_set_ne; [done|].
    intros E. rewrite E in Hf. cbn in Hf. congruence.
Qed.

(** ** The utilization operations *)

(** The authorization a reservation asks for. *)
Definition enforced (i : Authorize) (now : Z) : Authorize :=
  MkAuthorize (az_mandateId i) (az_subjectId i) (az_capability i) (az_providerId i) (az_category i) (az_assetId i)
    (az_amountMinor i) true (Some now).

(** A new reservation was made under an authorized mandate. *)
Record reserves (t : Mandates) (rid : string) (i : Authorize) (v : ReserveResult) (t' : Mandates) : Prop := {
  rv_new : map_get rid (reservations t) = None;
  rv_authorized : exists m now, map_get (az_mandateId i) (mandates t) = Some m /\ authorized m (enforced i now) now /\
    (forall k, az_now i = Some k -> now = k) /\
    ma_utilizedMinor (rv_mandate v) = ma_utilizedMinor m + rs_amountMinor (rv_reservation v) /\ mandate_evolves m (rv_mandate v);
  rv_amount : amount_of (az_amountMinor i) = Ok (rs_amountMinor (rv_reservation v));
  rv_hash : rs_reservationHash (rv_reservation v) = reservation_hash rid i;
  rv_mandateId : rs_mandateId (rv_reservation v) = az_mandateId i;
  rv_state : map_get rid (reservations t') = Some (rv_reservation v) /\
             map_get (az_mandateId i) (mandates t') = Some (rv_mandate v);
  rv_others : forall id, id <> az_mandateId i -> map_get id (mandates t') = map_get id (mandates t) }.

(** The reservation was on record, for the same authorization. *)
Record reserve_replays (t : Mandates) (rid : string) (i : Authorize) (v : ReserveResult) : Prop := {
  rp_found : map_get rid (reservations t) = Some (rv_reservation v);
  rp_hash : rs_reservationHash (rv_reservation v) = reservation_hash rid i;
  rp_mandate : map_get (rs_mandateId (rv_reservation v)) (mandates t) = Some (rv_mandate v) }.

Lemma wp_reserveUtilization rid i y t :
  MandateInv (uuids y) t ->
  wp (reserveUtilization rid i)
    (fun v s => kept y t s /\
       ((rv_replayed v = true /\ s.2 = t /\ reserve_replays t rid i v) \/
        (rv_replayed v = false /\ reserves t rid i v s.2)))
    (fun _ s => kept y t s) (y, t).
Proof.
  intros Hi. unfold reserveUtilization, requireMandate. svc_step. apply wp_now_given. intros now y1 Hnow Hu1 Hg1. cbv beta.
  svc_step. svc_step; [unchanged|]. cbv zeta. do 2 svc_step.
  destruct (map_get rid (reservations t)) as [existing|] eqn:Hr.
  { svc_step. svc_step; [unchanged|]. do 3 svc_step. svc_step; [|unchanged]. svc_step. split; [unchanged|left].
    match goal with E : negb (String.eqb _ _) = false |- _ => apply negb_false_iff, String.eqb_eq in E end. by split_and!. }
  assert (Hi1 : MandateInv (uuids y1) t) by (by rewrite Hu1).
  assert (Hk1 : kept y t (y1, t)) by unchanged.
  svc_step. eapply wp_mono; [by apply wp_assertAuthorized|..].
  2: { intros e s Hk. exact (kept_trans _ _ _ _ _ _ Hk1 Hk). }
  intros m [y2 t2] (Hg2 & Ht2 & Hm & n & Hn & Hau). cbn in Ht2. subst t2. cbv beta. cbn [fst] in Hg2.
  pose proof (Hn now eq_refl) as ->. clear Hn. cbn [az_mandateId] in Hm.
  svc_step. svc_step; [unchanged|]. rename a0 into amount.
  match goal with E : amount_of _ = Ok _ |- _ => rename E into Ham end.
  destruct (mi_mandates _ _ Hi _ _ Hm) as (Hid & _ & [_ Hlo] & _). pose proof Hm as Hm'. rewrite <- Hid in Hm'.
  do 3 svc_step. rewrite Hm'. cbn [some_or]. apply wp_ret. cbv zeta. do 2 svc_step. do 2 svc_step.
  match goal with |- context [put_reservation ?r0] => set (r := r0) end.
  assert (Hau' : authorized m (enforced i now) now) by exact Hau.
  destruct (az_amountMinor i) as [x|] eqn:Hx; [|done]. cbn in Ham.
  destruct (au_amount _ _ _ Hau x eq_refl) as (amount' & Ha' & Hact & Hagg). rewrite Ham in Ha'. injection Ha' as <-.
  pose proof (assertPositiveMinorUnits_pos _ _ _ Ham).
  destruct (reserve_ok (uuids y1) t m r (ma_utilizedMinor m + amount) (toISOString now)) as [Hi' He'];
    try done; [cbn; cbn in Hagg; specialize (Hagg eq_refl); lia..|].
  assert (Hg' : forall y', grows y2 y' -> kept y t (y', put_reservation r (put_mandate (with_utilized (ma_utilizedMinor m + amount) (toISOString now) m) t))).
  { intros y' Hy'. eapply kept_step; [apply MandateInv_mono|exact Hi'|grows|grows|done]. }
  svc_step. svc_step; [|by apply Hg']. svc_step. split; [by apply Hg'|right]. split; [done|].
  split; cbn; try done; rewrite ?Hid, ?map_get_set_eq; try done.
  - by exists m, now.
  - by rewrite Hx.
  - intros id Hne. by rewrite map_get_set_ne.
Qed.

Lemma reserveUtilization_keeps rid i : keeps (reserveUtilization rid i).
Proof. intros y t Hi. eapply wp_mono; [by apply wp_reserveUtilization|by intros ? ? [? _]|done]. Qed.

(** The release took [amount] off a reservation and its mandate. *)
Record releases_from (t : Mandates) (i : ReleaseUtilization) (v : ReleaseResult) (t' : Mandates) : Prop := {
  lv_new : map_get (ru_releaseId i) (releases t) = None;
  lv_amount : assertPositiveMinorUnits (ru_amountMinor i) "amountMinor" = Ok (rl_amountMinor (lv_release v));
  lv_from : exists m r, map_get (ru_mandateId i) (mandates t) = Some m /\
    map_get (ru_reservationId i) (reservations t) = Some r /\ rs_mandateId r = ru_mandateId i /\
    rs_releasedMinor r + rl_amountMinor (lv_release v) <= rs_amountMinor r /\
    ma_utilizedMinor (lv_mandate v) = ma_utilizedMinor m - rl_amountMinor (lv_release v);
  lv_state : map_get (ru_releaseId i) (releases t') = Some (lv_release v) /\
             map_get (ru_mandateId i) (mandates t') = Some (lv_mandate v);
  lv_others : forall id, id <> ru_mandateId i -> map_get id (mandates t') = map_get id (mandates t) }.

Lemma wp_releaseUtilization i y t :
  MandateInv (uuids y) t ->
  wp (releaseUtilization i)
    (fun v s => kept y t s /\
       ((lv_replayed v = true /\ s.2 = t /\ map_get (ru_releaseId i) (releases t) = Some (lv_release v) /\
         rl_releaseHash (lv_release v) = release_hash i) \/
        (lv_replayed v = false /\ releases_from t i v s.2)))
    (fun _ s => kept y t s) (y, t).
Proof.
  intros Hi. unfold releaseUtilization, requireMandate. svc_step. apply wp_now. intros now y1 Hu1 Hg1. cbv beta.
  do 2 (svc_step; svc_step; [unchanged|]). svc_step. svc_step; [unchanged|]. rename a1 into amount.
  match goal with E : assertPositiveMinorUnits _ _ = Ok _ |- _ => rename E into Ham end. cbv zeta. do 2 svc_step.
  destruct (map_get (ru_releaseId i) (releases t)) as [existing|] eqn:Hl.
  { svc_step. svc_step; [unchanged|]. do 3 svc_step. svc_step; [|unchanged]. svc_step. split; [unchanged|left].
    match goal with E : negb (String.eqb _ _) = false |- _ => apply negb_false_iff, String.eqb_eq in E end. by split_and!. }
  do 3 svc_step. svc_step; [|unchanged]. rename a1 into m. match goal with E : map_get _ (mandates t) = _ |- _ => rename E into Hm end.
  do 2 svc_step. svc_step. svc_step; [|unchanged]. rename a1 into r.
  match goal with E : match _ with _ => _ end = Some r |- _ => rename E into Hfound end.
  destruct (map_get (ru_reservationId i) (reservations t)) as [r0|] eqn:Hr; [|done].
  destruct (String.eqb_spec (rs_mandateId r0) (ru_mandateId i)) as [Hrm|]; [|done]. injection Hfound as ->.
  svc_step. svc_step; [unchanged|]. match goal with E : _ || _ = false |- _ => apply orb_false_iff in E as [Hle Hge] end.
  do 6 svc_step. match goal with |- context [put_release ?l0] => set (l := l0) end.
  destruct (mi_mandates _ _ Hi _ _ Hm) as (Hid & _ & [_ Hlo] & _). pose proof Hm as Hm'. rewrite <- Hid in Hm'.
  destruct (mi_reservations _ _ Hi _ _ Hr) as [Hrid _]. pose proof Hr as Hr'. rewrite <- Hrid in Hr'.
  pose proof (assertPositiveMinorUnits_pos _ _ _ Ham).
  destruct (release_ok (uuids y) t m r l (ma_utilizedMinor m - amount) (toISOString now)) as [Hi' He'];
    try done; [congruence|cbn; lia|lia|]. rewrite <- Hu1 in Hi'.
  match type of Hi' with MandateInv _ ?t1 => set (t' := t1) in *;
    assert (Hg' : forall y', grows y1 y' -> kept y t (y', t')) by
      (intros y' Hy'; eapply kept_step; [apply MandateInv_mono|exact Hi'|grows|grows|done]) end.
  svc_step. svc_step; [|by apply Hg']. svc_step. split; [by apply Hg'|right]. split; [done|].
  split; cbn; try done; rewrite ?Hid, ?map_get_set_eq; try done.
  - exists m, r. split_and!; try done. lia.
  - intros id Hne. by rewrite map_get_set_ne.
Qed.

Lemma releaseUtilization_keeps i : keeps (releaseUtilization i).
Proof. intros y t Hi. eapply wp_mono; [by apply wp_releaseUtilization|by intros ? ? [? _]|done]. Qed.

(** ** Executions *)

Inductive mandate_call :=
| CallCreateMandate (i : CreateMandate)
| CallActivateMandate (mandateId actorId : string) (now : option Z)
| CallSuspendMandate (mandateId : string) (actorId : option string) (reason : string) (now : option Z)
| CallRevokeMandate (mandateId : string) (actorId : option string) (reason : string) (now : option Z)
| CallAssertAuthorized (i : Authorize)
| CallReserveUtilization (reservationId : string) (i : Authorize)
| CallReleaseUtilization (i : ReleaseUtilization).

Definition run_mandate (c : mandate_call) : M (Sys * Mandates) unit :=
  match c with
  | CallCreateMandate i => createMandate i ;; mret ()
  | CallActivateMandate id actor now => activateMandate id actor now ;; mret ()
  | CallSuspendMandate id actor reason now => suspendMandate id actor reason now ;; mret ()
  | CallRevokeMandate id actor reason now => revokeMandate id actor reason now ;; mret ()
  | CallAssertAuthorized i => assertAuthorized i ;; mret ()
  | CallReserveUtilization rid i => reserveUtilization rid i ;; mret ()
  | CallReleaseUtilization i => releaseUtilization i ;; mret ()
  end.

Lemma run_mandate_keeps c : keeps (run_mandate c).
Proof.
  destruct c; (apply keeps_bind; [apply _| |intros ?; apply keeps_ret; [apply _|apply MandateInv_mono]]).
  - apply createMandate_keeps.
  - apply activateMandate_keeps.
  - apply suspendMandate_keeps.
  - apply revokeMandate_keeps.
  - apply assertAuthorized_keeps.
  - apply reserveUtilization_keeps.
  - apply releaseUtilization_keeps.
Qed.

Lemma run_mandates_ok cs y :
  MandateInv (uuids (exec run_mandate cs (y, empty_mandates)).1) (exec run_mandate cs (y, empty_mandates)).2.
Proof. apply (exec_kept _ _ MandateInv_mono run_mandate cs y empty_mandates run_mandate_keeps), MandateInv_empty. Qed.

(** C7: a mandate's utilization stays within its limits and is fully accounted
    for.  After any calls from an empty service, whichever of them threw, each
    mandate's utilization is the sum of what is reserved and not released under
    it, is not negative and does not exceed the aggregate limit; each
    reservation is positive, within its mandate's per-action limit, and released
    by exactly the releases on record, never beyond its amount. *)
Theorem mandate_utilization_accounted cs y :
  let t := (exec run_mandate cs (y, empty_mandates)).2 in
  (forall id m, map_get id (mandates t) = Some m ->
     0 <= ma_utilizedMinor m <= ma_aggregateLimitMinor m /\ ma_utilizedMinor m = outstanding t id) /\
  (forall id r, map_get id (reservations t) = Some r ->
     0 < rs_amountMinor r /\ rs_releasedMinor r = released_total t id /\ 0 <= rs_releasedMinor r <= rs_amountMinor r /\
     exists m, map_get (rs_mandateId r) (mandates t) = Some m /\ rs_amountMinor r <= ma_perActionLimitMinor m).
Proof.
  intros t. pose proof (run_mandates_ok cs y) as Hi. fold t in Hi. split.
  - intros id m Hm. by destruct (mi_mandates _ _ Hi _ _ Hm) as (_ & _ & [_ ?] & ?).
  - intros id r Hr. destruct (mi_reservations _ _ Hi _ _ Hr) as [<- [? ? ? ?]]. done.
Qed.

(** A mandate's terms are fixed and its end is final.  Whatever is called
    later, a mandate keeps its hash, parties, scope, limits and validity window,
    and once it is revoked or expired it stays so. *)
Theorem mandate_terms_fixed cs y id m more :
  map_get id (mandates (exec run_mandate cs (y, empty_mandates)).2) = Some m ->
  exists m', map_get id (mandates (exec run_mandate more (exec run_mandate cs (y, empty_mandates))).2) = Some m' /\
    mandate_evolves m m' /\
    (ma_status m = MandateStatus_REVOKED \/ ma_status m = MandateStatus_EXPIRED -> ma_status m' = ma_status m).
Proof.
  intros Hm. pose proof (run_mandates_ok cs y) as Hi. destruct (exec run_mandate cs _) as [y1 t1]. cbn [fst snd] in *.
  destruct (exec_kept _ _ MandateInv_mono run_mandate more y1 t1 run_mandate_keeps Hi) as (_ & _ & [Hmv _ _]).
  destruct (Hmv id m Hm) as (m' & Hm' & He). exists m'. split_and!; [done|done|]. intros Hst.
  apply (closed_set MandateTransitions (fun st => st = ma_status m) (ma_status m)); [|done|apply He].
  intros x z -> Hz. destruct Hst as [E|E]; rewrite E in Hz; cbn in Hz; set_solver.
Qed.

(** Authorization is exactly what the mandate grants.  On a service reached
    by any calls, [assertAuthorized] returns only an existing, active mandate
    whose window contains the time of the call and whose subject, capabilities,
    assets, providers, categories and limits admit the action, and it then
    changes nothing. *)
Theorem authorization_sound cs y i m s' :
  assertAuthorized i (exec run_mandate cs (y, empty_mandates)) = (Ok m, s') ->
  let t := (exec run_mandate cs (y, empty_mandates)).2 in
  s'.2 = t /\ map_get (az_mandateId i) (mandates t) = Some m /\
  exists now, (forall k, az_now i = Some k -> now = k) /\ authorized m i now.
Proof.
  intros Hrun. pose proof (run_mandates_ok cs y) as Hi. destruct (exec run_mandate cs _) as [y1 t1]. cbn [fst snd] in *.
  by destruct (wp_run _ _ _ _ _ _ (wp_assertAuthorized i y1 t1 Hi) Hrun) as (_ & ? & ? & ?).
Qed.

(** reserving is idempotent and isolated.  A reservation that returns
    either is new, under a mandate that authorized it, and raises that mandate's
    utilization by its amount and no other mandate's; or was on record for the
    same authorization and changes nothing.  Reserving again after any other
    calls returns the same reservation, marked as a replay, and changes
    nothing. *)
Theorem reservation_idempotent cs y rid i v s' more :
  reserveUtilization rid i (exec run_mandate cs (y, empty_mandates)) = (Ok v, s') ->
  let t := (exec run_mandate cs (y, empty_mandates)).2 in
  (rv_replayed v = true /\ s'.2 = t /\ reserve_replays t rid i v \/ rv_replayed v = false /\ reserves t rid i v s'.2) /\
  exists v' y', reserveUtilization rid i (exec run_mandate more s') = (Ok v', (y', (exec run_mandate more s').2)) /\
    rv_replayed v' = true /\ reservation_evolves (rv_reservation v) (rv_reservation v').
Proof.
  intros Hrun. pose proof (run_mandates_ok cs y) as Hi. destruct (exec run_mandate cs _) as [y1 t1]. cbn [fst snd] in *.
  destruct (wp_run _ _ _ _ _ _ (wp_reserveUtilization rid i y1 t1 Hi) Hrun) as [(Hi1 & _ & _) Hv]. split; [done|].
  assert (Hrec : map_get rid (reservations s'.2) = Some (rv_reservation v) /\
    rs_reservationHash (rv_reservation v) = reservation_hash rid i).
  { destruct Hv as [(_ & -> & [])|(_ & [? ? ? ? ? [? ?] ?])]; done. }
  destruct Hrec as [Hr Hh]. destruct s' as [y2 t2]. cbn [fst snd] in *.
  destruct (exec_kept _ _ MandateInv_mono run_mandate more y2 t2 run_mandate_keeps Hi1) as (Hi2 & _ & [_ Hres _]).
  destruct (exec run_mandate more (y2, t2)) as [y3 t3]. cbn [fst snd] in *.
  destruct (Hres _ _ Hr) as (r & Hr3 & He). destruct (mi_reservations _ _ Hi2 _ _ Hr3) as [_ [_ _ _ (m & Hm & _)]].
  assert (Hne : assertNonEmptyString "reservationId" (JStr rid) = Ok ()).
  { clear -Hrun. unfold reserveUtilization, mbind, M_bind, lift in Hrun.
    destruct (sys (default_now (az_now i)) (y1, t1)) as [[now|e] s1]; [|done].
    by destruct (assertNonEmptyString "reservationId" (JStr rid)) as [[]|]. }
  assert (R : wp (reserveUtilization rid i) (fun v' s => s.2 = t3 /\ rv_replayed v' = true /\ rv_reservation v' = r)
    (fun _ _ => False) (y3, t3)).
  { unfold reserveUtilization, requireMandate. svc_step. apply wp_now. intros now y4 _ _. cbv beta. svc_step.
    apply wp_lift; rewrite Hne; [done|]. intros _ _. cbv beta zeta. do 2 svc_step. rewrite Hr3. svc_step.
    apply wp_throw_if; [by rewrite (re_hash _ _ He), Hh, String.eqb_refl|]. intros _. cbv beta.
    do 3 svc_step. rewrite Hm. cbn [some_or]. apply wp_ret. by apply wp_ret. }
  unfold wp in R. destruct (reserveUtilization rid i (y3, t3)) as [[v'|] [y4 t4]]; [|done].
  destruct R as (Ht & ? & <-). cbn in Ht. subst. by exists v', y4.
Qed.
End mandates.
