(* ===== verification/Loan.v ===== *)
(** * Sandbox loans: offers, acceptance and the schedule

    src/packages/domain/src/credit-acceptance.js and the shared obligation object
    ([obligation.v2]) that src/packages/domain/src/sandbox-credit.js and
    sandbox-servicing.js work on.

    The obligation is a flat object in the source; here its fields are grouped by
    what they are about.  An amount is kept as the integer its decimal string
    denotes, and a time the code writes with [toISOString] and reads back with
    [new Date] as its instant in milliseconds.  The objects passed in have the
    fields of their records, so a missing object is [None] and the check that a
    consent carries no personal data, which is about the names of its fields,
    has nothing to look at. *)

From stdpp Require Import base tactics sets relations gmap numbers strings list.
From S2P Require Import Prelude Js Enums EventStore Service Mandate.
Local Open Scope string_scope.
Local Open Scope Z_scope.

(** ** The offer and what it comes from *)

Record CreditOffer := MkCreditOffer {
  of_schemaVersion : string; of_creditOfferId : string; of_creditOfferHash : string; of_termsHash : string;
  of_creditIntentId : string; of_riskDecisionId : string; of_subjectId : string; of_assetId : string;
  of_approvedPrincipalMinor : Z; of_annualRateBps : Z; of_originationFeeMinor : Z;
  of_repaymentFrequency : RepaymentFrequency; of_installmentCount : Z;
  of_firstPaymentAt : string; of_maturityAt : string; of_validUntil : string;
  of_reasonCodes : list string; of_disclosureRef : string;
  of_status : CreditOfferStatus; of_acceptanceId : option string; of_acceptedAt : option Z; of_createdAt : Z; of_updatedAt : Z;
  of_sandboxOnly : bool; of_productionFundsApproved : bool }.

Record CreditIntent := MkCreditIntent {
  it_schemaVersion : string; it_creditIntentId : string; it_creditIntentHash : string; it_subjectId : string;
  it_principalId : string; it_authorityType : CreditAuthorityType; it_authorityRef : string; it_assetId : string;
  it_requestedPrincipalMinor : Z; it_purposeCode : string; it_requestedTermDays : Z;
  it_repaymentFrequency : RepaymentFrequency; it_installmentCount : Z; it_status : CreditIntentStatus;
  it_sandboxOnly : bool; it_productionFundsRequested : bool; it_createdAt : Z; it_updatedAt : Z }.

(** The evidence a decision was made on, the features read off it, and the lineage
    of the decision's reasons. *)
Record SourceEvidence := MkSourceEvidence {
  se_role : string; se_entityType : string; se_entityIdHash : string; se_entityHash : string; se_aggregateVersion : Z;
  se_eventId : string; se_evidenceHash : string; se_sourceFinality : string }.

Record RiskState := MkRiskState {
  rst_adverseObligationCount : Z; rst_frozenCreditLineCount : Z; rst_liveStateVersion : Z; rst_queryVersion : string;
  rst_stateHash : string }.

Record Features := MkFeatures {
  ft_assetSupported : bool; ft_principalWithinCap : bool; ft_termWithinCap : bool; ft_scheduleValid : bool;
  ft_subjectEligible : bool; ft_subjectSuspended : bool; ft_principalEligible : bool; ft_authorityCurrent : bool;
  ft_identityEvidenceCurrent : option bool; ft_principalBindingCurrent : option bool; ft_adverseObligationCount : Z;
  ft_frozenCreditLineCount : Z; ft_allRequiredFeaturesSatisfied : bool }.

Record RiskFeatureSnapshot := MkRiskFeatureSnapshot {
  sn_riskFeatureSnapshotId : string; sn_featureSnapshotHash : string; sn_creditIntentIdHash : string;
  sn_authorityType : CreditAuthorityType; sn_assetId : string; sn_requestedPrincipalMinor : Z; sn_requestedTermDays : Z;
  sn_repaymentFrequency : RepaymentFrequency; sn_installmentCount : Z; sn_featureSetVersion : string;
  sn_policyVersion : string; sn_policyHash : string; sn_features : Features; sn_sourceEvidence : list SourceEvidence;
  sn_riskStateAttestation : RiskState; sn_asOf : string; sn_sandboxOnly : bool; sn_productionAuthority : bool;
  sn_schemaVersion : string }.

Record DecisionPassport := MkDecisionPassport {
  dp_riskDecisionPassportId : string; dp_decisionPassportHash : string; dp_riskDecisionId : string; dp_decisionHash : string;
  dp_riskFeatureSnapshotId : string; dp_featureSnapshotHash : string; dp_featureSetVersion : string;
  dp_policyVersion : string; dp_policyHash : string; dp_reasonLineage : list (string * (list string * list string));
  dp_asOf : string; dp_nonAuthorizing : bool; dp_sandboxOnly : bool; dp_productionAuthority : bool; dp_schemaVersion : string }.

(** [policyHash], [riskFeatureSnapshotId] and [featureSnapshotHash] are those of the snapshot, where there is one. *)
Record CreditDecision := MkCreditDecision {
  cd_schemaVersion : string; cd_riskDecisionId : string; cd_decisionHash : string; cd_creditIntentId : string;
  cd_subjectId : string; cd_principalId : string; cd_authorityType : CreditAuthorityType; cd_authorityRef : string;
  cd_assetId : string; cd_status : RiskDecisionStatus; cd_modelVersion : string; cd_limitMinor : Z; cd_utilizationMinor : Z;
  cd_action : string; cd_reasons : list string; cd_sandboxOnly : bool; cd_productionAuthority : bool; cd_createdAt : Z;
  cd_riskFeatureSnapshot : option RiskFeatureSnapshot; cd_decisionPassport : option DecisionPassport }.

(** The two authorities a person or an agent acts under; [cn_fields] is the whole
    consent as it was passed, which the check for personal data walks. *)
Record Consent := MkConsent {
  cn_schemaVersion : string; cn_consentId : string; cn_subjectId : string; cn_principalId : string;
  cn_status : ConsentStatus; cn_sandboxOnly : bool; cn_productionAuthority : bool;
  cn_validFrom : string; cn_expiresAt : string; cn_purposes : list ConsentPurpose;
  cn_allowedAssetIds : list string; cn_allowedCreditPurposeCodes : list string;
  cn_allowedRepaymentFrequencies : list RepaymentFrequency; cn_maxRequestedPrincipalMinor : Z;
  cn_maxRequestedTermDays : Z; cn_maxInstallmentCount : Z; cn_fields : json }.

Record CreditMandate := MkCreditMandate {
  cmd_mandateId : string; cmd_subjectId : string; cmd_principalId : string; cmd_status : MandateStatus;
  cmd_sandboxOnly : bool; cmd_productionAuthority : bool; cmd_validFrom : string; cmd_expiresAt : string;
  cmd_assetIds : list string; cmd_capabilities : list MandateCapability;
  cmd_perActionLimitMinor : Z; cmd_aggregateLimitMinor : Z; cmd_utilizedMinor : Z }.

Record Acceptance := MkAcceptance {
  ac_creditOfferAcceptanceId : string; ac_acceptanceHash : string; ac_creditOfferId : string;
  ac_creditOfferHash : string; ac_termsHash : string; ac_creditIntentId : string; ac_riskDecisionId : string;
  ac_subjectId : string; ac_principalId : string; ac_authorityType : CreditAuthorityType; ac_authorityRef : string;
  ac_acknowledgementHash : string; ac_acceptedByActorHash : string; ac_acceptedAt : Z }.

(** ** The obligation *)

Record Installment := MkInstallment {
  in_installmentId : string; in_obligationId : string; in_installmentNumber : Z; in_dueAt : Z;
  in_scheduledPrincipalMinor : Z; in_scheduledInterestMinor : Z; in_scheduledFeeMinor : Z;
  in_paidPrincipalMinor : Z; in_paidInterestMinor : Z; in_paidFeeMinor : Z;
  in_status : string; in_scheduleVersion : string; in_scheduleSequence : Z }.

(** Who and what the loan is about; these never change. *)
Record Terms := MkTerms {
  tm_obligationId : string; tm_obligationHash : string; tm_schemaVersion : string; tm_sandboxOnly : bool;
  tm_productionFundsMoved : bool; tm_subjectId : string; tm_principalId : string; tm_creditIntentId : string;
  tm_riskDecisionId : string; tm_creditOfferId : string; tm_creditOfferAcceptanceId : string;
  tm_authorityType : CreditAuthorityType; tm_authorityRef : string; tm_assetId : string;
  tm_originalPrincipalMinor : Z; tm_annualRateBps : Z; tm_originationFeeMinor : Z;
  tm_repaymentFrequency : RepaymentFrequency; tm_acceptedAt : Z; tm_createdAt : Z;
  tm_poolObligationBindingId : option string; tm_poolExecutionReceiptId : option string }.

Record Balances := MkBalances {
  bl_outstandingPrincipalMinor : Z; bl_accruedInterestMinor : Z; bl_outstandingInterestMinor : Z;
  bl_accruedFeesMinor : Z; bl_outstandingFeesMinor : Z; bl_totalRepaidMinor : Z }.

Record Schedule := MkSchedule {
  sc_installmentCount : Z; sc_firstPaymentAt : string; sc_maturityAt : string; sc_scheduleVersion : string;
  sc_scheduleSequence : Z; sc_scheduleHash : string; sc_installments : list Installment }.

Record Execution := MkExecution {
  ex_executionStatus : ObligationExecutionStatus; ex_sandboxExecutionReceiptId : option string;
  ex_executedAt : option Z; ex_lastAccruedAt : option Z; ex_interestAccrualRemainder : option Z;
  ex_withdrawable : option bool }.

Record Servicing := MkServicing {
  sv_servicingClassification : ServicingClassification; sv_daysPastDue : Z;
  sv_oldestUnpaidInstallmentId : option string; sv_servicingEffectiveAt : Z; sv_servicingReasonCode : string;
  sv_servicingPolicyVersion : string; sv_servicingOwnerCode : SandboxServicingOwner;
  sv_resolutionType : option SandboxServicingResolution; sv_resolutionReasonCode : option string;
  sv_resolutionAt : option Z; sv_writtenOffPrincipalMinor : Z; sv_writtenOffInterestMinor : Z;
  sv_writtenOffFeesMinor : Z }.

Record Loan := MkLoan {
  ln_terms : Terms; ln_balances : Balances; ln_schedule : Schedule; ln_execution : Execution;
  ln_servicing : Servicing; ln_status : ObligationStatus; ln_updatedAt : Z }.

Definition ln_installments (o : Loan) : list Installment := sc_installments (ln_schedule o).
Definition ln_principal (o : Loan) : Z := bl_outstandingPrincipalMinor (ln_balances o).
Definition ln_interest (o : Loan) : Z := bl_outstandingInterestMinor (ln_balances o).
Definition ln_fees (o : Loan) : Z := bl_outstandingFeesMinor (ln_balances o).
Definition ln_repaid (o : Loan) : Z := bl_totalRepaidMinor (ln_balances o).
Definition ln_outstanding (o : Loan) : Z := ln_principal o + ln_interest o + ln_fees o.

(** What [toISOString] throws on a date that is not a time. *)
Definition RangeError : DomainError := MkDomainError "RangeError" "Invalid time value".

(** [new Date(t).toISOString()] *)
Definition iso_of (t : Z) : result string :=
  if (t <? -8640000000000000) || (8640000000000000 <? t) then Err RangeError else Ok (toISOString t).

(** ** Objects as JSON *)

Definition money (z : Z) : json := JStr (toString z).
Definition instant (t : Z) : json := JStr (toISOString t).
Definition opt_instant (t : option Z) : json := match t with Some t => instant t | None => JUndef end.

(** The part of an installment its id is the hash of. *)
Definition row_core (r : Installment) : list (string * json) :=
  [("obligationId", JStr (in_obligationId r)); ("installmentNumber", JNum (in_installmentNumber r));
   ("dueAt", instant (in_dueAt r)); ("scheduledPrincipalMinor", money (in_scheduledPrincipalMinor r));
   ("scheduledInterestMinor", money (in_scheduledInterestMinor r)); ("scheduledFeeMinor", money (in_scheduledFeeMinor r));
   ("paidPrincipalMinor", money (in_paidPrincipalMinor r)); ("paidInterestMinor", money (in_paidInterestMinor r));
   ("paidFeeMinor", money (in_paidFeeMinor r)); ("status", JStr (in_status r));
   ("scheduleVersion", JStr (in_scheduleVersion r)); ("scheduleSequence", JNum (in_scheduleSequence r))].
Definition installment_json (r : Installment) : json :=
  JObj ((("installmentId", JStr (in_installmentId r)) :: row_core r) ++
        [("schemaVersion", JStr "obligation_installment.v1")]).

(** [{ consentId }] or [{ mandateId }] *)
Definition authority_json (a : CreditAuthorityType) (ref : string) : string * json :=
  match a with CreditAuthorityType_CONSENT => ("consentId", JStr ref) | CreditAuthorityType_MANDATE => ("mandateId", JStr ref) end.

(** The fields of a new obligation, of which its hash is taken. *)
Definition loan_core (o : Loan) : list (string * json) :=
  let t := ln_terms o in let b := ln_balances o in let s := ln_schedule o in let v := ln_servicing o in
  [("subjectId", JStr (tm_subjectId t)); ("principalId", JStr (tm_principalId t));
   ("creditIntentId", JStr (tm_creditIntentId t)); ("riskDecisionId", JStr (tm_riskDecisionId t));
   ("creditOfferId", JStr (tm_creditOfferId t)); ("creditOfferAcceptanceId", JStr (tm_creditOfferAcceptanceId t));
   ("authorityType", JStr (value (tm_authorityType t))); ("authorityRef", JStr (tm_authorityRef t));
   authority_json (tm_authorityType t) (tm_authorityRef t); ("assetId", JStr (tm_assetId t));
   ("originalPrincipalMinor", money (tm_originalPrincipalMinor t));
   ("outstandingPrincipalMinor", money (bl_outstandingPrincipalMinor b)); ("annualRateBps", JNum (tm_annualRateBps t));
   ("originationFeeMinor", money (tm_originationFeeMinor t)); ("accruedInterestMinor", money (bl_accruedInterestMinor b));
   ("outstandingInterestMinor", money (bl_outstandingInterestMinor b)); ("accruedFeesMinor", money (bl_accruedFeesMinor b));
   ("outstandingFeesMinor", money (bl_outstandingFeesMinor b)); ("totalRepaidMinor", money (bl_totalRepaidMinor b));
   ("repaymentFrequency", JStr (value (tm_repaymentFrequency t))); ("installmentCount", JNum (sc_installmentCount s));
   ("firstPaymentAt", JStr (sc_firstPaymentAt s)); ("maturityAt", JStr (sc_maturityAt s));
   ("scheduleVersion", JStr (sc_scheduleVersion s)); ("scheduleSequence", JNum (sc_scheduleSequence s));
   ("scheduleHash", JStr (sc_scheduleHash s)); ("installments", JArr (map installment_json (sc_installments s)));
   ("executionStatus", JStr (value (ex_executionStatus (ln_execution o)))); ("sandboxOnly", JBool (tm_sandboxOnly t));
   ("productionFundsMoved", JBool (tm_productionFundsMoved t)); ("status", JStr (value (ln_status o)));
   ("servicingClassification", JStr (value (sv_servicingClassification v))); ("daysPastDue", JNum (sv_daysPastDue v));
   ("oldestUnpaidInstallmentId", match sv_oldestUnpaidInstallmentId v with Some i => JStr i | None => JNull end);
   ("servicingEffectiveAt", instant (sv_servicingEffectiveAt v)); ("servicingReasonCode", JStr (sv_servicingReasonCode v));
   ("servicingPolicyVersion", JStr (sv_servicingPolicyVersion v)); ("servicingOwnerCode", JStr (value (sv_servicingOwnerCode v)));
   ("writtenOffPrincipalMinor", money (sv_writtenOffPrincipalMinor v));
   ("writtenOffInterestMinor", money (sv_writtenOffInterestMinor v)); ("writtenOffFeesMinor", money (sv_writtenOffFeesMinor v));
   ("acceptedAt", instant (tm_acceptedAt t)); ("createdAt", instant (tm_createdAt t)); ("updatedAt", instant (ln_updatedAt o))].

(** The whole object, for the checks that it carries no personal data. *)
Definition loan_json (o : Loan) : json :=
  let t := ln_terms o in let e := ln_execution o in let v := ln_servicing o in
  JObj ([("obligationId", JStr (tm_obligationId t)); ("obligationHash", JStr (tm_obligationHash t))] ++ loan_core o ++
        [("schemaVersion", JStr (tm_schemaVersion t)); ("poolObligationBindingId", opt_json (tm_poolObligationBindingId t));
         ("poolExecutionReceiptId", opt_json (tm_poolExecutionReceiptId t));
         ("sandboxExecutionReceiptId", opt_json (ex_sandboxExecutionReceiptId e)); ("executedAt", opt_instant (ex_executedAt e));
         ("lastAccruedAt", opt_instant (ex_lastAccruedAt e));
         ("interestAccrualRemainder", match ex_interestAccrualRemainder e with Some r => money r | None => JUndef end);
         ("withdrawable", match ex_withdrawable e with Some b => JBool b | None => JUndef end);
         ("resolutionType", match sv_resolutionType v with Some r => JStr (value r) | None => JUndef end);
         ("resolutionReasonCode", opt_json (sv_resolutionReasonCode v)); ("resolutionAt", opt_instant (sv_resolutionAt v))]).

(** ** Acceptance *)

(** [/^0x[0-9a-f]{64}$/] *)
Definition HASH_PATTERN (s : string) : bool :=
  String.prefix "0x" s && (String.length s =? 66)%nat &&
  all_chars (fun c => is_digit c || ((97 <=? code c) && (code c <=? 102))) (String.substring 2 64 s).

Definition assertHash (name value : string) : result unit :=
  guard (negb (HASH_PATTERN value)) "offer_terms_mismatch" (name +:+ " must be a lowercase bytes32 value").

Definition assertOfferChain (offer : CreditOffer) (intent : CreditIntent) (decision : CreditDecision) : result unit :=
  guard (negb (bool_decide (of_schemaVersion offer ∈ ["credit_offer.v1"; "credit_offer.v2"])) ||
         negb (String.eqb (it_schemaVersion intent) "credit_intent.v1") ||
         negb (bool_decide (cd_schemaVersion decision ∈ ["risk_decision.v2"; "risk_decision.v3"])) ||
         negb (bool_decide (it_status intent = CreditIntentStatus_DECIDED)) ||
         negb (String.eqb (value (cd_status decision)) "approved") ||
         negb (String.eqb (of_creditIntentId offer) (it_creditIntentId intent)) ||
         negb (String.eqb (of_riskDecisionId offer) (cd_riskDecisionId decision)) ||
         negb (String.eqb (of_subjectId offer) (it_subjectId intent)) ||
         negb (String.eqb (cd_subjectId decision) (it_subjectId intent)) ||
         negb (String.eqb (cd_principalId decision) (it_principalId intent)) ||
         negb (String.eqb (of_assetId offer) (it_assetId intent)) ||
         negb (String.eqb (cd_assetId decision) (it_assetId intent)) ||
         negb (of_sandboxOnly offer) || of_productionFundsApproved offer)
    "offer_not_available" "Offer provenance is unavailable or inconsistent".

Section acceptance.
Context `{Platform}.

Definition assertConsentAuthorizesCreditOfferAcceptance (consent : option Consent) (offer : CreditOffer)
    (intent : CreditIntent) (now : Z) : result bool :=
  match consent with
  | None => fail "authority_not_current" "Offer acceptance requires Consent v1"
  | Some consent =>
      guard (negb (String.eqb (cn_schemaVersion consent) "consent_record.v1")) "authority_not_current"
        "Offer acceptance requires Consent v1" ;;
      assertNoRawPiiReference (cn_fields consent) ;;
      guard (negb (bool_decide (cn_status consent = ConsentStatus_ACTIVE)) || negb (cn_sandboxOnly consent) ||
             cn_productionAuthority consent || before_date now (cn_validFrom consent) || from_date now (cn_expiresAt consent))
        "authority_not_current" "Consent is not current" ;;
      guard (negb (bool_decide (it_authorityType intent = CreditAuthorityType_CONSENT)) ||
             negb (String.eqb (it_authorityRef intent) (cn_consentId consent)) ||
             negb (String.eqb (it_subjectId intent) (cn_subjectId consent)) ||
             negb (String.eqb (it_principalId intent) (cn_principalId consent)))
        "authority_not_current" "Consent does not match the accepted Offer provenance" ;;
      guard (existsb (fun purpose => negb (bool_decide (purpose ∈ cn_purposes consent)))
               [ConsentPurpose_CREDIT_APPLICATION; ConsentPurpose_CREDIT_DECISION; ConsentPurpose_CREDIT_OFFER_ACCEPTANCE;
                ConsentPurpose_OBLIGATION_SERVICING; ConsentPurpose_IDENTITY_REFERENCE_USE])
        "acceptance_scope_not_authorized" "Consent does not authorize Offer acceptance and servicing" ;;
      guard (negb (bool_decide (of_assetId offer ∈ cn_allowedAssetIds consent)) ||
             negb (bool_decide (it_purposeCode intent ∈ cn_allowedCreditPurposeCodes consent)) ||
             negb (bool_decide (of_repaymentFrequency offer ∈ cn_allowedRepaymentFrequencies consent)) ||
             (cn_maxRequestedPrincipalMinor consent <? of_approvedPrincipalMinor offer) ||
             (cn_maxRequestedTermDays consent <? it_requestedTermDays intent) ||
             (cn_maxInstallmentCount consent <? of_installmentCount offer))
        "acceptance_scope_not_authorized" "Offer exceeds the current Consent scope" ;;
      Ok true
  end.

Definition assertMandateAuthorizesCreditOfferAcceptance (mandate : option CreditMandate) (offer : CreditOffer)
    (intent : CreditIntent) (now : Z) : result bool :=
  match mandate with
  | None => fail "authority_not_current" "Mandate is not current and active"
  | Some mandate =>
      guard (negb (bool_decide (cmd_status mandate = MandateStatus_ACTIVE)) || negb (cmd_sandboxOnly mandate) ||
             cmd_productionAuthority mandate || before_date now (cmd_validFrom mandate) || from_date now (cmd_expiresAt mandate))
        "authority_not_current" "Mandate is not current and active" ;;
      guard (negb (bool_decide (it_authorityType intent = CreditAuthorityType_MANDATE)) ||
             negb (String.eqb (it_authorityRef intent) (cmd_mandateId mandate)) ||
             negb (String.eqb (it_subjectId intent) (cmd_subjectId mandate)) ||
             negb (String.eqb (it_principalId intent) (cmd_principalId mandate)))
        "authority_not_current" "Mandate does not match the accepted Offer provenance" ;;
      guard (negb (bool_decide (MandateCapability_REQUEST_CREDIT ∈ cmd_capabilities mandate)) ||
             negb (bool_decide (MandateCapability_ACCEPT_CREDIT_OFFER ∈ cmd_capabilities mandate)) ||
             negb (bool_decide (of_assetId offer ∈ cmd_assetIds mandate)) ||
             (cmd_perActionLimitMinor mandate <? of_approvedPrincipalMinor offer) ||
             (cmd_aggregateLimitMinor mandate - cmd_utilizedMinor mandate <? of_approvedPrincipalMinor offer))
        "acceptance_scope_not_authorized" "Offer exceeds the active Mandate scope" ;;
      Ok true
  end.

Definition acceptCreditOffer (offer : CreditOffer) (expectedOfferHash expectedTermsHash acceptanceId : string) (now : Z)
    : result CreditOffer :=
  assertHash "expectedOfferHash" expectedOfferHash ;;
  assertHash "expectedTermsHash" expectedTermsHash ;;
  assertNonEmptyString "acceptanceId" (JStr acceptanceId) ;;
  guard (negb (bool_decide (of_status offer = CreditOfferStatus_OFFERED))) "offer_not_available"
    "Offer is no longer available" ;;
  guard (from_date now (of_validUntil offer)) "offer_expired" "Offer has expired" ;;
  guard (negb (String.eqb (of_creditOfferHash offer) expectedOfferHash) ||
         negb (String.eqb (of_termsHash offer) expectedTermsHash)) "offer_terms_mismatch" "Offer or terms hash is stale" ;;
  Ok (MkCreditOffer (of_schemaVersion offer) (of_creditOfferId offer) (of_creditOfferHash offer) (of_termsHash offer)
        (of_creditIntentId offer) (of_riskDecisionId offer) (of_subjectId offer) (of_assetId offer)
        (of_approvedPrincipalMinor offer) (of_annualRateBps offer) (of_originationFeeMinor offer)
        (of_repaymentFrequency offer) (of_installmentCount offer) (of_firstPaymentAt offer) (of_maturityAt offer)
        (of_validUntil offer) (of_reasonCodes offer) (of_disclosureRef offer) CreditOfferStatus_ACCEPTED (Some acceptanceId)
        (Some now) (of_createdAt offer) now
        (of_sandboxOnly offer) (of_productionFundsApproved offer)).

(** [digest.slice(2)] *)
Definition slice2 (s : string) : string := String.substring 2 (String.length s - 2) s.

Definition createCreditOfferAcceptance (offer : CreditOffer) (intent : CreditIntent) (decision : CreditDecision)
    (authorityType : CreditAuthorityType) (authorityRef acknowledgementHash acceptedByActorId : string) (now : Z)
    : result Acceptance :=
  assertOfferChain offer intent decision ;;
  assertHash "acknowledgementHash" acknowledgementHash ;;
  assertNonEmptyString "authorityRef" (JStr authorityRef) ;;
  assertNonEmptyString "acceptedByActorId" (JStr acceptedByActorId) ;;
  guard (negb (bool_decide (authorityType = it_authorityType intent)) || negb (String.eqb authorityRef (it_authorityRef intent)))
    "authority_not_current" "Acceptance authority does not match the Credit Intent" ;;
  let actorHash := hashId "actor" (JStr acceptedByActorId) in
  let core := JObj [("creditOfferId", JStr (of_creditOfferId offer)); ("creditOfferHash", JStr (of_creditOfferHash offer));
     ("termsHash", JStr (of_termsHash offer)); ("creditIntentId", JStr (it_creditIntentId intent));
     ("riskDecisionId", JStr (cd_riskDecisionId decision)); ("subjectId", JStr (it_subjectId intent));
     ("principalId", JStr (it_principalId intent)); ("authorityType", JStr (value authorityType));
     ("authorityRef", JStr authorityRef); authority_json authorityType authorityRef;
     ("acknowledgementHash", JStr acknowledgementHash); ("acceptedByActorHash", JStr actorHash);
     ("acceptedAt", instant now); ("sandboxOnly", JBool true); ("productionAuthority", JBool false)] in
  assertNoRawPiiReference core ;;
  let acceptanceHash := hashId "credit_offer_acceptance" core in
  Ok (MkAcceptance ("credit_offer_acceptance_" +:+ slice2 acceptanceHash) acceptanceHash (of_creditOfferId offer)
        (of_creditOfferHash offer) (of_termsHash offer) (it_creditIntentId intent) (cd_riskDecisionId decision)
        (it_subjectId intent) (it_principalId intent) authorityType authorityRef acknowledgementHash actorHash now).

(** ** The schedule *)

Definition DAY_MS : Z := 86400000.

Definition INTERVAL_DAYS (f : RepaymentFrequency) : option Z :=
  match f with
  | RepaymentFrequency_WEEKLY => Some 7
  | RepaymentFrequency_BIWEEKLY => Some 14
  | RepaymentFrequency_MONTHLY => Some 30
  | RepaymentFrequency_END_OF_TERM => None
  end.

Definition new_installment (obligationId : string) (number dueAt principal interest fee sequence : Z) : Installment :=
  let row := MkInstallment "" obligationId number dueAt principal interest fee 0 0 0 "scheduled" "obligation_schedule.v1" sequence in
  MkInstallment ("obligation_installment_" +:+ slice2 (hashId "obligation_installment" (JObj (row_core row))))
    obligationId number dueAt principal interest fee 0 0 0 "scheduled" "obligation_schedule.v1" sequence.

(** The rows from [index] on; [more] is how many are to come. *)
Fixpoint schedule_rows (obligationId : string) (count first maturity interval basePrincipal remainder : Z)
    (previousDueAt : option Z) (index : Z) (more : nat) : result (list Installment) :=
  match more with
  | O => Ok []
  | S more =>
      let installmentNumber := index + 1 in
      let dueAt := if installmentNumber =? count then maturity else first + index * interval * DAY_MS in
      guard (match previousDueAt with Some p => dueAt <=? p | None => false end)
        "invalid_credit_schedule" "Offer schedule is not strictly increasing" ;;
      let scheduledPrincipal := basePrincipal + (if installmentNumber =? count then remainder else 0) in
      rest ← schedule_rows obligationId count first maturity interval basePrincipal remainder (Some dueAt) (index + 1) more;
      Ok (new_installment obligationId installmentNumber dueAt scheduledPrincipal 0 0 1 :: rest)
  end.

(** [Number.isSafeInteger(count) && 1 <= count <= 520] is the range alone.  A row
    whose date leaves the range of the language, where [toISOString] throws a
    RangeError, is after the maturity; here it fails the order check of the last row. *)
Definition createObligationSchedule (obligationId : string) (offer : CreditOffer) : result (string * list Installment) :=
  assertNonEmptyString "obligationId" (JStr obligationId) ;;
  principal ← assertPositiveMinorUnits (MString (toString (of_approvedPrincipalMinor offer))) "approvedPrincipalMinor";
  let count := of_installmentCount offer in
  guard ((count <? 1) || (520 <? count)) "invalid_credit_schedule" "Offer installment count is invalid" ;;
  match date_parse (of_firstPaymentAt offer), date_parse (of_maturityAt offer) with
  | Some first, Some maturity =>
      guard (maturity <? first) "invalid_credit_schedule" "Offer schedule timestamps are invalid" ;;
      guard ((1 <? count) && match INTERVAL_DAYS (of_repaymentFrequency offer) with Some _ => false | None => true end)
        "invalid_credit_schedule" "Offer frequency cannot produce multiple installments" ;;
      installments ← schedule_rows obligationId count first maturity (default 0 (INTERVAL_DAYS (of_repaymentFrequency offer)))
                       (Z.quot principal count) (Z.rem principal count) None 0 (Z.to_nat count);
      let total := foldl (fun sum row => sum + in_scheduledPrincipalMinor row) 0 installments in
      guard (negb (total =? principal) ||
             negb (bool_decide (option_map in_dueAt (last installments) = Some maturity)))
        "invalid_credit_schedule" "normalized schedule does not reconcile to Offer terms" ;;
      Ok (hashId "obligation_schedule" (JArr (map installment_json installments)), installments)
  | _, _ => fail "invalid_credit_schedule" "Offer schedule timestamps are invalid"
  end.

Definition createAcceptedOfferObligation (offer : CreditOffer) (intent : CreditIntent) (decision : CreditDecision)
    (acceptance : Acceptance) (now : Z) : M Sys Loan :=
  lift (assertOfferChain offer intent decision) ;;
  throw_if (negb (String.eqb (ac_creditOfferId acceptance) (of_creditOfferId offer)) ||
            negb (String.eqb (ac_creditIntentId acceptance) (it_creditIntentId intent)) ||
            negb (String.eqb (ac_riskDecisionId acceptance) (cd_riskDecisionId decision)) ||
            negb (bool_decide (ac_authorityType acceptance = it_authorityType intent)) ||
            negb (String.eqb (ac_authorityRef acceptance) (it_authorityRef intent)))
    "offer_not_available" "Acceptance does not match Offer provenance" ;;
  obligationId ← createOperationalId "obligation";
  schedule ← lift (createObligationSchedule obligationId offer);
  let '(scheduleHash, installments) := (schedule : string * list Installment) in
  let terms hash := MkTerms obligationId hash "obligation.v2" true false (it_subjectId intent) (it_principalId intent)
    (it_creditIntentId intent) (cd_riskDecisionId decision) (of_creditOfferId offer) (ac_creditOfferAcceptanceId acceptance)
    (it_authorityType intent) (it_authorityRef intent) (of_assetId offer) (of_approvedPrincipalMinor offer)
    (of_annualRateBps offer) (of_originationFeeMinor offer) (of_repaymentFrequency offer) (ac_acceptedAt acceptance) now None None in
  let loan hash := MkLoan (terms hash) (MkBalances (of_approvedPrincipalMinor offer) 0 0 0 0 0)
    (MkSchedule (of_installmentCount offer) (of_firstPaymentAt offer) (of_maturityAt offer) "obligation_schedule.v1" 1
       scheduleHash installments)
    (MkExecution ObligationExecutionStatus_PENDING None None None None None)
    (MkServicing ServicingClassification_CURRENT 0 (in_installmentId <$> head installments) now "obligation_created"
       "sandbox-servicing-policy.v1" SandboxServicingOwner_PLATFORM None None None 0 0 0)
    ObligationStatus_CREATED now in
  let core := JObj (loan_core (loan "")) in
  lift (assertNoRawPiiReference core) ;;
  mret (loan (hashId "obligation_v2" core)).
End acceptance.
