(* ===== verification/Servicing.v ===== *)
(** * Servicing a sandbox loan

    src/packages/domain/src/sandbox-servicing.js: days past due, classification,
    cure, and the resolutions restructure, repurchase and write-off. *)

From stdpp Require Import base tactics sets relations gmap numbers strings list.
From S2P Require Import Prelude Js Enums EventStore Service Loan.
Local Open Scope string_scope.
Local Open Scope Z_scope.

Definition SANDBOX_SERVICING_POLICY_VERSION : string := "sandbox-servicing-policy.v1".
Definition SANDBOX_SERVICING_GRACE_DAYS : Z := 3.
Definition SANDBOX_SERVICING_DEFAULT_DPD : Z := 90.

Definition isSafeInteger (z : Z) : bool := (- 9007199254740991 <=? z) && (z <=? 9007199254740991).

(** ** Updates of an obligation *)

Definition set_servicing (v : Servicing) (st : ObligationStatus) (at_ : Z) (o : Loan) : Loan :=
  MkLoan (ln_terms o) (ln_balances o) (ln_schedule o) (ln_execution o) v st at_.

(** What [deriveSandboxServicing] returns. *)
Record Derived := MkDerived {
  dv_status : ObligationStatus; dv_servicingClassification : ServicingClassification; dv_daysPastDue : Z;
  dv_oldestUnpaidInstallmentId : option string; dv_servicingReasonCode : string }.

(** The fields of an action that are read back; its hash covers the others. *)
Record ServicingAction := MkServicingAction {
  sa_servicingActionId : string; sa_servicingActionHash : string; sa_actionType : string;
  sa_previousStatus : ObligationStatus; sa_nextStatus : ObligationStatus;
  sa_previousClassification : ServicingClassification; sa_nextClassification : ServicingClassification;
  sa_daysPastDue : Z; sa_reasonCode : string; sa_source : string;
  sa_scheduleSequenceBefore : Z; sa_scheduleSequenceAfter : Z; sa_balancesBefore : Balances; sa_balancesAfter : Balances;
  sa_effectiveAt : Z }.

(** ** Checks and classification *)

Definition installmentOutstandingMinor (row : Installment) : Z :=
  in_scheduledPrincipalMinor row - in_paidPrincipalMinor row +
  in_scheduledInterestMinor row - in_paidInterestMinor row +
  in_scheduledFeeMinor row - in_paidFeeMinor row.

Definition moneySnapshot (b : Balances) : json :=
  JObj [("outstandingPrincipalMinor", money (bl_outstandingPrincipalMinor b));
        ("outstandingInterestMinor", money (bl_outstandingInterestMinor b));
        ("outstandingFeesMinor", money (bl_outstandingFeesMinor b)); ("totalRepaidMinor", money (bl_totalRepaidMinor b))].

Definition assertSharedServicingObligation (o : Loan) (executed : bool) : result unit :=
  guard (negb (String.eqb (tm_schemaVersion (ln_terms o)) "obligation.v2") ||
         negb (tm_sandboxOnly (ln_terms o)) || tm_productionFundsMoved (ln_terms o) ||
         (length (ln_installments o) =? 0)%nat ||
         (executed && negb (bool_decide (ex_executionStatus (ln_execution o) = ObligationExecutionStatus_EXECUTED))))
    "servicing_state_unavailable" "shared sandbox servicing state is unavailable" ;;
  assertNoRawPiiReference (loan_json o).

Definition basePerformingStatus (o : Loan) : ObligationStatus :=
  if ln_outstanding o =? 0 then ObligationStatus_FULLY_REPAID
  else if bool_decide (ln_status o ∈ [ObligationStatus_RESTRUCTURED; ObligationStatus_REPURCHASED]) &&
          bool_decide (sv_servicingClassification (ln_servicing o) ∈
            [ServicingClassification_RESTRUCTURED; ServicingClassification_REPURCHASED])
  then ln_status o
  else if 0 <? ln_repaid o then ObligationStatus_PARTIALLY_REPAID else ObligationStatus_ACTIVE.

Definition classificationForDpd (daysPastDue : Z) : ServicingClassification :=
  if daysPastDue <=? SANDBOX_SERVICING_GRACE_DAYS then ServicingClassification_GRACE_PERIOD
  else if daysPastDue <=? 30 then ServicingClassification_DPD_1_30
  else if daysPastDue <=? 60 then ServicingClassification_DPD_31_60
  else if daysPastDue <=? 89 then ServicingClassification_DPD_61_89
  else ServicingClassification_DEFAULTED.

(** [None] is [undefined], which no classification of an overdue loan gives. *)
Definition reasonForClassification (c : ServicingClassification) : option string :=
  match c with
  | ServicingClassification_CURRENT => Some "servicing_current"
  | ServicingClassification_GRACE_PERIOD => Some "servicing_grace_period"
  | ServicingClassification_DPD_1_30 => Some "servicing_dpd_1_30"
  | ServicingClassification_DPD_31_60 => Some "servicing_dpd_31_60"
  | ServicingClassification_DPD_61_89 => Some "servicing_dpd_61_89"
  | ServicingClassification_DEFAULTED => Some "servicing_default_threshold"
  | _ => None
  end.

(** The classifications each lifecycle status admits. *)
Definition allowedPairs (st : ObligationStatus) : list ServicingClassification :=
  match st with
  | ObligationStatus_CREATED => [ServicingClassification_CURRENT]
  | ObligationStatus_ACTIVE | ObligationStatus_PARTIALLY_REPAID | ObligationStatus_FULLY_REPAID =>
      [ServicingClassification_CURRENT; ServicingClassification_CURED]
  | ObligationStatus_DELINQUENT => [ServicingClassification_GRACE_PERIOD; ServicingClassification_DPD_1_30;
      ServicingClassification_DPD_31_60; ServicingClassification_DPD_61_89]
  | ObligationStatus_DEFAULTED => [ServicingClassification_DEFAULTED]
  | ObligationStatus_RESTRUCTURED => [ServicingClassification_RESTRUCTURED]
  | ObligationStatus_REPURCHASED => [ServicingClassification_REPURCHASED]
  | ObligationStatus_WRITTEN_OFF => [ServicingClassification_WRITTEN_OFF]
  | ObligationStatus_OVERDUE | ObligationStatus_CLOSED => []
  end.

Definition assertSandboxServicingState (o : Loan) : result bool :=
  let v := ln_servicing o in
  assertSharedServicingObligation o false ;;
  assertEnumValue "servicingClassification" (value (sv_servicingClassification v)) (enumValues ServicingClassification) ;;
  guard (negb (String.eqb (sv_servicingPolicyVersion v) SANDBOX_SERVICING_POLICY_VERSION) ||
         negb (isSafeInteger (sv_daysPastDue v)) || (sv_daysPastDue v <? 0) ||
         negb (isSafeInteger (sc_scheduleSequence (ln_schedule o))) || (sc_scheduleSequence (ln_schedule o) <? 1) ||
         negb (bool_decide (value (sv_servicingOwnerCode v) ∈ enumValues SandboxServicingOwner)))
    "invalid_servicing_state" "sandbox servicing state is invalid" ;;
  guard (negb (bool_decide (sv_servicingClassification v ∈ allowedPairs (ln_status o))))
    "invalid_servicing_state" "Obligation lifecycle and servicing classification conflict" ;;
  guard ((bool_decide (sv_servicingClassification v = ServicingClassification_CURRENT) && negb (sv_daysPastDue v =? 0)) ||
         (bool_decide (ln_status o = ObligationStatus_DEFAULTED) && (sv_daysPastDue v <? SANDBOX_SERVICING_DEFAULT_DPD)) ||
         (bool_decide (sv_oldestUnpaidInstallmentId v = None) && negb (sv_daysPastDue v =? 0)))
    "invalid_servicing_state" "Obligation DPD fields conflict with servicing state" ;;
  Ok true.

(** The order of the unpaid installments. *)
Definition row_order (left right : Installment) : comparison :=
  match Z.compare (in_dueAt left) (in_dueAt right) with
  | Eq => Z.compare (in_installmentNumber left) (in_installmentNumber right)
  | c => c
  end.

Definition oldest_unpaid (o : Loan) : option Installment :=
  head (stable_sort row_order (List.filter (fun row => 0 <? installmentOutstandingMinor row) (ln_installments o))).

Definition deriveSandboxServicing (o : Loan) (now : Z) : result Derived :=
  assertSharedServicingObligation o true ;;
  let performing := MkDerived (basePerformingStatus o)
    (if bool_decide (ln_status o ∈ [ObligationStatus_RESTRUCTURED; ObligationStatus_REPURCHASED])
     then sv_servicingClassification (ln_servicing o) else ServicingClassification_CURRENT)
    0 (in_installmentId <$> oldest_unpaid o) "servicing_current" in
  Ok (match oldest_unpaid o with
      | None => performing
      | Some oldest =>
          if now <=? in_dueAt oldest then performing else
          let daysPastDue := (now - in_dueAt oldest) / DAY_MS in
          let classification := classificationForDpd daysPastDue in
          MkDerived (if bool_decide (classification = ServicingClassification_DEFAULTED)
                     then ObligationStatus_DEFAULTED else ObligationStatus_DELINQUENT)
            classification daysPastDue (Some (in_installmentId oldest)) (default "" (reasonForClassification classification))
      end).

(** ** Actions *)

Section servicing.
Context `{Platform}.

Definition opt_field (name : string) (v : option json) : list (string * json) :=
  match v with Some j => [(name, j)] | None => [] end.

(** The approvals of a resolution, when there is one. *)
Definition previous_schedule (s : Schedule) : json :=
  JObj [("scheduleSequence", JNum (sc_scheduleSequence s)); ("scheduleHash", JStr (sc_scheduleHash s));
        ("installments", JArr (map installment_json (sc_installments s)))].

Definition createServicingAction (actionType : string) (previous next : Loan) (reasonCode source actorId : string)
    (approvalProposalId approvalExecutionId : option string) (previousSchedule : option json) (now : Z)
    : result ServicingAction :=
  let p := ln_servicing previous in let n := ln_servicing next in
  let core := JObj ([("obligationId", JStr (tm_obligationId (ln_terms previous))); ("subjectId", JStr (tm_subjectId (ln_terms previous)));
    ("actionType", JStr actionType); ("previousStatus", JStr (value (ln_status previous))); ("nextStatus", JStr (value (ln_status next)));
    ("previousClassification", JStr (value (sv_servicingClassification p)));
    ("nextClassification", JStr (value (sv_servicingClassification n))); ("daysPastDue", JNum (sv_daysPastDue n));
    ("oldestUnpaidInstallmentId", match sv_oldestUnpaidInstallmentId n with Some i => JStr i | None => JNull end);
    ("reasonCode", JStr reasonCode); ("source", JStr source); ("actorHash", JStr (hashId "actor" (JStr actorId)));
    ("policyVersion", JStr SANDBOX_SERVICING_POLICY_VERSION);
    ("scheduleSequenceBefore", JNum (sc_scheduleSequence (ln_schedule previous)));
    ("scheduleSequenceAfter", JNum (sc_scheduleSequence (ln_schedule next)));
    ("scheduleHashBefore", JStr (sc_scheduleHash (ln_schedule previous)));
    ("scheduleHashAfter", JStr (sc_scheduleHash (ln_schedule next)));
    ("balancesBefore", moneySnapshot (ln_balances previous)); ("balancesAfter", moneySnapshot (ln_balances next))] ++
    opt_field "previousSchedule" previousSchedule ++
    opt_field "approvalProposalId" (JStr <$> truthy approvalProposalId) ++
    opt_field "approvalExecutionId" (JStr <$> truthy approvalExecutionId) ++
    [("effectiveAt", instant now); ("sandboxOnly", JBool true); ("productionFundsMoved", JBool false);
     ("schemaVersion", JStr "sandbox_servicing_action.v1")]) in
  assertNoRawPiiReference core ;;
  let servicingActionHash := hashId "sandbox_servicing_action" core in
  Ok (MkServicingAction ("sandbox_servicing_action_" +:+ slice2 servicingActionHash) servicingActionHash actionType
        (ln_status previous) (ln_status next) (sv_servicingClassification p) (sv_servicingClassification n)
        (sv_daysPastDue n) reasonCode source (sc_scheduleSequence (ln_schedule previous))
        (sc_scheduleSequence (ln_schedule next)) (ln_balances previous) (ln_balances next) now).

(** [{ ...previous, ...derived, ... }]; both callers leave [reasonCode] out. *)
Definition applyDerivedServicing (previous : Loan) (derived : Derived) (now : Z) : result Loan :=
  let v := ln_servicing previous in
  let next := set_servicing (MkServicing (dv_servicingClassification derived) (dv_daysPastDue derived)
      (dv_oldestUnpaidInstallmentId derived) now (dv_servicingReasonCode derived) SANDBOX_SERVICING_POLICY_VERSION
      (sv_servicingOwnerCode v) (sv_resolutionType v) (sv_resolutionReasonCode v) (sv_resolutionAt v)
      (sv_writtenOffPrincipalMinor v) (sv_writtenOffInterestMinor v) (sv_writtenOffFeesMinor v))
      (dv_status derived) now previous in
  assertSandboxServicingState next ;;
  Ok next.

Definition advanceSandboxServicing (o : Loan) (actorId : string) (now : Z) : result (Loan * option ServicingAction) :=
  assertNonEmptyString "actorId" (JStr actorId) ;;
  derived ← deriveSandboxServicing o now;
  let v := ln_servicing o in
  let changed := negb (bool_decide (ln_status o = dv_status derived)) ||
    negb (bool_decide (sv_servicingClassification v = dv_servicingClassification derived)) ||
    negb (sv_daysPastDue v =? dv_daysPastDue derived) ||
    negb (bool_decide (sv_oldestUnpaidInstallmentId v = dv_oldestUnpaidInstallmentId derived)) ||
    negb (String.eqb (sv_servicingReasonCode v) (dv_servicingReasonCode derived)) in
  if negb changed then Ok (o, None) else
  next ← applyDerivedServicing o derived now;
  action ← createServicingAction "advance" o next (sv_servicingReasonCode (ln_servicing next)) "system_worker" actorId
             None None None now;
  Ok (next, Some action).

Definition adverse (o : Loan) : bool :=
  bool_decide (ln_status o ∈ [ObligationStatus_DELINQUENT; ObligationStatus_DEFAULTED]) ||
  bool_decide (sv_servicingClassification (ln_servicing o) ∈
    [ServicingClassification_GRACE_PERIOD; ServicingClassification_DPD_1_30; ServicingClassification_DPD_31_60;
     ServicingClassification_DPD_61_89; ServicingClassification_DEFAULTED]).

(** What [applySandboxServicingAfterRepayment] returns. *)
Record AfterRepayment := MkAfterRepayment {
  aft_obligation : Loan; aft_servicingAction : option ServicingAction; aft_cured : bool }.

Definition applySandboxServicingAfterRepayment (previous repaid : Loan) (actorId : string) (now : Z) : result AfterRepayment :=
  assertNonEmptyString "actorId" (JStr actorId) ;;
  derived ← deriveSandboxServicing repaid now;
  let cured := adverse previous && (dv_daysPastDue derived =? 0) in
  let nextDerived := if cured
    then MkDerived (basePerformingStatus repaid) ServicingClassification_CURED (dv_daysPastDue derived)
           (dv_oldestUnpaidInstallmentId derived) "servicing_cured_by_repayment"
    else derived in
  next ← applyDerivedServicing repaid nextDerived now;
  if negb cured && bool_decide (ln_status previous = ln_status next) &&
     bool_decide (sv_servicingClassification (ln_servicing previous) = sv_servicingClassification (ln_servicing next)) &&
     (sv_daysPastDue (ln_servicing previous) =? sv_daysPastDue (ln_servicing next)) &&
     bool_decide (sv_oldestUnpaidInstallmentId (ln_servicing previous) = sv_oldestUnpaidInstallmentId (ln_servicing next))
  then Ok (MkAfterRepayment next None false) else
  action ← createServicingAction (if cured then "cure" else "advance") previous next
             (sv_servicingReasonCode (ln_servicing next)) "repayment" actorId None None None now;
  Ok (MkAfterRepayment next (Some action) cured).

(** ** Resolutions *)

Definition assertResolutionEligible (o : Loan) (allowedStatuses : list ObligationStatus) : result unit :=
  assertSharedServicingObligation o true ;;
  guard (negb (bool_decide (ln_status o ∈ allowedStatuses))) "servicing_resolution_unavailable"
    "Obligation is not eligible for this resolution".

(** Who resolves, why, and under which approval. *)
Record Resolution := MkResolution {
  rs_reasonCode : string; rs_actorId : string; rs_approvalProposalId : string; rs_approvalExecutionId : string }.

(** [changed] is the obligation with the resolution's own changes. *)
Definition resolve (o changed : Loan) (status : ObligationStatus) (classification : ServicingClassification)
    (resolutionType : SandboxServicingResolution) (r : Resolution) (previousSchedule : option json) (now : Z)
    : result (Loan * ServicingAction) :=
  assertNonEmptyString "reasonCode" (JStr (rs_reasonCode r)) ;;
  assertNonEmptyString "actorId" (JStr (rs_actorId r)) ;;
  assertNonEmptyString "approvalProposalId" (JStr (rs_approvalProposalId r)) ;;
  assertNonEmptyString "approvalExecutionId" (JStr (rs_approvalExecutionId r)) ;;
  let v := ln_servicing changed in
  let next := set_servicing (MkServicing classification (sv_daysPastDue v) (sv_oldestUnpaidInstallmentId v) now (rs_reasonCode r)
      SANDBOX_SERVICING_POLICY_VERSION (sv_servicingOwnerCode v) (Some resolutionType) (Some (rs_reasonCode r)) (Some now)
      (sv_writtenOffPrincipalMinor v) (sv_writtenOffInterestMinor v) (sv_writtenOffFeesMinor v)) status now changed in
  assertSandboxServicingState next ;;
  action ← createServicingAction (value resolutionType) o next (rs_reasonCode r) "dual_control" (rs_actorId r)
             (Some (rs_approvalProposalId r)) (Some (rs_approvalExecutionId r)) previousSchedule now;
  Ok (next, action).

Definition set_schedule (s : Schedule) (dpd : Z) (oldest : option string) (o : Loan) : Loan :=
  let v := ln_servicing o in
  MkLoan (ln_terms o) (ln_balances o) s (ln_execution o)
    (MkServicing (sv_servicingClassification v) dpd oldest (sv_servicingEffectiveAt v) (sv_servicingReasonCode v)
       (sv_servicingPolicyVersion v) (sv_servicingOwnerCode v) (sv_resolutionType v) (sv_resolutionReasonCode v)
       (sv_resolutionAt v) (sv_writtenOffPrincipalMinor v) (sv_writtenOffInterestMinor v) (sv_writtenOffFeesMinor v))
    (ln_status o) (ln_updatedAt o).

Definition restructureSandboxObligation (o : Loan) (additionalTermDays : Z) (r : Resolution) (now : Z)
    : result (Loan * ServicingAction) :=
  assertResolutionEligible o [ObligationStatus_DELINQUENT; ObligationStatus_DEFAULTED] ;;
  guard (negb (isSafeInteger additionalTermDays) || (additionalTermDays <? 1) || (90 <? additionalTermDays))
    "invalid_servicing_resolution" "restructure term must be between 1 and 90 days" ;;
  let dueAt := now + additionalTermDays * DAY_MS in
  let scheduleSequence := sc_scheduleSequence (ln_schedule o) + 1 in
  let installment := new_installment (tm_obligationId (ln_terms o)) 1 dueAt (ln_principal o) (ln_interest o) (ln_fees o)
                       scheduleSequence in
  let s := MkSchedule 1 (toISOString dueAt) (toISOString dueAt) (sc_scheduleVersion (ln_schedule o)) scheduleSequence
             (hashId "obligation_schedule" (JArr [installment_json installment])) [installment] in
  resolve o (set_schedule s 0 (Some (in_installmentId installment)) o) ObligationStatus_RESTRUCTURED
    ServicingClassification_RESTRUCTURED SandboxServicingResolution_RESTRUCTURE r
    (Some (previous_schedule (ln_schedule o))) now.

Definition set_owner (owner : SandboxServicingOwner) (o : Loan) : Loan :=
  let v := ln_servicing o in
  set_servicing (MkServicing (sv_servicingClassification v) (sv_daysPastDue v) (sv_oldestUnpaidInstallmentId v)
    (sv_servicingEffectiveAt v) (sv_servicingReasonCode v) (sv_servicingPolicyVersion v) owner (sv_resolutionType v)
    (sv_resolutionReasonCode v) (sv_resolutionAt v) (sv_writtenOffPrincipalMinor v) (sv_writtenOffInterestMinor v)
    (sv_writtenOffFeesMinor v)) (ln_status o) (ln_updatedAt o) o.

Definition repurchaseSandboxObligation (o : Loan) (servicingOwnerCode : SandboxServicingOwner) (r : Resolution) (now : Z)
    : result (Loan * ServicingAction) :=
  assertResolutionEligible o [ObligationStatus_DELINQUENT; ObligationStatus_DEFAULTED; ObligationStatus_RESTRUCTURED] ;;
  assertEnumValue "servicingOwnerCode" (value servicingOwnerCode) (enumValues SandboxServicingOwner) ;;
  guard (bool_decide (servicingOwnerCode = sv_servicingOwnerCode (ln_servicing o))) "invalid_servicing_resolution"
    "repurchase must change the sandbox servicing owner" ;;
  resolve o (set_owner servicingOwnerCode o) ObligationStatus_REPURCHASED ServicingClassification_REPURCHASED
    SandboxServicingResolution_REPURCHASE r None now.

Definition set_written_off (principal interest fees : Z) (o : Loan) : Loan :=
  let v := ln_servicing o in
  set_servicing (MkServicing (sv_servicingClassification v) (sv_daysPastDue v) (sv_oldestUnpaidInstallmentId v)
    (sv_servicingEffectiveAt v) (sv_servicingReasonCode v) (sv_servicingPolicyVersion v) (sv_servicingOwnerCode v)
    (sv_resolutionType v) (sv_resolutionReasonCode v) (sv_resolutionAt v) principal interest fees)
    (ln_status o) (ln_updatedAt o) o.

Definition writeOffSandboxObligation (o : Loan) (r : Resolution) (now : Z) : result (Loan * ServicingAction) :=
  assertResolutionEligible o [ObligationStatus_DEFAULTED; ObligationStatus_RESTRUCTURED; ObligationStatus_REPURCHASED] ;;
  guard (ln_outstanding o =? 0) "servicing_resolution_unavailable" "Obligation has no balance to write off" ;;
  resolve o (set_written_off (ln_principal o) (ln_interest o) (ln_fees o) o) ObligationStatus_WRITTEN_OFF
    ServicingClassification_WRITTEN_OFF SandboxServicingResolution_WRITE_OFF r None now.
End servicing.
