(* ===== verification/SandboxCredit.v ===== *)
(** * Executing and repaying a sandbox loan

    src/packages/domain/src/sandbox-credit.js: the execution receipt, the derived
    ledger accounts, simple interest, the repayment waterfall and the ledger
    transactions that go with them. *)

From stdpp Require Import base tactics sets relations gmap numbers strings list.
From S2P Require Import Prelude Js Enums EventStore Service Ledger Mandate Loan Servicing.
Local Open Scope string_scope.
Local Open Scope Z_scope.

Definition ACTUAL_365_DENOMINATOR : Z := 3650000.

Definition ACCOUNT_SPECS : list (LedgerAccountType * LedgerNormalSide) :=
  [(LedgerAccountType_SANDBOX_FUNDING_SOURCE, LedgerNormalSide_CREDIT);
   (LedgerAccountType_PRINCIPAL_RECEIVABLE, LedgerNormalSide_DEBIT);
   (LedgerAccountType_INTEREST_RECEIVABLE, LedgerNormalSide_DEBIT);
   (LedgerAccountType_FEE_RECEIVABLE, LedgerNormalSide_DEBIT);
   (LedgerAccountType_SYNTHETIC_INTEREST_INCOME, LedgerNormalSide_CREDIT);
   (LedgerAccountType_SYNTHETIC_FEE_INCOME, LedgerNormalSide_CREDIT);
   (LedgerAccountType_REPAYMENT_CLEARING, LedgerNormalSide_DEBIT);
   (LedgerAccountType_WRITE_OFF_LOSS, LedgerNormalSide_DEBIT)].

Definition min (a b : Z) : Z := if a <? b then a else b.

Definition assertSharedObligation (o : Loan) : result unit :=
  guard (negb (String.eqb (tm_schemaVersion (ln_terms o)) "obligation.v2") ||
         negb (tm_sandboxOnly (ln_terms o)) || tm_productionFundsMoved (ln_terms o) ||
         negb (bool_decide (value (tm_authorityType (ln_terms o)) ∈ enumValues CreditAuthorityType)))
    "obligation_not_executable" "shared sandbox Obligation is unavailable" ;;
  assertNoRawPiiReference (loan_json o).

(** The component of an installment a repayment goes to. *)
Inductive component := Fee | Interest | Principal.
#[export] Instance component_eq_dec : EqDecision component.
Proof. solve_decision. Defined.

(** ** Authority *)

(** The consent or the mandate, whichever kind the obligation names. *)

Section credit.
Context `{Platform}.

Definition assertCurrentAuthority (consent : option Consent) (mandate : option CreditMandate) (o : Loan)
    (capability : MandateCapability) (now : Z) : result bool :=
  let t := ln_terms o in
  match tm_authorityType t with
  | CreditAuthorityType_CONSENT =>
      guard (match consent with
             | None => true
             | Some c =>
                 negb (String.eqb (cn_schemaVersion c) "consent_record.v1") ||
                 negb (String.eqb (cn_consentId c) (tm_authorityRef t)) ||
                 negb (String.eqb (cn_subjectId c) (tm_subjectId t)) ||
                 negb (String.eqb (cn_principalId c) (tm_principalId t)) ||
                 negb (bool_decide (cn_status c = ConsentStatus_ACTIVE)) ||
                 negb (cn_sandboxOnly c) || cn_productionAuthority c ||
                 before_date now (cn_validFrom c) || from_date now (cn_expiresAt c) ||
                 negb (bool_decide (ConsentPurpose_CREDIT_OFFER_ACCEPTANCE ∈ cn_purposes c)) ||
                 negb (bool_decide (ConsentPurpose_OBLIGATION_SERVICING ∈ cn_purposes c)) ||
                 negb (bool_decide (tm_assetId t ∈ cn_allowedAssetIds c))
             end)
        "authority_not_current" "Consent does not authorize sandbox execution or servicing" ;;
      Ok true
  | CreditAuthorityType_MANDATE =>
      guard (match mandate with
             | None => true
             | Some m =>
                 negb (String.eqb (cmd_mandateId m) (tm_authorityRef t)) ||
                 negb (String.eqb (cmd_subjectId m) (tm_subjectId t)) ||
                 negb (String.eqb (cmd_principalId m) (tm_principalId t)) ||
                 negb (bool_decide (cmd_status m = MandateStatus_ACTIVE)) ||
                 negb (cmd_sandboxOnly m) || cmd_productionAuthority m ||
                 before_date now (cmd_validFrom m) || from_date now (cmd_expiresAt m) ||
                 negb (bool_decide (tm_assetId t ∈ cmd_assetIds m)) ||
                 negb (bool_decide (capability ∈ cmd_capabilities m))
             end)
        "authority_not_current" "Mandate does not authorize the sandbox operation" ;;
      Ok true
  end.

Definition assertAuthorityAuthorizesSandboxExecution (consent : option Consent) (mandate : option CreditMandate) (o : Loan)
    (now : Z) : result bool :=
  assertSharedObligation o ;;
  assertCurrentAuthority consent mandate o MandateCapability_EXECUTE_SANDBOX_CREDIT now.

Definition assertAuthorityAuthorizesSandboxRepayment (consent : option Consent) (mandate : option CreditMandate) (o : Loan)
    (now : Z) : result bool :=
  assertSharedObligation o ;;
  assertCurrentAuthority consent mandate o MandateCapability_ROUTE_REPAYMENT now.

(** ** The ledger *)

Definition account_natural (o : Loan) (accountType : LedgerAccountType) : json :=
  JObj [("ownerType", JStr "obligation"); ("ownerId", JStr (tm_obligationId (ln_terms o)));
        ("assetId", JStr (tm_assetId (ln_terms o))); ("accountType", JStr (value accountType))].

Definition createDerivedAccount (o : Loan) (accountType : LedgerAccountType) (normalSide : LedgerNormalSide) (now : Z)
    : LedgerAccount :=
  let natural := account_natural o accountType in
  MkLedgerAccount ("ledger_account_" +:+ slice2 (hashId "sandbox_ledger_account" natural)) (hashId "ledger_account" natural)
    "obligation" (tm_obligationId (ln_terms o)) (tm_assetId (ln_terms o)) accountType normalSide LedgerAccountStatus_ACTIVE
    (toISOString now).

(** [now] is absent when the obligation has no [executedAt]. *)
Definition createSandboxLedgerAccounts (o : Loan) (now : option Z) : result (list LedgerAccount) :=
  assertSharedObligation o ;;
  match now with
  | Some now => Ok (map (fun '(accountType, normalSide) => createDerivedAccount o accountType normalSide now) ACCOUNT_SPECS)
  | None => Err RangeError
  end.

(** [accounts[accountType].ledgerAccountId]; the accounts of an obligation are
    determined by it. *)
Definition account_id (o : Loan) (accountType : LedgerAccountType) : string :=
  la_ledgerAccountId (createDerivedAccount o accountType LedgerNormalSide_DEBIT 0).

Record Posting := MkPosting { ps_transaction : LedgerTransaction; ps_entries : list LedgerEntry }.

Fixpoint sandbox_normalize (sequence : Z) (l : list EntryInput) : result (list NormalEntry) :=
  match l with
  | [] => Ok []
  | entry :: l =>
      amount ← assertPositiveMinorUnits (ei_amountMinor entry) "ledger amount";
      rest ← sandbox_normalize (sequence + 1) l;
      Ok (MkNormalEntry (ei_ledgerAccountId entry) (ei_direction entry) amount sequence :: rest)
  end.

Definition createBalancedTransaction (idempotencyKey transactionType : string) (o : Loan) (referenceType referenceId : string)
    (metadata : json) (entryInputs : list EntryInput) (now : Z) : M Sys Posting :=
  normalizedEntries ← lift (sandbox_normalize 0 entryInputs);
  let debits := total_of LedgerEntryDirection_DEBIT normalizedEntries in
  let credits := total_of LedgerEntryDirection_CREDIT normalizedEntries in
  throw_if ((debits =? 0) || negb (debits =? credits)) "unbalanced_ledger_transaction"
    "sandbox accounting transaction must balance" ;;
  transaction ← createLedgerTransaction (MkPostTransaction idempotencyKey transactionType (tm_assetId (ln_terms o)) []
                  referenceType referenceId None metadata None) normalizedEntries debits credits now;
  entries ← map_m (createLedgerEntry (lt_ledgerTransactionId transaction) now) normalizedEntries;
  mret (MkPosting transaction entries).

Definition entry (account : string) (direction : LedgerEntryDirection) (amount : Z) : EntryInput :=
  MkEntryInput account direction (MString (toString amount)).
Definition entry_if_positive (account : string) (direction : LedgerEntryDirection) (amount : Z) : list EntryInput :=
  if 0 <? amount then [entry account direction amount] else [].

(** ** Execution *)

(** What the rail adapter reports: an object whose fields may be anything. *)
Record AdapterReceipt := MkAdapterReceipt {
  ad_obligationId : json; ad_assetId : json; ad_amountMinor : json; ad_sandboxOnly : json;
  ad_productionFundsMoved : json; ad_withdrawable : json; ad_adapterId : json; ad_adapterVersion : json;
  ad_adapterKeyId : json; ad_messageHash : json; ad_signature : json; ad_issuedAt : string;
  ad_providerId : option json; ad_providerCategory : option json; ad_purposeCode : option json }.

Record Receipt := MkReceipt {
  rc_sandboxExecutionReceiptId : string; rc_receiptHash : string; rc_obligationId : string; rc_subjectId : string;
  rc_assetId : string; rc_amountMinor : Z; rc_executedAt : Z; rc_withdrawable : bool }.

Definition is_string (j : json) (s : string) : bool := match j with JStr x => String.eqb x s | _ => false end.
Definition is_bool (j : json) (b : bool) : bool := match j with JBool x => Bool.eqb x b | _ => false end.
Definition non_empty (j : option json) : bool := match j with Some (JStr s) => negb (String.eqb s "") | _ => false end.

Definition createSandboxExecutionReceipt (o : Loan) (adapterReceipt : option AdapterReceipt) (now : Z) : result Receipt :=
  assertSharedObligation o ;;
  let t := ln_terms o in
  match adapterReceipt with
  | None => fail "sandbox_rail_unavailable" "sandbox rail receipt does not match the Obligation"
  | Some a =>
      guard (negb (is_string (ad_obligationId a) (tm_obligationId t)) || negb (is_string (ad_assetId a) (tm_assetId t)) ||
             negb (is_string (ad_amountMinor a) (toString (tm_originalPrincipalMinor t))) ||
             negb (is_bool (ad_sandboxOnly a) true) || negb (is_bool (ad_productionFundsMoved a) false) ||
             negb (is_bool (ad_withdrawable a) false))
        "sandbox_rail_unavailable" "sandbox rail receipt does not match the Obligation" ;;
      assertNonEmptyString "adapterId" (ad_adapterId a) ;;
      assertNonEmptyString "adapterVersion" (ad_adapterVersion a) ;;
      assertNonEmptyString "adapterKeyId" (ad_adapterKeyId a) ;;
      assertNonEmptyString "messageHash" (ad_messageHash a) ;;
      assertNonEmptyString "signature" (ad_signature a) ;;
      guard (match date_parse (ad_issuedAt a) with Some _ => false | None => true end)
        "sandbox_rail_unavailable" "sandbox rail receipt timestamp is invalid" ;;
      let has j := match j with Some _ => true | None => false end in
      let providerBound := has (ad_providerId a) || has (ad_providerCategory a) || has (ad_purposeCode a) in
      guard (providerBound && (negb (non_empty (ad_providerId a)) || negb (non_empty (ad_providerCategory a)) ||
                               negb (non_empty (ad_purposeCode a))))
        "sandbox_rail_unavailable" "sandbox Provider target binding is invalid" ;;
      let core := JObj ([("obligationId", JStr (tm_obligationId t)); ("subjectId", JStr (tm_subjectId t));
        ("assetId", JStr (tm_assetId t)); ("amountMinor", money (tm_originalPrincipalMinor t))] ++
        (if providerBound then opt_field "providerId" (ad_providerId a) ++ opt_field "providerCategory" (ad_providerCategory a) ++
                               opt_field "purposeCode" (ad_purposeCode a) else []) ++
        [("adapterId", ad_adapterId a); ("adapterVersion", ad_adapterVersion a); ("adapterKeyId", ad_adapterKeyId a);
         ("adapterMessageHash", ad_messageHash a); ("adapterSignature", ad_signature a);
         ("adapterIssuedAt", JStr (ad_issuedAt a)); ("executedAt", instant now); ("sandboxOnly", JBool true);
         ("productionFundsMoved", JBool false); ("withdrawable", JBool false)]) in
      assertNoRawPiiReference core ;;
      let receiptHash := hashId "sandbox_execution_receipt" core in
      Ok (MkReceipt ("sandbox_execution_receipt_" +:+ slice2 receiptHash) receiptHash (tm_obligationId t) (tm_subjectId t)
            (tm_assetId t) (tm_originalPrincipalMinor t) now false)
  end.

Record ExecutionResult := MkExecutionResult {
  er_obligation : Loan; er_receipt : Receipt; er_accounts : list LedgerAccount; er_ledgerTransaction : Posting }.

Definition executeSandboxObligation (o : Loan) (adapterReceipt : option AdapterReceipt) (now : Z) : M Sys ExecutionResult :=
  lift (assertSharedObligation o) ;;
  throw_if (match truthy (tm_poolObligationBindingId (ln_terms o)) with Some _ => true | None => false end)
    "obligation_execution_rail_conflict" "Pool-bound Obligation cannot execute through the sandbox rail" ;;
  throw_if (negb (bool_decide (ln_status o = ObligationStatus_CREATED)) ||
            negb (bool_decide (ex_executionStatus (ln_execution o) = ObligationExecutionStatus_PENDING)))
    "obligation_not_executable" "Obligation is not pending sandbox execution" ;;
  receipt ← lift (createSandboxExecutionReceipt o adapterReceipt now);
  accounts ← lift (createSandboxLedgerAccounts o (Some now));
  let id := tm_obligationId (ln_terms o) in
  ledgerTransaction ← createBalancedTransaction
    (hashId "sandbox_execution_ledger_idempotency" (JObj [("obligationId", JStr id); ("receiptHash", JStr (rc_receiptHash receipt))]))
    "sandbox_credit_execution" o "sandbox_execution_receipt" (rc_sandboxExecutionReceiptId receipt)
    (JObj [("obligationId", JStr id); ("receiptHash", JStr (rc_receiptHash receipt)); ("sandboxOnly", JBool true);
           ("productionFundsMoved", JBool false); ("withdrawable", JBool false)])
    [entry (account_id o LedgerAccountType_PRINCIPAL_RECEIVABLE) LedgerEntryDirection_DEBIT (tm_originalPrincipalMinor (ln_terms o));
     entry (account_id o LedgerAccountType_SANDBOX_FUNDING_SOURCE) LedgerEntryDirection_CREDIT (tm_originalPrincipalMinor (ln_terms o))]
    now;
  let executed := MkLoan (ln_terms o) (ln_balances o) (ln_schedule o)
    (MkExecution ObligationExecutionStatus_EXECUTED (Some (rc_sandboxExecutionReceiptId receipt)) (Some now) (Some now) (Some 0)
       (Some false)) (ln_servicing o) ObligationStatus_ACTIVE now in
  mret (MkExecutionResult executed receipt accounts ledgerTransaction).

(** ** Interest

    [Math.floor] of a quotient of two millisecond counts is the integer quotient:
    the counts are below 2^53 and the quotient below 10^8. *)

Definition add_interest (z : Z) (r : Installment) : Installment :=
  MkInstallment (in_installmentId r) (in_obligationId r) (in_installmentNumber r) (in_dueAt r)
    (in_scheduledPrincipalMinor r) (in_scheduledInterestMinor r + z) (in_scheduledFeeMinor r)
    (in_paidPrincipalMinor r) (in_paidInterestMinor r) (in_paidFeeMinor r)
    (in_status r) (in_scheduleVersion r) (in_scheduleSequence r).

(** The first row that is not paid, or the last one, gets the interest; [None] is
    an empty schedule, on which the assignment throws. *)
Fixpoint add_to_target (z : Z) (rows : list Installment) : option (list Installment) :=
  match rows with
  | [] => None
  | [r] => Some [add_interest z r]
  | r :: rows =>
      if negb (String.eqb (in_status r) "paid") then Some (add_interest z r :: rows)
      else cons r <$> add_to_target z rows
  end.

Record Accrual := MkAccrual {
  al_obligation : Loan; al_elapsedDays : Z; al_accruedInterestMinor : Z; al_numeratorRemainder : Z }.

Definition set_installments (rows : list Installment) (s : Schedule) : Schedule :=
  MkSchedule (sc_installmentCount s) (sc_firstPaymentAt s) (sc_maturityAt s) (sc_scheduleVersion s)
    (sc_scheduleSequence s) (sc_scheduleHash s) rows.

Definition accrueSimpleInterest (o : Loan) (now : Z) : result Accrual :=
  assertSharedObligation o ;;
  match bool_decide (ex_executionStatus (ln_execution o) = ObligationExecutionStatus_EXECUTED), ex_lastAccruedAt (ln_execution o) with
  | true, Some start =>
      guard (now <? start) "invalid_accrual_time" "interest accrual time cannot move backwards" ;;
      let elapsedDays := (now - start) / DAY_MS in
      let previousRemainder := default 0 (ex_interestAccrualRemainder (ln_execution o)) in
      guard ((previousRemainder <? 0) || (ACTUAL_365_DENOMINATOR <=? previousRemainder))
        "invalid_interest_remainder" "interest accrual remainder is invalid" ;;
      let numerator := previousRemainder + ln_principal o * tm_annualRateBps (ln_terms o) * elapsedDays in
      let accruedInterest := Z.quot numerator ACTUAL_365_DENOMINATOR in
      let remainder := Z.rem numerator ACTUAL_365_DENOMINATOR in
      installments ← (if 0 <? accruedInterest
                      then match add_to_target accruedInterest (ln_installments o) with
                           | Some rows => Ok rows
                           | None => Err TypeError
                           end
                      else Ok (ln_installments o));
      let b := ln_balances o in let e := ln_execution o in
      Ok (MkAccrual
        (MkLoan (ln_terms o)
           (MkBalances (bl_outstandingPrincipalMinor b) (bl_accruedInterestMinor b + accruedInterest)
              (bl_outstandingInterestMinor b + accruedInterest) (bl_accruedFeesMinor b) (bl_outstandingFeesMinor b)
              (bl_totalRepaidMinor b))
           (set_installments installments (ln_schedule o))
           (MkExecution (ex_executionStatus e) (ex_sandboxExecutionReceiptId e) (ex_executedAt e)
              (Some (start + elapsedDays * DAY_MS)) (Some remainder) (ex_withdrawable e))
           (ln_servicing o) (ln_status o) now)
        elapsedDays accruedInterest remainder)
  | _, _ => fail "obligation_not_repayable" "Obligation has not been executed"
  end.

(** ** Repayment *)

Definition scheduled (c : component) (r : Installment) : Z :=
  match c with
  | Fee => in_scheduledFeeMinor r | Interest => in_scheduledInterestMinor r | Principal => in_scheduledPrincipalMinor r
  end.
Definition paid (c : component) (r : Installment) : Z :=
  match c with Fee => in_paidFeeMinor r | Interest => in_paidInterestMinor r | Principal => in_paidPrincipalMinor r end.
Definition pay (c : component) (z : Z) (r : Installment) : Installment :=
  let on d := if bool_decide (c = d) then z else 0 in
  MkInstallment (in_installmentId r) (in_obligationId r) (in_installmentNumber r) (in_dueAt r)
    (in_scheduledPrincipalMinor r) (in_scheduledInterestMinor r) (in_scheduledFeeMinor r)
    (in_paidPrincipalMinor r + on Principal) (in_paidInterestMinor r + on Interest) (in_paidFeeMinor r + on Fee)
    (in_status r) (in_scheduleVersion r) (in_scheduleSequence r).

Fixpoint allocate_rows (rows : list Installment) (c : component) (remaining : Z) : list Installment * Z :=
  match rows with
  | [] => ([], remaining)
  | row :: rest =>
      if remaining =? 0 then (rows, remaining) else
      let available := scheduled c row - paid c row in
      let applied := min remaining available in
      let (rest, remaining) := allocate_rows rest c (remaining - applied) in
      (pay c applied row :: rest, remaining)
  end.

Definition allocateAcrossInstallments (rows : list Installment) (c : component) (amount : Z) : result (list Installment) :=
  let (rows, remaining) := allocate_rows rows c amount in
  guard (negb (remaining =? 0)) "schedule_allocation_mismatch" "repayment cannot reconcile to the installment schedule" ;;
  Ok rows.

Definition updateInstallmentStatus (r : Installment) : Installment :=
  let scheduled := in_scheduledPrincipalMinor r + in_scheduledInterestMinor r + in_scheduledFeeMinor r in
  let paid := in_paidPrincipalMinor r + in_paidInterestMinor r + in_paidFeeMinor r in
  MkInstallment (in_installmentId r) (in_obligationId r) (in_installmentNumber r) (in_dueAt r)
    (in_scheduledPrincipalMinor r) (in_scheduledInterestMinor r) (in_scheduledFeeMinor r)
    (in_paidPrincipalMinor r) (in_paidInterestMinor r) (in_paidFeeMinor r)
    (if paid =? 0 then "scheduled" else if paid =? scheduled then "paid" else "partial")
    (in_scheduleVersion r) (in_scheduleSequence r).
Definition updateInstallmentStatuses (rows : list Installment) : list Installment := map updateInstallmentStatus rows.

(** The repayment record; its hash covers the fields that are not kept. *)
Record LoanRepayment := MkLoanRepayment {
  lr_repaymentId : string; lr_repaymentHash : string; lr_requestedMinor : Z; lr_appliedMinor : Z;
  lr_appliedFeeMinor : Z; lr_appliedInterestMinor : Z; lr_appliedPrincipalMinor : Z; lr_surplusMinor : Z;
  lr_remainingPrincipalMinor : Z; lr_remainingInterestMinor : Z; lr_remainingFeesMinor : Z; lr_sourceCode : string;
  lr_accruedInterestMinor : Z; lr_accrualDays : Z; lr_occurredAt : Z;
  lr_ledgerTransactionId : string; lr_interestLedgerTransactionId : option string }.

Record RepaymentOutcome := MkRepaymentOutcome {
  ro_obligation : Loan; ro_repayment : LoanRepayment; ro_ledgerTransaction : Posting;
  ro_interestTransaction : option Posting; ro_servicingAction : option ServicingAction; ro_cured : bool }.

Definition repayableStatuses : list ObligationStatus :=
  [ObligationStatus_ACTIVE; ObligationStatus_PARTIALLY_REPAID; ObligationStatus_OVERDUE; ObligationStatus_DELINQUENT;
   ObligationStatus_DEFAULTED; ObligationStatus_RESTRUCTURED; ObligationStatus_REPURCHASED].

(** How the amount is divided: fees, then interest, then principal. *)
Record Split := MkSplit { sp_fee : Z; sp_interest : Z; sp_principal : Z; sp_surplus : Z }.

Definition split_repayment (current : Loan) (requested : Z) : Split :=
  let remaining := requested in
  let fee := min remaining (ln_fees current) in
  let remaining := remaining - fee in
  let interest := min remaining (ln_interest current) in
  let remaining := remaining - interest in
  let principal := min remaining (ln_principal current) in
  let remaining := remaining - principal in
  MkSplit fee interest principal remaining.

Definition sp_applied (s : Split) : Z := sp_fee s + sp_interest s + sp_principal s.

(** The schedule after the three allocations. *)
Definition allocate_repayment (s : Split) (rows : list Installment) : result (list Installment) :=
  rows ← allocateAcrossInstallments rows Fee (sp_fee s);
  rows ← allocateAcrossInstallments rows Interest (sp_interest s);
  rows ← allocateAcrossInstallments rows Principal (sp_principal s);
  Ok (updateInstallmentStatuses rows).

(** The obligation after the repayment, before servicing looks at it. *)
Definition repaid_loan (current : Loan) (s : Split) (rows : list Installment) (now : Z) : Loan :=
  let b := ln_balances current in
  let b' := MkBalances (bl_outstandingPrincipalMinor b - sp_principal s) (bl_accruedInterestMinor b)
              (bl_outstandingInterestMinor b - sp_interest s) (bl_accruedFeesMinor b) (bl_outstandingFeesMinor b - sp_fee s)
              (bl_totalRepaidMinor b + sp_applied s) in
  MkLoan (ln_terms current) b' (set_installments rows (ln_schedule current)) (ln_execution current) (ln_servicing current)
    (if bl_outstandingPrincipalMinor b' + bl_outstandingInterestMinor b' + bl_outstandingFeesMinor b' =? 0
     then ObligationStatus_FULLY_REPAID else ObligationStatus_PARTIALLY_REPAID) now.

Definition repayment_core (current : Loan) (s : Split) (requested : Z) (sourceCode actorId : string) (accrual : Accrual) (now : Z)
    : json :=
  JObj [("obligationId", JStr (tm_obligationId (ln_terms current))); ("subjectId", JStr (tm_subjectId (ln_terms current)));
        ("assetId", JStr (tm_assetId (ln_terms current))); ("requestedMinor", money requested);
        ("appliedMinor", money (sp_applied s)); ("appliedFeeMinor", money (sp_fee s));
        ("appliedInterestMinor", money (sp_interest s)); ("appliedPrincipalMinor", money (sp_principal s));
        ("surplusMinor", money (sp_surplus s)); ("remainingPrincipalMinor", money (ln_principal current - sp_principal s));
        ("remainingInterestMinor", money (ln_interest current - sp_interest s));
        ("remainingFeesMinor", money (ln_fees current - sp_fee s)); ("sourceCode", JStr sourceCode);
        ("actorHash", JStr (hashId "actor" (JStr actorId))); ("accruedInterestMinor", money (al_accruedInterestMinor accrual));
        ("accrualDays", JNum (al_elapsedDays accrual)); ("occurredAt", instant now); ("sandboxOnly", JBool true);
        ("productionFundsMoved", JBool false)].

Definition repayment_entries (current : Loan) (s : Split) : list EntryInput :=
  entry (account_id current LedgerAccountType_REPAYMENT_CLEARING) LedgerEntryDirection_DEBIT (sp_applied s) ::
  (entry_if_positive (account_id current LedgerAccountType_FEE_RECEIVABLE) LedgerEntryDirection_CREDIT (sp_fee s) ++
   entry_if_positive (account_id current LedgerAccountType_INTEREST_RECEIVABLE) LedgerEntryDirection_CREDIT (sp_interest s) ++
   entry_if_positive (account_id current LedgerAccountType_PRINCIPAL_RECEIVABLE) LedgerEntryDirection_CREDIT (sp_principal s))%list.

Definition interest_entries (current : Loan) (accrued : Z) : list EntryInput :=
  [entry (account_id current LedgerAccountType_INTEREST_RECEIVABLE) LedgerEntryDirection_DEBIT accrued;
   entry (account_id current LedgerAccountType_SYNTHETIC_INTEREST_INCOME) LedgerEntryDirection_CREDIT accrued].

(** The interest accrued since the last repayment, on the ledger. *)
Definition post_interest (current : Loan) (accrual : Accrual) (now : Z) : M Sys (option Posting) :=
  if al_accruedInterestMinor accrual =? 0 then mret None else
  posting ← createBalancedTransaction
    (hashId "sandbox_interest_ledger_idempotency" (JObj [("obligationId", JStr (tm_obligationId (ln_terms current)));
       ("lastAccruedAt", opt_instant (ex_lastAccruedAt (ln_execution current)));
       ("accruedInterestMinor", money (al_accruedInterestMinor accrual))]))
    "sandbox_interest_accrual" current "obligation" (tm_obligationId (ln_terms current))
    (JObj [("elapsedDays", JNum (al_elapsedDays accrual)); ("numeratorRemainder", money (al_numeratorRemainder accrual));
           ("sandboxOnly", JBool true)])
    (interest_entries current (al_accruedInterestMinor accrual)) now;
  mret (Some posting).

(** From the accrual on: the split, the schedule, the postings and the servicing
    state. *)
Definition apply_repayment (o : Loan) (requested : Z) (accrual : Accrual) (sourceCode actorId : string) (now : Z)
    : M Sys RepaymentOutcome :=
  let current := al_obligation accrual in
  let s := split_repayment current requested in
  throw_if (sp_applied s =? 0) "obligation_not_repayable" "Obligation has no repayable balance" ;;
  installments ← lift (allocate_repayment s (ln_installments current));
  let core := repayment_core current s requested sourceCode actorId accrual now in
  let repaymentHash := hashId "sandbox_repayment" core in
  let repaymentId := "repayment_" +:+ slice2 repaymentHash in
  lift (createSandboxLedgerAccounts current (ex_executedAt (ln_execution current))) ;;
  ledgerTransaction ← createBalancedTransaction
    (hashId "sandbox_repayment_ledger_idempotency" (JObj [("repaymentId", JStr repaymentId); ("repaymentHash", JStr repaymentHash)]))
    "sandbox_repayment" current "repayment" repaymentId
    (JObj [("repaymentHash", JStr repaymentHash); ("sourceCode", JStr sourceCode); ("appliedFeeMinor", money (sp_fee s));
           ("appliedInterestMinor", money (sp_interest s)); ("appliedPrincipalMinor", money (sp_principal s));
           ("surplusMinor", money (sp_surplus s)); ("sandboxOnly", JBool true); ("productionFundsMoved", JBool false)])
    (repayment_entries current s) now;
  interestTransaction ← post_interest current accrual now;
  let updated := repaid_loan current s installments now in
  servicing ← lift (applySandboxServicingAfterRepayment o updated actorId now);
  let repayment := MkLoanRepayment repaymentId repaymentHash requested (sp_applied s) (sp_fee s) (sp_interest s) (sp_principal s)
    (sp_surplus s) (ln_principal current - sp_principal s) (ln_interest current - sp_interest s) (ln_fees current - sp_fee s)
    sourceCode (al_accruedInterestMinor accrual) (al_elapsedDays accrual) now
    (lt_ledgerTransactionId (ps_transaction ledgerTransaction))
    ((fun p => lt_ledgerTransactionId (ps_transaction p)) <$> interestTransaction) in
  mret (MkRepaymentOutcome (aft_obligation servicing) repayment ledgerTransaction interestTransaction
          (aft_servicingAction servicing) (aft_cured servicing)).

Definition postSandboxRepayment (o : Loan) (amountMinor : minor) (sourceCode actorId : string) (now : Z) : M Sys RepaymentOutcome :=
  lift (assertSharedObligation o) ;;
  throw_if (match truthy (tm_poolExecutionReceiptId (ln_terms o)) with Some _ => true | None => false end)
    "obligation_execution_rail_conflict" "Pool-executed Obligation must be repaid through finalized Pool effects" ;;
  throw_if (negb (bool_decide (ex_executionStatus (ln_execution o) = ObligationExecutionStatus_EXECUTED)) ||
            negb (bool_decide (ln_status o ∈ repayableStatuses)))
    "obligation_not_repayable" "Obligation is not in a repayable state" ;;
  requested ← lift (assertPositiveMinorUnits amountMinor "amountMinor");
  lift (assertEnumValue "sourceCode" sourceCode (enumValues SandboxRepaymentSource)) ;;
  lift (assertNonEmptyString "actorId" (JStr actorId)) ;;
  accrual ← lift (accrueSimpleInterest o now);
  apply_repayment o requested accrual sourceCode actorId now.

(** ** Write-off *)

Definition createSandboxWriteOffTransaction (o : Loan) (servicingActionId : string) (now : Z) : M Sys Posting :=
  lift (assertSharedObligation o) ;;
  lift (assertNonEmptyString "servicingActionId" (JStr servicingActionId)) ;;
  lift (createSandboxLedgerAccounts o (ex_executedAt (ln_execution o))) ;;
  throw_if (ln_outstanding o =? 0) "servicing_resolution_unavailable" "Obligation has no balance to write off" ;;
  createBalancedTransaction
    (hashId "sandbox_write_off_ledger_idempotency" (JObj [("obligationId", JStr (tm_obligationId (ln_terms o)));
       ("servicingActionId", JStr servicingActionId)]))
    "sandbox_write_off" o "sandbox_servicing_action" servicingActionId
    (JObj [("obligationId", JStr (tm_obligationId (ln_terms o))); ("writtenOffPrincipalMinor", money (ln_principal o));
           ("writtenOffInterestMinor", money (ln_interest o)); ("writtenOffFeesMinor", money (ln_fees o));
           ("sandboxOnly", JBool true); ("productionFundsMoved", JBool false)])
    (entry (account_id o LedgerAccountType_WRITE_OFF_LOSS) LedgerEntryDirection_DEBIT (ln_outstanding o) ::
     (entry_if_positive (account_id o LedgerAccountType_PRINCIPAL_RECEIVABLE) LedgerEntryDirection_CREDIT (ln_principal o) ++
      entry_if_positive (account_id o LedgerAccountType_INTEREST_RECEIVABLE) LedgerEntryDirection_CREDIT (ln_interest o) ++
      entry_if_positive (account_id o LedgerAccountType_FEE_RECEIVABLE) LedgerEntryDirection_CREDIT (ln_fees o))%list) now.
End credit.
