(* ===== verification/LoanProps.v ===== *)
(** * The sandbox loans' theorems

    The obligation's invariant, interest, repayments and servicing. *)

From stdpp Require Import base tactics sets relations gmap numbers strings list.
From S2P Require Import Prelude Js Enums EventStore Service Ledger Mandate Loan Servicing SandboxCredit.
Local Open Scope string_scope.
Local Open Scope Z_scope.

(** ** The checks for personal data

    They look at the names of the fields, and none of these objects has a banned
    one. *)

Definition clean_key (k : string) : bool := negb (bool_decide (normalize_key k ∈ BANNED_PII_KEYS)).
Definition no_pii (j : json) : Prop := assertNoRawPiiReference j = Ok ().

Lemma no_pii_obj l : forallb clean_key (map fst l) = true -> Forall no_pii (map snd l) -> no_pii (JObj l).
Proof.
  unfold no_pii. cbn [assertNoRawPiiReference]. induction l as [|[k v] l IH]; [done|]. cbn [map fst snd forallb].
  intros [Hk Hl]%andb_true_iff [Hv Hvs]%Forall_cons. unfold clean_key in Hk. apply negb_true_iff in Hk. rewrite Hk.
  cbn [mbind result_bind]. rewrite Hv. cbn [mbind result_bind]. by apply IH.
Qed.

Lemma no_pii_arr l : Forall no_pii l -> no_pii (JArr l).
Proof. unfold no_pii. cbn [assertNoRawPiiReference]. induction 1 as [|v l Hv Hl IH]; [done|]. by rewrite Hv. Qed.

Lemma no_pii_opt_json o : no_pii (opt_json o).
Proof. by destruct o. Qed.
Lemma no_pii_opt_instant t : no_pii (opt_instant t).
Proof. by destruct t. Qed.

(** The values of an object whose fields are strings, numbers and the like. *)
Ltac leaves :=
  repeat (apply Forall_cons; split);
  first [by apply Forall_nil | reflexivity | apply no_pii_opt_json | apply no_pii_opt_instant | idtac];
  try (case_match; reflexivity).

Lemma no_pii_installments rows : no_pii (JArr (map installment_json rows)).
Proof.
  apply no_pii_arr, Forall_fmap, Forall_true. intros r. apply no_pii_obj; [vm_compute; reflexivity|]. cbn [map snd app row_core].
  leaves.
Qed.

Lemma no_pii_loan_core o : forallb clean_key (map fst (loan_core o)) = true /\ Forall no_pii (map snd (loan_core o)).
Proof.
  unfold loan_core. destruct (tm_authorityType (ln_terms o)); (split; [vm_compute; reflexivity|]); cbn [map snd authority_json];
    leaves; apply no_pii_installments.
Qed.

Lemma no_pii_loan o : no_pii (loan_json o).
Proof.
  destruct (no_pii_loan_core o) as [Hk Hv]. apply no_pii_obj.
  - rewrite !map_app, !forallb_app. rewrite Hk. vm_compute. reflexivity.
  - rewrite !map_app, !Forall_app. split; [cbn [map snd]; leaves|]. split; [done|]. cbn [map snd]. leaves.
Qed.

(** ** Rows *)

Definition unpaid (c : component) (r : Installment) : Z := scheduled c r - paid c r.
Definition unpaid_total (c : component) (rows : list Installment) : Z := sum_by (unpaid c) rows.

(** A row is paid at most what is scheduled of each component. *)
Definition row_ok (r : Installment) : Prop := forall c, 0 <= paid c r <= scheduled c r.

(** The instants of the language. *)
Definition valid_instant (t : Z) : Prop := - 8640000000000000 <= t <= 8640000000000000.

Lemma installmentOutstanding_unpaid r :
  installmentOutstandingMinor r = unpaid Principal r + unpaid Interest r + unpaid Fee r.
Proof. unfold installmentOutstandingMinor, unpaid, scheduled, paid. lia. Qed.

Lemma unpaid_total_nonneg c rows : Forall row_ok rows -> 0 <= unpaid_total c rows.
Proof.
  intros Hr. unfold unpaid_total. induction Hr as [|r rows Hok Hrows IH]; [by rewrite sum_by_nil|].
  rewrite sum_by_cons. pose proof (Hok c). unfold unpaid at 1. lia.
Qed.

(** ** The invariant *)

Definition outstanding_of (c : component) (o : Loan) : Z :=
  match c with Fee => ln_fees o | Interest => ln_interest o | Principal => ln_principal o end.

(** What was ever owed: the principal, the interest accrued and the fees. *)
Definition charged (o : Loan) : Z :=
  tm_originalPrincipalMinor (ln_terms o) + bl_accruedInterestMinor (ln_balances o) + bl_accruedFeesMinor (ln_balances o).

Record shared (o : Loan) : Prop := {
  sh_schema : tm_schemaVersion (ln_terms o) = "obligation.v2";
  sh_sandbox : tm_sandboxOnly (ln_terms o) = true;
  sh_funds : tm_productionFundsMoved (ln_terms o) = false }.

(** The lifecycle, the classification and the days past due agree. *)
Definition servicing_wf (v : Servicing) (sequence : Z) (st : ObligationStatus) : bool :=
  String.eqb (sv_servicingPolicyVersion v) SANDBOX_SERVICING_POLICY_VERSION &&
  isSafeInteger (sv_daysPastDue v) && (0 <=? sv_daysPastDue v) && isSafeInteger sequence && (1 <=? sequence) &&
  bool_decide (sv_servicingClassification v ∈ allowedPairs st) &&
  (negb (bool_decide (sv_servicingClassification v = ServicingClassification_CURRENT)) || (sv_daysPastDue v =? 0)) &&
  (negb (bool_decide (st = ObligationStatus_DEFAULTED)) || (SANDBOX_SERVICING_DEFAULT_DPD <=? sv_daysPastDue v)) &&
  (negb (bool_decide (sv_oldestUnpaidInstallmentId v = None)) || (sv_daysPastDue v =? 0)).

(** The amounts, the schedule and the execution. *)
Record LoanCore (o : Loan) : Prop := {
  li_shared : shared o;
  li_rows : Forall row_ok (ln_installments o);
  li_due : Forall (fun r => valid_instant (in_dueAt r)) (ln_installments o);
  li_nonempty : ln_installments o <> [];
  li_reconciled : forall c, unpaid_total c (ln_installments o) = outstanding_of c o;
  li_rate : 0 <= tm_annualRateBps (ln_terms o);
  li_repaid : 0 <= ln_repaid o;
  li_conserved : ln_outstanding o + ln_repaid o = charged o;
  li_remainder : 0 <= default 0 (ex_interestAccrualRemainder (ln_execution o)) < ACTUAL_365_DENOMINATOR;
  li_executed : ex_executionStatus (ln_execution o) = ObligationExecutionStatus_EXECUTED ->
    is_Some (ex_lastAccruedAt (ln_execution o)) /\ is_Some (ex_executedAt (ln_execution o));
  li_original : 0 <= tm_originalPrincipalMinor (ln_terms o);
  li_pending : ex_executionStatus (ln_execution o) = ObligationExecutionStatus_PENDING ->
    ln_principal o = tm_originalPrincipalMinor (ln_terms o) /\ ln_interest o = 0 /\ ln_fees o = 0 /\ ln_repaid o = 0 /\
    bl_accruedInterestMinor (ln_balances o) = 0 }.

(** With the lifecycle. *)
Record LoanInv (o : Loan) : Prop := {
  li_core :> LoanCore o;
  li_owing : ln_status o ∈ [ObligationStatus_DELINQUENT; ObligationStatus_DEFAULTED; ObligationStatus_RESTRUCTURED;
                             ObligationStatus_REPURCHASED; ObligationStatus_WRITTEN_OFF] -> 0 < ln_outstanding o;
  li_servicing : servicing_wf (ln_servicing o) (sc_scheduleSequence (ln_schedule o)) (ln_status o) = true }.

Lemma shared_terms o o' : ln_terms o' = ln_terms o -> shared o -> shared o'.
Proof. intros E []. split; by rewrite E. Qed.

Lemma outstanding_nonneg o c : LoanCore o -> 0 <= outstanding_of c o.
Proof. intros Hi. rewrite <- (li_reconciled _ Hi). apply unpaid_total_nonneg, (li_rows _ Hi). Qed.

Lemma assertSharedObligation_Ok o : shared o -> assertSharedObligation o = Ok ().
Proof.
  intros [Hs Hb Hf]. unfold assertSharedObligation. rewrite Hs, Hb, Hf, (no_pii_loan o).
  destruct (tm_authorityType (ln_terms o)); vm_compute; reflexivity.
Qed.

Lemma assertSharedObligation_inv o u : assertSharedObligation o = Ok u -> shared o.
Proof.
  unfold assertSharedObligation. intros E. result_inv.
  match goal with E : _ || _ = false |- _ => apply orb_false_iff in E as [[[Hs Hb]%orb_false_iff Hf]%orb_false_iff _] end.
  apply negb_false_iff in Hs, Hb. apply String.eqb_eq in Hs. by split.
Qed.

Lemma assertSharedServicing_Ok o b :
  shared o -> ln_installments o <> [] ->
  (b = true -> ex_executionStatus (ln_execution o) = ObligationExecutionStatus_EXECUTED) ->
  assertSharedServicingObligation o b = Ok ().
Proof.
  intros [Hs Hb Hf] Hne Hex. unfold assertSharedServicingObligation. rewrite Hs, Hb, Hf, (no_pii_loan o).
  destruct (ln_installments o); [done|]. destruct b; [|done]. by rewrite (bool_decide_eq_true_2 _ (Hex eq_refl)).
Qed.

Lemma enum_value_ok (c : ServicingClassification) (owner : SandboxServicingOwner) :
  assertEnumValue "servicingClassification" (value c) (enumValues ServicingClassification) = Ok () /\
  bool_decide (value owner ∈ enumValues SandboxServicingOwner) = true.
Proof. split; [destruct c|destruct owner]; vm_compute; reflexivity. Qed.

(** The check the servicing functions make of their results. *)
Lemma assertServicingState_iff o :
  shared o -> ln_installments o <> [] ->
  assertSandboxServicingState o =
    Ok true <-> servicing_wf (ln_servicing o) (sc_scheduleSequence (ln_schedule o)) (ln_status o) = true.
Proof.
  intros Hs Hne. unfold assertSandboxServicingState. rewrite (assertSharedServicing_Ok _ false Hs Hne) by done.
  destruct (enum_value_ok (sv_servicingClassification (ln_servicing o)) (sv_servicingOwnerCode (ln_servicing o))) as [He Hw].
  cbn [mbind result_bind]. rewrite He, Hw. cbn [mbind result_bind]. unfold servicing_wf, guard.
  destruct (ln_servicing o) as [c dpd old ef rc pv ow rt rr ra p i f]. cbn.
  rewrite (Z.ltb_antisym 0 dpd), (Z.ltb_antisym 1), (Z.ltb_antisym SANDBOX_SERVICING_DEFAULT_DPD).
  destruct (String.eqb pv _); [|done]. destruct (isSafeInteger dpd); [|done]. destruct (0 <=? dpd); [|done].
  destruct (isSafeInteger _); [|done]. destruct (1 <=? _); [|done]. destruct (bool_decide (c ∈ _)); [|done].
  destruct (bool_decide (c = _)), (bool_decide (ln_status o = _)), (bool_decide (old = None)), (dpd =? 0), (_ <=? dpd); done.
Qed.

(** ** Interest *)

Lemma quot_div a b : 0 <= a -> 0 < b -> Z.quot a b = a / b /\ Z.rem a b = a mod b.
Proof. intros. split; [apply Z.quot_div_nonneg|apply Z.rem_mod_nonneg]; lia. Qed.

Lemma add_interest_unpaid z r c : unpaid c (add_interest z r) = unpaid c r + if decide (c = Interest) then z else 0.
Proof. unfold unpaid. destruct c; case_decide; try done; cbn; lia. Qed.

Lemma add_interest_ok z r : 0 <= z -> row_ok r -> row_ok (add_interest z r).
Proof. intros Hz Hr c. pose proof (Hr c). destruct c; cbn in *; lia. Qed.

Lemma add_interest_add z1 z2 r : add_interest z2 (add_interest z1 r) = add_interest (z1 + z2) r.
Proof. unfold add_interest. cbn. f_equal. lia. Qed.

Lemma add_interest_0 r : add_interest 0 r = r.
Proof. destruct r. unfold add_interest. cbn. f_equal. lia. Qed.

Lemma add_to_target_cons z r r2 rows :
  add_to_target z (r :: r2 :: rows) =
  if negb (String.eqb (in_status r) "paid") then Some (add_interest z r :: r2 :: rows) else cons r <$> add_to_target z (r2 :: rows).
Proof. done. Qed.

Lemma add_to_target_Some z rows : rows <> [] -> exists r rest, add_to_target z rows = Some (r :: rest).
Proof.
  induction rows as [|r [|r2 rows] IH]; intros Hne; [done|by eexists _, _|]. rewrite add_to_target_cons.
  case_match; [by eexists _, _|]. destruct IH as (r3 & rest & ->); [done|]. by eexists _, _.
Qed.

Lemma add_to_target_add z1 z2 rows rows1 :
  add_to_target z1 rows = Some rows1 -> add_to_target z2 rows1 = add_to_target (z1 + z2) rows.
Proof.
  revert rows1. induction rows as [|r [|r2 rows] IH]; intros rows1; [done|..].
  - cbn. intros [= <-]. cbn [add_to_target]. by rewrite add_interest_add.
  - rewrite !add_to_target_cons. destruct (negb (String.eqb (in_status r) "paid")) eqn:E.
    + intros [= <-]. rewrite add_to_target_cons. cbn [add_interest in_status]. rewrite E. by rewrite <- add_interest_add.
    + destruct (add_to_target_Some z1 (r2 :: rows)) as (r3 & rest & Hr); [done|]. rewrite Hr in *. intros [= <-].
      rewrite add_to_target_cons, E. by rewrite (IH _ eq_refl).
Qed.

Lemma add_to_target_0 rows : rows <> [] -> add_to_target 0 rows = Some rows.
Proof.
  induction rows as [|r [|r2 rows] IH]; intros Hne; [done|cbn; by rewrite add_interest_0|].
  rewrite add_to_target_cons, add_interest_0, IH by done. by destruct (negb _).
Qed.

Lemma add_to_target_ok z rows rows' :
  0 <= z -> Forall row_ok rows -> add_to_target z rows = Some rows' ->
  Forall row_ok rows' /\ map in_dueAt rows' = map in_dueAt rows /\
  forall c, unpaid_total c rows' = unpaid_total c rows + if decide (c = Interest) then z else 0.
Proof.
  intros Hz Hr. revert rows'. induction Hr as [|r rows Hok Hrows IH]; intros rows' E; [done|].
  assert (Hhead : forall rest, Forall row_ok rest -> Forall row_ok (add_interest z r :: rest) /\
    map in_dueAt (add_interest z r :: rest) = map in_dueAt (r :: rest) /\
    forall c, unpaid_total c (add_interest z r :: rest) = unpaid_total c (r :: rest) + if decide (c = Interest) then z else 0).
  { intros rest Hrest. split_and!; [constructor; [by apply add_interest_ok|done]|done|]. intros c. unfold unpaid_total.
    rewrite !sum_by_cons, add_interest_unpaid. lia. }
  destruct rows as [|r2 rows]; [injection E as <-; by apply Hhead|]. rewrite add_to_target_cons in E.
  destruct (negb _); [injection E as <-; by apply Hhead|].
  destruct (add_to_target z (r2 :: rows)) as [rest|]; [|done]. injection E as <-.
  destruct (IH _ eq_refl) as (Hro & Hdu & Hun). split_and!; [by constructor|cbn [map]; by rewrite Hdu|].
  intros c. specialize (Hun c). unfold unpaid_total in *. rewrite (sum_by_cons _ r rest), (sum_by_cons _ r (r2 :: rows)), Hun. lia.
Qed.

(** An accrual, with its numbers: [d] whole days since [start]. *)
Record accrues (o : Loan) (now start d : Z) (a : Accrual) : Prop := {
  ca_shared : shared o;
  ca_status : ex_executionStatus (ln_execution o) = ObligationExecutionStatus_EXECUTED;
  ca_start : ex_lastAccruedAt (ln_execution o) = Some start;
  ca_now : start <= now;
  ca_days : d = (now - start) / DAY_MS;
  ca_remainder : 0 <= default 0 (ex_interestAccrualRemainder (ln_execution o)) < ACTUAL_365_DENOMINATOR;
  ca_elapsed : al_elapsedDays a = d;
  ca_interest : al_accruedInterestMinor a = Z.quot (default 0 (ex_interestAccrualRemainder (ln_execution o)) +
    ln_principal o * tm_annualRateBps (ln_terms o) * d) ACTUAL_365_DENOMINATOR;
  ca_left : al_numeratorRemainder a = Z.rem (default 0 (ex_interestAccrualRemainder (ln_execution o)) +
    ln_principal o * tm_annualRateBps (ln_terms o) * d) ACTUAL_365_DENOMINATOR;
  ca_rows : if 0 <? al_accruedInterestMinor a
            then add_to_target (al_accruedInterestMinor a) (ln_installments o) = Some (ln_installments (al_obligation a))
            else ln_installments (al_obligation a) = ln_installments o;
  ca_result : al_obligation a =
    MkLoan (ln_terms o)
      (MkBalances (bl_outstandingPrincipalMinor (ln_balances o)) (bl_accruedInterestMinor (ln_balances o) + al_accruedInterestMinor a)
         (bl_outstandingInterestMinor (ln_balances o) + al_accruedInterestMinor a) (bl_accruedFeesMinor (ln_balances o))
         (bl_outstandingFeesMinor (ln_balances o)) (bl_totalRepaidMinor (ln_balances o)))
      (set_installments (ln_installments (al_obligation a)) (ln_schedule o))
      (MkExecution (ex_executionStatus (ln_execution o)) (ex_sandboxExecutionReceiptId (ln_execution o))
         (ex_executedAt (ln_execution o)) (Some (start + d * DAY_MS)) (Some (al_numeratorRemainder a))
         (ex_withdrawable (ln_execution o)))
      (ln_servicing o) (ln_status o) now }.

Lemma accrue_inv o now a : accrueSimpleInterest o now = Ok a -> exists start d, accrues o now start d a.
Proof.
  unfold accrueSimpleInterest. intros E. result_inv.
  match goal with E : assertSharedObligation o = Ok _ |- _ => apply assertSharedObligation_inv in E as Hsh end.
  destruct (bool_decide _) eqn:Hex; [|done]. apply bool_decide_eq_true in Hex.
  destruct (ex_lastAccruedAt (ln_execution o)) as [start|] eqn:Hst; [|done]. result_inv.
  match goal with E : (now <? start) = false |- _ => apply Z.ltb_ge in E end.
  match goal with E : _ || _ = false |- _ => apply orb_false_iff in E as [Hlo%Z.ltb_ge Hhi%Z.leb_gt] end.
  exists start, ((now - start) / DAY_MS). split; cbn [al_obligation al_elapsedDays al_accruedInterestMinor al_numeratorRemainder];
    try done; try lia.
  match goal with E : (if ?b then _ else _) = Ok _ |- _ => revert E; destruct b; intros Hrow end; [|by result_inv].
  by destruct (add_to_target _ _); result_inv.
Qed.

(** An accrual of an executed loan cannot fail. *)
Lemma accrue_total o now start :
  shared o -> ex_executionStatus (ln_execution o) = ObligationExecutionStatus_EXECUTED ->
  ex_lastAccruedAt (ln_execution o) = Some start -> start <= now -> ln_installments o <> [] ->
  0 <= default 0 (ex_interestAccrualRemainder (ln_execution o)) < ACTUAL_365_DENOMINATOR ->
  exists a, accrueSimpleInterest o now = Ok a.
Proof.
  intros Hsh Hex Hst Hle Hne Hrem. unfold accrueSimpleInterest. rewrite (assertSharedObligation_Ok _ Hsh). cbn [mbind result_bind].
  rewrite (bool_decide_eq_true_2 _ Hex), Hst. rewrite (proj2 (Z.ltb_ge now start)) by done. cbn [guard mbind result_bind].
  rewrite (proj2 (Z.ltb_ge (default 0 _) 0)), (proj2 (Z.leb_gt ACTUAL_365_DENOMINATOR _)) by lia. cbn [orb guard mbind result_bind].
  set (z := Z.quot _ ACTUAL_365_DENOMINATOR). destruct (0 <? z); [|by eexists].
  destruct (add_to_target_Some z _ Hne) as (r & rest & ->). by eexists.
Qed.

Lemma days_compose start t2 d1 : (t2 - (start + d1 * DAY_MS)) / DAY_MS = (t2 - start) / DAY_MS - d1.
Proof.
  replace (t2 - (start + d1 * DAY_MS)) with ((t2 - start) + (- d1) * DAY_MS) by lia. rewrite Z.div_add by done. lia.
Qed.

(** The numerators of two accruals in a row. *)
Lemma interest_compose rem p d1 d2 :
  0 <= rem -> 0 <= p -> 0 <= d1 -> 0 <= d2 ->
  let n1 := rem + p * d1 in let n2 := Z.rem n1 ACTUAL_365_DENOMINATOR + p * d2 in let n := rem + p * (d1 + d2) in
  Z.quot n ACTUAL_365_DENOMINATOR = Z.quot n1 ACTUAL_365_DENOMINATOR + Z.quot n2 ACTUAL_365_DENOMINATOR /\
  Z.rem n ACTUAL_365_DENOMINATOR = Z.rem n2 ACTUAL_365_DENOMINATOR.
Proof.
  intros Hr Hp H1 H2 n1 n2 n. assert (0 <= n1) by nia.
  assert (Hq1 := proj1 (quot_div n1 ACTUAL_365_DENOMINATOR ltac:(done) ltac:(done))).
  assert (Hr1 := proj2 (quot_div n1 ACTUAL_365_DENOMINATOR ltac:(done) ltac:(done))).
  pose proof (Z.mod_pos_bound n1 ACTUAL_365_DENOMINATOR ltac:(done)).
  assert (0 <= n2) by (unfold n2; rewrite Hr1; nia). assert (0 <= n) by nia.
  assert (Hn : n = Z.quot n1 ACTUAL_365_DENOMINATOR * ACTUAL_365_DENOMINATOR + n2).
  { unfold n2, n. rewrite Hr1, Hq1. pose proof (Z.div_mod n1 ACTUAL_365_DENOMINATOR ltac:(done)). unfold n1 in *. lia. }
  destruct (quot_div n ACTUAL_365_DENOMINATOR) as [Hq Hrm]; [done|done|]. destruct (quot_div n2 ACTUAL_365_DENOMINATOR) as [Hq2 Hr2]; [done|done|].
  rewrite Hq, Hrm, Hq2, Hr2, Hn. rewrite Z.add_comm. split; [rewrite Z.div_add by done; lia|by rewrite Z_mod_plus_full].
Qed.

(** The rows after an accrual, also when nothing accrued. *)
Lemma accrues_rows o now start d a :
  accrues o now start d a -> 0 <= ln_principal o * tm_annualRateBps (ln_terms o) -> ln_installments o <> [] ->
  0 <= al_accruedInterestMinor a /\
  add_to_target (al_accruedInterestMinor a) (ln_installments o) = Some (ln_installments (al_obligation a)).
Proof.
  intros [] Hp Hne. assert (0 <= d) by (rewrite ca_days0; apply Z.div_pos; [lia|done]).
  assert (Hz : 0 <= al_accruedInterestMinor a).
  { rewrite ca_interest0. apply Z.quot_pos; [nia|done]. }
  split; [done|]. destruct (0 <? al_accruedInterestMinor a) eqn:E; [done|].
  replace (al_accruedInterestMinor a) with 0 by lia. rewrite ca_rows0. by apply add_to_target_0.
Qed.

(** Two accruals in a row, by their numbers. *)
Lemma accrues_compose o t1 t2 s1 d1 a1 s2 d2 a2 s d a :
  0 <= ln_principal o -> 0 <= tm_annualRateBps (ln_terms o) ->
  accrues o t1 s1 d1 a1 -> accrues (al_obligation a1) t2 s2 d2 a2 -> accrues o t2 s d a ->
  s = s1 /\ s2 = s1 + d1 * DAY_MS /\ d = d1 + d2 /\
  al_accruedInterestMinor a = al_accruedInterestMinor a1 + al_accruedInterestMinor a2 /\
  al_numeratorRemainder a = al_numeratorRemainder a2.
Proof.
  intros Hp Hr C1 C2 C. pose proof (ca_result _ _ _ _ _ C1) as R1.
  assert (Es : s = s1) by (apply (inj Some); by rewrite <- (ca_start _ _ _ _ _ C), <- (ca_start _ _ _ _ _ C1)).
  assert (Es2 : s2 = s1 + d1 * DAY_MS) by (apply (inj Some); rewrite <- (ca_start _ _ _ _ _ C2); by rewrite R1).
  assert (Ed : d = d1 + d2).
  { rewrite (ca_days _ _ _ _ _ C), (ca_days _ _ _ _ _ C2), Es, Es2, days_compose. lia. }
  assert (Hd1 : 0 <= d1) by (rewrite (ca_days _ _ _ _ _ C1); pose proof (ca_now _ _ _ _ _ C1); apply Z.div_pos; [lia|done]).
  assert (Hd2 : 0 <= d2) by (rewrite (ca_days _ _ _ _ _ C2); pose proof (ca_now _ _ _ _ _ C2); apply Z.div_pos; [lia|done]).
  destruct (interest_compose (default 0 (ex_interestAccrualRemainder (ln_execution o)))
    (ln_principal o * tm_annualRateBps (ln_terms o)) d1 d2) as [Hq Hm]; [apply C1|nia|done|done|].
  rewrite <- Ed, <- (ca_interest _ _ _ _ _ C), <- (ca_interest _ _ _ _ _ C1) in Hq. rewrite <- Ed, <- (ca_left _ _ _ _ _ C) in Hm.
  assert (E2 : al_numeratorRemainder a1 + ln_principal o * tm_annualRateBps (ln_terms o) * d2 =
    default 0 (ex_interestAccrualRemainder (ln_execution (al_obligation a1))) +
    ln_principal (al_obligation a1) * tm_annualRateBps (ln_terms (al_obligation a1)) * d2) by (by rewrite R1).
  rewrite <- (ca_left _ _ _ _ _ C1), E2 in Hq, Hm. rewrite <- (ca_interest _ _ _ _ _ C2) in Hq.
  rewrite <- (ca_left _ _ _ _ _ C2) in Hm. done.
Qed.

(** C27: accruing interest on one day and again on a later one gives the same
    obligation as accruing once on the later day: the remainder carried between
    accruals loses nothing, so the interest does not depend on how often, or
    when, it is computed. *)
Theorem accrual_path_independent o t1 t2 a1 a2 :
  0 <= ln_principal o -> 0 <= tm_annualRateBps (ln_terms o) -> ln_installments o <> [] ->
  accrueSimpleInterest o t1 = Ok a1 -> accrueSimpleInterest (al_obligation a1) t2 = Ok a2 -> t1 <= t2 ->
  exists a, accrueSimpleInterest o t2 = Ok a /\ al_obligation a = al_obligation a2 /\
    al_accruedInterestMinor a = al_accruedInterestMinor a1 + al_accruedInterestMinor a2 /\
    al_elapsedDays a = al_elapsedDays a1 + al_elapsedDays a2.
Proof.
  intros Hp Hrate Hne H1 H2 Hle. apply accrue_inv in H1 as (s1 & d1 & C1), H2 as (s2 & d2 & C2).
  destruct (accrue_total o t2 s1) as (a & Ha); [apply C1..| |done|apply C1|]; [pose proof (ca_now _ _ _ _ _ C1); lia|].
  exists a. split; [done|]. apply accrue_inv in Ha as (s & d & C).
  destruct (accrues_compose _ _ _ _ _ _ _ _ _ _ _ _ Hp Hrate C1 C2 C) as (Es & Es2 & Ed & Hz & Hrem).
  assert (0 <= ln_principal o * tm_annualRateBps (ln_terms o)) as Hpr by nia.
  destruct (accrues_rows _ _ _ _ _ C1 Hpr Hne) as [_ Hr1]. destruct (accrues_rows _ _ _ _ _ C Hpr Hne) as [_ Hr].
  pose proof (ca_result _ _ _ _ _ C1) as R1. pose proof (ca_result _ _ _ _ _ C2) as R2. pose proof (ca_result _ _ _ _ _ C) as R.
  destruct (accrues_rows _ _ _ _ _ C2) as [_ Hr2]; [by rewrite R1| |].
  { destruct (add_to_target_Some (al_accruedInterestMinor a1) _ Hne) as (? & ? & E). congruence. }
  rewrite (add_to_target_add _ _ _ _ Hr1), <- Hz, Hr in Hr2. injection Hr2 as Hrows.
  split_and!; [|done|by rewrite (ca_elapsed _ _ _ _ _ C), (ca_elapsed _ _ _ _ _ C1), (ca_elapsed _ _ _ _ _ C2)].
  rewrite R, R2, <- Hrows, <- Hrem. rewrite R1. unfold set_installments. cbn. rewrite Hz, Es, Ed. f_equal; [f_equal; lia|]. f_equal. f_equal. lia.
Qed.

Lemma Forall_map_eq {A B} (f : A -> B) (P : B -> Prop) l l' :
  map f l' = map f l -> Forall (fun x => P (f x)) l -> Forall (fun x => P (f x)) l'.
Proof. intros E H. apply List.Forall_map. rewrite E. by apply List.Forall_map. Qed.

(** Interest accrues on the balance and on the schedule alike. *)
Lemma accrues_keeps_core o now start d a : LoanCore o -> accrues o now start d a -> LoanCore (al_obligation a).
Proof.
  intros Hi C. pose proof (outstanding_nonneg _ Principal Hi) as Hp. cbn [outstanding_of] in Hp. pose proof (li_rate _ Hi).
  destruct (accrues_rows _ _ _ _ _ C) as [Hz Hr]; [nia|apply Hi|].
  destruct (add_to_target_ok _ _ _ Hz (li_rows _ Hi) Hr) as (Hok & Hdue & Hun).
  assert (Hrem : 0 <= al_numeratorRemainder a < ACTUAL_365_DENOMINATOR).
  { rewrite (ca_left _ _ _ _ _ C). apply Z.rem_bound_pos; [|done]. pose proof (ca_remainder _ _ _ _ _ C).
    assert (0 <= d) by (rewrite (ca_days _ _ _ _ _ C); pose proof (ca_now _ _ _ _ _ C); apply Z.div_pos; [lia|done]). nia. }
  pose proof (ca_result _ _ _ _ _ C) as R. destruct Hi as [Hsh _ Hdues Hne Hrec Hrate Hrp Hcons _ Hex Horig _]. split.
  - apply (shared_terms o); [by rewrite R|done].
  - done.
  - by eapply Forall_map_eq.
  - intros E. rewrite E in Hdue. by destruct (ln_installments o).
  - intros c. rewrite Hun, Hrec, R. destruct c; cbn [outstanding_of]; case_decide; try done; unfold ln_fees, ln_interest, ln_principal; cbn; lia.
  - by rewrite R.
  - by rewrite R.
  - rewrite R. unfold ln_outstanding, ln_principal, ln_interest, ln_fees, charged in *. cbn in *. unfold ln_repaid in *. cbn. lia.
  - rewrite R. cbn. done.
  - rewrite R. cbn. intros E. destruct (Hex E). done.
  - by rewrite R.
  - rewrite R. cbn. by rewrite (ca_status _ _ _ _ _ C).
Qed.

(** What the code relies on of [new Date(text)]: a date it accepts is an instant
    of the language. *)
Class DateLaws `{Platform} := { date_parse_range : forall s t, date_parse s = Some t -> valid_instant t }.

Lemma accrues_outstanding o now start d a : LoanCore o -> accrues o now start d a ->
  0 <= al_accruedInterestMinor a /\ ln_outstanding (al_obligation a) = ln_outstanding o + al_accruedInterestMinor a.
Proof.
  intros Hi C. pose proof (outstanding_nonneg _ Principal Hi) as Hp. cbn [outstanding_of] in Hp. pose proof (li_rate _ Hi).
  destruct (accrues_rows _ _ _ _ _ C) as [Hz _]; [nia|apply Hi|]. split; [done|]. rewrite (ca_result _ _ _ _ _ C).
  unfold ln_outstanding, ln_principal, ln_interest, ln_fees. cbn. lia.
Qed.

Lemma accrues_keeps o now start d a : LoanInv o -> accrues o now start d a -> LoanInv (al_obligation a).
Proof.
  intros Hi C. destruct (accrues_outstanding _ _ _ _ _ (li_core _ Hi) C) as [Hz Ho]. pose proof (ca_result _ _ _ _ _ C) as R.
  split; [by eapply accrues_keeps_core; [apply Hi|]|..].
  - rewrite Ho. replace (ln_status (al_obligation a)) with (ln_status o) by (by rewrite R).
    intros Hin. specialize (li_owing _ Hi Hin) as ?. lia.
  - rewrite R. apply (li_servicing _ Hi).
Qed.
