(* ===== verification/ServicingProps.v ===== *)
(** * Servicing of a sandbox loan: theorems

    The classification agrees with the days past due of the oldest unpaid
    installment, advancing is total and idempotent, and the resolutions keep the
    obligation's invariant. *)

From Stdlib Require Import Sorted.
From stdpp Require Import base tactics sets relations gmap numbers strings list.
From S2P Require Import Prelude Js Enums EventStore Service Ledger Mandate Loan Servicing SandboxCredit LoanProps.
Local Open Scope string_scope.
Local Open Scope Z_scope.

(** ** The oldest unpaid installment *)

Lemma row_order_opp a b : row_order b a = CompOpp (row_order a b).
Proof.
  unfold row_order. rewrite (Z.compare_antisym (in_dueAt a) (in_dueAt b)).
  destruct (Z.compare (in_dueAt a) (in_dueAt b)); cbn; try done. by rewrite Z.compare_antisym.
Qed.

(** One row is not after another. *)
Lemma row_order_le a b : row_order a b <> Gt <->
  in_dueAt a < in_dueAt b \/ (in_dueAt a = in_dueAt b /\ in_installmentNumber a <= in_installmentNumber b).
Proof.
  unfold row_order. destruct (Z.compare_spec (in_dueAt a) (in_dueAt b)); [|split; [lia|done]|split; [done|lia]].
  change (in_installmentNumber a <= in_installmentNumber b <-> in_dueAt a < in_dueAt b \/
    (in_dueAt a = in_dueAt b /\ in_installmentNumber a <= in_installmentNumber b)). lia.
Qed.

Lemma row_order_trans a b c : row_order a b <> Gt -> row_order b c <> Gt -> row_order a c <> Gt.
Proof. rewrite !row_order_le. lia. Qed.

Definition unpaid_rows (rows : list Installment) : list Installment :=
  List.filter (fun row => 0 <? installmentOutstandingMinor row) rows.

Lemma elem_unpaid_rows r rows : r ∈ unpaid_rows rows <-> r ∈ rows /\ 0 < installmentOutstandingMinor r.
Proof. unfold unpaid_rows. rewrite !list_elem_of_In, List.filter_In, Z.ltb_lt. done. Qed.

Lemma row_outstanding_nonneg r : row_ok r -> 0 <= installmentOutstandingMinor r.
Proof.
  intros Hr. rewrite installmentOutstanding_unpaid. pose proof (Hr Fee). pose proof (Hr Interest). pose proof (Hr Principal).
  unfold unpaid. lia.
Qed.

Lemma rows_outstanding rows :
  sum_by installmentOutstandingMinor rows =
  unpaid_total Principal rows + unpaid_total Interest rows + unpaid_total Fee rows.
Proof.
  unfold unpaid_total. induction rows as [|r rows IH]; [done|]. rewrite !sum_by_cons, IH, installmentOutstanding_unpaid. lia.
Qed.

Lemma rows_reconciled o : LoanCore o -> sum_by installmentOutstandingMinor (ln_installments o) = ln_outstanding o.
Proof.
  intros Hi. rewrite rows_outstanding, !(li_reconciled _ Hi). unfold ln_outstanding. cbn. lia.
Qed.

Lemma oldest_unpaid_None o : LoanCore o -> oldest_unpaid o = None -> ln_outstanding o = 0 /\ unpaid_rows (ln_installments o) = [].
Proof.
  intros Hi. unfold oldest_unpaid. fold (unpaid_rows (ln_installments o)). intros Hh.
  assert (Hnil : unpaid_rows (ln_installments o) = []).
  { apply Permutation_nil_r. rewrite <- (stable_sort_perm row_order). by destruct (stable_sort _ _). }
  split; [|done]. rewrite <- rows_reconciled by done. apply sum_by_zero. intros r Hr.
  pose proof (row_outstanding_nonneg r (proj1 (Forall_forall _ _) (li_rows _ Hi) r Hr)).
  destruct (decide (0 < installmentOutstandingMinor r)); [|lia].
  assert (Hin : r ∈ unpaid_rows (ln_installments o)) by (by apply elem_unpaid_rows). rewrite Hnil in Hin. set_solver.
Qed.

Lemma oldest_unpaid_Some o r :
  LoanCore o -> oldest_unpaid o = Some r ->
  r ∈ unpaid_rows (ln_installments o) /\ 0 < ln_outstanding o /\
  forall r', r' ∈ unpaid_rows (ln_installments o) -> in_dueAt r <= in_dueAt r'.
Proof.
  intros Hi. unfold oldest_unpaid. fold (unpaid_rows (ln_installments o)). intros Hh.
  pose proof (stable_sort_perm row_order (unpaid_rows (ln_installments o))) as Hp.
  pose proof (stable_sort_sorted row_order row_order_opp row_order_trans (unpaid_rows (ln_installments o))) as Hs.
  destruct (stable_sort row_order _) as [|x l]; [done|]. injection Hh as ->.
  assert (Hr : r ∈ unpaid_rows (ln_installments o)) by (rewrite <- Hp; left). split_and!; [done|..].
  - apply elem_unpaid_rows in Hr as [Hr Hpos]. rewrite <- rows_reconciled by done. eapply Z.lt_le_trans; [exact Hpos|].
    apply sum_by_elem; [|done]. intros y Hy. apply row_outstanding_nonneg. by apply (proj1 (Forall_forall _ _) (li_rows _ Hi)).
  - intros r' Hr'. rewrite <- Hp in Hr'. apply elem_of_cons in Hr' as [->|Hr']; [lia|].
    inversion Hs as [|? ? _ Hf]; subst. pose proof (proj1 (Forall_forall _ _) Hf _ Hr') as Hle. apply row_order_le in Hle. lia.
Qed.

(** ** The classification *)

(** The days the loan is past due: the most any unpaid installment is. *)
Definition past_due_days (rows : list Installment) (now : Z) : Z :=
  foldr (fun r n => Z.max ((now - in_dueAt r) / DAY_MS) n) 0 (unpaid_rows rows).

(** Some unpaid installment was due before now. *)
Definition overdue (rows : list Installment) (now : Z) : bool := existsb (fun r => in_dueAt r <? now) (unpaid_rows rows).

Lemma past_due_max l now r :
  r ∈ l -> in_dueAt r < now -> (forall r', r' ∈ l -> in_dueAt r <= in_dueAt r') ->
  foldr (fun r n => Z.max ((now - in_dueAt r) / DAY_MS) n) 0 l = (now - in_dueAt r) / DAY_MS.
Proof.
  intros Hr Hnow Hmin. assert (H0 : 0 <= (now - in_dueAt r) / DAY_MS) by (apply Z.div_pos; [lia|done]).
  assert (Hle : forall l', (forall x, x ∈ l' -> in_dueAt r <= in_dueAt x) ->
    foldr (fun r n => Z.max ((now - in_dueAt r) / DAY_MS) n) 0 l' <= (now - in_dueAt r) / DAY_MS).
  { induction l' as [|x l' IH]; intros Hx; cbn; [done|]. apply Z.max_lub; [|apply IH; intros; apply Hx; by right].
    apply Z.div_le_mono; [done|]. assert (in_dueAt r <= in_dueAt x) by (apply Hx; left). lia. }
  apply Z.le_antisymm; [by apply Hle|]. clear Hmin Hle. induction l as [|x l IH]; [set_solver|]. cbn.
  apply elem_of_cons in Hr as [->|Hr]; [lia|]. specialize (IH Hr). lia.
Qed.

Lemma past_due_none l now :
  (forall r, r ∈ l -> now <= in_dueAt r) ->
  foldr (fun r n => Z.max ((now - in_dueAt r) / DAY_MS) n) 0 l = 0.
Proof.
  induction l as [|x l IH]; intros Hx; cbn; [done|]. rewrite IH by (intros; apply Hx; by right).
  assert (now <= in_dueAt x) by (apply Hx; left). assert ((now - in_dueAt x) / DAY_MS <= 0); [|lia].
  change 0 with (0 / DAY_MS). apply Z.div_le_mono; [done|lia].
Qed.

(** What [deriveSandboxServicing] computes, without the sort. *)
Definition derived_of (o : Loan) (now : Z) : Derived :=
  let dpd := past_due_days (ln_installments o) now in
  let oldest := in_installmentId <$> oldest_unpaid o in
  if overdue (ln_installments o) now
  then MkDerived (if 90 <=? dpd then ObligationStatus_DEFAULTED else ObligationStatus_DELINQUENT) (classificationForDpd dpd) dpd
         oldest (default "" (reasonForClassification (classificationForDpd dpd)))
  else MkDerived (basePerformingStatus o)
         (if bool_decide (ln_status o ∈ [ObligationStatus_RESTRUCTURED; ObligationStatus_REPURCHASED])
          then sv_servicingClassification (ln_servicing o) else ServicingClassification_CURRENT) 0 oldest "servicing_current".

Lemma classification_default dpd : bool_decide (classificationForDpd dpd = ServicingClassification_DEFAULTED) = (90 <=? dpd).
Proof.
  unfold classificationForDpd, SANDBOX_SERVICING_GRACE_DAYS.
  destruct (Z.leb_spec dpd 3), (Z.leb_spec dpd 30), (Z.leb_spec dpd 60), (Z.leb_spec dpd 89), (Z.leb_spec 90 dpd); try lia; done.
Qed.

Lemma overdue_spec rows now : overdue rows now = true <-> exists r, r ∈ unpaid_rows rows /\ in_dueAt r < now.
Proof.
  unfold overdue. rewrite existsb_exists. split; intros (r & Hr & Hd); exists r.
  - split; [by apply list_elem_of_In|lia].
  - split; [by apply list_elem_of_In|lia].
Qed.

Lemma derive_eq o now :
  LoanCore o -> ex_executionStatus (ln_execution o) = ObligationExecutionStatus_EXECUTED ->
  deriveSandboxServicing o now = Ok (derived_of o now).
Proof.
  intros Hi Hex. unfold deriveSandboxServicing.
  rewrite (assertSharedServicing_Ok o true (li_shared _ Hi) (li_nonempty _ Hi)) by done. cbn [mbind result_bind].
  f_equal. unfold derived_of. destruct (oldest_unpaid o) as [r|] eqn:Ho.
  - destruct (oldest_unpaid_Some _ _ Hi Ho) as (Hr & _ & Hmin). destruct (Z.leb_spec now (in_dueAt r)) as [Hle|Hgt].
    + destruct (overdue _ _) eqn:Hov; [|done]. apply overdue_spec in Hov as (r' & Hr' & Hd). specialize (Hmin _ Hr'). lia.
    + rewrite (proj2 (overdue_spec _ _)) by (by exists r). unfold past_due_days. rewrite (past_due_max _ _ r) by done.
      by rewrite classification_default.
  - destruct (oldest_unpaid_None _ Hi Ho) as [_ Hnil]. destruct (overdue _ _) eqn:Hov; [|done].
    apply overdue_spec in Hov as (r' & Hr' & Hd). rewrite Hnil in Hr'. set_solver.
Qed.

(** ** The derived state is well formed *)

Lemma classification_pairs dpd : classificationForDpd dpd <> ServicingClassification_CURRENT /\
  classificationForDpd dpd ∈ allowedPairs (if 90 <=? dpd then ObligationStatus_DEFAULTED else ObligationStatus_DELINQUENT).
Proof.
  unfold classificationForDpd, SANDBOX_SERVICING_GRACE_DAYS.
  destruct (Z.leb_spec dpd 3), (Z.leb_spec dpd 30), (Z.leb_spec dpd 60), (Z.leb_spec dpd 89), (Z.leb_spec 90 dpd); try lia;
    (split; [done|cbn; set_solver]).
Qed.

Lemma past_due_bounds rows now :
  valid_instant now -> Forall (fun r => valid_instant (in_dueAt r)) rows ->
  0 <= past_due_days rows now /\ isSafeInteger (past_due_days rows now) = true.
Proof.
  intros Hn Hr. assert (Hb : 0 <= past_due_days rows now <= 200000000).
  { unfold past_due_days. assert (Hf : forall r, r ∈ unpaid_rows rows -> valid_instant (in_dueAt r)).
    { intros r [Hin _]%elem_unpaid_rows. by apply (proj1 (Forall_forall _ _) Hr). }
    induction (unpaid_rows rows) as [|r l IH]; cbn; [lia|].
    assert (Hv : valid_instant (in_dueAt r)) by (apply Hf; left). specialize (IH (fun x Hx => Hf x (list_elem_of_further _ _ _ Hx))).
    assert ((now - in_dueAt r) / DAY_MS <= 200000000); [|lia]. unfold valid_instant in *.
    apply Z.div_le_upper_bound; [done|]. unfold DAY_MS. lia. }
  unfold isSafeInteger. split; [lia|]. apply andb_true_iff. split; lia.
Qed.

(** What the status of a loan that is not overdue becomes. *)
Definition performing (o : Loan) : Prop :=
  (basePerformingStatus o ∈ [ObligationStatus_FULLY_REPAID; ObligationStatus_PARTIALLY_REPAID; ObligationStatus_ACTIVE] /\
   ln_status o ∉ [ObligationStatus_RESTRUCTURED; ObligationStatus_REPURCHASED]) \/
  (basePerformingStatus o = ln_status o /\ 0 < ln_outstanding o /\
   ((ln_status o = ObligationStatus_RESTRUCTURED /\ sv_servicingClassification (ln_servicing o) = ServicingClassification_RESTRUCTURED) \/
    (ln_status o = ObligationStatus_REPURCHASED /\ sv_servicingClassification (ln_servicing o) = ServicingClassification_REPURCHASED))).

Lemma basePerforming_plain o :
  ln_status o ∉ [ObligationStatus_RESTRUCTURED; ObligationStatus_REPURCHASED] -> performing o.
Proof.
  intros Hst. left. split; [|done]. unfold basePerformingStatus. rewrite (bool_decide_eq_false_2 _ Hst). cbn.
  destruct (ln_outstanding o =? 0), (0 <? ln_repaid o); set_solver.
Qed.

Lemma basePerforming_cases o : LoanInv o -> performing o.
Proof.
  intros Hi. destruct (decide (ln_status o ∈ [ObligationStatus_RESTRUCTURED; ObligationStatus_REPURCHASED])) as [Hst|Hst];
    [|by apply basePerforming_plain]. unfold performing, basePerformingStatus.
  rewrite (bool_decide_eq_true_2 _ Hst). pose proof (li_servicing _ Hi) as Hw. unfold servicing_wf in Hw.
  repeat (apply andb_true_iff in Hw as [Hw ?]).
  match goal with E : bool_decide (_ ∈ allowedPairs _) = true |- _ => apply bool_decide_eq_true in E; rename E into Hp end.
  assert (Hpos : 0 < ln_outstanding o) by (apply (li_owing _ Hi); set_solver).
  rewrite (proj2 (Z.eqb_neq _ 0)) by lia.
  rewrite !elem_of_cons, elem_of_nil in Hst. destruct Hst as [Hst|[Hst|[]]]; rewrite Hst in Hp |- *; cbn in Hp;
    apply list_elem_of_singleton in Hp; rewrite Hp; right; (split; [done|]); (split; [done|]); auto.
Qed.

(** The statuses under which something is owed. *)
Definition owing_statuses : list ObligationStatus :=
  [ObligationStatus_DELINQUENT; ObligationStatus_DEFAULTED; ObligationStatus_RESTRUCTURED; ObligationStatus_REPURCHASED;
   ObligationStatus_WRITTEN_OFF].

Lemma set_servicing_inv v st now o :
  LoanCore o -> servicing_wf v (sc_scheduleSequence (ln_schedule o)) st = true ->
  (st ∈ owing_statuses -> 0 < ln_outstanding o) -> LoanInv (set_servicing v st now o).
Proof. intros [] Hw Ho. split; [split; try done; by apply (shared_terms o)|done..]. Qed.

(** The servicing fields with a derived state in them. *)
Definition servicing_of (v : Servicing) (d : Derived) (now : Z) : Servicing :=
  MkServicing (dv_servicingClassification d) (dv_daysPastDue d) (dv_oldestUnpaidInstallmentId d) now (dv_servicingReasonCode d)
    SANDBOX_SERVICING_POLICY_VERSION (sv_servicingOwnerCode v) (sv_resolutionType v) (sv_resolutionReasonCode v) (sv_resolutionAt v)
    (sv_writtenOffPrincipalMinor v) (sv_writtenOffInterestMinor v) (sv_writtenOffFeesMinor v).

(** A derived state is consistent: what its check looks at. *)
Record derived_ok (o : Loan) (d : Derived) : Prop := {
  do_days : 0 <= dv_daysPastDue d /\ isSafeInteger (dv_daysPastDue d) = true;
  do_pair : dv_servicingClassification d ∈ allowedPairs (dv_status d);
  do_current : dv_servicingClassification d = ServicingClassification_CURRENT -> dv_daysPastDue d = 0;
  do_default : dv_status d = ObligationStatus_DEFAULTED -> 90 <= dv_daysPastDue d;
  do_oldest : dv_oldestUnpaidInstallmentId d = None -> dv_daysPastDue d = 0;
  do_owing : dv_status d ∈ owing_statuses -> 0 < ln_outstanding o }.

Lemma wf_sequence v seq st : servicing_wf v seq st = true -> isSafeInteger seq = true /\ 1 <= seq.
Proof.
  unfold servicing_wf. intros Hw. repeat (apply andb_true_iff in Hw as [Hw ?]). split; [done|lia].
Qed.

Lemma derived_ok_wf v o d now seq :
  derived_ok o d -> isSafeInteger seq = true -> 1 <= seq -> servicing_wf (servicing_of v d now) seq (dv_status d) = true.
Proof.
  intros [[Hd0 Hd1] Hp Hc Hdef Hold _] Hs1 Hs2. unfold servicing_wf, servicing_of. cbn.
  rewrite Hd1, Hs1, (proj2 (Z.leb_le 0 _)), (proj2 (Z.leb_le 1 _)), (bool_decide_eq_true_2 _ Hp) by lia. cbn.
  apply andb_true_iff. split; [apply andb_true_iff; split|]; case_bool_decide as E; cbn; try done;
    unfold SANDBOX_SERVICING_DEFAULT_DPD.
  - rewrite (Hc E). done.
  - specialize (Hdef E). lia.
  - rewrite (Hold E). done.
Qed.

Lemma derived_of_ok o now :
  LoanCore o -> performing o -> valid_instant now -> derived_ok o (derived_of o now).
Proof.
  intros Hi Hperf Hn. pose proof (past_due_bounds _ _ Hn (li_due _ Hi)) as [Hb0 Hb1]. unfold derived_of.
  destruct (overdue _ _) eqn:Hov.
  - apply overdue_spec in Hov as (r & Hr & _). destruct (oldest_unpaid o) as [r0|] eqn:Ho;
      [|destruct (oldest_unpaid_None _ Hi Ho) as [_ E]; rewrite E in Hr; set_solver].
    destruct (oldest_unpaid_Some _ _ Hi Ho) as (_ & Hpos & _). destruct (classification_pairs (past_due_days (ln_installments o) now)).
    split; cbn; try done. by destruct (Z.leb_spec 90 (past_due_days (ln_installments o) now)).
  - destruct Hperf as [[Hb Hst]|(Hb & Hpos & Hc)].
    + rewrite (bool_decide_eq_false_2 _ Hst). rewrite !elem_of_cons, elem_of_nil in Hb.
      destruct Hb as [->|[->|[->|[]]]]; split; cbn; try done; set_solver.
    + rewrite Hb. destruct Hc as [[-> ->]|[-> ->]]; split; cbn; try done; set_solver.
Qed.

Lemma derived_days o now : dv_daysPastDue (derived_of o now) = past_due_days (ln_installments o) now.
Proof.
  unfold derived_of. destruct (overdue _ _) eqn:Hov; [done|]. cbn. unfold past_due_days. rewrite past_due_none; [done|].
  intros r Hr. destruct (decide (in_dueAt r < now)); [|lia]. rewrite (proj2 (overdue_spec _ _)) in Hov; [done|by exists r].
Qed.

Lemma derived_status o now :
  LoanInv o ->
  (dv_status (derived_of o now) = ObligationStatus_DEFAULTED <-> 90 <= past_due_days (ln_installments o) now) /\
  (dv_status (derived_of o now) = ObligationStatus_DELINQUENT <->
     overdue (ln_installments o) now = true /\ past_due_days (ln_installments o) now < 90).
Proof.
  intros Hi. rewrite <- (derived_days o). unfold derived_of. destruct (overdue _ _); cbn.
  - destruct (Z.leb_spec 90 (past_due_days (ln_installments o) now)); split; split; try done; try lia.
  - destruct (basePerforming_cases o Hi) as [[Hb _]|(Hb & _ & Hc)].
    + rewrite !elem_of_cons, elem_of_nil in Hb. by destruct Hb as [->|[->|[->|[]]]]; split; split; try done; lia || intros [].
    + rewrite Hb. by destruct Hc as [[-> _]|[-> _]]; split; split; try done; lia || intros [].
Qed.

(** Nothing derives a written-off loan. *)
Lemma derived_unwritten o now : performing o -> dv_status (derived_of o now) <> ObligationStatus_WRITTEN_OFF.
Proof.
  intros Hp. unfold derived_of. destruct (overdue _ _); cbn; [by destruct (90 <=? _)|].
  destruct Hp as [[Hb _]|(Hb & _ & Hc)].
  - rewrite !elem_of_cons, elem_of_nil in Hb. by destruct Hb as [->|[->|[->|[]]]].
  - rewrite Hb. by destruct Hc as [[-> _]|[-> _]].
Qed.

(** ** Advancing *)

Section actions.
Context `{Platform}.

(** An action's object has no banned field. *)
Lemma no_pii_action_core fields prev ap ae :
  forallb clean_key (map fst fields) = true -> Forall no_pii (map snd fields) -> (forall j, prev = Some j -> no_pii j) ->
  forall tail, forallb clean_key (map fst tail) = true -> Forall no_pii (map snd tail) ->
  no_pii (JObj (fields ++ opt_field "previousSchedule" prev ++ opt_field "approvalProposalId" (JStr <$> ap) ++
                opt_field "approvalExecutionId" (JStr <$> ae) ++ tail)).
Proof.
  intros Hk Hv Hp tail Hkt Hvt. apply no_pii_obj.
  - rewrite !map_app, !forallb_app, Hk, Hkt. destruct prev, ap, ae; vm_compute; reflexivity.
  - rewrite !map_app, !Forall_app. split_and!; [done| |by destruct ap; repeat constructor|by destruct ae; repeat constructor|done].
    destruct prev; repeat constructor. by apply Hp.
Qed.

Lemma createServicingAction_Ok actionType previous next reason source actor ap ae prev now :
  (forall j, prev = Some j -> no_pii j) ->
  exists a, createServicingAction actionType previous next reason source actor ap ae prev now = Ok a /\
    sa_nextStatus a = ln_status next /\ sa_previousStatus a = ln_status previous /\
    sa_balancesBefore a = ln_balances previous /\ sa_balancesAfter a = ln_balances next.
Proof.
  intros Hp. unfold createServicingAction. rewrite no_pii_action_core; [by eexists|vm_compute; reflexivity| |done|vm_compute; reflexivity|].
  - cbn [map snd]. leaves.
  - cbn [map snd]. leaves.
Qed.

(** The action a function creates. *)
Ltac action_ok act H :=
  match goal with
  | |- context [createServicingAction ?t ?p ?n ?r ?s ?a ?ap ?ae ?ps ?at_] =>
      destruct (createServicingAction_Ok t p n r s a ap ae ps at_) as (act & H & _)
  end.

Lemma applyDerived_eq o d now :
  LoanCore o -> isSafeInteger (sc_scheduleSequence (ln_schedule o)) = true -> 1 <= sc_scheduleSequence (ln_schedule o) ->
  derived_ok o d -> applyDerivedServicing o d now = Ok (set_servicing (servicing_of (ln_servicing o) d now) (dv_status d) now o) /\
  LoanInv (set_servicing (servicing_of (ln_servicing o) d now) (dv_status d) now o).
Proof.
  intros Hi Hs1 Hs2 Hd. pose proof (derived_ok_wf (ln_servicing o) o d now _ Hd Hs1 Hs2) as Hw.
  assert (Hinv := set_servicing_inv _ _ now o Hi Hw (do_owing _ _ Hd)). split; [|done].
  unfold applyDerivedServicing. fold (servicing_of (ln_servicing o) d now).
  by rewrite (proj2 (assertServicingState_iff _ (li_shared _ Hinv) (li_nonempty _ Hinv)) Hw).
Qed.

(** Advancing changes the servicing fields, the status and the time only. *)
Lemma advance_eq o actorId now :
  LoanInv o -> ex_executionStatus (ln_execution o) = ObligationExecutionStatus_EXECUTED -> valid_instant now ->
  assertNonEmptyString "actorId" (JStr actorId) = Ok () ->
  exists o' act, advanceSandboxServicing o actorId now = Ok (o', act) /\ LoanInv o' /\
    ln_terms o' = ln_terms o /\ ln_balances o' = ln_balances o /\ ln_schedule o' = ln_schedule o /\
    ln_execution o' = ln_execution o /\ ln_status o' = dv_status (derived_of o now) /\
    sv_servicingClassification (ln_servicing o') = dv_servicingClassification (derived_of o now) /\
    sv_daysPastDue (ln_servicing o') = dv_daysPastDue (derived_of o now) /\
    sv_oldestUnpaidInstallmentId (ln_servicing o') = dv_oldestUnpaidInstallmentId (derived_of o now) /\
    sv_servicingReasonCode (ln_servicing o') = dv_servicingReasonCode (derived_of o now).
Proof.
  intros Hi Hex Hn Ha. unfold advanceSandboxServicing. rewrite Ha, (derive_eq _ _ Hi Hex). cbn [mbind result_bind].
  destruct (wf_sequence _ _ _ (li_servicing _ Hi)) as [Hs1 Hs2].
  destruct (applyDerived_eq o (derived_of o now) now Hi Hs1 Hs2 (derived_of_ok _ _ Hi (basePerforming_cases _ Hi) Hn)) as [He Hinv].
  destruct (negb _) eqn:Hch.
  - exists o, None. apply negb_true_iff in Hch.
    apply orb_false_iff in Hch as [[[[Hch1 Hch2]%orb_false_iff Hch3]%orb_false_iff Hch4]%orb_false_iff Hch5].
    apply negb_false_iff in Hch1, Hch2, Hch3, Hch4, Hch5. apply bool_decide_eq_true in Hch1, Hch2, Hch4.
    apply Z.eqb_eq in Hch3. apply String.eqb_eq in Hch5. by split_and!.
  - rewrite He. cbn [mbind result_bind].
    action_ok act Hact; [done|]. rewrite Hact. cbn [mbind result_bind]. eexists _, (Some act). by split_and!.
Qed.
Lemma performing_unresolved st :
  st ∈ [ObligationStatus_FULLY_REPAID; ObligationStatus_PARTIALLY_REPAID; ObligationStatus_ACTIVE] ->
  st ∉ [ObligationStatus_RESTRUCTURED; ObligationStatus_REPURCHASED].
Proof. rewrite !elem_of_cons, !elem_of_nil. naive_solver. Qed.

Lemma derived_stable o o' now :
  LoanInv o -> ln_balances o' = ln_balances o -> ln_schedule o' = ln_schedule o -> ln_status o' = dv_status (derived_of o now) ->
  sv_servicingClassification (ln_servicing o') = dv_servicingClassification (derived_of o now) ->
  derived_of o' now = derived_of o now.
Proof.
  intros Hi Hb Hsc Hst Hcl. revert Hst Hcl. unfold derived_of, oldest_unpaid, ln_installments. rewrite Hsc.
  destruct (overdue _ _); [done|]. cbn. intros Hst Hcl.
  unfold basePerformingStatus, ln_outstanding, ln_principal, ln_interest, ln_fees, ln_repaid in *. rewrite Hb.
  destruct (basePerforming_cases o Hi) as [[Hp Hs]|(Hp & Hpos & Hc)];
    unfold basePerformingStatus, ln_outstanding, ln_principal, ln_interest, ln_fees, ln_repaid in *.
  - rewrite !(bool_decide_eq_false_2 _ Hs) in *. cbn in *.
    assert (Hs' : ln_status o' ∉ [ObligationStatus_RESTRUCTURED; ObligationStatus_REPURCHASED]) by (rewrite Hst; by apply performing_unresolved).
    by rewrite !(bool_decide_eq_false_2 _ Hs').
  - rewrite Hp in Hst. rewrite Hst. destruct Hc as [[E1 E2]|[E1 E2]]; rewrite E1 in *; rewrite Hcl; cbn; by rewrite E2.
Qed.

(** C25: advancing an executed loan that is neither written off nor closed never
    fails; it changes no balance and no installment, sets the days past due to the largest any unpaid installment
    has, makes the loan defaulted exactly from 90 days on and delinquent exactly
    when an unpaid installment was due earlier and it is not 90 days yet, keeps the
    loan's invariant, and does nothing when repeated at the same time. *)
Theorem servicing_advances o actorId now :
  LoanInv o -> ex_executionStatus (ln_execution o) = ObligationExecutionStatus_EXECUTED ->
  ln_status o <> ObligationStatus_WRITTEN_OFF -> ln_status o <> ObligationStatus_CLOSED -> valid_instant now ->
  assertNonEmptyString "actorId" (JStr actorId) = Ok () ->
  exists o' act, advanceSandboxServicing o actorId now = Ok (o', act) /\ LoanInv o' /\
    ln_balances o' = ln_balances o /\ ln_installments o' = ln_installments o /\
    sv_daysPastDue (ln_servicing o') = past_due_days (ln_installments o) now /\
    (ln_status o' = ObligationStatus_DEFAULTED <-> 90 <= past_due_days (ln_installments o) now) /\
    (ln_status o' = ObligationStatus_DELINQUENT <->
       overdue (ln_installments o) now = true /\ past_due_days (ln_installments o) now < 90) /\
    advanceSandboxServicing o' actorId now = Ok (o', None).
Proof.
  intros Hi Hex _ _ Hn Ha. destruct (advance_eq o actorId now Hi Hex Hn Ha) as
    (o' & act & Hadv & Hi' & Ht & Hb & Hsc & He & Hst & Hcl & Hdpd & Hold & Hre).
  exists o', act. assert (Hrows : ln_installments o' = ln_installments o) by (unfold ln_installments; by rewrite Hsc).
  assert (Hstable := derived_stable o o' now Hi Hb Hsc Hst Hcl). split_and!; try done.
  - rewrite Hdpd. apply derived_days.
  - rewrite Hst. apply (derived_status o now Hi).
  - rewrite Hst. apply (derived_status o now Hi).
  - unfold advanceSandboxServicing. rewrite Ha, (derive_eq o' now Hi') by (by rewrite He). cbn [mbind result_bind].
    rewrite Hstable, Hst, Hcl, Hdpd, Hold, Hre. rewrite !bool_decide_eq_true_2, Z.eqb_refl, String.eqb_refl by done. done.
Qed.
(** ** Resolutions *)

(** The texts a resolution must come with. *)
Record resolution_ok (r : Resolution) : Prop := {
  rk_reason : assertNonEmptyString "reasonCode" (JStr (rs_reasonCode r)) = Ok ();
  rk_actor : assertNonEmptyString "actorId" (JStr (rs_actorId r)) = Ok ();
  rk_proposal : assertNonEmptyString "approvalProposalId" (JStr (rs_approvalProposalId r)) = Ok ();
  rk_execution : assertNonEmptyString "approvalExecutionId" (JStr (rs_approvalExecutionId r)) = Ok () }.

(** The servicing fields after a resolution. *)
Definition resolved_servicing (v : Servicing) (c : ServicingClassification) (rt : SandboxServicingResolution) (r : Resolution)
    (now : Z) : Servicing :=
  MkServicing c (sv_daysPastDue v) (sv_oldestUnpaidInstallmentId v) now (rs_reasonCode r) SANDBOX_SERVICING_POLICY_VERSION
    (sv_servicingOwnerCode v) (Some rt) (Some (rs_reasonCode r)) (Some now)
    (sv_writtenOffPrincipalMinor v) (sv_writtenOffInterestMinor v) (sv_writtenOffFeesMinor v).

Lemma resolve_eq o changed st c rt r prev now :
  shared changed -> ln_installments changed <> [] -> resolution_ok r -> (forall j, prev = Some j -> no_pii j) ->
  servicing_wf (resolved_servicing (ln_servicing changed) c rt r now) (sc_scheduleSequence (ln_schedule changed)) st = true ->
  exists act, resolve o changed st c rt r prev now =
    Ok (set_servicing (resolved_servicing (ln_servicing changed) c rt r now) st now changed, act) /\
    sa_balancesBefore act = ln_balances o /\ sa_balancesAfter act = ln_balances changed.
Proof.
  intros Hs Hne [R1 R2 R3 R4] Hp Hw. unfold resolve. rewrite R1, R2, R3, R4. cbn [mbind result_bind].
  fold (resolved_servicing (ln_servicing changed) c rt r now).
  rewrite (proj2 (assertServicingState_iff (set_servicing (resolved_servicing (ln_servicing changed) c rt r now) st now changed)
             (shared_terms changed (set_servicing _ _ _ _) eq_refl Hs) Hne)) by done. cbn [mbind result_bind].
  match goal with
  | |- context [createServicingAction ?t ?p ?n ?re ?s ?a ?ap ?ae ?ps ?at_] =>
      destruct (createServicingAction_Ok t p n re s a ap ae ps at_ Hp) as (act & Hact & _ & _ & Hb & Ha)
  end.
  rewrite Hact. by exists act.
Qed.

(** A loan's state fits a resolution's classification. *)
Lemma resolved_wf v seq st st' c rt r now :
  servicing_wf v seq st = true -> c ∈ allowedPairs st' -> c <> ServicingClassification_CURRENT -> st' <> ObligationStatus_DEFAULTED ->
  servicing_wf (resolved_servicing v c rt r now) seq st' = true.
Proof.
  unfold servicing_wf, resolved_servicing. cbn. intros Hw Hc Hcur Hd. rewrite !andb_true_iff in Hw; destruct_and! Hw.
  rewrite (bool_decide_eq_true_2 _ Hc), (bool_decide_eq_false_2 _ Hcur), (bool_decide_eq_false_2 _ Hd). cbn.
  rewrite !andb_true_iff. split_and!; done.
Qed.

Lemma eligible o l :
  LoanInv o -> ex_executionStatus (ln_execution o) = ObligationExecutionStatus_EXECUTED -> ln_status o ∈ l ->
  assertResolutionEligible o l = Ok ().
Proof.
  intros Hi Hex Hst. unfold assertResolutionEligible.
  rewrite (assertSharedServicing_Ok o true (li_shared _ Hi) (li_nonempty _ Hi)) by done. cbn [mbind result_bind].
  by rewrite (bool_decide_eq_true_2 _ Hst).
Qed.

Lemma no_pii_previous s : no_pii (previous_schedule s).
Proof. apply no_pii_obj; [vm_compute; reflexivity|]. cbn [map snd]. leaves; apply no_pii_installments. Qed.

(** The single installment of a restructured loan. *)
Lemma restructured_row o due seq :
  LoanCore o -> let row := new_installment (tm_obligationId (ln_terms o)) 1 due (ln_principal o) (ln_interest o) (ln_fees o) seq in
  row_ok row /\ forall c, unpaid c row = outstanding_of c o.
Proof.
  intros Hi row. pose proof (outstanding_nonneg _ Fee Hi). pose proof (outstanding_nonneg _ Interest Hi).
  pose proof (outstanding_nonneg _ Principal Hi). cbn in *. split; intros []; cbn; unfold unpaid; cbn; lia.
Qed.

(** The loan with the new schedule satisfies all of the invariant but the one on its status. *)
Lemma restructure_eq o days r now :
  LoanInv o -> ex_executionStatus (ln_execution o) = ObligationExecutionStatus_EXECUTED ->
  ln_status o ∈ [ObligationStatus_DELINQUENT; ObligationStatus_DEFAULTED] -> 1 <= days <= 90 -> resolution_ok r ->
  isSafeInteger (sc_scheduleSequence (ln_schedule o) + 1) = true -> valid_instant (now + days * DAY_MS) ->
  exists o' act row, restructureSandboxObligation o days r now = Ok (o', act) /\ LoanInv o' /\
    ln_terms o' = ln_terms o /\ ln_balances o' = ln_balances o /\ ln_execution o' = ln_execution o /\
    ln_status o' = ObligationStatus_RESTRUCTURED /\ sv_daysPastDue (ln_servicing o') = 0 /\
    ln_installments o' = [row] /\ in_dueAt row = now + days * DAY_MS /\ (forall c, unpaid c row = outstanding_of c o) /\
    sc_scheduleSequence (ln_schedule o') = sc_scheduleSequence (ln_schedule o) + 1 /\
    sa_balancesBefore act = ln_balances o /\ sa_balancesAfter act = ln_balances o.
Proof.
  intros Hi Hex Hst Hd Hr Hsafe Hv. assert (Hpos : 0 < ln_outstanding o) by (apply (li_owing _ Hi); set_solver). destruct (wf_sequence _ _ _ (li_servicing _ Hi)) as [_ Hseq].
  destruct (restructured_row o (now + days * DAY_MS) (sc_scheduleSequence (ln_schedule o) + 1) Hi) as [Hok Hun].
  unfold restructureSandboxObligation. rewrite (eligible _ _ Hi Hex Hst). cbn [mbind result_bind].
  rewrite (proj2 (guard_Ok _ _ _ ())); [cbn [mbind result_bind]|].
  2: { unfold isSafeInteger. apply orb_false_iff; split; [apply orb_false_iff; split|]; [apply negb_false_iff, andb_true_iff; split| |]; lia. }
  match goal with |- context [resolve o ?ch] => set (changed := ch) end.
  destruct (resolve_eq o changed ObligationStatus_RESTRUCTURED ServicingClassification_RESTRUCTURED
    SandboxServicingResolution_RESTRUCTURE r (Some (previous_schedule (ln_schedule o))) now) as (act & -> & Hb & Ha).
  { apply (shared_terms o); [done|apply Hi]. }
  { done. }
  { done. }
  { intros j [= <-]. apply no_pii_previous. }
  { unfold servicing_wf. cbn. rewrite Hsafe, (proj2 (Z.leb_le 1 _)) by lia. done. }
  eexists _, act, _. split; [done|]. split_and!; try done. destruct Hi as [[] _ _]. split; [split; try done|done|].
  - by apply (shared_terms o).
  - by constructor.
  - by constructor.
  - intros c. transitivity (outstanding_of c o); [rewrite <- (Hun c); apply Z.add_0_r|by destruct c].
  - unfold servicing_wf. cbn. rewrite Hsafe, (proj2 (Z.leb_le 1 _)) by lia. done.
Qed.

Lemma set_owner_inv owner o : LoanInv o -> LoanInv (set_owner owner o).
Proof. intros [[] ? ?]. split; [split; try done; by apply (shared_terms o)|done..]. Qed.
Lemma set_written_off_inv p i f o : LoanInv o -> LoanInv (set_written_off p i f o).
Proof. intros [[] ? ?]. split; [split; try done; by apply (shared_terms o)|done..]. Qed.

Lemma repurchase_eq o owner r now :
  LoanInv o -> ex_executionStatus (ln_execution o) = ObligationExecutionStatus_EXECUTED ->
  ln_status o ∈ [ObligationStatus_DELINQUENT; ObligationStatus_DEFAULTED; ObligationStatus_RESTRUCTURED] ->
  owner <> sv_servicingOwnerCode (ln_servicing o) -> resolution_ok r ->
  exists o' act, repurchaseSandboxObligation o owner r now = Ok (o', act) /\ LoanInv o' /\
    ln_terms o' = ln_terms o /\ ln_balances o' = ln_balances o /\ ln_execution o' = ln_execution o /\
    ln_schedule o' = ln_schedule o /\ ln_status o' = ObligationStatus_REPURCHASED /\
    sv_servicingOwnerCode (ln_servicing o') = owner.
Proof.
  intros Hi Hex Hst Hown Hr. unfold repurchaseSandboxObligation. rewrite (eligible _ _ Hi Hex Hst). cbn [mbind result_bind].
  assert (assertEnumValue "servicingOwnerCode" (value owner) (enumValues SandboxServicingOwner) = Ok ()) as ->
    by (destruct owner; vm_compute; reflexivity). cbn [mbind result_bind].
  rewrite (bool_decide_eq_false_2 _ Hown). cbn [guard mbind result_bind].
  pose proof (set_owner_inv owner o Hi) as Hi'.
  assert (Hw := resolved_wf (ln_servicing (set_owner owner o)) _ _ ObligationStatus_REPURCHASED ServicingClassification_REPURCHASED
    SandboxServicingResolution_REPURCHASE r now (li_servicing _ Hi') ltac:(set_solver) ltac:(done) ltac:(done)).
  destruct (resolve_eq o (set_owner owner o) ObligationStatus_REPURCHASED ServicingClassification_REPURCHASED
    SandboxServicingResolution_REPURCHASE r None now (li_shared _ Hi') (li_nonempty _ Hi') Hr ltac:(done) Hw) as (act & -> & _).
  eexists _, act. split; [done|]. split_and!; try done. apply set_servicing_inv; [apply Hi'|done|].
  intros _. apply (li_owing _ Hi). set_solver.
Qed.

Lemma writeOff_eq o r now :
  LoanInv o -> ex_executionStatus (ln_execution o) = ObligationExecutionStatus_EXECUTED ->
  ln_status o ∈ [ObligationStatus_DEFAULTED; ObligationStatus_RESTRUCTURED; ObligationStatus_REPURCHASED] -> resolution_ok r ->
  exists o' act, writeOffSandboxObligation o r now = Ok (o', act) /\ LoanInv o' /\
    ln_terms o' = ln_terms o /\ ln_balances o' = ln_balances o /\ ln_execution o' = ln_execution o /\
    ln_schedule o' = ln_schedule o /\ ln_status o' = ObligationStatus_WRITTEN_OFF /\
    sv_writtenOffPrincipalMinor (ln_servicing o') = ln_principal o /\ sv_writtenOffInterestMinor (ln_servicing o') = ln_interest o /\
    sv_writtenOffFeesMinor (ln_servicing o') = ln_fees o.
Proof.
  intros Hi Hex Hst Hr. unfold writeOffSandboxObligation. rewrite (eligible _ _ Hi Hex Hst). cbn [mbind result_bind].
  assert (Hpos : 0 < ln_outstanding o) by (apply (li_owing _ Hi); set_solver).
  rewrite (proj2 (Z.eqb_neq _ 0)) by lia. cbn [guard mbind result_bind].
  pose proof (set_written_off_inv (ln_principal o) (ln_interest o) (ln_fees o) o Hi) as Hi'.
  set (changed := set_written_off _ _ _ o) in *.
  assert (Hw := resolved_wf (ln_servicing changed) _ _ ObligationStatus_WRITTEN_OFF ServicingClassification_WRITTEN_OFF
    SandboxServicingResolution_WRITE_OFF r now (li_servicing _ Hi') ltac:(set_solver) ltac:(done) ltac:(done)).
  destruct (resolve_eq o changed ObligationStatus_WRITTEN_OFF ServicingClassification_WRITTEN_OFF
    SandboxServicingResolution_WRITE_OFF r None now (li_shared _ Hi') (li_nonempty _ Hi') Hr ltac:(done) Hw) as (act & -> & _).
  eexists _, act. split; [done|]. split_and!; try done. by apply set_servicing_inv; [apply Hi'|..].
Qed.

(** ** After a repayment *)

(** The state a repayment leads to: cured when the loan was behind and no
    installment is a whole day late any more. *)
Definition cured_of (previous repaid : Loan) (now : Z) : bool :=
  adverse previous && (past_due_days (ln_installments repaid) now =? 0).

Definition after_of (previous repaid : Loan) (now : Z) : Derived :=
  if cured_of previous repaid now
  then MkDerived (basePerformingStatus repaid) ServicingClassification_CURED 0 (in_installmentId <$> oldest_unpaid repaid)
         "servicing_cured_by_repayment"
  else derived_of repaid now.

Lemma after_of_ok previous repaid now :
  LoanCore repaid -> ln_status repaid ∉ [ObligationStatus_RESTRUCTURED; ObligationStatus_REPURCHASED] -> valid_instant now ->
  derived_ok repaid (after_of previous repaid now).
Proof.
  intros Hi Hst Hn. unfold after_of. destruct (cured_of _ _ _); [|by apply derived_of_ok; [|apply basePerforming_plain|]].
  destruct (basePerforming_plain _ Hst) as [[Hb _]|(Hb & _ & Hc)];
    [|by destruct Hc as [[E _]|[E _]]; rewrite E in Hst; destruct Hst; set_solver].
  rewrite !elem_of_cons, elem_of_nil in Hb. destruct Hb as [->|[->|[->|[]]]]; split; cbn; try done; set_solver.
Qed.

Lemma after_unwritten previous repaid now :
  ln_status repaid ∉ [ObligationStatus_RESTRUCTURED; ObligationStatus_REPURCHASED] ->
  dv_status (after_of previous repaid now) <> ObligationStatus_WRITTEN_OFF.
Proof.
  intros Hst. unfold after_of. destruct (cured_of _ _ _); [|by apply derived_unwritten, basePerforming_plain]. cbn.
  unfold basePerformingStatus. rewrite (bool_decide_eq_false_2 _ Hst). cbn. by destruct (ln_outstanding repaid =? 0), (0 <? ln_repaid repaid).
Qed.

Lemma after_repayment_eq previous repaid actorId now :
  LoanCore repaid -> ex_executionStatus (ln_execution repaid) = ObligationExecutionStatus_EXECUTED ->
  ln_status repaid ∉ [ObligationStatus_RESTRUCTURED; ObligationStatus_REPURCHASED] -> valid_instant now ->
  isSafeInteger (sc_scheduleSequence (ln_schedule repaid)) = true -> 1 <= sc_scheduleSequence (ln_schedule repaid) ->
  assertNonEmptyString "actorId" (JStr actorId) = Ok () ->
  let next := set_servicing (servicing_of (ln_servicing repaid) (after_of previous repaid now) now)
                (dv_status (after_of previous repaid now)) now repaid in
  LoanInv next /\ exists act, applySandboxServicingAfterRepayment previous repaid actorId now =
    Ok (MkAfterRepayment next act (cured_of previous repaid now)).
Proof.
  intros Hi Hex Hst Hn Hs1 Hs2 Ha next.
  destruct (applyDerived_eq repaid (after_of previous repaid now) now Hi Hs1 Hs2 (after_of_ok _ _ _ Hi Hst Hn)) as [He Hinv].
  split; [done|]. unfold applySandboxServicingAfterRepayment. rewrite Ha, (derive_eq _ _ Hi Hex). cbn [mbind result_bind].
  rewrite derived_days. fold (cured_of previous repaid now).
  assert (Hd : (if cured_of previous repaid now
    then MkDerived (basePerformingStatus repaid) ServicingClassification_CURED (past_due_days (ln_installments repaid) now)
           (dv_oldestUnpaidInstallmentId (derived_of repaid now)) "servicing_cured_by_repayment"
    else derived_of repaid now) = after_of previous repaid now).
  { unfold after_of. destruct (cured_of _ _ _) eqn:Hc; [|done]. unfold cured_of in Hc. apply andb_true_iff in Hc as [_ ->%Z.eqb_eq].
    f_equal. unfold derived_of. by destruct (overdue _ _). }
  rewrite Hd, He. cbn [mbind result_bind]. fold next. destruct (_ && _) eqn:Hsame.
  - apply andb_true_iff in Hsame as [[[[Hc _]%andb_true_iff _]%andb_true_iff _]%andb_true_iff _]. apply negb_true_iff in Hc.
    rewrite Hc. by eexists.
  - action_ok act Hact; [done|]. rewrite Hact. by eexists.
Qed.
End actions.
