(* ===== verification/LoanLedger.v ===== *)
(** * The ledger transactions of a sandbox loan

    What [createBalancedTransaction] accepts and what it posts, as lines: an
    account, a direction and an amount. *)

From stdpp Require Import base tactics sets relations gmap numbers strings list.
From S2P Require Import Prelude Js Enums EventStore Service Ledger LedgerProps Mandate Loan Servicing SandboxCredit.
Local Open Scope string_scope.
Local Open Scope Z_scope.

(** ** Lines *)

Record Line := MkLine { line_account : string; line_direction : LedgerEntryDirection; line_amount : Z }.

Definition line_input (l : Line) : EntryInput := entry (line_account l) (line_direction l) (line_amount l).

(** Debits count up, credits down. *)
Definition line_signed (l : Line) : Z :=
  match line_direction l with LedgerEntryDirection_DEBIT => line_amount l | LedgerEntryDirection_CREDIT => - line_amount l end.

Definition net (account : string) (lines : list Line) : Z :=
  sum_by (fun l => if decide (line_account l = account) then line_signed l else 0) lines.

Definition line_debits (lines : list Line) : Z :=
  sum_by (fun l => if decide (line_direction l = LedgerEntryDirection_DEBIT) then line_amount l else 0) lines.

(** The lines a posting holds. *)
Definition posting_lines (p : Posting) : list Line :=
  map (fun e => MkLine (le_ledgerAccountId e) (le_direction e) (le_amountMinor e)) (ps_entries p).

(** The debits are the credits and are what the transaction says they are. *)
Record posting_balanced (p : Posting) : Prop := {
  pb_balance : sum_by line_signed (posting_lines p) = 0;
  pb_debits : lt_debitTotalMinor (ps_transaction p) = line_debits (posting_lines p);
  pb_credits : lt_creditTotalMinor (ps_transaction p) = line_debits (posting_lines p);
  pb_positive : Forall (fun l => 0 < line_amount l) (posting_lines p) }.

Definition amount_ok (z : Z) : Prop := 0 < z < 10 ^ 78.

Lemma positive_minor_amount z name :
  amount_ok z -> assertPositiveMinorUnits (MString (toString z)) name = Ok z.
Proof.
  intros [Hz Hb]. unfold assertPositiveMinorUnits. rewrite toMinorUnitBigInt_toString; [|lia|apply fits_iff; lia].
  cbn [mbind result_bind]. by rewrite (proj2 (guard_Ok _ _ _ ())) by lia.
Qed.

(** What was accepted is the amount that was printed. *)
Lemma positive_minor_inv z v name :
  0 <= z -> assertPositiveMinorUnits (MString (toString z)) name = Ok v -> v = z /\ amount_ok z.
Proof.
  intros Hz E. pose proof (assertPositiveMinorUnits_pos _ _ _ E) as Hp. unfold assertPositiveMinorUnits in E. result_inv.
  match goal with E : toMinorUnitBigInt _ _ = Ok _ |- _ =>
    pose proof (toMinorUnitBigInt_width _ _ _ E) as Hw; apply toMinorUnitBigInt_string in E as [Hs _] end.
  assert (Hv : v = z) by (rewrite <- (BigInt_toString v), <- (BigInt_toString z), Hs by lia; done). subst v.
  rewrite Z.abs_eq in Hw by lia. split; [done|]. split; [done|]. by apply fits_iff.
Qed.

(** ** Posting *)

Definition normal_line (n : NormalEntry) : Line := MkLine (ne_ledgerAccountId n) (ne_direction n) (ne_amountMinor n).

Lemma sandbox_normalize_spec lines seq :
  Forall (fun l => 0 <= line_amount l) lines ->
  (forall ns, sandbox_normalize seq (map line_input lines) = Ok ns ->
     map normal_line ns = lines /\ Forall (fun l => 0 < line_amount l) lines) /\
  (Forall (fun l => amount_ok (line_amount l)) lines -> exists ns, sandbox_normalize seq (map line_input lines) = Ok ns).
Proof.
  intros Hl. revert seq. induction Hl as [|[a d z] lines Hz Hl IH]; intros seq; cbn [map line_input sandbox_normalize].
  - split; [intros ns [= <-]; by split; [|constructor]|by eexists].
  - specialize (IH (seq + 1)) as [IH1 IH2]. cbn [entry ei_amountMinor ei_ledgerAccountId ei_direction line_amount line_account line_direction] in *.
    split.
    + intros ns E. result_inv. destruct (IH1 _ E1) as [Hm Hp].
      apply positive_minor_inv in E0 as [-> [Hpos _]]; [|done]. cbn [map normal_line ne_ledgerAccountId ne_direction ne_amountMinor].
      split; [by rewrite <- Hm|by constructor].
    + intros [Hz' Hls]%Forall_cons. rewrite (positive_minor_amount _ _ Hz'). cbn [mbind result_bind].
      destruct (IH2 Hls) as (ns & ->). by eexists.
Qed.

Lemma normal_totals ns :
  total_of LedgerEntryDirection_DEBIT ns = line_debits (map normal_line ns) /\
  total_of LedgerEntryDirection_DEBIT ns - total_of LedgerEntryDirection_CREDIT ns = sum_by line_signed (map normal_line ns).
Proof.
  rewrite !total_of_sum. unfold line_debits. induction ns as [|n ns [IH1 IH2]]; [done|]. cbn [map]. rewrite !sum_by_cons, <- IH1, <- IH2.
  split; [done|]. unfold line_signed. cbn [normal_line line_direction line_amount]. destruct (ne_direction n); repeat case_decide; try done; lia.
Qed.

Section posting.
Context `{Platform}.

Lemma wp_createLedgerEntries id now ns s :
  wp (map_m (createLedgerEntry id now) ns)
    (fun es _ => map (fun e => MkLine (le_ledgerAccountId e) (le_direction e) (le_amountMinor e)) es = map normal_line ns)
    (fun _ _ => False) s.
Proof.
  revert s. induction ns as [|n ns IH]; intros s; cbn [map_m]; [done|]. apply wp_bind. unfold createLedgerEntry.
  apply wp_bind, wp_createOperationalId. intros. apply wp_ret, wp_bind.
  eapply wp_mono; [apply IH| |done]. intros es s' Hes. cbv beta in *. apply wp_ret. cbn [map]. by rewrite Hes.
Qed.

(** A transaction of non-negative lines: refused unless it balances and every
    amount can be kept, and then it posts exactly the lines. *)
Lemma wp_createBalancedTransaction key ty o rt ri md lines now s :
  Forall (fun l => 0 <= line_amount l) lines ->
  wp (createBalancedTransaction key ty o rt ri md (map line_input lines) now)
    (fun p _ => posting_lines p = lines /\ posting_balanced p)
    (fun _ _ => ~ (Forall (fun l => amount_ok (line_amount l)) lines /\ sum_by line_signed lines = 0 /\ 0 < line_debits lines)) s.
Proof.
  intros Hl. destruct (sandbox_normalize_spec lines 0 Hl) as [Hn1 Hn2]. unfold createBalancedTransaction. apply wp_bind, wp_lift.
  { intros e He [Hok _]. destruct (Hn2 Hok) as (ns & Hns). congruence. }
  intros ns Hns. destruct (Hn1 _ Hns) as [Hm Hp]. destruct (normal_totals ns) as [Hd Hs]. rewrite Hm in Hd, Hs.
  apply wp_bind, wp_throw_if; [intros Hc (_ & Hb & Hpos); lia|]. intros Hc. unfold createLedgerTransaction.
  apply wp_bind, wp_bind, wp_createOperationalId. intros. apply wp_ret, wp_bind.
  eapply wp_mono; [apply wp_createLedgerEntries| |done]. intros es s' Hes. cbv beta in *. apply wp_ret.
  assert (Hlines : forall t, posting_lines (MkPosting t es) = lines) by (intros; unfold posting_lines; cbn; by rewrite Hes).
  split; [apply Hlines|]. split; rewrite ?Hlines; cbn; [lia|lia|lia|done].
Qed.
End posting.
