(* ===== verification/RepaymentProps.v ===== *)
(** * Repayments of a sandbox loan

    The waterfall over fees, interest and principal, its allocation to the
    installments, and the servicing state that follows from it. *)

From stdpp Require Import base tactics sets relations gmap numbers strings list.
From S2P Require Import Prelude Js Enums EventStore Service Ledger Mandate Loan Servicing SandboxCredit LoanProps ServicingProps LoanLedger.
Local Open Scope string_scope.
Local Open Scope Z_scope.

(** ** Allocation *)

Lemma min_spec a b : min a b = Z.min a b.
Proof. unfold min. destruct (Z.ltb_spec a b); lia. Qed.

Lemma pay_unpaid c z r d : unpaid d (pay c z r) = unpaid d r - if decide (d = c) then z else 0.
Proof. unfold unpaid. destruct c, d; case_decide; try done; cbn; repeat (case_bool_decide; try done); lia. Qed.

Lemma pay_ok c z r : 0 <= z <= unpaid c r -> row_ok r -> row_ok (pay c z r).
Proof. intros Hz Hr d. pose proof (Hr d). unfold unpaid in Hz. destruct c, d; cbn in *; repeat (case_bool_decide; try done); lia. Qed.

(** What allocating [n] of component [c] does to the rows. *)
Record allocated (c : component) (n : Z) (rows rows' : list Installment) : Prop := {
  at_ok : Forall row_ok rows';
  at_due : map in_dueAt rows' = map in_dueAt rows;
  at_unpaid : forall d, unpaid_total d rows' = unpaid_total d rows - if decide (d = c) then n else 0;
  at_others : Forall2 (fun r r' => forall d, d <> c -> unpaid d r' = unpaid d r) rows rows';
  at_earliest : forall i j r r', (i < j)%nat -> rows' !! i = Some r' -> rows !! j = Some r ->
    rows' !! j <> Some r -> unpaid c r' = 0 }.

Lemma allocated_0 c rows : Forall row_ok rows -> allocated c 0 rows rows.
Proof.
  intros Hr. split; [done|done|intros d; case_decide; lia|by apply Forall_Forall2_diag, Forall_true|by intros].
Qed.

Lemma allocate_rows_0 c rows : allocate_rows rows c 0 = (rows, 0).
Proof. by destruct rows. Qed.

Lemma allocate_rows_spec c rows n :
  Forall row_ok rows -> 0 <= n <= unpaid_total c rows ->
  exists rows', allocate_rows rows c n = (rows', 0) /\ allocated c n rows rows'.
Proof.
  intros Hr. revert n. induction Hr as [|r rows Hok Hrows IH]; intros n Hn.
  - assert (n = 0) as -> by (unfold unpaid_total in Hn; rewrite sum_by_nil in Hn; lia).
    eexists. split; [done|by apply allocated_0].
  - cbn [allocate_rows]. destruct (Z.eqb_spec n 0) as [->|Hne].
    { eexists. split; [done|]. apply allocated_0. by constructor. }
    rewrite min_spec. fold (unpaid c r). change (0 <= n <= unpaid c r + unpaid_total c rows) in Hn.
    pose proof (unpaid_total_nonneg c _ Hrows). assert (Hu : 0 <= unpaid c r) by (pose proof (Hok c); unfold unpaid; lia).
    destruct (IH (n - Z.min n (unpaid c r))) as (rows' & Hal & [Hro Hdu Hun Hot Hea]); [lia|].
    rewrite Hal. eexists. split; [done|]. split.
    + constructor; [apply pay_ok; [lia|done]|done].
    + cbn [map]. by rewrite Hdu.
    + intros d. unfold unpaid_total. rewrite !sum_by_cons, pay_unpaid. fold (unpaid_total d rows') (unpaid_total d rows).
      rewrite Hun. case_decide; lia.
    + constructor; [|done]. intros d Hd. rewrite pay_unpaid. case_decide; [done|lia].
    + intros [|i] [|j] q q' Hij Hq' Hq Hdiff; [lia| |lia|by eapply (Hea i j); [lia|..]].
      injection Hq' as <-. rewrite pay_unpaid. case_decide; [|done].
      destruct (decide (unpaid c r <= n)) as [Hle|Hgt]; [lia|]. exfalso. cbn in Hq, Hdiff.
      replace (n - Z.min n (unpaid c r)) with 0 in Hal by lia. rewrite allocate_rows_0 in Hal. injection Hal as <-. done.
Qed.

Lemma allocateAcrossInstallments_Ok c rows n :
  Forall row_ok rows -> 0 <= n <= unpaid_total c rows ->
  exists rows', allocateAcrossInstallments rows c n = Ok rows' /\ allocated c n rows rows'.
Proof.
  intros Hr Hn. destruct (allocate_rows_spec c rows n Hr Hn) as (rows' & E & Ha). exists rows'. split; [|done].
  unfold allocateAcrossInstallments. by rewrite E.
Qed.

Lemma update_unpaid r d : unpaid d (updateInstallmentStatus r) = unpaid d r.
Proof. by destruct d. Qed.

Lemma update_statuses rows :
  Forall row_ok rows -> Forall row_ok (updateInstallmentStatuses rows) /\
  map in_dueAt (updateInstallmentStatuses rows) = map in_dueAt rows /\
  forall d, unpaid_total d (updateInstallmentStatuses rows) = unpaid_total d rows.
Proof.
  intros Hr. unfold updateInstallmentStatuses. split_and!.
  - apply List.Forall_map. eapply Forall_impl; [done|]. intros r Hok d. specialize (Hok d). by destruct d.
  - rewrite map_map. by apply map_ext.
  - intros d. unfold unpaid_total. clear Hr. induction rows as [|r rows IH]; [done|]. cbn [map].
    by rewrite !sum_by_cons, IH, update_unpaid.
Qed.

(** The share of a split that goes to a component. *)
Definition share (s : Split) (c : component) : Z :=
  match c with Fee => sp_fee s | Interest => sp_interest s | Principal => sp_principal s end.

(** The three allocations succeed on a schedule that holds the shares. *)
Lemma allocate_repayment_Ok s rows :
  Forall row_ok rows -> (forall c, 0 <= share s c <= unpaid_total c rows) ->
  exists rows', allocate_repayment s rows = Ok rows' /\ Forall row_ok rows' /\ map in_dueAt rows' = map in_dueAt rows /\
    forall c, unpaid_total c rows' = unpaid_total c rows - share s c.
Proof.
  intros Hr Hs. pose proof (Hs Fee) as HF. pose proof (Hs Interest) as HI. pose proof (Hs Principal) as HP. cbn [share] in *.
  destruct (allocateAcrossInstallments_Ok Fee rows (sp_fee s)) as (r1 & E1 & [O1 D1 U1 _ _]); [done..|].
  destruct (allocateAcrossInstallments_Ok Interest r1 (sp_interest s)) as (r2 & E2 & [O2 D2 U2 _ _]);
    [done|rewrite U1; case_decide; [done|lia]|].
  destruct (allocateAcrossInstallments_Ok Principal r2 (sp_principal s)) as (r3 & E3 & [O3 D3 U3 _ _]);
    [done|rewrite U2, U1; do 2 (case_decide; [done|]); lia|].
  destruct (update_statuses r3 O3) as (O4 & D4 & U4). exists (updateInstallmentStatuses r3). split_and!.
  - unfold allocate_repayment. rewrite E1. cbn [mbind result_bind]. rewrite E2. cbn [mbind result_bind]. by rewrite E3.
  - done.
  - congruence.
  - intros c. rewrite U4, U3, U2, U1. destruct c; repeat (case_decide; try done); cbn [share]; lia.
Qed.

(** ** The waterfall *)

Lemma split_spec o requested :
  LoanCore o -> 0 < requested ->
  let s := split_repayment o requested in
  (forall c, 0 <= share s c <= outstanding_of c o) /\ 0 <= sp_surplus s /\ sp_applied s + sp_surplus s = requested /\
  sp_applied s = Z.min requested (ln_outstanding o) /\
  (0 < sp_interest s -> sp_fee s = ln_fees o) /\
  (0 < sp_principal s -> sp_fee s = ln_fees o /\ sp_interest s = ln_interest o).
Proof.
  intros Hi Hq s. pose proof (outstanding_nonneg _ Fee Hi). pose proof (outstanding_nonneg _ Interest Hi).
  pose proof (outstanding_nonneg _ Principal Hi). cbn [outstanding_of] in *.
  unfold sp_applied, s, split_repayment, ln_outstanding. cbn [sp_fee sp_interest sp_principal sp_surplus]. rewrite !min_spec.
  split_and!; [intros []; cbn [share outstanding_of sp_fee sp_interest sp_principal]; lia|lia..].
Qed.


(** ** The lines of a repayment *)

Section repayment.
Context `{Platform}.

Definition positive_line (account : string) (direction : LedgerEntryDirection) (amount : Z) : list Line :=
  if 0 <? amount then [MkLine account direction amount] else [].

Definition repayment_lines (o : Loan) (s : Split) : list Line :=
  MkLine (account_id o LedgerAccountType_REPAYMENT_CLEARING) LedgerEntryDirection_DEBIT (sp_applied s) ::
  (positive_line (account_id o LedgerAccountType_FEE_RECEIVABLE) LedgerEntryDirection_CREDIT (sp_fee s) ++
   positive_line (account_id o LedgerAccountType_INTEREST_RECEIVABLE) LedgerEntryDirection_CREDIT (sp_interest s) ++
   positive_line (account_id o LedgerAccountType_PRINCIPAL_RECEIVABLE) LedgerEntryDirection_CREDIT (sp_principal s))%list.

Definition interest_lines (o : Loan) (z : Z) : list Line :=
  [MkLine (account_id o LedgerAccountType_INTEREST_RECEIVABLE) LedgerEntryDirection_DEBIT z;
   MkLine (account_id o LedgerAccountType_SYNTHETIC_INTEREST_INCOME) LedgerEntryDirection_CREDIT z].

Lemma positive_line_input a d z : entry_if_positive a d z = map line_input (positive_line a d z).
Proof. unfold entry_if_positive, positive_line. by destruct (0 <? z). Qed.

Lemma repayment_entries_lines o s : repayment_entries o s = map line_input (repayment_lines o s).
Proof. unfold repayment_entries, repayment_lines. cbn [map]. by rewrite !map_app, !positive_line_input. Qed.

Lemma positive_line_sum (f : Line -> Z) a d z : f (MkLine a d 0) = 0 -> 0 <= z ->
  sum_by f (positive_line a d z) = f (MkLine a d z).
Proof.
  intros H0 Hz. unfold positive_line. destruct (Z.ltb_spec 0 z); [rewrite sum_by_cons, sum_by_nil; lia|].
  assert (z = 0) as -> by lia. by rewrite sum_by_nil, H0.
Qed.

Lemma positive_line_Forall (P : Z -> Prop) a d z : (0 < z -> P z) -> Forall (fun l => P (line_amount l)) (positive_line a d z).
Proof. intros HP. unfold positive_line. destruct (Z.ltb_spec 0 z); repeat constructor. by apply HP. Qed.

Lemma repayment_lines_sum (f : Line -> Z) o s :
  (forall a d, f (MkLine a d 0) = 0) -> (forall c, 0 <= share s c) ->
  sum_by f (repayment_lines o s) =
    f (MkLine (account_id o LedgerAccountType_REPAYMENT_CLEARING) LedgerEntryDirection_DEBIT (sp_applied s)) +
    f (MkLine (account_id o LedgerAccountType_FEE_RECEIVABLE) LedgerEntryDirection_CREDIT (sp_fee s)) +
    f (MkLine (account_id o LedgerAccountType_INTEREST_RECEIVABLE) LedgerEntryDirection_CREDIT (sp_interest s)) +
    f (MkLine (account_id o LedgerAccountType_PRINCIPAL_RECEIVABLE) LedgerEntryDirection_CREDIT (sp_principal s)).
Proof.
  intros H0 Hs. unfold repayment_lines. rewrite sum_by_cons, !sum_by_app, !positive_line_sum; [lia|done| |done| |done|];
    [apply (Hs Principal)|apply (Hs Interest)|apply (Hs Fee)].
Qed.

(** ** The repaid obligation *)

Lemma repaid_core current s rows now :
  LoanCore current -> ex_executionStatus (ln_execution current) = ObligationExecutionStatus_EXECUTED ->
  (forall c, 0 <= share s c) -> Forall row_ok rows -> map in_dueAt rows = map in_dueAt (ln_installments current) ->
  (forall c, unpaid_total c rows = unpaid_total c (ln_installments current) - share s c) ->
  LoanCore (repaid_loan current s rows now).
Proof.
  intros [Hsh Hrows Hdue Hne Hrec Hrate Hrp Hcons Hrem Hex Horig _] Hst Hs Hok Hd Hu. split; try done.
  - by apply (shared_terms current).
  - by eapply Forall_map_eq.
  - intros E. change (rows = []) in E. rewrite E in Hd. by destruct (ln_installments current).
  - intros c. change (ln_installments _) with rows. rewrite Hu, Hrec. by destruct c.
  - cbn. unfold ln_repaid, repaid_loan, sp_applied in *. cbn. pose proof (Hs Fee). pose proof (Hs Interest). pose proof (Hs Principal).
    cbn [share] in *. lia.
  - revert Hcons. unfold ln_outstanding, ln_principal, ln_interest, ln_fees, ln_repaid, charged, repaid_loan, sp_applied. cbn. lia.
  - cbn. by rewrite Hst.
Qed.

(** What a repayment that went through has done; [a] is the accrual before it. *)
Record repays (o : Loan) (requested now : Z) (a : Accrual) (r : RepaymentOutcome) : Prop := {
  ry_accrual : accrueSimpleInterest o now = Ok a;
  ry_inv : LoanInv (ro_obligation r);
  ry_terms : ln_terms (ro_obligation r) = ln_terms o;
  ry_execution : ln_execution (ro_obligation r) = ln_execution (al_obligation a);
  ry_applied : 0 < lr_appliedMinor (ro_repayment r) /\
    lr_appliedMinor (ro_repayment r) = Z.min requested (ln_outstanding (al_obligation a));
  ry_surplus : lr_appliedMinor (ro_repayment r) + lr_surplusMinor (ro_repayment r) = requested;
  ry_parts : lr_appliedFeeMinor (ro_repayment r) + lr_appliedInterestMinor (ro_repayment r) +
    lr_appliedPrincipalMinor (ro_repayment r) = lr_appliedMinor (ro_repayment r);
  ry_balances : ln_fees (ro_obligation r) = ln_fees (al_obligation a) - lr_appliedFeeMinor (ro_repayment r) /\
    ln_interest (ro_obligation r) = ln_interest (al_obligation a) - lr_appliedInterestMinor (ro_repayment r) /\
    ln_principal (ro_obligation r) = ln_principal (al_obligation a) - lr_appliedPrincipalMinor (ro_repayment r);
  ry_accrued : bl_accruedInterestMinor (ln_balances (ro_obligation r)) = bl_accruedInterestMinor (ln_balances (al_obligation a));
  ry_fees_first : 0 < lr_appliedInterestMinor (ro_repayment r) -> ln_fees (ro_obligation r) = 0;
  ry_principal_last : 0 < lr_appliedPrincipalMinor (ro_repayment r) ->
    ln_fees (ro_obligation r) = 0 /\ ln_interest (ro_obligation r) = 0;
  ry_total : ln_repaid (ro_obligation r) = ln_repaid o + lr_appliedMinor (ro_repayment r);
  ry_status : ln_outstanding (ro_obligation r) = 0 -> ln_status (ro_obligation r) = ObligationStatus_FULLY_REPAID;
  ry_unwritten : ln_status (ro_obligation r) <> ObligationStatus_WRITTEN_OFF;
  ry_posting : posting_balanced (ro_ledgerTransaction r) /\ exists s, (forall c, 0 <= share s c) /\
    posting_lines (ro_ledgerTransaction r) = repayment_lines o s /\ sp_fee s = lr_appliedFeeMinor (ro_repayment r) /\
    sp_interest s = lr_appliedInterestMinor (ro_repayment r) /\ sp_principal s = lr_appliedPrincipalMinor (ro_repayment r);
  ry_interest : match ro_interestTransaction r with
    | None => al_accruedInterestMinor a = 0
    | Some p => posting_balanced p /\ posting_lines p = interest_lines o (al_accruedInterestMinor a)
    end }.

(** What makes a repayment possible. *)
Record repay_ready (o : Loan) (amountMinor : minor) (sourceCode actorId : string) (now : Z) : Prop := {
  rd_rail : truthy (tm_poolExecutionReceiptId (ln_terms o)) = None;
  rd_executed : ex_executionStatus (ln_execution o) = ObligationExecutionStatus_EXECUTED;
  rd_status : ln_status o ∈ repayableStatuses;
  rd_amount : exists z, assertPositiveMinorUnits amountMinor "amountMinor" = Ok z;
  rd_source : sourceCode ∈ enumValues SandboxRepaymentSource;
  rd_actor : assertNonEmptyString "actorId" (JStr actorId) = Ok ();
  rd_time : exists start, ex_lastAccruedAt (ln_execution o) = Some start /\ start <= now;
  rd_owed : forall a, accrueSimpleInterest o now = Ok a -> 0 < ln_outstanding (al_obligation a) < 10 ^ 78 }.

Lemma after_status previous repaid now :
  LoanCore repaid -> ln_status repaid ∉ [ObligationStatus_RESTRUCTURED; ObligationStatus_REPURCHASED] ->
  ln_outstanding repaid = 0 -> dv_status (after_of previous repaid now) = ObligationStatus_FULLY_REPAID.
Proof.
  intros Hi Hst Hz. assert (Hb : basePerformingStatus repaid = ObligationStatus_FULLY_REPAID) by (unfold basePerformingStatus; by rewrite Hz).
  unfold after_of. destruct (cured_of _ _ _); [done|]. unfold derived_of.
  destruct (overdue _ _) eqn:Hov; [|done]. apply overdue_spec in Hov as (r & [Hr Hpos]%elem_unpaid_rows & _). exfalso.
  rewrite <- rows_reconciled in Hz by done.
  pose proof (sum_by_elem installmentOutstandingMinor (ln_installments repaid) r) as Hle. rewrite Hz in Hle.
  assert (installmentOutstandingMinor r <= 0); [|lia]. apply Hle; [|done]. intros x Hx.
  apply row_outstanding_nonneg. by apply (proj1 (Forall_forall _ _) (li_rows _ Hi)).
Qed.

(** ** The postings of a repayment *)

Lemma account_id_terms o o' t : ln_terms o' = ln_terms o -> account_id o' t = account_id o t.
Proof. intros E. unfold account_id, createDerivedAccount, account_natural. by rewrite E. Qed.

Lemma repayment_lines_terms o o' s : ln_terms o' = ln_terms o -> repayment_lines o' s = repayment_lines o s.
Proof. intros E. unfold repayment_lines. by rewrite !(account_id_terms o o') by done. Qed.

Lemma repayment_lines_nonneg o s : (forall c, 0 <= share s c) -> Forall (fun l => 0 <= line_amount l) (repayment_lines o s).
Proof.
  intros Hs. pose proof (Hs Fee). pose proof (Hs Interest). pose proof (Hs Principal). cbn [share] in *.
  unfold repayment_lines, sp_applied. constructor; [cbn; lia|].
  rewrite !Forall_app. split_and!; apply (positive_line_Forall (fun z => 0 <= z)); lia.
Qed.

(** The lines of a repayment of something can be posted. *)
Lemma repayment_lines_ok o s :
  (forall c, 0 <= share s c) -> 0 < sp_applied s < 10 ^ 78 ->
  Forall (fun l => amount_ok (line_amount l)) (repayment_lines o s) /\ sum_by line_signed (repayment_lines o s) = 0 /\
  0 < line_debits (repayment_lines o s).
Proof.
  intros Hs Hp. pose proof (Hs Fee) as HF. pose proof (Hs Interest) as HI. pose proof (Hs Principal) as HP. cbn [share] in *.
  unfold line_debits. rewrite !repayment_lines_sum by (first [done|by intros ? []|intros; cbn; by case_decide]). cbn. unfold sp_applied in *.
  split_and!; [|lia|repeat (case_decide; try done); lia]. constructor; [unfold amount_ok; cbn; unfold sp_applied; lia|].
  rewrite !Forall_app. split_and!; apply positive_line_Forall; unfold amount_ok; lia.
Qed.

Lemma wp_post_interest o current accrual now s :
  ln_terms current = ln_terms o -> 0 <= al_accruedInterestMinor accrual ->
  wp (post_interest current accrual now)
    (fun ip _ => match ip with
       | None => al_accruedInterestMinor accrual = 0
       | Some p => posting_balanced p /\ posting_lines p = interest_lines o (al_accruedInterestMinor accrual)
       end) (fun _ _ => ~ al_accruedInterestMinor accrual < 10 ^ 78) s.
Proof.
  intros Ht Hz. unfold post_interest. destruct (Z.eqb_spec (al_accruedInterestMinor accrual) 0) as [E|Hne]; [by apply wp_ret|].
  apply wp_bind. change (interest_entries current (al_accruedInterestMinor accrual)) with
    (map line_input (interest_lines current (al_accruedInterestMinor accrual))).
  assert (Hl : interest_lines current (al_accruedInterestMinor accrual) = interest_lines o (al_accruedInterestMinor accrual)).
  { unfold interest_lines. by rewrite !(account_id_terms o current) by done. }
  rewrite Hl. eapply wp_mono; [apply wp_createBalancedTransaction; by repeat constructor|..].
  - intros p s' [Hp Hb]. by apply wp_ret.
  - cbv beta. intros e s' Hn Hlt. apply Hn. unfold interest_lines, line_debits. rewrite !sum_by_cons, !sum_by_nil. cbn.
    split_and!; [repeat constructor; cbn; lia|lia|repeat (case_decide; try done); lia].
Qed.

Lemma accrue_ready o amountMinor sourceCode actorId now :
  LoanCore o -> repay_ready o amountMinor sourceCode actorId now -> exists a, accrueSimpleInterest o now = Ok a.
Proof.
  intros Hi [_ Hex _ _ _ _ (start & Hst & Hle) _]. apply (accrue_total o now start); try done; apply Hi.
Qed.

Lemma ledger_accounts_Ok o now : shared o -> exists l, createSandboxLedgerAccounts o (Some now) = Ok l.
Proof. intros Hs. unfold createSandboxLedgerAccounts. rewrite (assertSharedObligation_Ok _ Hs). by eexists. Qed.

(** What the servicing check after a repayment makes of the repaid loan. *)
Lemma repaid_serviced o current s rows actorId now :
  LoanInv current -> ex_executionStatus (ln_execution current) = ObligationExecutionStatus_EXECUTED -> valid_instant now ->
  assertNonEmptyString "actorId" (JStr actorId) = Ok () ->
  LoanCore (repaid_loan current s rows now) ->
  exists o' act c, applySandboxServicingAfterRepayment o (repaid_loan current s rows now) actorId now =
      Ok (MkAfterRepayment o' act c) /\ LoanInv o' /\ ln_terms o' = ln_terms current /\ ln_execution o' = ln_execution current /\
      ln_balances o' = ln_balances (repaid_loan current s rows now) /\ ln_installments o' = rows /\
      (ln_outstanding (repaid_loan current s rows now) = 0 -> ln_status o' = ObligationStatus_FULLY_REPAID) /\
      ln_status o' <> ObligationStatus_WRITTEN_OFF.
Proof.
  intros Hi Hex Hn Ha Hc. destruct (wf_sequence _ _ _ (li_servicing _ Hi)) as [Hs1 Hs2].
  assert (Hst : ln_status (repaid_loan current s rows now) ∉ [ObligationStatus_RESTRUCTURED; ObligationStatus_REPURCHASED]).
  { unfold repaid_loan. cbn. destruct (_ =? 0); set_solver. }
  destruct (after_repayment_eq o (repaid_loan current s rows now) actorId now Hc Hex Hst Hn Hs1 Hs2 Ha) as [Hinv (act & Hact)].
  eexists _, act, _. split; [exact Hact|]. split_and!; try done; [intros Hz; by apply after_status|by apply after_unwritten].
Qed.

Lemma repays_intro o current s requested now a o' y id hash source days tx txid itx p ip act c rf ri rp :
  current = al_obligation a -> accrueSimpleInterest o now = Ok a -> LoanInv o' ->
  ln_terms o' = ln_terms o -> ln_execution o' = ln_execution current ->
  ln_balances o' = ln_balances (repaid_loan current s y now) -> ln_repaid current = ln_repaid o ->
  (ln_outstanding (repaid_loan current s y now) = 0 -> ln_status o' = ObligationStatus_FULLY_REPAID) ->
  ln_status o' <> ObligationStatus_WRITTEN_OFF -> (forall c, 0 <= share s c) -> 0 < sp_applied s -> sp_applied s = Z.min requested (ln_outstanding current) ->
  sp_applied s + sp_surplus s = requested ->
  (0 < sp_interest s -> sp_fee s = ln_fees current) ->
  (0 < sp_principal s -> sp_fee s = ln_fees current /\ sp_interest s = ln_interest current) ->
  posting_lines p = repayment_lines o s -> posting_balanced p ->
  match ip with
  | None => al_accruedInterestMinor a = 0
  | Some p => posting_balanced p /\ posting_lines p = interest_lines o (al_accruedInterestMinor a)
  end ->
  repays o requested now a (MkRepaymentOutcome o'
    (MkLoanRepayment id hash requested (sp_applied s) (sp_fee s) (sp_interest s) (sp_principal s) (sp_surplus s) rf ri rp source
       tx days now txid itx) p ip act c).
Proof.
  intros -> Ha Hi Ht He Hb Hrep Hfull Hunw Hsh Hpos Happ Hsum Hfee Hprin Hp Hbal Hip. split; cbn;
    unfold ln_outstanding, ln_fees, ln_interest, ln_principal, ln_repaid in *; rewrite ?Hb; cbn; try done.
  - intros Hx. specialize (Hfee Hx). lia.
  - intros Hx. specialize (Hprin Hx). lia.
  - lia.
  - split; [done|]. by exists s.
Qed.

(** From the accrual on. *)
Lemma wp_apply_repayment o requested a start d sourceCode actorId now y :
  LoanInv o -> accrueSimpleInterest o now = Ok a -> accrues o now start d a -> 0 < requested -> valid_instant now ->
  assertNonEmptyString "actorId" (JStr actorId) = Ok () ->
  wp (apply_repayment o requested a sourceCode actorId now)
    (fun r _ => repays o requested now a r) (fun _ _ => ~ 0 < ln_outstanding (al_obligation a) < 10 ^ 78) y.
Proof.
  intros Hi Ha C Hpos Hn Hact. pose proof (accrues_keeps _ _ _ _ _ Hi C) as Hic.
  destruct (accrues_outstanding _ _ _ _ _ Hi C) as [Hz Hout]. pose proof (ca_result _ _ _ _ _ C) as R.
  assert (Ht : ln_terms (al_obligation a) = ln_terms o) by (by rewrite R).
  assert (Hexc : ex_executionStatus (ln_execution (al_obligation a)) = ObligationExecutionStatus_EXECUTED)
    by (rewrite R; apply (ca_status _ _ _ _ _ C)).
  assert (Hrep : ln_repaid (al_obligation a) = ln_repaid o) by (by rewrite R). unfold apply_repayment. cbv zeta. clear R.
  set (current := al_obligation a) in *.
  destruct (split_spec current requested Hic Hpos) as (Hsh & Hsur & Hsum & Happ & Hfee & Hprin). cbv zeta in *.
  set (sp := split_repayment current requested) in *.
  assert (Hsh0 : forall c, 0 <= share sp c) by (intros c; apply Hsh).
  assert (Hnn : 0 <= sp_applied sp) by (unfold sp_applied; pose proof (Hsh0 Fee); pose proof (Hsh0 Interest);
    pose proof (Hsh0 Principal); cbn [share] in *; lia).
  apply wp_bind, wp_throw_if; [intros; lia|]. intros Hap%Z.eqb_neq.
  destruct (allocate_repayment_Ok sp (ln_installments current)) as (rows & Hal & Hok & Hdue & Hun); [apply Hic|..].
  { intros c. rewrite (li_reconciled _ Hic). apply Hsh. }
  apply wp_bind, wp_lift; [by rewrite Hal|]. rewrite Hal. intros rows' [= <-].
  destruct (li_executed _ Hic Hexc) as [_ [ts Hts]].
  destruct (ledger_accounts_Ok current ts (li_shared _ Hic)) as (accts & Hac). rewrite Hts.
  apply wp_bind, wp_lift; [by rewrite Hac|intros _ _].
  rewrite repayment_entries_lines, (repayment_lines_terms o current) by done. apply wp_bind.
  eapply wp_mono; [apply wp_createBalancedTransaction, repayment_lines_nonneg, Hsh0|..]; cbv beta.
  2: { intros e y1 He Hb. apply He, repayment_lines_ok; [done|]. lia. }
  intros p y1 [Hp Hbal]. apply wp_bind. eapply wp_mono; [by apply (wp_post_interest o)|..]; cbv beta.
  2: { intros e y2 He Hb. apply He. pose proof (outstanding_nonneg _ Principal Hi). pose proof (outstanding_nonneg _ Interest Hi).
       pose proof (outstanding_nonneg _ Fee Hi). cbn [outstanding_of] in *. unfold ln_outstanding in Hout at 2. lia. }
  intros ip y2 Hip. pose proof (repaid_core current sp rows now Hic Hexc Hsh0 Hok Hdue Hun) as Hcore.
  destruct (repaid_serviced o current sp rows actorId now Hic Hexc Hn Hact Hcore) as
    (o' & act & c & Haft & Hi' & Ht' & He' & Hb' & _ & Hfull & Hunw).
  apply wp_bind, wp_lift; [by rewrite Haft|]. rewrite Haft. intros aft [= <-]. apply wp_ret.
  apply (repays_intro o current sp requested now a o' rows); first [done|congruence|lia].
Qed.

Lemma wp_postSandboxRepayment o amountMinor sourceCode actorId now y :
  LoanInv o -> valid_instant now ->
  wp (postSandboxRepayment o amountMinor sourceCode actorId now)
    (fun r _ => exists a requested, assertPositiveMinorUnits amountMinor "amountMinor" = Ok requested /\ repays o requested now a r)
    (fun _ _ => ~ repay_ready o amountMinor sourceCode actorId now) y.
Proof.
  intros Hi Hn. unfold postSandboxRepayment. apply wp_bind, wp_lift; [by rewrite (assertSharedObligation_Ok _ (li_shared _ Hi))|intros _ _].
  apply wp_bind, wp_throw_if; [intros Hb [E _ _ _ _ _ _ _]; by rewrite E in Hb|intros _].
  apply wp_bind, wp_throw_if.
  { intros Hb [_ E1 E2 _ _ _ _ _]. by rewrite (bool_decide_eq_true_2 _ E1), (bool_decide_eq_true_2 _ E2) in Hb. }
  intros _. apply wp_bind, wp_lift; [intros e He [_ _ _ (z & E) _ _ _ _]; congruence|]. intros requested Hreq.
  apply wp_bind, wp_lift; [|intros _ _].
  { intros e He [_ _ _ _ E _ _ _]. unfold assertEnumValue in He. rewrite bool_decide_eq_false_2 in He by (intros Hx; by apply Hx). done. }
  apply wp_bind, wp_lift; [intros e He [_ _ _ _ _ E _ _]; congruence|]. intros [] Hact.
  apply wp_bind, wp_lift; [intros e He Hr; destruct (accrue_ready _ _ _ _ _ Hi Hr); congruence|]. intros a Ha.
  pose proof (assertPositiveMinorUnits_pos _ _ _ Hreq) as Hpos. destruct (accrue_inv _ _ _ Ha) as (start & d & C).
  eapply wp_mono; [by eapply wp_apply_repayment|..]; cbv beta.
  - intros r y' Hr. by exists a, requested.
  - intros e y' He Hr. by apply He, (rd_owed _ _ _ _ _ Hr).
Qed.

(** C10: a repayment of a loan that can be repaid goes through: it first brings
    the interest up to date, takes the smaller of the amount and the balance, pays
    fees, then interest, then principal, returns the rest as surplus, always
    finds room for what it took on the installments, leaves the balances equal to
    what the installments still owe, is fully repaid when nothing is left, and
    posts a balanced ledger transaction for the payment and one for the interest
    that accrued. *)
Theorem repayment_applied o amountMinor sourceCode actorId now y :
  LoanInv o -> valid_instant now -> repay_ready o amountMinor sourceCode actorId now ->
  exists r a requested y', postSandboxRepayment o amountMinor sourceCode actorId now y = (Ok r, y') /\
    assertPositiveMinorUnits amountMinor "amountMinor" = Ok requested /\ repays o requested now a r.
Proof.
  intros Hi Hn Hr. pose proof (wp_postSandboxRepayment o amountMinor sourceCode actorId now y Hi Hn) as Hw. unfold wp in Hw.
  destruct (postSandboxRepayment _ _ _ _ _ y) as [[r|e] y']; [|by destruct Hw]. destruct Hw as (a & requested & Hq & Hrep).
  by exists r, a, requested, y'.
Qed.
End repayment.
