(* ===== verification/ScheduleProps.v ===== *)
(** * The schedule of an accepted offer: theorems

    [createObligationSchedule] spreads the principal over installments that are
    strictly increasing in time and end at maturity, and the obligation made from
    it satisfies the loans' invariant. *)

From Stdlib Require Import Sorted.
From stdpp Require Import base tactics sets relations gmap numbers strings list.
From S2P Require Import Prelude Js Enums EventStore Service Ledger Mandate Loan Servicing SandboxCredit LoanProps LoanLedger.
Local Open Scope string_scope.
Local Open Scope Z_scope.

Lemma seqZ_snoc n : 0 <= n -> seqZ 0 (Z.succ n) = (seqZ 0 n ++ [n])%list.
Proof.
  intros Hn. replace n with (Z.of_nat (Z.to_nat n)) by lia. rewrite <- Nat2Z.inj_succ, seqZ_S. by rewrite Z.add_0_l.
Qed.

Lemma map_seqZ_sorted (f : Z -> Z) k n :
  (forall i j, k <= i -> i < j < k + n -> f i < f j) -> StronglySorted Z.lt (map f (seqZ k n)).
Proof.
  intros Hf. destruct (decide (n <= 0)) as [Hle|Hgt]; [rewrite seqZ_nil by done; constructor|].
  assert (Hn : 0 <= n) by lia. clear Hgt. revert n Hn k Hf. refine (natlike_ind _ _ _); [constructor|].
  intros n Hn IH k Hf. rewrite seqZ_cons by lia. replace (Z.pred (Z.succ n)) with n by lia. cbn [map]. constructor.
  - apply IH. intros i j ??. apply Hf; lia.
  - apply List.Forall_map, Forall_forall. intros j [??]%elem_of_seqZ. apply Hf; lia.
Qed.

Lemma StronglySorted_lookup_lt (f : Z -> Z) n i j : StronglySorted Z.lt (map f (seqZ 0 n)) -> 0 <= i -> i < j < n -> f i < f j.
Proof.
  intros Hs Hi [Hij Hj]. assert (Hg : forall m, 0 <= m -> forall k, StronglySorted Z.lt (map f (seqZ k m)) ->
    forall i j, k <= i -> i < j < k + m -> f i < f j).
  { refine (natlike_ind _ _ _); [intros; lia|]. intros m Hm IH k. rewrite seqZ_cons by lia. cbn [map].
    replace (Z.pred (Z.succ m)) with m by lia. intros Hk i' j' Hi' Hj'. inversion Hk as [|? ? Hk' Hf]; subst.
    destruct (decide (i' = k)) as [->|Hne]; [|apply (IH (Z.succ k)); [done|lia|lia]].
    apply (proj1 (Forall_forall _ _) (proj1 (List.Forall_map _ _ _) Hf)), elem_of_seqZ. lia. }
  apply (Hg n ltac:(lia) 0); lia || done.
Qed.

Section schedule.
Context `{Platform}.

(** ** The rows in closed form *)

Section rows.
Context (obligationId : string) (count first maturity interval base remainder : Z).

Definition due_at (k : Z) : Z := if k + 1 =? count then maturity else first + k * interval * DAY_MS.
Definition principal_at (k : Z) : Z := base + (if k + 1 =? count then remainder else 0).
Definition row_at (k : Z) : Installment := new_installment obligationId (k + 1) (due_at k) (principal_at k) 0 0 1.

(** Each time is after the one before it. *)
Fixpoint increasing (previous : option Z) (l : list Z) : bool :=
  match l with
  | [] => true
  | t :: l => match previous with Some p => p <? t | None => true end && increasing (Some t) l
  end.

Lemma schedule_rows_eq previous index more :
  schedule_rows obligationId count first maturity interval base remainder previous index more =
  if increasing previous (map due_at (seqZ index (Z.of_nat more))) then Ok (map row_at (seqZ index (Z.of_nat more)))
  else fail "invalid_credit_schedule" "Offer schedule is not strictly increasing".
Proof.
  revert previous index. induction more as [|more IH]; intros previous index; [done|].
  rewrite seqZ_cons by lia. cbn [schedule_rows map increasing]. fold (due_at index).
  replace (Z.pred (Z.of_nat (S more))) with (Z.of_nat more) by lia. replace (Z.succ index) with (index + 1) by lia.
  destruct previous as [p|].
  - rewrite Z.leb_antisym. destruct (p <? due_at index); cbn [negb guard mbind result_bind andb]; [|done].
    rewrite IH. by destruct (increasing _ _).
  - cbn [guard mbind result_bind andb]. rewrite IH. by destruct (increasing _ _).
Qed.

Lemma increasing_sorted previous l :
  increasing previous l = true -> StronglySorted Z.lt l /\ (forall p, previous = Some p -> Forall (Z.lt p) l).
Proof.
  revert previous. induction l as [|t l IH]; intros previous; cbn; [intros _; split; [constructor|by constructor]|].
  intros [Hp Hl]%andb_true_iff. destruct (IH _ Hl) as [Hs Hf]. specialize (Hf t eq_refl). split; [by constructor|].
  intros p ->. constructor; [lia|]. eapply Forall_impl; [exact Hf|]. cbn. lia.
Qed.

Lemma sorted_increasing previous l :
  StronglySorted Z.lt l -> (forall p, previous = Some p -> Forall (Z.lt p) l) -> increasing previous l = true.
Proof.
  revert previous. induction l as [|t l IH]; intros previous Hs Hf; cbn; [done|].
  inversion Hs as [|? ? Hs' Hft]; subst. apply andb_true_iff. split.
  - destruct previous as [p|]; [|done]. specialize (Hf p eq_refl). inversion Hf; subst. lia.
  - apply IH; [done|]. by intros ? [= <-].
Qed.

Lemma principal_sum : 0 < count -> sum_by in_scheduledPrincipalMinor (map row_at (seqZ 0 count)) = base * count + remainder.
Proof.
  intros Hc. replace count with (Z.succ (count - 1)) at 1 by lia. rewrite seqZ_snoc by lia. rewrite map_app, sum_by_app.
  cbn [map]. rewrite sum_by_cons, sum_by_nil. cbn. unfold principal_at at 1. rewrite (proj2 (Z.eqb_eq _ _)) by lia.
  assert (Hsum : forall n, 0 <= n < count -> sum_by in_scheduledPrincipalMinor (map row_at (seqZ 0 n)) = base * n).
  { intros n [Hn Hlt]. revert n Hn Hlt. refine (natlike_ind _ _ _); [intros _; rewrite seqZ_nil by done; cbn [map]; rewrite sum_by_nil; lia|]. intros n Hn IH Hlt.
    rewrite seqZ_snoc, map_app, sum_by_app, IH by lia. cbn [map]. rewrite sum_by_cons, sum_by_nil. cbn. unfold principal_at.
    rewrite (proj2 (Z.eqb_neq _ _)) by lia. lia. }
  rewrite Hsum by lia. lia.
Qed.

Lemma last_row : 0 < count -> last (map row_at (seqZ 0 count)) = Some (row_at (count - 1)) /\ due_at (count - 1) = maturity.
Proof.
  intros Hc. replace count with (Z.succ (count - 1)) at 1 by lia. rewrite seqZ_snoc by lia. rewrite map_app. cbn [map].
  rewrite last_snoc. split; [done|]. unfold due_at. by rewrite (proj2 (Z.eqb_eq _ _)) by lia.
Qed.

(** When the times increase: one installment, or intervals that end before maturity. *)
Lemma dues_increasing :
  0 < count -> (1 < count -> 0 < interval /\ first + (count - 2) * interval * DAY_MS < maturity) ->
  increasing None (map due_at (seqZ 0 count)) = true.
Proof.
  intros Hc Hi. apply sorted_increasing; [|done]. apply map_seqZ_sorted. intros i j Hi0 [Hij Hj].
  destruct Hi as [Hiv Hm]; [lia|]. unfold due_at, DAY_MS in *. rewrite (proj2 (Z.eqb_neq (i + 1) count)) by lia.
  destruct (Z.eqb_spec (j + 1) count); nia.
Qed.
End rows.

(** ** The schedule *)

Record schedule_good (offer : CreditOffer) (first maturity : Z) (rows : list Installment) : Prop := {
  sg_count : Z.of_nat (length rows) = of_installmentCount offer;
  sg_nonempty : rows <> [];
  sg_principal : sum_by in_scheduledPrincipalMinor rows = of_approvedPrincipalMinor offer;
  sg_sorted : StronglySorted Z.lt (map in_dueAt rows);
  sg_last : in_dueAt <$> last rows = Some maturity;
  sg_due : Forall (fun r => first <= in_dueAt r <= maturity) rows;
  sg_fresh : Forall (fun r => 0 <= in_scheduledPrincipalMinor r /\ in_scheduledInterestMinor r = 0 /\ in_scheduledFeeMinor r = 0 /\
    in_paidPrincipalMinor r = 0 /\ in_paidInterestMinor r = 0 /\ in_paidFeeMinor r = 0) rows }.

Lemma interval_nonneg f : 0 <= default 0 (INTERVAL_DAYS f).
Proof. by destruct f. Qed.

Lemma rows_good offer id first maturity :
  let count := of_installmentCount offer in let p := of_approvedPrincipalMinor offer in
  let iv := default 0 (INTERVAL_DAYS (of_repaymentFrequency offer)) in
  0 < count -> 0 < p -> first <= maturity ->
  increasing None (map (due_at count first maturity iv) (seqZ 0 count)) = true ->
  schedule_good offer first maturity (map (row_at id count first maturity iv (Z.quot p count) (Z.rem p count)) (seqZ 0 count)).
Proof.
  intros count p iv Hc Hp Hfm Hinc. apply increasing_sorted in Hinc as [Hs _]. pose proof (interval_nonneg (of_repaymentFrequency offer)) as Hiv.
  fold iv in Hiv. destruct (last_row id count first maturity iv (Z.quot p count) (Z.rem p count) Hc) as [Hlast Hmat]. split.
  - rewrite length_map, length_seqZ. lia.
  - rewrite seqZ_cons by done. done.
  - rewrite principal_sum by done. pose proof (Z.quot_rem' p count). lia.
  - rewrite map_map. exact Hs.
  - rewrite Hlast. cbn. by rewrite Hmat.
  - apply List.Forall_map, Forall_forall. intros k [Hk0 Hk]%elem_of_seqZ. cbn. split.
    + unfold due_at, DAY_MS. destruct (_ =? _); [done|nia].
    + destruct (decide (k = count - 1)) as [->|Hne]; [by rewrite Hmat|]. rewrite <- Hmat at 2. apply Z.lt_le_incl.
      apply (StronglySorted_lookup_lt _ _ k _ Hs Hk0); lia.
  - apply List.Forall_map, Forall_forall. intros k [Hk0 Hk]%elem_of_seqZ. cbn. split_and!; try done. unfold principal_at.
    pose proof (Z.quot_pos p count ltac:(lia) Hc). pose proof (Z.rem_bound_pos p count ltac:(lia) Hc). destruct (_ =? _); lia.
Qed.

(** What an offer needs for a schedule. *)
Record schedule_ready (id : string) (offer : CreditOffer) (first maturity : Z) : Prop := {
  sr_id : assertNonEmptyString "obligationId" (JStr id) = Ok ();
  sr_principal : amount_ok (of_approvedPrincipalMinor offer);
  sr_count : 1 <= of_installmentCount offer <= 520;
  sr_first : date_parse (of_firstPaymentAt offer) = Some first;
  sr_maturity : date_parse (of_maturityAt offer) = Some maturity;
  sr_times : first <= maturity;
  sr_interval : 1 < of_installmentCount offer -> exists iv, INTERVAL_DAYS (of_repaymentFrequency offer) = Some iv /\
    first + (of_installmentCount offer - 2) * iv * DAY_MS < maturity }.

Lemma interval_pos f iv : INTERVAL_DAYS f = Some iv -> 0 < iv.
Proof. by destruct f; intros [= <-]. Qed.

(** The final check of the schedule always passes. *)
Lemma schedule_reconciles offer first maturity rows :
  schedule_good offer first maturity rows ->
  negb (foldl (fun sum row => sum + in_scheduledPrincipalMinor row) 0 rows =? of_approvedPrincipalMinor offer) ||
  negb (bool_decide (option_map in_dueAt (last rows) = Some maturity)) = false.
Proof.
  intros G. rewrite foldl_sum, (sg_principal _ _ _ _ G), Z.eqb_refl.
  by rewrite (bool_decide_eq_true_2 (option_map in_dueAt (last rows) = Some maturity) (sg_last _ _ _ _ G)).
Qed.

Lemma schedule_complete id offer first maturity :
  schedule_ready id offer first maturity ->
  exists hash rows, createObligationSchedule id offer = Ok (hash, rows) /\ schedule_good offer first maturity rows.
Proof.
  intros [Hid Hp Hc Hf Hm Hfm Hiv]. pose proof Hp as [Hp0 _]. unfold createObligationSchedule.
  rewrite Hid. cbn [mbind result_bind]. rewrite (positive_minor_amount _ _ Hp). cbn [mbind result_bind].
  rewrite (proj2 (guard_Ok ((of_installmentCount offer <? 1) || (520 <? of_installmentCount offer)) _ _ ())) by lia.
  cbn [mbind result_bind]. rewrite Hf, Hm.
  rewrite (proj2 (guard_Ok (maturity <? first) _ _ ())) by lia. cbn [mbind result_bind].
  rewrite (proj2 (guard_Ok (_ && _) _ _ ())). 2: { destruct (Z.ltb_spec 1 (of_installmentCount offer)) as [Hlt|]; [|done].
    by destruct (Hiv Hlt) as (iv & -> & _). }
  cbn [mbind result_bind]. rewrite schedule_rows_eq, Z2Nat.id by lia.
  assert (Hinc : increasing None (map (due_at (of_installmentCount offer) first maturity
    (default 0 (INTERVAL_DAYS (of_repaymentFrequency offer)))) (seqZ 0 (of_installmentCount offer))) = true).
  { apply dues_increasing; [lia|]. intros Hlt. destruct (Hiv Hlt) as (iv & E & Hd). rewrite E. cbn.
    split; [by apply interval_pos in E|done]. }
  rewrite Hinc. cbn [mbind result_bind]. pose proof (rows_good offer id first maturity ltac:(lia) Hp0 Hfm Hinc) as G. cbv zeta in G.
  rewrite (schedule_reconciles _ _ _ _ G). by eexists _, _.
Qed.

Lemma schedule_sound id offer hash rows :
  0 <= of_approvedPrincipalMinor offer -> createObligationSchedule id offer = Ok (hash, rows) ->
  exists first maturity, date_parse (of_firstPaymentAt offer) = Some first /\ date_parse (of_maturityAt offer) = Some maturity /\
    0 < of_approvedPrincipalMinor offer /\ schedule_good offer first maturity rows.
Proof.
  intros Hnn. unfold createObligationSchedule. intros E. result_inv.
  match goal with E : assertPositiveMinorUnits _ _ = Ok _ |- _ => apply positive_minor_inv in E as [-> [Hp0 _]]; [|done] end.
  destruct (date_parse (of_firstPaymentAt offer)) as [first|]; [|done].
  destruct (date_parse (of_maturityAt offer)) as [maturity|]; [|done]. result_inv.
  match goal with E : schedule_rows _ _ _ _ _ _ _ _ _ _ = Ok _ |- _ => rewrite schedule_rows_eq, Z2Nat.id in E by lia; rename E into Hrows end.
  destruct (increasing _ _) eqn:Hinc; [|done]. result_inv. exists first, maturity. split_and!; [done..|].
  match goal with E : Ok _ = Ok _ |- _ => injection E as <- <- | E : (_, _) = (_, _) |- _ => injection E as <- <- end.
  apply rows_good; [lia..|done].
Qed.

(** C28: the schedule of an offer. Every offer with a principal of at most 78
    digits, one to 520 installments, valid times, and an interval that fits
    before maturity gets one, and every schedule that is returned has as many
    installments as the offer says, at strictly increasing times between the first
    payment and maturity, the last one at maturity, with nothing paid and the
    whole principal spread over them. *)
Theorem schedule_spreads_principal :
  (forall id offer first maturity, schedule_ready id offer first maturity ->
     exists hash rows, createObligationSchedule id offer = Ok (hash, rows)) /\
  (forall id offer hash rows, 0 <= of_approvedPrincipalMinor offer -> createObligationSchedule id offer = Ok (hash, rows) ->
     exists first maturity, date_parse (of_firstPaymentAt offer) = Some first /\ date_parse (of_maturityAt offer) = Some maturity /\
       schedule_good offer first maturity rows).
Proof.
  split.
  - intros id offer first maturity Hr. destruct (schedule_complete _ _ _ _ Hr) as (hash & rows & E & _). by exists hash, rows.
  - intros id offer hash rows Hp E. destruct (schedule_sound _ _ _ _ Hp E) as (first & maturity & Hf & Hm & _ & G). by exists first, maturity.
Qed.
End schedule.
