(* ===== verification/LoanBook.v ===== *)
(** * A loan and its ledger

    A sandbox loan from acceptance on, with the ledger transactions its
    operations post: the composition the command handlers of
    src/modules/tenant-command-gateway/src/ make of the domain functions
    (credit-execution-handlers.js and servicing-handlers.js), where a function that
    throws leaves everything as it was. *)

From stdpp Require Import base tactics sets relations gmap numbers strings list.
From S2P Require Import Prelude Js Enums EventStore Service Ledger Mandate Loan Servicing SandboxCredit LoanProps ServicingProps LoanLedger RepaymentProps ScheduleProps.
Local Open Scope string_scope.
Local Open Scope Z_scope.

(** ** Data *)

(** [bk_writeOffs] keeps the loan as it was at each write-off that went through. *)
Record Book := MkBook { bk_loan : Loan; bk_postings : list Posting; bk_writeOffs : list Loan }.

Inductive BookOp :=
  | OpExecute (receipt : option AdapterReceipt)
  | OpRepay (amountMinor : minor) (sourceCode actorId : string)
  | OpAdvance (actorId : string)
  | OpRestructure (additionalTermDays : Z) (r : Resolution)
  | OpRepurchase (owner : SandboxServicingOwner) (r : Resolution)
  | OpWriteOff (r : Resolution).

Definition book_lines (b : Book) : list Line := flat_map posting_lines (bk_postings b).

(** ** The operations *)

Section book.
Context `{Platform}.

Definition book_op (b : Book) (op : BookOp) (now : Z) : M Sys Book :=
  let o := bk_loan b in
  match op with
  | OpExecute receipt =>
      r ← executeSandboxObligation o receipt now;
      mret (MkBook (er_obligation r) (bk_postings b ++ [er_ledgerTransaction r])%list (bk_writeOffs b))
  | OpRepay amountMinor sourceCode actorId =>
      r ← postSandboxRepayment o amountMinor sourceCode actorId now;
      mret (MkBook (ro_obligation r)
              (bk_postings b ++ ro_ledgerTransaction r :: match ro_interestTransaction r with Some p => [p] | None => [] end)%list
              (bk_writeOffs b))
  | OpAdvance actorId =>
      r ← lift (advanceSandboxServicing o actorId now);
      mret (MkBook (fst r) (bk_postings b) (bk_writeOffs b))
  | OpRestructure days r =>
      x ← lift (restructureSandboxObligation o days r now);
      mret (MkBook (fst x) (bk_postings b) (bk_writeOffs b))
  | OpRepurchase owner r =>
      x ← lift (repurchaseSandboxObligation o owner r now);
      mret (MkBook (fst x) (bk_postings b) (bk_writeOffs b))
  | OpWriteOff r =>
      x ← lift (writeOffSandboxObligation o r now);
      p ← createSandboxWriteOffTransaction o (sa_servicingActionId (snd x)) now;
      mret (MkBook (fst x) (bk_postings b ++ [p])%list (bk_writeOffs b ++ [bk_loan b])%list)
  end.

(** A list of requests; one that throws changes nothing but the identifiers used. *)
Fixpoint run_book (b : Book) (ops : list (BookOp * Z)) (y : Sys) : Book * Sys :=
  match ops with
  | [] => (b, y)
  | (op, now) :: ops =>
      match book_op b op now y with
      | (Ok b', y') => run_book b' ops y'
      | (Err _, y') => run_book b ops y'
      end
  end.

(** ** What the ledger should show *)

(** The debit balance of each of the loan's accounts. *)
Definition expected (o : Loan) (t : LedgerAccountType) : Z :=
  match t with
  | LedgerAccountType_PRINCIPAL_RECEIVABLE => ln_principal o
  | LedgerAccountType_INTEREST_RECEIVABLE => ln_interest o
  | LedgerAccountType_FEE_RECEIVABLE => ln_fees o
  | LedgerAccountType_REPAYMENT_CLEARING => ln_repaid o
  | LedgerAccountType_SANDBOX_FUNDING_SOURCE => - tm_originalPrincipalMinor (ln_terms o)
  | LedgerAccountType_SYNTHETIC_INTEREST_INCOME => - bl_accruedInterestMinor (ln_balances o)
  | _ => 0
  end.

(** The same once what was owed is written off. *)
Definition expected_off (o : Loan) (t : LedgerAccountType) : Z :=
  match t with
  | LedgerAccountType_PRINCIPAL_RECEIVABLE | LedgerAccountType_INTEREST_RECEIVABLE | LedgerAccountType_FEE_RECEIVABLE => 0
  | LedgerAccountType_WRITE_OFF_LOSS => ln_outstanding o
  | _ => expected o t
  end.

(** What writing off the loan [w] adds to each account. *)
Definition written (t : LedgerAccountType) (w : Loan) : Z :=
  match t with
  | LedgerAccountType_WRITE_OFF_LOSS => ln_outstanding w
  | LedgerAccountType_PRINCIPAL_RECEIVABLE => - ln_principal w
  | LedgerAccountType_INTEREST_RECEIVABLE => - ln_interest w
  | LedgerAccountType_FEE_RECEIVABLE => - ln_fees w
  | _ => 0
  end.

(** The accounts of the loan are told apart by their identifiers, which are hashes
    of the account's owner, asset and type. *)
Definition accounts_distinct (o : Loan) : Prop := Inj (=) (=) (account_id o).

Record BookInv (b : Book) : Prop := {
  bi_distinct : accounts_distinct (bk_loan b);
  bi_loan : LoanInv (bk_loan b);
  bi_balanced : Forall posting_balanced (bk_postings b);
  bi_pending : ex_executionStatus (ln_execution (bk_loan b)) <> ObligationExecutionStatus_EXECUTED ->
    ex_executionStatus (ln_execution (bk_loan b)) = ObligationExecutionStatus_PENDING /\ bk_postings b = [] /\ bk_writeOffs b = [];
  bi_accounts : ex_executionStatus (ln_execution (bk_loan b)) = ObligationExecutionStatus_EXECUTED ->
    forall t, net (account_id (bk_loan b) t) (book_lines b) = expected (bk_loan b) t + sum_by (written t) (bk_writeOffs b);
  bi_written_off : ln_status (bk_loan b) = ObligationStatus_WRITTEN_OFF ->
    ex_executionStatus (ln_execution (bk_loan b)) = ObligationExecutionStatus_EXECUTED /\
    exists ws w, bk_writeOffs b = (ws ++ [w])%list /\ ln_balances w = ln_balances (bk_loan b) }.

Lemma net_app a l k : net a (l ++ k)%list = net a l + net a k.
Proof. apply sum_by_app. Qed.

Lemma book_lines_app ps qs : flat_map posting_lines (ps ++ qs)%list = (flat_map posting_lines ps ++ flat_map posting_lines qs)%list.
Proof. apply flat_map_app. Qed.

(** ** The lines of each transaction, by account *)

Section nets.
Context (o : Loan) (Hinj : accounts_distinct o).

Lemma account_cond t t' (z : Z) :
  (if decide (account_id o t' = account_id o t) then z else 0) = if decide (t' = t) then z else 0.
Proof. destruct (decide (account_id o t' = account_id o t)) as [E|Hne]; case_decide; try done; [by apply Hinj in E|congruence]. Qed.

Ltac account_cases t :=
  cbn [line_account line_signed line_direction line_amount]; rewrite ?account_cond; destruct t; repeat (case_decide; try done); lia.

Lemma net_repayment s t : (forall c, 0 <= share s c) ->
  net (account_id o t) (repayment_lines o s) = match t with
    | LedgerAccountType_REPAYMENT_CLEARING => sp_applied s
    | LedgerAccountType_FEE_RECEIVABLE => - sp_fee s
    | LedgerAccountType_INTEREST_RECEIVABLE => - sp_interest s
    | LedgerAccountType_PRINCIPAL_RECEIVABLE => - sp_principal s
    | _ => 0
    end.
Proof.
  intros Hs. unfold net. rewrite repayment_lines_sum; [|intros a []; cbn; by case_decide|done]. account_cases t.
Qed.

Lemma net_interest z t :
  net (account_id o t) (interest_lines o z) = match t with
    | LedgerAccountType_INTEREST_RECEIVABLE => z
    | LedgerAccountType_SYNTHETIC_INTEREST_INCOME => - z
    | _ => 0
    end.
Proof. unfold net, interest_lines. rewrite !sum_by_cons, sum_by_nil. account_cases t. Qed.

Definition execution_lines : list Line :=
  [MkLine (account_id o LedgerAccountType_PRINCIPAL_RECEIVABLE) LedgerEntryDirection_DEBIT (tm_originalPrincipalMinor (ln_terms o));
   MkLine (account_id o LedgerAccountType_SANDBOX_FUNDING_SOURCE) LedgerEntryDirection_CREDIT (tm_originalPrincipalMinor (ln_terms o))].

Lemma net_execution t :
  net (account_id o t) execution_lines = match t with
    | LedgerAccountType_PRINCIPAL_RECEIVABLE => tm_originalPrincipalMinor (ln_terms o)
    | LedgerAccountType_SANDBOX_FUNDING_SOURCE => - tm_originalPrincipalMinor (ln_terms o)
    | _ => 0
    end.
Proof. unfold net, execution_lines. rewrite !sum_by_cons, sum_by_nil. account_cases t. Qed.

Definition write_off_lines : list Line :=
  MkLine (account_id o LedgerAccountType_WRITE_OFF_LOSS) LedgerEntryDirection_DEBIT (ln_outstanding o) ::
  (positive_line (account_id o LedgerAccountType_PRINCIPAL_RECEIVABLE) LedgerEntryDirection_CREDIT (ln_principal o) ++
   positive_line (account_id o LedgerAccountType_INTEREST_RECEIVABLE) LedgerEntryDirection_CREDIT (ln_interest o) ++
   positive_line (account_id o LedgerAccountType_FEE_RECEIVABLE) LedgerEntryDirection_CREDIT (ln_fees o))%list.

Lemma net_write_off t : LoanCore o ->
  net (account_id o t) write_off_lines = written t o.
Proof.
  intros Hi. unfold net, write_off_lines, written. rewrite sum_by_cons, !sum_by_app.
  rewrite !positive_line_sum; [account_cases t|first [by apply (outstanding_nonneg _ Fee)|by apply (outstanding_nonneg _ Interest)|by apply (outstanding_nonneg _ Principal)|by cbn; case_decide]..].
Qed.
End nets.

(** ** Execution *)

(** What makes an execution possible. *)
Record execute_ready (o : Loan) (receipt : option AdapterReceipt) (now : Z) : Prop := {
  xr_rail : truthy (tm_poolObligationBindingId (ln_terms o)) = None;
  xr_status : ln_status o = ObligationStatus_CREATED;
  xr_pending : ex_executionStatus (ln_execution o) = ObligationExecutionStatus_PENDING;
  xr_receipt : exists rc, createSandboxExecutionReceipt o receipt now = Ok rc;
  xr_principal : amount_ok (tm_originalPrincipalMinor (ln_terms o)) }.

Record executes (o : Loan) (now : Z) (r : ExecutionResult) : Prop := {
  xe_was : ln_status o = ObligationStatus_CREATED /\ ex_executionStatus (ln_execution o) = ObligationExecutionStatus_PENDING;
  xe_inv : LoanInv (er_obligation r);
  xe_terms : ln_terms (er_obligation r) = ln_terms o;
  xe_balances : ln_balances (er_obligation r) = ln_balances o;
  xe_schedule : ln_schedule (er_obligation r) = ln_schedule o;
  xe_status : ln_status (er_obligation r) = ObligationStatus_ACTIVE;
  xe_executed : ex_executionStatus (ln_execution (er_obligation r)) = ObligationExecutionStatus_EXECUTED;
  xe_accrued : ex_lastAccruedAt (ln_execution (er_obligation r)) = Some now;
  xe_posting : posting_balanced (er_ledgerTransaction r) /\ posting_lines (er_ledgerTransaction r) = execution_lines o }.

Lemma executed_inv o rid now :
  LoanInv o -> ln_status o = ObligationStatus_CREATED ->
  LoanInv (MkLoan (ln_terms o) (ln_balances o) (ln_schedule o)
    (MkExecution ObligationExecutionStatus_EXECUTED (Some rid) (Some now) (Some now) (Some 0) (Some false)) (ln_servicing o)
    ObligationStatus_ACTIVE now).
Proof.
  intros [[] Ho Hs] Hst. rewrite Hst in Hs. split; [split; try done; by apply (shared_terms o)|cbn; set_solver|]. cbn.
  unfold servicing_wf in *. rewrite !andb_true_iff in *. destruct_and! Hs. split_and!; try done.
  match goal with E : bool_decide (_ ∈ allowedPairs _) = true |- _ => apply bool_decide_eq_true in E; apply bool_decide_eq_true; cbn in *; set_solver end.
Qed.

Lemma wp_executeSandboxObligation o receipt now y :
  LoanInv o ->
  wp (executeSandboxObligation o receipt now) (fun r _ => executes o now r) (fun _ _ => ~ execute_ready o receipt now) y.
Proof.
  intros Hi. unfold executeSandboxObligation.
  apply wp_bind, wp_lift; [by rewrite (assertSharedObligation_Ok _ (li_shared _ Hi))|intros _ _].
  apply wp_bind, wp_throw_if; [intros Hb [E _ _ _ _]; by rewrite E in Hb|intros _].
  apply wp_bind, wp_throw_if; [intros Hb [_ E1 E2 _ _]; by rewrite E1, E2 in Hb|].
  intros [H1%negb_false_iff%bool_decide_eq_true H2%negb_false_iff%bool_decide_eq_true]%orb_false_iff.
  apply wp_bind, wp_lift; [intros e He [_ _ _ (rc & E) _]; congruence|]. intros rc Hrc.
  destruct (ledger_accounts_Ok o now (li_shared _ Hi)) as (accts & Hac).
  apply wp_bind, wp_lift; [by rewrite Hac|]. rewrite Hac. intros accts' [= <-]. apply wp_bind.
  match goal with |- wp (createBalancedTransaction _ _ _ _ _ _ ?l _) _ _ _ => change l with (map line_input (execution_lines o)) end.
  pose proof (li_original _ Hi) as Ho. eapply wp_mono; [apply wp_createBalancedTransaction; by repeat constructor|..]; cbv beta.
  - intros p y' [Hp Hb]. apply wp_ret. split; cbn; try done. by apply executed_inv.
  - intros e y' He [_ _ _ _ Ea]. pose proof Ea as [E0 E1]. apply He. unfold execution_lines, line_debits. rewrite !sum_by_cons, !sum_by_nil. cbn.
    split_and!; [do 2 (constructor; [done|]); constructor|lia|repeat (case_decide; try done); lia].
Qed.

(** ** Write-off *)

Lemma write_off_lines_ok o :
  LoanCore o -> 0 < ln_outstanding o < 10 ^ 78 ->
  Forall (fun l => amount_ok (line_amount l)) (write_off_lines o) /\ sum_by line_signed (write_off_lines o) = 0 /\
  0 < line_debits (write_off_lines o).
Proof.
  intros Hi Hp. pose proof (outstanding_nonneg _ Fee Hi) as HF. pose proof (outstanding_nonneg _ Interest Hi) as HI.
  pose proof (outstanding_nonneg _ Principal Hi) as HP. cbn [outstanding_of] in *. unfold line_debits, write_off_lines.
  rewrite !sum_by_cons, !sum_by_app, !positive_line_sum by (first [done|cbn; by case_decide]).
  unfold ln_outstanding in *. cbn. split_and!; [|lia|repeat (case_decide; try done); lia].
  constructor; [unfold amount_ok; cbn; lia|]. rewrite !Forall_app. split_and!; apply positive_line_Forall; unfold amount_ok; lia.
Qed.

Lemma wp_createSandboxWriteOffTransaction o action now y :
  LoanInv o -> ex_executionStatus (ln_execution o) = ObligationExecutionStatus_EXECUTED ->
  wp (createSandboxWriteOffTransaction o action now)
    (fun p _ => posting_balanced p /\ posting_lines p = write_off_lines o)
    (fun _ _ => ~ (0 < ln_outstanding o < 10 ^ 78 /\ assertNonEmptyString "servicingActionId" (JStr action) = Ok ())) y.
Proof.
  intros Hi Hex. unfold createSandboxWriteOffTransaction.
  apply wp_bind, wp_lift; [by rewrite (assertSharedObligation_Ok _ (li_shared _ Hi))|intros _ _].
  apply wp_bind, wp_lift; [intros e He [_ E]; congruence|intros _ _]. destruct (li_executed _ Hi Hex) as [_ [ts Hts]]. rewrite Hts.
  destruct (ledger_accounts_Ok o ts (li_shared _ Hi)) as (accts & Hac). apply wp_bind, wp_lift; [by rewrite Hac|intros _ _].
  apply wp_bind, wp_throw_if; [intros; lia|]. intros Hne%Z.eqb_neq.
  match goal with |- wp (createBalancedTransaction _ _ _ _ _ _ ?l _) _ _ _ => replace l with (map line_input (write_off_lines o)) end.
  2: { unfold write_off_lines. cbn [map]. by rewrite !map_app, !positive_line_input. }
  eapply wp_mono; [apply wp_createBalancedTransaction|..]; cbv beta.
  - pose proof (outstanding_nonneg _ Fee Hi) as HF. pose proof (outstanding_nonneg _ Interest Hi) as HI.
    pose proof (outstanding_nonneg _ Principal Hi) as HP. cbn [outstanding_of] in *. unfold write_off_lines, ln_outstanding.
    constructor; [cbn; lia|]. rewrite !Forall_app. split_and!; apply (positive_line_Forall (fun z => 0 <= z)); lia.
  - by intros p y' [Hp Hb].
  - intros e y' He [Hb _]. apply He, write_off_lines_ok; [apply Hi|done].
Qed.

(** ** What a resolution that went through was given *)

Lemma shared_servicing_inv o b : assertSharedServicingObligation o b = Ok () ->
  b = true -> ex_executionStatus (ln_execution o) = ObligationExecutionStatus_EXECUTED.
Proof.
  unfold assertSharedServicingObligation. intros E ->. result_inv.
  match goal with E : _ || _ = false |- _ => apply orb_false_iff in E as [_ E] end.
  match goal with E : true && _ = false |- _ => by apply negb_false_iff, bool_decide_eq_true in E end.
Qed.

Lemma eligible_inv o l : assertResolutionEligible o l = Ok () ->
  ex_executionStatus (ln_execution o) = ObligationExecutionStatus_EXECUTED /\ ln_status o ∈ l.
Proof.
  unfold assertResolutionEligible. intros E. apply bind_Ok in E as ([] & E1 & E2). apply guard_Ok in E2.
  split; [by apply (shared_servicing_inv o true)|]. by apply negb_false_iff, bool_decide_eq_true in E2.
Qed.

Lemma resolve_inv o changed st c rt r prev now x :
  shared changed -> ln_installments changed <> [] -> resolve o changed st c rt r prev now = Ok x ->
  resolution_ok r /\
  servicing_wf (resolved_servicing (ln_servicing changed) c rt r now) (sc_scheduleSequence (ln_schedule changed)) st = true.
Proof.
  intros Hs Hne. unfold resolve. intros E.
  apply bind_Ok in E as ([] & E1 & E). apply bind_Ok in E as ([] & E2 & E). apply bind_Ok in E as ([] & E3 & E).
  apply bind_Ok in E as ([] & E4 & E). apply bind_Ok in E as (v & E5 & _). split; [done|].
  apply (assertServicingState_iff (set_servicing (resolved_servicing (ln_servicing changed) c rt r now) st now changed));
    [by apply (shared_terms changed)|done|].
  assert (v = true) as -> by (unfold assertSandboxServicingState in E5; by result_inv). exact E5.
Qed.

(** The times of requests: instants of the language, with room for a new term. *)
Definition time_ok (now : Z) : Prop := valid_instant now /\ valid_instant (now + 90 * DAY_MS).

Lemma restructured o days r now x :
  LoanInv o -> time_ok now -> restructureSandboxObligation o days r now = Ok x ->
  LoanInv (fst x) /\ ln_terms (fst x) = ln_terms o /\ ln_balances (fst x) = ln_balances o /\ ln_execution (fst x) = ln_execution o /\
  ex_executionStatus (ln_execution o) = ObligationExecutionStatus_EXECUTED /\
  ln_status o ∈ [ObligationStatus_DELINQUENT; ObligationStatus_DEFAULTED] /\ ln_status (fst x) = ObligationStatus_RESTRUCTURED.
Proof.
  intros Hi [Hn Hn90] E. pose proof E as E0. unfold restructureSandboxObligation in E. apply bind_Ok in E as ([] & Hel & E).
  apply bind_Ok in E as ([] & Hd%guard_Ok & E). destruct (eligible_inv _ _ Hel) as [Hex Hst].
  assert (Hdays : 1 <= days <= 90) by lia. apply resolve_inv in E as [Hr Hw]; [|apply (shared_terms o); [done|apply Hi]|done].
  assert (Hv : valid_instant (now + days * DAY_MS)) by (unfold valid_instant, DAY_MS in *; lia).
  apply wf_sequence in Hw as [Hsafe _].
  destruct (restructure_eq o days r now Hi Hex Hst Hdays Hr Hsafe Hv) as (o' & act & row & E1 & H1 & H2 & H3 & H4 & H5 & _).
  rewrite E1 in E0. injection E0 as <-. done.
Qed.

Lemma repurchased o owner r now x :
  LoanInv o -> repurchaseSandboxObligation o owner r now = Ok x ->
  LoanInv (fst x) /\ ln_terms (fst x) = ln_terms o /\ ln_balances (fst x) = ln_balances o /\ ln_execution (fst x) = ln_execution o /\
  ex_executionStatus (ln_execution o) = ObligationExecutionStatus_EXECUTED /\
  ln_status o ∈ [ObligationStatus_DELINQUENT; ObligationStatus_DEFAULTED; ObligationStatus_RESTRUCTURED] /\
  ln_status (fst x) = ObligationStatus_REPURCHASED.
Proof.
  intros Hi E. pose proof E as E0. unfold repurchaseSandboxObligation in E. apply bind_Ok in E as ([] & Hel & E).
  apply bind_Ok in E as ([] & _ & E). apply bind_Ok in E as ([] & Hown%guard_Ok & E). apply bool_decide_eq_false in Hown.
  destruct (eligible_inv _ _ Hel) as [Hex Hst]. pose proof (set_owner_inv owner o Hi) as Hi'.
  apply resolve_inv in E as [Hr _]; [|apply Hi'|apply (li_nonempty _ Hi')].
  destruct (repurchase_eq o owner r now Hi Hex Hst Hown Hr) as (o' & act & E1 & H1 & H2 & H3 & H4 & _ & H5 & _).
  rewrite E1 in E0. injection E0 as <-. done.
Qed.

Lemma written_off o r now x :
  LoanInv o -> writeOffSandboxObligation o r now = Ok x ->
  LoanInv (fst x) /\ ln_terms (fst x) = ln_terms o /\ ln_balances (fst x) = ln_balances o /\ ln_execution (fst x) = ln_execution o /\
  ex_executionStatus (ln_execution o) = ObligationExecutionStatus_EXECUTED /\
  ln_status o ∈ [ObligationStatus_DEFAULTED; ObligationStatus_RESTRUCTURED; ObligationStatus_REPURCHASED] /\
  ln_status (fst x) = ObligationStatus_WRITTEN_OFF.
Proof.
  intros Hi E. pose proof E as E0. unfold writeOffSandboxObligation in E. apply bind_Ok in E as ([] & Hel & E).
  apply bind_Ok in E as ([] & _ & E). destruct (eligible_inv _ _ Hel) as [Hex Hst].
  pose proof (set_written_off_inv (ln_principal o) (ln_interest o) (ln_fees o) o Hi) as Hi'.
  apply resolve_inv in E as [Hr _]; [|apply Hi'|apply (li_nonempty _ Hi')].
  destruct (writeOff_eq o r now Hi Hex Hst Hr) as (o' & act & E1 & H1 & H2 & H3 & H4 & _ & H5 & _).
  rewrite E1 in E0. injection E0 as <-. done.
Qed.

Lemma advanced o actorId now x :
  LoanInv o -> valid_instant now -> advanceSandboxServicing o actorId now = Ok x ->
  LoanInv (fst x) /\ ln_terms (fst x) = ln_terms o /\ ln_balances (fst x) = ln_balances o /\ ln_execution (fst x) = ln_execution o /\
  ex_executionStatus (ln_execution o) = ObligationExecutionStatus_EXECUTED /\ ln_status (fst x) <> ObligationStatus_WRITTEN_OFF.
Proof.
  intros Hi Hn E. pose proof E as E0. unfold advanceSandboxServicing in E. apply bind_Ok in E as ([] & Ha & E).
  apply bind_Ok in E as (d & Hd & _). unfold deriveSandboxServicing in Hd. apply bind_Ok in Hd as ([] & Hsh & _).
  apply shared_servicing_inv in Hsh as Hex; [|done].
  destruct (advance_eq o actorId now Hi Hex Hn Ha) as (o' & act & E1 & H1 & H2 & H3 & _ & H4 & H5 & _).
  rewrite E1 in E0. injection E0 as <-. cbn. split_and!; try done. rewrite H5. by apply derived_unwritten, basePerforming_cases.
Qed.

(** ** Every operation keeps the book *)

Lemma expected_same o o' t : ln_terms o' = ln_terms o -> ln_balances o' = ln_balances o -> expected o' t = expected o t.
Proof. intros Ht Hb. unfold expected, ln_principal, ln_interest, ln_fees, ln_repaid. by rewrite Ht, Hb. Qed.

Lemma distinct_terms o o' : ln_terms o' = ln_terms o -> accounts_distinct o -> accounts_distinct o'.
Proof. intros Ht Hd t1 t2. rewrite !(account_id_terms o o') by done. apply Hd. Qed.

(** An operation that posts nothing. *)
Lemma book_silent b o' :
  BookInv b -> LoanInv o' -> ln_terms o' = ln_terms (bk_loan b) -> ln_balances o' = ln_balances (bk_loan b) ->
  ln_execution o' = ln_execution (bk_loan b) ->
  ex_executionStatus (ln_execution (bk_loan b)) = ObligationExecutionStatus_EXECUTED ->
  ln_status o' <> ObligationStatus_WRITTEN_OFF -> BookInv (MkBook o' (bk_postings b) (bk_writeOffs b)).
Proof.
  intros [Hd Hi Hbal Hpen Hacc _] Hi' Ht Hb He Hex Hst. split; cbn [bk_loan bk_postings bk_writeOffs]; try done.
  - by eapply distinct_terms.
  - by rewrite He.
  - rewrite He. intros _ t. rewrite (account_id_terms _ _ _ Ht), (expected_same _ _ _ Ht Hb). by apply Hacc.
Qed.

Lemma book_execute b r now :
  BookInv b -> executes (bk_loan b) now r ->
  BookInv (MkBook (er_obligation r) (bk_postings b ++ [er_ledgerTransaction r])%list (bk_writeOffs b)).
Proof.
  intros [Hd Hi Hbal Hpen Hacc Hoff] [[Hw1 Hw2] Hi' Ht Hb Hs Hst Hex Hla [Hpb Hpl]].
  destruct Hpen as (_ & Hnil & Hwo); [by rewrite Hw2|]. destruct (li_pending _ Hi Hw2) as (P1 & P2 & P3 & P4 & P5).
  split; cbn [bk_loan bk_postings bk_writeOffs]; try done.
  - by eapply distinct_terms.
  - apply Forall_app. split; [done|by apply Forall_singleton].
  - intros _ t. unfold book_lines. cbn [bk_postings]. rewrite Hnil, Hwo, sum_by_nil. cbn [app flat_map]. rewrite app_nil_r, Hpl.
    rewrite (account_id_terms _ _ _ Ht), net_execution by done. rewrite (expected_same _ _ _ Ht Hb).
    destruct t; cbn; lia.
  - by rewrite Hst.
Qed.

(** The accounts after a repayment, from those before it. *)
Lemma expected_repaid o requested now a r t :
  LoanInv o -> accounts_distinct o -> repays o requested now a r ->
  expected (ro_obligation r) t = expected o t + net (account_id o t) (posting_lines (ro_ledgerTransaction r)) +
    match ro_interestTransaction r with Some p => net (account_id o t) (posting_lines p) | None => 0 end.
Proof.
  intros Hi Hd R. destruct (ry_posting _ _ _ _ _ R) as (_ & s & Hsh & Hl & S1 & S2 & S3).
  pose proof (ry_parts _ _ _ _ _ R) as Hparts. destruct (accrue_inv _ _ _ (ry_accrual _ _ _ _ _ R)) as (start & d & C).
  assert (Hcur : expected (al_obligation a) t = expected o t + match t with
    | LedgerAccountType_INTEREST_RECEIVABLE => al_accruedInterestMinor a
    | LedgerAccountType_SYNTHETIC_INTEREST_INCOME => - al_accruedInterestMinor a
    | _ => 0 end).
  { rewrite (ca_result _ _ _ _ _ C). destruct t; cbn; unfold ln_principal, ln_interest, ln_fees, ln_repaid; cbn; lia. }
  assert (Hip : match ro_interestTransaction r with Some p => net (account_id o t) (posting_lines p) | None => 0 end =
    expected (al_obligation a) t - expected o t).
  { rewrite Hcur. pose proof (ry_interest _ _ _ _ _ R) as Hint. destruct (ro_interestTransaction r) as [p|].
    - destruct Hint as [_ ->]. rewrite net_interest by done. destruct t; lia.
    - rewrite Hint. destruct t; lia. }
  rewrite Hip, Hl, net_repayment by done. clear Hip Hcur. destruct (ry_balances _ _ _ _ _ R) as (B1 & B2 & B3).
  pose proof (ry_accrued _ _ _ _ _ R). pose proof (ry_total _ _ _ _ _ R). pose proof (ry_terms _ _ _ _ _ R) as Ht.
  assert (Ht2 : ln_terms (al_obligation a) = ln_terms o) by (by rewrite (ca_result _ _ _ _ _ C)).
  assert (ln_repaid (al_obligation a) = ln_repaid o) by (by rewrite (ca_result _ _ _ _ _ C)).
  unfold sp_applied. destruct t; cbn [expected]; rewrite ?Ht, ?Ht2; lia.
Qed.

Lemma book_repay b requested now a r :
  BookInv b -> ex_executionStatus (ln_execution (bk_loan b)) = ObligationExecutionStatus_EXECUTED ->
  repays (bk_loan b) requested now a r ->
  BookInv (MkBook (ro_obligation r)
    (bk_postings b ++ ro_ledgerTransaction r :: match ro_interestTransaction r with Some p => [p] | None => [] end)%list (bk_writeOffs b)).
Proof.
  intros [Hd Hi Hbal Hpen Hacc Hoff] Hex R. pose proof (ry_terms _ _ _ _ _ R) as Ht. pose proof (ry_unwritten _ _ _ _ _ R) as Hunw.
  assert (Hex' : ex_executionStatus (ln_execution (ro_obligation r)) = ObligationExecutionStatus_EXECUTED).
  { rewrite (ry_execution _ _ _ _ _ R). destruct (accrue_inv _ _ _ (ry_accrual _ _ _ _ _ R)) as (start & d & C).
    by rewrite (ca_result _ _ _ _ _ C). }
  pose proof (ry_interest _ _ _ _ _ R) as Hint. destruct (ry_posting _ _ _ _ _ R) as [Hpb _].
  split; cbn [bk_loan bk_postings bk_writeOffs]; try done.
  - by eapply distinct_terms.
  - apply (ry_inv _ _ _ _ _ R).
  - apply Forall_app. split; [done|]. constructor; [done|]. destruct (ro_interestTransaction r); [|constructor].
    by apply Forall_singleton; destruct Hint.
  - intros _ t. unfold book_lines. cbn [bk_postings]. rewrite flat_map_app, net_app.
    rewrite (account_id_terms _ _ _ Ht). pose proof (Hacc Hex) as Hn. unfold book_lines in Hn. rewrite Hn.
    rewrite (expected_repaid _ _ _ _ _ t Hi Hd R). cbn [flat_map]. rewrite net_app.
    destruct (ro_interestTransaction r); cbn [flat_map]; rewrite ?app_nil_r; [lia|]. unfold net at 2. rewrite sum_by_nil. lia.
Qed.

Lemma book_write_off b o' p :
  BookInv b -> LoanInv o' -> ln_terms o' = ln_terms (bk_loan b) -> ln_balances o' = ln_balances (bk_loan b) ->
  ln_execution o' = ln_execution (bk_loan b) ->
  ex_executionStatus (ln_execution (bk_loan b)) = ObligationExecutionStatus_EXECUTED ->
  ln_status o' = ObligationStatus_WRITTEN_OFF -> posting_balanced p -> posting_lines p = write_off_lines (bk_loan b) ->
  BookInv (MkBook o' (bk_postings b ++ [p])%list (bk_writeOffs b ++ [bk_loan b])%list).
Proof.
  intros [Hd Hi Hbal Hpen Hacc _] Hi' Ht Hb He Hex Hst Hpb Hpl. split; cbn [bk_loan bk_postings bk_writeOffs]; try done.
  - by eapply distinct_terms.
  - apply Forall_app. split; [done|by apply Forall_singleton].
  - by rewrite He.
  - intros _ t. unfold book_lines. cbn [bk_postings]. rewrite flat_map_app, net_app. cbn [flat_map]. rewrite app_nil_r, Hpl.
    rewrite (account_id_terms _ _ _ Ht), net_write_off by (done || apply Hi). pose proof (Hacc Hex) as Hn. unfold book_lines in Hn.
    rewrite Hn, (expected_same _ _ _ Ht Hb), sum_by_app, sum_by_cons, sum_by_nil. lia.
  - intros _. rewrite He. split; [done|]. by exists (bk_writeOffs b), (bk_loan b).
Qed.

(** Written off once and still so: the receivables are gone and the loss account
    holds what the loan shows. *)
Lemma written_off_accounts b w t :
  BookInv b -> bk_writeOffs b = [w] -> ln_status (bk_loan b) = ObligationStatus_WRITTEN_OFF ->
  net (account_id (bk_loan b) t) (book_lines b) = expected_off (bk_loan b) t.
Proof.
  intros Hb Hw Hst. destruct (bi_written_off _ Hb Hst) as (Hex & ws & w' & E & Hbal). rewrite (bi_accounts _ Hb Hex t), Hw.
  rewrite Hw in E. destruct ws as [|? [|]]; [|discriminate E..]. injection E as <-. rewrite sum_by_cons, sum_by_nil.
  destruct t; cbn [expected_off expected written]; unfold ln_outstanding, ln_principal, ln_interest, ln_fees in *; rewrite ?Hbal; lia.
Qed.

Lemma wp_book_op b op now y : BookInv b -> time_ok now -> wp (book_op b op now) (fun b' _ => BookInv b') (fun _ _ => True) y.
Proof.
  intros Hb Hn. pose proof (bi_loan _ Hb) as Hi. destruct op as [receipt|amount source actor|actor|days r|owner r|r]; cbn [book_op].
  - apply wp_bind. eapply wp_mono; [by apply wp_executeSandboxObligation| |done]. intros r y' Hr. apply wp_ret. by apply (book_execute _ _ now).
  - apply wp_bind. eapply wp_mono; [apply wp_postSandboxRepayment; [done|apply Hn]| |done]. intros r y' (a & requested & _ & Hr). apply wp_ret.
    destruct (accrue_inv _ _ _ (ry_accrual _ _ _ _ _ Hr)) as (start & d & C). eapply book_repay; [done|apply C|done].
  - apply wp_bind, wp_lift; [done|]. intros x Hx. apply wp_ret.
    destruct (advanced _ _ _ _ Hi (proj1 Hn) Hx) as (H1 & H2 & H3 & H4 & H5 & H6). by apply book_silent.
  - apply wp_bind, wp_lift; [done|]. intros x Hx. apply wp_ret.
    destruct (restructured _ _ _ _ _ Hi Hn Hx) as (H1 & H2 & H3 & H4 & H5 & _ & H6). apply book_silent; try done. by rewrite H6.
  - apply wp_bind, wp_lift; [done|]. intros x Hx. apply wp_ret.
    destruct (repurchased _ _ _ _ _ Hi Hx) as (H1 & H2 & H3 & H4 & H5 & _ & H6). apply book_silent; try done. by rewrite H6.
  - apply wp_bind, wp_lift; [done|]. intros x Hx. destruct (written_off _ _ _ _ Hi Hx) as (H1 & H2 & H3 & H4 & H5 & _ & H6).
    apply wp_bind. eapply wp_mono; [by apply wp_createSandboxWriteOffTransaction| |done]. intros p y' [Hpb Hpl]. apply wp_ret.
    by apply book_write_off.
Qed.

Lemma run_book_inv ops b y : BookInv b -> Forall (fun x => time_ok (snd x)) ops -> BookInv (fst (run_book b ops y)).
Proof.
  revert b y. induction ops as [|[op now] ops IH]; intros b y Hb Ht; [done|]. apply Forall_cons in Ht as [Hn Ht]. cbn [run_book].
  pose proof (wp_book_op b op now y Hb Hn) as Hw. unfold wp in Hw. destruct (book_op b op now y) as [[b'|e] y']; by apply IH.
Qed.

(** ** From acceptance on *)

Context {Hdate : DateLaws}.

Lemma fresh_rows offer first maturity rows :
  schedule_good offer first maturity rows ->
  Forall row_ok rows /\ unpaid_total Principal rows = of_approvedPrincipalMinor offer /\ unpaid_total Interest rows = 0 /\
  unpaid_total Fee rows = 0.
Proof.
  intros G. rewrite <- (sg_principal _ _ _ _ G). pose proof (sg_fresh _ _ _ _ G) as Hf. clear G. unfold unpaid_total.
  induction Hf as [|r rows (F1 & F2 & F3 & F4 & F5 & F6) Hf (IH1 & IH2 & IH3 & IH4)]; [by split_and!|].
  rewrite !sum_by_cons, IH2, IH3, IH4. unfold unpaid, scheduled, paid. rewrite F2, F3, F4, F5, F6.
  split_and!; [constructor; [|done]|lia..]. intros []; cbn; lia.
Qed.

(** An accepted offer becomes a loan that satisfies the invariant. *)
Lemma wp_createAcceptedOfferObligation offer intent decision acceptance now y :
  0 <= of_approvedPrincipalMinor offer -> 0 <= of_annualRateBps offer ->
  wp (createAcceptedOfferObligation offer intent decision acceptance now)
    (fun o _ => LoanInv o /\ ex_executionStatus (ln_execution o) = ObligationExecutionStatus_PENDING /\
       ln_status o = ObligationStatus_CREATED /\ ln_principal o = of_approvedPrincipalMinor offer) (fun _ _ => True) y.
Proof.
  intros Hp Hrate. unfold createAcceptedOfferObligation. apply wp_bind, wp_lift; [done|intros _ _].
  apply wp_bind, wp_throw_if; [done|intros _]. apply wp_bind, wp_createOperationalId. apply wp_bind, wp_lift; [done|].
  intros [hash rows] Hrows. apply wp_bind, wp_lift; [done|intros _ _]. apply wp_ret.
  destruct (schedule_sound _ _ _ _ Hp Hrows) as (first & maturity & Hf & Hm & Hpos & G).
  destruct (fresh_rows _ _ _ _ G) as (Hok & U1 & U2 & U3). split_and!; [|done..]. split; [split; try done|cbn; set_solver|unfold servicing_wf; cbn; by rewrite ?orb_true_r].
  - eapply Forall_impl; [exact (sg_due _ _ _ _ G)|]. intros r Hr. cbn in Hr. apply date_parse_range in Hf, Hm. unfold valid_instant in *. lia.
  - apply (sg_nonempty _ _ _ _ G).
  - intros []; [exact U3|exact U2|exact U1].
  - cbn. unfold charged, ln_outstanding, ln_principal, ln_interest, ln_fees, ln_repaid. cbn. lia.
Qed.

(** C4: a loan and its ledger agree up to what was written off. From the acceptance
    of an offer, through any sequence of executions, repayments, servicing advances,
    restructurings, repurchases and write-offs, of which any may be refused, every
    posted transaction balances, the balances of the loan are what its
    installments still owe, and, once the loan is executed, the debit balance of
    each ledger account is the amount the loan shows (principal, interest and fees
    still owed, what was repaid, the principal funded and the interest accrued)
    less, for the receivables, what each write-off took when it was made, the loss
    account holding the sum of what the write-offs took.  The loan itself keeps
    showing what was written off: while it is written off, what it shows is what
    the last write-off took, so that after a single one the receivables are zero
    and the loss account holds what the loan shows.  That is not so of a loan that
    servicing reopened, which can be written off again. *)
Theorem loan_book_reconciles offer intent decision acceptance now y o y' ops :
  0 <= of_approvedPrincipalMinor offer -> 0 <= of_annualRateBps offer ->
  createAcceptedOfferObligation offer intent decision acceptance now y = (Ok o, y') ->
  accounts_distinct o -> Forall (fun x => time_ok (snd x)) ops ->
  let b := fst (run_book (MkBook o [] []) ops y') in
  BookInv b /\
  forall w t, bk_writeOffs b = [w] -> ln_status (bk_loan b) = ObligationStatus_WRITTEN_OFF ->
    net (account_id (bk_loan b) t) (book_lines b) = expected_off (bk_loan b) t.
Proof.
  intros Hp Hrate Hc Hd Ht. pose proof (wp_createAcceptedOfferObligation offer intent decision acceptance now y Hp Hrate) as Hw.
  unfold wp in Hw. rewrite Hc in Hw. destruct Hw as (Hi & Hpen & Hst & _).
  assert (Hb : BookInv (MkBook o [] [])).
  { split; cbn [bk_loan bk_postings bk_writeOffs]; try done; [by rewrite Hpen|by rewrite Hst]. }
  pose proof (run_book_inv ops _ y' Hb Ht) as Hb'. split; [done|]. intros w t. by apply written_off_accounts.
Qed.
End book.
