(* ===== verification/AcceptanceProps.v ===== *)
(** * Accepting an offer: theorems

    When an offer can be accepted, and what an acceptance changes. *)

From stdpp Require Import base tactics sets relations gmap numbers strings list.
From S2P Require Import Prelude Js Enums EventStore Service Mandate Loan.
Local Open Scope string_scope.
Local Open Scope Z_scope.

Lemma guard_then {A} c code text (r : result A) a : (guard c code text ;; r) = Ok a <-> c = false /\ r = Ok a.
Proof. unfold guard. destruct c; cbn; [|by intuition]. split; [done|by intros [? _]]. Qed.

Section acceptance.
Context `{Platform}.

(** ** The offer *)

Lemma accept_inv offer h t id now offer' :
  acceptCreditOffer offer h t id now = Ok offer' ->
  HASH_PATTERN h = true /\ HASH_PATTERN t = true /\ of_status offer = CreditOfferStatus_OFFERED /\
  from_date now (of_validUntil offer) = false /\ of_creditOfferHash offer = h /\ of_termsHash offer = t /\
  of_status offer' = CreditOfferStatus_ACCEPTED.
Proof.
  unfold acceptCreditOffer, assertHash, assertNonEmptyString. rewrite !guard_then, !orb_false_iff, !negb_false_iff.
  rewrite bool_decide_eq_true, !String.eqb_eq. intros (H1 & H2 & _ & H3 & H4 & [H5 H6] & [= <-]). done.
Qed.

(** C29: an offer is accepted only while it stands and is not expired, under the
    exact hashes of the offer and its terms, and only once: no second acceptance
    of an accepted offer goes through, whatever it is given.  The acceptance
    changes the status and the acceptance fields only. *)
Theorem offer_accepted_once offer h t id now offer' :
  acceptCreditOffer offer h t id now = Ok offer' ->
  of_status offer = CreditOfferStatus_OFFERED /\ from_date now (of_validUntil offer) = false /\
  of_creditOfferHash offer = h /\ of_termsHash offer = t /\ HASH_PATTERN h = true /\ HASH_PATTERN t = true /\
  offer' = MkCreditOffer (of_schemaVersion offer) (of_creditOfferId offer) h t (of_creditIntentId offer) (of_riskDecisionId offer)
    (of_subjectId offer) (of_assetId offer) (of_approvedPrincipalMinor offer) (of_annualRateBps offer) (of_originationFeeMinor offer)
    (of_repaymentFrequency offer) (of_installmentCount offer) (of_firstPaymentAt offer) (of_maturityAt offer) (of_validUntil offer)
    (of_reasonCodes offer) (of_disclosureRef offer) CreditOfferStatus_ACCEPTED (Some id) (Some now) (of_createdAt offer) now (of_sandboxOnly offer) (of_productionFundsApproved offer) /\
  forall h2 t2 id2 now2, is_ok (acceptCreditOffer offer' h2 t2 id2 now2) = false.
Proof.
  intros E. destruct (accept_inv _ _ _ _ _ _ E) as (H1 & H2 & H3 & H4 & H5 & H6 & H7). split_and!; try done.
  - unfold acceptCreditOffer in E. rewrite !bind_Ok in E. revert E. unfold assertHash, assertNonEmptyString.
    intros (? & _ & E). repeat (apply bind_Ok in E as (? & _ & E)). injection E as <-. by rewrite H5, H6.
  - intros h2 t2 id2 now2. destruct (acceptCreditOffer offer' h2 t2 id2 now2) as [o|] eqn:E2; [|done].
    apply accept_inv in E2 as (_ & _ & E2 & _). congruence.
Qed.
End acceptance.
