(* ===== verification/Application.v ===== *)
(** * Credit applications: intent, evidence, decision and offer

    src/packages/domain/src/credit-contracts.js, risk-evidence.js and
    credit-decision.js.  The arguments are typed, so the checks that a value is a
    string, a boolean, an array or an object with exactly the expected keys do not
    arise; [null] is [None].  A term is an integer, and [Math.ceil] of a quotient
    of two integers is the integer quotient rounded up, which is exact for terms
    below 2^40; the decision admits terms up to 366 days. *)

From stdpp Require Import base tactics sets relations gmap numbers strings list.
From S2P Require Import Prelude Js Enums EventStore Service Mandate Loan Servicing.
Local Open Scope string_scope.
Local Open Scope Z_scope.

(** ** Intents and offers *)

(** [/^[a-z][a-z0-9_.-]{1,n}$/] *)
Definition is_code_char (c : Ascii.ascii) : bool := is_namespace_char c || (code c =? 95) || (code c =? 46).
Definition code_pattern (n : nat) (s : string) : bool :=
  match s with
  | EmptyString => false
  | String c s => is_lower c && all_chars is_code_char s && (1 <=? String.length s)%nat && (String.length s <=? n)%nat
  end.
Definition PURPOSE_CODE_PATTERN : string -> bool := code_pattern 63.
Definition REASON_CODE_PATTERN : string -> bool := code_pattern 95.
Definition MAX_TERM_DAYS : Z := 3660.
Definition MAX_INSTALLMENTS : Z := 520.
Definition MAX_ANNUAL_RATE_BPS : Z := 100000.
Definition MAX_REASON_CODES : nat := 16.

Definition assertSafeIntegerRange (name : string) (value minimum maximum : Z) : result unit :=
  guard (negb (isSafeInteger value) || (value <? minimum) || (maximum <? value)) "invalid_credit_term"
    (name +:+ " must be an integer between " +:+ toString minimum +:+ " and " +:+ toString maximum).

Definition assertCode (name value : string) (pattern : string -> bool) : result unit :=
  assertNonEmptyString name (JStr value) ;;
  guard (negb (pattern value)) "invalid_credit_code" (name +:+ " must use a stable machine-readable code").

Fixpoint assert_codes (values : list string) : result unit :=
  match values with
  | [] => Ok ()
  | value :: values => assertCode "reasonCode" value REASON_CODE_PATTERN ;; assert_codes values
  end.

Definition uniqueReasonCodes (values : list string) : result (list string) :=
  guard ((length values =? 0)%nat || (MAX_REASON_CODES <? length values)%nat) "invalid_credit_reason_codes"
    "reasonCodes must contain between 1 and 16 values" ;;
  assert_codes values ;;
  guard (negb (bool_decide (NoDup values))) "duplicate_credit_reason_code" "reasonCodes cannot contain duplicates" ;;
  Ok values.

Record NewIntent := MkNewIntent {
  ni_subjectId : string; ni_principalId : string; ni_authorityType : CreditAuthorityType; ni_authorityRef : string;
  ni_assetId : string; ni_requestedPrincipalMinor : minor; ni_purposeCode : string; ni_requestedTermDays : Z;
  ni_repaymentFrequency : RepaymentFrequency; ni_installmentCount : Z }.

Record NewOffer := MkNewOffer {
  no_creditOfferId : option string; no_creditIntentId : string; no_subjectId : string; no_riskDecisionId : string;
  no_assetId : string; no_approvedPrincipalMinor : minor; no_annualRateBps : Z; no_originationFeeMinor : minor;
  no_repaymentFrequency : RepaymentFrequency; no_installmentCount : Z; no_firstPaymentAt : string; no_maturityAt : string;
  no_validUntil : string; no_reasonCodes : list string; no_disclosureRef : string }.

Section application.
Context `{Platform}.

(** The name is qualified in the source by its module; protocol-v2.js has its own. *)
Definition credit_parseTimestamp (name value : string) : result Z :=
  assertNonEmptyString name (JStr value) ;;
  match date_parse value with
  | Some t => Ok t
  | None => fail "invalid_credit_timestamp" (name +:+ " must be an ISO timestamp")
  end.

Definition intent_core (i : NewIntent) : list (string * json) :=
  [("subjectId", JStr (ni_subjectId i)); ("principalId", JStr (ni_principalId i));
   ("authorityType", JStr (value (ni_authorityType i))); ("authorityRef", JStr (ni_authorityRef i));
   ("assetId", JStr (ni_assetId i)); ("requestedPrincipalMinor", json_of_minor (ni_requestedPrincipalMinor i));
   ("purposeCode", JStr (ni_purposeCode i)); ("requestedTermDays", JNum (ni_requestedTermDays i));
   ("repaymentFrequency", JStr (value (ni_repaymentFrequency i))); ("installmentCount", JNum (ni_installmentCount i));
   ("sandboxOnly", JBool true); ("productionFundsRequested", JBool false)].

Definition createCreditIntent (i : NewIntent) (now : Z) : M Sys CreditIntent :=
  lift (assertNonEmptyString "subjectId" (JStr (ni_subjectId i))) ;;
  lift (assertNonEmptyString "principalId" (JStr (ni_principalId i))) ;;
  lift (assertNonEmptyString "authorityRef" (JStr (ni_authorityRef i))) ;;
  lift (assertNonEmptyString "assetId" (JStr (ni_assetId i))) ;;
  lift (assertEnumValue "authorityType" (value (ni_authorityType i)) (enumValues CreditAuthorityType)) ;;
  lift (assertEnumValue "repaymentFrequency" (value (ni_repaymentFrequency i)) (enumValues RepaymentFrequency)) ;;
  principal ← lift (assertPositiveMinorUnits (ni_requestedPrincipalMinor i) "requestedPrincipalMinor");
  lift (assertCode "purposeCode" (ni_purposeCode i) PURPOSE_CODE_PATTERN) ;;
  lift (assertSafeIntegerRange "requestedTermDays" (ni_requestedTermDays i) 1 MAX_TERM_DAYS) ;;
  lift (assertSafeIntegerRange "installmentCount" (ni_installmentCount i) 1 MAX_INSTALLMENTS) ;;
  lift (assertNoRawPiiReference (JObj (intent_core i))) ;;
  creditIntentId ← createOperationalId "credit_intent";
  mret (MkCreditIntent "credit_intent.v1" creditIntentId (hashId "credit_intent" (JObj (intent_core i))) (ni_subjectId i)
    (ni_principalId i) (ni_authorityType i) (ni_authorityRef i) (ni_assetId i) principal (ni_purposeCode i)
    (ni_requestedTermDays i) (ni_repaymentFrequency i) (ni_installmentCount i) CreditIntentStatus_SUBMITTED true false now now).

Definition terms_core (i : NewOffer) (firstPaymentAt maturityAt : string) : list (string * json) :=
  [("assetId", JStr (no_assetId i)); ("approvedPrincipalMinor", json_of_minor (no_approvedPrincipalMinor i));
   ("annualRateBps", JNum (no_annualRateBps i)); ("originationFeeMinor", json_of_minor (no_originationFeeMinor i));
   ("repaymentFrequency", JStr (value (no_repaymentFrequency i))); ("installmentCount", JNum (no_installmentCount i));
   ("firstPaymentAt", JStr firstPaymentAt); ("maturityAt", JStr maturityAt); ("disclosureRef", JStr (no_disclosureRef i));
   ("termsVersion", JStr "credit_terms.v1")].

Definition offer_core (i : NewOffer) (firstPaymentAt maturityAt validUntil : string) (reasonCodes : list string)
    : list (string * json) :=
  [("creditIntentId", JStr (no_creditIntentId i)); ("subjectId", JStr (no_subjectId i));
   ("riskDecisionId", JStr (no_riskDecisionId i))] ++ terms_core i firstPaymentAt maturityAt ++
  [("validUntil", JStr validUntil); ("reasonCodes", JArr (map JStr reasonCodes)); ("sandboxOnly", JBool true);
   ("productionFundsApproved", JBool false)].

Definition createCreditOffer (i : NewOffer) (now : Z) : M Sys CreditOffer :=
  lift (assertNonEmptyString "creditIntentId" (JStr (no_creditIntentId i))) ;;
  lift (assertNonEmptyString "subjectId" (JStr (no_subjectId i))) ;;
  lift (assertNonEmptyString "riskDecisionId" (JStr (no_riskDecisionId i))) ;;
  lift (assertNonEmptyString "assetId" (JStr (no_assetId i))) ;;
  lift (assertNonEmptyString "disclosureRef" (JStr (no_disclosureRef i))) ;;
  principal ← lift (assertPositiveMinorUnits (no_approvedPrincipalMinor i) "approvedPrincipalMinor");
  fee ← lift (assertNonNegativeMinorUnits (no_originationFeeMinor i) "originationFeeMinor");
  throw_if (principal <? fee) "invalid_credit_fee" "originationFeeMinor cannot exceed approvedPrincipalMinor" ;;
  lift (assertSafeIntegerRange "annualRateBps" (no_annualRateBps i) 0 MAX_ANNUAL_RATE_BPS) ;;
  lift (assertEnumValue "repaymentFrequency" (value (no_repaymentFrequency i)) (enumValues RepaymentFrequency)) ;;
  lift (assertSafeIntegerRange "installmentCount" (no_installmentCount i) 1 MAX_INSTALLMENTS) ;;
  first ← lift (credit_parseTimestamp "firstPaymentAt" (no_firstPaymentAt i));
  maturity ← lift (credit_parseTimestamp "maturityAt" (no_maturityAt i));
  validUntil ← lift (credit_parseTimestamp "validUntil" (no_validUntil i));
  throw_if (validUntil <=? now) "expired_credit_offer" "validUntil must be after offer creation" ;;
  throw_if (first <=? now) "invalid_credit_schedule" "firstPaymentAt must be after offer creation" ;;
  throw_if (maturity <? first) "invalid_credit_schedule" "maturityAt cannot precede firstPaymentAt" ;;
  reasonCodes ← lift (uniqueReasonCodes (no_reasonCodes i));
  let terms := JObj (terms_core i (toISOString first) (toISOString maturity)) in
  let core := JObj (offer_core i (toISOString first) (toISOString maturity) (toISOString validUntil) reasonCodes) in
  lift (assertNoRawPiiReference core) ;;
  creditOfferId ← match no_creditOfferId i with Some id => mret id | None => createOperationalId "credit_offer" end;
  mret (MkCreditOffer "credit_offer.v1" creditOfferId (hashId "credit_offer" core) (hashId "credit_terms" terms)
    (no_creditIntentId i) (no_riskDecisionId i) (no_subjectId i) (no_assetId i) principal (no_annualRateBps i) fee
    (no_repaymentFrequency i) (no_installmentCount i) (toISOString first) (toISOString maturity) (toISOString validUntil)
    reasonCodes (no_disclosureRef i) CreditOfferStatus_OFFERED None None now now true false).
End application.
