(* ===== verification/Decision.v ===== *)
(** * Credit decisions

    src/packages/domain/src/risk-evidence.js and credit-decision.js: the feature
    snapshot, the closed policy, the decision, its passport and the offer. *)

From stdpp Require Import base tactics sets relations gmap numbers strings list.
From S2P Require Import Prelude Js Enums EventStore Service Mandate Loan Servicing Application.
Local Open Scope string_scope.
Local Open Scope Z_scope.

(** ** Evidence *)

Definition FEATURE_SET_VERSION : string := "credit-application-evidence-features.v1".
Definition RISK_STATE_QUERY_VERSION : string := "credit-application-risk-state.v1".
Definition SOURCE_ROLES : list string := ["credit_intent"; "subject"; "principal"; "authority"; "human_identity_reference"].

(** For each reason, the features and the sources it rests on. *)
Definition CREDIT_REASON_LINEAGE : list (string * (list string * list string)) :=
  [("authority_scope_current", (["authorityCurrent"], ["authority"]));
   ("principal_and_subject_eligible", (["subjectEligible"; "principalEligible"], ["subject"; "principal"]));
   ("identity_evidence_current", (["identityEvidenceCurrent"], ["authority"; "human_identity_reference"]));
   ("principal_binding_current", (["principalBindingCurrent"], ["subject"; "principal"; "authority"]));
   ("no_adverse_obligation", (["adverseObligationCount"; "frozenCreditLineCount"], ["risk_state_attestation"]));
   ("within_sandbox_policy_cap",
     (["assetSupported"; "principalWithinCap"; "termWithinCap"; "scheduleValid"], ["credit_intent"]));
   ("sandbox_rules_v1_approved", (["allRequiredFeaturesSatisfied"], ["credit_intent"; "risk_state_attestation"]));
   ("application_not_eligible", (["subjectEligible"; "principalEligible"], ["subject"; "principal"]));
   ("authority_not_current", (["authorityCurrent"], ["authority"]));
   ("identity_evidence_not_current", (["identityEvidenceCurrent"], ["authority"; "human_identity_reference"]));
   ("adverse_obligation_open", (["adverseObligationCount"], ["risk_state_attestation"]));
   ("credit_state_frozen", (["subjectSuspended"; "frozenCreditLineCount"], ["subject"; "risk_state_attestation"]));
   ("sandbox_cap_exceeded", (["principalWithinCap"; "termWithinCap"], ["credit_intent"]));
   ("unsupported_sandbox_asset", (["assetSupported"], ["credit_intent"]));
   ("invalid_requested_schedule", (["scheduleValid"], ["credit_intent"]))].

Record EligibilityFacts := MkEligibilityFacts {
  ef_subjectEligible : bool; ef_subjectSuspended : bool; ef_principalEligible : bool; ef_authorityCurrent : bool;
  ef_identityEvidenceCurrent : option bool; ef_principalBindingCurrent : option bool }.

Definition invalidEvidence {A} (message : string) : result A := fail "invalid_risk_evidence" message.
Definition evidence_guard (c : bool) (message : string) : result unit := guard c "invalid_risk_evidence" message.

Definition risk_assertHash (name value : string) : result unit :=
  evidence_guard (negb (HASH_PATTERN value)) (name +:+ " must be a lowercase bytes32 value").

Definition assertCount (name : string) (value : Z) : result unit :=
  evidence_guard (negb (isSafeInteger value) || (value <? 0)) (name +:+ " must be a non-negative safe integer").

(** [SOURCE_ROLES.indexOf(role)] *)
Fixpoint index_of (role : string) (n : Z) (l : list string) : Z :=
  match l with [] => -1 | r :: l => if String.eqb r role then n else index_of role (n + 1) l end.

(** The callback of [sourceEvidence.map], on every entry. *)
Fixpoint check_sources (l : list SourceEvidence) : result unit :=
  match l with
  | [] => Ok ()
  | s :: l =>
      evidence_guard (negb (bool_decide (se_role s ∈ SOURCE_ROLES))) "source evidence role is unsupported" ;;
      evidence_guard ((String.length (se_entityType s) <? 1)%nat || (64 <? String.length (se_entityType s))%nat ||
                      (String.length (se_eventId s) <? 1)%nat || (256 <? String.length (se_eventId s))%nat)
        "source evidence identity is invalid" ;;
      evidence_guard (negb (isSafeInteger (se_aggregateVersion s)) || (se_aggregateVersion s <? 1))
        "source evidence aggregateVersion is invalid" ;;
      evidence_guard (negb (String.eqb (se_sourceFinality s) "finalized")) "source evidence must be finalized" ;;
      risk_assertHash "entityIdHash" (se_entityIdHash s) ;;
      risk_assertHash "entityHash" (se_entityHash s) ;;
      risk_assertHash "evidenceHash" (se_evidenceHash s) ;;
      check_sources l
  end.

Definition normalizeSourceEvidence (sourceEvidence : list SourceEvidence) : result (list SourceEvidence) :=
  evidence_guard ((length sourceEvidence <? 1)%nat || (5 <? length sourceEvidence)%nat)
    "sourceEvidence must contain between one and five entries" ;;
  check_sources sourceEvidence ;;
  let normalized := stable_sort (fun left right =>
    Z.compare (index_of (se_role left) 0 SOURCE_ROLES) (index_of (se_role right) 0 SOURCE_ROLES)) sourceEvidence in
  evidence_guard (negb (bool_decide (NoDup (map se_role normalized)))) "source evidence roles must be unique" ;;
  evidence_guard (negb (bool_decide (se_role <$> head normalized = Some "credit_intent")))
    "credit_intent source Evidence is required" ;;
  Ok normalized.

Definition requireSource (sourceRoles : list string) (role : string) (condition : bool) : result unit :=
  evidence_guard (condition && negb (bool_decide (role ∈ sourceRoles)))
    (role +:+ " source Evidence is required for a positive feature").

(** [x === true] *)
Definition is_true (x : option bool) : bool := match x with Some true => true | _ => false end.
Definition tri_json (x : option bool) : json := match x with Some b => JBool b | None => JNull end.

(** ** The policy *)

Record DecisionPolicy := MkDecisionPolicy {
  po_assetId : string; po_maximumPrincipalMinor : Z; po_maximumTermDays : Z; po_originationFeeMinor : Z;
  po_offerValidityMs : Z; po_disclosureRef : string; po_modelVersion : string }.

Definition SANDBOX_CREDIT_DECISION_POLICY : DecisionPolicy :=
  MkDecisionPolicy "urn:ipo-one:sandbox-asset:usd-cent" 500000 366 0 86400000 "urn:ipo.one:sandbox:credit-offer-disclosure:v1"
    "credit-application-rules.v1".

Definition APPROVED_common : list string := ["authority_scope_current"; "principal_and_subject_eligible"].
Definition APPROVED_human : string := "identity_evidence_current".
Definition APPROVED_agent : string := "principal_binding_current".
Definition APPROVED_tail : list string := ["no_adverse_obligation"; "within_sandbox_policy_cap"; "sandbox_rules_v1_approved"].
Definition APPROVED : list string := APPROVED_common ++ [APPROVED_human; APPROVED_agent] ++ APPROVED_tail.
Definition DENIED_CREDIT_REASON_CODES : list string :=
  ["application_not_eligible"; "authority_not_current"; "identity_evidence_not_current"; "adverse_obligation_open";
   "credit_state_frozen"; "sandbox_cap_exceeded"; "unsupported_sandbox_asset"; "invalid_requested_schedule"].

Definition strings (l : list string) : json := JArr (map JStr l).

Definition SANDBOX_CREDIT_POLICY_MANIFEST : json :=
  let p := SANDBOX_CREDIT_DECISION_POLICY in
  let band days bps := JObj [("maximumTermDays", JNum days); ("annualRateBps", JNum bps)] in
  JObj [("policyVersion", JStr (po_modelVersion p)); ("featureSetVersion", JStr FEATURE_SET_VERSION);
        ("assetId", JStr (po_assetId p)); ("maximumPrincipalMinor", money (po_maximumPrincipalMinor p));
        ("maximumTermDays", JNum (po_maximumTermDays p)); ("originationFeeMinor", money (po_originationFeeMinor p));
        ("offerValidityMs", JNum (po_offerValidityMs p)); ("disclosureRef", JStr (po_disclosureRef p));
        ("annualRateBands", JArr [band 30 600; band 90 900; band 180 1200; band 366 1500]);
        ("approvedReasonCodes", strings APPROVED); ("deniedReasonCodes", strings DENIED_CREDIT_REASON_CODES);
        ("reasonLineage", JObj (map (fun '(code, (keys, roles)) =>
           (code, JObj [("featureKeys", strings keys); ("sourceRoles", strings roles)])) CREDIT_REASON_LINEAGE))].

Definition expectedInstallmentCount (repaymentFrequency : RepaymentFrequency) (termDays : Z) : result Z :=
  guard (negb (isSafeInteger termDays) || (termDays <? 1)) "invalid_credit_term" "requestedTermDays must be a positive integer" ;;
  match repaymentFrequency with
  | RepaymentFrequency_END_OF_TERM => Ok 1
  | f => match INTERVAL_DAYS f with
         | Some interval => Ok (- (- termDays / interval))
         | None => fail "invalid_credit_schedule" "repaymentFrequency is not supported"
         end
  end.

Definition annualRateBpsForTerm (termDays : Z) : result Z :=
  guard (negb (isSafeInteger termDays) || (termDays <? 1) || (366 <? termDays)) "invalid_credit_term"
    "sandbox term must be between 1 and 366 days" ;;
  Ok (if termDays <=? 30 then 600 else if termDays <=? 90 then 900 else if termDays <=? 180 then 1200 else 1500).

(** The intent as an object, for the check for personal data. *)
Definition intent_json (i : CreditIntent) : json :=
  JObj [("creditIntentId", JStr (it_creditIntentId i)); ("creditIntentHash", JStr (it_creditIntentHash i));
        ("subjectId", JStr (it_subjectId i)); ("principalId", JStr (it_principalId i));
        ("authorityType", JStr (value (it_authorityType i))); ("authorityRef", JStr (it_authorityRef i));
        ("assetId", JStr (it_assetId i)); ("requestedPrincipalMinor", money (it_requestedPrincipalMinor i));
        ("purposeCode", JStr (it_purposeCode i)); ("requestedTermDays", JNum (it_requestedTermDays i));
        ("repaymentFrequency", JStr (value (it_repaymentFrequency i))); ("installmentCount", JNum (it_installmentCount i));
        ("sandboxOnly", JBool (it_sandboxOnly i)); ("productionFundsRequested", JBool (it_productionFundsRequested i));
        ("status", JStr (value (it_status i))); ("createdAt", instant (it_createdAt i)); ("updatedAt", instant (it_updatedAt i));
        ("schemaVersion", JStr (it_schemaVersion i))].

Definition assertIntent (i : CreditIntent) : result unit :=
  guard (negb (String.eqb (it_schemaVersion i) "credit_intent.v1") ||
         negb (bool_decide (it_status i = CreditIntentStatus_SUBMITTED)) || negb (it_sandboxOnly i) ||
         it_productionFundsRequested i)
    "invalid_credit_intent" "evaluation requires one submitted sandbox Credit Intent" ;;
  assertNoRawPiiReference (intent_json i).

(** [None] is [undefined]; a throw inside the [try] is a denial. *)
Definition deriveSandboxCreditPolicyDenial (i : CreditIntent) : result (option string) :=
  let p := SANDBOX_CREDIT_DECISION_POLICY in
  assertIntent i ;;
  if negb (String.eqb (it_assetId i) (po_assetId p)) then Ok (Some "unsupported_sandbox_asset") else
  principal ← assertPositiveMinorUnits (MString (toString (it_requestedPrincipalMinor i))) "requestedPrincipalMinor";
  if po_maximumPrincipalMinor p <? principal then Ok (Some "sandbox_cap_exceeded") else
  if negb (isSafeInteger (it_requestedTermDays i)) || (it_requestedTermDays i <? 1) ||
     (po_maximumTermDays p <? it_requestedTermDays i) then Ok (Some "sandbox_cap_exceeded") else
  match expectedInstallmentCount (it_repaymentFrequency i) (it_requestedTermDays i) with
  | Ok count => Ok (if negb (count =? it_installmentCount i) then Some "invalid_requested_schedule" else None)
  | Err _ => Ok (Some "invalid_requested_schedule")
  end.

Definition normalizeReasonCodes (status : RiskDecisionStatus) (reasonCodes : list string) : result (list string) :=
  guard ((length reasonCodes =? 0)%nat || (8 <? length reasonCodes)%nat) "invalid_credit_reason_codes"
    "Decision reasons are invalid" ;;
  let allowed := if bool_decide (status = RiskDecisionStatus_APPROVED) then APPROVED else DENIED_CREDIT_REASON_CODES in
  guard (negb (bool_decide (NoDup reasonCodes)) || existsb (fun c => negb (bool_decide (c ∈ allowed))) reasonCodes)
    "invalid_credit_reason_codes" "Decision reasons are outside the closed policy" ;;
  Ok reasonCodes.

Definition approvedCreditReasonCodes (authorityType : CreditAuthorityType) : list string :=
  APPROVED_common ++
  [match authorityType with CreditAuthorityType_CONSENT => APPROVED_human | CreditAuthorityType_MANDATE => APPROVED_agent end] ++
  APPROVED_tail.

(** ** Snapshots, decisions and passports *)

Definition features_json (f : Features) : json :=
  JObj [("assetSupported", JBool (ft_assetSupported f)); ("principalWithinCap", JBool (ft_principalWithinCap f));
        ("termWithinCap", JBool (ft_termWithinCap f)); ("scheduleValid", JBool (ft_scheduleValid f));
        ("subjectEligible", JBool (ft_subjectEligible f)); ("subjectSuspended", JBool (ft_subjectSuspended f));
        ("principalEligible", JBool (ft_principalEligible f)); ("authorityCurrent", JBool (ft_authorityCurrent f));
        ("identityEvidenceCurrent", tri_json (ft_identityEvidenceCurrent f));
        ("principalBindingCurrent", tri_json (ft_principalBindingCurrent f));
        ("adverseObligationCount", JNum (ft_adverseObligationCount f));
        ("frozenCreditLineCount", JNum (ft_frozenCreditLineCount f));
        ("allRequiredFeaturesSatisfied", JBool (ft_allRequiredFeaturesSatisfied f))].

Definition source_json (s : SourceEvidence) : json :=
  JObj [("role", JStr (se_role s)); ("entityType", JStr (se_entityType s)); ("entityIdHash", JStr (se_entityIdHash s));
        ("entityHash", JStr (se_entityHash s)); ("aggregateVersion", JNum (se_aggregateVersion s));
        ("eventId", JStr (se_eventId s)); ("evidenceHash", JStr (se_evidenceHash s));
        ("sourceFinality", JStr (se_sourceFinality s))].

Definition attestation_json (r : RiskState) : json :=
  JObj [("queryVersion", JStr (rst_queryVersion r)); ("stateHash", JStr (rst_stateHash r));
        ("liveStateVersion", JNum (rst_liveStateVersion r)); ("adverseObligationCount", JNum (rst_adverseObligationCount r));
        ("frozenCreditLineCount", JNum (rst_frozenCreditLineCount r))].

(** The part of a snapshot its hash is taken of. *)
Definition snapshot_core (s : RiskFeatureSnapshot) : json :=
  JObj [("creditIntentIdHash", JStr (sn_creditIntentIdHash s)); ("authorityType", JStr (value (sn_authorityType s)));
        ("assetId", JStr (sn_assetId s)); ("requestedPrincipalMinor", money (sn_requestedPrincipalMinor s));
        ("requestedTermDays", JNum (sn_requestedTermDays s)); ("repaymentFrequency", JStr (value (sn_repaymentFrequency s)));
        ("installmentCount", JNum (sn_installmentCount s)); ("featureSetVersion", JStr (sn_featureSetVersion s));
        ("policyVersion", JStr (sn_policyVersion s)); ("policyHash", JStr (sn_policyHash s));
        ("features", features_json (sn_features s)); ("sourceEvidence", JArr (map source_json (sn_sourceEvidence s)));
        ("riskStateAttestation", attestation_json (sn_riskStateAttestation s)); ("asOf", JStr (sn_asOf s));
        ("sandboxOnly", JBool (sn_sandboxOnly s)); ("productionAuthority", JBool (sn_productionAuthority s))].

Definition is_consent (a : CreditAuthorityType) : bool := bool_decide (a = CreditAuthorityType_CONSENT).
Definition is_mandate (a : CreditAuthorityType) : bool := bool_decide (a = CreditAuthorityType_MANDATE).
Definition is_null (x : option bool) : bool := match x with Some _ => false | None => true end.

Definition features_of (i : CreditIntent) (f : EligibilityFacts) (r : RiskState) (p : DecisionPolicy) : Features :=
  let expectedCount := match INTERVAL_DAYS (it_repaymentFrequency i) with
                       | None => 1
                       | Some interval => - (- it_requestedTermDays i / interval)
                       end in
  let scheduleValid := isSafeInteger expectedCount && (expectedCount =? it_installmentCount i) in
  let assetSupported := String.eqb (it_assetId i) (po_assetId p) in
  let principalWithinCap := it_requestedPrincipalMinor i <=? po_maximumPrincipalMinor p in
  let termWithinCap := isSafeInteger (it_requestedTermDays i) && (1 <=? it_requestedTermDays i) &&
                       (it_requestedTermDays i <=? po_maximumTermDays p) in
  MkFeatures assetSupported principalWithinCap termWithinCap scheduleValid (ef_subjectEligible f) (ef_subjectSuspended f)
    (ef_principalEligible f) (ef_authorityCurrent f) (ef_identityEvidenceCurrent f) (ef_principalBindingCurrent f)
    (rst_adverseObligationCount r) (rst_frozenCreditLineCount r)
    (ef_subjectEligible f && ef_principalEligible f && ef_authorityCurrent f &&
     (if is_consent (it_authorityType i) then is_true (ef_identityEvidenceCurrent f)
      else is_true (ef_principalBindingCurrent f)) &&
     (rst_adverseObligationCount r =? 0) && (rst_frozenCreditLineCount r =? 0) && assetSupported && principalWithinCap &&
     termWithinCap && scheduleValid).

Section decision.
Context `{Platform}.

Definition SANDBOX_CREDIT_POLICY_HASH : string := hashId "risk_policy_manifest" SANDBOX_CREDIT_POLICY_MANIFEST.

Definition createCreditApplicationRiskFeatureSnapshot (i : CreditIntent) (f : EligibilityFacts)
    (sourceEvidence : list SourceEvidence) (r : RiskState) (policy : DecisionPolicy) (policyHash : string) (now : Z)
    : result RiskFeatureSnapshot :=
  evidence_guard (negb (String.eqb (rst_queryVersion r) RISK_STATE_QUERY_VERSION)) "risk-state query version is unsupported" ;;
  sources ← normalizeSourceEvidence sourceEvidence;
  let sourceRoles := map se_role sources in
  let isHuman := is_consent (it_authorityType i) in
  let isAgent := is_mandate (it_authorityType i) in
  evidence_guard (negb isHuman && negb isAgent) "credit authority type is unsupported" ;;
  let identity := ef_identityEvidenceCurrent f in
  let binding := ef_principalBindingCurrent f in
  evidence_guard (isHuman && is_null identity) "Human feature snapshot requires identityEvidenceCurrent" ;;
  evidence_guard (negb isHuman && negb (is_null identity)) "Agent feature snapshot cannot assert Human identity Evidence" ;;
  evidence_guard (isAgent && is_null binding) "Agent feature snapshot requires principalBindingCurrent" ;;
  evidence_guard (negb isAgent && negb (is_null binding)) "Human feature snapshot cannot assert Agent principal binding" ;;
  requireSource sourceRoles "subject" (ef_subjectEligible f || ef_subjectSuspended f || is_true binding) ;;
  requireSource sourceRoles "principal" (ef_principalEligible f || is_true binding) ;;
  requireSource sourceRoles "authority" (ef_authorityCurrent f || is_true identity || is_true binding) ;;
  requireSource sourceRoles "human_identity_reference" (is_true identity) ;;
  assertCount "adverseObligationCount" (rst_adverseObligationCount r) ;;
  assertCount "frozenCreditLineCount" (rst_frozenCreditLineCount r) ;;
  assertCount "liveStateVersion" (rst_liveStateVersion r) ;;
  evidence_guard (rst_liveStateVersion r <? 1) "liveStateVersion must be positive" ;;
  risk_assertHash "riskState.stateHash" (rst_stateHash r) ;;
  risk_assertHash "policyHash" policyHash ;;
  let snapshot id hash := MkRiskFeatureSnapshot id hash
    (hashId "risk_feature_credit_intent" (JObj [("creditIntentId", JStr (it_creditIntentId i))]))
    (it_authorityType i) (it_assetId i) (it_requestedPrincipalMinor i) (it_requestedTermDays i) (it_repaymentFrequency i)
    (it_installmentCount i) FEATURE_SET_VERSION (po_modelVersion policy) policyHash (features_of i f r policy) sources r
    (toISOString now) true false "risk_feature_snapshot.v1" in
  let core := snapshot_core (snapshot "" "") in
  assertNoRawPiiReference core ;;
  let featureSnapshotHash := hashId "risk_feature_snapshot" core in
  Ok (snapshot ("risk_feature_snapshot_" +:+ slice2 featureSnapshotHash) featureSnapshotHash).

(** [CREDIT_REASON_LINEAGE[code]] *)
Fixpoint lineage_of (code : string) (l : list (string * (list string * list string))) : option (list string * list string) :=
  match l with [] => None | (c, x) :: l => if String.eqb c code then Some x else lineage_of code l end.

Fixpoint reason_lineage (codes : list string) : result (list (string * (list string * list string))) :=
  match codes with
  | [] => Ok []
  | code :: codes =>
      match lineage_of code CREDIT_REASON_LINEAGE with
      | Some lineage => rest ← reason_lineage codes; Ok ((code, lineage) :: rest)
      | None => invalidEvidence "Decision reason has no closed lineage"
      end
  end.

Definition createRiskDecisionPassport (riskDecisionId decisionHash modelVersion : string) (reasons : list string)
    (s : RiskFeatureSnapshot) (policyHash : string) : result DecisionPassport :=
  evidence_guard (negb (String.eqb (sn_schemaVersion s) "risk_feature_snapshot.v1") ||
                  negb (String.eqb (sn_policyHash s) policyHash) || negb (String.eqb (sn_policyVersion s) modelVersion))
    "Decision passport provenance is inconsistent" ;;
  reasonLineage ← reason_lineage reasons;
  let core := JObj
    [("riskDecisionId", JStr riskDecisionId); ("decisionHash", JStr decisionHash);
     ("riskFeatureSnapshotId", JStr (sn_riskFeatureSnapshotId s)); ("featureSnapshotHash", JStr (sn_featureSnapshotHash s));
     ("featureSetVersion", JStr (sn_featureSetVersion s)); ("policyVersion", JStr modelVersion);
     ("policyHash", JStr policyHash);
     ("reasonLineage", JArr (map (fun '(code, (keys, roles)) =>
        JObj [("reasonCode", JStr code); ("featureKeys", strings keys); ("sourceRoles", strings roles)]) reasonLineage));
     ("asOf", JStr (sn_asOf s)); ("nonAuthorizing", JBool true); ("sandboxOnly", JBool true);
     ("productionAuthority", JBool false)] in
  let decisionPassportHash := hashId "risk_decision_passport" core in
  Ok (MkDecisionPassport ("risk_decision_passport_" +:+ slice2 decisionPassportHash) decisionPassportHash riskDecisionId
        decisionHash (sn_riskFeatureSnapshotId s) (sn_featureSnapshotHash s) (sn_featureSetVersion s) modelVersion policyHash
        reasonLineage (sn_asOf s) true true false "risk_decision_passport.v1").

(** The fields of a decision its hash is taken of; those of the snapshot come last. *)
Definition decision_core (i : CreditIntent) (status : RiskDecisionStatus) (reasonCodes : list string)
    (snapshot : option RiskFeatureSnapshot) (now : Z) : json :=
  JObj ([("creditIntentId", JStr (it_creditIntentId i)); ("subjectId", JStr (it_subjectId i));
         ("principalId", JStr (it_principalId i)); ("authorityType", JStr (value (it_authorityType i)));
         ("authorityRef", JStr (it_authorityRef i)); authority_json (it_authorityType i) (it_authorityRef i);
         ("assetId", JStr (it_assetId i)); ("status", JStr (value status));
         ("modelVersion", JStr (po_modelVersion SANDBOX_CREDIT_DECISION_POLICY));
         ("limitMinor", money (if bool_decide (status = RiskDecisionStatus_APPROVED) then it_requestedPrincipalMinor i else 0));
         ("utilizationMinor", money 0); ("action", JStr "credit_application_evaluation");
         ("reasons", JArr (map (fun code => JObj [("code", JStr code)]) reasonCodes)); ("sandboxOnly", JBool true);
         ("productionAuthority", JBool false); ("createdAt", instant now)] ++
        match snapshot with
        | Some s => [("policyHash", JStr SANDBOX_CREDIT_POLICY_HASH);
                     ("riskFeatureSnapshotId", JStr (sn_riskFeatureSnapshotId s));
                     ("featureSnapshotHash", JStr (sn_featureSnapshotHash s))]
        | None => []
        end).

Definition createCreditApplicationRiskDecision (i : CreditIntent) (status : RiskDecisionStatus) (reasonCodes : list string)
    (snapshot : option RiskFeatureSnapshot) (now : Z) : result CreditDecision :=
  let modelVersion := po_modelVersion SANDBOX_CREDIT_DECISION_POLICY in
  assertIntent i ;;
  normalizedReasonCodes ← normalizeReasonCodes status reasonCodes;
  guard (match snapshot with
         | Some s => negb (String.eqb (sn_schemaVersion s) "risk_feature_snapshot.v1") ||
                     negb (String.eqb (sn_policyVersion s) modelVersion) ||
                     negb (String.eqb (sn_policyHash s) SANDBOX_CREDIT_POLICY_HASH) ||
                     negb (String.eqb (sn_asOf s) (toISOString now))
         | None => false
         end) "invalid_risk_evidence" "Risk feature snapshot is inconsistent with the current policy Decision" ;;
  let core := decision_core i status normalizedReasonCodes snapshot now in
  assertNoRawPiiReference core ;;
  let decisionHash := hashId "credit_application_risk_decision" core in
  let riskDecisionId := "risk_decision_" +:+ slice2 decisionHash in
  let decision version passport := MkCreditDecision version riskDecisionId decisionHash (it_creditIntentId i)
    (it_subjectId i) (it_principalId i) (it_authorityType i) (it_authorityRef i) (it_assetId i) status modelVersion
    (if bool_decide (status = RiskDecisionStatus_APPROVED) then it_requestedPrincipalMinor i else 0) 0
    "credit_application_evaluation" normalizedReasonCodes true false now snapshot passport in
  match snapshot with
  | None => Ok (decision "risk_decision.v2" None)
  | Some s =>
      passport ← createRiskDecisionPassport riskDecisionId decisionHash modelVersion normalizedReasonCodes s
                   SANDBOX_CREDIT_POLICY_HASH;
      Ok (decision "risk_decision.v3" (Some passport))
  end.

(** [new Date(now.getTime() + days * 86_400_000).toISOString()] *)
Definition addUtcDays (now days : Z) : result string := iso_of (now + days * 86400000).

Definition with_id (id : string) (o : CreditOffer) : CreditOffer :=
  MkCreditOffer (of_schemaVersion o) id (of_creditOfferHash o) (of_termsHash o) (of_creditIntentId o) (of_riskDecisionId o)
    (of_subjectId o) (of_assetId o) (of_approvedPrincipalMinor o) (of_annualRateBps o) (of_originationFeeMinor o)
    (of_repaymentFrequency o) (of_installmentCount o) (of_firstPaymentAt o) (of_maturityAt o) (of_validUntil o)
    (of_reasonCodes o) (of_disclosureRef o) (of_status o) (of_acceptanceId o) (of_acceptedAt o) (of_createdAt o)
    (of_updatedAt o) (of_sandboxOnly o) (of_productionFundsApproved o).

(** The status and the reasons, from the denial there is. *)
Definition decision_status (effectiveDenial : option string) (frozen : bool) : RiskDecisionStatus :=
  match effectiveDenial with
  | None => RiskDecisionStatus_APPROVED
  | Some d => if frozen || String.eqb d "credit_state_frozen" then RiskDecisionStatus_FROZEN else RiskDecisionStatus_REJECTED
  end.

Definition createDeterministicCreditDecisionOutcome (i : CreditIntent) (denialCode : option string) (frozen : bool)
    (snapshot : option RiskFeatureSnapshot) (now : Z) : M Sys (CreditDecision * option CreditOffer) :=
  let p := SANDBOX_CREDIT_DECISION_POLICY in
  lift (assertIntent i) ;;
  policyDenial ← lift (deriveSandboxCreditPolicyDenial i);
  let effectiveDenial := match denialCode with Some d => Some d | None => policyDenial end in
  throw_if (match effectiveDenial with Some d => negb (bool_decide (d ∈ DENIED_CREDIT_REASON_CODES)) | None => false end)
    "invalid_credit_reason_codes" "denialCode is outside the closed policy" ;;
  let status := decision_status effectiveDenial frozen in
  let reasonCodes := match effectiveDenial with None => approvedCreditReasonCodes (it_authorityType i) | Some d => [d] end in
  decision ← lift (createCreditApplicationRiskDecision i status reasonCodes snapshot now);
  if negb (bool_decide (status = RiskDecisionStatus_APPROVED)) then mret (decision, None) else
  maturityAt ← lift (addUtcDays now (it_requestedTermDays i));
  let intervalDays := match INTERVAL_DAYS (it_repaymentFrequency i) with
                      | None => it_requestedTermDays i
                      | Some interval => interval
                      end in
  firstPaymentAt ← lift (addUtcDays now (Z.min intervalDays (it_requestedTermDays i)));
  validUntil ← lift (iso_of (now + po_offerValidityMs p));
  annualRateBps ← lift (annualRateBpsForTerm (it_requestedTermDays i));
  provisional ← createCreditOffer (MkNewOffer None (it_creditIntentId i) (it_subjectId i) (cd_riskDecisionId decision)
    (it_assetId i) (MString (toString (it_requestedPrincipalMinor i))) annualRateBps
    (MString (toString (po_originationFeeMinor p))) (it_repaymentFrequency i) (it_installmentCount i) firstPaymentAt maturityAt
    validUntil reasonCodes (po_disclosureRef p)) now;
  mret (decision, Some (with_id ("credit_offer_" +:+ slice2 (of_creditOfferHash provisional)) provisional)).

Definition createEvidenceDerivedCreditDecisionOutcome (i : CreditIntent) (denialCode : option string) (frozen : bool)
    (f : EligibilityFacts) (sourceEvidence : list SourceEvidence) (r : RiskState) (now : Z)
    : M Sys (CreditDecision * option CreditOffer) :=
  lift (assertIntent i) ;;
  snapshot ← lift (createCreditApplicationRiskFeatureSnapshot i f sourceEvidence r SANDBOX_CREDIT_DECISION_POLICY
                     SANDBOX_CREDIT_POLICY_HASH now);
  createDeterministicCreditDecisionOutcome i denialCode frozen (Some snapshot) now.

(** ** Consent *)

Definition assertHumanDecisionConsentPurposes (consent : option Consent) : result bool :=
  guard (existsb (fun purpose => match consent with
                                 | Some c => negb (bool_decide (purpose ∈ cn_purposes c))
                                 | None => true
                                 end) [ConsentPurpose_CREDIT_DECISION; ConsentPurpose_IDENTITY_REFERENCE_USE])
    "consent_scope_mismatch" "Consent does not authorize credit decision identity use" ;;
  Ok true.
End decision.
