(* ===== verification/DecisionProps.v ===== *)
(** * Credit applications: theorems

    Which applications are approved, what the offer of an approved one says, what
    the evidence snapshot guarantees, and that an approved application can be
    turned into a loan. *)

From stdpp Require Import base tactics sets relations gmap numbers strings list.
From S2P Require Import Prelude Js Enums EventStore Service Ledger Mandate Loan Servicing SandboxCredit LoanProps LoanLedger ScheduleProps LoanBook AcceptanceProps Application Decision.
Local Open Scope string_scope.
Local Open Scope Z_scope.

(** A string every identifier check accepts. *)
Definition named (s : string) : Prop := all_chars is_space s = false /\ (String.length s <= MAX_DOMAIN_STRING_LENGTH)%nat.

Lemma assert_named name s : named s -> assertNonEmptyString name (JStr s) = Ok ().
Proof. intros [H1 H2]. unfold assertNonEmptyString. rewrite H1. apply guard_Ok. by apply Nat.ltb_ge. Qed.

Lemma named_of_assert name s u : assertNonEmptyString name (JStr s) = Ok u -> named s.
Proof. intros [H1 H2%Nat.ltb_ge]%guard_Ok%orb_false_iff. done. Qed.

Lemma length_append s t : String.length (s +:+ t) = (String.length s + String.length t)%nat.
Proof. induction s as [|c s IH]; [done|exact (f_equal S IH)]. Qed.

Lemma all_chars_append f s t : all_chars f (s +:+ t) = all_chars f s && all_chars f t.
Proof. induction s as [|c s IH]; [done|]. cbn [all_chars]. rewrite <- andb_assoc, <- IH. done. Qed.

(** ** The policy *)

(** How many installments a term has: its days in intervals, rounded up. *)
Definition installments_due (f : RepaymentFrequency) (term : Z) : Z :=
  match INTERVAL_DAYS f with None => 1 | Some iv => (term + iv - 1) / iv end.

Record within_policy (i : CreditIntent) : Prop := {
  wp_asset : it_assetId i = po_assetId SANDBOX_CREDIT_DECISION_POLICY;
  wp_cap : it_requestedPrincipalMinor i <= po_maximumPrincipalMinor SANDBOX_CREDIT_DECISION_POLICY;
  wp_term : 1 <= it_requestedTermDays i <= po_maximumTermDays SANDBOX_CREDIT_DECISION_POLICY;
  wp_count : it_installmentCount i = installments_due (it_repaymentFrequency i) (it_requestedTermDays i) }.

(** A submitted sandbox intent with an amount. *)
Record submitted (i : CreditIntent) : Prop := {
  su_version : it_schemaVersion i = "credit_intent.v1";
  su_status : it_status i = CreditIntentStatus_SUBMITTED;
  su_sandbox : it_sandboxOnly i = true /\ it_productionFundsRequested i = false;
  su_ids : named (it_creditIntentId i) /\ named (it_subjectId i) /\ named (it_assetId i);
  su_amount : amount_ok (it_requestedPrincipalMinor i) }.

Lemma ceil_div a b : 0 < b -> - (- a / b) = (a + b - 1) / b.
Proof. intros Hb. pose proof (Z.div_mod (- a) b). pose proof (Z.mod_pos_bound (- a) b). apply (Z.div_unique _ _ _ (b - 1 - (- a) mod b)); lia. Qed.

Lemma installments_due_ceil f term iv : INTERVAL_DAYS f = Some iv -> - (- term / iv) = installments_due f term.
Proof. intros E. unfold installments_due. rewrite E. apply ceil_div. by apply interval_pos in E. Qed.

Lemma expected_count f term : 1 <= term <= 366 -> expectedInstallmentCount f term = Ok (installments_due f term).
Proof.
  intros Ht. unfold expectedInstallmentCount. rewrite (proj2 (guard_Ok (_ || _) _ _ ())) by (unfold isSafeInteger; lia).
  cbn [mbind result_bind]. destruct f; try done; f_equal; by apply installments_due_ceil.
Qed.

(** The last installment but one falls due before the end of the term. *)
Lemma installments_due_range f term :
  1 <= term <= 366 -> 1 <= installments_due f term <= 53 /\
  forall iv, INTERVAL_DAYS f = Some iv -> (installments_due f term - 1) * iv < term.
Proof.
  intros Ht. unfold installments_due. destruct f; cbn; split; try lia; try (intros iv [= <-]); try done;
    match goal with |- context [?x / ?b] => pose proof (Z.div_mod x b); pose proof (Z.mod_pos_bound x b); lia end.
Qed.

Lemma no_pii_intent i : no_pii (intent_json i).
Proof. apply no_pii_obj; [vm_compute; reflexivity|]. cbn [map snd]. leaves. Qed.

Lemma assertIntent_Ok i : submitted i -> assertIntent i = Ok ().
Proof.
  intros [Hv Hs [Hb Hf] _ _]. unfold assertIntent. rewrite Hv, Hs, Hb, Hf. cbn [String.eqb negb orb]. apply no_pii_intent.
Qed.

(** The reason the policy denies an application for, if it does. *)
Definition policy_denial (i : CreditIntent) : option string :=
  let p := SANDBOX_CREDIT_DECISION_POLICY in
  if negb (String.eqb (it_assetId i) (po_assetId p)) then Some "unsupported_sandbox_asset"
  else if negb ((it_requestedPrincipalMinor i <=? po_maximumPrincipalMinor p) && (1 <=? it_requestedTermDays i) &&
                (it_requestedTermDays i <=? po_maximumTermDays p)) then Some "sandbox_cap_exceeded"
  else if negb (it_installmentCount i =? installments_due (it_repaymentFrequency i) (it_requestedTermDays i))
       then Some "invalid_requested_schedule" else None.

Lemma denial_eq i : submitted i -> deriveSandboxCreditPolicyDenial i = Ok (policy_denial i).
Proof.
  intros Hi. unfold deriveSandboxCreditPolicyDenial, policy_denial. rewrite (assertIntent_Ok i Hi). cbn [mbind result_bind].
  destruct (String.eqb _ _); cbn [negb]; [|done]. rewrite (positive_minor_amount _ _ (su_amount i Hi)).
  cbn [mbind result_bind po_maximumPrincipalMinor po_maximumTermDays SANDBOX_CREDIT_DECISION_POLICY].
  rewrite Z.leb_antisym. destruct (500000 <? _); cbn [negb andb]; [done|].
  destruct (isSafeInteger _) eqn:Hsafe; unfold isSafeInteger in Hsafe; cbn [negb orb].
  - destruct (Z.ltb_spec (it_requestedTermDays i) 1), (Z.ltb_spec 366 (it_requestedTermDays i)); cbn [orb].
    all: rewrite ?(proj2 (Z.leb_gt 1 _)), ?(proj2 (Z.leb_gt _ 366)) by lia; rewrite ?(proj2 (Z.leb_le 1 _)), ?(proj2 (Z.leb_le _ 366)) by lia; cbn [negb andb]; try done.
    rewrite expected_count by lia. by rewrite Z.eqb_sym.
  - destruct (Z.leb_spec 1 (it_requestedTermDays i)), (Z.leb_spec (it_requestedTermDays i) 366); cbn [negb andb]; try done. lia.
Qed.

Lemma policy_denial_None i : policy_denial i = None <-> within_policy i.
Proof.
  unfold policy_denial. split.
  - destruct (String.eqb_spec (it_assetId i) (po_assetId SANDBOX_CREDIT_DECISION_POLICY)); cbn [negb]; [|done].
    destruct (_ && _) eqn:E; cbn [negb]; [|done]. destruct (Z.eqb_spec (it_installmentCount i) (installments_due (it_repaymentFrequency i) (it_requestedTermDays i))); [|done].
    intros _. apply andb_true_iff in E as [[? ?]%andb_true_iff ?]. split; try done; lia.
  - intros [-> Hc Ht ->]. rewrite String.eqb_refl, Z.eqb_refl. cbn [negb].
    rewrite (proj2 (Z.leb_le _ _) Hc), (proj2 (Z.leb_le _ _) (proj1 Ht)), (proj2 (Z.leb_le _ _) (proj2 Ht)). done.
Qed.

Lemma policy_denial_closed i c : policy_denial i = Some c -> c ∈ DENIED_CREDIT_REASON_CODES.
Proof.
  unfold policy_denial. repeat (destruct (negb _)); intros [= <-]; apply (bool_decide_eq_true_1 _); vm_compute; reflexivity.
Qed.

(** ** Reasons *)

Lemma codes_have_lineage : forallb (fun c => match lineage_of c CREDIT_REASON_LINEAGE with Some _ => true | None => false end)
  (APPROVED ++ DENIED_CREDIT_REASON_CODES)%list = true.
Proof. vm_compute. reflexivity. Qed.

Lemma lineage_of_elem c x l : lineage_of c l = Some x -> (c, x) ∈ l.
Proof.
  induction l as [|[k v] l IH]; cbn; [done|]. destruct (String.eqb_spec k c) as [->|]; [intros [= ->]; left|intros E; right; auto].
Qed.

Lemma reason_lineage_Ok codes :
  (forall c, c ∈ codes -> c ∈ (APPROVED ++ DENIED_CREDIT_REASON_CODES)%list) ->
  exists l, reason_lineage codes = Ok l /\ map fst l = codes /\ Forall (fun x => x ∈ CREDIT_REASON_LINEAGE) l.
Proof.
  induction codes as [|c codes IH]; intros Hc; [by exists []|]. cbn [reason_lineage].
  assert (Hl : exists x, lineage_of c CREDIT_REASON_LINEAGE = Some x).
  { pose proof (proj1 (forallb_forall _ _) codes_have_lineage c) as K. cbv beta in K.
    destruct (lineage_of c CREDIT_REASON_LINEAGE) as [x|]; [by exists x|]. discriminate K. apply list_elem_of_In, Hc. left. }
  destruct Hl as [x Hx]. rewrite Hx. destruct IH as (l & E & Hm & Hf); [intros d Hd; apply Hc; by right|].
  rewrite E. cbn [mbind result_bind]. exists ((c, x) :: l). split; [done|]. split; [by cbn; rewrite Hm|].
  constructor; [by apply lineage_of_elem|done].
Qed.

(** The codes a decision of that status may carry. *)
Definition codes_ok (status : RiskDecisionStatus) (codes : list string) : Prop :=
  codes <> [] /\ (length codes <= 8)%nat /\ NoDup codes /\
  forall c, c ∈ codes -> c ∈ (if bool_decide (status = RiskDecisionStatus_APPROVED) then APPROVED else DENIED_CREDIT_REASON_CODES).

Lemma normalize_codes status codes : normalizeReasonCodes status codes = Ok codes <-> codes_ok status codes.
Proof.
  unfold normalizeReasonCodes, codes_ok. rewrite !guard_then, !orb_false_iff, negb_false_iff, bool_decide_eq_true.
  rewrite Nat.eqb_neq, Nat.ltb_ge. assert (K : length codes <> 0%nat <-> codes <> []) by by destruct codes. rewrite K.
  assert (L : forall allowed : list string, existsb (fun c => negb (bool_decide (c ∈ allowed))) codes = false <-> forall c, c ∈ codes -> c ∈ allowed).
  { intros allowed. clear K. induction codes as [|c codes IH]; cbn; [split; [by intros _ c ?%elem_of_nil|done]|].
    rewrite orb_false_iff, negb_false_iff, bool_decide_eq_true, IH. set_solver. }
  rewrite L. tauto.
Qed.

Lemma codes_known status codes c : codes_ok status codes -> c ∈ codes -> c ∈ (APPROVED ++ DENIED_CREDIT_REASON_CODES)%list.
Proof. intros (_ & _ & _ & Hc) Hin. specialize (Hc c Hin). apply elem_of_app. case_bool_decide; [by left|by right]. Qed.

Lemma approved_codes_ok a : codes_ok RiskDecisionStatus_APPROVED (approvedCreditReasonCodes a).
Proof. apply normalize_codes. by destruct a; vm_compute. Qed.

Lemma denied_codes_ok status c :
  status <> RiskDecisionStatus_APPROVED -> c ∈ DENIED_CREDIT_REASON_CODES -> codes_ok status [c].
Proof.
  intros Hs Hc. split_and!; [done|cbn; lia|apply NoDup_singleton|]. rewrite bool_decide_eq_false_2 by done.
  by intros d ->%list_elem_of_singleton.
Qed.

Lemma approved_codes_unique a : uniqueReasonCodes (approvedCreditReasonCodes a) = Ok (approvedCreditReasonCodes a).
Proof. destruct a; vm_compute; reflexivity. Qed.

(** ** Digests *)

(** What the code relies on of the digest: it is written in 64 hexadecimal digits. *)
Class DigestLaws `{Platform} := { digest_hex : forall s, HASH_PATTERN ("0x" +:+ sha3_256_hex s) = true }.

Section decision.
Context `{DigestLaws}.

Lemma hashId_hex ns j : HASH_PATTERN (hashId ns j) = true.
Proof. apply digest_hex. Qed.

Lemma substring_length n m s : (n + m <= String.length s)%nat -> String.length (String.substring n m s) = m.
Proof.
  revert n m. induction s as [|c s IH]; intros [|n] [|m] Hl; cbn in *; try done; try lia; [f_equal|..]; apply IH; lia.
Qed.

Lemma hash_id_named prefix ns j :
  all_chars is_space prefix = false -> (String.length prefix <= 100)%nat -> named (prefix +:+ slice2 (hashId ns j)).
Proof.
  intros Hp Hl. pose proof (hashId_hex ns j) as Hh. apply andb_true_iff in Hh as [[_ Hh%Nat.eqb_eq]%andb_true_iff _]. split.
  - by rewrite all_chars_append, Hp.
  - rewrite length_append. unfold slice2. rewrite Hh, substring_length by lia. unfold MAX_DOMAIN_STRING_LENGTH. lia.
Qed.

(** ** Decisions *)

(** A snapshot the decision at [now] may be made on. *)
Definition snapshot_ok (now : Z) (s : RiskFeatureSnapshot) : Prop :=
  sn_schemaVersion s = "risk_feature_snapshot.v1" /\ sn_policyVersion s = po_modelVersion SANDBOX_CREDIT_DECISION_POLICY /\
  sn_policyHash s = SANDBOX_CREDIT_POLICY_HASH /\ sn_asOf s = toISOString now.

Record passport_of (d : CreditDecision) (s : RiskFeatureSnapshot) (p : DecisionPassport) : Prop := {
  po_decision : dp_riskDecisionId p = cd_riskDecisionId d /\ dp_decisionHash p = cd_decisionHash d;
  po_snapshot : dp_riskFeatureSnapshotId p = sn_riskFeatureSnapshotId s /\ dp_featureSnapshotHash p = sn_featureSnapshotHash s;
  po_lineage : map fst (dp_reasonLineage p) = cd_reasons d /\ Forall (fun x => x ∈ CREDIT_REASON_LINEAGE) (dp_reasonLineage p) }.

Record decides (i : CreditIntent) (status : RiskDecisionStatus) (codes : list string) (snapshot : option RiskFeatureSnapshot)
    (now : Z) (d : CreditDecision) : Prop := {
  de_version : cd_schemaVersion d = match snapshot with Some _ => "risk_decision.v3" | None => "risk_decision.v2" end;
  de_id : named (cd_riskDecisionId d);
  de_intent : cd_creditIntentId d = it_creditIntentId i /\ cd_subjectId d = it_subjectId i /\
    cd_principalId d = it_principalId i /\ cd_assetId d = it_assetId i /\ cd_authorityType d = it_authorityType i /\
    cd_authorityRef d = it_authorityRef i;
  de_status : cd_status d = status;
  de_limit : cd_limitMinor d = if bool_decide (status = RiskDecisionStatus_APPROVED) then it_requestedPrincipalMinor i else 0;
  de_sandbox : cd_sandboxOnly d = true /\ cd_productionAuthority d = false;
  de_reasons : cd_reasons d = codes;
  de_snapshot : cd_riskFeatureSnapshot d = snapshot;
  de_passport : match snapshot with
                | Some s => exists p, cd_decisionPassport d = Some p /\ passport_of d s p
                | None => cd_decisionPassport d = None
                end }.

Lemma no_pii_decision i status codes snapshot now : no_pii (decision_core i status codes snapshot now).
Proof.
  assert (Hr : no_pii (JArr (map (fun code => JObj [("code", JStr code)]) codes))).
  { apply no_pii_arr, Forall_fmap, Forall_true. intros c. vm_compute. reflexivity. }
  unfold decision_core. destruct (it_authorityType i), snapshot as [s|]; (apply no_pii_obj; [vm_compute; reflexivity|]);
    cbn [map snd authority_json app]; leaves; apply Hr.
Qed.

Lemma passport_Ok id hash codes s now status :
  codes_ok status codes -> snapshot_ok now s ->
  exists p, createRiskDecisionPassport id hash (po_modelVersion SANDBOX_CREDIT_DECISION_POLICY) codes s SANDBOX_CREDIT_POLICY_HASH = Ok p /\
    dp_riskDecisionId p = id /\ dp_decisionHash p = hash /\ dp_riskFeatureSnapshotId p = sn_riskFeatureSnapshotId s /\
    dp_featureSnapshotHash p = sn_featureSnapshotHash s /\ map fst (dp_reasonLineage p) = codes /\
    Forall (fun x => x ∈ CREDIT_REASON_LINEAGE) (dp_reasonLineage p).
Proof.
  intros Hc (Hv & Hp & Hh & _). unfold createRiskDecisionPassport. rewrite Hv, Hp, Hh, !String.eqb_refl.
  destruct (reason_lineage_Ok codes) as (l & E & Hm & Hf); [intros c; by apply (codes_known status)|].
  rewrite E. cbn [negb orb evidence_guard guard mbind result_bind]. by eexists.
Qed.

Lemma decision_Ok i status codes snapshot now :
  submitted i -> codes_ok status codes -> (forall s, snapshot = Some s -> snapshot_ok now s) ->
  exists d, createCreditApplicationRiskDecision i status codes snapshot now = Ok d /\ decides i status codes snapshot now d.
Proof.
  intros Hi Hc Hs. unfold createCreditApplicationRiskDecision. rewrite (assertIntent_Ok i Hi). cbn [mbind result_bind].
  rewrite (proj2 (normalize_codes status codes) Hc). cbn [mbind result_bind]. pose proof (no_pii_decision i status codes snapshot now) as Hpii.
  assert (Hid : forall j, named ("risk_decision_" +:+ slice2 (hashId "credit_application_risk_decision" j))) by (intros j; apply hash_id_named; [done|cbn; lia]).
  destruct snapshot as [s|].
  - pose proof (Hs s eq_refl) as Hok. destruct Hok as (Hv & Hp & Hh & Ht). rewrite Hv, Hp, Hh, Ht, !String.eqb_refl.
    cbn [negb orb guard mbind result_bind]. rewrite Hpii. cbn [mbind result_bind].
    match goal with |- context [createRiskDecisionPassport ?id ?h _ _ _ _] =>
      destruct (passport_Ok id h codes s now status Hc (Hs s eq_refl)) as (p & E & H1 & H2 & H3 & H4 & H5 & H6) end.
    rewrite E. cbn [mbind result_bind]. eexists. split; [done|].
    split; try done; [apply Hid|]. exists p. split; [done|]. by split.
  - cbn [guard mbind result_bind]. rewrite Hpii. cbn [mbind result_bind]. eexists. split; [done|].
    split; try done. apply Hid.
Qed.

(** ** Offers *)

(** The platform reads back the times the decision writes. *)
Definition reads (t : Z) : Prop :=
  valid_instant t /\ named (toISOString t) /\ date_parse (toISOString t) = Some t.

Definition interval_days (f : RepaymentFrequency) (term : Z) : Z := default term (INTERVAL_DAYS f).
Definition first_payment (i : CreditIntent) (now : Z) : Z :=
  now + Z.min (interval_days (it_repaymentFrequency i) (it_requestedTermDays i)) (it_requestedTermDays i) * DAY_MS.
Definition maturity_of (i : CreditIntent) (now : Z) : Z := now + it_requestedTermDays i * DAY_MS.

(** The offer of an approved application. *)
Record offers (i : CreditIntent) (d : CreditDecision) (now : Z) (o : CreditOffer) : Prop := {
  og_version : of_schemaVersion o = "credit_offer.v1";
  og_hashes : HASH_PATTERN (of_creditOfferHash o) = true /\ HASH_PATTERN (of_termsHash o) = true;
  og_chain : of_creditIntentId o = it_creditIntentId i /\ of_riskDecisionId o = cd_riskDecisionId d /\
    of_subjectId o = it_subjectId i /\ of_assetId o = it_assetId i;
  og_principal : of_approvedPrincipalMinor o = it_requestedPrincipalMinor i;
  og_rate : of_annualRateBps o ∈ [600; 900; 1200; 1500] /\ annualRateBpsForTerm (it_requestedTermDays i) = Ok (of_annualRateBps o);
  og_fee : of_originationFeeMinor o = 0;
  og_schedule : of_repaymentFrequency o = it_repaymentFrequency i /\ of_installmentCount o = it_installmentCount i;
  og_first : date_parse (of_firstPaymentAt o) = Some (first_payment i now);
  og_maturity : date_parse (of_maturityAt o) = Some (maturity_of i now);
  og_valid : date_parse (of_validUntil o) = Some (now + DAY_MS);
  og_reasons : of_reasonCodes o = cd_reasons d;
  og_status : of_status o = CreditOfferStatus_OFFERED;
  og_sandbox : of_sandboxOnly o = true /\ of_productionFundsApproved o = false }.


Lemma read_timestamp name t : reads t -> credit_parseTimestamp name (toISOString t) = Ok t.
Proof. intros (_ & Hn & Hd). unfold credit_parseTimestamp. by rewrite (assert_named _ _ Hn), Hd. Qed.

Lemma iso_of_Ok t : reads t -> iso_of t = Ok (toISOString t).
Proof.
  intros ([H1 H2] & _). unfold iso_of. rewrite (proj2 (Z.ltb_ge t _)), (proj2 (Z.ltb_ge _ t)) by lia. done.
Qed.

Lemma no_pii_offer n f m v codes :
  no_pii (json_of_minor (no_approvedPrincipalMinor n)) -> no_pii (json_of_minor (no_originationFeeMinor n)) ->
  no_pii (JObj (offer_core n f m v codes)).
Proof.
  intros H1 H2. assert (Hr : no_pii (JArr (map JStr codes))) by (apply no_pii_arr, Forall_fmap, Forall_true; intros c; reflexivity).
  unfold offer_core, terms_core. apply no_pii_obj; [vm_compute; reflexivity|]. cbn [map snd app]. leaves; done.
Qed.

Lemma range_Ok name v lo hi : lo <= v <= hi -> - 9007199254740991 <= lo -> hi <= 9007199254740991 -> assertSafeIntegerRange name v lo hi = Ok ().
Proof. intros Hv Hl Hh. apply guard_Ok. unfold isSafeInteger. lia. Qed.

Lemma rate_for_term term :
  1 <= term <= 366 -> exists r, annualRateBpsForTerm term = Ok r /\ r ∈ [600; 900; 1200; 1500].
Proof.
  intros Ht. unfold annualRateBpsForTerm. rewrite (proj2 (guard_Ok (_ || _) _ _ ())) by (unfold isSafeInteger; lia).
  cbn [mbind result_bind]. eexists. split; [done|]. repeat case_match; set_solver.
Qed.

Lemma first_before_maturity i now : within_policy i -> now < first_payment i now <= maturity_of i now.
Proof.
  intros [_ _ Ht _]. unfold first_payment, maturity_of, interval_days, DAY_MS. cbn in Ht. destruct (it_repaymentFrequency i); cbn; lia.
Qed.

Lemma disclosure_named : named (po_disclosureRef SANDBOX_CREDIT_DECISION_POLICY).
Proof. split; [reflexivity|]. apply Nat.leb_le. vm_compute. reflexivity. Qed.

(** What the decision asks of the offer's constructor is accepted. *)
Lemma wp_offer i d status codes snapshot now rate y :
  submitted i -> within_policy i -> decides i status codes snapshot now d -> uniqueReasonCodes codes = Ok codes ->
  reads (first_payment i now) -> reads (maturity_of i now) -> reads (now + DAY_MS) ->
  annualRateBpsForTerm (it_requestedTermDays i) = Ok rate -> rate ∈ [600; 900; 1200; 1500] ->
  wp (createCreditOffer (MkNewOffer None (it_creditIntentId i) (it_subjectId i) (cd_riskDecisionId d)
    (it_assetId i) (MString (toString (it_requestedPrincipalMinor i))) rate
    (MString (toString (po_originationFeeMinor SANDBOX_CREDIT_DECISION_POLICY))) (it_repaymentFrequency i) (it_installmentCount i)
    (toISOString (first_payment i now)) (toISOString (maturity_of i now)) (toISOString (now + DAY_MS)) codes
    (po_disclosureRef SANDBOX_CREDIT_DECISION_POLICY)) now)
    (fun o y' => offers i d now o /\ uuids y' = S (uuids y)) (fun _ _ => False) y.
Proof.
  intros Hi Hw Hd Hu Hf Hm Hv Hrate Hin. destruct (su_ids i Hi) as (N1 & N2 & N3). pose proof (su_amount i Hi) as Ha.
  pose proof (first_before_maturity i now Hw) as Ht. destruct (installments_due_range (it_repaymentFrequency i) (it_requestedTermDays i) (wp_term i Hw)) as [Hc _].
  rewrite <- (wp_count i Hw) in Hc. assert (Hr : 0 <= rate <= 1500) by (rewrite !elem_of_cons, elem_of_nil in Hin; lia).
  assert (Hfee : assertNonNegativeMinorUnits (MString (toString (po_originationFeeMinor SANDBOX_CREDIT_DECISION_POLICY))) "originationFeeMinor" = Ok 0)
    by (vm_compute; reflexivity).
  unfold createCreditOffer. cbv zeta beta. repeat (apply (wp_passes _ ()); [apply assert_named; first [done|apply (de_id _ _ _ _ _ _ Hd)|apply disclosure_named]|]).
  cbn [no_creditOfferId no_creditIntentId no_subjectId no_riskDecisionId no_assetId no_approvedPrincipalMinor no_annualRateBps
    no_originationFeeMinor no_repaymentFrequency no_installmentCount no_firstPaymentAt no_maturityAt no_validUntil no_reasonCodes no_disclosureRef].
  eapply wp_passes; [apply positive_minor_amount; exact Ha|]. eapply wp_passes; [exact Hfee|].
  destruct Ha as [Ha _]. apply wp_not_thrown; [apply Z.ltb_ge; lia|].
  eapply wp_passes; [apply range_Ok; unfold MAX_ANNUAL_RATE_BPS; lia|]. eapply wp_passes; [destruct (it_repaymentFrequency i); vm_compute; reflexivity|].
  eapply wp_passes; [apply range_Ok; unfold MAX_INSTALLMENTS; lia|]. do 3 (eapply wp_passes; [apply read_timestamp; done|]).
  do 3 (apply wp_not_thrown; [first [apply Z.leb_gt|apply Z.ltb_ge]; unfold DAY_MS in *; lia|]).
  eapply wp_passes; [exact Hu|]. eapply wp_passes; [apply no_pii_offer; reflexivity|].
  apply wp_bind, wp_createOperationalId, wp_ret. split; [|done].
  split; try done; [split; apply hashId_hex|apply Hf|apply Hm|apply Hv|by rewrite (de_reasons _ _ _ _ _ _ Hd)].
Qed.

Definition effective_denial (i : CreditIntent) (denialCode : option string) : option string :=
  match denialCode with Some c => Some c | None => policy_denial i end.

(** The outcome of an evaluation. *)
Record outcome (i : CreditIntent) (denialCode : option string) (frozen : bool) (snapshot : option RiskFeatureSnapshot)
    (now : Z) (r : CreditDecision * option CreditOffer) : Prop := {
  oc_decides : decides i (cd_status r.1) (cd_reasons r.1) snapshot now r.1;
  oc_approved : cd_status r.1 = RiskDecisionStatus_APPROVED <-> denialCode = None /\ within_policy i;
  oc_offer : cd_status r.1 = RiskDecisionStatus_APPROVED ->
    cd_reasons r.1 = approvedCreditReasonCodes (it_authorityType i) /\ exists offer, r.2 = Some offer /\ offers i r.1 now offer;
  oc_denied : cd_status r.1 <> RiskDecisionStatus_APPROVED ->
    r.2 = None /\ exists c, effective_denial i denialCode = Some c /\ cd_reasons r.1 = [c] /\
      (cd_status r.1 = RiskDecisionStatus_FROZEN <-> frozen = true \/ c = "credit_state_frozen") }.

Lemma effective_None i denialCode : effective_denial i denialCode = None <-> denialCode = None /\ within_policy i.
Proof. unfold effective_denial. destruct denialCode; [by split; [|intros [? _]]|]. rewrite policy_denial_None. tauto. Qed.

Lemma effective_closed i denialCode c :
  effective_denial i denialCode = Some c -> denialCode = Some c \/ c ∈ DENIED_CREDIT_REASON_CODES.
Proof. unfold effective_denial. destruct denialCode; [by intros [= ->]; left|]. intros E. right. by eapply policy_denial_closed. Qed.

Lemma status_approved eff frozen : decision_status eff frozen = RiskDecisionStatus_APPROVED <-> eff = None.
Proof. destruct eff; [|done]. cbn. by case_match. Qed.

Lemma status_frozen c frozen :
  decision_status (Some c) frozen = RiskDecisionStatus_FROZEN <-> frozen = true \/ c = "credit_state_frozen".
Proof. cbn. destruct frozen, (String.eqb_spec c "credit_state_frozen"); cbn; intuition congruence. Qed.

Lemma offers_with_id i d now id o : offers i d now o -> offers i d now (with_id id o).
Proof. by intros []. Qed.

Lemma decides_self i status codes snapshot now d :
  decides i status codes snapshot now d -> decides i (cd_status d) (cd_reasons d) snapshot now d.
Proof. intros Hd. by rewrite (de_status _ _ _ _ _ _ Hd), (de_reasons _ _ _ _ _ _ Hd). Qed.

Lemma wp_outcome i denialCode frozen snapshot now y :
  submitted i -> (forall s, snapshot = Some s -> snapshot_ok now s) ->
  (within_policy i -> reads (first_payment i now) /\ reads (maturity_of i now) /\ reads (now + DAY_MS)) ->
  wp (createDeterministicCreditDecisionOutcome i denialCode frozen snapshot now)
    (fun r y' => outcome i denialCode frozen snapshot now r /\ (uuids y <= uuids y' <= S (uuids y))%nat)
    (fun _ _ => exists c, denialCode = Some c /\ c ∉ DENIED_CREDIT_REASON_CODES) y.
Proof.
  intros Hi Hs Ht. unfold createDeterministicCreditDecisionOutcome. apply (wp_passes _ ()); [by apply assertIntent_Ok|].
  eapply wp_passes; [by apply denial_eq|]. fold (effective_denial i denialCode). pose proof (effective_closed i denialCode) as Hclosed.
  pose proof (effective_None i denialCode) as Hnone. destruct (effective_denial i denialCode) as [c|] eqn:Heff.
  - apply wp_bind, wp_throw_if.
    { intros Hc%negb_true_iff%bool_decide_eq_false. exists c. split; [|done]. by destruct (Hclosed c eq_refl). }
    intros Hc%negb_false_iff%bool_decide_eq_true. set (status := decision_status (Some c) frozen).
    assert (Hst : status <> RiskDecisionStatus_APPROVED) by (intros K%(status_approved (Some c) frozen); done).
    destruct (decision_Ok i status [c] snapshot now Hi (denied_codes_ok _ _ Hst Hc) Hs) as (d & E & Hd).
    eapply wp_passes; [exact E|]. rewrite bool_decide_eq_false_2 by done. cbn [negb]. apply wp_ret. split; [|lia].
    pose proof (de_status _ _ _ _ _ _ Hd) as Hds. split; cbn [fst snd]; [by eapply decides_self|..].
    + rewrite Hds. split; [done|]. intros K%Hnone. done.
    + rewrite Hds. done.
    + intros _. split; [done|]. exists c. split_and!; [done|by rewrite (de_reasons _ _ _ _ _ _ Hd)|]. rewrite Hds. apply status_frozen.
  - apply wp_not_thrown; [done|]. destruct (proj1 Hnone eq_refl) as [-> Hw]. destruct (Ht Hw) as (T1 & T2 & T3).
    destruct (decision_Ok i RiskDecisionStatus_APPROVED _ snapshot now Hi (approved_codes_ok (it_authorityType i)) Hs) as (d & E & Hd).
    destruct (rate_for_term _ (wp_term i Hw)) as (rate & Hrate & Hin).
    eapply wp_passes; [exact E|]. cbn [negb]. eapply wp_passes; [exact (iso_of_Ok _ T2)|]. eapply wp_passes; [exact (iso_of_Ok _ T1)|].
    eapply wp_passes; [exact (iso_of_Ok _ T3)|]. eapply wp_passes; [exact Hrate|]. apply wp_bind.
    eapply wp_mono; [exact (wp_offer i d _ _ _ now rate _ Hi Hw Hd (approved_codes_unique _) T1 T2 T3 Hrate Hin)| |done].
    intros o y' [Ho Hy]. apply wp_ret. split; [|lia]. pose proof (de_status _ _ _ _ _ _ Hd) as Hds. pose proof (de_reasons _ _ _ _ _ _ Hd) as Hr.
    split; cbn [fst snd]; [by eapply decides_self|by rewrite Hds|..|by rewrite Hds].
    intros _. split; [done|]. eexists. split; [done|]. by apply offers_with_id.
Qed.

(** C31: the evaluation of a submitted application.  The snapshot, if one is passed, is
    of the current schema, policy version and policy hash and was made at the time of
    the evaluation, and for an application within the policy the first payment, the
    maturity and the end of the offer's day are dates that read back as they print.
    Then the evaluation returns, except for a denial code outside the closed list, and
    it approves exactly the applications no denial was passed for that are within the
    policy: the policy's asset, at most its cap, a term of 1 to 366 days and the number
    of installments the term has at the chosen frequency.  It does not look at the
    features the snapshot records, so adverse obligations or a frozen line recorded
    there stop no approval unless the caller passes the denial.  An approved application gets a limit and an offer of the
    requested principal, at the rate of its term, without a fee, due from the first
    interval to the end of the term, valid for a day, and bound to the decision;
    any other gets no offer, a zero limit and the one reason it was denied for, and
    is frozen exactly when asked or when that reason is the frozen state.  With a
    snapshot the decision carries a passport whose reasons all have their lineage. *)
Theorem credit_decision_decided i denialCode frozen snapshot now y :
  submitted i -> (forall s, snapshot = Some s -> snapshot_ok now s) ->
  (within_policy i -> reads (first_payment i now) /\ reads (maturity_of i now) /\ reads (now + DAY_MS)) ->
  match createDeterministicCreditDecisionOutcome i denialCode frozen snapshot now y with
  | (Ok r, _) => outcome i denialCode frozen snapshot now r
  | (Err _, _) => exists c, denialCode = Some c /\ c ∉ DENIED_CREDIT_REASON_CODES
  end.
Proof.
  intros Hi Hs Ht. pose proof (wp_outcome i denialCode frozen snapshot now y Hi Hs Ht) as Hw. unfold wp in Hw.
  destruct (createDeterministicCreditDecisionOutcome i denialCode frozen snapshot now y) as [[r|e] y']; [apply Hw|done].
Qed.

(** ** Snapshots *)

Lemma check_sources_Ok l : check_sources l = Ok () -> Forall (fun s => se_role s ∈ SOURCE_ROLES /\ se_sourceFinality s = "finalized") l.
Proof.
  induction l as [|s l IH]; [constructor|]. cbn [check_sources]. unfold risk_assertHash, evidence_guard. rewrite !guard_then, !negb_false_iff, bool_decide_eq_true, String.eqb_eq.
  intros (H1 & _ & _ & H2 & _ & _ & _ & H3). constructor; [done|auto].
Qed.

(** The sources of a snapshot: the given ones, ordered, one for each role. *)
Record sources_of (given sources : list SourceEvidence) : Prop := {
  so_perm : Permutation sources given;
  so_unique : NoDup (map se_role sources);
  so_first : se_role <$> head sources = Some "credit_intent";
  so_final : Forall (fun s => se_role s ∈ SOURCE_ROLES /\ se_sourceFinality s = "finalized") sources }.

Lemma normalize_sources given sources : normalizeSourceEvidence given = Ok sources -> sources_of given sources.
Proof.
  unfold normalizeSourceEvidence, evidence_guard. rewrite guard_then. intros [_ E]. apply bind_Ok in E as ([] & Hc & E).
  rewrite !guard_then, !negb_false_iff, !bool_decide_eq_true in E. destruct E as (Hu & Hh & [= <-]).
  pose proof (stable_sort_perm (fun left right => Z.compare (index_of (se_role left) 0 SOURCE_ROLES) (index_of (se_role right) 0 SOURCE_ROLES)) given) as Hp.
  split; [exact Hp|done|done|]. rewrite Hp. by apply check_sources_Ok.
Qed.

Definition is_count (z : Z) : Prop := 0 <= z <= 9007199254740991.

(** What an application's evidence must say: the facts of its kind of authority,
    each positive one backed by its source. *)
Record evidence_ok (a : CreditAuthorityType) (f : EligibilityFacts) (roles : list string) (r : RiskState) : Prop := {
  eo_query : rst_queryVersion r = RISK_STATE_QUERY_VERSION;
  eo_identity : is_null (ef_identityEvidenceCurrent f) = negb (is_consent a);
  eo_binding : is_null (ef_principalBindingCurrent f) = negb (is_mandate a);
  eo_subject : ef_subjectEligible f || ef_subjectSuspended f || is_true (ef_principalBindingCurrent f) = true -> "subject" ∈ roles;
  eo_principal : ef_principalEligible f || is_true (ef_principalBindingCurrent f) = true -> "principal" ∈ roles;
  eo_authority : ef_authorityCurrent f || is_true (ef_identityEvidenceCurrent f) || is_true (ef_principalBindingCurrent f) = true ->
    "authority" ∈ roles;
  eo_human : is_true (ef_identityEvidenceCurrent f) = true -> "human_identity_reference" ∈ roles;
  eo_counts : is_count (rst_adverseObligationCount r) /\ is_count (rst_frozenCreditLineCount r) /\
    is_count (rst_liveStateVersion r) /\ 1 <= rst_liveStateVersion r;
  eo_hash : HASH_PATTERN (rst_stateHash r) = true }.

Lemma requireSource_iff roles role c : requireSource roles role c = Ok () <-> (c = true -> role ∈ roles).
Proof.
  unfold requireSource, evidence_guard. rewrite guard_Ok. destruct c; cbn; [|done]. rewrite negb_false_iff, bool_decide_eq_true. intuition.
Qed.

Lemma assertCount_iff name z : assertCount name z = Ok () <-> is_count z.
Proof. unfold assertCount, evidence_guard, is_count, isSafeInteger. rewrite guard_Ok. lia. Qed.

Lemma check_then {A} (c : result unit) (r : result A) a : (c ;; r) = Ok a <-> c = Ok () /\ r = Ok a.
Proof. rewrite bind_Ok. split; [intros ([] & ? & ?); done|intros [? ?]; by exists ()]. Qed.

Lemma kinds_iff a (identity binding : option bool) :
  (negb (is_consent a) && negb (is_mandate a) = false /\ is_consent a && is_null identity = false /\
   negb (is_consent a) && negb (is_null identity) = false /\ is_mandate a && is_null binding = false /\
   negb (is_mandate a) && negb (is_null binding) = false) <->
  is_null identity = negb (is_consent a) /\ is_null binding = negb (is_mandate a).
Proof. destruct a, identity, binding; vm_compute; intuition congruence. Qed.

Lemma no_pii_snapshot s : no_pii (snapshot_core s).
Proof.
  assert (Hs : no_pii (JArr (map source_json (sn_sourceEvidence s)))).
  { apply no_pii_arr, Forall_fmap, Forall_true. intros c. vm_compute. reflexivity. }
  assert (Ht : forall x, no_pii (tri_json x)) by by intros [].
  assert (Hf : no_pii (features_json (sn_features s))).
  { apply no_pii_obj; [vm_compute; reflexivity|]. cbn [map snd]. leaves; apply Ht. }
  apply no_pii_obj; [vm_compute; reflexivity|]. cbn [map snd]. leaves; [exact Hf|exact Hs].
Qed.

(** The snapshot is made exactly from good evidence. *)
Lemma snapshot_inv i f given r p h now s :
  createCreditApplicationRiskFeatureSnapshot i f given r p h now = Ok s -> exists sources,
    normalizeSourceEvidence given = Ok sources /\ evidence_ok (it_authorityType i) f (map se_role sources) r /\
    sn_sourceEvidence s = sources /\ sn_features s = features_of i f r p /\ sn_schemaVersion s = "risk_feature_snapshot.v1" /\
    sn_policyVersion s = po_modelVersion p /\ sn_policyHash s = h /\ sn_asOf s = toISOString now.
Proof.
  unfold createCreditApplicationRiskFeatureSnapshot. rewrite check_then. intros [Hq E]. apply bind_Ok in E as (sources & Hn & E).
  cbv zeta in E. rewrite !check_then in E. destruct E as (K1 & K2 & K3 & K4 & K5 & E). 
  rewrite !requireSource_iff, !assertCount_iff in E. destruct E as (R1 & R2 & R3 & R4 & C1 & C2 & C3 & C4 & Hh & _ & _ & [= <-]).
  unfold evidence_guard in *. rewrite guard_Ok in *. destruct (proj1 (kinds_iff (it_authorityType i) (ef_identityEvidenceCurrent f) (ef_principalBindingCurrent f))) as [I1 I2]; [done|].
  exists sources. split; [done|]. split; [|done].
  split; try done; [by apply negb_false_iff, String.eqb_eq in Hq|split_and!; try done; lia|by apply guard_Ok, negb_false_iff in Hh].
Qed.

Lemma snapshot_made i f given sources r p h now :
  normalizeSourceEvidence given = Ok sources -> evidence_ok (it_authorityType i) f (map se_role sources) r -> HASH_PATTERN h = true ->
  is_ok (createCreditApplicationRiskFeatureSnapshot i f given r p h now) = true.
Proof.
  intros Hn [Hq I1 I2 R1 R2 R3 R4 (C1 & C2 & C3 & C4) Hs] Hh. unfold createCreditApplicationRiskFeatureSnapshot.
  destruct (proj2 (kinds_iff (it_authorityType i) (ef_identityEvidenceCurrent f) (ef_principalBindingCurrent f)) (conj I1 I2)) as (K1 & K2 & K3 & K4 & K5).
  unfold risk_assertHash, evidence_guard. rewrite Hq, String.eqb_refl. cbn [negb guard mbind result_bind]. rewrite Hn. cbn [mbind result_bind].
  cbv zeta. rewrite K1, K2, K3, K4, K5, Hs, Hh. cbn [negb guard mbind result_bind].
  rewrite !(proj2 (requireSource_iff _ _ _)) by done. cbn [mbind result_bind]. rewrite !(proj2 (assertCount_iff _ _)) by done.
  cbn [mbind result_bind]. rewrite (proj2 (Z.ltb_ge (rst_liveStateVersion r) 1)) by lia. cbn [guard mbind result_bind].
  by rewrite no_pii_snapshot.
Qed.

Lemma required_features i f r :
  ft_allRequiredFeaturesSatisfied (features_of i f r SANDBOX_CREDIT_DECISION_POLICY) = true ->
  ef_subjectEligible f = true /\ ef_principalEligible f = true /\ ef_authorityCurrent f = true /\
  (it_authorityType i = CreditAuthorityType_CONSENT -> is_true (ef_identityEvidenceCurrent f) = true) /\
  (it_authorityType i = CreditAuthorityType_MANDATE -> is_true (ef_principalBindingCurrent f) = true) /\
  rst_adverseObligationCount r = 0 /\ rst_frozenCreditLineCount r = 0 /\ within_policy i.
Proof.
  cbn [features_of ft_allRequiredFeaturesSatisfied]. rewrite !andb_true_iff, !Z.eqb_eq, String.eqb_eq, !Z.leb_le.
  intros (((((((((S & P) & A) & K) & A0) & F0) & As) & Cap) & (_ & T1) & T2) & _ & Hc). split_and!; try done.
  - intros Ha. rewrite Ha in K. exact K.
  - intros Ha. rewrite Ha in K. exact K.
  - split; try done. rewrite <- Hc. unfold installments_due. destruct (INTERVAL_DAYS (it_repaymentFrequency i)) as [iv|] eqn:E; [|done].
    rewrite (installments_due_ceil _ _ _ E). unfold installments_due. by rewrite E.
Qed.

(** The sources an approval rests on. *)
Definition approval_roles (a : CreditAuthorityType) : list string :=
  ["credit_intent"; "subject"; "principal"; "authority"; "risk_state_attestation"] ++
  match a with CreditAuthorityType_CONSENT => ["human_identity_reference"] | CreditAuthorityType_MANDATE => [] end.

Lemma approval_roles_lineage a code keys roles role :
  (code, (keys, roles)) ∈ CREDIT_REASON_LINEAGE -> code ∈ approvedCreditReasonCodes a -> role ∈ roles -> role ∈ approval_roles a.
Proof.
  intros Hl Hc Hr. assert (Hall : forallb (fun '(c, (_, rs)) => implb (bool_decide (c ∈ approvedCreditReasonCodes a))
    (forallb (fun x => bool_decide (x ∈ approval_roles a)) rs)) CREDIT_REASON_LINEAGE = true) by (destruct a; vm_compute; reflexivity).
  pose proof (proj1 (forallb_forall _ _) Hall _ (proj1 (list_elem_of_In _ _) Hl)) as K. cbn [implb] in K.
  rewrite bool_decide_eq_true_2 in K by done. cbn [implb] in K.
  apply (bool_decide_eq_true_1 (role ∈ approval_roles a)). apply (proj1 (forallb_forall _ _) K), list_elem_of_In, Hr.
Qed.

(** C32: an evidence snapshot in which every required feature holds is evidence for an
    approval: the application is within the policy, there is no adverse obligation and
    no frozen line, the sources are the given ones, finalized, one for each role and
    the intent's first, and every source role that the lineage of an approval's reasons
    names is one of them or the attestation of the risk state. *)
Theorem approval_backed_by_evidence i f given r now s :
  createCreditApplicationRiskFeatureSnapshot i f given r SANDBOX_CREDIT_DECISION_POLICY SANDBOX_CREDIT_POLICY_HASH now = Ok s ->
  ft_allRequiredFeaturesSatisfied (sn_features s) = true ->
  within_policy i /\ rst_adverseObligationCount r = 0 /\ rst_frozenCreditLineCount r = 0 /\ sources_of given (sn_sourceEvidence s) /\
  forall code keys roles role, (code, (keys, roles)) ∈ CREDIT_REASON_LINEAGE ->
    code ∈ approvedCreditReasonCodes (it_authorityType i) -> role ∈ roles ->
    role ∈ map se_role (sn_sourceEvidence s) \/ role = "risk_state_attestation".
Proof.
  intros E Hall. destruct (snapshot_inv _ _ _ _ _ _ _ _ E) as (sources & Hn & He & -> & Hf & _). rewrite Hf in Hall.
  destruct (required_features _ _ _ Hall) as (S & P & A & Hc & Hm & A0 & F0 & Hw). pose proof (normalize_sources _ _ Hn) as Hs.
  split_and!; try done. intros code keys roles role Hl Hcode Hr. pose proof (approval_roles_lineage _ _ _ _ _ Hl Hcode Hr) as Hin.
  assert (Hci : "credit_intent" ∈ map se_role sources).
  { pose proof (so_first _ _ Hs) as K. destruct sources as [|x l]; [done|]. injection K as K. cbn. rewrite K. left. }
  pose proof (eo_subject _ _ _ _ He) as H1. pose proof (eo_principal _ _ _ _ He) as H2. pose proof (eo_authority _ _ _ _ He) as H3.
  pose proof (eo_human _ _ _ _ He) as H4. rewrite S in H1. rewrite P in H2. rewrite A in H3. specialize (H1 eq_refl). specialize (H2 eq_refl). specialize (H3 eq_refl).
  clear - Hin H1 H2 H3 H4 Hc Hci. unfold approval_roles in Hin.
  destruct (it_authorityType i); [specialize (H4 (Hc eq_refl))|]; rewrite ?elem_of_app, ?elem_of_cons, ?elem_of_nil in Hin; intuition (subst; auto).
Qed.

(** ** From an application to a loan *)

(** An application within the policy. *)
Record application_ok (a : NewIntent) (principal : Z) : Prop := {
  ao_ids : named (ni_subjectId a) /\ named (ni_principalId a) /\ named (ni_authorityRef a);
  ao_asset : ni_assetId a = po_assetId SANDBOX_CREDIT_DECISION_POLICY;
  ao_amount : ni_requestedPrincipalMinor a = MString (toString principal);
  ao_principal : 0 < principal <= po_maximumPrincipalMinor SANDBOX_CREDIT_DECISION_POLICY;
  ao_purpose : assertCode "purposeCode" (ni_purposeCode a) PURPOSE_CODE_PATTERN = Ok ();
  ao_term : 1 <= ni_requestedTermDays a <= po_maximumTermDays SANDBOX_CREDIT_DECISION_POLICY;
  ao_count : ni_installmentCount a = installments_due (ni_repaymentFrequency a) (ni_requestedTermDays a) }.

(** The intent of an application. *)
Record intent_for (a : NewIntent) (principal : Z) (i : CreditIntent) : Prop := {
  if_submitted : submitted i;
  if_policy : within_policy i;
  if_principal : it_requestedPrincipalMinor i = principal;
  if_ids : it_subjectId i = ni_subjectId a /\ it_principalId i = ni_principalId a /\ it_authorityType i = ni_authorityType a /\
    it_authorityRef i = ni_authorityRef a;
  if_term : it_requestedTermDays i = ni_requestedTermDays a /\ it_repaymentFrequency i = ni_repaymentFrequency a }.

(** The platform's identifiers are short enough to be accepted. *)
Definition short_ids (y : Sys) (n : nat) : Prop :=
  forall k, (uuids y <= k < uuids y + n)%nat -> (String.length (randomUUID k) <= 36)%nat.

Lemma id_named prefix k :
  all_chars is_space prefix = false -> (String.length prefix <= 100)%nat -> (String.length (randomUUID k) <= 36)%nat -> named (id_of prefix k).
Proof.
  intros Hp Hl Hk. unfold id_of. split.
  - by rewrite all_chars_append, Hp.
  - rewrite !length_append. cbn [String.length]. unfold MAX_DOMAIN_STRING_LENGTH. lia.
Qed.

Lemma no_pii_new_intent a principal : ni_requestedPrincipalMinor a = MString (toString principal) -> no_pii (JObj (intent_core a)).
Proof. intros Ha. unfold intent_core. rewrite Ha. apply no_pii_obj; [vm_compute; reflexivity|]. cbn [map snd json_of_minor]. leaves. Qed.

Lemma policy_asset_named : named (po_assetId SANDBOX_CREDIT_DECISION_POLICY).
Proof. split; [reflexivity|]. apply Nat.leb_le. vm_compute. reflexivity. Qed.

Lemma small_amount p : 0 < p <= 500000 -> amount_ok p.
Proof. intros Hp. split; [lia|]. apply Z.le_lt_trans with 500000; [lia|]. vm_compute. reflexivity. Qed.

Lemma wp_createCreditIntent a principal now y :
  application_ok a principal -> short_ids y 1 ->
  wp (createCreditIntent a now) (fun i y' => intent_for a principal i /\ uuids y' = S (uuids y)) (fun _ _ => False) y.
Proof.
  intros [(N1 & N2 & N3) Has Ham Hp Hpu Ht Hc] Hs. pose proof (small_amount _ Hp) as Hok.
  assert (N4 : named (ni_assetId a)) by (rewrite Has; apply policy_asset_named).
  destruct (installments_due_range (ni_repaymentFrequency a) (ni_requestedTermDays a) Ht) as [Hcr _]. rewrite <- Hc in Hcr.
  unfold createCreditIntent. do 4 (apply (wp_passes _ ()); [by apply assert_named|]).
  eapply wp_passes; [destruct (ni_authorityType a); vm_compute; reflexivity|]. eapply wp_passes; [destruct (ni_repaymentFrequency a); vm_compute; reflexivity|].
  rewrite Ham. eapply wp_passes; [by apply positive_minor_amount|]. eapply wp_passes; [exact Hpu|]. cbn in Ht.
  eapply wp_passes; [apply range_Ok; unfold MAX_TERM_DAYS; lia|]. eapply wp_passes; [apply range_Ok; unfold MAX_INSTALLMENTS; lia|].
  eapply wp_passes; [by eapply no_pii_new_intent|]. apply wp_bind, wp_createOperationalId, wp_ret. split; [|done].
  split; try done; split; try done; cbn [it_creditIntentId it_subjectId it_assetId it_requestedPrincipalMinor]; [|apply Hp].
  split_and!; try done. apply (id_named "credit_intent"); [done|cbn; lia|apply Hs; lia].
Qed.

(** The intent once it has its decision. *)
Definition decided_intent (i : CreditIntent) (now : Z) : CreditIntent :=
  MkCreditIntent (it_schemaVersion i) (it_creditIntentId i) (it_creditIntentHash i) (it_subjectId i) (it_principalId i)
    (it_authorityType i) (it_authorityRef i) (it_assetId i) (it_requestedPrincipalMinor i) (it_purposeCode i)
    (it_requestedTermDays i) (it_repaymentFrequency i) (it_installmentCount i) CreditIntentStatus_DECIDED (it_sandboxOnly i)
    (it_productionFundsRequested i) (it_createdAt i) now.

(** The run of an application to its loan: submitted, evaluated, accepted. *)
Definition apply_and_accept (a : NewIntent) (f : EligibilityFacts) (given : list SourceEvidence) (r : RiskState)
    (acknowledgementHash actorId : string) (submittedAt decidedAt acceptedAt : Z) : M Sys (CreditOffer * Loan) :=
  i ← createCreditIntent a submittedAt;
  outcome ← createEvidenceDerivedCreditDecisionOutcome i None false f given r decidedAt;
  match snd outcome with
  | None => throw "offer_not_available" "the application was not approved"
  | Some offer =>
      let decision := fst outcome in let intent := decided_intent i decidedAt in
      acceptance ← lift (createCreditOfferAcceptance offer intent decision (it_authorityType intent) (it_authorityRef intent)
                           acknowledgementHash actorId acceptedAt);
      acceptedOffer ← lift (acceptCreditOffer offer (of_creditOfferHash offer) (of_termsHash offer)
                              (ac_creditOfferAcceptanceId acceptance) acceptedAt);
      obligation ← createAcceptedOfferObligation offer intent decision acceptance acceptedAt;
      mret (acceptedOffer, obligation)
  end.

Section accepted.
Context (i : CreditIntent) (d : CreditDecision) (o : CreditOffer) (codes : list string) (snapshot : option RiskFeatureSnapshot) (now : Z).
Hypothesis Hi : submitted i.
Hypothesis Hw : within_policy i.
Hypothesis Hd : decides i RiskDecisionStatus_APPROVED codes snapshot now d.
Hypothesis Ho : offers i d now o.

Lemma chain_Ok t : assertOfferChain o (decided_intent i t) d = Ok ().
Proof.
  destruct (og_chain _ _ _ _ Ho) as (C1 & C2 & C3 & C4). destruct (de_intent _ _ _ _ _ _ Hd) as (D1 & D2 & D3 & D4 & _).
  destruct (og_sandbox _ _ _ _ Ho) as [S1 S2]. unfold assertOfferChain. apply guard_Ok.
  cbn [decided_intent it_schemaVersion it_status it_creditIntentId it_subjectId it_principalId it_assetId].
  rewrite (og_version _ _ _ _ Ho), (su_version i Hi), (de_version _ _ _ _ _ _ Hd), (de_status _ _ _ _ _ _ Hd), C1, C2, C3, C4, D2, D3, D4, S1, S2, !String.eqb_refl.
  by destruct snapshot.
Qed.

Lemma acceptance_Ok ack actor t t' :
  HASH_PATTERN ack = true -> named actor -> named (it_authorityRef i) ->
  exists ac, createCreditOfferAcceptance o (decided_intent i t) d (it_authorityType i) (it_authorityRef i) ack actor t' = Ok ac /\
    named (ac_creditOfferAcceptanceId ac) /\ ac_creditOfferId ac = of_creditOfferId o /\ ac_creditIntentId ac = it_creditIntentId i /\
    ac_riskDecisionId ac = cd_riskDecisionId d /\ ac_authorityType ac = it_authorityType i /\ ac_authorityRef ac = it_authorityRef i.
Proof.
  intros Hk Ha Hr. unfold createCreditOfferAcceptance. rewrite chain_Ok. cbn [mbind result_bind]. unfold assertHash. rewrite Hk.
  cbn [negb guard mbind result_bind]. rewrite !assert_named by done. cbn [mbind result_bind decided_intent it_authorityType it_authorityRef].
  rewrite bool_decide_eq_true_2, String.eqb_refl by done. cbn [negb orb guard mbind result_bind]. match goal with |- context [assertNoRawPiiReference ?c] => assert (Hc : no_pii c) end.
  { destruct (it_authorityType i); (apply no_pii_obj; [vm_compute; reflexivity|]); cbn [map snd authority_json]; leaves. }
  rewrite Hc. cbn [mbind result_bind]. eexists. split; [done|]. split_and!; try done. apply hash_id_named; [done|cbn; lia].
Qed.

Lemma accept_Ok id t :
  named id -> now <= t < now + DAY_MS ->
  exists o', acceptCreditOffer o (of_creditOfferHash o) (of_termsHash o) id t = Ok o' /\ of_status o' = CreditOfferStatus_ACCEPTED.
Proof.
  intros Hid Ht. destruct (og_hashes _ _ _ _ Ho) as [H1 H2]. unfold acceptCreditOffer, assertHash. rewrite H1, H2.
  cbn [negb guard mbind result_bind]. rewrite assert_named by done. cbn [mbind result_bind]. rewrite (og_status _ _ _ _ Ho). unfold from_date.
  rewrite (og_valid _ _ _ _ Ho), (proj2 (Z.leb_gt _ _)), !String.eqb_refl by lia. cbn [negb orb guard mbind result_bind bool_decide].
  by eexists.
Qed.

Lemma offer_schedule_ready id : named id -> schedule_ready id o (first_payment i now) (maturity_of i now).
Proof.
  intros Hid. destruct (og_schedule _ _ _ _ Ho) as [Hf Hc]. pose proof (first_before_maturity i now Hw) as Ht.
  destruct (installments_due_range (it_repaymentFrequency i) (it_requestedTermDays i) (wp_term i Hw)) as [Hr Hb].
  rewrite <- (wp_count i Hw) in Hr, Hb.
  split; [by apply assert_named|by rewrite (og_principal _ _ _ _ Ho); apply su_amount|lia|apply Ho|apply Ho|lia|].
  rewrite Hc, Hf. intros H1. destruct (INTERVAL_DAYS (it_repaymentFrequency i)) as [iv|] eqn:E.
  - exists iv. split; [done|]. specialize (Hb iv eq_refl). apply interval_pos in E as Hiv. unfold first_payment, maturity_of, interval_days, DAY_MS.
    rewrite E. cbn [default]. rewrite Z.min_l by (cbn; nia). cbn. nia.
  - rewrite (wp_count i Hw) in H1. unfold installments_due in H1. rewrite E in H1. lia.
Qed.
End accepted.

Lemma wp_obligation_returns offer intent decision acceptance now first maturity y :
  assertOfferChain offer intent decision = Ok () -> ac_creditOfferId acceptance = of_creditOfferId offer ->
  ac_creditIntentId acceptance = it_creditIntentId intent -> ac_riskDecisionId acceptance = cd_riskDecisionId decision ->
  ac_authorityType acceptance = it_authorityType intent -> ac_authorityRef acceptance = it_authorityRef intent ->
  schedule_ready (id_of "obligation" (uuids y)) offer first maturity ->
  wp (createAcceptedOfferObligation offer intent decision acceptance now)
    (fun o _ => tm_subjectId (ln_terms o) = it_subjectId intent /\ tm_riskDecisionId (ln_terms o) = cd_riskDecisionId decision /\
       tm_authorityRef (ln_terms o) = it_authorityRef intent) (fun _ _ => False) y.
Proof.
  intros Hc A1 A2 A3 A4 A5 Hr. unfold createAcceptedOfferObligation. eapply wp_passes; [exact Hc|]. apply wp_not_thrown.
  { rewrite A1, A2, A3, A4, A5, !String.eqb_refl, bool_decide_eq_true_2 by done. done. }
  apply wp_bind, wp_createOperationalId. destruct (schedule_complete _ _ _ _ Hr) as (hash & rows & E & _).
  eapply wp_passes; [exact E|]. cbv zeta beta. eapply wp_passes; [|by apply wp_ret].
  match goal with |- assertNoRawPiiReference (JObj (loan_core ?l)) = _ => destruct (no_pii_loan_core l) as [Hk Hv]; exact (no_pii_obj _ Hk Hv) end.
Qed.

(** The evaluation of an application within the policy makes its offer. *)
Lemma wp_evaluated i f given sources r now y :
  submitted i -> within_policy i -> normalizeSourceEvidence given = Ok sources ->
  evidence_ok (it_authorityType i) f (map se_role sources) r ->
  reads (first_payment i now) -> reads (maturity_of i now) -> reads (now + DAY_MS) ->
  wp (createEvidenceDerivedCreditDecisionOutcome i None false f given r now)
    (fun x y' => exists offer snapshot, x.2 = Some offer /\ decides i RiskDecisionStatus_APPROVED (cd_reasons x.1) snapshot now x.1 /\
       offers i x.1 now offer /\ (uuids y <= uuids y' <= S (uuids y))%nat) (fun _ _ => False) y.
Proof.
  intros Hi Hw Hn He T1 T2 T3. unfold createEvidenceDerivedCreditDecisionOutcome. apply (wp_passes _ ()); [by apply assertIntent_Ok|].
  pose proof (snapshot_made i f given sources r SANDBOX_CREDIT_DECISION_POLICY SANDBOX_CREDIT_POLICY_HASH now Hn He (hashId_hex _ _)) as Hok.
  destruct (createCreditApplicationRiskFeatureSnapshot _ _ _ _ _ _ _) as [s|] eqn:E; [|done]. apply (wp_passes _ s); [done|].
  destruct (snapshot_inv _ _ _ _ _ _ _ _ E) as (_ & _ & _ & _ & _ & S1 & S2 & S3 & S4).
  eapply wp_mono; [apply wp_outcome; [done|by intros ? [= <-]|done]|..]; [|by intros e y' (c & ? & _)].
  intros x y' [Ho Hy]. assert (Hst : cd_status x.1 = RiskDecisionStatus_APPROVED) by by apply (oc_approved _ _ _ _ _ _ Ho).
  destruct (oc_offer _ _ _ _ _ _ Ho Hst) as (_ & offer & E2 & Hof). exists offer, (Some s). split_and!; try done; try lia.
  rewrite <- Hst. apply (oc_decides _ _ _ _ _ _ Ho).
Qed.

(** The evidence speaks for the applicant: everyone is eligible, the authority and
    what it rests on are current, and nothing adverse or frozen is on record. *)
Record evidence_clear (a : CreditAuthorityType) (f : EligibilityFacts) (r : RiskState) : Prop := {
  ec_subject : ef_subjectEligible f = true /\ ef_subjectSuspended f = false;
  ec_principal : ef_principalEligible f = true;
  ec_authority : ef_authorityCurrent f = true;
  ec_basis : is_true (match a with CreditAuthorityType_CONSENT => ef_identityEvidenceCurrent f
                                 | CreditAuthorityType_MANDATE => ef_principalBindingCurrent f end) = true;
  ec_adverse : rst_adverseObligationCount r = 0;
  ec_frozen : rst_frozenCreditLineCount r = 0 }.

(** C30: a creditworthy application within the policy becomes a loan.  Submitted,
    evaluated with no denial passed on evidence that is well formed and clear (subject
    and principal eligible and not suspended, the authority and the identity evidence or
    binding behind it current, no adverse obligation and no frozen line), and accepted
    under its own hashes within a day of the decision, it goes through every step and
    ends with the offer accepted and an obligation of exactly the requested principal,
    not yet executed, that satisfies the loans' invariant and is bound to the applicant
    and the authority.  The identifiers minted on the way are not too long and the dates
    of the offer read back as dates. *)
Theorem application_becomes_loan `{!DateLaws} a principal f given sources r ack actor submittedAt decidedAt acceptedAt y :
  application_ok a principal -> normalizeSourceEvidence given = Ok sources ->
  evidence_ok (ni_authorityType a) f (map se_role sources) r -> evidence_clear (ni_authorityType a) f r ->
  HASH_PATTERN ack = true -> named actor ->
  decidedAt <= acceptedAt < decidedAt + DAY_MS -> short_ids y 3 ->
  reads (decidedAt + Z.min (interval_days (ni_repaymentFrequency a) (ni_requestedTermDays a)) (ni_requestedTermDays a) * DAY_MS) ->
  reads (decidedAt + ni_requestedTermDays a * DAY_MS) -> reads (decidedAt + DAY_MS) ->
  match apply_and_accept a f given r ack actor submittedAt decidedAt acceptedAt y with
  | (Ok (offer, loan), _) => of_status offer = CreditOfferStatus_ACCEPTED /\ LoanInv loan /\ ln_status loan = ObligationStatus_CREATED /\
      ln_principal loan = principal /\ ex_executionStatus (ln_execution loan) = ObligationExecutionStatus_PENDING /\
      tm_subjectId (ln_terms loan) = ni_subjectId a /\ tm_authorityRef (ln_terms loan) = ni_authorityRef a
  | (Err _, _) => False
  end.
Proof.
  intros Ha Hn He _ Hk Hac Ht Hid T1 T2 T3. enough (Hw : wp (apply_and_accept a f given r ack actor submittedAt decidedAt acceptedAt)
    (fun x _ => of_status x.1 = CreditOfferStatus_ACCEPTED /\ LoanInv x.2 /\ ln_status x.2 = ObligationStatus_CREATED /\
      ln_principal x.2 = principal /\ ex_executionStatus (ln_execution x.2) = ObligationExecutionStatus_PENDING /\
      tm_subjectId (ln_terms x.2) = ni_subjectId a /\ tm_authorityRef (ln_terms x.2) = ni_authorityRef a) (fun _ _ => False) y).
  { unfold wp in Hw. by destruct (apply_and_accept a f given r ack actor submittedAt decidedAt acceptedAt y) as [[[offer loan]|] ?]. }
  unfold apply_and_accept. apply wp_bind. eapply wp_mono; [apply (wp_createCreditIntent a principal); [done|intros k ?; apply Hid; lia]| |done].
  intros i y1 [[Hi Hw Hp (I1 & I2 & I3 & I4) [I5 I6]] Hy1]. rewrite <- I3 in He. rewrite <- I5, <- I6 in T1. rewrite <- I5 in T2.
  apply wp_bind. eapply wp_mono; [exact (wp_evaluated i f given sources r decidedAt y1 Hi Hw Hn He T1 T2 T3)| |done].
  intros [d oo] y2 (offer & snapshot & Eo & Hd & Ho & Hy2). cbn [fst snd] in *. subst oo. destruct (ao_ids _ _ Ha) as (_ & _ & N3). rewrite <- I4 in N3.
  destruct (acceptance_Ok i d offer _ _ _ Hi Hd Ho ack actor decidedAt acceptedAt Hk Hac N3) as (ac & Eac & Nac & C1 & C2 & C3 & C4 & C5).
  destruct (accept_Ok i d offer _ Ho (ac_creditOfferAcceptanceId ac) acceptedAt Nac Ht) as (o' & Eo' & Ho').
  cbv zeta. eapply wp_passes; [exact Eac|]. eapply wp_passes; [exact Eo'|]. apply wp_bind.
  assert (Hn2 : named (id_of "obligation" (uuids y2))) by (apply id_named; [done|cbn; lia|apply Hid; lia]).
  pose proof (offer_schedule_ready i d offer _ Hi Hw Ho _ Hn2) as Hready. destruct (su_amount i Hi) as [Hpos _].
  assert (Hrate : 0 <= of_annualRateBps offer) by (destruct (og_rate _ _ _ _ Ho) as [Hr _]; rewrite !elem_of_cons, elem_of_nil in Hr; lia).
  eapply wp_mono; [apply wp_conj; [eapply wp_obligation_returns; [by eapply chain_Ok|done..|exact Hready]|
    apply wp_createAcceptedOfferObligation; [rewrite (og_principal _ _ _ _ Ho); lia|done]]|..|by intros e y' [? _]].
  intros o y3 [(R1 & R2 & R3) (L1 & L2 & L3 & L4)]. apply wp_ret. cbn [fst snd]. rewrite L4, (og_principal _ _ _ _ Ho). cbn [decided_intent it_subjectId it_authorityRef] in *. rewrite R1, R3. split_and!; try done; congruence.
Qed.
End decision.
