(* ===== verification/Risk.v ===== *)
(** * Credit lines

    [RiskService] of src/modules/risk/src/risk-service.js, with
    [createRiskDecision] and [createCreditLine] of
    src/packages/domain/src/models.js.  The authorization service is the mandate
    service, which may be absent. *)

From stdpp Require Import base tactics sets relations gmap numbers strings list.
From S2P Require Import Prelude Js Enums EventStore Service Mandate.
Local Open Scope string_scope.
Local Open Scope Z_scope.

(** ** Data *)

Record Reason := MkReason { rn_code : string; rn_message : string }.

Record RiskDecision := MkRiskDecision {
  rd_riskDecisionId : string; rd_subjectId : string; rd_mandateId : string; rd_assetId : string;
  rd_status : CreditLineStatus; rd_limitMinor : Z; rd_utilizationMinor : Z; rd_action : RiskAction;
  rd_reasons : list Reason; rd_createdAt : string }.

Record CreditLine := MkCreditLine {
  cl_creditLineId : string; cl_subjectId : string; cl_mandateId : string; cl_assetId : string;
  cl_limitMinor : Z; cl_utilizedMinor : Z; cl_status : CreditLineStatus; cl_riskSnapshotId : string;
  cl_createdAt : string; cl_updatedAt : string }.

Record Risk := MkRisk {
  authorizationService : option Mandates;
  globalSubjectCapMinor : Z; advanceRate30dBps : Z; advanceRate7dBps : Z;
  creditLines : jsmap CreditLine; creditLineIdsBySubjectAsset : jsmap string; decisions : jsmap RiskDecision }.

(** [new RiskService({ ... })] *)
Definition new_risk (authorization : option Mandates) (cap rate30d rate7d : Z) : Risk :=
  MkRisk authorization cap rate30d rate7d [] [] [].

(** [inputs] of [requestCreditLine]; [None] is an absent property. *)
Record RiskInputs := MkRiskInputs {
  ri_lockboxStatus : option LockboxStatus; ri_principalStatus : option PrincipalStatus;
  ri_allowlistedProviderCount : option Z; ri_overdueCount : option Z; ri_revenueCaptureRatioBps : option Z;
  ri_capturedRevenue30dMinor : option minor; ri_capturedRevenue7dMinor : option minor;
  ri_existingOutstandingMinor : option minor; ri_perChainCapRemainingMinor : option minor;
  ri_providerCapRemainingMinor : option minor }.

Definition set_authorization (a : Mandates) (t : Risk) : Risk :=
  MkRisk (Some a) (globalSubjectCapMinor t) (advanceRate30dBps t) (advanceRate7dBps t)
    (creditLines t) (creditLineIdsBySubjectAsset t) (decisions t).
Definition put_line (l : CreditLine) (t : Risk) : Risk :=
  MkRisk (authorizationService t) (globalSubjectCapMinor t) (advanceRate30dBps t) (advanceRate7dBps t)
    (map_set (cl_creditLineId l) l (creditLines t)) (creditLineIdsBySubjectAsset t) (decisions t).
Definition put_index (key id : string) (t : Risk) : Risk :=
  MkRisk (authorizationService t) (globalSubjectCapMinor t) (advanceRate30dBps t) (advanceRate7dBps t)
    (creditLines t) (map_set key id (creditLineIdsBySubjectAsset t)) (decisions t).
Definition put_decision (d : RiskDecision) (t : Risk) : Risk :=
  MkRisk (authorizationService t) (globalSubjectCapMinor t) (advanceRate30dBps t) (advanceRate7dBps t)
    (creditLines t) (creditLineIdsBySubjectAsset t) (map_set (rd_riskDecisionId d) d (decisions t)).

Definition with_snapshot (decisionId mandateId at_ : string) (l : CreditLine) : CreditLine :=
  MkCreditLine (cl_creditLineId l) (cl_subjectId l) mandateId (cl_assetId l) (cl_limitMinor l) (cl_utilizedMinor l)
    (cl_status l) decisionId (cl_createdAt l) at_.
Definition with_amounts (limit utilized : Z) (at_ : string) (l : CreditLine) : CreditLine :=
  MkCreditLine (cl_creditLineId l) (cl_subjectId l) (cl_mandateId l) (cl_assetId l) limit utilized
    (cl_status l) (cl_riskSnapshotId l) (cl_createdAt l) at_.
Definition with_line_status (st : CreditLineStatus) (at_ : string) (l : CreditLine) : CreditLine :=
  MkCreditLine (cl_creditLineId l) (cl_subjectId l) (cl_mandateId l) (cl_assetId l) (cl_limitMinor l)
    (cl_utilizedMinor l) st (cl_riskSnapshotId l) (cl_createdAt l) at_.

(** ** The rules *)

(** [values.reduce((min, value) => (value < min ? value : min))] *)
Definition minBigInt (first : Z) (rest : list Z) : Z :=
  foldl (fun min value => if value <? min then value else min) first rest.

(** What the rules accumulate: the reasons, the status and the action. *)
Record Assessment := MkAssessment { as_reasons : list Reason; as_status : CreditLineStatus; as_action : RiskAction }.

(** [if (c) { reasons.push({ code, message }); status = st; action = ac }] *)
Definition rule (c : bool) (code message : string) (st : CreditLineStatus) (ac : option RiskAction) (a : Assessment)
    : Assessment :=
  if c then MkAssessment (as_reasons a ++ [MkReason code message]) st (default (as_action a) ac) else a.

Definition assess (i : RiskInputs) : Assessment :=
  let a := MkAssessment [] CreditLineStatus_APPROVED RiskAction_NONE in
  let a := rule (negb (bool_decide (ri_lockboxStatus i = Some LockboxStatus_ACTIVE))) "lockbox_not_active"
             "Lockbox must be active before credit approval." CreditLineStatus_REJECTED None a in
  let a := rule (negb (bool_decide (ri_principalStatus i = Some PrincipalStatus_ACTIVE))) "principal_not_active"
             "Principal must be active." CreditLineStatus_REJECTED None a in
  let a := rule (default 0 (ri_allowlistedProviderCount i) <=? 0) "no_allowlisted_provider"
             "At least one allowlisted Provider is required." CreditLineStatus_REJECTED None a in
  let a := rule (0 <? default 0 (ri_overdueCount i)) "overdue_obligation"
             "Open overdue obligations freeze new credit." CreditLineStatus_FROZEN (Some RiskAction_FREEZE_LOCKBOX) a in
  rule (default 10000 (ri_revenueCaptureRatioBps i) <? 9000) "capture_ratio_below_threshold"
    "Revenue capture ratio is below the MVP threshold." CreditLineStatus_FROZEN (Some RiskAction_REDUCE_LIMIT) a.

(** The available limit and the reported outstanding amount. *)
Definition limits (t : Risk) (i : RiskInputs) : result (Z * Z) :=
  let zero := MString "0" in
  let cap := MString (toString (globalSubjectCapMinor t)) in
  captured30d ← assertNonNegativeMinorUnits (default zero (ri_capturedRevenue30dMinor i)) "capturedRevenue30dMinor";
  captured7d ← assertNonNegativeMinorUnits (default zero (ri_capturedRevenue7dMinor i)) "capturedRevenue7dMinor";
  existingOutstanding ← assertNonNegativeMinorUnits (default zero (ri_existingOutstandingMinor i)) "existingOutstandingMinor";
  perChainRemaining ← assertNonNegativeMinorUnits (default cap (ri_perChainCapRemainingMinor i)) "perChainCapRemainingMinor";
  providerCapRemaining ← assertNonNegativeMinorUnits (default cap (ri_providerCapRemainingMinor i)) "providerCapRemainingMinor";
  let limitFrom30d := Z.quot (captured30d * advanceRate30dBps t) 10000 in
  let limitFrom7d := Z.quot (captured7d * advanceRate7dBps t) 10000 in
  let grossLimit := minBigInt limitFrom30d [limitFrom7d; globalSubjectCapMinor t; perChainRemaining; providerCapRemaining] in
  Ok (if existingOutstanding <? grossLimit then grossLimit - existingOutstanding else 0, existingOutstanding).

(** ** Operations *)

Section operations.
Context `{Platform}.

(** A method of the authorization service, or the error of its absence. *)
Definition on_authorization {A} (m : M (Sys * Mandates) A) : M (Sys * Risk) A :=
  call_opt authorizationService set_authorization
    (MkDomainError "authorization_unavailable" "authorization service is unavailable") m.

Definition requireCreditLine (creditLineId : string) : M (Sys * Risk) CreditLine :=
  m ← own creditLines;
  some_or (map_get creditLineId m) "credit_line_not_found" "credit line not found".

Definition createRiskDecision (subjectId mandateId assetId : string) (a : Assessment) (limit utilization : Z)
    : M Sys RiskDecision :=
  now ← default_now None;
  riskDecisionId ← createOperationalId "risk_decision";
  mret (MkRiskDecision riskDecisionId subjectId mandateId assetId (as_status a) limit utilization (as_action a)
          (as_reasons a) (toISOString now)).

Definition createCreditLine (subjectId mandateId assetId : string) (limit : Z) (riskSnapshotId : string) : M Sys CreditLine :=
  now ← default_now None;
  creditLineId ← createOperationalId "credit_line";
  mret (MkCreditLine creditLineId subjectId mandateId assetId limit 0 CreditLineStatus_APPROVED riskSnapshotId
          (toISOString now) (toISOString now)).

Definition decision_json (d : RiskDecision) : json :=
  JObj [("riskDecisionId", JStr (rd_riskDecisionId d)); ("subjectId", JStr (rd_subjectId d));
        ("mandateId", JStr (rd_mandateId d)); ("assetId", JStr (rd_assetId d)); ("status", JStr (value (rd_status d)));
        ("modelVersion", JStr "risk-rules-v0"); ("limitMinor", JStr (toString (rd_limitMinor d)));
        ("utilizationMinor", JStr (toString (rd_utilizationMinor d))); ("action", JStr (value (rd_action d)));
        ("reasons", JArr (map (fun r => JObj [("code", JStr (rn_code r)); ("message", JStr (rn_message r))]) (rd_reasons d)));
        ("createdAt", JStr (rd_createdAt d)); ("schemaVersion", JStr "risk_decision.v1")].
Definition line_json (l : CreditLine) : json :=
  JObj [("creditLineId", JStr (cl_creditLineId l)); ("subjectId", JStr (cl_subjectId l));
        ("mandateId", JStr (cl_mandateId l)); ("assetId", JStr (cl_assetId l));
        ("limitMinor", JStr (toString (cl_limitMinor l))); ("utilizedMinor", JStr (toString (cl_utilizedMinor l)));
        ("status", JStr (value (cl_status l))); ("riskSnapshotId", JStr (cl_riskSnapshotId l));
        ("createdAt", JStr (cl_createdAt l)); ("updatedAt", JStr (cl_updatedAt l)); ("schemaVersion", JStr "credit_line.v1")].

(** An error of the domain, which [requestCreditLine] catches. *)
Definition is_domain_error (e : DomainError) : bool := negb (String.eqb (err_code e) "TypeError").

(** The [try ... catch] around the authorization. *)
Definition authorize_request (subjectId mandateId assetId : string) (availableLimit : Z) (a : Assessment)
    : M (Sys * Risk) Assessment :=
  outcome ← attempt (on_authorization (assertAuthorized (MkAuthorize mandateId subjectId
    (value MandateCapability_REQUEST_CREDIT) None None assetId
    (if 0 <? availableLimit then Some (MString (toString availableLimit)) else None) false None)));
  match outcome with
  | Ok _ => mret a
  | Err e =>
      if is_domain_error e then
        mret (MkAssessment (as_reasons a ++ [MkReason (err_code e) (DomainError_message e)])
                (if bool_decide (as_status a = CreditLineStatus_APPROVED) then CreditLineStatus_REJECTED else as_status a)
                (as_action a))
      else lift (Err e)
  end.

Definition approved (a : Assessment) : bool := bool_decide (as_status a = CreditLineStatus_APPROVED).

Definition requestCreditLine (subjectId mandateId assetId : string) (inputs : RiskInputs)
    : M (Sys * Risk) (RiskDecision * option CreditLine) :=
  t ← own id;
  l ← lift (limits t inputs);
  let '(availableLimit, existingOutstanding) := l in
  a ← authorize_request subjectId mandateId assetId availableLimit (assess inputs);
  let a := rule ((availableLimit <=? 0) && approved a) "no_available_limit" "Calculated credit line is zero."
             CreditLineStatus_REJECTED None a in
  let a := rule (approved a) "approved_by_rules_v0" "Deterministic v0 rules approved the request."
             CreditLineStatus_APPROVED None a in
  let subjectAssetKey := subjectId +:+ NUL +:+ assetId in
  existingCreditLineId ← own (fun t => truthy (map_get subjectAssetKey (creditLineIdsBySubjectAsset t)));
  existingCreditLine ← match existingCreditLineId with
                       | Some id => line ← requireCreditLine id; mret (Some line)
                       | None => mret None
                       end;
  match existingCreditLine with
  | Some line =>
      throw_if (approved a && bool_decide (cl_status line = CreditLineStatus_CLOSED)) "credit_line_closed"
        "closed credit lines require an explicit replacement workflow" ;;
      throw_if (approved a && negb (cl_utilizedMinor line =? existingOutstanding)) "risk_state_mismatch"
        "reported outstanding does not match credit line utilization"
  | None => mret ()
  end ;;
  let a := rule (approved a && match existingCreditLine with Some _ => true | None => false end)
             "existing_credit_line_reused" "Existing subject and asset credit line was reused."
             CreditLineStatus_APPROVED None a in
  decision ← sys (createRiskDecision subjectId mandateId assetId a
    (if approved a then default availableLimit (cl_limitMinor <$> existingCreditLine) else 0)
    (default existingOutstanding (cl_utilizedMinor <$> existingCreditLine)));
  update (put_decision decision) ;;
  creditLine ← (if approved a then
      match existingCreditLine with
      | Some line =>
          at_ ← sys new_Date;
          let line := with_snapshot (rd_riskDecisionId decision) mandateId (toISOString at_) line in
          update (put_line line) ;;
          mret (Some line)
      | None =>
          line ← sys (createCreditLine subjectId mandateId assetId availableLimit (rd_riskDecisionId decision));
          update (put_line line) ;;
          update (put_index subjectAssetKey (cl_creditLineId line)) ;;
          mret (Some line)
      end
    else mret None);
  sys (emit CreditEventType_RISK_DECISION_CREATED (Some subjectId) None None
    (JObj [("decision", decision_json decision);
           ("creditLine", match creditLine with Some line => line_json line | None => JUndef end)]) None) ;;
  match creditLine, existingCreditLine with
  | Some line, None =>
      sys (emit CreditEventType_CREDIT_LINE_GRANTED (Some subjectId) None None
        (JObj [("creditLineId", JStr (cl_creditLineId line)); ("limitMinor", JStr (toString (cl_limitMinor line)));
               ("riskDecisionId", JStr (rd_riskDecisionId decision))]) None)
  | _, _ => mret ()
  end ;;
  mret (decision, creditLine).

Definition utilization_json (creditLineId : string) (amount utilized : Z) : json :=
  JObj [("creditLineId", JStr creditLineId); ("amountMinor", JStr (toString amount));
        ("utilizedMinor", JStr (toString utilized))].

Definition reserveUtilization (creditLineId : string) (amountMinor : minor) : M (Sys * Risk) CreditLine :=
  line ← requireCreditLine creditLineId;
  throw_if (negb (bool_decide (cl_status line = CreditLineStatus_APPROVED))) "credit_line_not_approved"
    "credit line is not approved" ;;
  amount ← lift (assertPositiveMinorUnits amountMinor "amountMinor");
  let nextUtilized := cl_utilizedMinor line + amount in
  throw_if (cl_limitMinor line <? nextUtilized) "credit_line_limit_exceeded" "credit line utilization exceeds limit" ;;
  at_ ← sys new_Date;
  let line := with_amounts (cl_limitMinor line) nextUtilized (toISOString at_) line in
  update (put_line line) ;;
  sys (emit CreditEventType_CREDIT_LINE_UTILIZED (Some (cl_subjectId line)) None None
    (utilization_json creditLineId amount (cl_utilizedMinor line)) None) ;;
  mret line.

Definition releaseUtilization (creditLineId : string) (amountMinor : minor) : M (Sys * Risk) CreditLine :=
  line ← requireCreditLine creditLineId;
  throw_if (bool_decide (cl_status line = CreditLineStatus_CLOSED)) "credit_line_closed"
    "closed credit line utilization cannot change" ;;
  releaseAmount ← lift (assertPositiveMinorUnits amountMinor "amountMinor");
  let utilized := cl_utilizedMinor line in
  throw_if (utilized <? releaseAmount) "release_exceeds_utilization"
    "released utilization exceeds the reserved amount" ;;
  at_ ← sys new_Date;
  let line := with_amounts (cl_limitMinor line) (utilized - releaseAmount) (toISOString at_) line in
  update (put_line line) ;;
  sys (emit CreditEventType_CREDIT_LINE_RELEASED (Some (cl_subjectId line)) None None
    (utilization_json creditLineId releaseAmount (cl_utilizedMinor line)) None) ;;
  mret line.

Definition setCreditLineStatus (creditLineId : string) (nextStatus : CreditLineStatus) (adminId reason : string)
    : M (Sys * Risk) CreditLine :=
  line ← requireCreditLine creditLineId;
  lift (assertNonEmptyString "reason" (JStr reason)) ;;
  throw_if (bool_decide (cl_status line = CreditLineStatus_CLOSED)) "credit_line_closed"
    "closed credit line status cannot change" ;;
  if bool_decide (cl_status line = nextStatus) then mret line else
  let previousStatus := cl_status line in
  at_ ← sys new_Date;
  let line := with_line_status nextStatus (toISOString at_) line in
  update (put_line line) ;;
  sys (emit CreditEventType_CREDIT_LINE_STATUS_CHANGED (Some (cl_subjectId line)) None None
    (JObj [("creditLineId", JStr creditLineId); ("previousStatus", JStr (value previousStatus));
           ("newStatus", JStr (value nextStatus)); ("reason", JStr reason)]) None) ;;
  sys (emit_audit adminId ("credit_line_" +:+ value nextStatus) "credit_line" creditLineId reason
    (JObj [("subjectId", JStr (cl_subjectId line)); ("previousStatus", JStr (value previousStatus));
           ("newStatus", JStr (value nextStatus))]) None) ;;
  mret line.

Definition freezeCreditLine (creditLineId adminId reason : string) :=
  setCreditLineStatus creditLineId CreditLineStatus_FROZEN adminId reason.
Definition closeCreditLine (creditLineId adminId reason : string) :=
  setCreditLineStatus creditLineId CreditLineStatus_CLOSED adminId reason.

Definition adjustCreditLine (creditLineId : string) (limitMinor : minor) (adminId reason : string)
    : M (Sys * Risk) CreditLine :=
  line ← requireCreditLine creditLineId;
  lift (assertNonEmptyString "reason" (JStr reason)) ;;
  nextLimit ← lift (assertNonNegativeMinorUnits limitMinor "limitMinor");
  throw_if (nextLimit <? cl_utilizedMinor line) "limit_below_utilization" "new limit cannot be below utilization" ;;
  let previousLimitMinor := cl_limitMinor line in
  at_ ← sys new_Date;
  let line := with_amounts nextLimit (cl_utilizedMinor line) (toISOString at_) line in
  update (put_line line) ;;
  sys (emit CreditEventType_CREDIT_LINE_ADJUSTED (Some (cl_subjectId line)) None None
    (JObj [("creditLineId", JStr creditLineId); ("previousLimitMinor", JStr (toString previousLimitMinor));
           ("limitMinor", JStr (toString (cl_limitMinor line))); ("reason", JStr reason)]) None) ;;
  sys (emit_audit adminId "adjust_credit_line" "credit_line" creditLineId reason
    (JObj [("subjectId", JStr (cl_subjectId line)); ("previousLimitMinor", JStr (toString previousLimitMinor));
           ("limitMinor", JStr (toString (cl_limitMinor line)))]) None) ;;
  mret line.
End operations.

(** ** Queries *)

Definition getCreditLine (t : Risk) (creditLineId : string) : result CreditLine :=
  match map_get creditLineId (creditLines t) with
  | Some l => Ok l
  | None => fail "credit_line_not_found" "credit line not found"
  end.
Definition listCreditLines (t : Risk) (filter : CreditLine -> bool) : list CreditLine :=
  List.filter filter (map_values (creditLines t)).
