(* ===== verification/RiskProps.v ===== *)
(** * The credit lines' theorems *)

From stdpp Require Import base tactics sets relations gmap numbers strings list.
From S2P Require Import Prelude Js Enums EventStore Service Mandate MandateProps Risk.
Local Open Scope string_scope.
Local Open Scope Z_scope.

(** ** The invariant *)

Definition line_key (l : CreditLine) : string := cl_subjectId l +:+ NUL +:+ cl_assetId l.

(** What an operation may change of a credit line: its parties stay, a closed
    line keeps its status and utilization, and no line is approved again. *)
Record line_evolves (l l' : CreditLine) : Prop := {
  lv_id : cl_creditLineId l' = cl_creditLineId l;
  lv_subject : cl_subjectId l' = cl_subjectId l;
  lv_asset : cl_assetId l' = cl_assetId l;
  lv_closed : cl_status l = CreditLineStatus_CLOSED ->
    cl_status l' = CreditLineStatus_CLOSED /\ cl_utilizedMinor l' = cl_utilizedMinor l;
  lv_approved : cl_status l' = CreditLineStatus_APPROVED -> cl_status l = CreditLineStatus_APPROVED }.

#[export] Instance line_evolves_preorder : PreOrder line_evolves.
Proof.
  split.
  - intros l. by split.
  - intros a b c [] []. split; try congruence.
    + intros Hc. destruct (lv_closed0 Hc) as [? ?]. destruct lv_closed1; [done|]. split; congruence.
    + auto.
Qed.

Record risk_evolves (t t' : Risk) : Prop := {
  rk_authorization : match authorizationService t with
                     | Some a => exists a', authorizationService t' = Some a' /\ mandates_evolve a a'
                     | None => authorizationService t' = None
                     end;
  rk_cap : globalSubjectCapMinor t' = globalSubjectCapMinor t;
  rk_30d : advanceRate30dBps t' = advanceRate30dBps t;
  rk_7d : advanceRate7dBps t' = advanceRate7dBps t;
  rk_lines : forall id l, map_get id (creditLines t) = Some l ->
    exists l', map_get id (creditLines t') = Some l' /\ line_evolves l l' }.

#[export] Instance risk_evolves_preorder : PreOrder risk_evolves.
Proof.
  split.
  - intros t. split; try done.
    + destruct (authorizationService t) as [a|]; [by exists a|done].
    + intros id l Hl. by exists l.
  - intros t1 t2 t3 [A1 C1 R1 S1 L1] [A2 C2 R2 S2 L2]. split; try congruence.
    + destruct (authorizationService t1) as [a1|].
      * destruct A1 as (a2 & E2 & V12). rewrite E2 in A2. destruct A2 as (a3 & E3 & V23). exists a3. split; [done|by etrans].
      * by rewrite A1 in A2.
    + intros id l Hl. destruct (L1 id l Hl) as (l1 & H1 & E1). destruct (L2 id l1 H1) as (l2 & H2 & E2).
      exists l2. split; [done|by etrans].
Qed.

Section risk.
Context `{PlatformLaws}.

Record RiskInv (n : nat) (t : Risk) : Prop := {
  ki_authorization : forall a, authorizationService t = Some a -> MandateInv n a;
  ki_lines : forall id l, map_get id (creditLines t) = Some l ->
    cl_creditLineId l = id /\ minted "credit_line" n id /\ 0 <= cl_utilizedMinor l <= cl_limitMinor l /\
    map_get (line_key l) (creditLineIdsBySubjectAsset t) = Some id;
  ki_index : forall k id, map_get k (creditLineIdsBySubjectAsset t) = Some id ->
    exists l, map_get id (creditLines t) = Some l /\ line_key l = k }.

Lemma RiskInv_mono n m t : (n <= m)%nat -> RiskInv n t -> RiskInv m t.
Proof.
  intros Hle [Ha Hl Hx]. split; [intros a E; by eapply MandateInv_mono; [|apply Ha]| |done].
  intros id l Hg. destruct (Hl id l Hg) as (? & ? & ? & ?). split_and!; try done; try lia. by eapply minted_mono.
Qed.

Lemma RiskInv_new n a cap r30 r7 : (forall m, a = Some m -> MandateInv n m) -> RiskInv n (new_risk a cap r30 r7).
Proof. intros Ha. by split. Qed.

Abbreviation keeps := (keeps RiskInv risk_evolves).
Abbreviation kept := (kept RiskInv risk_evolves).

Ltac unchanged := apply (kept_same _ _ RiskInv_mono); [assumption|cbn [fst]; grows].

(** ** The parts of the state *)

Lemma put_line_ok n t l l' :
  RiskInv n t -> map_get (cl_creditLineId l) (creditLines t) = Some l -> line_evolves l l' ->
  0 <= cl_utilizedMinor l' <= cl_limitMinor l' ->
  RiskInv n (put_line l' t) /\ risk_evolves t (put_line l' t).
Proof.
  intros Hi Hg He Hb. destruct (ki_lines _ _ Hi _ _ Hg) as (_ & Hm & _ & Hk).
  assert (Hkey : line_key l' = line_key l) by (unfold line_key; by rewrite (lv_subject _ _ He), (lv_asset _ _ He)).
  split; split; cbn; try done; try apply Hi.
  - intros id l1. rewrite map_get_set, (lv_id _ _ He). case_decide as E; [|apply Hi]. intros [= <-]. subst id.
    split_and!; [by apply He|done|lia|lia|by rewrite Hkey].
  - intros k id (l1 & Hl1 & Hk1)%(ki_index _ _ Hi). rewrite map_get_set, (lv_id _ _ He).
    case_decide as E; [|by exists l1]. exists l'. split; [done|]. subst id. rewrite Hg in Hl1. injection Hl1 as <-. congruence.
  - destruct (authorizationService t) as [a|]; [by exists a|done].
  - intros id l1 Hl1. rewrite map_get_set, (lv_id _ _ He). case_decide as E; [|by exists l1].
    exists l'. split; [done|]. subst id. rewrite Hg in Hl1. by injection Hl1 as <-.
Qed.

Lemma new_line_ok n t l :
  RiskInv n t -> cl_creditLineId l = id_of "credit_line" n -> 0 <= cl_utilizedMinor l <= cl_limitMinor l ->
  map_get (line_key l) (creditLineIdsBySubjectAsset t) = None ->
  RiskInv (S n) (put_index (line_key l) (cl_creditLineId l) (put_line l t)) /\
  risk_evolves t (put_index (line_key l) (cl_creditLineId l) (put_line l t)).
Proof.
  intros Hi Hid Hb Hk.
  assert (Hf : map_get (cl_creditLineId l) (creditLines t) = None).
  { destruct (map_get _ (creditLines t)) as [l'|] eqn:E; [|done].
    apply (ki_lines _ _ Hi) in E as (_ & Hm & _). apply minted_fresh in Hm. congruence. }
  assert (Hin : forall id l', map_get id (creditLines t) = Some l' -> map_get id (creditLines (put_line l t)) = Some l').
  { intros id l' Hl'. cbn. rewrite map_get_set_ne; [done|]. intros E. rewrite E in Hf. congruence. }
  split; split; cbn [put_index put_line creditLines creditLineIdsBySubjectAsset authorizationService]; try done.
  - intros a Ha. eapply MandateInv_mono; [|by apply (ki_authorization _ _ Hi)]. lia.
  - intros id l1. rewrite map_get_set. case_decide as E.
    + intros [= <-]. subst id. split_and!; [done|rewrite Hid; apply minted_new|lia|lia|apply map_get_set_eq].
    + intros Hl1. destruct (ki_lines _ _ Hi _ _ Hl1) as (? & ? & ? & Hk1).
      split_and!; [done|eapply minted_mono; [|done]; lia|lia|lia|]. rewrite map_get_set_ne; [done|].
      intros E'. rewrite <- E' in Hk1. congruence.
  - intros k id. rewrite map_get_set. case_decide as E.
    + intros [= <-]. exists l. by rewrite map_get_set_eq.
    + intros (l1 & Hl1 & Hk1)%(ki_index _ _ Hi). exists l1. split; [by apply Hin|done].
  - destruct (authorizationService t) as [a|]; [by exists a|done].
  - intros id l1 Hl1. exists l1. split; [by apply Hin|done].
Qed.

Lemma put_decision_ok n t d : RiskInv n t -> RiskInv n (put_decision d t) /\ risk_evolves t (put_decision d t).
Proof.
  intros []. split; [by split|]. split; try done; cbn.
  - destruct (authorizationService t) as [a|]; [by exists a|done].
  - intros id l Hl. by exists l.
Qed.

Lemma set_authorization_ok n m t a a' :
  RiskInv n t -> (n <= m)%nat -> authorizationService t = Some a -> MandateInv m a' -> mandates_evolve a a' ->
  RiskInv m (set_authorization a' t) /\ risk_evolves t (set_authorization a' t).
Proof.
  intros Hi Hle Ha Hi' He. apply (RiskInv_mono _ m) in Hi; [|done]. destruct Hi. split; split; cbn; try done.
  - by intros ? [= <-].
  - rewrite Ha. by exists a'.
  - intros id l Hl. by exists l.
Qed.

(** A method of the authorization service, when there is one. *)
Lemma wp_on_authorization {A} (m : M (Sys * Mandates) A) y t (Q : A -> Sys * Risk -> Prop) E
    (Qm : Mandates -> A -> Sys * Mandates -> Prop) :
  RiskInv (uuids y) t ->
  (forall a, MandateInv (uuids y) a ->
     wp m (fun x s => Service.kept MandateInv mandates_evolve y a s /\ Qm a x s)
       (fun _ s => Service.kept MandateInv mandates_evolve y a s) (y, a)) ->
  (forall a x y' a', authorizationService t = Some a -> kept y t (y', set_authorization a' t) -> Qm a x (y', a') ->
     Q x (y', set_authorization a' t)) ->
  (forall e y' t', kept y t (y', t') -> t' = t \/ (exists a', t' = set_authorization a' t) -> E e (y', t')) ->
  wp (on_authorization m) Q E (y, t).
Proof.
  intros Hi Hm HQ HE. apply wp_call_opt; [intros _; apply HE; [unchanged|by left]|]. intros a Ha.
  eapply wp_mono; [by apply Hm, (ki_authorization _ _ Hi)|..].
  - intros x [y' a'] [(Hi' & Hg & He) HQm]. cbn [fst snd] in *. eapply HQ; [done| |done].
    destruct (set_authorization_ok _ _ _ _ a' Hi (gr_uuids _ _ Hg) Ha Hi' He). by split_and!.
  - intros e [y' a'] (Hi' & Hg & He). cbn [fst snd] in *.
    destruct (set_authorization_ok _ _ _ _ a' Hi (gr_uuids _ _ Hg) Ha Hi' He). apply HE; [by split_and!|right; by exists a'].
Qed.

(** ** Utilization *)

(** The line [l] of [t] became [l'], and nothing else changed. *)
Definition line_moved (t : Risk) (id : string) (l l' : CreditLine) (t' : Risk) : Prop :=
  map_get id (creditLines t) = Some l /\ line_evolves l l' /\ t' = put_line l' t.

(** The end of the operations on a line: write it, then report. *)
Lemma wp_write_line {A} (v : A) l l' (report : M Sys unit) y y1 t (Q : A -> Sys * Risk -> Prop) E :
  RiskInv (uuids y1) t -> grows y y1 -> map_get (cl_creditLineId l) (creditLines t) = Some l -> line_evolves l l' ->
  0 <= cl_utilizedMinor l' <= cl_limitMinor l' -> growing report ->
  (forall s, kept y t s -> s.2 = put_line l' t -> Q v s) ->
  (forall e s, kept y t s -> s.2 = put_line l' t -> E e s) ->
  wp (update (put_line l') ;; sys report ;; mret v) Q E (y1, t).
Proof.
  intros Hi Hg Hl He Hb Hrep HQ HE. destruct (put_line_ok _ _ l l' Hi Hl He Hb) as [Hi' He'].
  assert (Hk : forall y2, grows y1 y2 -> kept y t (y2, put_line l' t)).
  { intros y2 Hg2. eapply kept_step; [apply RiskInv_mono|exact Hi'|grows|done|done]. }
  apply wp_bind, wp_update, wp_bind, wp_sys; [done|..]; intros; [apply wp_ret, HQ|apply HE]; auto.
Qed.

Lemma wp_reserveLine id m y t :
  RiskInv (uuids y) t ->
  wp (reserveUtilization id m)
    (fun l' s => kept y t s /\ exists l amount, line_moved t id l l' s.2 /\ cl_status l = CreditLineStatus_APPROVED /\
       assertPositiveMinorUnits m "amountMinor" = Ok amount /\ cl_utilizedMinor l' = cl_utilizedMinor l + amount /\
       cl_limitMinor l' = cl_limitMinor l)
    (fun _ s => kept y t s) (y, t).
Proof.
  intros Hi. unfold reserveUtilization, requireCreditLine. do 3 svc_step. svc_step; [|unchanged]. rename a into l, H1 into Hl.
  svc_step. svc_step; [unchanged|]. svc_step. svc_step; [unchanged|]. svc_step. svc_step; [unchanged|].
  destruct (ki_lines _ _ Hi _ _ Hl) as (Hid & _ & Hb & _). pose proof Hl as Hl'. rewrite <- Hid in Hl'.
  match goal with E : assertPositiveMinorUnits _ _ = Ok _ |- _ => pose proof (assertPositiveMinorUnits_pos _ _ _ E) end.
  match goal with E : negb _ = false |- _ => apply negb_false_iff, bool_decide_eq_true in E end.
  svc_step. apply (wp_now None). intros at_ y1 Hu1 Hg1. cbv beta zeta.
  assert (He : line_evolves l (with_amounts (cl_limitMinor l) (cl_utilizedMinor l + a) (toISOString at_) l))
    by (split; cbn; congruence).
  apply (wp_write_line _ l _ _ y); try done; [by rewrite Hu1|cbn; lia|apply growing_emit|].
  intros s Hk Hs. split; [done|]. by exists l, a.
Qed.

Lemma wp_releaseLine id m y t :
  RiskInv (uuids y) t ->
  wp (releaseUtilization id m)
    (fun l' s => kept y t s /\ exists l amount, line_moved t id l l' s.2 /\ cl_status l <> CreditLineStatus_CLOSED /\
       assertPositiveMinorUnits m "amountMinor" = Ok amount /\ amount <= cl_utilizedMinor l /\
       cl_utilizedMinor l' = cl_utilizedMinor l - amount /\ cl_limitMinor l' = cl_limitMinor l)
    (fun e s => kept y t s /\ (s.2 = t \/ exists l l' amount, line_moved t id l l' s.2 /\
       assertPositiveMinorUnits m "amountMinor" = Ok amount /\ cl_utilizedMinor l' = cl_utilizedMinor l - amount)) (y, t).
Proof.
  intros Hi. unfold releaseUtilization, requireCreditLine. do 3 svc_step. svc_step; [|split; [unchanged|by left]].
  rename a into l, H1 into Hl.
  svc_step. svc_step; [split; [unchanged|by left]|]. svc_step. svc_step; [split; [unchanged|by left]|].
  svc_step. svc_step; [split; [unchanged|by left]|].
  destruct (ki_lines _ _ Hi _ _ Hl) as (Hid & _ & Hb & _). pose proof Hl as Hl'. rewrite <- Hid in Hl'.
  match goal with E : assertPositiveMinorUnits _ _ = Ok _ |- _ => pose proof (assertPositiveMinorUnits_pos _ _ _ E) end.
  match goal with E : bool_decide _ = false |- _ => apply bool_decide_eq_false in E end.
  svc_step. apply (wp_now None). intros at_ y1 Hu1 Hg1. cbv beta zeta.
  assert (He : line_evolves l (with_amounts (cl_limitMinor l) (cl_utilizedMinor l - a) (toISOString at_) l))
    by (split; cbn; congruence).
  apply (wp_write_line _ l _ _ y); try done; [by rewrite Hu1|cbn; lia|apply growing_emit|..].
  - intros s Hk Hs. split; [done|]. exists l, a. split_and!; try done. lia.
  - intros e s Hk Hs. split; [done|]. right. by exists l, (with_amounts (cl_limitMinor l) (cl_utilizedMinor l - a) (toISOString at_) l), a.
Qed.

Lemma setCreditLineStatus_keeps id st admin reason :
  st <> CreditLineStatus_APPROVED -> keeps (setCreditLineStatus id st admin reason).
Proof.
  intros Hst y t Hi. unfold setCreditLineStatus, requireCreditLine. do 3 svc_step. svc_step; [|unchanged]. rename a into l, H1 into Hl.
  svc_step. svc_step; [unchanged|]. svc_step. svc_step; [unchanged|]. svc_step; [svc_step; unchanged|].
  destruct (ki_lines _ _ Hi _ _ Hl) as (Hid & _ & Hb & _). pose proof Hl as Hl'. rewrite <- Hid in Hl'.
  match goal with E : bool_decide (cl_status l = CreditLineStatus_CLOSED) = false |- _ => apply bool_decide_eq_false in E end.
  svc_step. apply (wp_now None). intros at_ y1 Hu1 Hg1. cbv beta zeta.
  destruct (put_line_ok _ _ l (with_line_status st (toISOString at_) l) Hi Hl') as [Hi' He'];
    [split; cbn; congruence|done|]. rewrite <- Hu1 in Hi'.
  svc_steps; (eapply kept_step; [apply RiskInv_mono|exact Hi'|grows|done|done]).
Qed.

Lemma adjustCreditLine_keeps id m admin reason : keeps (adjustCreditLine id m admin reason).
Proof.
  intros y t Hi. unfold adjustCreditLine, requireCreditLine. do 3 svc_step. svc_step; [|unchanged]. rename a into l, H1 into Hl.
  svc_step. svc_step; [unchanged|]. svc_step. svc_step; [unchanged|]. svc_step. svc_step; [unchanged|].
  destruct (ki_lines _ _ Hi _ _ Hl) as (Hid & _ & Hb & _). pose proof Hl as Hl'. rewrite <- Hid in Hl'.
  svc_step. apply (wp_now None). intros at_ y1 Hu1 Hg1. cbv beta zeta.
  destruct (put_line_ok _ _ l (with_amounts a0 (cl_utilizedMinor l) (toISOString at_) l) Hi Hl') as [Hi' He'];
    [by split|cbn; lia|]. rewrite <- Hu1 in Hi'.
  svc_steps; (eapply kept_step; [apply RiskInv_mono|exact Hi'|grows|done|done]).
Qed.

(** ** Requesting a line *)

(** The rules an approval has passed. *)
Record gates_open (i : RiskInputs) : Prop := {
  go_lockbox : ri_lockboxStatus i = Some LockboxStatus_ACTIVE;
  go_principal : ri_principalStatus i = Some PrincipalStatus_ACTIVE;
  go_providers : 0 < default 0 (ri_allowlistedProviderCount i);
  go_overdue : default 0 (ri_overdueCount i) <= 0;
  go_capture : 9000 <= default 10000 (ri_revenueCaptureRatioBps i) }.

Lemma approved_true a : approved a = true <-> as_status a = CreditLineStatus_APPROVED.
Proof. unfold approved. apply bool_decide_eq_true. Qed.

Lemma approved_rule c code msg st ac a :
  st <> CreditLineStatus_APPROVED -> approved (rule c code msg st ac a) = negb c && approved a.
Proof. intros Hst. unfold rule, approved. destruct c; cbn; [by apply bool_decide_eq_false|done]. Qed.

Lemma approved_rule_keep c code msg ac a :
  (c = true -> approved a = true) -> approved (rule c code msg CreditLineStatus_APPROVED ac a) = approved a.
Proof. intros Hc. unfold rule. destruct c; [|done]. by rewrite Hc. Qed.

Lemma assess_approved i : approved (assess i) = true -> gates_open i.
Proof.
  unfold assess. rewrite !approved_rule by done. rewrite !andb_true_iff, !negb_true_iff.
  intros (? & ? & ? & Hp & Hl & _). apply negb_false_iff, bool_decide_eq_true in Hl.
  apply negb_false_iff, bool_decide_eq_true in Hp. split; [done|done|lia..].
Qed.

Lemma minBigInt_le x l : minBigInt x l <= x /\ forall z, z ∈ l -> minBigInt x l <= z.
Proof.
  unfold minBigInt. revert x. induction l as [|z l IH]; intros x; cbn [foldl]; [split; [lia|set_solver]|].
  destruct (IH (if z <? x then z else x)) as [H1 H2]. split; [destruct (Z.ltb_spec z x); lia|].
  intros w [->|Hw]%elem_of_cons; [destruct (Z.ltb_spec z x); lia|auto].
Qed.

(** What a granted limit cannot exceed. *)
Lemma limits_bound t i avail out :
  limits t i = Ok (avail, out) -> 0 <= avail /\ 0 <= out /\ (0 < avail -> avail + out <= globalSubjectCapMinor t).
Proof.
  unfold limits. intros K. result_inv. simplify_eq.
  match goal with E : assertNonNegativeMinorUnits _ "existingOutstandingMinor" = Ok _ |- _ =>
    apply assertNonNegativeMinorUnits_nonneg in E end.
  match goal with |- context [minBigInt ?x ?l] =>
    pose proof (proj2 (minBigInt_le x l) (globalSubjectCapMinor t) ltac:(set_solver));
    destruct (Z.ltb_spec out (minBigInt x l)) end; split_and!; try done; lia.
Qed.

Definition request_authorization (subjectId mandateId assetId : string) (avail : Z) : Authorize :=
  MkAuthorize mandateId subjectId (value MandateCapability_REQUEST_CREDIT) None None assetId
    (if 0 <? avail then Some (MString (toString avail)) else None) false None.

(** The mandate granted the request. *)
Definition request_authorized (t : Risk) (subjectId mandateId assetId : string) (avail : Z) : Prop :=
  exists ma m now, authorizationService t = Some ma /\ map_get mandateId (mandates ma) = Some m /\
    authorized m (request_authorization subjectId mandateId assetId avail) now.

Lemma wp_authorize_request sid mid asset avail a y t (Q : Assessment -> Sys * Risk -> Prop) E :
  RiskInv (uuids y) t ->
  (forall a' y' t', kept y t (y', t') -> creditLines t' = creditLines t ->
     creditLineIdsBySubjectAsset t' = creditLineIdsBySubjectAsset t ->
     (approved a' = true -> approved a = true /\ request_authorized t sid mid asset avail) -> Q a' (y', t')) ->
  (forall e y' t', kept y t (y', t') -> E e (y', t')) ->
  wp (authorize_request sid mid asset avail a) Q E (y, t).
Proof.
  intros Hi HQ HE. unfold authorize_request. apply wp_bind, wp_attempt.
  apply (wp_on_authorization _ _ _ _ _ (fun ma m _ => map_get mid (mandates ma) = Some m /\
    exists now, authorized m (request_authorization sid mid asset avail) now)); [done|..].
  - intros ma Hma. eapply wp_mono; [apply wp_conj; [by apply wp_assertAuthorized|by apply assertAuthorized_keeps]|..].
    + intros m s [(_ & _ & Hm & now & _ & Ha) Hk]. split; [exact Hk|]. split; [done|by exists now].
    + by intros e s [Hk _].
  - intros ma m y' a' Hma Hk (Hm & now & Ha). apply wp_ret, HQ; try done. intros Hap. split; [done|]. by exists ma, m, now.
  - intros e y' t' Hk Ht. destruct (is_domain_error e).
    + apply wp_ret. destruct Ht as [->|[a' ->]]; apply HQ; try done; cbn [approved as_status];
        case_bool_decide as Hst; unfold approved; cbn; rewrite ?bool_decide_eq_true; congruence.
    + apply wp_lift; [|done]. intros. by apply HE.
Qed.

Lemma wp_createRiskDecision sid mid asset a limit util (Q : RiskDecision -> Sys * Risk -> Prop) E y t :
  (forall d y', uuids y <= uuids y' -> grows y y' -> rd_status d = as_status a -> rd_limitMinor d = limit ->
     Q d (y', t))%nat ->
  wp (sys (createRiskDecision sid mid asset a limit util)) Q E (y, t).
Proof.
  intros HQ. unfold createRiskDecision. apply wp_sys_bind, wp_bind, wp_now. intros n y1 Hu1 Hg1. cbv beta.
  apply wp_sys_bind, wp_bind, wp_new_id. intros y2 Hu2 Hg2. apply wp_sys_ret. apply HQ; [lia|grows|done|done].
Qed.

Lemma wp_createCreditLine sid mid asset limit snap (Q : CreditLine -> Sys * Risk -> Prop) E y t :
  (forall l y1 y', uuids y1 = uuids y -> uuids y' = S (uuids y1) -> grows y y' ->
     cl_creditLineId l = id_of "credit_line" (uuids y1) -> line_key l = sid +:+ NUL +:+ asset ->
     cl_limitMinor l = limit -> cl_utilizedMinor l = 0 -> cl_status l = CreditLineStatus_APPROVED -> Q l (y', t)) ->
  wp (sys (createCreditLine sid mid asset limit snap)) Q E (y, t).
Proof.
  intros HQ. unfold createCreditLine. apply wp_sys_bind, wp_bind, wp_now. intros n y1 Hu1 Hg1. cbv beta.
  apply wp_sys_bind, wp_bind, wp_new_id. intros y2 Hu2 Hg2. apply wp_sys_ret. by apply (HQ _ y1); try done; grows.
Qed.

(** What a request that returns has decided. *)
Record decided (t : Risk) (sid mid asset : string) (i : RiskInputs) (d : RiskDecision) (line : option CreditLine)
    (t' : Risk) : Prop := {
  dc_approved : rd_status d = CreditLineStatus_APPROVED ->
    gates_open i /\ exists avail out l, limits t i = Ok (avail, out) /\ 0 < avail /\
      request_authorized t sid mid asset avail /\
      line = Some l /\ line_key l = sid +:+ NUL +:+ asset /\ map_get (cl_creditLineId l) (creditLines t') = Some l /\
      rd_limitMinor d = cl_limitMinor l /\
      match map_get (sid +:+ NUL +:+ asset) (creditLineIdsBySubjectAsset t) with
      | None => cl_limitMinor l = avail /\ cl_utilizedMinor l = 0
      | Some id => exists l0, map_get id (creditLines t) = Some l0 /\ cl_status l0 <> CreditLineStatus_CLOSED /\
          cl_utilizedMinor l0 = out /\ line_evolves l0 l /\ cl_limitMinor l = cl_limitMinor l0 /\
          cl_utilizedMinor l = cl_utilizedMinor l0
      end;
  dc_refused : rd_status d <> CreditLineStatus_APPROVED ->
    line = None /\ rd_limitMinor d = 0 /\ creditLines t' = creditLines t /\
    creditLineIdsBySubjectAsset t' = creditLineIdsBySubjectAsset t }.

(** The answer for a subject and asset that have a line. *)
Lemma wp_decide_existing a avail out y0 y t0 t sid mid asset i line u :
  RiskInv (uuids y) t -> kept y0 t0 (y, t) -> creditLines t = creditLines t0 ->
  creditLineIdsBySubjectAsset t = creditLineIdsBySubjectAsset t0 ->
  map_get (sid +:+ NUL +:+ asset) (creditLineIdsBySubjectAsset t0) = Some (cl_creditLineId line) ->
  map_get (cl_creditLineId line) (creditLines t0) = Some line -> line_key line = sid +:+ NUL +:+ asset ->
  limits t0 i = Ok (avail, out) ->
  (approved a = true -> gates_open i /\ 0 < avail /\ request_authorized t0 sid mid asset avail /\
     cl_status line <> CreditLineStatus_CLOSED /\ cl_utilizedMinor line = out) ->
  wp (decision ← sys (createRiskDecision sid mid asset a (if approved a then cl_limitMinor line else 0) u);
      update (put_decision decision) ;;
      creditLine ← (if approved a then
          at_ ← sys new_Date;
          update (put_line (with_snapshot (rd_riskDecisionId decision) mid (toISOString at_) line)) ;;
          mret (Some (with_snapshot (rd_riskDecisionId decision) mid (toISOString at_) line))
        else mret None);
      sys (emit CreditEventType_RISK_DECISION_CREATED (Some sid) None None
        (JObj [("decision", decision_json decision);
               ("creditLine", match creditLine with Some line => line_json line | None => JUndef end)]) None) ;;
      match creditLine with Some _ => mret () | None => mret () end ;;
      mret (decision, creditLine))
    (fun v s => kept y0 t0 s /\ decided t0 sid mid asset i v.1 v.2 s.2) (fun _ s => kept y0 t0 s) (y, t).
Proof.
  intros Hi Hk Hlines Hindex Hkey Hline Hlk Hlim Hap.
  apply wp_bind, wp_createRiskDecision. intros d y1 Hu1 Hg1 Hst Hdl. cbv beta.
  destruct (put_decision_ok (uuids y1) t d) as [Hi1 He1]; [eapply RiskInv_mono; [|done]; lia|].
  assert (Hk1 : forall y2, grows y1 y2 -> kept y0 t0 (y2, put_decision d t)).
  { intros y2 Hg2. eapply (kept_trans _ _ _ _ _ _ Hk). eapply kept_step; [apply RiskInv_mono|exact Hi1|grows|grows|done]. }
  apply wp_bind, wp_update. destruct (approved a) eqn:Ha.
  - destruct (Hap eq_refl) as (Hgo & Hav & Hau & Hcl & Hout).
    apply wp_bind, wp_bind, (wp_now None). intros at_ y2 Hu2 Hg2. cbv beta. set (l' := with_snapshot _ _ _ line).
    assert (He : line_evolves line l') by by split.
    destruct (ki_lines _ _ Hi1 (cl_creditLineId line) line) as (_ & _ & Hb & _); [cbn; by rewrite Hlines|].
    destruct (put_line_ok (uuids y1) (put_decision d t) line l') as [Hi2 He2]; [done|cbn; by rewrite Hlines|done|done|].
    rewrite <- Hu2 in Hi2.
    assert (Hk2 : forall y3, grows y2 y3 -> kept y0 t0 (y3, put_line l' (put_decision d t))).
    { intros y3 Hg3. eapply (kept_trans _ _ _ _ _ _ (Hk1 y1 (reflexivity _))).
      eapply kept_step; [apply RiskInv_mono|exact Hi2|grows|done|done]. }
    apply wp_bind, wp_update, wp_ret. apply wp_bind, wp_sys; [apply growing_emit| |intros e y3 Hg3; by apply Hk2].
    intros _ y3 Hg3. apply wp_bind, wp_ret, wp_ret. split; [by apply Hk2|]. split; cbn [fst snd].
    + intros _. split; [done|]. exists avail, out, l'. split_and!; try done; [cbn; by rewrite map_get_set_eq|].
      rewrite Hkey. by exists line.
    + intros Hn. apply approved_true in Ha. congruence.
  - apply wp_bind, wp_ret. apply wp_bind, wp_sys; [apply growing_emit| |intros e y3 Hg3; by apply Hk1].
    intros _ y3 Hg3. apply wp_bind, wp_ret, wp_ret. split; [by apply Hk1|]. split; cbn [fst snd].
    + intros E. rewrite Hst, <- approved_true, Ha in E. done.
    + done.
Qed.

(** The answer for a subject and asset that have no line yet. *)
Lemma wp_decide_new a avail out y0 y t0 t sid mid asset i u :
  RiskInv (uuids y) t -> kept y0 t0 (y, t) -> creditLines t = creditLines t0 ->
  creditLineIdsBySubjectAsset t = creditLineIdsBySubjectAsset t0 ->
  map_get (sid +:+ NUL +:+ asset) (creditLineIdsBySubjectAsset t0) = None ->
  limits t0 i = Ok (avail, out) ->
  (approved a = true -> gates_open i /\ 0 < avail /\ request_authorized t0 sid mid asset avail) ->
  wp (decision ← sys (createRiskDecision sid mid asset a (if approved a then avail else 0) u);
      update (put_decision decision) ;;
      creditLine ← (if approved a then
          line ← sys (createCreditLine sid mid asset avail (rd_riskDecisionId decision));
          update (put_line line) ;;
          update (put_index (sid +:+ NUL +:+ asset) (cl_creditLineId line)) ;;
          mret (Some line)
        else mret None);
      sys (emit CreditEventType_RISK_DECISION_CREATED (Some sid) None None
        (JObj [("decision", decision_json decision);
               ("creditLine", match creditLine with Some line => line_json line | None => JUndef end)]) None) ;;
      match creditLine with
      | Some line =>
          sys (emit CreditEventType_CREDIT_LINE_GRANTED (Some sid) None None
            (JObj [("creditLineId", JStr (cl_creditLineId line)); ("limitMinor", JStr (toString (cl_limitMinor line)));
                   ("riskDecisionId", JStr (rd_riskDecisionId decision))]) None)
      | None => mret ()
      end ;;
      mret (decision, creditLine))
    (fun v s => kept y0 t0 s /\ decided t0 sid mid asset i v.1 v.2 s.2) (fun _ s => kept y0 t0 s) (y, t).
Proof.
  intros Hi Hk Hlines Hindex Hkey Hlim Hap.
  apply wp_bind, wp_createRiskDecision. intros d y1 Hu1 Hg1 Hst Hdl. cbv beta.
  destruct (put_decision_ok (uuids y1) t d) as [Hi1 He1]; [eapply RiskInv_mono; [|done]; lia|].
  assert (Hk1 : forall y2, grows y1 y2 -> kept y0 t0 (y2, put_decision d t)).
  { intros y2 Hg2. eapply (kept_trans _ _ _ _ _ _ Hk). eapply kept_step; [apply RiskInv_mono|exact Hi1|grows|grows|done]. }
  apply wp_bind, wp_update. destruct (approved a) eqn:Ha.
  - destruct (Hap eq_refl) as (Hgo & Hav & Hau).
    apply wp_bind, wp_bind, wp_createCreditLine. intros l y2 y3 Hu2 Hu3 Hg3 Hid Hlk Hll Hlu Hls. cbv beta. rewrite <- Hlk.
    rewrite <- Hu2 in Hi1.
    destruct (new_line_ok (uuids y2) (put_decision d t) l Hi1 Hid) as [Hi2 He2]; [lia|rewrite Hlk; cbn; by rewrite Hindex|].
    rewrite <- Hu3 in Hi2.
    assert (Hk2 : forall y4, grows y3 y4 -> kept y0 t0 (y4, put_index (line_key l) (cl_creditLineId l) (put_line l (put_decision d t)))).
    { intros y4 Hg4. eapply (kept_trans _ _ _ _ _ _ (Hk1 y1 (reflexivity _))).
      eapply kept_step; [apply RiskInv_mono|exact Hi2|grows|done|done]. }
    apply wp_bind, wp_update, wp_bind, wp_update, wp_ret.
    apply wp_bind, wp_sys; [apply growing_emit| |intros e y4 Hg4; by apply Hk2]. intros _ y4 Hg4.
    apply wp_bind, wp_sys; [apply growing_emit| |intros e y5 Hg5; apply Hk2; grows]. intros _ y5 Hg5.
    apply wp_ret. split; [apply Hk2; grows|]. split; cbn [fst snd].
    + intros _. split; [done|]. exists avail, out, l. split_and!; try done; [cbn; by rewrite map_get_set_eq|congruence|].
      rewrite Hkey. done.
    + intros Hn. apply approved_true in Ha. congruence.
  - apply wp_bind, wp_ret. apply wp_bind, wp_sys; [apply growing_emit| |intros e y3 Hg3; by apply Hk1].
    intros _ y3 Hg3. apply wp_bind, wp_ret, wp_ret. split; [by apply Hk1|]. split; cbn [fst snd].
    + intros E. rewrite Hst, <- approved_true, Ha in E. done.
    + done.
Qed.

Lemma RiskInv_index n t k id :
  RiskInv n t -> map_get k (creditLineIdsBySubjectAsset t) = Some id ->
  truthy (Some id) = Some id /\ exists l, map_get id (creditLines t) = Some l /\ cl_creditLineId l = id /\ line_key l = k.
Proof.
  intros Hi (l & Hl & Hk)%(ki_index _ _ Hi). destruct (ki_lines _ _ Hi _ _ Hl) as (Hid & Hm & _).
  split; [by eapply truthy_id|]. by exists l.
Qed.

Lemma wp_requestCreditLine sid mid asset i y t :
  RiskInv (uuids y) t ->
  wp (requestCreditLine sid mid asset i)
    (fun v s => kept y t s /\ decided t sid mid asset i v.1 v.2 s.2) (fun _ s => kept y t s) (y, t).
Proof.
  intros Hi. unfold requestCreditLine. svc_step. apply wp_own. cbn [id]. svc_step. svc_step; [unchanged|].
  destruct a as [avail out]. match goal with E : limits t i = _ |- _ => rename E into Hlim end.
  apply wp_bind, wp_authorize_request; [done| |done]. intros a1 y1 t1 Hk1 Hlines Hindex Hau. cbv beta zeta.
  set (a2 := rule _ "no_available_limit" _ _ _ a1). set (a3 := rule (approved a2) _ _ _ _ a2).
  assert (Hap : approved a3 = true -> gates_open i /\ 0 < avail /\ request_authorized t sid mid asset avail).
  { unfold a3. rewrite approved_rule_keep by done. unfold a2. rewrite approved_rule by done.
    intros [Hn Ha1]%andb_true_iff. destruct (Hau Ha1) as [Has Hau']. split_and!; [by apply assess_approved| |done].
    rewrite Ha1, andb_true_r in Hn. apply negb_true_iff in Hn. lia. }
  clearbody a3. clear a2 Hau. apply wp_bind, wp_own. rewrite Hindex.
  destruct (map_get (sid +:+ NUL +:+ asset) (creditLineIdsBySubjectAsset t)) as [id|] eqn:Hkey; cbn [truthy].
  - destruct (RiskInv_index _ _ _ _ Hi Hkey) as (Htr & line & Hl & Hid & Hlk). cbn [truthy] in Htr. rewrite Htr.
    unfold requireCreditLine. apply wp_bind, wp_bind, wp_bind, wp_own. rewrite Hlines, Hl. cbn [some_or].
    apply wp_ret, wp_ret. apply wp_bind, wp_bind, wp_throw_if; [done|]. intros Hc. apply wp_throw_if; [done|]. intros Hu.
    cbn [fmap option_fmap option_map default]. rewrite !andb_true_r.
    set (a4 := rule (approved a3) "existing_credit_line_reused" _ _ _ a3).
    assert (Ha4 : approved a4 = approved a3) by (apply approved_rule_keep; done).
    subst id. eapply wp_decide_existing; try done; [apply Hk1|]. rewrite Ha4. intros Ha3.
    rewrite Ha3 in Hc, Hu. cbn [andb] in Hc, Hu. apply bool_decide_eq_false in Hc. apply negb_false_iff, Z.eqb_eq in Hu.
    by destruct (Hap Ha3) as (? & ? & ?).
  - apply wp_bind, wp_ret, wp_bind, wp_ret. cbn [fmap option_fmap option_map default]. rewrite !andb_false_r.
    cbn [rule]. eapply wp_decide_new; try done. apply Hk1.
Qed.

(** ** Executions *)

Inductive risk_call :=
| CallRequestCreditLine (subjectId mandateId assetId : string) (inputs : RiskInputs)
| CallReserveLine (creditLineId : string) (amountMinor : minor)
| CallReleaseLine (creditLineId : string) (amountMinor : minor)
| CallFreezeLine (creditLineId adminId reason : string)
| CallCloseLine (creditLineId adminId reason : string)
| CallAdjustLine (creditLineId : string) (limitMinor : minor) (adminId reason : string)
| CallAuthorization (c : mandate_call).

(** A call of the service, or of the authorization service it shares. *)
Definition run_risk (c : risk_call) : M (Sys * Risk) unit :=
  match c with
  | CallRequestCreditLine sid mid asset i => requestCreditLine sid mid asset i ;; mret ()
  | CallReserveLine id m => reserveUtilization id m ;; mret ()
  | CallReleaseLine id m => releaseUtilization id m ;; mret ()
  | CallFreezeLine id admin reason => freezeCreditLine id admin reason ;; mret ()
  | CallCloseLine id admin reason => closeCreditLine id admin reason ;; mret ()
  | CallAdjustLine id m admin reason => adjustCreditLine id m admin reason ;; mret ()
  | CallAuthorization c => on_authorization (run_mandate c)
  end.

Lemma run_risk_keeps c : keeps (run_risk c).
Proof.
  assert (Hret : forall A (m : M (Sys * Risk) A), keeps m -> keeps (m ;; mret ())).
  { intros A m Hm. apply keeps_bind; [apply _|done|]. intros _. apply keeps_ret; [apply _|apply RiskInv_mono]. }
  destruct c; cbn [run_risk]; try apply Hret.
  - intros y t Hi. eapply wp_mono; [by apply wp_requestCreditLine|by intros ? ? [? _]|done].
  - intros y t Hi. eapply wp_mono; [by apply wp_reserveLine|by intros ? ? [? _]|done].
  - intros y t Hi. eapply wp_mono; [by apply wp_releaseLine|by intros ? ? [? _]|by intros ? ? [? _]].
  - by apply setCreditLineStatus_keeps.
  - by apply setCreditLineStatus_keeps.
  - apply adjustCreditLine_keeps.
  - intros y t Hi. apply (wp_on_authorization _ _ _ _ _ (fun _ _ _ => True)); [done|..].
    + intros a Ha. eapply wp_mono; [by apply run_mandate_keeps|by intros|done].
    + done.
    + done.
Qed.

(** A service started with a fresh mandate service or with none. *)
Definition risk_start (with_authorization : bool) (cap rate30d rate7d : Z) : Risk :=
  new_risk (if with_authorization then Some empty_mandates else None) cap rate30d rate7d.

Lemma run_risks_ok cs y b cap r30 r7 :
  Service.kept RiskInv risk_evolves y (risk_start b cap r30 r7) (exec run_risk cs (y, risk_start b cap r30 r7)).
Proof.
  apply (exec_kept _ _ RiskInv_mono run_risk cs y _ run_risk_keeps), RiskInv_new.
  intros m Hm. destruct b; [injection Hm as <-; apply MandateInv_empty|done].
Qed.

(** C36: a credit line is never drawn beyond its limit.  After any calls of the
    service and of the mandate service it shares, whichever of them threw, every
    line's utilization is between zero and its limit, a subject has at most one
    line per asset, and whatever is called next the line stays with its subject
    and asset; a closed line stays closed with its utilization, and a line that
    is not approved is never approved again. *)
Theorem credit_lines_bounded cs y b cap r30 r7 id l more :
  let s := exec run_risk cs (y, risk_start b cap r30 r7) in
  map_get id (creditLines s.2) = Some l ->
  0 <= cl_utilizedMinor l <= cl_limitMinor l /\
  (forall id2 l2, map_get id2 (creditLines s.2) = Some l2 -> cl_subjectId l2 = cl_subjectId l ->
     cl_assetId l2 = cl_assetId l -> id2 = id) /\
  exists l', map_get id (creditLines (exec run_risk more s).2) = Some l' /\ line_evolves l l' /\
    0 <= cl_utilizedMinor l' <= cl_limitMinor l'.
Proof.
  intros s Hl. destruct (run_risks_ok cs y b cap r30 r7) as (Hi & _ & _). fold s in Hi.
  destruct (ki_lines _ _ Hi _ _ Hl) as (_ & _ & Hb & Hk). split_and!; [lia|lia| |].
  - intros id2 l2 Hl2 Hs Ha. destruct (ki_lines _ _ Hi _ _ Hl2) as (_ & _ & _ & Hk2).
    unfold line_key in *. rewrite Hs, Ha, Hk in Hk2. by injection Hk2.
  - destruct s as [y1 t1]. destruct (exec_kept _ _ RiskInv_mono run_risk more y1 t1 run_risk_keeps Hi) as (Hi2 & _ & Hev).
    destruct (rk_lines _ _ Hev _ _ Hl) as (l' & Hl' & He). exists l'. split_and!; [done|done|..];
      destruct (ki_lines _ _ Hi2 _ _ Hl') as (_ & _ & ? & _); lia.
Qed.

(** C12: credit is granted only when every rule and the mandate allow it, and
    never beyond the cap.  A request that returns an approval has an active
    lockbox and principal, an allowlisted provider, nothing overdue and enough
    captured revenue, was authorized by the mandate for the limit computed, and
    either opens a line with that limit, which together with the reported debt
    does not exceed the subject cap, or reuses the subject's line unchanged in
    limit and utilization; a request that is refused opens and changes no line
    and decides a limit of zero. *)
Theorem credit_granted_soundly cs y b cap r30 r7 sid mid asset i d line s' :
  let s := exec run_risk cs (y, risk_start b cap r30 r7) in
  requestCreditLine sid mid asset i s = (Ok (d, line), s') ->
  decided s.2 sid mid asset i d line s'.2 /\
  (rd_status d = CreditLineStatus_APPROVED -> exists avail out,
     limits s.2 i = Ok (avail, out) /\ 0 <= out /\ 0 < avail /\ avail + out <= cap).
Proof.
  intros s Hrun. destruct (run_risks_ok cs y b cap r30 r7) as (Hi & _ & Hev). fold s in Hi, Hev.
  destruct s as [y1 t1]. cbn [fst snd] in *.
  destruct (wp_run _ _ _ _ _ _ (wp_requestCreditLine sid mid asset i y1 t1 Hi) Hrun) as [_ Hd]. split; [done|].
  intros Ha. destruct (dc_approved _ _ _ _ _ _ _ _ Hd Ha) as (_ & avail & out & l & Hlim & Hav & _).
  destruct (limits_bound _ _ _ _ Hlim) as (_ & Hout & Hcap). exists avail, out. split_and!; [done..|].
  rewrite (rk_cap _ _ Hev) in Hcap. cbn in Hcap. by apply Hcap.
Qed.

(** Drawing and releasing move the utilization by exactly the amount.  A
    draw that returns found the line approved and raised its utilization by the
    amount; a release that returns found the line open with at least the amount
    drawn and lowered it by the amount; limits, other lines and the index do not
    change. *)
Theorem utilization_exact cs y b cap r30 r7 id m l' s' :
  let s := exec run_risk cs (y, risk_start b cap r30 r7) in
  (reserveUtilization id m s = (Ok l', s') ->
   exists l amount, line_moved s.2 id l l' s'.2 /\ cl_status l = CreditLineStatus_APPROVED /\
     assertPositiveMinorUnits m "amountMinor" = Ok amount /\ cl_limitMinor l' = cl_limitMinor l /\
     cl_utilizedMinor l' = cl_utilizedMinor l + amount /\ cl_utilizedMinor l + amount <= cl_limitMinor l) /\
  (releaseUtilization id m s = (Ok l', s') ->
   exists l amount, line_moved s.2 id l l' s'.2 /\ cl_status l <> CreditLineStatus_CLOSED /\
     assertPositiveMinorUnits m "amountMinor" = Ok amount /\ cl_limitMinor l' = cl_limitMinor l /\
     amount <= cl_utilizedMinor l /\ cl_utilizedMinor l' = cl_utilizedMinor l - amount).
Proof.
  intros s. destruct (run_risks_ok cs y b cap r30 r7) as (Hi & _ & Hev). fold s in Hi, Hev.
  destruct s as [y1 t1]. cbn [fst snd] in *. split; intros Hrun.
  - destruct (wp_run _ _ _ _ _ _ (wp_reserveLine id m y1 t1 Hi) Hrun) as [(Hi' & _) (l & amount & Hm & Hs & Ha & Hu & Hl)].
    exists l, amount. split_and!; try done. destruct Hm as (Hg & He & Hst). rewrite Hst in Hi'.
    destruct (ki_lines _ _ Hi _ _ Hg) as (Hid & _).
    destruct (ki_lines _ _ Hi' id l') as (_ & _ & ? & _); [cbn; by rewrite (lv_id _ _ He), Hid, map_get_set_eq|]. lia.
  - destruct (wp_run _ _ _ _ _ _ (wp_releaseLine id m y1 t1 Hi) Hrun) as [_ (l & amount & ? & ? & ? & ? & ? & ?)].
    exists l, amount. by split_and!.
Qed.
End risk.
