(* ===== verification/Spend.v ===== *)
(** * Spend policies

    [SpendPolicyService] of src/modules/spend-policy/src/spend-policy-service.js,
    with [createProvider], [createSpendPolicy] and [createSpendRequest] of
    src/packages/domain/src/models.js. *)

From stdpp Require Import base tactics sets relations gmap numbers strings list.
From S2P Require Import Prelude Js Enums EventStore Service Mandate.
Local Open Scope string_scope.
Local Open Scope Z_scope.

(** ** Data *)

Record Provider := MkProvider {
  pv_providerId : string; pv_providerHash : string; pv_name : string; pv_settlementAccountIdRef : string;
  pv_status : ProviderStatus; pv_riskTier : string; pv_createdAt : string }.

Record SpendPolicy := MkSpendPolicy {
  sp_spendPolicyId : string; sp_spendPolicyHash : string; sp_subjectId : string; sp_providerId : string;
  sp_assetId : string; sp_category : string; sp_perTxLimitMinor : Z; sp_dailyLimitMinor : Z;
  sp_obligationCapMinor : Z; sp_dailySpentMinor : Z; sp_dailySpentDate : string;
  sp_status : SpendPolicyStatus; sp_createdAt : string }.

Record SpendRequest := MkSpendRequest {
  sr_spendRequestId : string; sr_subjectId : string; sr_mandateId : string; sr_providerId : string;
  sr_spendPolicyId : string; sr_assetId : string; sr_amountMinor : minor; sr_purposeCode : string;
  sr_status : SpendRequestStatus; sr_rejectionReason : option string; sr_createdAt : string; sr_updatedAt : string }.

Record Spending := MkSpending {
  spend_authorization : option Mandates; providers : jsmap Provider; policies : jsmap SpendPolicy;
  spendRequests : jsmap SpendRequest }.

(** [new SpendPolicyService({ ... })] *)
Definition new_spending (authorization : option Mandates) : Spending := MkSpending authorization [] [] [].

Record CreateSpendPolicy := MkCreateSpendPolicy {
  cp_subjectId : string; cp_providerId : string; cp_assetId : string; cp_perTxLimitMinor : minor;
  cp_dailyLimitMinor : minor; cp_obligationCapMinor : minor; cp_category : string; cp_now : option Z }.

Record RequestSpend := MkRequestSpend {
  qs_mandateId : string; qs_subjectId : string; qs_providerId : string; qs_spendPolicyId : string;
  qs_assetId : string; qs_amountMinor : minor; qs_purposeCode : string; qs_creditAvailableMinor : minor }.

Definition set_spend_authorization (a : Mandates) (t : Spending) : Spending :=
  MkSpending (Some a) (providers t) (policies t) (spendRequests t).
Definition put_provider (p : Provider) (t : Spending) : Spending :=
  MkSpending (spend_authorization t) (map_set (pv_providerId p) p (providers t)) (policies t) (spendRequests t).
Definition put_policy (p : SpendPolicy) (t : Spending) : Spending :=
  MkSpending (spend_authorization t) (providers t) (map_set (sp_spendPolicyId p) p (policies t)) (spendRequests t).
Definition put_request (r : SpendRequest) (t : Spending) : Spending :=
  MkSpending (spend_authorization t) (providers t) (policies t) (map_set (sr_spendRequestId r) r (spendRequests t)).

Definition with_spent (spent : Z) (date : string) (p : SpendPolicy) : SpendPolicy :=
  MkSpendPolicy (sp_spendPolicyId p) (sp_spendPolicyHash p) (sp_subjectId p) (sp_providerId p) (sp_assetId p)
    (sp_category p) (sp_perTxLimitMinor p) (sp_dailyLimitMinor p) (sp_obligationCapMinor p) spent date
    (sp_status p) (sp_createdAt p).
Definition with_outcome (st : SpendRequestStatus) (reason : option string) (at_ : string) (r : SpendRequest) : SpendRequest :=
  MkSpendRequest (sr_spendRequestId r) (sr_subjectId r) (sr_mandateId r) (sr_providerId r) (sr_spendPolicyId r)
    (sr_assetId r) (sr_amountMinor r) (sr_purposeCode r) st reason (sr_createdAt r) at_.

(** [toISOString().slice(0, 10)] *)
Definition day_of (at_ : Z) : string := String.substring 0 10 (toISOString at_).

(** ** Operations *)

Section operations.
Context `{Platform}.

Definition createProvider (name settlementAccountId riskTier : string) (now : option Z) : M Sys Provider :=
  now ← default_now now;
  providerId ← createOperationalId "provider";
  mret (MkProvider providerId (hashId "provider" (JObj [("name", JStr name); ("settlementAccountId", JStr settlementAccountId)]))
    name settlementAccountId ProviderStatus_ALLOWLISTED riskTier (toISOString now)).

Definition allowProvider (name settlementAccountId riskTier : string) (now : option Z) : M (Sys * Spending) Provider :=
  lift (assertCAIP10 settlementAccountId) ;;
  provider ← sys (createProvider name settlementAccountId riskTier now);
  update (put_provider provider) ;;
  sys (emit CreditEventType_PROVIDER_ALLOWLISTED None None None
    (JObj [("providerId", JStr (pv_providerId provider)); ("providerHash", JStr (pv_providerHash provider));
           ("riskTier", JStr (pv_riskTier provider))]) None) ;;
  mret provider.

Definition requireProvider (providerId : string) : M (Sys * Spending) Provider :=
  m ← own providers;
  some_or (map_get providerId m) "provider_not_found" "provider not found".

(** The constructor of models.js, on the validated limits. *)
Definition newSpendPolicy (i : CreateSpendPolicy) (perTx daily cap : Z) : M Sys SpendPolicy :=
  now ← default_now (cp_now i);
  spendPolicyId ← createOperationalId "spend_policy";
  mret (MkSpendPolicy spendPolicyId
    (createSpendPolicyHash (JObj [("subjectId", JStr (cp_subjectId i)); ("providerId", JStr (cp_providerId i));
       ("assetId", JStr (cp_assetId i)); ("perTxLimitMinor", json_of_minor (cp_perTxLimitMinor i));
       ("dailyLimitMinor", json_of_minor (cp_dailyLimitMinor i));
       ("obligationCapMinor", json_of_minor (cp_obligationCapMinor i)); ("category", JStr (cp_category i))]))
    (cp_subjectId i) (cp_providerId i) (cp_assetId i) (cp_category i) perTx daily cap 0 (day_of now)
    SpendPolicyStatus_ACTIVE (toISOString now)).

Definition createSpendPolicy (i : CreateSpendPolicy) : M (Sys * Spending) SpendPolicy :=
  provider ← requireProvider (cp_providerId i);
  throw_if (negb (bool_decide (pv_status provider = ProviderStatus_ALLOWLISTED))) "provider_not_allowlisted"
    "spend policy requires allowlisted provider" ;;
  perTx ← lift (assertPositiveMinorUnits (cp_perTxLimitMinor i) "perTxLimitMinor");
  daily ← lift (assertPositiveMinorUnits (cp_dailyLimitMinor i) "dailyLimitMinor");
  cap ← lift (assertPositiveMinorUnits (cp_obligationCapMinor i) "obligationCapMinor");
  throw_if (daily <? perTx) "invalid_spend_policy_limits" "per transaction limit cannot exceed daily limit" ;;
  policy ← sys (newSpendPolicy i perTx daily cap);
  update (put_policy policy) ;;
  sys (emit CreditEventType_SPEND_POLICY_CREATED (Some (sp_subjectId policy)) None None
    (JObj [("spendPolicyId", JStr (sp_spendPolicyId policy)); ("providerId", JStr (sp_providerId policy));
           ("assetId", JStr (sp_assetId policy)); ("policyHash", JStr (sp_spendPolicyHash policy))]) None) ;;
  mret policy.

Definition createSpendRequest (i : RequestSpend) : M Sys SpendRequest :=
  now ← default_now None;
  spendRequestId ← createOperationalId "spend_request";
  mret (MkSpendRequest spendRequestId (qs_subjectId i) (qs_mandateId i) (qs_providerId i) (qs_spendPolicyId i)
    (qs_assetId i) (qs_amountMinor i) (qs_purposeCode i) SpendRequestStatus_REQUESTED None (toISOString now) (toISOString now)).

(** The authorization a spend asks the mandate for. *)
Definition spend_authorize (i : RequestSpend) : Authorize :=
  MkAuthorize (qs_mandateId i) (qs_subjectId i) (value MandateCapability_PROVIDER_SPEND) (Some (qs_providerId i))
    (Some (qs_purposeCode i)) (qs_assetId i) (Some (qs_amountMinor i)) true None.

Definition on_spend_authorization {A} (m : M (Sys * Mandates) A) : M (Sys * Spending) A :=
  call_opt spend_authorization set_spend_authorization TypeError m.

Definition not_a_domain_error (e : DomainError) : bool := String.eqb (err_code e) "TypeError".

(** The reason the scope of the policy or the mandate gives to reject. *)
Definition scope_rejection (i : RequestSpend) (provider : option Provider) (policy : option SpendPolicy)
    : M (Sys * Spending) (option string) :=
  authorization ← own spend_authorization;
  match provider, policy with
  | Some provider, Some policy =>
      if negb (bool_decide (pv_status provider = ProviderStatus_ALLOWLISTED)) then mret (Some "provider_not_allowlisted")
      else if negb (bool_decide (sp_status policy = SpendPolicyStatus_ACTIVE)) then mret (Some "policy_not_active")
      else if negb (String.eqb (sp_subjectId policy) (qs_subjectId i)) ||
              negb (String.eqb (sp_providerId policy) (qs_providerId i)) ||
              negb (String.eqb (sp_assetId policy) (qs_assetId i)) then mret (Some "policy_scope_mismatch")
      else if negb (String.eqb (sp_category policy) (qs_purposeCode i)) then mret (Some "purpose_not_allowed")
      else match authorization with
           | None => mret (Some "authorization_unavailable")
           | Some _ =>
               outcome ← attempt (on_spend_authorization (assertAuthorized (spend_authorize i)));
               match outcome with
               | Ok _ => mret None
               | Err e => if not_a_domain_error e then lift (Err e) else mret (Some (err_code e))
               end
           end
  | Some provider, None =>
      if negb (bool_decide (pv_status provider = ProviderStatus_ALLOWLISTED)) then mret (Some "provider_not_allowlisted")
      else mret (Some "policy_not_active")
  | None, _ => mret (Some "provider_not_allowlisted")
  end.

(** The reason an amount gives to reject. *)
Definition limit_rejection (policy : SpendPolicy) (amount creditAvailable : Z) : option string :=
  if sp_perTxLimitMinor policy <? amount then Some "per_tx_limit_exceeded"
  else if sp_dailyLimitMinor policy <? amount + sp_dailySpentMinor policy then Some "daily_limit_exceeded"
  else if sp_obligationCapMinor policy <? amount then Some "obligation_cap_exceeded"
  else if creditAvailable <? amount then Some "credit_available_exceeded"
  else None.

Definition spend_json (request : SpendRequest) (amount : json) (more : list (string * json)) : json :=
  JObj ([("spendRequestId", JStr (sr_spendRequestId request)); ("mandateId", JStr (sr_mandateId request));
         ("providerId", JStr (sr_providerId request)); ("spendPolicyId", JStr (sr_spendPolicyId request));
         ("assetId", JStr (sr_assetId request)); ("amountMinor", amount)] ++ more).

(** A policy whose day has passed starts the new day at zero. *)
Definition roll_day (today : string) (policy : SpendPolicy) : SpendPolicy :=
  if String.eqb (sp_dailySpentDate policy) today then policy else with_spent 0 today policy.

(** The end of [requestSpend]: the limits are checked, and an approval reserves
    and adds to the day's total before the request is recorded. *)
Definition decide_spend (i : RequestSpend) (request : SpendRequest) (policy : option SpendPolicy)
    (rejection : option string) (amount creditAvailable : Z) : M (Sys * Spending) SpendRequest :=
  let rejectionReason := match rejection, policy with
                         | None, Some p => limit_rejection p amount creditAvailable
                         | _, _ => rejection
                         end in
  let nextStatus := match rejectionReason with Some _ => SpendRequestStatus_REJECTED | None => SpendRequestStatus_APPROVED end in
  lift (assertTransition "spend_request" SpendRequestTransitions (sr_status request) nextStatus) ;;
  at_ ← sys new_Date;
  let request := with_outcome nextStatus rejectionReason (toISOString at_) request in
  match rejectionReason, policy with
  | None, Some p =>
      on_spend_authorization (reserveUtilization (sr_spendRequestId request) (spend_authorize i)) ;;
      update (put_policy (with_spent (sp_dailySpentMinor p + amount) (sp_dailySpentDate p) p))
  | None, None => lift (Err TypeError)
  | Some _, _ => mret ()
  end ;;
  update (put_request request) ;;
  sys (emit (match rejectionReason with Some _ => CreditEventType_SPEND_REJECTED | None => CreditEventType_SPEND_APPROVED end)
    (Some (qs_subjectId i)) None None
    (spend_json request (json_of_minor (qs_amountMinor i)) [("rejectionReason", opt_json rejectionReason)]) None) ;;
  mret request.

Definition requestSpend (i : RequestSpend) : M (Sys * Spending) SpendRequest :=
  request ← sys (createSpendRequest i);
  provider ← own (fun t => map_get (qs_providerId i) (providers t));
  policy ← own (fun t => map_get (qs_spendPolicyId i) (policies t));
  amount ← lift (assertPositiveMinorUnits (qs_amountMinor i) "amountMinor");
  creditAvailable ← lift (assertNonNegativeMinorUnits (qs_creditAvailableMinor i) "creditAvailableMinor");
  lift (assertNonEmptyString "purposeCode" (JStr (qs_purposeCode i))) ;;
  sys (emit CreditEventType_SPEND_REQUESTED (Some (qs_subjectId i)) None None
    (spend_json request (JStr (toString amount)) [("purposeCode", JStr (qs_purposeCode i))]) None) ;;
  now ← sys new_Date;
  let today := day_of now in
  let policy := roll_day today <$> policy in
  match policy with Some p => update (put_policy p) | None => mret () end ;;
  rejection ← scope_rejection i provider policy;
  decide_spend i request policy rejection amount creditAvailable.

Definition requireSpendRequest (spendRequestId : string) : M (Sys * Spending) SpendRequest :=
  m ← own spendRequests;
  some_or (map_get spendRequestId m) "spend_request_not_found" "spend request not found".

Definition settleSpend (spendRequestId : string) : M (Sys * Spending) SpendRequest :=
  request ← requireSpendRequest spendRequestId;
  lift (assertTransition "spend_request" SpendRequestTransitions (sr_status request) SpendRequestStatus_SETTLED) ;;
  at_ ← sys new_Date;
  let request := with_outcome SpendRequestStatus_SETTLED (sr_rejectionReason request) (toISOString at_) request in
  update (put_request request) ;;
  sys (emit CreditEventType_SPEND_SETTLED (Some (sr_subjectId request)) None None
    (JObj [("spendRequestId", JStr spendRequestId); ("providerId", JStr (sr_providerId request));
           ("amountMinor", json_of_minor (sr_amountMinor request))]) None) ;;
  mret request.
End operations.

(** ** Queries *)

Definition getProvider (t : Spending) (providerId : string) : result Provider :=
  match map_get providerId (providers t) with Some p => Ok p | None => fail "provider_not_found" "provider not found" end.
Definition getSpendPolicy (t : Spending) (spendPolicyId : string) : result SpendPolicy :=
  match map_get spendPolicyId (policies t) with
  | Some p => Ok p | None => fail "spend_policy_not_found" "spend policy not found" end.
Definition getSpendRequest (t : Spending) (spendRequestId : string) : result SpendRequest :=
  match map_get spendRequestId (spendRequests t) with
  | Some r => Ok r | None => fail "spend_request_not_found" "spend request not found" end.
