(* ===== verification/SpendProps.v ===== *)
(** * The spend policies' theorems *)

From stdpp Require Import base tactics sets relations gmap numbers strings list.
From S2P Require Import Prelude Js Enums EventStore Service Mandate MandateProps Spend.
Local Open Scope string_scope.
Local Open Scope Z_scope.

(** ** The invariant *)

Record policy_ok (p : SpendPolicy) : Prop := {
  po_limits : 0 < sp_perTxLimitMinor p <= sp_dailyLimitMinor p;
  po_cap : 0 < sp_obligationCapMinor p;
  po_spent : 0 <= sp_dailySpentMinor p <= sp_dailyLimitMinor p }.

(** A policy's terms never change. *)
Record policy_evolves (p p' : SpendPolicy) : Prop := {
  pe_id : sp_spendPolicyId p' = sp_spendPolicyId p;
  pe_hash : sp_spendPolicyHash p' = sp_spendPolicyHash p;
  pe_subject : sp_subjectId p' = sp_subjectId p;
  pe_provider : sp_providerId p' = sp_providerId p;
  pe_asset : sp_assetId p' = sp_assetId p;
  pe_category : sp_category p' = sp_category p;
  pe_perTx : sp_perTxLimitMinor p' = sp_perTxLimitMinor p;
  pe_daily : sp_dailyLimitMinor p' = sp_dailyLimitMinor p;
  pe_cap : sp_obligationCapMinor p' = sp_obligationCapMinor p }.

#[export] Instance policy_evolves_preorder : PreOrder policy_evolves.
Proof. split; [by split|]. intros a b c [] []. split; congruence. Qed.

(** The authorization a request was made for. *)
Definition request_authorize (r : SpendRequest) : Authorize :=
  MkAuthorize (sr_mandateId r) (sr_subjectId r) (value MandateCapability_PROVIDER_SPEND) (Some (sr_providerId r))
    (Some (sr_purposeCode r)) (sr_assetId r) (Some (sr_amountMinor r)) true None.

Record request_evolves (r r' : SpendRequest) : Prop := {
  qe_id : sr_spendRequestId r' = sr_spendRequestId r;
  qe_authorize : request_authorize r' = request_authorize r;
  qe_policy : sr_spendPolicyId r' = sr_spendPolicyId r;
  qe_reason : sr_rejectionReason r' = sr_rejectionReason r;
  qe_status : rtc (steps SpendRequestTransitions) (sr_status r) (sr_status r') }.

#[export] Instance request_evolves_preorder : PreOrder request_evolves.
Proof. split; [by split|]. intros a b c [] []. split; try congruence. by etrans. Qed.

Record spending_evolves (t t' : Spending) : Prop := {
  sv_authorization : match spend_authorization t with
                     | Some a => exists a', spend_authorization t' = Some a' /\ mandates_evolve a a'
                     | None => spend_authorization t' = None
                     end;
  sv_policies : forall id p, map_get id (policies t) = Some p ->
    exists p', map_get id (policies t') = Some p' /\ policy_evolves p p';
  sv_requests : forall id r, map_get id (spendRequests t) = Some r ->
    exists r', map_get id (spendRequests t') = Some r' /\ request_evolves r r' }.

#[export] Instance spending_evolves_preorder : PreOrder spending_evolves.
Proof.
  split.
  - intros t. split; [|intros id x Hx; by exists x..]. destruct (spend_authorization t) as [a|]; [by exists a|done].
  - intros t1 t2 t3 [A1 P1 R1] [A2 P2 R2]. split.
    + destruct (spend_authorization t1) as [a1|].
      * destruct A1 as (a2 & E2 & V12). rewrite E2 in A2. destruct A2 as (a3 & E3 & V23). exists a3. split; [done|by etrans].
      * by rewrite A1 in A2.
    + intros id x Hx. destruct (P1 _ _ Hx) as (x1 & H1 & E1). destruct (P2 _ _ H1) as (x2 & H2 & E2).
      exists x2. split; [done|by etrans].
    + intros id x Hx. destruct (R1 _ _ Hx) as (x1 & H1 & E1). destruct (R2 _ _ H1) as (x2 & H2 & E2).
      exists x2. split; [done|by etrans].
Qed.

Section spending.
Context `{PlatformLaws}.

(** An approved or settled request has no rejection reason and is backed by a
    reservation of the mandate service for exactly its terms. *)
Record request_ok (a : option Mandates) (r : SpendRequest) : Prop := {
  rq_status : sr_status r = SpendRequestStatus_REJECTED /\ sr_rejectionReason r <> None \/
    (sr_status r = SpendRequestStatus_APPROVED \/ sr_status r = SpendRequestStatus_SETTLED) /\ sr_rejectionReason r = None;
  rq_backed : sr_rejectionReason r = None -> exists ma res, a = Some ma /\
    map_get (sr_spendRequestId r) (reservations ma) = Some res /\
    rs_reservationHash res = reservation_hash (sr_spendRequestId r) (request_authorize r) }.

Record SpendInv (n : nat) (t : Spending) : Prop := {
  si_authorization : forall a, spend_authorization t = Some a -> MandateInv n a;
  si_policies : forall id p, map_get id (policies t) = Some p ->
    sp_spendPolicyId p = id /\ minted "spend_policy" n id /\ policy_ok p;
  si_requests : forall id r, map_get id (spendRequests t) = Some r ->
    sr_spendRequestId r = id /\ minted "spend_request" n id /\ request_ok (spend_authorization t) r }.

Lemma SpendInv_mono n m t : (n <= m)%nat -> SpendInv n t -> SpendInv m t.
Proof.
  intros Hle [Ha Hp Hr]. split.
  - intros a E. by eapply MandateInv_mono; [|apply Ha].
  - intros id p Hg. destruct (Hp id p Hg) as (? & ? & ?). split_and!; try done. by eapply minted_mono.
  - intros id r Hg. destruct (Hr id r Hg) as (? & ? & ?). split_and!; try done. by eapply minted_mono.
Qed.

Abbreviation keeps := (keeps SpendInv spending_evolves).
Abbreviation kept := (kept SpendInv spending_evolves).
Ltac unchanged := apply (kept_same _ _ SpendInv_mono); [assumption|cbn [fst]; grows].
Ltac after K := eapply (kept_trans _ _ _ _ _ _ K); cbn [fst snd].

Lemma same_authorization t t' : spend_authorization t' = spend_authorization t ->
  match spend_authorization t with
  | Some a => exists a', spend_authorization t' = Some a' /\ mandates_evolve a a'
  | None => spend_authorization t' = None
  end.
Proof. intros E. destruct (spend_authorization t) as [a|]; [|done]. by exists a. Qed.

(** ** The parts of the state *)

Lemma put_policy_ok n t p p' :
  SpendInv n t -> map_get (sp_spendPolicyId p) (policies t) = Some p -> policy_evolves p p' -> policy_ok p' ->
  SpendInv n (put_policy p' t) /\ spending_evolves t (put_policy p' t).
Proof.
  intros [Ha Hp Hr] Hg He Hok. destruct (Hp _ _ Hg) as (_ & Hm & _). split; split; cbn; try done.
  - intros id p1. rewrite map_get_set, (pe_id _ _ He). case_decide as E; [|apply Hp]. intros [= <-]. subst id.
    split_and!; [by apply He|done|done].
  - by apply same_authorization.
  - intros id p1 Hp1. rewrite map_get_set, (pe_id _ _ He). case_decide as E; [|by exists p1].
    exists p'. split; [done|]. subst id. rewrite Hg in Hp1. by injection Hp1 as <-.
  - intros id r Hr'. by exists r.
Qed.

Lemma new_policy_ok n t p :
  SpendInv n t -> sp_spendPolicyId p = id_of "spend_policy" n -> policy_ok p ->
  SpendInv (S n) (put_policy p t) /\ spending_evolves t (put_policy p t).
Proof.
  intros Hi Hid Hok.
  assert (Hf : map_get (sp_spendPolicyId p) (policies t) = None).
  { destruct (map_get _ (policies t)) as [p'|] eqn:E; [|done].
    apply (si_policies _ _ Hi) in E as (_ & Hm & _). apply minted_fresh in Hm. congruence. }
  apply (SpendInv_mono _ (S n)) in Hi; [|lia]. destruct Hi as [Ha Hp Hr]. split; split; cbn; try done.
  - intros id p1. rewrite map_get_set. case_decide as E; [|apply Hp]. intros [= <-]. subst id.
    split_and!; [done|rewrite Hid; apply minted_new|done].
  - by apply same_authorization.
  - intros id p1 Hp1. exists p1. rewrite map_get_set_ne; [done|]. intros E. rewrite E in Hf. congruence.
  - intros id r Hr'. by exists r.
Qed.

Lemma put_request_ok n t r :
  SpendInv n t -> minted "spend_request" n (sr_spendRequestId r) -> request_ok (spend_authorization t) r ->
  (forall r0, map_get (sr_spendRequestId r) (spendRequests t) = Some r0 -> request_evolves r0 r) ->
  SpendInv n (put_request r t) /\ spending_evolves t (put_request r t).
Proof.
  intros [Ha Hp Hr] Hm Hok He. split; split; cbn; try done.
  - intros id r1. rewrite map_get_set. case_decide as E; [|apply Hr]. intros [= <-]. subst id. done.
  - by apply same_authorization.
  - intros id p Hp'. by exists p.
  - intros id r1 Hr1. rewrite map_get_set. case_decide as E; [|by exists r1]. exists r. split; [done|]. subst id. by apply He.
Qed.

Lemma set_spend_authorization_ok n m t a a' :
  SpendInv n t -> (n <= m)%nat -> spend_authorization t = Some a -> MandateInv m a' -> mandates_evolve a a' ->
  SpendInv m (set_spend_authorization a' t) /\ spending_evolves t (set_spend_authorization a' t).
Proof.
  intros Hi Hle Ha Hi' He. apply (SpendInv_mono _ m) in Hi; [|done]. destruct Hi as [_ Hp Hr]. split; split; cbn; try done.
  - by intros ? [= <-].
  - intros id r Hg. destruct (Hr id r Hg) as (? & ? & [Hs Hb]). split_and!; try done. split; [done|]. intros Hn.
    destruct (Hb Hn) as (ma & res & Hma & Hres & Hh). rewrite Ha in Hma. injection Hma as <-.
    destruct (mv_reservations _ _ He _ _ Hres) as (res' & Hres' & Hev). exists a', res'. split_and!; [done|done|].
    by rewrite (re_hash _ _ Hev).
  - rewrite Ha. by exists a'.
  - intros id p Hp'. by exists p.
  - intros id r Hr'. by exists r.
Qed.

(** A method of the mandate service that keeps its invariant. *)
Lemma wp_on_spend_authorization {A} (m : M (Sys * Mandates) A) y t (Q : A -> Sys * Spending -> Prop) E
    (Qm : Mandates -> A -> Sys * Mandates -> Prop) :
  SpendInv (uuids y) t ->
  (forall a, MandateInv (uuids y) a ->
     wp m (fun x s => Service.kept MandateInv mandates_evolve y a s /\ Qm a x s)
       (fun _ s => Service.kept MandateInv mandates_evolve y a s) (y, a)) ->
  (forall a x y' a', spend_authorization t = Some a -> kept y t (y', set_spend_authorization a' t) -> Qm a x (y', a') ->
     Q x (y', set_spend_authorization a' t)) ->
  (forall e y' t', kept y t (y', t') -> policies t' = policies t -> spendRequests t' = spendRequests t -> E e (y', t')) ->
  wp (on_spend_authorization m) Q E (y, t).
Proof.
  intros Hi Hm HQ HE. apply wp_call_opt; [intros _; apply HE; [unchanged|done|done]|]. intros a Ha.
  eapply wp_mono; [by apply Hm, (si_authorization _ _ Hi)|..].
  - intros x [y' a'] [(Hi' & Hg & He) HQm]. cbn [fst snd] in *. eapply HQ; [done| |done].
    destruct (set_spend_authorization_ok _ _ _ _ a' Hi (gr_uuids _ _ Hg) Ha Hi' He). by split_and!.
  - intros e [y' a'] (Hi' & Hg & He). cbn [fst snd] in *.
    destruct (set_spend_authorization_ok _ _ _ _ a' Hi (gr_uuids _ _ Hg) Ha Hi' He). apply HE; [by split_and!|done|done].
Qed.

(** ** Providers, policies and settlement *)

Lemma allowProvider_keeps name acc tier now : keeps (allowProvider name acc tier now).
Proof.
  intros y t Hi. unfold allowProvider. svc_step. svc_step; [unchanged|]. unfold createProvider.
  apply wp_bind, wp_sys_bind, wp_bind, wp_now. intros n y1 Hu1 Hg1. cbv beta.
  apply wp_sys_bind, wp_bind, wp_new_id. intros y2 Hu2 Hg2. apply wp_sys_ret.
  assert (Hp : forall p y', grows y y' -> kept y t (y', put_provider p t)).
  { intros p y' Hg. split_and!; [|done|].
    - apply (SpendInv_mono _ (uuids y')) in Hi; [|by apply gr_uuids]. by destruct Hi.
    - split; cbn; [by apply same_authorization|intros id x Hx; by exists x..]. }
  svc_steps; apply Hp; grows.
Qed.

Lemma createSpendPolicy_keeps i : keeps (createSpendPolicy i).
Proof.
  intros y t Hi. unfold createSpendPolicy, requireProvider. do 3 svc_step. svc_step; [|unchanged].
  svc_step. svc_step; [unchanged|]. do 3 (svc_step; svc_step; [unchanged|]). svc_step. svc_step; [unchanged|].
  repeat match goal with E : assertPositiveMinorUnits _ _ = Ok _ |- _ => apply assertPositiveMinorUnits_pos in E end.
  unfold newSpendPolicy. apply wp_bind, wp_sys_bind, wp_bind, wp_now. intros n y1 Hu1 Hg1. cbv beta.
  apply wp_sys_bind, wp_bind, wp_new_id. intros y2 Hu2 Hg2. apply wp_sys_ret.
  match goal with |- context [put_policy ?p0] => set (p := p0) end. rewrite <- Hu1 in Hi.
  destruct (new_policy_ok _ t p Hi) as [Hi' He']; [done|split; cbn; lia|]. rewrite <- Hu2 in Hi'.
  svc_steps; (eapply kept_step; [apply SpendInv_mono|exact Hi'|grows|grows|done]).
Qed.

Lemma settleSpend_keeps id : keeps (settleSpend id).
Proof.
  intros y t Hi. unfold settleSpend, requireSpendRequest. do 3 svc_step. svc_step; [|unchanged]. rename a into r, H1 into Hr.
  svc_step. svc_step; [unchanged|].
  match goal with E : assertTransition _ _ _ _ = Ok _ |- _ => apply assertTransition_Ok in E; rename E into Hst end.
  destruct (si_requests _ _ Hi _ _ Hr) as (Hid & Hm & [Hs Hb]).
  svc_step. apply (wp_now None). intros at_ y1 Hu1 Hg1. cbv beta zeta.
  assert (Ha : sr_rejectionReason r = None).
  { destruct Hs as [[E _]|[_ ?]]; [|done]. rewrite E in Hst. cbn in Hst. set_solver. }
  destruct (put_request_ok _ t (with_outcome SpendRequestStatus_SETTLED (sr_rejectionReason r) (toISOString at_) r) Hi)
    as [Hi' He'].
  - cbn. by rewrite Hid.
  - split; [right; cbn; auto|apply Hb].
  - cbn. rewrite Hid, Hr. intros r0 [= <-]. split; try done. by apply rtc_once.
  - rewrite <- Hu1 in Hi'. svc_steps; (eapply kept_step; [apply SpendInv_mono|exact Hi'|grows|done|done]).
Qed.

(** ** Requesting to spend *)

(** The mandate authorizes the spend. *)
Definition spend_authorized (t : Spending) (i : RequestSpend) : Prop :=
  exists ma m now, spend_authorization t = Some ma /\ map_get (qs_mandateId i) (mandates ma) = Some m /\
    authorized m (spend_authorize i) now.

(** The policy and its provider admit the spend. *)
Record in_scope (i : RequestSpend) (provider : Provider) (p : SpendPolicy) : Prop := {
  is_provider : pv_status provider = ProviderStatus_ALLOWLISTED;
  is_active : sp_status p = SpendPolicyStatus_ACTIVE;
  is_subject : sp_subjectId p = qs_subjectId i;
  is_provider_id : sp_providerId p = qs_providerId i;
  is_asset : sp_assetId p = qs_assetId i;
  is_purpose : sp_category p = qs_purposeCode i }.

Lemma wp_scope_rejection i provider policy y t (Q : option string -> Sys * Spending -> Prop) E :
  SpendInv (uuids y) t ->
  (forall rej y' t', kept y t (y', t') -> policies t' = policies t -> spendRequests t' = spendRequests t ->
     (rej = None -> exists pr p, provider = Some pr /\ policy = Some p /\ in_scope i pr p /\ spend_authorized t i) ->
     Q rej (y', t')) ->
  (forall e y' t', kept y t (y', t') -> E e (y', t')) ->
  wp (scope_rejection i provider policy) Q E (y, t).
Proof.
  intros Hi HQ HE. unfold scope_rejection. apply wp_bind, wp_own.
  assert (Hrej : forall code, wp (mret (Some code)) Q E (y, t)) by (intros; apply wp_ret, HQ; [unchanged|done|done|done]).
  destruct provider as [pr|]; [|apply Hrej]. destruct policy as [p|]; [|apply wp_if; intros _; apply Hrej].
  apply wp_if; intros Hpr; [apply Hrej|]. apply wp_if; intros Hact; [apply Hrej|]. apply wp_if; intros Hsc; [apply Hrej|].
  apply wp_if; intros Hpu; [apply Hrej|]. destruct (spend_authorization t) as [ma|] eqn:Hma; [|apply Hrej].
  apply negb_false_iff, bool_decide_eq_true in Hpr, Hact. apply negb_false_iff, String.eqb_eq in Hpu.
  apply orb_false_iff in Hsc as [[Hs Hp]%orb_false_iff Has]. apply negb_false_iff, String.eqb_eq in Hs, Hp, Has.
  apply wp_bind, wp_attempt, (wp_on_spend_authorization _ _ _ _ _ (fun ma m _ => map_get (qs_mandateId i) (mandates ma) = Some m /\
    exists now, authorized m (spend_authorize i) now)); [done|..].
  - intros a Ha. eapply wp_mono; [apply wp_conj; [by apply wp_assertAuthorized|by apply assertAuthorized_keeps]|..].
    + intros m s [(_ & _ & Hm & now & _ & Hau) Hk]. split; [exact Hk|]. split; [done|by exists now].
    + by intros e s [Hk _].
  - intros a m y' a' Ha Hk (Hm & now & Hau). apply wp_ret, HQ; try done. intros _. exists pr, p. split_and!; try done.
    by exists a, m, now.
  - intros e y' t' Hk Hp' Hr'. apply wp_if; intros _; [|by apply wp_ret, HQ]. apply wp_lift; [|done]. intros. by apply HE.
Qed.

(** Asking the mandate reserves nothing, whatever the answer. *)
Definition no_reservation (t t' : Spending) : Prop :=
  option_map reservations (spend_authorization t') = option_map reservations (spend_authorization t).

Lemma assertAuthorized_reserves_nothing i y t :
  wp (assertAuthorized i) (fun _ s => reservations s.2 = reservations t) (fun _ s => reservations s.2 = reservations t) (y, t).
Proof. unfold assertAuthorized, requireMandate, setStatus. svc_steps; done. Qed.

Lemma scope_rejection_reserves_nothing i provider policy y t :
  wp (scope_rejection i provider policy) (fun _ s => no_reservation t s.2) (fun _ s => no_reservation t s.2) (y, t).
Proof.
  unfold scope_rejection. apply wp_bind, wp_own.
  assert (Hrej : forall code : string, wp (mret (Some code)) (fun _ s => no_reservation t s.2) (fun _ s => no_reservation t s.2) (y, t))
    by (intros; by apply wp_ret).
  destruct provider as [pr|]; [|apply Hrej]. destruct policy as [p|]; [|apply wp_if; intros _; apply Hrej].
  do 4 (apply wp_if; intros _; [apply Hrej|]). destruct (spend_authorization t) as [ma|] eqn:Hma; [|apply Hrej].
  apply wp_bind, wp_attempt, wp_call_opt; [congruence|]. intros a Ha.
  assert (Hsame : forall a', reservations a' = reservations a -> no_reservation t (set_spend_authorization a' t)).
  { intros a' Hr. unfold no_reservation. rewrite Ha. cbn. by rewrite Hr. }
  eapply wp_mono; [apply assertAuthorized_reserves_nothing|..].
  - intros m [y' a'] Hr. cbv beta iota. by apply wp_ret, Hsame.
  - intros e [y' a'] Hr. cbv beta iota. apply wp_if; intros _; [|by apply wp_ret, Hsame]. apply wp_lift; [|done].
    intros. by apply Hsame.
Qed.

Lemma limit_rejection_None p amount credit :
  limit_rejection p amount credit = None <->
  amount <= sp_perTxLimitMinor p /\ amount + sp_dailySpentMinor p <= sp_dailyLimitMinor p /\
  amount <= sp_obligationCapMinor p /\ amount <= credit.
Proof.
  unfold limit_rejection. repeat match goal with |- context [?a <? ?b] => destruct (Z.ltb_spec a b) end;
    split; try done; lia.
Qed.

(** What a policy is on a day: its total is kept on the day it was made and
    starts at zero on another. *)
Definition on_day (today : string) (p : SpendPolicy) : SpendPolicy :=
  if String.eqb (sp_dailySpentDate p) today then p else with_spent 0 today p.

Lemma roll_day_on_day today p : roll_day today p = on_day today p.
Proof. done. Qed.

Lemma on_day_ok today p : policy_ok p -> policy_ok (on_day today p) /\ policy_evolves p (on_day today p) /\
  sp_dailySpentDate (on_day today p) = today.
Proof.
  intros []. unfold on_day. destruct (String.eqb_spec (sp_dailySpentDate p) today); [done|].
  split_and!; [split; cbn; try done; lia|by split|done].
Qed.

(** [today_between n m today]: the day of a clock reading from the [n]-th on and before the [m]-th. *)
Definition today_between (n m : nat) (today : string) : Prop :=
  exists k, (n <= k < m)%nat /\ today = day_of (clock k).

(** What an approval between the clock readings [n] and [m] has checked and done. *)
Record spend_granted (n m : nat) (t : Spending) (i : RequestSpend) (r : SpendRequest) (t' : Spending) : Prop := {
  sg_scope : exists pr p, map_get (qs_providerId i) (providers t) = Some pr /\
    map_get (qs_spendPolicyId i) (policies t) = Some p /\ in_scope i pr p;
  sg_authorized : spend_authorized t i;
  sg_limits : exists p today amount credit, today_between n m today /\ map_get (qs_spendPolicyId i) (policies t) = Some p /\
    assertPositiveMinorUnits (qs_amountMinor i) "amountMinor" = Ok amount /\
    assertNonNegativeMinorUnits (qs_creditAvailableMinor i) "creditAvailableMinor" = Ok credit /\
    amount <= sp_perTxLimitMinor p /\ amount <= sp_obligationCapMinor p /\ amount <= credit /\
    sp_dailySpentMinor (on_day today p) + amount <= sp_dailyLimitMinor p /\
    map_get (qs_spendPolicyId i) (policies t') =
      Some (with_spent (sp_dailySpentMinor (on_day today p) + amount) today (on_day today p));
  sg_reserved : exists ma res, spend_authorization t' = Some ma /\
    map_get (sr_spendRequestId r) (reservations ma) = Some res /\
    rs_reservationHash res = reservation_hash (sr_spendRequestId r) (spend_authorize i) }.

Lemma wp_createSpendRequest i (Q : SpendRequest -> Sys * Spending -> Prop) E y t :
  (forall r y1 y', uuids y1 = uuids y -> uuids y' = S (uuids y1) -> grows y y' ->
     sr_spendRequestId r = id_of "spend_request" (uuids y1) -> request_authorize r = spend_authorize i ->
     sr_status r = SpendRequestStatus_REQUESTED -> Q r (y', t)) ->
  wp (sys (createSpendRequest i)) Q E (y, t).
Proof.
  intros HQ. unfold createSpendRequest. apply wp_sys_bind, wp_bind, wp_now. intros n y1 Hu1 Hg1. cbv beta.
  apply wp_sys_bind, wp_bind, wp_new_id. intros y2 Hu2 Hg2. apply wp_sys_ret. apply (HQ _ y1); try done. grows.
Qed.

(** A policy as the day's roll leaves it. *)
Definition rolled (today : string) (i : RequestSpend) (t t' : Spending) : Prop :=
  forall id, map_get id (policies t') =
    if decide (id = qs_spendPolicyId i) then on_day today <$> map_get id (policies t) else map_get id (policies t).

(** What a rejection has done: nothing is reserved and nothing is spent. *)
Record spend_rejected (n m : nat) (t : Spending) (i : RequestSpend) (t' : Spending) : Prop := {
  sj_reserved : no_reservation t t';
  sj_rolled : exists today, today_between n m today /\ rolled today i t t' }.

(** The roll of the day is written back. *)
Lemma wp_roll_policy i today y t (Q : unit -> Sys * Spending -> Prop) E :
  SpendInv (uuids y) t ->
  (forall t', kept y t (y, t') -> rolled today i t t' -> spend_authorization t' = spend_authorization t ->
     providers t' = providers t -> spendRequests t' = spendRequests t -> Q () (y, t')) ->
  wp (match on_day today <$> map_get (qs_spendPolicyId i) (policies t) with Some p => update (put_policy p) | None => mret () end)
    Q E (y, t).
Proof.
  intros Hi HQ. destruct (map_get _ _) as [p|] eqn:Hp; cbn [fmap option_fmap option_map].
  - destruct (si_policies _ _ Hi _ _ Hp) as (Hid & _ & Hok). destruct (on_day_ok today p Hok) as (Hok' & He & _).
    destruct (put_policy_ok _ _ p (on_day today p) Hi) as [Hi' He']; [by rewrite Hid|done|done|].
    apply wp_update, HQ; try done. intros id. cbn. rewrite map_get_set, (pe_id _ _ He), Hid.
    case_decide as E1; case_decide as E2; try congruence. by subst id; rewrite Hp.
  - apply wp_ret, HQ; try done. intros id. case_decide as E1; [|done]. subst id. by rewrite Hp.
Qed.

(** The reservation and the policy's new total of the day. *)
Lemma wp_approve i p rid amount today y t (Q : unit -> Sys * Spending -> Prop) E :
  SpendInv (uuids y) t -> map_get (qs_spendPolicyId i) (policies t) = Some p -> sp_dailySpentDate p = today ->
  0 <= amount -> sp_dailySpentMinor p + amount <= sp_dailyLimitMinor p ->
  (forall y' t' ma res, kept y t (y', t') -> spendRequests t' = spendRequests t ->
     map_get (qs_spendPolicyId i) (policies t') = Some (with_spent (sp_dailySpentMinor p + amount) today p) ->
     spend_authorization t' = Some ma -> map_get rid (reservations ma) = Some res ->
     rs_reservationHash res = reservation_hash rid (spend_authorize i) -> Q () (y', t')) ->
  (forall e y' t', kept y t (y', t') -> E e (y', t')) ->
  wp (on_spend_authorization (reserveUtilization rid (spend_authorize i)) ;;
      update (put_policy (with_spent (sp_dailySpentMinor p + amount) (sp_dailySpentDate p) p))) Q E (y, t).
Proof.
  intros Hi Hp Hday Ham Hle HQ HE. apply wp_bind, (wp_on_spend_authorization _ _ _ _ _ (fun _ v s =>
    map_get rid (reservations s.2) = Some (rv_reservation v) /\
    rs_reservationHash (rv_reservation v) = reservation_hash rid (spend_authorize i))); [done| | |by intros; apply HE].
  - intros a Ha. eapply wp_mono; [by apply wp_reserveUtilization| |by intros].
    intros v s [Hk Hv]. split; [done|]. destruct Hv as [(_ & -> & [])|(_ & [? ? ? ? ? [? ?] ?])]; done.
  - intros a v y1 a' Ha Hk [Hres Hh]. apply wp_update. destruct Hk as (Hi1 & Hg1 & He1). cbn [fst snd] in *.
    destruct (si_policies _ _ Hi _ _ Hp) as (Hid & _ & Hok). rewrite Hday.
    destruct (put_policy_ok _ _ p (with_spent (sp_dailySpentMinor p + amount) today p) Hi1) as [Hi2 He2].
    + cbn. by rewrite Hid.
    + by split.
    + destruct Hok. split; cbn; lia.
    + apply (HQ _ _ a' (rv_reservation v)); try done.
      * eapply kept_step; [apply SpendInv_mono|exact Hi2|done|done|by etrans].
      * cbn. by rewrite Hid, map_get_set_eq.
Qed.

(** The end of a request: it is recorded and reported. *)
Lemma wp_record_request r (report : M Sys unit) y y1 t t1 (Q : SpendRequest -> Sys * Spending -> Prop) E :
  kept y t (y1, t1) -> minted "spend_request" (uuids y1) (sr_spendRequestId r) ->
  map_get (sr_spendRequestId r) (spendRequests t1) = None -> request_ok (spend_authorization t1) r -> growing report ->
  (forall y', kept y t (y', put_request r t1) -> grows y1 y' -> Q r (y', put_request r t1)) ->
  (forall e y', kept y t (y', put_request r t1) -> E e (y', put_request r t1)) ->
  wp (update (put_request r) ;; sys report ;; mret r) Q E (y1, t1).
Proof.
  intros (Hi & Hg & He) Hm Hf Hok Hrep HQ HE. cbn [fst snd] in *.
  destruct (put_request_ok _ _ r Hi Hm Hok) as [Hi' He']; [by rewrite Hf|].
  assert (Hk : forall y', grows y1 y' -> kept y t (y', put_request r t1)).
  { intros y' Hg'. eapply kept_step; [apply SpendInv_mono|exact Hi'|done|done|by etrans]. }
  apply wp_bind, wp_update, wp_bind, wp_sys; [done|..]; intros; [apply wp_ret, HQ|apply HE]; auto.
Qed.

(** A request that returns, made between the clock readings [n] and [m], is on
    record and decided: approved with every check passed, or rejected for a reason. *)
Record spend_decided (n m : nat) (t : Spending) (i : RequestSpend) (r : SpendRequest) (t' : Spending) : Prop := {
  sd_recorded : map_get (sr_spendRequestId r) (spendRequests t') = Some r;
  sd_new : map_get (sr_spendRequestId r) (spendRequests t) = None;
  sd_terms : request_authorize r = spend_authorize i;
  sd_outcome :
    sr_status r = SpendRequestStatus_APPROVED /\ sr_rejectionReason r = None /\ spend_granted n m t i r t' \/
    sr_status r = SpendRequestStatus_REJECTED /\ sr_rejectionReason r <> None /\ spend_rejected n m t i t' }.

Lemma in_scope_roll i pr p today : in_scope i pr (on_day today p) -> in_scope i pr p.
Proof. unfold on_day. case_match; [done|]. by intros []. Qed.

(** The decision and its effects: [t1] is the state after the day's roll and the
    scope check, [r] the request as it was created. *)
Section deciding.
Context (i : RequestSpend) (r : SpendRequest) (amount credit : Z) (y y1 : Sys) (t t1 : Spending) (today : string).
Context (Htoday : today_between (ticks y) (ticks y1) today).
Context (Hi : SpendInv (uuids y) t) (Hk : kept y t (y1, t1)) (Hroll : rolled today i t t1) (Hres : no_reservation t t1)
  (Hreq : spendRequests t1 = spendRequests t) (Hu : (S (uuids y) <= uuids y1)%nat)
  (Hid : sr_spendRequestId r = id_of "spend_request" (uuids y)) (Hau : request_authorize r = spend_authorize i)
  (Ham : assertPositiveMinorUnits (qs_amountMinor i) "amountMinor" = Ok amount)
  (Hcr : assertNonNegativeMinorUnits (qs_creditAvailableMinor i) "creditAvailableMinor" = Ok credit).

Abbreviation decided := (fun r' s => kept y t s /\ spend_decided (ticks y) (ticks s.1) t i r' s.2).

Lemma today_by y' : grows y1 y' -> today_between (ticks y) (ticks y') today.
Proof. intros Hg. destruct Htoday as (k & Hkb & ->). exists k. pose proof (gr_ticks _ _ Hg). split; [lia|done]. Qed.

Lemma request_unrecorded : map_get (sr_spendRequestId r) (spendRequests t) = None.
Proof.
  rewrite Hid. destruct (map_get _ (spendRequests t)) as [r0|] eqn:E; [|done].
  apply (si_requests _ _ Hi) in E as (_ & Hm & _). by apply minted_fresh in Hm.
Qed.

Lemma request_minted y' : grows y1 y' -> minted "spend_request" (uuids y') (sr_spendRequestId r).
Proof. intros Hg. exists (uuids y). split; [|done]. pose proof (gr_uuids _ _ Hg). lia. Qed.

(** Recording the decided request [r']. *)
Lemma wp_conclude st reason at_ y2 t2 (report : M Sys unit) :
  let r' := with_outcome st reason at_ r in
  kept y t (y2, t2) -> grows y1 y2 -> spendRequests t2 = spendRequests t ->
  request_ok (spend_authorization t2) r' -> growing report ->
  (forall m, today_between (ticks y) m today ->
   st = SpendRequestStatus_APPROVED /\ reason = None /\ spend_granted (ticks y) m t i r' (put_request r' t2) \/
   st = SpendRequestStatus_REJECTED /\ reason <> None /\ spend_rejected (ticks y) m t i (put_request r' t2)) ->
  wp (update (put_request r') ;; sys report ;; mret r') decided (fun _ s => kept y t s) (y2, t2).
Proof.
  intros r' Hk2 Hg Hr2 Hok Hrep Hout. apply (wp_record_request _ _ y _ t); try done.
  - cbn. by apply request_minted.
  - cbn. rewrite Hr2. apply request_unrecorded.
  - intros y' Hk' Hg'. split; [done|].
    split; [cbn; by rewrite map_get_set_eq|cbn; apply request_unrecorded|exact Hau|].
    apply Hout, today_by. by etrans.
Qed.

Lemma wp_grant pr p at_ y2 (report : M Sys unit) :
  map_get (qs_providerId i) (providers t) = Some pr -> map_get (qs_spendPolicyId i) (policies t) = Some p ->
  in_scope i pr p -> spend_authorized t i -> limit_rejection (on_day today p) amount credit = None ->
  kept y t (y2, t1) -> grows y1 y2 -> growing report ->
  let r' := with_outcome SpendRequestStatus_APPROVED None at_ r in
  let p' := on_day today p in
  wp ((on_spend_authorization (reserveUtilization (sr_spendRequestId r') (spend_authorize i)) ;;
       update (put_policy (with_spent (sp_dailySpentMinor p' + amount) (sp_dailySpentDate p') p'))) ;;
      update (put_request r') ;; sys report ;; mret r') decided (fun _ s => kept y t s) (y2, t1).
Proof.
  intros Hpr Hp Hsc Hauth (H1 & H2 & H3 & H4)%limit_rejection_None Hk2 Hg2 Hrep r' p'.
  pose proof (assertPositiveMinorUnits_pos _ _ _ Ham) as Hpos.
  destruct (si_policies _ _ Hi _ _ Hp) as (_ & _ & Hok). destruct (on_day_ok today p Hok) as (_ & He & Hday).
  apply wp_bind, (wp_approve i _ _ _ today); [apply Hk2| |done|lia|unfold p'; lia|..].
  - by rewrite (Hroll (qs_spendPolicyId i)), decide_True, Hp.
  - intros y3 t3 ma res Hk3 Hreq3 Hp3 Hma Hr3 Hh3. apply wp_conclude; try done.
    + exact (kept_trans _ _ _ _ _ _ Hk2 Hk3).
    + etrans; [exact Hg2|apply Hk3].
    + congruence.
    + split; [right; auto|]. intros _. exists ma, res. split_and!; [done|done|]. rewrite Hh3. by rewrite <- Hau.
    + intros m Hm. left. split_and!; [done|done|]. split; [by exists pr, p|done| |by exists ma, res].
      exists p, today, amount, credit. rewrite (pe_perTx _ _ He) in H1. rewrite (pe_daily _ _ He) in H2.
      rewrite (pe_cap _ _ He) in H3. split_and!; try done. lia.
  - intros e y3 t3 Hk3. exact (kept_trans _ _ _ _ _ _ Hk2 Hk3).
Qed.

Lemma wp_decide_spend rejection :
  sr_status r = SpendRequestStatus_REQUESTED ->
  (rejection = None -> exists pr p, map_get (qs_providerId i) (providers t) = Some pr /\
     map_get (qs_spendPolicyId i) (policies t) = Some p /\ in_scope i pr p /\ spend_authorized t i) ->
  wp (decide_spend i r (on_day today <$> map_get (qs_spendPolicyId i) (policies t)) rejection amount credit)
    decided (fun _ s => kept y t s) (y1, t1).
Proof.
  intros Hst Hscope. unfold decide_spend. cbv zeta. set (policy := on_day today <$> _).
  set (reason := match rejection, policy with None, Some p => _ | _, _ => rejection end).
  apply wp_bind, wp_lift; [rewrite Hst; by destruct reason|]. intros _ _. cbv beta.
  apply wp_bind, (wp_now None). intros at_ y2 Hu2 Hg2. cbv beta.
  assert (Hk2 : kept y t (y2, t1)).
  { eapply (kept_trans _ _ _ _ _ _ Hk). cbn [fst snd]. apply (kept_same _ _ SpendInv_mono); [apply Hk|done]. }
  destruct reason as [code|] eqn:Hreason.
  - apply wp_bind, wp_ret, wp_conclude; try done; [split; [by left|done]|apply growing_emit|].
    intros m Hm. right. split_and!; [done|done|]. split; [exact Hres|by exists today].
  - destruct rejection as [code|]; [done|]. destruct (Hscope eq_refl) as (pr & p & Hpr & Hp & Hsc & Hauth).
    unfold reason, policy in *. rewrite Hp in *. cbn [fmap option_fmap option_map] in *.
    apply (wp_grant pr p); try done. apply growing_emit.
Qed.
End deciding.

Lemma wp_requestSpend i y t :
  SpendInv (uuids y) t ->
  wp (requestSpend i) (fun r s => kept y t s /\ spend_decided (ticks y) (ticks s.1) t i r s.2) (fun _ s => kept y t s) (y, t).
Proof.
  intros Hi. unfold requestSpend. change roll_day with on_day. apply wp_bind, wp_createSpendRequest. intros r y1 y2 Hu1 Hu2 Hg2 Hid Hau Hst. cbv beta.
  do 4 svc_step. svc_step. svc_step; [unchanged|]. rename a into amount. svc_step. svc_step; [unchanged|]. rename a into credit.
  svc_step. svc_step; [unchanged|]. svc_step. svc_step; [|unchanged].
  apply wp_bind, wp_clock. intros y4 Hu4 Ht4 Hg4. match type of Ht4 with _ = S (ticks ?z) => rename z into y3 end.
  cbv beta zeta. match goal with G : grows y2 ?y3 |- _ => assert (Hg : grows y y4) by grows; assert (Hg' : grows y2 y4) by grows end.
  assert (Hi4 : SpendInv (uuids y4) t) by (eapply SpendInv_mono; [apply gr_uuids; exact Hg|done]).
  apply wp_bind, (wp_roll_policy i); [done|]. intros t1 Hk1 Hroll Ha1 Hp1 Hr1. cbv beta.
  assert (Hk1' : kept y t (y4, t1)) by (destruct Hk1 as (? & ? & ?); by split_and!).
  apply wp_bind. eapply wp_mono; [apply wp_conj; [apply scope_rejection_reserves_nothing|
    apply (wp_scope_rejection _ _ _ _ _ (fun rej s => kept y4 t1 s /\ policies s.2 = policies t1 /\
      spendRequests s.2 = spendRequests t1 /\ (rej = None -> exists pr p, map_get (qs_providerId i) (providers t) = Some pr /\
        map_get (qs_spendPolicyId i) (policies t) = Some p /\ in_scope i pr p /\ spend_authorized t i))
      (fun _ s => kept y4 t1 s)); [apply Hk1| |done]]|..].
  - intros rej y5 t2 Hk Hp Hr Hsc. split_and!; [done|done|done|]. intros Hn.
    destruct (Hsc Hn) as (pr & p & Hpr & Hp0 & Hin & Hauth). destruct (map_get (qs_spendPolicyId i) (policies t)) as [p0|]; [|done].
    cbn in Hp0. injection Hp0 as <-. exists pr, p0. split_and!; try done; [by eapply in_scope_roll|].
    unfold spend_authorized in *. by rewrite <- Ha1.
  - intros rej [y5 t2] [Hno (Hk & Hp & Hr & Hsc)]. cbn [fst snd] in *. cbv beta.
    assert (Hk5 : kept y t (y5, t2)).
    { eapply kept_trans; [apply _|exact Hk1'|exact Hk]. }
    apply (wp_decide_spend i r amount credit y y5 t t2 (day_of (clock (ticks y3)))); try done.
    + exists (ticks y3). destruct Hk as (_ & G & _). apply gr_ticks in G. cbn [fst] in G.
      split; [|done]. match goal with G3 : grows y2 y3 |- _ => pose proof (gr_ticks _ _ Hg2); pose proof (gr_ticks _ _ G3) end. lia.
    + intros id. rewrite Hp. apply Hroll.
    + unfold no_reservation in *. congruence.
    + congruence.
    + pose proof (gr_uuids _ _ Hg'). destruct Hk as (_ & G & _). pose proof (gr_uuids _ _ G). cbn in *. lia.
    + by rewrite Hid, Hu1.
  - intros e [y5 t2] [_ Hk]. eapply kept_trans; [apply _|exact Hk1'|exact Hk].
Qed.

(** ** Executions *)

Inductive spend_call :=
| CallAllowProvider (name settlementAccountId riskTier : string) (now : option Z)
| CallCreateSpendPolicy (i : CreateSpendPolicy)
| CallRequestSpend (i : RequestSpend)
| CallSettleSpend (spendRequestId : string)
| CallSpendAuthorization (c : mandate_call).

(** A call of the service, or of the mandate service it shares. *)
Definition run_spend (c : spend_call) : M (Sys * Spending) unit :=
  match c with
  | CallAllowProvider name acc tier now => allowProvider name acc tier now ;; mret ()
  | CallCreateSpendPolicy i => createSpendPolicy i ;; mret ()
  | CallRequestSpend i => requestSpend i ;; mret ()
  | CallSettleSpend id => settleSpend id ;; mret ()
  | CallSpendAuthorization c => on_spend_authorization (run_mandate c)
  end.

Lemma run_spend_keeps c : keeps (run_spend c).
Proof.
  assert (Hret : forall A (m : M (Sys * Spending) A), keeps m -> keeps (m ;; mret ())).
  { intros A m Hm. apply keeps_bind; [apply _|done|]. intros _. apply keeps_ret; [apply _|apply SpendInv_mono]. }
  destruct c; cbn [run_spend]; try apply Hret.
  - apply allowProvider_keeps.
  - apply createSpendPolicy_keeps.
  - intros y t Hi. eapply wp_mono; [by apply wp_requestSpend|by intros ? ? [? _]|done].
  - apply settleSpend_keeps.
  - intros y t Hi. apply (wp_on_spend_authorization _ _ _ _ _ (fun _ _ _ => True)); [done|..].
    + intros a Ha. eapply wp_mono; [by apply run_mandate_keeps|by intros|done].
    + done.
    + by intros.
Qed.

(** A service started with a fresh mandate service or with none. *)
Definition spend_start (with_authorization : bool) : Spending :=
  new_spending (if with_authorization then Some empty_mandates else None).

Lemma run_spends_ok cs y b :
  Service.kept SpendInv spending_evolves y (spend_start b) (exec run_spend cs (y, spend_start b)).
Proof.
  apply (exec_kept _ _ SpendInv_mono run_spend cs y _ run_spend_keeps). split; [|done|done].
  intros m Hm. destruct b; [injection Hm as <-; apply MandateInv_empty|done].
Qed.

(** C11: an approved spend passed every check.  On a service reached by any
    calls, a request that returns is newly on record with the terms asked for;
    if it is approved, the provider is allowlisted, the policy is active and for
    the same subject, provider, asset and purpose, the mandate authorizes the
    spend, the amount is within the per-transaction limit, the obligation cap,
    the credit available and what is left of the day (the day is that of a clock
    reading taken during the request; the policy's total counts if it was made on
    that day and starts at zero otherwise), the policy's total for the day grew
    by exactly the amount and the mandate service holds a reservation for exactly
    these terms; if it is rejected, there is a reason, nothing was reserved and
    no policy changed except for the day's roll. *)
Theorem spend_approved_soundly cs y b i r s' :
  let s := exec run_spend cs (y, spend_start b) in
  requestSpend i s = (Ok r, s') -> spend_decided (ticks s.1) (ticks s'.1) s.2 i r s'.2.
Proof.
  intros s Hrun. destruct (run_spends_ok cs y b) as (Hi & _ & _). fold s in Hi. destruct s as [y1 t1].
  by destruct (wp_run _ _ _ _ _ _ (wp_requestSpend i y1 t1 Hi) Hrun).
Qed.
End spending.
