(* ===== verification/SpendDays.v ===== *)
(** * The day's total of a spend policy

    [dailySpentMinor] and [dailySpentDate] of src/modules/spend-policy/src/
    spend-policy-service.js against the requests on record: the total of a
    policy's day is what was approved on that day, and no day's approvals exceed
    the daily limit, provided that the clock does not return to a day it left. *)

From stdpp Require Import base tactics sets relations gmap numbers strings list.
From S2P Require Import Prelude Js Enums EventStore Service Mandate MandateProps Spend SpendProps.
Local Open Scope string_scope.
Local Open Scope Z_scope.

(** The requests that were approved, settled or not. *)
Definition is_spent (r : SpendRequest) : bool :=
  match sr_status r with SpendRequestStatus_APPROVED | SpendRequestStatus_SETTLED => true | _ => false end.

Definition amount_of (r : SpendRequest) : Z :=
  match assertPositiveMinorUnits (sr_amountMinor r) "amountMinor" with Ok a => a | Err _ => 0 end.

Lemma amount_of_nonneg r : 0 <= amount_of r.
Proof.
  unfold amount_of. destruct (assertPositiveMinorUnits _ _) eqn:E; [|done].
  apply assertPositiveMinorUnits_pos in E. lia.
Qed.

#[local] Opaque day_of toISOString.

Section days.
Context `{PlatformLaws}.

(** The day of the [k]-th reading of the clock. *)
Definition day (k : nat) : string := day_of (clock k).

(** Before its [n]-th reading the clock does not return to a day it left. *)
Definition days_pass (n : nat) : Prop :=
  forall i j k, (i <= j <= k)%nat -> (k < n)%nat -> day i = day k -> day j = day k.

Lemma days_pass_le n m : (n <= m)%nat -> days_pass m -> days_pass n.
Proof. intros Hle Hm i j k Hijk Hk. apply Hm; lia. Qed.

(** A clock that stays on one day passes no day. *)
Lemma same_day_passes n : forallb (fun k => String.eqb (day k) (day 0)) (seq 0 n) = true -> days_pass n.
Proof.
  rewrite forallb_forall. intros K i j k Hijk Hk _.
  assert (E : forall x, (x < n)%nat -> day x = day 0).
  { intros x Hx. apply String.eqb_eq, K, in_seq. lia. }
  rewrite (E j), (E k) by lia. done.
Qed.

(** What a request adds to the approvals of policy [pid] on day [d], when the
    requests were decided at the readings [at_]. *)
Definition charged (at_ : string -> nat) (pid d : string) (r : SpendRequest) : Z :=
  if is_spent r && String.eqb (sr_spendPolicyId r) pid && String.eqb (day (at_ (sr_spendRequestId r))) d
  then amount_of r else 0.

Definition spent_on (at_ : string -> nat) (pid d : string) (t : Spending) : Z :=
  sum_by (charged at_ pid d) (map_values (spendRequests t)).

(** The reading [k] was taken while the request was decided: from its creation
    on and no later than its last update, all before the [n]-th. *)
Definition decided_during (n k : nat) (r : SpendRequest) : Prop :=
  exists k0 k1, (k0 <= k <= k1)%nat /\ (k1 < n)%nat /\
    sr_createdAt r = toISOString (clock k0) /\ sr_updatedAt r = toISOString (clock k1).

Record DayInv (n : nat) (at_ : string -> nat) (t : Spending) : Prop := {
  di_keys : NoDup (map_keys (spendRequests t));
  di_requests : forall id r, map_get id (spendRequests t) = Some r -> is_spent r = true ->
    decided_during n (at_ id) r /\
    exists p kd, map_get (sr_spendPolicyId r) (policies t) = Some p /\
      (at_ id <= kd < n)%nat /\ sp_dailySpentDate p = day kd;
  di_total : forall pid p, map_get pid (policies t) = Some p ->
    sp_dailySpentMinor p = spent_on at_ pid (sp_dailySpentDate p) t;
  di_limit : forall pid p d, map_get pid (policies t) = Some p -> spent_on at_ pid d t <= sp_dailyLimitMinor p }.

Lemma decided_during_mono n m k r : (n <= m)%nat -> decided_during n k r -> decided_during m k r.
Proof. intros Hle (k0 & k1 & ? & ? & ? & ?). exists k0, k1. split_and!; try done; lia. Qed.

(** The invariant depends on the policies and the requests alone. *)
Lemma DayInv_frame n m at_ t t' :
  (n <= m)%nat -> policies t' = policies t -> spendRequests t' = spendRequests t -> DayInv n at_ t -> DayInv m at_ t'.
Proof.
  intros Hle Hp Hr [Hk Hq Ht Hl]. split; unfold spent_on in *; rewrite ?Hp, ?Hr; try done.
  intros id r Hg Hs. destruct (Hq id r Hg Hs) as (Hd & p & kd & ? & ? & ?).
  split; [by eapply decided_during_mono|]. exists p, kd. split_and!; try done; lia.
Qed.

Lemma spent_on_zero at_ pid d t :
  (forall id r, map_get id (spendRequests t) = Some r -> sr_spendRequestId r = id) -> NoDup (map_keys (spendRequests t)) ->
  (forall id r, map_get id (spendRequests t) = Some r -> is_spent r = true -> sr_spendPolicyId r = pid -> day (at_ id) <> d) ->
  spent_on at_ pid d t = 0.
Proof.
  intros Hid Hk Hno. apply sum_by_zero. intros r Hr. unfold map_values in Hr.
  apply list_elem_of_fmap in Hr as ([id r'] & -> & Hin%elem_map_get); [|done]. cbn [snd].
  unfold charged. rewrite (Hid _ _ Hin). destruct (is_spent r') eqn:Hs; [|done].
  destruct (String.eqb_spec (sr_spendPolicyId r') pid) as [E|]; [|done].
  destruct (String.eqb_spec (day (at_ id)) d) as [E'|]; [|done]. by destruct (Hno _ _ Hin Hs E).
Qed.

(** *** A new policy *)

Lemma DayInv_new_policy n m at_ t p :
  (n <= m)%nat -> (forall id r, map_get id (spendRequests t) = Some r -> sr_spendRequestId r = id) ->
  map_get (sp_spendPolicyId p) (policies t) = None -> sp_dailySpentMinor p = 0 -> policy_ok p ->
  DayInv n at_ t -> DayInv m at_ (put_policy p t).
Proof.
  intros Hle Hid Hf Hz Hok Hi. apply (DayInv_frame n m at_ t t Hle eq_refl eq_refl) in Hi. destruct Hi as [Hk Hq Ht Hl].
  assert (Hz0 : forall d, spent_on at_ (sp_spendPolicyId p) d (put_policy p t) = 0).
  { intros d. apply spent_on_zero; cbn; try done. intros id r Hg Hs E _.
    destruct (Hq id r Hg Hs) as (_ & p' & _ & Hp' & _). congruence. }
  split; cbn [put_policy policies spendRequests]; try done.
  - intros id r Hg Hs. destruct (Hq id r Hg Hs) as (Hd & p' & kd & Hp' & Hkd). split; [done|]. exists p', kd.
    rewrite map_get_set_ne; [done|congruence].
  - intros pid q. rewrite map_get_set. case_decide as E; [|apply Ht]. intros [= <-]. subst pid. by rewrite Hz, Hz0.
  - intros pid q d. rewrite map_get_set. case_decide as E; [|apply Hl]. intros [= <-]. subst pid. rewrite Hz0.
    destruct Hok. lia.
Qed.

(** *** The day's roll *)

Lemma on_day_limit today p : sp_dailyLimitMinor (on_day today p) = sp_dailyLimitMinor p.
Proof. unfold on_day. by case_match. Qed.
Lemma on_day_date today p : sp_dailySpentDate (on_day today p) = today.
Proof. unfold on_day. destruct (String.eqb_spec (sp_dailySpentDate p) today); done. Qed.
Lemma on_day_id today p : sp_spendPolicyId (on_day today p) = sp_spendPolicyId p.
Proof. unfold on_day. by case_match. Qed.

(** A policy that moves to a new day has no approvals on it yet. *)
Lemma DayInv_roll n m at_ k p t :
  days_pass m -> (n <= k < m)%nat ->
  (forall id r, map_get id (spendRequests t) = Some r -> sr_spendRequestId r = id) ->
  map_get (sp_spendPolicyId p) (policies t) = Some p ->
  DayInv n at_ t -> DayInv m at_ (put_policy (on_day (day k) p) t).
Proof.
  intros Hdays Hkm Hid Hp [Hk Hq Ht Hl].
  split; cbn [put_policy policies spendRequests]; rewrite ?on_day_id; try done.
  - intros id r Hg Hs. destruct (Hq id r Hg Hs) as (Hd & p' & kd & Hp' & Hkd & Hdate).
    split; [eapply decided_during_mono; [|done]; lia|]. rewrite map_get_set. case_decide as E.
    + exists (on_day (day k) p), k. split_and!; try done; [lia..|apply on_day_date].
    + exists p', kd. split_and!; try done; lia.
  - intros pid q. rewrite map_get_set. case_decide as E; [|apply Ht]. intros [= <-]. subst pid. rewrite on_day_date.
    change (spent_on _ _ _ (put_policy _ t)) with (spent_on at_ (sp_spendPolicyId p) (day k) t).
    unfold on_day. destruct (String.eqb_spec (sp_dailySpentDate p) (day k)) as [E|Hne]; [by rewrite (Ht _ _ Hp), E|].
    symmetry. apply spent_on_zero; [exact Hid|exact Hk|]. intros id r Hg Hs Epol Eday.
    destruct (Hq id r Hg Hs) as (_ & p' & kd & Hp' & Hkd & Hdate). rewrite Epol, Hp in Hp'. injection Hp' as <-.
    apply Hne. rewrite Hdate. apply (Hdays (at_ id) kd k); [lia|lia|exact Eday].
  - intros pid q d. rewrite map_get_set. case_decide as E; [|apply Hl]. intros [= <-]. subst pid. rewrite on_day_limit.
    by apply (Hl _ p).
Qed.

(** *** Recording a request *)

(** The readings with [k] for the request [rid]. *)
Definition decided_at (rid : string) (k : nat) (at_ : string -> nat) (id : string) : nat :=
  if decide (id = rid) then k else at_ id.

Lemma spent_on_put at_ pid d rid k r t :
  (forall id r, map_get id (spendRequests t) = Some r -> sr_spendRequestId r = id) -> NoDup (map_keys (spendRequests t)) ->
  sr_spendRequestId r = rid -> map_get rid (spendRequests t) = None ->
  spent_on (decided_at rid k at_) pid d (put_request r t) =
    spent_on at_ pid d t + (if is_spent r && String.eqb (sr_spendPolicyId r) pid && String.eqb (day k) d then amount_of r else 0).
Proof.
  intros Hid Hk Hr Hf. unfold spent_on. cbn [put_request spendRequests]. rewrite sum_values_set, Hr, Hf.
  assert (E : sum_by (charged (decided_at rid k at_) pid d) (map_values (spendRequests t)) =
              sum_by (charged at_ pid d) (map_values (spendRequests t))).
  { apply sum_by_ext. intros x Hx. unfold map_values in Hx. apply list_elem_of_fmap in Hx as ([id x'] & -> & Hin%elem_map_get); [|done].
    cbn [snd]. unfold charged, decided_at. rewrite (Hid _ _ Hin). case_decide as E; [congruence|done]. }
  rewrite E. unfold charged at 2. unfold decided_at. rewrite Hr, decide_True by done. lia.
Qed.

(** A rejected request changes no total. *)
Lemma DayInv_reject n at_ r t :
  (forall id r, map_get id (spendRequests t) = Some r -> sr_spendRequestId r = id) ->
  map_get (sr_spendRequestId r) (spendRequests t) = None -> is_spent r = false ->
  DayInv n at_ t -> DayInv n at_ (put_request r t).
Proof.
  intros Hid Hf Hs [Hk Hq Ht Hl].
  assert (E : forall pid d, spent_on at_ pid d (put_request r t) = spent_on at_ pid d t).
  { intros pid d. unfold spent_on. cbn [put_request spendRequests]. rewrite sum_values_set, Hf.
    unfold charged at 2. rewrite Hs. cbn. lia. }
  split; cbn [put_request policies spendRequests].
  - by apply map_set_NoDup.
  - intros id x. rewrite map_get_set. case_decide as E'; [intros [= <-]; congruence|apply Hq].
  - intros pid p Hp. rewrite E. by apply Ht.
  - intros pid p d Hp. rewrite E. by eapply Hl.
Qed.

(** An approval adds its amount to the day of the policy, which has room for it. *)
Lemma DayInv_approve n at_ k k0 k1 r p amount t :
  (forall id r, map_get id (spendRequests t) = Some r -> sr_spendRequestId r = id) ->
  map_get (sr_spendRequestId r) (spendRequests t) = None -> is_spent r = true -> amount_of r = amount ->
  map_get (sr_spendPolicyId r) (policies t) = Some p -> sp_spendPolicyId p = sr_spendPolicyId r ->
  sp_dailySpentDate p = day k -> (k0 <= k <= k1)%nat -> (k1 < n)%nat ->
  sr_createdAt r = toISOString (clock k0) -> sr_updatedAt r = toISOString (clock k1) ->
  sp_dailySpentMinor p + amount <= sp_dailyLimitMinor p ->
  DayInv n at_ t ->
  DayInv n (decided_at (sr_spendRequestId r) k at_)
    (put_request r (put_policy (with_spent (sp_dailySpentMinor p + amount) (sp_dailySpentDate p) p) t)).
Proof.
  intros Hid Hf Hs <- Hp Hpid Hdate Hk01 Hk1 Hc Hu Hroom [Hk Hq Ht Hl].
  set (p' := with_spent _ _ p). set (t1 := put_policy p' t).
  assert (E : forall pid d, spent_on (decided_at (sr_spendRequestId r) k at_) pid d (put_request r t1) =
    spent_on at_ pid d t + (if String.eqb (sr_spendPolicyId r) pid && String.eqb (day k) d then amount_of r else 0)).
  { intros pid d. rewrite spent_on_put by done. by rewrite Hs. }
  split; cbn [put_request put_policy t1 policies spendRequests].
  - by apply map_set_NoDup.
  - intros id x. unfold decided_at. rewrite map_get_set. case_decide as E1.
    + intros [= <-] _. rewrite decide_True by done. split; [by exists k0, k1|]. exists p', k.
      cbn [p' with_spent sp_spendPolicyId]. rewrite Hpid, map_get_set_eq. split_and!; try done; lia.
    + intros Hg Hs'. rewrite decide_False by congruence. destruct (Hq id x Hg Hs') as (Hd & q & kd & Hq' & Hkd & Hdq).
      split; [done|]. cbn [p' with_spent sp_spendPolicyId]. rewrite map_get_set. case_decide as E2; [|by exists q, kd].
      exists p', kd. split_and!; [done|lia|lia|]. rewrite <- E2, Hpid, Hp in Hq'. injection Hq' as <-. done.
  - intros pid q. cbn [p' with_spent sp_spendPolicyId]. rewrite map_get_set, E, Hpid. case_decide as E1.
    + intros [= <-]. subst pid. cbn. rewrite Hdate, !String.eqb_refl. cbn. rewrite (Ht _ _ Hp), Hdate. done.
    + intros Hg. rewrite (proj2 (String.eqb_neq _ _) E1). cbn. rewrite Z.add_0_r. by apply Ht.
  - intros pid q d. cbn [p' with_spent sp_spendPolicyId]. rewrite map_get_set, E, Hpid. case_decide as E1.
    + intros [= <-]. subst pid. cbn. rewrite String.eqb_refl. cbn.
      destruct (String.eqb_spec (day k) d) as [<-|]; [|rewrite Z.add_0_r; by apply (Hl _ p)].
      rewrite <- Hdate, <- (Ht _ _ Hp). done.
    + intros Hg. rewrite (proj2 (String.eqb_neq _ _) E1). cbn. rewrite Z.add_0_r. by eapply Hl.
Qed.

(** *** Settlement *)

Lemma DayInv_settle n at_ k1 r t :
  (forall id r, map_get id (spendRequests t) = Some r -> sr_spendRequestId r = id) ->
  map_get (sr_spendRequestId r) (spendRequests t) = Some r -> is_spent r = true -> (n <= k1)%nat ->
  DayInv n at_ t ->
  DayInv (S k1) at_ (put_request (with_outcome SpendRequestStatus_SETTLED (sr_rejectionReason r) (toISOString (clock k1)) r) t).
Proof.
  intros Hid Hg Hs Hn Hi. destruct (DayInv_frame n (S k1) at_ t t ltac:(lia) eq_refl eq_refl Hi) as [_ Hq' Ht' Hl'].
  destruct Hi as [Hk Hq Ht Hl]. set (r' := with_outcome _ _ _ r).
  assert (E : forall pid d, spent_on at_ pid d (put_request r' t) = spent_on at_ pid d t).
  { intros pid d. unfold spent_on. cbn [put_request spendRequests]. rewrite sum_values_set.
    change (sr_spendRequestId r') with (sr_spendRequestId r). rewrite Hg.
    assert (charged at_ pid d r' = charged at_ pid d r) as -> by (unfold charged; by rewrite Hs). lia. }
  split; cbn [put_request policies spendRequests].
  - by apply map_set_NoDup.
  - intros id x. rewrite map_get_set. case_decide as E'; [|apply Hq']. intros [= <-] _. cbn in E'.
    destruct (Hq _ _ Hg Hs) as ((k0 & k2 & ? & ? & ? & _) & _). destruct (Hq' _ _ Hg Hs) as (_ & Hpol). subst id.
    split; [|exact Hpol]. exists k0, k1. split_and!; try done; lia.
  - intros pid p Hp. rewrite E. by apply Ht'.
  - intros pid p d Hp. rewrite E. by eapply Hl'.
Qed.

(** ** Executions *)

Section tracking.
Context (N : nat) (Hdays : days_pass N).

(** As long as the clock was read at most [N] times, the totals are right. *)
Definition tracked (s : Sys * Spending) : Prop := (ticks s.1 <= N)%nat -> exists at_, DayInv (ticks s.1) at_ s.2.

Abbreviation tracks m := (forall y t, SpendInv (uuids y) t -> tracked (y, t) ->
  wp m (fun _ s => tracked s) (fun _ s => tracked s) (y, t)).

Lemma tracked_frame y t y' t' :
  grows y y' -> policies t' = policies t -> spendRequests t' = spendRequests t -> tracked (y, t) -> tracked (y', t').
Proof.
  unfold tracked. cbn [fst snd]. intros Hg Hp Hr Ht HN. pose proof (gr_ticks _ _ Hg).
  destruct (Ht ltac:(lia)) as (at_ & Hi). exists at_. by eapply DayInv_frame.
Qed.

Lemma tracked_grows y y' t : grows y y' -> tracked (y, t) -> tracked (y', t).
Proof. intros. by eapply tracked_frame. Qed.

Lemma request_keys n t id r : SpendInv n t -> map_get id (spendRequests t) = Some r -> sr_spendRequestId r = id.
Proof. intros Hi Hg. by apply (si_requests _ _ Hi) in Hg as (? & _). Qed.

Ltac same := eapply tracked_grows; [|eassumption]; cbn [fst]; grows.

Lemma allowProvider_tracks name acc tier now : tracks (allowProvider name acc tier now).
Proof.
  intros y t Hi Ht. unfold allowProvider. svc_step. svc_step; [same|]. unfold createProvider.
  apply wp_bind, wp_sys_bind, wp_bind, wp_now. intros n y1 Hu1 Hg1. cbv beta.
  apply wp_sys_bind, wp_bind, wp_new_id. intros y2 Hu2 Hg2. apply wp_sys_ret.
  svc_steps; (apply (tracked_frame y t); [cbn [fst]; grows|done|done|exact Ht]).
Qed.

Lemma createSpendPolicy_tracks i : tracks (createSpendPolicy i).
Proof.
  intros y t Hi Ht. unfold createSpendPolicy, requireProvider. do 3 svc_step. svc_step; [|same].
  svc_step. svc_step; [same|]. do 3 (svc_step; svc_step; [same|]). svc_step. svc_step; [same|].
  repeat match goal with E : assertPositiveMinorUnits _ _ = Ok _ |- _ => apply assertPositiveMinorUnits_pos in E end.
  unfold newSpendPolicy. apply wp_bind, wp_sys_bind, wp_bind, wp_now. intros n y1 Hu1 Hg1. cbv beta.
  apply wp_sys_bind, wp_bind, wp_new_id. intros y2 Hu2 Hg2. apply wp_sys_ret.
  match goal with |- context [put_policy ?p0] => set (p := p0) end.
  assert (Hnew : tracked (y2, put_policy p t)).
  { unfold tracked. cbn [fst snd]. intros HN. assert (Hg : grows y y2) by grows. pose proof (gr_ticks _ _ Hg).
    destruct (Ht ltac:(cbn; lia)) as (at_ & Hd). exists at_.
    apply (DayInv_new_policy (ticks y)); [lia|intros; by eapply request_keys| |done|split; cbn; lia|exact Hd].
    destruct (map_get _ (policies t)) as [p'|] eqn:E; [|done].
    apply (si_policies _ _ Hi) in E as (_ & Hm & _). cbn in Hm. rewrite Hu1 in Hm. by apply minted_fresh in Hm. }
  svc_steps; (eapply tracked_grows; [|exact Hnew]); cbn [fst]; grows.
Qed.

Lemma settleSpend_tracks id : tracks (settleSpend id).
Proof.
  intros y t Hi Ht. unfold settleSpend, requireSpendRequest. do 3 svc_step. svc_step; [|same].
  match goal with E : map_get id _ = Some ?x |- _ => rename x into r, E into Hr end.
  svc_step. svc_step; [same|].
  match goal with E : assertTransition _ _ _ _ = Ok _ |- _ => apply assertTransition_Ok in E; rename E into Hst end.
  pose proof (request_keys _ _ _ _ Hi Hr) as Hid. apply wp_bind, wp_clock. intros y1 Hu1 Ht1 Hg1. cbv beta zeta.
  assert (Hs : is_spent r = true) by (unfold is_spent; destruct (sr_status r); cbn in Hst; set_solver).
  match goal with |- context [put_request ?x] => assert (Hnew : tracked (y1, put_request x t)) end.
  { unfold tracked. cbn [fst snd]. intros HN. destruct (Ht ltac:(cbn; lia)) as (at_ & Hd). exists at_. rewrite Ht1.
    apply (DayInv_settle (ticks y)); [intros; by eapply request_keys|by rewrite Hid|done|done|exact Hd]. }
  svc_steps; (eapply tracked_grows; [|exact Hnew]); cbn [fst]; grows.
Qed.

(** The mandate service has no part in it. *)
Definition framed (y : Sys) (t : Spending) (s : Sys * Spending) : Prop :=
  SpendInv (uuids s.1) s.2 /\ grows y s.1 /\ policies s.2 = policies t /\ spendRequests s.2 = spendRequests t.

Lemma framed_tracked y t s : framed y t s -> tracked (y, t) -> tracked s.
Proof. destruct s. intros (_ & ? & ? & ?). by apply tracked_frame. Qed.

Lemma on_spend_authorization_framed {A} (m : M (Sys * Mandates) A) y t :
  (forall a, MandateInv (uuids y) a -> wp m (fun _ s => Service.kept MandateInv mandates_evolve y a s)
     (fun _ s => Service.kept MandateInv mandates_evolve y a s) (y, a)) ->
  SpendInv (uuids y) t -> wp (on_spend_authorization m) (fun _ s => framed y t s) (fun _ s => framed y t s) (y, t).
Proof.
  intros Hm Hi. apply (wp_on_spend_authorization _ _ _ _ _ (fun _ _ _ => True)); [done|..].
  - intros a Ha. eapply wp_mono; [by apply Hm|by intros|done].
  - intros a x y' a' _ (Hi' & Hg & _) _. by split_and!.
  - intros e y' t' (Hi' & Hg & _) Hp Hr. by split_and!.
Qed.

Lemma scope_rejection_framed i provider policy y t :
  SpendInv (uuids y) t ->
  wp (scope_rejection i provider policy) (fun _ s => framed y t s) (fun _ s => framed y t s) (y, t).
Proof.
  intros Hi. unfold scope_rejection. apply wp_bind, wp_own.
  assert (Hrej : forall code : string, wp (mret (Some code)) (fun _ s => framed y t s) (fun _ s => framed y t s) (y, t))
    by (intros; by apply wp_ret).
  destruct provider as [pr|]; [|apply Hrej]. destruct policy as [p|]; [|apply wp_if; intros _; apply Hrej].
  do 4 (apply wp_if; intros _; [apply Hrej|]). destruct (spend_authorization t) as [ma|]; [|apply Hrej].
  apply wp_bind, wp_attempt. eapply wp_mono; [apply on_spend_authorization_framed; [|exact Hi]|..].
  - intros a Ha. by apply assertAuthorized_keeps.
  - intros m s Hf. cbv beta iota. by apply wp_ret.
  - intros e s Hf. cbv beta iota. apply wp_if; intros _; [|by apply wp_ret]. by apply wp_lift.
Qed.

(** The decision on the request [r], created at the reading [k0], with the policy
    rolled to the day of the reading [k]. *)
Section deciding.
Context (i : RequestSpend) (r : SpendRequest) (amount credit : Z) (k0 k : nat) (y : Sys) (t : Spending).
Context (Hi : SpendInv (uuids y) t) (Ht : tracked (y, t)) (Hk : (k0 <= k < ticks y)%nat).
Context (Hc : sr_createdAt r = toISOString (clock k0)) (Hst : sr_status r = SpendRequestStatus_REQUESTED)
  (Hf : map_get (sr_spendRequestId r) (spendRequests t) = None) (Hpol : sr_spendPolicyId r = qs_spendPolicyId i)
  (Hamt : sr_amountMinor r = qs_amountMinor i)
  (Ham : assertPositiveMinorUnits (qs_amountMinor i) "amountMinor" = Ok amount).

Lemma reject_tracked reason at_ y' :
  grows y y' -> tracked (y', put_request (with_outcome SpendRequestStatus_REJECTED reason at_ r) t).
Proof.
  unfold tracked. cbn [fst snd]. intros Hg HN. pose proof (gr_ticks _ _ Hg). destruct (Ht ltac:(cbn; lia)) as (f & Hd). exists f.
  apply DayInv_reject; [intros; by eapply request_keys|done|done|]. by eapply DayInv_frame.
Qed.

Lemma approve_tracked p k1 y' t' :
  map_get (qs_spendPolicyId i) (policies t) = Some p -> sp_dailySpentDate p = day k ->
  sp_dailySpentMinor p + amount <= sp_dailyLimitMinor p -> (k <= k1 < ticks y')%nat -> grows y y' ->
  policies t' = policies t -> spendRequests t' = spendRequests t ->
  tracked (y', put_request (with_outcome SpendRequestStatus_APPROVED None (toISOString (clock k1)) r)
    (put_policy (with_spent (sp_dailySpentMinor p + amount) (sp_dailySpentDate p) p) t')).
Proof.
  unfold tracked. cbn [fst snd]. intros Hp Hdate Hroom Hk1 Hg Ep Er HN. pose proof (gr_ticks _ _ Hg).
  destruct (Ht ltac:(cbn; lia)) as (f & Hd). eexists. destruct (si_policies _ _ Hi _ _ Hp) as (Hid & _).
  apply (DayInv_approve (ticks y') f k k0 k1); cbn; rewrite ?Ep, ?Er; try done; try lia.
  - intros; by eapply request_keys.
  - unfold amount_of. cbn. by rewrite Hamt, Ham.
  - by rewrite Hpol.
  - congruence.
  - by eapply DayInv_frame; [|exact Ep|exact Er|exact Hd].
Qed.

Lemma decide_spend_tracked policy rejection :
  (forall p, policy = Some p -> map_get (qs_spendPolicyId i) (policies t) = Some p /\ sp_dailySpentDate p = day k) ->
  wp (decide_spend i r policy rejection amount credit) (fun _ s => tracked s) (fun _ s => tracked s) (y, t).
Proof.
  intros Hp. unfold decide_spend. cbv zeta.
  set (reason := match rejection, policy with None, Some p => _ | _, _ => rejection end).
  apply wp_bind, wp_lift; [rewrite Hst; by destruct reason|]. intros _ _. cbv beta.
  apply wp_bind, wp_clock. intros y2 Hu2 Ht2 Hg2. cbv beta. destruct reason as [code|] eqn:Hreason.
  - apply wp_bind, wp_ret. svc_steps; apply reject_tracked; cbn [fst]; grows.
  - destruct rejection as [code|]; [done|]. unfold reason in Hreason.
    destruct policy as [p|]; [|apply wp_bind, wp_lift; intros; [by eapply tracked_grows|done]].
    apply limit_rejection_None in Hreason as (_ & Hroom & _). destruct (Hp p eq_refl) as [Hg Hdate].
    apply wp_bind, wp_bind. eapply wp_mono; [apply on_spend_authorization_framed|..].
    + intros a Ha. eapply wp_mono; [by apply wp_reserveUtilization|by intros ? ? [? _]|done].
    + eapply SpendInv_mono; [|exact Hi]. by apply gr_uuids.
    + intros v [y3 t3] (_ & Hg3 & Ep & Er). cbv beta. apply wp_update. cbn [fst snd] in *. pose proof (gr_ticks _ _ Hg3).
      assert (Hafter : forall y4, grows y3 y4 -> (k <= ticks y < ticks y4)%nat /\ grows y y4).
      { intros y4 Hg4. pose proof (gr_ticks _ _ Hg4). split; [lia|grows]. }
      svc_steps; cbn [fst] in *; (apply approve_tracked; [done|done|lia|apply Hafter; grows|apply Hafter; grows|done|done]).
    + intros e s Hfr. eapply framed_tracked; [exact Hfr|]. by eapply tracked_grows.
Qed.
End deciding.

(** The day's roll, written back at the reading [k]. *)
Lemma wp_roll i k y y' t (Q : unit -> Sys * Spending -> Prop) E :
  SpendInv (uuids y') t -> tracked (y, t) -> (ticks y <= k < ticks y')%nat ->
  (forall t1, SpendInv (uuids y') t1 -> tracked (y', t1) -> spendRequests t1 = spendRequests t ->
     map_get (qs_spendPolicyId i) (policies t1) = on_day (day k) <$> map_get (qs_spendPolicyId i) (policies t) -> Q () (y', t1)) ->
  wp (match on_day (day k) <$> map_get (qs_spendPolicyId i) (policies t) with Some p => update (put_policy p) | None => mret () end)
    Q E (y', t).
Proof.
  intros Hi Ht Hk HQ. destruct (map_get (qs_spendPolicyId i) (policies t)) as [p|] eqn:Hp; cbn [fmap option_fmap option_map] in *.
  - destruct (si_policies _ _ Hi _ _ Hp) as (Hid & _ & Hok). destruct (on_day_ok (day k) p Hok) as (Hok' & He & _).
    rewrite <- Hid in Hp. destruct (put_policy_ok _ _ p (on_day (day k) p) Hi Hp He Hok') as [Hi' _].
    apply wp_update, HQ; [exact Hi'| |done|cbn; by rewrite on_day_id, Hid, map_get_set_eq].
    unfold tracked. cbn [fst snd]. intros HN. destruct (Ht ltac:(cbn; lia)) as (f & Hd). exists f.
    apply (DayInv_roll (ticks y)); try done; [by eapply days_pass_le|intros; by eapply request_keys].
  - apply wp_ret, HQ; try done. unfold tracked. cbn [fst snd]. intros HN. destruct (Ht ltac:(cbn; lia)) as (f & Hd). exists f.
    apply (DayInv_frame (ticks y) _ f t); [lia|done|done|exact Hd].
Qed.

Lemma requestSpend_tracks i : tracks (requestSpend i).
Proof.
  intros y t Hi Ht. unfold requestSpend, createSpendRequest. change roll_day with on_day.
  apply wp_bind, wp_sys_bind, wp_bind, wp_clock. intros y1 Hu1 Ht1 Hg1. cbv beta.
  apply wp_sys_bind, wp_bind, wp_new_id. intros y2 Hu2 Hg2. apply wp_sys_ret.
  match goal with |- context [spend_json ?x] => set (r := x) end.
  do 4 svc_step. svc_step. svc_step; [same|]. rename a into amount. svc_step. svc_step; [same|]. rename a into credit.
  svc_step. svc_step; [same|]. svc_step. svc_step; [|same].
  apply wp_bind, wp_clock. intros y4 Hu4 Ht4 Hg4. match type of Ht4 with _ = S (ticks ?z) => rename z into y3 end. cbv beta zeta.
  assert (Hg3 : grows y2 y3) by grows. assert (Hg : grows y y3) by grows. assert (Ht3 : tracked (y3, t)) by same.
  pose proof (gr_ticks _ _ Hg2). pose proof (gr_ticks _ _ Hg3).
  assert (Hi4 : SpendInv (uuids y4) t).
  { eapply SpendInv_mono; [|exact Hi]. rewrite Hu4. by apply gr_uuids. }
  change (day_of (clock (ticks y3))) with (day (ticks y3)).
  apply wp_bind, (wp_roll i _ y3); [exact Hi4|exact Ht3|lia|]. intros t1 Hi1 Htr1 Hr1 Hp1. cbv beta.
  apply wp_bind. eapply wp_mono; [apply scope_rejection_framed; exact Hi1|..].
  2: { intros e s Hfr. exact (framed_tracked _ _ _ Hfr Htr1). }
  intros rej [y5 t2] Hfr. pose proof Hfr as (Hi5 & Hg5 & Hp2 & Hr2). cbv beta. cbn [fst snd] in *. pose proof (gr_ticks _ _ Hg5).
  assert (Hf : map_get (sr_spendRequestId r) (spendRequests t2) = None).
  { rewrite Hr2, Hr1. destruct (map_get _ (spendRequests t)) as [r0|] eqn:E; [|done].
    apply (si_requests _ _ Hi) in E as (_ & Hm & _). cbn in Hm. rewrite Hu1 in Hm. by apply minted_fresh in Hm. }
  apply (decide_spend_tracked i r amount credit (ticks y) (ticks y3)); try done; [exact (framed_tracked _ _ _ Hfr Htr1)|lia|].
  intros p E. rewrite Hp2, Hp1. split; [exact E|].
  destruct (map_get (qs_spendPolicyId i) (policies t)) as [p0|]; [|done]. injection E as <-. apply on_day_date.
Qed.

Lemma run_spend_tracks c : tracks (run_spend c).
Proof.
  assert (Hret : forall A (m : M (Sys * Spending) A), tracks m -> tracks (m ;; mret ())).
  { intros A m Hm y t Hi Ht. apply wp_bind. eapply wp_mono; [by apply Hm| |done]. intros a s Hs. by apply wp_ret. }
  destruct c; cbn [run_spend]; try apply Hret.
  - apply allowProvider_tracks.
  - apply createSpendPolicy_tracks.
  - apply requestSpend_tracks.
  - apply settleSpend_tracks.
  - intros y t Hi Ht. eapply wp_mono; [apply on_spend_authorization_framed; [|exact Hi]|..].
    + intros a Ha. by apply run_mandate_keeps.
    + intros a s Hf. exact (framed_tracked _ _ _ Hf Ht).
    + intros e s Hf. exact (framed_tracked _ _ _ Hf Ht).
Qed.

Lemma exec_tracked cs s : SpendInv (uuids s.1) s.2 -> tracked s -> tracked (exec run_spend cs s).
Proof.
  revert s. induction cs as [|c cs IH]; intros [y t] Hi Ht; [exact Ht|]. cbn [exec fold_left] in *.
  apply IH.
  - pose proof (run_spend_keeps c y t Hi) as Hk. unfold wp in Hk. by destruct (run_spend c (y, t)) as [[a|e] s']; destruct Hk as (? & _).
  - pose proof (run_spend_tracks c y t Hi Ht) as Hk. unfold wp in Hk. by destruct (run_spend c (y, t)) as [[a|e] s'].
Qed.
End tracking.

Lemma DayInv_start n at_ b : DayInv n at_ (spend_start b).
Proof. split; cbn; try done. constructor. Qed.

Lemma run_spends_tracked cs y b :
  let s := exec run_spend cs (y, spend_start b) in
  days_pass (ticks s.1) -> exists at_, DayInv (ticks s.1) at_ s.2.
Proof.
  intros s Hd. apply (exec_tracked (ticks s.1) Hd cs (y, spend_start b)); [|intros _|done].
  - apply (run_spends_ok [] y b).
  - exists (fun _ => O). apply DayInv_start.
Qed.

(** What was approved for policy [pid] and created and last updated on day [d]. *)
Definition made_on (pid d : string) (r : SpendRequest) : Z :=
  if is_spent r && String.eqb (sr_spendPolicyId r) pid && String.eqb (String.substring 0 10 (sr_createdAt r)) d &&
     String.eqb (String.substring 0 10 (sr_updatedAt r)) d
  then amount_of r else 0.

Lemma made_on_spent n at_ t pid d :
  days_pass n -> (forall id r, map_get id (spendRequests t) = Some r -> sr_spendRequestId r = id) -> DayInv n at_ t ->
  sum_by (made_on pid d) (map_values (spendRequests t)) <= spent_on at_ pid d t.
Proof.
  intros Hdays Hid [Hk Hq _ _]. unfold spent_on. apply sum_by_le. intros r Hr. unfold map_values in Hr.
  apply list_elem_of_fmap in Hr as ([id r'] & -> & Hin%elem_map_get); [|done]. cbn [snd].
  unfold made_on, charged. rewrite (Hid _ _ Hin). pose proof (amount_of_nonneg r').
  destruct (is_spent r') eqn:Hs; [|done]. destruct (String.eqb (sr_spendPolicyId r') pid); [|done]. cbn [andb].
  destruct (Hq _ _ Hin Hs) as ((k0 & k1 & Hk01 & Hk1 & -> & ->) & _).
  destruct (String.eqb_spec (String.substring 0 10 (toISOString (clock k0))) d) as [E0|]; [|cbn; by case_match].
  destruct (String.eqb_spec (String.substring 0 10 (toISOString (clock k1))) d) as [E1|]; [|cbn; by case_match].
  change (day k0 = d) in E0. change (day k1 = d) in E1.
  rewrite (Hdays k0 (at_ id) k1 Hk01 Hk1 ltac:(congruence)), E1, String.eqb_refl. done.
Qed.

(** C37: a spend policy's day is never overspent and approved spends are backed.
    After any calls, whichever of them threw, and as long as the clock did not
    return to a day it had left: every approved request (settled since or not)
    was decided on the day of a clock reading between its creation and its last
    update, such that the total a policy keeps is exactly the sum of the amounts
    approved under it on the policy's current day, and the amounts approved on
    any one day are within the policy's daily limit; in particular so are those
    of the requests created and last updated on that day.  Every approved or
    settled request has a reservation of the mandate service for exactly its
    terms, which still stands whatever is called next; and whatever is called
    next the policy's terms and the request's terms stay, and the request's
    status only moves along its transitions. *)
Theorem spend_within_policy cs y b more :
  let s := exec run_spend cs (y, spend_start b) in
  let s' := exec run_spend more s in
  days_pass (ticks s.1) ->
  (exists at_ : string -> nat,
     (forall id r, map_get id (spendRequests s.2) = Some r -> is_spent r = true -> decided_during (ticks s.1) (at_ id) r) /\
     forall id p, map_get id (policies s.2) = Some p ->
       sp_dailySpentMinor p = spent_on at_ id (sp_dailySpentDate p) s.2 /\
       forall d, spent_on at_ id d s.2 <= sp_dailyLimitMinor p) /\
  (forall id p d, map_get id (policies s.2) = Some p ->
     sum_by (made_on id d) (map_values (spendRequests s.2)) <= sp_dailyLimitMinor p) /\
  (forall id p, map_get id (policies s.2) = Some p ->
     exists p', map_get id (policies s'.2) = Some p' /\ policy_evolves p p') /\
  (forall id r, map_get id (spendRequests s.2) = Some r ->
     exists r', map_get id (spendRequests s'.2) = Some r' /\ request_evolves r r' /\
       (sr_status r = SpendRequestStatus_APPROVED \/ sr_status r = SpendRequestStatus_SETTLED ->
        exists ma res, spend_authorization s'.2 = Some ma /\ map_get id (reservations ma) = Some res /\
          rs_reservationHash res = reservation_hash id (request_authorize r))).
Proof.
  intros s s' Hdays. destruct (run_spends_ok cs y b) as (Hi & _ & _). destruct (run_spends_tracked cs y b Hdays) as (at_ & Hd).
  fold s in Hi, Hd. assert (Hk : Service.kept SpendInv spending_evolves s.1 s.2 s').
  { unfold s'. destruct s as [y1 t1]. exact (exec_kept _ _ SpendInv_mono run_spend more y1 t1 run_spend_keeps Hi). }
  clearbody s s'. destruct Hk as (Hi' & _ & [_ Hp' Hr']). split_and!.
  - exists at_. split; [intros id r Hr Hs; by apply (di_requests _ _ _ Hd)|]. intros id p Hp.
    split; [by apply (di_total _ _ _ Hd)|]. intros d. by apply (di_limit _ _ _ Hd).
  - intros id p d Hp. etransitivity; [apply (made_on_spent _ at_ _ _ _ Hdays); [exact (fun id r => request_keys _ _ id r Hi)|exact Hd]|].
    by apply (di_limit _ _ _ Hd).
  - exact Hp'.
  - intros id r Hr. destruct (Hr' _ _ Hr) as (r' & Hg & He). exists r'. split_and!; [done|done|]. intros Hst.
    destruct (si_requests _ _ Hi _ _ Hr) as (_ & _ & [Hs _]).
    destruct (si_requests _ _ Hi' _ _ Hg) as (Hid & _ & [_ Hb]). rewrite Hid, (qe_authorize _ _ He), (qe_reason _ _ He) in Hb.
    apply Hb. destruct Hs as [[E _]|[_ ?]]; [|done]. rewrite E in Hst. by destruct Hst.
Qed.
End days.
