(* ===== verification/Router.v ===== *)
(** * The repayment router

    [RepaymentRouter] of src/modules/payment/src/repayment-router.js: it moves a
    lockbox's revenue to the obligations of the lockbox's subject, in the order
    they are due, and frees the credit line by what was repaid.  The router
    shares the obligation, lockbox and risk services, which are fields of its
    state.  Every obligation has the repayment priority 1
    (src/packages/domain/src/models.js), so the comparison of priorities, the
    first of the three the candidates are sorted by, is always a tie. *)

From stdpp Require Import base tactics sets relations gmap numbers strings list.
From S2P Require Import Prelude Js Enums EventStore Service Ledger Obligation Lockbox Risk.
Local Open Scope string_scope.
Local Open Scope Z_scope.

(** ** Data *)

Record RouteResult := MkRouteResult {
  rt_repayments : list Repayment; rt_appliedMinor : Z; rt_surplusMinor : Z; rt_idempotencyKey : string }.

Record Route := MkRoute { ru_routeHash : string; ru_result : RouteResult }.

Record Router := MkRouter {
  obligationService : Obligations; lockboxService : Lockboxes; riskService : Risk;
  routesByIdempotencyKey : jsmap Route }.

Record ApplyRevenue := MkApplyRevenue {
  ar_lockboxId : string; ar_obligationIds : list string; ar_creditLineId : option string;
  ar_amountMinor : minor; ar_idempotencyKey : option string }.

Definition set_obligations (x : Obligations) (t : Router) : Router :=
  MkRouter x (lockboxService t) (riskService t) (routesByIdempotencyKey t).
Definition set_lockboxes (x : Lockboxes) (t : Router) : Router :=
  MkRouter (obligationService t) x (riskService t) (routesByIdempotencyKey t).
Definition set_risk (x : Risk) (t : Router) : Router :=
  MkRouter (obligationService t) (lockboxService t) x (routesByIdempotencyKey t).
Definition put_route (key : string) (r : Route) (t : Router) : Router :=
  MkRouter (obligationService t) (lockboxService t) (riskService t) (map_set key r (routesByIdempotencyKey t)).

(** ** The pure parts *)

(** The preview: what would be left and what would be applied. *)
Fixpoint preview (candidates : list Obligation) (previewRemaining totalApplied : Z) : Z * Z :=
  match candidates with
  | [] => (previewRemaining, totalApplied)
  | obligation :: candidates =>
      if previewRemaining <=? 0 then (previewRemaining, totalApplied) else
      let applied := if ob_outstandingPrincipalMinor obligation <? previewRemaining
                     then ob_outstandingPrincipalMinor obligation else previewRemaining in
      preview candidates (previewRemaining - applied) (totalApplied + applied)
  end.

Section operations.
Context `{Platform}.

Definition due_order (left right : Obligation) : comparison :=
  match localeCompare (ob_dueAt left) (ob_dueAt right) with
  | Eq => localeCompare (ob_obligationId left) (ob_obligationId right)
  | c => c
  end.

Definition route_hash (i : ApplyRevenue) (amount : Z) : string :=
  hashId "repayment_route" (JObj [("lockboxId", JStr (ar_lockboxId i));
    ("obligationIds", JArr (map JStr (ar_obligationIds i)));
    ("creditLineId", match ar_creditLineId i with Some c => JStr c | None => JNull end);
    ("amountMinor", JStr (toString amount))]).

(** The lockbox's obligations that can be repaid, in the order they are due. *)
Definition route_candidates (t : Obligations) (lockbox : Lockbox) (obligationIds : list string) : result (list Obligation) :=
  let uniqueObligationIds := unique obligationIds in
  guard (negb (length uniqueObligationIds =? length obligationIds)%nat) "duplicate_obligation"
    "repayment routing cannot include duplicate obligations" ;;
  read ← mapM (getObligation t) uniqueObligationIds;
  let candidates := List.filter (fun o => repayable (ob_status o)) read in
  guard (existsb (fun o => negb (bool_decide (ob_subjectId o = lb_subjectId lockbox)) ||
                           negb (bool_decide (ob_assetId o = Some (lb_assetId lockbox)))) candidates)
    "repayment_scope_mismatch" "lockbox and obligation subject or asset do not match" ;;
  mret (stable_sort due_order candidates).

(** The credit line, when one is given and something is to be applied. *)
Definition check_credit_line (t : Risk) (lockbox : Lockbox) (creditLineId : option string) (totalApplied : Z) : result unit :=
  match truthy creditLineId with
  | Some creditLineId =>
      if 0 <? totalApplied then
        creditLine ← getCreditLine t creditLineId;
        guard (negb (bool_decide (Some (cl_subjectId creditLine) = lb_subjectId lockbox)) ||
               negb (String.eqb (cl_assetId creditLine) (lb_assetId lockbox)))
          "repayment_credit_line_mismatch" "credit line does not match lockbox subject and asset" ;;
        guard (cl_utilizedMinor creditLine <? totalApplied)
          "repayment_exceeds_utilization" "repayment exceeds reserved credit utilization"
      else Ok ()
  | None => Ok ()
  end.

(** ** Routing *)

Definition on_obligations {A} (m : M (Sys * Obligations) A) : M (Sys * Router) A := call obligationService set_obligations m.
Definition on_lockboxes {A} (m : M (Sys * Lockboxes) A) : M (Sys * Router) A := call lockboxService set_lockboxes m.
Definition on_risk {A} (m : M (Sys * Risk) A) : M (Sys * Router) A := call riskService set_risk m.

(** The repayments, one obligation after the other while anything remains. *)
Fixpoint repay_candidates (candidates : list Obligation) (remaining : Z) : M (Sys * Router) (list Repayment * Z) :=
  match candidates with
  | [] => mret ([], remaining)
  | obligation :: candidates =>
      if remaining <=? 0 then mret ([], remaining) else
      let before := remaining in
      result ← on_obligations (applyRepayment (ob_obligationId obligation) (MString (toString remaining)));
      let applied := before - rr_surplusMinor result in
      rest ← repay_candidates candidates (rr_surplusMinor result);
      mret (((if 0 <? applied then [rr_repayment result] else []) ++ rest.1)%list, rest.2)
  end.

(** The debit of the lockbox and the release of the credit line. *)
Definition settle_route (i : ApplyRevenue) (idempotencyKey : string) (totalApplied : Z) : M (Sys * Router) unit :=
  when (0 <? totalApplied)
    (on_lockboxes (reduceBalance (ar_lockboxId i) (MString (toString totalApplied)) "obligation_repayment"
       (Some ("repayment_route:" +:+ idempotencyKey))) ;;
     match truthy (ar_creditLineId i) with
     | Some creditLineId => on_risk (releaseUtilization creditLineId (MString (toString totalApplied))) ;; mret ()
     | None => mret ()
     end).

(** A route that is not on record: the checks, the preview, the repayments, the
    settlement and the record. *)
Definition new_route (i : ApplyRevenue) (idempotencyKey : string) (amount : Z) (routeHash : string)
    : M (Sys * Router) (RouteResult * bool) :=
  lockbox ← on_lockboxes (getLockbox (ar_lockboxId i));
  throw_if (negb (bool_decide (lb_status lockbox ∈ [LockboxStatus_ACTIVE; LockboxStatus_FROZEN])))
    "lockbox_not_repayable" "lockbox must be active or frozen to route repayments" ;;
  throw_if (lb_balanceMinor lockbox <? amount) "lockbox_insufficient_balance"
    "repayment amount exceeds lockbox balance" ;;
  obligations ← own obligationService;
  candidates ← lift (route_candidates obligations lockbox (ar_obligationIds i));
  let totalApplied := (preview candidates amount 0).2 in
  risk ← own riskService;
  lift (check_credit_line risk lockbox (ar_creditLineId i) totalApplied) ;;
  repaid ← repay_candidates candidates amount;
  let (repayments, remaining) := (repaid : list Repayment * Z) in
  settle_route i idempotencyKey totalApplied ;;
  sys (emit CreditEventType_REPAYMENT_ROUTED (lb_subjectId lockbox) None None
    (JObj [("lockboxId", JStr (ar_lockboxId i)); ("idempotencyKey", JStr idempotencyKey);
           ("appliedCount", JNum (Z.of_nat (length repayments)));
           ("inputAmountMinor", JStr (toString amount)); ("appliedMinor", JStr (toString totalApplied));
           ("surplusMinor", JStr (toString remaining))]) None) ;;
  let result := MkRouteResult repayments totalApplied remaining idempotencyKey in
  update (put_route idempotencyKey (MkRoute routeHash result)) ;;
  mret (result, false).

Definition applyLockboxRevenue (i : ApplyRevenue) : M (Sys * Router) (RouteResult * bool) :=
  idempotencyKey ← sys (key_or (ar_idempotencyKey i) "repayment_route");
  amount ← lift (assertPositiveMinorUnits (ar_amountMinor i) "amountMinor");
  lift (assertNonEmptyString "idempotencyKey" (JStr idempotencyKey)) ;;
  let routeHash := route_hash i amount in
  existing ← own (fun t => map_get idempotencyKey (routesByIdempotencyKey t));
  match existing with
  | Some existing =>
      throw_if (negb (String.eqb (ru_routeHash existing) routeHash)) "repayment_idempotency_conflict"
        "repayment idempotency key was reused with different input" ;;
      mret (ru_result existing, true)
  | None =>
      new_route i idempotencyKey amount routeHash
  end.
End operations.
