(* ===== verification/RouterProps.v ===== *)
(** * The repayment router's theorems *)

From Stdlib Require Import Sorted.
From stdpp Require Import base tactics sets relations gmap numbers strings list.
From S2P Require Import Prelude Js Enums EventStore Service Ledger LedgerProps Obligation ObligationProps Lockbox LockboxProps Mandate MandateProps Risk RiskProps Router.
Local Open Scope string_scope.
Local Open Scope Z_scope.

(** ** The specification: a waterfall *)

(** [amount] goes to the debts in order, to each as much as it can take. *)
Fixpoint waterfall (debts : list Z) (amount : Z) : list Z :=
  match debts with
  | [] => []
  | d :: debts => if amount <=? 0 then [] else Z.min amount d :: waterfall debts (amount - Z.min amount d)
  end.

Definition total (l : list Z) : Z := sum_by id l.

Lemma total_nil : total [] = 0.
Proof. done. Qed.

Lemma total_cons x l : total (x :: l) = x + total l.
Proof. unfold total. by rewrite sum_by_cons. Qed.

Lemma total_nonneg l : Forall (fun d => 0 <= d) l -> 0 <= total l.
Proof. induction 1; [by rewrite total_nil|]. rewrite total_cons. lia. Qed.

Lemma total_map {A} (f : A -> Z) l : total (map f l) = sum_by f l.
Proof. induction l as [|x l IH]; [done|]. cbn [map]. by rewrite total_cons, sum_by_cons, IH. Qed.

Lemma waterfall_stop debts amount : amount <= 0 -> waterfall debts amount = [].
Proof. intros Ha. destruct debts; [done|]. cbn. by rewrite (proj2 (Z.leb_le _ _)). Qed.

(** All of the amount is used or all of the debts are covered. *)
Lemma waterfall_total debts amount :
  0 <= amount -> Forall (fun d => 0 <= d) debts -> total (waterfall debts amount) = Z.min amount (total debts).
Proof.
  intros Ha Hd. revert amount Ha. induction Hd as [|d debts Hd Hds IH]; intros amount Ha; [rewrite total_nil; cbn [waterfall]; rewrite total_nil; lia|].
  rewrite (total_cons d). pose proof (total_nonneg _ Hds).
  cbn [waterfall]. destruct (Z.leb_spec amount 0); [rewrite total_nil; lia|]. rewrite total_cons, IH by lia. lia.
Qed.

(** A debt is paid in full before a later one gets anything. *)
Lemma waterfall_full debts amount i j d x :
  (i < j)%nat -> debts !! i = Some d -> waterfall debts amount !! j = Some x -> waterfall debts amount !! i = Some d.
Proof.
  revert amount i j. induction debts as [|d0 debts IH]; intros amount i j Hij Hd Hx; [done|]. cbn [waterfall] in *.
  destruct (Z.leb_spec amount 0); [done|]. destruct j as [|j]; [lia|]. cbn in Hx. destruct i as [|i]; cbn in *.
  - injection Hd as ->. f_equal. destruct (Z.le_gt_cases amount d); [|lia].
    rewrite waterfall_stop in Hx by lia. done.
  - eapply IH; [|done|done]. lia.
Qed.

(** The preview computes the waterfall's total. *)
Lemma preview_waterfall cs amount done_ :
  preview cs amount done_ =
  (amount - total (waterfall (map ob_outstandingPrincipalMinor cs) amount),
   done_ + total (waterfall (map ob_outstandingPrincipalMinor cs) amount)).
Proof.
  revert amount done_. induction cs as [|o cs IH]; intros amount done_; cbn [preview map waterfall]; [rewrite total_nil; f_equal; lia|].
  destruct (Z.leb_spec amount 0); [rewrite total_nil; f_equal; lia|]. rewrite applied_min, IH, total_cons. f_equal; lia.
Qed.

(** ** The candidates *)

Lemma unique_from_length seen l : (length (unique_from seen l) <= length l)%nat.
Proof. revert seen. induction l as [|x l IH]; intros seen; [done|]. cbn. case_match; cbn; [specialize (IH seen)|specialize (IH (x :: seen))]; lia. Qed.

Lemma unique_from_all seen l :
  length (unique_from seen l) = length l -> unique_from seen l = l /\ NoDup l /\ forall x, x ∈ l -> x ∉ seen.
Proof.
  revert seen. induction l as [|x l IH]; intros seen; cbn; [intros _; split_and!; [done|constructor|set_solver]|].
  case_bool_decide as E.
  - pose proof (unique_from_length seen l). lia.
  - cbn. intros [= Hl]. destruct (IH _ Hl) as (Hu & Hnd & Hns). split_and!; [by rewrite Hu| |].
    + constructor; [|done]. intros Hx. specialize (Hns x Hx). set_solver.
    + intros z Hz. apply elem_of_cons in Hz as [->|Hz]; [done|]. specialize (Hns z Hz). set_solver.
Qed.

(** ** The order of the due dates *)

(** What the code relies on of [localeCompare]: it is a consistent order. *)
Class LocaleLaws `{Platform} := {
  locale_opp : forall a b, localeCompare b a = CompOpp (localeCompare a b);
  locale_trans : forall a b c, localeCompare a b <> Gt -> localeCompare b c <> Gt -> localeCompare a c <> Gt }.

Section due_order.
Context `{LocaleLaws}.

Lemma due_order_opp o1 o2 : due_order o2 o1 = CompOpp (due_order o1 o2).
Proof.
  unfold due_order. rewrite (locale_opp (ob_dueAt o1)), (locale_opp (ob_obligationId o1)).
  by destruct (localeCompare (ob_dueAt o1) (ob_dueAt o2)).
Qed.

Lemma locale_lt a b c : localeCompare a b = Lt -> localeCompare b c <> Gt -> localeCompare a c = Lt.
Proof.
  intros Hab Hbc. assert (Hac : localeCompare a c <> Gt) by (apply (locale_trans a b c); congruence).
  destruct (localeCompare a c) eqn:E; [|done|done]. exfalso.
  apply (locale_trans b c a); [done| |]; rewrite locale_opp; [by rewrite E|by rewrite Hab].
Qed.

Lemma locale_eq a b c : localeCompare a b = Eq -> localeCompare b c = localeCompare a c.
Proof.
  intros Hab. assert (Hba : localeCompare b a = Eq) by (by rewrite locale_opp, Hab).
  destruct (localeCompare a c) eqn:E; destruct (localeCompare b c) eqn:F; try done; exfalso.
  - apply (locale_lt b c a) in F; [congruence|]. rewrite locale_opp, E. done.
  - apply (locale_trans b a c); congruence.
  - apply (locale_lt a c b) in E; [congruence|]. rewrite locale_opp, F. done.
  - apply (locale_trans b a c); congruence.
  - apply (locale_trans a b c); congruence.
  - apply (locale_trans a b c); congruence.
Qed.

Lemma due_order_trans a b c : due_order a b <> Gt -> due_order b c <> Gt -> due_order a c <> Gt.
Proof.
  unfold due_order. intros H1 H2.
  destruct (localeCompare (ob_dueAt a) (ob_dueAt b)) eqn:E; [|  |done].
  - rewrite <- (locale_eq _ _ (ob_dueAt c) E). destruct (localeCompare (ob_dueAt b) (ob_dueAt c)); [|done|done].
    by apply (locale_trans _ (ob_obligationId b)).
  - rewrite (locale_lt _ _ (ob_dueAt c) E); [done|]. by destruct (localeCompare (ob_dueAt b) (ob_dueAt c)).
Qed.
End due_order.

Lemma NoDup_map_filter {A B} (f : A -> B) (p : A -> bool) l : NoDup (map f l) -> NoDup (map f (List.filter p l)).
Proof.
  induction l as [|x l IH]; [done|]. cbn. intros [Hn Hnd]%NoDup_cons. case_match; [|by apply IH].
  cbn. constructor; [|by apply IH]. intros Hx. apply Hn. rewrite list_elem_of_In, in_map_iff in *.
  destruct Hx as (z & ? & Hz). exists z. by apply filter_In in Hz as [? _].
Qed.

Lemma existsb_none {A} (p : A -> bool) l : existsb p l = false -> forall x, x ∈ l -> p x = false.
Proof.
  intros He x Hx. apply not_true_iff_false. intros Hp. apply not_true_iff_false in He. apply He, existsb_exists.
  exists x. by rewrite <- list_elem_of_In.
Qed.

Section router.
Context `{PlatformLaws}.

(** What the candidates of a route are. *)
Record candidates_of (t : Obligations) (b : Lockbox) (ids : list string) (cs : list Obligation) : Prop := {
  cd_distinct : NoDup ids;
  cd_ids : NoDup (map ob_obligationId cs);
  cd_all : forall o, o ∈ cs <-> repayable (ob_status o) = true /\ exists id, id ∈ ids /\ map_get id (obligations t) = Some o;
  cd_scope : forall o, o ∈ cs -> ob_subjectId o = lb_subjectId b /\ ob_assetId o = Some (lb_assetId b);
  cd_sorted : exists l, cs = stable_sort due_order l }.

Lemma mapM_getObligation t ids l :
  mapM (getObligation t) ids = Ok l -> Forall2 (fun id o => map_get id (obligations t) = Some o) ids l.
Proof.
  revert l. induction ids as [|id ids IH]; intros l E; cbn in E; result_inv; [constructor|]. constructor; [|by apply IH].
  unfold getObligation in *. by destruct (map_get id (obligations t)); result_inv.
Qed.

Lemma read_obligations n t ids l :
  ObligationInv n t -> Forall2 (fun id o => map_get id (obligations t) = Some o) ids l ->
  map ob_obligationId l = ids /\ forall o, o ∈ l <-> exists id, id ∈ ids /\ map_get id (obligations t) = Some o.
Proof.
  intros Hi Hl. split.
  - induction Hl as [|id o ids l Ho Hl IH]; [done|]. cbn. f_equal; [|done]. by destruct (oi_obligations _ _ Hi _ _ Ho).
  - induction Hl as [|id o ids l Ho Hl IH]; intros o'; [set_solver|]. rewrite elem_of_cons, IH. split.
    + intros [->|(id' & ? & ?)]; [exists id|exists id']; set_solver.
    + intros (id' & [->|Hid]%elem_of_cons & Hg); [left; congruence|right; by exists id'].
Qed.

Lemma route_candidates_ok n t b ids cs :
  ObligationInv n t -> route_candidates t b ids = Ok cs -> candidates_of t b ids cs.
Proof.
  intros Hi E. unfold route_candidates in E. result_inv.
  match goal with E : negb _ = false |- _ => apply negb_false_iff, Nat.eqb_eq, unique_from_all in E as (Hu & Hnd & _) end.
  unfold unique in *. rewrite Hu in *.
  match goal with E : mapM _ _ = Ok ?r |- _ => rename r into l; apply mapM_getObligation in E as Hl end.
  match goal with E : existsb _ _ = false |- _ => rename E into Hsc end.
  set (cs0 := List.filter _ l) in *.
  destruct (read_obligations _ _ _ _ Hi Hl) as [Hids Hin].
  assert (Hcs0 : forall o, o ∈ cs0 <-> repayable (ob_status o) = true /\ o ∈ l).
  { intros o. unfold cs0. rewrite !list_elem_of_In, filter_In. tauto. }
  split.
  - done.
  - rewrite (stable_sort_perm due_order cs0). apply NoDup_map_filter. by rewrite Hids.
  - intros o. by rewrite (stable_sort_perm due_order cs0), Hcs0, Hin.
  - intros o. rewrite (stable_sort_perm due_order cs0). intros Ho.
    apply (existsb_none _ _ Hsc), orb_false_iff in Ho as [Hs Ha]. apply negb_false_iff, bool_decide_eq_true in Hs, Ha. done.
  - by exists cs0.
Qed.

Lemma candidates_debts n t cs :
  ObligationInv n t -> (forall o, o ∈ cs -> map_get (ob_obligationId o) (obligations t) = Some o) ->
  Forall (fun d => 0 <= d) (map ob_outstandingPrincipalMinor cs).
Proof.
  intros Hi Hcs. apply Forall_fmap, Forall_forall. intros o Ho. destruct (oi_obligations _ _ Hi _ _ (Hcs o Ho)) as (_ & _ & [] & _). done.
Qed.

Lemma candidates_of_evolves t b b' ids cs : box_evolves b b' -> candidates_of t b' ids cs -> candidates_of t b ids cs.
Proof. intros He []. split; try done. by rewrite <- (be_subject _ _ He), <- (be_asset _ _ He). Qed.

(** ** The invariant *)

Record RouterInv (n : nat) (t : Router) : Prop := {
  ro_obligations : ObligationInv n (obligationService t);
  ro_lockboxes : LockboxInv n (lockboxService t);
  ro_risk : RiskInv n (riskService t) }.

(** The services evolve as their own theorems say, and a route on record stays. *)
Record router_evolves (t t' : Router) : Prop := {
  rx_obligations : obligations_evolve (obligationService t) (obligationService t');
  rx_lockboxes : lockboxes_evolve (lockboxService t) (lockboxService t');
  rx_risk : risk_evolves (riskService t) (riskService t');
  rx_routes : forall k r, map_get k (routesByIdempotencyKey t) = Some r -> map_get k (routesByIdempotencyKey t') = Some r }.

#[export] Instance router_evolves_preorder : PreOrder router_evolves.
Proof.
  split; [by split|]. intros a b c [] []. split; [by etrans|by etrans|by etrans|auto].
Qed.

Lemma RouterInv_mono n m t : (n <= m)%nat -> RouterInv n t -> RouterInv m t.
Proof.
  intros Hle []. split; [by eapply ObligationInv_mono|by eapply LockboxInv_mono|by eapply RiskInv_mono].
Qed.

Abbreviation keeps := (keeps RouterInv router_evolves).
Abbreviation kept := (kept RouterInv router_evolves).
Ltac unchanged := apply (kept_same _ _ RouterInv_mono); [assumption|cbn [fst]; grows].

(** A call of one of the services keeps what the service keeps. *)
Lemma kept_obligations y t y' x :
  RouterInv (uuids y) t -> Service.kept ObligationInv obligations_evolve y (obligationService t) (y', x) ->
  kept y t (y', set_obligations x t).
Proof.
  intros Hi (Hi' & Hg & He). cbn [fst snd] in *. apply (RouterInv_mono _ (uuids y')) in Hi; [|by apply gr_uuids].
  destruct Hi. by split_and!.
Qed.
Lemma kept_lockboxes y t y' x :
  RouterInv (uuids y) t -> Service.kept LockboxInv lockboxes_evolve y (lockboxService t) (y', x) ->
  kept y t (y', set_lockboxes x t).
Proof.
  intros Hi (Hi' & Hg & He). cbn [fst snd] in *. apply (RouterInv_mono _ (uuids y')) in Hi; [|by apply gr_uuids].
  destruct Hi. by split_and!.
Qed.
Lemma kept_risk y t y' x :
  RouterInv (uuids y) t -> Service.kept RiskInv risk_evolves y (riskService t) (y', x) ->
  kept y t (y', set_risk x t).
Proof.
  intros Hi (Hi' & Hg & He). cbn [fst snd] in *. apply (RouterInv_mono _ (uuids y')) in Hi; [|by apply gr_uuids].
  destruct Hi. by split_and!.
Qed.

(** ** The repayments *)

(** What the repayments of a route did to the obligations. *)
Record repaid_down (t : Obligations) (cs : list Obligation) (amount : Z) (reps : list Repayment) (left : Z)
    (t' : Obligations) : Prop := {
  rn_amounts : map re_amountMinor reps = waterfall (map ob_outstandingPrincipalMinor cs) amount;
  rn_ids : map re_obligationId reps = take (length reps) (map ob_obligationId cs);
  rn_left : left = amount - sum_by re_amountMinor reps;
  rn_recorded : map_values (repayments t') = (map_values (repayments t) ++ reps)%list;
  rn_obligations : forall id o, map_get id (obligations t) = Some o ->
    exists o', map_get id (obligations t') = Some o' /\ evolves o o' /\
      ob_outstandingPrincipalMinor o' = ob_outstandingPrincipalMinor o - sum_by (repaid_for id) reps }.

Lemma repaid_down_none t cs amount :
  cs = [] \/ amount <= 0 -> repaid_down t cs amount [] amount t.
Proof.
  intros Hn. split.
  - destruct Hn as [->|Hn]; [done|]. by rewrite waterfall_stop.
  - done.
  - rewrite sum_by_nil. lia.
  - by rewrite app_nil_r.
  - intros id o Ho. exists o. rewrite sum_by_nil. split_and!; [done|done|lia].
Qed.

Lemma printed_amount z z' name : assertPositiveMinorUnits (MString (toString z)) name = Ok z' -> 0 <= z -> z' = z.
Proof.
  unfold assertPositiveMinorUnits. intros E Hz. result_inv.
  match goal with E : toMinorUnitBigInt _ _ = Ok _ |- _ => apply toMinorUnitBigInt_string in E as [Hp ?] end.
  apply (f_equal BigInt) in Hp. by rewrite !BigInt_toString in Hp by done.
Qed.

Lemma repaid_down_cons n t o cs amount o' r t1 reps left t2 :
  ObligationInv n t -> 0 < amount -> applies n t (ob_obligationId o) amount o o' r t1 ->
  repaid_down t1 cs (amount - re_amountMinor r) reps left t2 ->
  repaid_down t (o :: cs) amount (r :: reps) left t2.
Proof.
  intros Hi Ha Hap [Ham Hids Hleft Hrec Hobs].
  destruct (ap_id _ _ _ _ _ _ _ _ Hap) as (k & Hk & Hrid).
  assert (Hfr := repayment_fresh _ _ _ _ Hi Hrid Hk). destruct Hap as [Hf _ Hamt Hpos Hfor _ Hout _ _ He _ Ht1].
  destruct (oi_obligations _ _ Hi _ _ Hf) as (Hoid & _). split.
  - cbn [map waterfall]. rewrite (proj2 (Z.leb_gt _ _)) by done. by rewrite <- Hamt, Ham.
  - cbn [map length take]. by rewrite Hfor, Hids.
  - rewrite sum_by_cons. lia.
  - rewrite Hrec, Ht1. cbn [put_repayment put_obligation repayments]. rewrite (repayment_appended _ _ Hfr).
    by rewrite <- app_assoc.
  - intros id o1 Ho1. rewrite sum_by_cons. unfold repaid_for at 1. rewrite Hfor. case_decide as E.
    + subst id. rewrite Hf in Ho1. injection Ho1 as <-. destruct (Hobs (ob_obligationId o) o') as (o2 & Ho2 & He2 & Hd2).
      * rewrite Ht1. cbn. by rewrite (ev_id _ _ He), map_get_set_eq.
      * exists o2. split_and!; [done|by etrans|lia].
    + destruct (Hobs id o1) as (o2 & Ho2 & He2 & Hd2).
      * rewrite Ht1. cbn. by rewrite (ev_id _ _ He), map_get_set_ne.
      * exists o2. split_and!; [done|done|lia].
Qed.

Lemma wp_repay_candidates cs amount y t :
  RouterInv (uuids y) t -> 0 <= amount -> NoDup (map ob_obligationId cs) ->
  (forall o, o ∈ cs -> map_get (ob_obligationId o) (obligations (obligationService t)) = Some o) ->
  wp (repay_candidates cs amount)
    (fun v s => kept y t s /\ exists x, s.2 = set_obligations x t /\
       repaid_down (obligationService t) cs amount v.1 v.2 x)
    (fun _ s => kept y t s) (y, t).
Proof.
  revert amount y t. induction cs as [|o cs IH]; intros amount y t Hi Ha Hnd Hcs; cbn [repay_candidates].
  { apply wp_ret. split; [unchanged|]. exists (obligationService t). split; [by destruct t|apply repaid_down_none; by left]. }
  destruct (Z.leb_spec amount 0).
  { apply wp_ret. split; [unchanged|]. exists (obligationService t). split; [by destruct t|apply repaid_down_none; by right]. }
  apply NoDup_cons in Hnd as [Hnin Hnd]. cbv zeta.
  apply wp_bind, wp_call. eapply wp_mono; [apply wp_conj; [apply wp_applyRepayment, Hi|apply applyRepayment_keeps, Hi]|..].
  2: { intros e [y1 x] [_ Hk]. by apply kept_obligations. }
  intros v [y1 x1] [(_ & _ & _ & a & o1 & Hpa & Hap & Hsur) Hk]. cbn [fst snd] in *.
  apply printed_amount in Hpa; [|done]. subst a.
  pose proof (kept_obligations _ _ _ _ Hi Hk) as Hk1.
  assert (Ho1 : o1 = o).
  { pose proof (ap_found _ _ _ _ _ _ _ _ Hap) as Hf. rewrite (Hcs o) in Hf; [by injection Hf|set_solver]. }
  subst o1. pose proof (ap_positive _ _ _ _ _ _ _ _ Hap) as Hpos. pose proof (ap_amount _ _ _ _ _ _ _ _ Hap) as Hmin.
  apply wp_bind. eapply wp_mono; [apply (IH _ y1 (set_obligations x1 t)); [apply Hk1|lia|done|]|..].
  - intros o2 Ho2. cbn. rewrite (ap_state _ _ _ _ _ _ _ _ Hap). cbn. rewrite (ev_id _ _ (ap_evolves _ _ _ _ _ _ _ _ Hap)).
    rewrite map_get_set_ne; [apply Hcs; set_solver|]. intros E. apply Hnin. rewrite E, list_elem_of_In. by apply in_map, list_elem_of_In.
  - intros [reps left] [y2 t2] [Hk2 (x2 & Ht2 & Hrd)]. cbn [fst snd] in *. apply wp_ret. cbn [fst snd].
    split; [exact (kept_trans _ _ _ _ _ _ Hk1 Hk2)|]. exists x2. split; [by rewrite Ht2|].
    rewrite (proj2 (Z.ltb_lt _ _)) by lia. eapply repaid_down_cons; [apply Hi|done|done|].
    replace (amount - re_amountMinor (rr_repayment v)) with (rr_surplusMinor v) by lia. done.
  - intros e s Hk2. exact (kept_trans _ _ _ _ _ _ Hk1 Hk2).
Qed.

(** ** The settlement *)

(** The lockbox pays what was applied, unless the ledger already has a debit
    under the route's key; no other lockbox's balance moves. *)
Definition route_debits (t : Lockboxes) (id key : string) (applied : Z) (t' : Lockboxes) : Prop :=
  (exists b, map_get id (lockboxes t) = Some b /\
     (ledger_balance t' b = ledger_balance t b - applied \/
      ledger t' = ledger t /\ key_used (ledger t) ("repayment_route:" +:+ key))) /\
  (forall id2 b2, id2 <> id -> map_get id2 (lockboxes t) = Some b2 -> ledger_balance t' b2 = ledger_balance t b2).

(** The credit line, when there is one, is freed by what was applied. *)
Definition route_releases (t : Risk) (creditLineId : option string) (applied : Z) (t' : Risk) : Prop :=
  match truthy creditLineId with
  | Some c => if decide (0 < applied) then
                exists l l', line_moved t c l l' t' /\ cl_status l <> CreditLineStatus_CLOSED /\
                  cl_utilizedMinor l' = cl_utilizedMinor l - applied /\ cl_limitMinor l' = cl_limitMinor l
              else t' = t
  | None => t' = t
  end.

Lemma route_debits_none t id key b : map_get id (lockboxes t) = Some b -> route_debits t id key 0 t.
Proof. intros Hb. split; [|done]. exists b. split; [done|]. left. lia. Qed.

Lemma wp_debit_route id key applied reason y t :
  LockboxInv (uuids y) t -> 0 <= applied ->
  wp (reduceBalance id (MString (toString applied)) reason (Some ("repayment_route:" +:+ key)))
    (fun _ s => Service.kept LockboxInv lockboxes_evolve y t s /\ route_debits t id key applied s.2)
    (fun _ s => Service.kept LockboxInv lockboxes_evolve y t s) (y, t).
Proof.
  intros Hi Ha. eapply wp_mono; [by apply wp_reduceBalance| |by intros ? ? [? _]].
  intros b' s [Hk (b & a & [Hg Hpa Hl] & _)]. apply printed_amount in Hpa; [|done]. subst a. split; [done|]. split.
  - exists b. split; [done|]. destruct Hl as [(Hl & k & Hu & [[= <-]|[? _]])|Hl]; [by right|done|left].
    by apply (transfers_self _ _ _ _ _ _ Hi Hg).
  - intros id2 b2 Hne Hg2. unfold ledger_balance. destruct Hl as [[-> _]|Hl]; [done|].
    eapply (transfers_other _ _ _ id id2 b b2); [done..| |done]. by right.
Qed.

Lemma wp_settle_route i key applied b y t :
  RouterInv (uuids y) t -> 0 <= applied -> map_get (ar_lockboxId i) (lockboxes (lockboxService t)) = Some b ->
  wp (settle_route i key applied)
    (fun _ s => kept y t s /\ exists lb rk, s.2 = set_risk rk (set_lockboxes lb t) /\
       route_debits (lockboxService t) (ar_lockboxId i) key applied lb /\
       route_releases (riskService t) (ar_creditLineId i) applied rk)
    (fun _ s => kept y t s) (y, t).
Proof.
  intros Hi Ha Hb. unfold settle_route, route_releases. apply wp_when; intros Hc.
  2: { apply Z.ltb_ge in Hc. split; [unchanged|]. exists (lockboxService t), (riskService t).
       split_and!; [by destruct t|replace applied with 0 by lia; by eapply route_debits_none|].
       destruct (truthy _); [|done]. by rewrite decide_False by lia. }
  apply Z.ltb_lt in Hc. apply wp_bind, wp_call. eapply wp_mono; [by apply wp_debit_route; [apply Hi|]|..].
  2: { intros e [y1 x] Hk. by apply kept_lockboxes. }
  intros b' [y1 lb] [Hk Hd]. cbn [fst snd] in *. pose proof (kept_lockboxes _ _ _ _ Hi Hk) as Hk1.
  destruct (truthy (ar_creditLineId i)) as [c|].
  - apply wp_bind, wp_call. eapply wp_mono; [apply (wp_releaseLine c _ y1), Hk1|..].
    + intros l' [y2 rk] [Hk2 (l & a & Hm & Hs & Hpa & _ & Hu & Hlim)]. cbn [fst snd] in *.
      apply printed_amount in Hpa; [|done]. subst a. apply wp_ret.
      split; [exact (kept_trans _ _ _ _ _ _ Hk1 (kept_risk _ (set_lockboxes lb t) _ _ (proj1 Hk1) Hk2))|].
      exists lb, rk. split_and!; [done|done|]. rewrite decide_True by done. by exists l, l'.
    + intros e [y2 rk] [Hk2 _]. exact (kept_trans _ _ _ _ _ _ Hk1 (kept_risk _ (set_lockboxes lb t) _ _ (proj1 Hk1) Hk2)).
  - apply wp_ret. split; [done|]. exists lb, (riskService t). split_and!; [by destruct t|done|done].
Qed.

(** ** The route *)

(** What a route that was not a replay has done. *)
Record routed (t : Router) (i : ApplyRevenue) (v : RouteResult) (t' : Router) : Prop := {
  rd_new : map_get (rt_idempotencyKey v) (routesByIdempotencyKey t) = None;
  rd_flow : exists amount b cs,
    assertPositiveMinorUnits (ar_amountMinor i) "amountMinor" = Ok amount /\
    map_get (ar_lockboxId i) (lockboxes (lockboxService t)) = Some b /\
    (lb_status b = LockboxStatus_ACTIVE \/ lb_status b = LockboxStatus_FROZEN) /\
    amount <= ledger_balance (lockboxService t) b /\
    candidates_of (obligationService t) b (ar_obligationIds i) cs /\
    rt_appliedMinor v = Z.min amount (total (map ob_outstandingPrincipalMinor cs)) /\
    rt_appliedMinor v + rt_surplusMinor v = amount /\
    rt_appliedMinor v = sum_by re_amountMinor (rt_repayments v) /\
    repaid_down (obligationService t) cs amount (rt_repayments v) (rt_surplusMinor v) (obligationService t');
  rd_debit : route_debits (lockboxService t) (ar_lockboxId i) (rt_idempotencyKey v) (rt_appliedMinor v) (lockboxService t');
  rd_release : route_releases (riskService t) (ar_creditLineId i) (rt_appliedMinor v) (riskService t');
  rd_recorded : exists amount, assertPositiveMinorUnits (ar_amountMinor i) "amountMinor" = Ok amount /\
    map_get (rt_idempotencyKey v) (routesByIdempotencyKey t') = Some (MkRoute (route_hash i amount) v) }.

(** A replay changes nothing and returns what is on record for the same input. *)
Record route_replays (t : Router) (i : ApplyRevenue) (v : RouteResult) (t' : Router) : Prop := {
  rr_same : t' = t;
  rr_found : exists key amount, assertPositiveMinorUnits (ar_amountMinor i) "amountMinor" = Ok amount /\
    (forall k, ar_idempotencyKey i = Some k -> key = k) /\
    map_get key (routesByIdempotencyKey t) = Some (MkRoute (route_hash i amount) v) }.

Lemma put_route_kept y y1 t t1 key r :
  kept y t (y1, t1) -> map_get key (routesByIdempotencyKey t1) = None -> kept y t (y1, put_route key r t1).
Proof.
  intros (Hi & Hg & He) Hn. split_and!; [|done|]; cbn [fst snd] in *.
  - by destruct Hi.
  - etrans; [exact He|]. split; try done. intros k r0 Hr0. cbn. rewrite map_get_set_ne; [done|]. intros E. subst. congruence.
Qed.

(** The balances of the lockboxes are those of the ledger, so reading a lockbox
    does not change what a debit of it means. *)
Lemma route_debits_sync t b b' id key applied t' :
  map_get id (lockboxes t) = Some b -> box_evolves b b' -> lb_lockboxId b = id ->
  route_debits (put_lockbox b' t) id key applied t' -> route_debits t id key applied t'.
Proof.
  intros Hb He Hid [(b1 & Hb1 & Hd) Ho]. cbn in Hb1. rewrite (be_id _ _ He), Hid, map_get_set_eq in Hb1. injection Hb1 as <-.
  split.
  - exists b. split; [done|]. unfold ledger_balance in *. cbn [put_lockbox ledger] in *. by rewrite (be_account _ _ He) in Hd.
  - intros id2 b2 Hne Hb2. apply (Ho id2); [done|]. cbn. by rewrite (be_id _ _ He), Hid, map_get_set_ne.
Qed.

(** A new route, from the lockbox read to the result on record. *)
Lemma wp_new_route i key amount y t :
  RouterInv (uuids y) t -> assertPositiveMinorUnits (ar_amountMinor i) "amountMinor" = Ok amount ->
  map_get key (routesByIdempotencyKey t) = None ->
  wp (new_route i key amount (route_hash i amount))
    (fun v s => kept y t s /\ v.2 = false /\ rt_idempotencyKey v.1 = key /\ routed t i v.1 s.2) (fun _ s => kept y t s) (y, t).
Proof.
  intros Hi Ham Hnew. pose proof (assertPositiveMinorUnits_pos _ _ _ Ham) as Hpos. unfold new_route.
  apply wp_bind, wp_call. eapply wp_mono; [apply wp_getLockbox, Hi|..].
  2: { intros e [y1 x] Hk. by apply kept_lockboxes. }
  intros b' [y1 lb1] [Hk1 (b & Hb & Hlb1 & He & Hst & Hbal)]. cbn [fst snd] in *. subst lb1.
  apply (kept_lockboxes _ _ _ _ Hi) in Hk1. set (t1 := set_lockboxes (put_lockbox b' (lockboxService t)) t) in *.
  destruct (bi_boxes _ _ (ro_lockboxes _ _ Hi) _ _ Hb) as (Hbid & _).
  apply wp_bind, wp_throw_if; [done|]. intros Hs. cbv beta. apply negb_false_iff, bool_decide_eq_true in Hs.
  apply wp_bind, wp_throw_if; [done|]. intros Hge%Z.ltb_ge. cbv beta. apply wp_bind, wp_own, wp_bind, wp_lift; [done|].
  intros cs Hcs. cbv beta zeta. rewrite preview_waterfall. cbn [snd]. rewrite Z.add_0_l.
  apply (route_candidates_ok _ _ _ _ _ (ro_obligations _ _ Hi)) in Hcs.
  assert (Hfound : forall o, o ∈ cs -> map_get (ob_obligationId o) (obligations (obligationService t)) = Some o).
  { intros o (_ & id & _ & Ho)%(cd_all _ _ _ _ Hcs). by destruct (oi_obligations _ _ (ro_obligations _ _ Hi) _ _ Ho) as (-> & _). }
  assert (Htot := waterfall_total (map ob_outstandingPrincipalMinor cs) amount (Z.lt_le_incl _ _ Hpos)
    (candidates_debts _ _ _ (ro_obligations _ _ Hi) Hfound)).
  assert (Hnn : 0 <= total (map ob_outstandingPrincipalMinor cs)) by
    (apply total_nonneg, (candidates_debts _ _ _ (ro_obligations _ _ Hi) Hfound)).
  set (applied := total (waterfall _ amount)) in *.
  apply wp_bind, wp_own, wp_bind, wp_lift; [done|]. intros _ _. cbv beta.
  apply wp_bind. eapply wp_mono; [apply (wp_repay_candidates cs amount y1 t1); [apply Hk1|lia|apply Hcs|done]|..].
  2: { intros e s Hk. exact (kept_trans _ _ _ _ _ _ Hk1 Hk). }
  intros [reps left] [y2 t2] [Hk2 (x & Ht2 & Hrd)]. cbn [fst snd] in *. apply (kept_trans _ _ _ _ _ _ Hk1) in Hk2. subst t2.
  assert (Hsum : sum_by re_amountMinor reps = applied).
  { unfold applied. rewrite <- (rn_amounts _ _ _ _ _ _ Hrd). symmetry. apply total_map. }
  apply wp_bind. eapply wp_mono; [apply (wp_settle_route i key applied b'); [apply Hk2|lia|cbn; by rewrite (be_id _ _ He), Hbid, map_get_set_eq]|..].
  2: { intros e s Hk. exact (kept_trans _ _ _ _ _ _ Hk2 Hk). }
  intros _ [y3 t3] [Hk3 (lb & rk & Ht3 & Hd & Hr)]. cbn [fst snd] in *. apply (kept_trans _ _ _ _ _ _ Hk2) in Hk3. subst t3.
  apply wp_bind, wp_sys; [apply growing_emit|..].
  2: { intros e y4 Hg4. eapply (kept_trans _ _ _ _ _ _ Hk3). apply (kept_same _ _ RouterInv_mono); [apply Hk3|done]. }
  intros _ y4 Hg4. apply wp_bind, wp_update, wp_ret. split_and!; [|done|done|].
  - apply put_route_kept; [|done]. eapply (kept_trans _ _ _ _ _ _ Hk3). apply (kept_same _ _ RouterInv_mono); [apply Hk3|done].
  - split; cbn [fst snd rt_idempotencyKey rt_appliedMinor rt_surplusMinor rt_repayments].
    + done.
    + exists amount, b, cs. pose proof (rn_left _ _ _ _ _ _ Hrd). split_and!; try done; try lia.
      * rewrite <- Hst. set_solver.
      * by eapply candidates_of_evolves.
    + cbn. by eapply route_debits_sync.
    + exact Hr.
    + exists amount. split; [done|]. cbn. by rewrite map_get_set_eq.
Qed.

Lemma wp_route_key (key : option string) prefix (Q : string -> Sys * Router -> Prop) E y t :
  (forall k y', grows y y' -> (forall k', key = Some k' -> k = k') -> Q k (y', t)) ->
  wp (sys (key_or key prefix)) Q E (y, t).
Proof.
  intros HQ. destruct key as [k|]; [apply wp_sys_ret, HQ; [done|by intros ? [= ->]]|].
  apply wp_new_id. intros y' _ Hg. by apply HQ.
Qed.

Lemma wp_applyLockboxRevenue i y t :
  RouterInv (uuids y) t ->
  wp (applyLockboxRevenue i)
    (fun v s => kept y t s /\
       (v.2 = true /\ route_replays t i v.1 s.2 \/
        v.2 = false /\ routed t i v.1 s.2 /\ forall k, ar_idempotencyKey i = Some k -> rt_idempotencyKey v.1 = k))
    (fun _ s => kept y t s) (y, t).
Proof.
  intros Hi. unfold applyLockboxRevenue. svc_step. apply wp_route_key. intros k y1 Hg1 Hk. cbv beta.
  assert (Hk1 : kept y t (y1, t)) by unchanged.
  svc_step. svc_step; [done|]. rename a into amount. svc_step. svc_step; [done|]. cbv zeta. do 2 svc_step.
  destruct (map_get k (routesByIdempotencyKey t)) as [r|] eqn:Hr.
  - svc_step. svc_step; [done|]. svc_step. split; [done|]. left. split; [done|]. split; [done|].
    match goal with E : negb (String.eqb _ _) = false |- _ => apply negb_false_iff, String.eqb_eq in E; rename E into Hh end.
    exists k, amount. split_and!; [done|done|]. rewrite Hr, <- Hh. by destruct r.
  - eapply wp_mono; [apply (wp_new_route i k amount y1 t); [apply Hk1|done|done]|..].
    + intros v s (Hk2 & Hv & Hkey & Hrd). split; [exact (kept_trans _ _ _ _ _ _ Hk1 Hk2)|]. right. split_and!; [done|done|].
      intros k' Hk'. rewrite Hkey. by apply Hk.
    + intros e s Hk2. exact (kept_trans _ _ _ _ _ _ Hk1 Hk2).
Qed.

(** ** Executions *)

Inductive router_call :=
| CallApplyRevenue (i : ApplyRevenue)
| CallObligations (c : obligation_call)
| CallLockboxes (c : lockbox_call)
| CallRisk (c : risk_call).

(** A call of the router, or of a service it shares. *)
Definition run_router (c : router_call) : M (Sys * Router) unit :=
  match c with
  | CallApplyRevenue i => applyLockboxRevenue i ;; mret ()
  | CallObligations c => on_obligations (run_obligation c)
  | CallLockboxes c => on_lockboxes (run_lockbox c)
  | CallRisk c => on_risk (run_risk c)
  end.

Lemma run_router_keeps c : keeps (run_router c).
Proof.
  destruct c; cbn [run_router].
  - apply keeps_bind; [apply _| |intros; apply keeps_ret; [apply _|apply RouterInv_mono]].
    intros y t Hi. eapply wp_mono; [by apply wp_applyLockboxRevenue|by intros ? ? [? _]|done].
  - intros y t Hi. apply wp_call. eapply wp_mono; [apply run_obligation_keeps, Hi|..]; intros ? [y' x] ?; by apply kept_obligations.
  - intros y t Hi. apply wp_call. eapply wp_mono; [apply run_lockbox_keeps, Hi|..]; intros ? [y' x] ?; by apply kept_lockboxes.
  - intros y t Hi. apply wp_call. eapply wp_mono; [apply run_risk_keeps, Hi|..]; intros ? [y' x] ?; by apply kept_risk.
Qed.

(** The services as they are wired at the start. *)
Definition router_start (b : bool) (cap r30 r7 : Z) : Router :=
  MkRouter empty_obligations empty_lockboxes (risk_start b cap r30 r7) [].

Lemma run_routers_ok cs y b cap r30 r7 :
  Service.kept RouterInv router_evolves y (router_start b cap r30 r7) (exec run_router cs (y, router_start b cap r30 r7)).
Proof.
  apply (exec_kept _ _ RouterInv_mono run_router cs y _ run_router_keeps). split; [apply ObligationInv_empty|apply LockboxInv_empty|].
  apply RiskInv_new. intros m Hm. destruct b; [injection Hm as <-; apply MandateInv_empty|done].
Qed.

(** C9: revenue flows down the waterfall and nothing is lost.  On services
    reached by any calls, a route that returns either replays the result on
    record for the same input and changes nothing, or is new: the lockbox had
    the amount, the candidates are exactly the repayable obligations among those
    named, all of the lockbox's subject and asset, each got the smaller of its
    debt and what was left, the total applied is the smaller of the amount and
    their debt, applied plus surplus is the amount and the sum of the repayments
    recorded, each obligation owes less by exactly its repayments, the lockbox's
    ledger balance fell by the total applied (unless the ledger already held a
    debit under the route's key) and no other lockbox's moved, and the credit
    line's utilization fell by the total applied. *)
Theorem revenue_routed cs y b cap r30 r7 i v replayed s' :
  let s := exec run_router cs (y, router_start b cap r30 r7) in
  applyLockboxRevenue i s = (Ok (v, replayed), s') ->
  if replayed then route_replays s.2 i v s'.2 else routed s.2 i v s'.2.
Proof.
  intros s Hrun. destruct (run_routers_ok cs y b cap r30 r7) as (Hi & _ & _). fold s in Hi. destruct s as [y1 t1].
  destruct (wp_run _ _ _ _ _ _ (wp_applyLockboxRevenue i y1 t1 Hi) Hrun) as [_ [[Hv Hr]|(Hv & Hr & _)]];
    cbn [fst snd] in *; by subst.
Qed.

(** Routing is idempotent.  A route that returned under a given key returns
    the same result, marked as a replay, when it is asked for again after any
    other calls, and changes nothing: no obligation, lockbox, credit line or
    ledger entry. *)
Theorem routing_idempotent cs y b cap r30 r7 i key v replayed s' more :
  ar_idempotencyKey i = Some key ->
  applyLockboxRevenue i (exec run_router cs (y, router_start b cap r30 r7)) = (Ok (v, replayed), s') ->
  applyLockboxRevenue i (exec run_router more s') = (Ok (v, true), exec run_router more s').
Proof.
  intros Hkey Hrun. destruct (run_routers_ok cs y b cap r30 r7) as (Hi & _ & _).
  destruct (exec run_router cs _) as [y1 t1]. cbn [fst snd] in *.
  destruct (wp_run _ _ _ _ _ _ (wp_applyLockboxRevenue i y1 t1 Hi) Hrun) as [(Hi1 & _ & _) Hout]. cbn [fst snd] in *.
  assert (Hrec : exists amount, assertPositiveMinorUnits (ar_amountMinor i) "amountMinor" = Ok amount /\
    map_get key (routesByIdempotencyKey s'.2) = Some (MkRoute (route_hash i amount) v)).
  { destruct Hout as [[_ [-> (k & a & ? & Hk & ?)]]|(_ & Hr & Hk)].
    - exists a. by rewrite <- (Hk _ Hkey).
    - destruct (rd_recorded _ _ _ _ Hr) as (a & ? & Hg). exists a. by rewrite (Hk _ Hkey) in Hg. }
  assert (Hne : assertNonEmptyString "idempotencyKey" (JStr key) = Ok ()).
  { clear -Hrun Hkey. unfold applyLockboxRevenue in Hrun. rewrite Hkey in Hrun. unfold mbind, M_bind, lift in Hrun. cbn in Hrun.
    destruct (assertPositiveMinorUnits _ _); [|done]. by destruct (assertNonEmptyString "idempotencyKey" (JStr key)) as [[]|]. }
  destruct Hrec as (amount & Ham & Hg). destruct s' as [y2 t2]. cbn [fst snd] in *.
  destruct (exec_kept _ _ RouterInv_mono run_router more y2 t2 run_router_keeps Hi1) as (_ & _ & Hev).
  apply (rx_routes _ _ Hev) in Hg. destruct (exec run_router more (y2, t2)) as [y3 t3]. cbn [fst snd] in *.
  unfold applyLockboxRevenue. rewrite Hkey. unfold mbind, M_bind, lift, throw_if, own, gets. cbn. rewrite Ham, Hne. cbn.
  rewrite Hg. cbn. by rewrite String.eqb_refl.
Qed.

(** ** The order of the repayments *)

Lemma sorted_positions {A} (R : A -> A -> Prop) l i j x z :
  StronglySorted R l -> l !! i = Some x -> l !! j = Some z -> (i < j)%nat -> R x z.
Proof.
  intros Hs. revert i j. induction Hs as [|w l Hs IH Hf]; intros i j Hi Hj Hij; [done|].
  destruct j as [|j]; [lia|]. cbn in Hj. destruct i as [|i]; cbn in Hi.
  - injection Hi as ->. rewrite Forall_forall in Hf. apply Hf. by eapply list_elem_of_lookup_2.
  - eapply IH; [done|done|lia].
Qed.

Lemma repaid_single id (reps : list Repayment) i r :
  NoDup (map re_obligationId reps) -> reps !! i = Some r -> re_obligationId r = id ->
  sum_by (repaid_for id) reps = re_amountMinor r.
Proof.
  intros Hnd Hr Hid. revert i Hr. induction reps as [|r0 reps IH]; intros i Hr; [done|].
  cbn in Hnd. apply NoDup_cons in Hnd as [Hn Hnd]. rewrite sum_by_cons. unfold repaid_for at 1. destruct i as [|i]; cbn in Hr.
  - injection Hr as ->. rewrite decide_True by done. rewrite sum_by_zero; [lia|]. intros r1 Hr1. unfold repaid_for.
    rewrite decide_False; [done|]. intros E. apply Hn. rewrite Hid, <- E. rewrite list_elem_of_In. by apply in_map, list_elem_of_In.
  - rewrite decide_False; [rewrite (IH Hnd i Hr); lia|]. intros E. apply Hn. rewrite E, <- Hid, list_elem_of_In.
    apply in_map, list_elem_of_In. by eapply list_elem_of_lookup_2.
Qed.

(** The position of a repaid obligation among the repayments. *)
Lemma repaid_position t cs amount reps left t' o r :
  repaid_down t cs amount reps left t' -> NoDup (map ob_obligationId cs) -> o ∈ cs -> r ∈ reps ->
  re_obligationId r = ob_obligationId o -> exists j, cs !! j = Some o /\ reps !! j = Some r.
Proof.
  intros Hrd Hnd [k Hk]%list_elem_of_lookup [j Hj]%list_elem_of_lookup Heq. exists j. split; [|done].
  assert (Hm : map re_obligationId reps !! j = Some (re_obligationId r)) by (rewrite list_lookup_fmap, Hj; done).
  rewrite (rn_ids _ _ _ _ _ _ Hrd), Heq in Hm. apply lookup_take_Some in Hm as [Hm _].
  assert (Hk' : map ob_obligationId cs !! k = Some (ob_obligationId o)) by (rewrite list_lookup_fmap, Hk; done).
  by rewrite (NoDup_lookup _ _ _ _ Hnd Hm Hk').
Qed.

(** What comes before a repaid obligation is paid in full. *)
Lemma paid_in_full t cs amount reps left t' k j o r :
  repaid_down t cs amount reps left t' -> NoDup (map ob_obligationId cs) -> cs !! k = Some o -> reps !! j = Some r ->
  (k < j)%nat -> sum_by (repaid_for (ob_obligationId o)) reps = ob_outstandingPrincipalMinor o.
Proof.
  intros Hdown Hnd Hck Hrj Hkj.
  assert (Hd : map ob_outstandingPrincipalMinor cs !! k = Some (ob_outstandingPrincipalMinor o))
    by (rewrite list_lookup_fmap, Hck; done).
  assert (Hx : map re_amountMinor reps !! j = Some (re_amountMinor r)) by (rewrite list_lookup_fmap, Hrj; done).
  rewrite (rn_amounts _ _ _ _ _ _ Hdown) in Hx. apply (waterfall_full _ _ _ _ _ _ Hkj Hd) in Hx.
  rewrite <- (rn_amounts _ _ _ _ _ _ Hdown), list_lookup_fmap in Hx.
  destruct (reps !! k) as [rk|] eqn:Hrk; [|done]. injection Hx as <-. apply (repaid_single _ _ k); [|done|].
  - rewrite (rn_ids _ _ _ _ _ _ Hdown). eapply sublist_NoDup; [exact Hnd|apply sublist_take].
  - assert (Hm : map re_obligationId reps !! k = Some (re_obligationId rk)) by (rewrite list_lookup_fmap, Hrk; done).
    rewrite (rn_ids _ _ _ _ _ _ Hdown) in Hm. apply lookup_take_Some in Hm as [Hm _]. rewrite list_lookup_fmap, Hck in Hm.
    by injection Hm.
Qed.

(** the earliest debt is paid first.  With a consistent [localeCompare], a
    new route pays an obligation only when every candidate due before it (or due
    at the same time and before it by its id) has been paid in full. *)
Theorem earliest_due_first `{!LocaleLaws} cs y b cap r30 r7 i v s' first later r :
  let s := exec run_router cs (y, router_start b cap r30 r7) in
  applyLockboxRevenue i s = (Ok (v, false), s') ->
  (forall o, o = first \/ o = later -> repayable (ob_status o) = true /\ exists id, id ∈ ar_obligationIds i /\
     map_get id (obligations (obligationService s.2)) = Some o) ->
  due_order first later = Lt -> r ∈ rt_repayments v -> re_obligationId r = ob_obligationId later ->
  exists o', map_get (ob_obligationId first) (obligations (obligationService s'.2)) = Some o' /\
    ob_outstandingPrincipalMinor o' = 0.
Proof.
  intros s Hrun Hin Hlt Hr Hrid. destruct (run_routers_ok cs y b cap r30 r7) as (Hi & _ & _). fold s in Hi.
  destruct s as [y1 t1]. cbn [fst snd] in *.
  destruct (wp_run _ _ _ _ _ _ (wp_applyLockboxRevenue i y1 t1 Hi) Hrun) as [_ [[? _]|(_ & Hrd & _)]]; [done|].
  destruct (rd_flow _ _ _ _ Hrd) as (amount & bx & cs' & _ & _ & _ & _ & Hc & _ & _ & _ & Hdown). cbn [fst snd] in *.
  assert (Hf : first ∈ cs') by (apply (cd_all _ _ _ _ Hc), Hin; by left).
  assert (Hl : later ∈ cs') by (apply (cd_all _ _ _ _ Hc), Hin; by right).
  destruct (repaid_position _ _ _ _ _ _ _ _ Hdown (cd_ids _ _ _ _ Hc) Hl Hr Hrid) as (j & Hcj & Hrj).
  apply list_elem_of_lookup in Hf as [k Hck]. destruct (cd_sorted _ _ _ _ Hc) as [l ->].
  assert (Hs := stable_sort_sorted due_order due_order_opp due_order_trans l).
  assert (Hkj : (k < j)%nat).
  { destruct (Nat.lt_trichotomy k j) as [?|[->|Hjk]]; [done|..]; exfalso.
    - rewrite Hck in Hcj. injection Hcj as ->. pose proof (due_order_opp later later) as Ho. rewrite Hlt in Ho. done.
    - apply (sorted_positions _ _ _ _ _ _ Hs Hcj Hck Hjk). by rewrite due_order_opp, Hlt. }
  destruct (Hin first) as (_ & id & _ & Hfirst); [by left|].
  destruct (oi_obligations _ _ (ro_obligations _ _ Hi) _ _ Hfirst) as (<- & _).
  destruct (rn_obligations _ _ _ _ _ _ Hdown _ _ Hfirst) as (o' & Ho' & _ & Hout). exists o'. split; [done|].
  rewrite (paid_in_full _ _ _ _ _ _ k j first r Hdown) in Hout; [lia|apply Hc|done..].
Qed.
End router.
