(* ===== verification/Trading.v ===== *)
(** * Trading capital: what its files share

    src/packages/domain/src/trading-capital-matching.js, trading-capital-facility.js
    and trading-capital-settlement.js repeat the same checks with error codes of
    their own; here a check takes the code.  Values are typed, so the checks that a
    value is a string, an object with exactly the expected keys, or a member of an
    enumeration do not arise; [null] is [None].  An amount that was checked to be a
    canonical decimal string is kept as the integer it stands for. *)

From Stdlib Require Import Ascii.
From stdpp Require Import base tactics sets relations gmap numbers strings list.
From S2P Require Import Prelude Js Enums EventStore Service Mandate Loan Servicing.
Local Open Scope string_scope.
Local Open Scope Z_scope.

(** ** Enumerations *)

Inductive SubjectType :=
  | SubjectType_AGENT | SubjectType_HUMAN | SubjectType_ORG | SubjectType_ORIGINATOR.
#[export] Instance Enum_SubjectType : Enum SubjectType := {|
  value x := match x with
    | SubjectType_AGENT => "agent"
    | SubjectType_HUMAN => "human"
    | SubjectType_ORG => "org"
    | SubjectType_ORIGINATOR => "originator"
    end;
  enum_values := [SubjectType_AGENT; SubjectType_HUMAN; SubjectType_ORG; SubjectType_ORIGINATOR] |}.
#[export] Instance EnumLaws_SubjectType : EnumLaws SubjectType.
Proof. enum_laws. Qed.

Inductive TradingCapitalTemplateType :=
  | TradingCapitalTemplateType_CREDIT | TradingCapitalTemplateType_PERFORMANCE_PARTICIPATION
  | TradingCapitalTemplateType_HYBRID.
#[export] Instance Enum_TradingCapitalTemplateType : Enum TradingCapitalTemplateType := {|
  value x := match x with
    | TradingCapitalTemplateType_CREDIT => "credit"
    | TradingCapitalTemplateType_PERFORMANCE_PARTICIPATION => "performance_participation"
    | TradingCapitalTemplateType_HYBRID => "hybrid"
    end;
  enum_values := [TradingCapitalTemplateType_CREDIT; TradingCapitalTemplateType_PERFORMANCE_PARTICIPATION;
    TradingCapitalTemplateType_HYBRID] |}.
#[export] Instance EnumLaws_TradingCapitalTemplateType : EnumLaws TradingCapitalTemplateType.
Proof. enum_laws. Qed.

Inductive TradingStrategyClass :=
  | TradingStrategyClass_MARKET_NEUTRAL | TradingStrategyClass_DIRECTIONAL
  | TradingStrategyClass_LIQUIDITY_PROVISION.
#[export] Instance Enum_TradingStrategyClass : Enum TradingStrategyClass := {|
  value x := match x with
    | TradingStrategyClass_MARKET_NEUTRAL => "market_neutral"
    | TradingStrategyClass_DIRECTIONAL => "directional"
    | TradingStrategyClass_LIQUIDITY_PROVISION => "liquidity_provision"
    end;
  enum_values := [TradingStrategyClass_MARKET_NEUTRAL; TradingStrategyClass_DIRECTIONAL;
    TradingStrategyClass_LIQUIDITY_PROVISION] |}.
#[export] Instance EnumLaws_TradingStrategyClass : EnumLaws TradingStrategyClass.
Proof. enum_laws. Qed.

Inductive TradingMatchProposalStatus :=
  | TradingMatchProposalStatus_PROPOSED | TradingMatchProposalStatus_PROVIDER_ACCEPTED
  | TradingMatchProposalStatus_SUBJECT_ACCEPTED | TradingMatchProposalStatus_BILATERALLY_ACCEPTED.
#[export] Instance Enum_TradingMatchProposalStatus : Enum TradingMatchProposalStatus := {|
  value x := match x with
    | TradingMatchProposalStatus_PROPOSED => "proposed"
    | TradingMatchProposalStatus_PROVIDER_ACCEPTED => "provider_accepted"
    | TradingMatchProposalStatus_SUBJECT_ACCEPTED => "subject_accepted"
    | TradingMatchProposalStatus_BILATERALLY_ACCEPTED => "bilaterally_accepted"
    end;
  enum_values := [TradingMatchProposalStatus_PROPOSED; TradingMatchProposalStatus_PROVIDER_ACCEPTED;
    TradingMatchProposalStatus_SUBJECT_ACCEPTED; TradingMatchProposalStatus_BILATERALLY_ACCEPTED] |}.
#[export] Instance EnumLaws_TradingMatchProposalStatus : EnumLaws TradingMatchProposalStatus.
Proof. enum_laws. Qed.

Inductive TradingFacilityLifecycleStatus :=
  | TradingFacilityLifecycleStatus_AWAITING_CONTRIBUTIONS
  | TradingFacilityLifecycleStatus_AWAITING_SUBJECT_COLLATERAL
  | TradingFacilityLifecycleStatus_AWAITING_PROVIDER_FUNDING | TradingFacilityLifecycleStatus_READY_FOR_ACTIVATION
  | TradingFacilityLifecycleStatus_ACTIVE | TradingFacilityLifecycleStatus_FLATTENED.
#[export] Instance Enum_TradingFacilityLifecycleStatus : Enum TradingFacilityLifecycleStatus := {|
  value x := match x with
    | TradingFacilityLifecycleStatus_AWAITING_CONTRIBUTIONS => "awaiting_contributions"
    | TradingFacilityLifecycleStatus_AWAITING_SUBJECT_COLLATERAL => "awaiting_subject_collateral"
    | TradingFacilityLifecycleStatus_AWAITING_PROVIDER_FUNDING => "awaiting_provider_funding"
    | TradingFacilityLifecycleStatus_READY_FOR_ACTIVATION => "ready_for_activation"
    | TradingFacilityLifecycleStatus_ACTIVE => "active"
    | TradingFacilityLifecycleStatus_FLATTENED => "flattened"
    end;
  enum_values := [TradingFacilityLifecycleStatus_AWAITING_CONTRIBUTIONS;
    TradingFacilityLifecycleStatus_AWAITING_SUBJECT_COLLATERAL;
    TradingFacilityLifecycleStatus_AWAITING_PROVIDER_FUNDING; TradingFacilityLifecycleStatus_READY_FOR_ACTIVATION;
    TradingFacilityLifecycleStatus_ACTIVE; TradingFacilityLifecycleStatus_FLATTENED] |}.
#[export] Instance EnumLaws_TradingFacilityLifecycleStatus : EnumLaws TradingFacilityLifecycleStatus.
Proof. enum_laws. Qed.

Inductive TradingFacilityRiskState :=
  | TradingFacilityRiskState_NORMAL | TradingFacilityRiskState_WARNING | TradingFacilityRiskState_REDUCE_ONLY
  | TradingFacilityRiskState_FLATTEN | TradingFacilityRiskState_SETTLEMENT.
#[export] Instance Enum_TradingFacilityRiskState : Enum TradingFacilityRiskState := {|
  value x := match x with
    | TradingFacilityRiskState_NORMAL => "NORMAL"
    | TradingFacilityRiskState_WARNING => "WARNING"
    | TradingFacilityRiskState_REDUCE_ONLY => "REDUCE_ONLY"
    | TradingFacilityRiskState_FLATTEN => "FLATTEN"
    | TradingFacilityRiskState_SETTLEMENT => "SETTLEMENT"
    end;
  enum_values := [TradingFacilityRiskState_NORMAL; TradingFacilityRiskState_WARNING;
    TradingFacilityRiskState_REDUCE_ONLY; TradingFacilityRiskState_FLATTEN;
    TradingFacilityRiskState_SETTLEMENT] |}.
#[export] Instance EnumLaws_TradingFacilityRiskState : EnumLaws TradingFacilityRiskState.
Proof. enum_laws. Qed.

Inductive TradingOrderIntentStatus :=
  | TradingOrderIntentStatus_OPEN | TradingOrderIntentStatus_CANCELED | TradingOrderIntentStatus_FLATTENED.
#[export] Instance Enum_TradingOrderIntentStatus : Enum TradingOrderIntentStatus := {|
  value x := match x with
    | TradingOrderIntentStatus_OPEN => "open"
    | TradingOrderIntentStatus_CANCELED => "canceled"
    | TradingOrderIntentStatus_FLATTENED => "flattened"
    end;
  enum_values := [TradingOrderIntentStatus_OPEN; TradingOrderIntentStatus_CANCELED;
    TradingOrderIntentStatus_FLATTENED] |}.
#[export] Instance EnumLaws_TradingOrderIntentStatus : EnumLaws TradingOrderIntentStatus.
Proof. enum_laws. Qed.

Inductive TradingOrderDirection :=
  | TradingOrderDirection_LONG | TradingOrderDirection_SHORT.
#[export] Instance Enum_TradingOrderDirection : Enum TradingOrderDirection := {|
  value x := match x with
    | TradingOrderDirection_LONG => "long"
    | TradingOrderDirection_SHORT => "short"
    end;
  enum_values := [TradingOrderDirection_LONG; TradingOrderDirection_SHORT] |}.
#[export] Instance EnumLaws_TradingOrderDirection : EnumLaws TradingOrderDirection.
Proof. enum_laws. Qed.

(** ** Checks *)

(** [/^[A-Za-z0-9][A-Za-z0-9._:-]{0,255}$/] *)
Definition is_alnum (c : ascii) : bool := is_lower c || is_upper c || is_digit c.
Definition is_identifier_char (c : ascii) : bool :=
  is_alnum c || (code c =? 46) || (code c =? 95) || (code c =? 58) || (code c =? 45).
Definition IDENTIFIER_PATTERN (s : string) : bool :=
  match s with
  | EmptyString => false
  | String c s => is_alnum c && all_chars is_identifier_char s && (String.length s <=? 255)%nat
  end.

(** [/^[1-9][0-9]{0,77}$/] and [/^(?:0|[1-9][0-9]{0,77})$/] *)
Definition NON_NEGATIVE_MINOR_PATTERN (s : string) : bool :=
  MINOR_PATTERN s && (String.length s <=? MAX_MINOR_UNIT_DIGITS)%nat.
Definition POSITIVE_MINOR_PATTERN (s : string) : bool :=
  NON_NEGATIVE_MINOR_PATTERN s && negb (String.eqb s "0").

(** [/(?:Z|[+-][0-9]{2}:[0-9]{2})$/] *)
Definition ends_in_zone (s : string) : bool :=
  let n := String.length s in
  match String.get (n - 1) s with
  | Some c => code c =? 90
  | None => false
  end ||
  match String.list_ascii_of_string (String.substring (n - 6) 6 s) with
  | [sign; h1; h2; colon; m1; m2] =>
      ((code sign =? 43) || (code sign =? 45)) && is_digit h1 && is_digit h2 && (code colon =? 58) && is_digit m1 && is_digit m2
  | _ => false
  end.

Definition identifier (error name value : string) : result unit :=
  guard (negb (IDENTIFIER_PATTERN value)) error (name +:+ " is invalid").
Definition hash (error name value : string) : result unit :=
  guard (negb (HASH_PATTERN value)) error (name +:+ " is invalid").

(** The amount a caller's string stands for. *)
Definition positiveMinor (error name value : string) : result Z :=
  guard (negb (POSITIVE_MINOR_PATTERN value)) error (name +:+ " must be a positive decimal minor-unit string") ;;
  Ok (BigInt value).

(** The same checks on the string an amount is kept as. *)
Definition storedPositiveMinor (error name : string) (amount : Z) : result unit :=
  guard (negb (POSITIVE_MINOR_PATTERN (toString amount))) error (name +:+ " must be a positive decimal minor-unit string").
Definition nonNegativeMinor (error name : string) (amount : Z) : result unit :=
  guard (negb (NON_NEGATIVE_MINOR_PATTERN (toString amount))) error (name +:+ " must be a non-negative decimal minor-unit string").

(** [Number.isSafeInteger(value) && minimum <= value && value <= maximum] *)
Definition integer (error name : string) (value minimum maximum : Z) : result unit :=
  guard (negb (isSafeInteger value) || (value <? minimum) || (maximum <? value)) error (name +:+ " is outside its closed range").

(** The flags of a record and the values they must have. *)
Definition flags := list (string * bool).
Definition flags_json (f : flags) : list (string * json) := map (fun '(k, b) => (k, JBool b)) f.
Definition assertFlags (expected actual : flags) (error message : string) : result unit :=
  guard (negb (forallb (fun '(k, b) => bool_decide (map_get k actual = Some b)) expected)) error message.

(** [null] in an object *)
Definition null_or {A} (f : A -> json) (o : option A) : json := match o with Some a => f a | None => JNull end.

Section dates.
Context `{Platform}.

(** The time a date string stands for. *)
Definition date (error name value : string) : result Z :=
  match date_parse value with
  | Some t => guard (negb (ends_in_zone value)) error (name +:+ " is invalid") ;; Ok t
  | None => fail error (name +:+ " is invalid")
  end.

(** [new Date(value) <= now]; an invalid date compares false. *)
Definition elapsed (value : string) (now : Z) : bool := from_date now value.
End dates.
