(* ===== verification/Matching.v ===== *)
(** * Trading capital: matching

    src/packages/domain/src/trading-capital-matching.js: a subject's request for
    capital, a provider's mandate, the hard filters between them, and the proposal
    both sides accept.  The trading credit profile comes from
    trading-capital-evidence.js; what matching reads of it is the record below. *)

From stdpp Require Import base tactics sets relations gmap numbers strings list.
From S2P Require Import Prelude Js Enums EventStore Service Mandate Loan Servicing Trading.
Local Open Scope string_scope.
Local Open Scope Z_scope.

Definition TRADING_CAPITAL_REQUEST_SCHEMA_VERSION : string := "trading_capital_request.v1".
Definition TRADING_PROVIDER_MANDATE_SCHEMA_VERSION : string := "trading_provider_mandate.v1".
Definition TRADING_MATCH_PROPOSAL_SCHEMA_VERSION : string := "trading_match_proposal.v1".
Definition TRADING_MATCHING_POLICY_VERSION : string := "trading_matching_policy.v1".
Definition TRADING_TEMPLATE_POLICY_VERSION : string := "trading_no_funds_template_policy.v1".
Definition TRADING_SYNTHETIC_ASSET_ID : string := "urn:ipo-one:sandbox-asset:usd-cent".
Definition TRADING_CREDIT_PROFILE_SCHEMA_VERSION : string := "trading_credit_profile.v1".

Definition REQUEST_LIFETIME_MS : Z := 48 * 60 * 60 * 1000.
Definition MANDATE_LIFETIME_MS : Z := 7 * 24 * 60 * 60 * 1000.
Definition MAX_MATCHES : nat := 20.
Definition MAX_CANDIDATES : nat := 100.

(** [repaymentMode], [fixedReturnBps] and [performanceParticipationBps] of a template. *)
Definition TEMPLATE_ECONOMICS (t : TradingCapitalTemplateType) : string * Z * Z :=
  match t with
  | TradingCapitalTemplateType_CREDIT => ("synthetic_fixed_credit", 500, 0)
  | TradingCapitalTemplateType_PERFORMANCE_PARTICIPATION => ("synthetic_performance_participation", 0, 1500)
  | TradingCapitalTemplateType_HYBRID => ("synthetic_hybrid", 250, 750)
  end.

Definition HARD_FILTER_CODES : list string :=
  ["active_and_unexpired"; "template_compatible"; "synthetic_asset_compatible"; "amount_range_compatible";
   "duration_range_compatible"; "subject_type_compatible"; "strategy_class_compatible"; "server_evidence_eligible"].

(** ** Records *)

Record Factor := MkFactor { fa_factorId : string; fa_assessment : string; fa_authorizing : bool; fa_numericScoreAvailable : bool }.

Record TradingCreditProfile := MkTradingCreditProfile {
  pf_tradingCreditProfileId : string; pf_schemaVersion : string; pf_stage : string; pf_version : Z; pf_syntheticOnly : bool;
  pf_productionAuthority : bool; pf_fundsAuthority : bool; pf_externalSystemQueried : bool; pf_pointInTime : option bool;
  pf_selfReportedSignalsAccepted : option bool; pf_factors : option (list Factor); pf_newRiskAuthority : bool;
  pf_snapshotHash : string; pf_scorecardHash : string; pf_subjectId : string; pf_principalId : string;
  pf_subjectType : SubjectType; pf_operatorType : string }.

Record EvidenceEligibility := MkEvidenceEligibility {
  el_eligibilityClass : string; el_evidenceSnapshotHash : string; el_factorScorecardHash : string;
  el_factorAssessments : list (string * string); el_freshness : string; el_selfDeclaredRiskClassAccepted : bool;
  el_authorizing : bool; el_reasonCodes : list string; el_schemaVersion : string }.

Record TemplateTerms := MkTemplateTerms {
  tt_templateType : TradingCapitalTemplateType; tt_syntheticPrincipalMinor : Z; tt_assetId : string; tt_durationDays : Z;
  tt_repaymentMode : string; tt_fixedReturnBps : Z; tt_performanceParticipationBps : Z; tt_economicPolicyVersion : string;
  tt_termsHash : string; tt_flags : flags; tt_schemaVersion : string }.

Record CapitalRequest := MkCapitalRequest {
  cr_tradingCapitalRequestId : string; cr_requestHash : string; cr_subjectId : string; cr_principalId : string;
  cr_subjectType : SubjectType; cr_operatorType : string; cr_tradingCreditProfileId : string;
  cr_evidenceEligibility : EvidenceEligibility; cr_requestedByActorHash : string;
  cr_templateType : TradingCapitalTemplateType; cr_strategyClass : TradingStrategyClass; cr_assetId : string;
  cr_requestedAmountMinor : Z; cr_durationDays : Z; cr_termsBlueprint : TemplateTerms; cr_status : string; cr_version : Z;
  cr_createdAt : string; cr_expiresAt : string; cr_riskClassCallerSupplied : bool; cr_autoMatch : bool; cr_autoAccept : bool;
  cr_safety : flags; cr_schemaVersion : string }.

Record TradingProvider := MkTradingProvider {
  tp_providerId : string; tp_providerHash : string; tp_status : string; tp_schemaVersion : string }.

Record ProviderMandate := MkProviderMandate {
  pm_tradingProviderMandateId : string; pm_mandateHash : string; pm_providerId : string; pm_providerHash : string;
  pm_providerActorHash : string; pm_supportedTemplateTypes : list TradingCapitalTemplateType;
  pm_allowedSubjectTypes : list SubjectType; pm_allowedStrategyClasses : list TradingStrategyClass; pm_assetId : string;
  pm_minAmountMinor : Z; pm_maxAmountMinor : Z; pm_minDurationDays : Z; pm_maxDurationDays : Z;
  pm_evidenceEligibilityClass : string; pm_createdAt : string; pm_expiresAt : string; pm_policyVersion : string;
  pm_status : string; pm_version : Z; pm_hardFiltersOnly : bool; pm_selfDeclaredRiskClassAccepted : bool;
  pm_providerRankingAuthority : bool; pm_autoAccept : bool; pm_safety : flags; pm_schemaVersion : string }.

Record CompatibleMandate := MkCompatibleMandate {
  cm_providerMandateId : string; cm_mandateHash : string; cm_mandateVersion : Z; cm_providerReferenceHash : string;
  cm_compatibilityHash : string; cm_hardFilterReasonCodes : list string; cm_rank : Z; cm_termsPreview : TemplateTerms }.

Record CompatibleList := MkCompatibleList {
  cl_tradingCapitalRequestId : string; cl_requestHash : string; cl_requestVersion : Z; cl_evaluatedCandidateCount : Z;
  cl_compatibleMandateCount : Z; cl_matches : list CompatibleMandate; cl_asOf : Z }.

Record SideAcceptance := MkSideAcceptance {
  sa_acceptanceId : string; sa_actorHash : string; sa_proposalHash : string; sa_termsHash : string; sa_acceptedAt : Z;
  sa_flags : flags; sa_schemaVersion : string }.

Record MatchProposal := MkMatchProposal {
  mp_tradingMatchProposalId : string; mp_proposalHash : string; mp_capitalRequestId : string; mp_requestHash : string;
  mp_requestVersion : Z; mp_providerMandateId : string; mp_mandateHash : string; mp_mandateVersion : Z; mp_subjectId : string;
  mp_principalId : string; mp_subjectType : SubjectType; mp_providerId : string; mp_subjectActorHash : string;
  mp_providerActorHash : string; mp_compatibilityHash : string; mp_createdAt : string; mp_expiresAt : string;
  mp_matchingPolicyVersion : string; mp_terms : TemplateTerms; mp_hardFilterReasonCodes : list string;
  mp_status : TradingMatchProposalStatus; mp_providerAcceptance : option SideAcceptance;
  mp_subjectAcceptance : option SideAcceptance; mp_version : Z; mp_updatedAt : Z; mp_immutableTerms : bool;
  mp_autoAccepted : bool; mp_bilateralAcceptanceRequired : bool; mp_requestAndMandateRevalidationRequired : bool;
  mp_safety : flags; mp_schemaVersion : string }.

(** ** Checks *)

Definition INVALID_MATCHING : string := "invalid_trading_capital_matching".
Definition UNAVAILABLE_MATCHING : string := "trading_capital_matching_unavailable".
Definition MATCHING_UNAVAILABLE_TEXT : string := "Trading Capital matching resource is unavailable".

Definition uniqueEnumList {A} `{EnumLaws A} (name : string) (l : list A) (allowed : list A) (maximum : nat) : result (list A) :=
  guard ((length l <? 1)%nat || (maximum <? length l)%nat || negb (bool_decide (NoDup l)) ||
         existsb (fun x => negb (bool_decide (x ∈ allowed))) l) INVALID_MATCHING (name +:+ " is invalid") ;;
  Ok (stable_sort (fun x y => String.compare (value x) (value y)) l).

Definition matching_commonSafety : flags :=
  [("sandboxOnly", true); ("syntheticOnly", true); ("productionAuthority", false); ("fundsAuthority", false);
   ("realPricing", false); ("realFunding", false); ("externalSystemQueried", false); ("piiIncluded", false);
   ("secretsIncluded", false)].
Definition matching_assertCommonSafety (f : flags) : result unit :=
  assertFlags matching_commonSafety f INVALID_MATCHING "Trading Capital matching safety boundary is invalid".

Definition is_flag (o : option bool) (b : bool) : bool := bool_decide (o = Some b).

Definition assertFinalizedProfile (p : TradingCreditProfile) : result unit :=
  guard (negb (String.eqb (pf_schemaVersion p) TRADING_CREDIT_PROFILE_SCHEMA_VERSION) ||
         negb (String.eqb (pf_stage p) "finalized") || negb (pf_version p =? 3) || negb (pf_syntheticOnly p) ||
         pf_productionAuthority p || pf_fundsAuthority p || pf_externalSystemQueried p || negb (is_flag (pf_pointInTime p) true) ||
         negb (is_flag (pf_selfReportedSignalsAccepted p) false) ||
         match pf_factors p with
         | None => true
         | Some l => negb (length l =? 5)%nat || existsb (fun f => fa_authorizing f || fa_numericScoreAvailable f) l
         end || pf_newRiskAuthority p)
    UNAVAILABLE_MATCHING "A finalized non-authorizing Trading Credit Profile is required" ;;
  hash INVALID_MATCHING "evidenceSnapshot.snapshotHash" (pf_snapshotHash p) ;;
  hash INVALID_MATCHING "factorScorecard.scorecardHash" (pf_scorecardHash p).

Definition evidenceEligibility (p : TradingCreditProfile) : result EvidenceEligibility :=
  assertFinalizedProfile p ;;
  Ok (MkEvidenceEligibility "synthetic_restricted" (pf_snapshotHash p) (pf_scorecardHash p)
        (map (fun f => (fa_factorId f, fa_assessment f)) (default [] (pf_factors p))) "unknown" false false
        ["finalized_point_in_time_evidence"; "synthetic_evidence_only"; "external_freshness_unknown";
         "new_risk_authority_disabled"] "trading_matching_evidence_eligibility.v1").

Section matching.
Context `{Platform}.

(** ** Terms *)

Definition terms_core_json (t : TemplateTerms) : list (string * json) :=
  [("templateType", JStr (value (tt_templateType t))); ("syntheticPrincipalMinor", money (tt_syntheticPrincipalMinor t));
   ("assetId", JStr (tt_assetId t)); ("durationDays", JNum (tt_durationDays t)); ("repaymentMode", JStr (tt_repaymentMode t));
   ("fixedReturnBps", JNum (tt_fixedReturnBps t)); ("performanceParticipationBps", JNum (tt_performanceParticipationBps t));
   ("economicPolicyVersion", JStr (tt_economicPolicyVersion t))].

Definition templateTerms (templateType : TradingCapitalTemplateType) (requestedAmountMinor durationDays : Z) : TemplateTerms :=
  let '(mode, fixed, share) := TEMPLATE_ECONOMICS templateType in
  let terms hash := MkTemplateTerms templateType requestedAmountMinor TRADING_SYNTHETIC_ASSET_ID durationDays mode fixed share
    TRADING_TEMPLATE_POLICY_VERSION hash
    [("illustrativeOnly", true); ("immutable", true); ("realPrice", false); ("fundsAuthority", false)]
    "trading_no_funds_template_terms.v1" in
  terms (hashId "trading_no_funds_template_terms" (JObj (terms_core_json (terms "")))).

Definition terms_json (t : TemplateTerms) : json :=
  JObj (terms_core_json t ++ [("termsHash", JStr (tt_termsHash t))] ++ flags_json (tt_flags t) ++
        [("schemaVersion", JStr (tt_schemaVersion t))]).

(** ** Requests *)

Definition requestCore (r : CapitalRequest) : list (string * json) :=
  [("subjectId", JStr (cr_subjectId r)); ("principalId", JStr (cr_principalId r));
   ("subjectType", JStr (value (cr_subjectType r))); ("operatorType", JStr (cr_operatorType r));
   ("tradingCreditProfileId", JStr (cr_tradingCreditProfileId r));
   ("evidenceSnapshotHash", JStr (el_evidenceSnapshotHash (cr_evidenceEligibility r)));
   ("factorScorecardHash", JStr (el_factorScorecardHash (cr_evidenceEligibility r)));
   ("requestedByActorHash", JStr (cr_requestedByActorHash r)); ("templateType", JStr (value (cr_templateType r)));
   ("strategyClass", JStr (value (cr_strategyClass r))); ("assetId", JStr (cr_assetId r));
   ("requestedAmountMinor", money (cr_requestedAmountMinor r)); ("durationDays", JNum (cr_durationDays r));
   ("termsBlueprintHash", JStr (tt_termsHash (cr_termsBlueprint r))); ("createdAt", JStr (cr_createdAt r));
   ("expiresAt", JStr (cr_expiresAt r))].

Definition eligibility_json (e : EvidenceEligibility) : json :=
  JObj [("eligibilityClass", JStr (el_eligibilityClass e)); ("evidenceSnapshotHash", JStr (el_evidenceSnapshotHash e));
        ("factorScorecardHash", JStr (el_factorScorecardHash e));
        ("factorAssessments", JArr (map (fun '(f, a) => JObj [("factorId", JStr f); ("assessment", JStr a)]) (el_factorAssessments e)));
        ("freshness", JStr (el_freshness e)); ("selfDeclaredRiskClassAccepted", JBool (el_selfDeclaredRiskClassAccepted e));
        ("authorizing", JBool (el_authorizing e)); ("reasonCodes", JArr (map JStr (el_reasonCodes e)));
        ("schemaVersion", JStr (el_schemaVersion e))].

(** The whole request, for the check for personal data. *)
Definition request_json (r : CapitalRequest) : json :=
  JObj ([("tradingCapitalRequestId", JStr (cr_tradingCapitalRequestId r)); ("subjectId", JStr (cr_subjectId r));
         ("principalId", JStr (cr_principalId r)); ("subjectType", JStr (value (cr_subjectType r)));
         ("operatorType", JStr (cr_operatorType r)); ("tradingCreditProfileId", JStr (cr_tradingCreditProfileId r));
         ("evidenceEligibility", eligibility_json (cr_evidenceEligibility r));
         ("requestedByActorHash", JStr (cr_requestedByActorHash r)); ("templateType", JStr (value (cr_templateType r)));
         ("strategyClass", JStr (value (cr_strategyClass r))); ("assetId", JStr (cr_assetId r));
         ("requestedAmountMinor", money (cr_requestedAmountMinor r)); ("durationDays", JNum (cr_durationDays r));
         ("termsBlueprint", terms_json (cr_termsBlueprint r)); ("status", JStr (cr_status r)); ("version", JNum (cr_version r));
         ("createdAt", JStr (cr_createdAt r)); ("expiresAt", JStr (cr_expiresAt r));
         ("riskClassCallerSupplied", JBool (cr_riskClassCallerSupplied r)); ("autoMatch", JBool (cr_autoMatch r));
         ("autoAccept", JBool (cr_autoAccept r))] ++ flags_json (cr_safety r) ++
        [("schemaVersion", JStr (cr_schemaVersion r)); ("requestHash", JStr (cr_requestHash r))]).

Definition createTradingCapitalRequest (profile : TradingCreditProfile) (requestedByActorId : string)
    (templateType : TradingCapitalTemplateType) (strategyClass : TradingStrategyClass) (assetId requestedAmountMinor : string)
    (durationDays now : Z) : M Sys CapitalRequest :=
  lift (assertFinalizedProfile profile) ;;
  lift (identifier INVALID_MATCHING "requestedByActorId" requestedByActorId) ;;
  throw_if (negb (String.eqb assetId TRADING_SYNTHETIC_ASSET_ID)) INVALID_MATCHING "only the closed synthetic asset is supported" ;;
  amount ← lift (positiveMinor INVALID_MATCHING "requestedAmountMinor" requestedAmountMinor);
  lift (integer INVALID_MATCHING "durationDays" durationDays 7 365) ;;
  expiresAt ← lift (iso_of (now + REQUEST_LIFETIME_MS));
  eligibility ← lift (evidenceEligibility profile);
  let termsBlueprint := templateTerms templateType amount durationDays in
  tradingCapitalRequestId ← createOperationalId "trading_capital_request";
  let request hash := MkCapitalRequest tradingCapitalRequestId hash (pf_subjectId profile) (pf_principalId profile)
    (pf_subjectType profile) (pf_operatorType profile) (pf_tradingCreditProfileId profile) eligibility
    (hashId "actor" (JStr requestedByActorId)) templateType strategyClass assetId amount durationDays termsBlueprint "open" 1
    (toISOString now) expiresAt false false false matching_commonSafety TRADING_CAPITAL_REQUEST_SCHEMA_VERSION in
  let result := request (hashId "trading_capital_request" (JObj (requestCore (request "")))) in
  lift (assertNoRawPiiReference (request_json result)) ;;
  mret result.

Definition assertCapitalRequest (r : CapitalRequest) : result unit :=
  guard (negb (String.eqb (cr_schemaVersion r) TRADING_CAPITAL_REQUEST_SCHEMA_VERSION) || negb (String.eqb (cr_status r) "open") ||
         negb (cr_version r =? 1) || cr_riskClassCallerSupplied r || cr_autoMatch r || cr_autoAccept r)
    UNAVAILABLE_MATCHING MATCHING_UNAVAILABLE_TEXT ;;
  identifier INVALID_MATCHING "tradingCapitalRequestId" (cr_tradingCapitalRequestId r) ;;
  hash INVALID_MATCHING "requestHash" (cr_requestHash r) ;;
  matching_assertCommonSafety (cr_safety r) ;;
  guard (negb (String.eqb (hashId "trading_capital_request" (JObj (requestCore r))) (cr_requestHash r)))
    UNAVAILABLE_MATCHING "Capital Request hash is invalid".

(** ** Mandates *)

Definition providerMandateCore (m : ProviderMandate) : list (string * json) :=
  [("providerId", JStr (pm_providerId m)); ("providerHash", JStr (pm_providerHash m));
   ("providerActorHash", JStr (pm_providerActorHash m));
   ("supportedTemplateTypes", JArr (map (fun x => JStr (value x)) (pm_supportedTemplateTypes m)));
   ("allowedSubjectTypes", JArr (map (fun x => JStr (value x)) (pm_allowedSubjectTypes m)));
   ("allowedStrategyClasses", JArr (map (fun x => JStr (value x)) (pm_allowedStrategyClasses m)));
   ("assetId", JStr (pm_assetId m)); ("minAmountMinor", money (pm_minAmountMinor m));
   ("maxAmountMinor", money (pm_maxAmountMinor m)); ("minDurationDays", JNum (pm_minDurationDays m));
   ("maxDurationDays", JNum (pm_maxDurationDays m)); ("evidenceEligibilityClass", JStr (pm_evidenceEligibilityClass m));
   ("createdAt", JStr (pm_createdAt m)); ("expiresAt", JStr (pm_expiresAt m)); ("policyVersion", JStr (pm_policyVersion m))].

Definition mandate_json (m : ProviderMandate) : json :=
  JObj ([("tradingProviderMandateId", JStr (pm_tradingProviderMandateId m)); ("mandateHash", JStr (pm_mandateHash m))] ++
        providerMandateCore m ++
        [("status", JStr (pm_status m)); ("version", JNum (pm_version m)); ("hardFiltersOnly", JBool (pm_hardFiltersOnly m));
         ("selfDeclaredRiskClassAccepted", JBool (pm_selfDeclaredRiskClassAccepted m));
         ("providerRankingAuthority", JBool (pm_providerRankingAuthority m)); ("autoAccept", JBool (pm_autoAccept m))] ++
        flags_json (pm_safety m) ++ [("schemaVersion", JStr (pm_schemaVersion m))]).

Record NewMandate := MkNewMandate {
  nm_provider : TradingProvider; nm_providerActorId : string; nm_supportedTemplateTypes : list TradingCapitalTemplateType;
  nm_allowedSubjectTypes : list SubjectType; nm_allowedStrategyClasses : list TradingStrategyClass; nm_assetId : string;
  nm_minAmountMinor : string; nm_maxAmountMinor : string; nm_minDurationDays : Z; nm_maxDurationDays : Z }.

Definition createTradingProviderMandate (i : NewMandate) (now : Z) : M Sys ProviderMandate :=
  let provider := nm_provider i in
  throw_if (negb (String.eqb (tp_status provider) "allowlisted") || negb (String.eqb (tp_schemaVersion provider) "provider.v1"))
    UNAVAILABLE_MATCHING "An allowlisted Provider is required" ;;
  lift (identifier INVALID_MATCHING "provider.providerId" (tp_providerId provider)) ;;
  lift (identifier INVALID_MATCHING "providerActorId" (nm_providerActorId i)) ;;
  templates ← lift (uniqueEnumList "supportedTemplateTypes" (nm_supportedTemplateTypes i) enum_values 3);
  subjectTypes ← lift (uniqueEnumList "allowedSubjectTypes" (nm_allowedSubjectTypes i) [SubjectType_HUMAN; SubjectType_AGENT] 2);
  strategies ← lift (uniqueEnumList "allowedStrategyClasses" (nm_allowedStrategyClasses i) enum_values 3);
  throw_if (negb (String.eqb (nm_assetId i) TRADING_SYNTHETIC_ASSET_ID)) INVALID_MATCHING "only the closed synthetic asset is supported" ;;
  minAmount ← lift (positiveMinor INVALID_MATCHING "minAmountMinor" (nm_minAmountMinor i));
  maxAmount ← lift (positiveMinor INVALID_MATCHING "maxAmountMinor" (nm_maxAmountMinor i));
  throw_if (maxAmount <? minAmount) INVALID_MATCHING "Provider Mandate amount range is invalid" ;;
  lift (integer INVALID_MATCHING "minDurationDays" (nm_minDurationDays i) 7 365) ;;
  lift (integer INVALID_MATCHING "maxDurationDays" (nm_maxDurationDays i) 7 365) ;;
  throw_if (nm_maxDurationDays i <? nm_minDurationDays i) INVALID_MATCHING "Provider Mandate duration range is invalid" ;;
  expiresAt ← lift (iso_of (now + MANDATE_LIFETIME_MS));
  tradingProviderMandateId ← createOperationalId "trading_provider_mandate";
  let mandate hash := MkProviderMandate tradingProviderMandateId hash (tp_providerId provider) (tp_providerHash provider)
    (hashId "actor" (JStr (nm_providerActorId i))) templates subjectTypes strategies (nm_assetId i) minAmount maxAmount
    (nm_minDurationDays i) (nm_maxDurationDays i) "synthetic_restricted" (toISOString now) expiresAt
    TRADING_MATCHING_POLICY_VERSION "open" 1 true false false false matching_commonSafety
    TRADING_PROVIDER_MANDATE_SCHEMA_VERSION in
  let result := mandate (hashId "trading_provider_mandate" (JObj (providerMandateCore (mandate "")))) in
  lift (assertNoRawPiiReference (mandate_json result)) ;;
  mret result.

Definition assertProviderMandate (m : ProviderMandate) : result unit :=
  guard (negb (String.eqb (pm_schemaVersion m) TRADING_PROVIDER_MANDATE_SCHEMA_VERSION) || negb (String.eqb (pm_status m) "open") ||
         negb (pm_version m =? 1) || negb (pm_hardFiltersOnly m) || pm_selfDeclaredRiskClassAccepted m ||
         pm_providerRankingAuthority m || pm_autoAccept m) UNAVAILABLE_MATCHING MATCHING_UNAVAILABLE_TEXT ;;
  identifier INVALID_MATCHING "tradingProviderMandateId" (pm_tradingProviderMandateId m) ;;
  hash INVALID_MATCHING "mandateHash" (pm_mandateHash m) ;;
  matching_assertCommonSafety (pm_safety m) ;;
  guard (negb (String.eqb (hashId "trading_provider_mandate" (JObj (providerMandateCore m))) (pm_mandateHash m)))
    UNAVAILABLE_MATCHING "Provider Mandate hash is invalid".

(** ** Matching *)

(** [{ compatible: true, reasons }] or [{ compatible: false, rejectedBy }] *)
Inductive FilterResult := Compatible (reasons : list string) | RejectedBy (reason : string).

Definition hardFilter (r : CapitalRequest) (m : ProviderMandate) (now : Z) : FilterResult :=
  if elapsed (cr_expiresAt r) now || elapsed (pm_expiresAt m) now then RejectedBy "active_and_unexpired" else
  if negb (bool_decide (cr_templateType r ∈ pm_supportedTemplateTypes m)) then RejectedBy "template_compatible" else
  if negb (String.eqb (pm_assetId m) (cr_assetId r)) then RejectedBy "synthetic_asset_compatible" else
  if (cr_requestedAmountMinor r <? pm_minAmountMinor m) || (pm_maxAmountMinor m <? cr_requestedAmountMinor r)
    then RejectedBy "amount_range_compatible" else
  if (cr_durationDays r <? pm_minDurationDays m) || (pm_maxDurationDays m <? cr_durationDays r)
    then RejectedBy "duration_range_compatible" else
  if negb (bool_decide (cr_subjectType r ∈ pm_allowedSubjectTypes m)) then RejectedBy "subject_type_compatible" else
  if negb (bool_decide (cr_strategyClass r ∈ pm_allowedStrategyClasses m)) then RejectedBy "strategy_class_compatible" else
  if negb (String.eqb (el_eligibilityClass (cr_evidenceEligibility r)) (pm_evidenceEligibilityClass m)) ||
     el_selfDeclaredRiskClassAccepted (cr_evidenceEligibility r) || el_authorizing (cr_evidenceEligibility r)
    then RejectedBy "server_evidence_eligible" else
  Compatible HARD_FILTER_CODES.

Definition matchSummary (r : CapitalRequest) (m : ProviderMandate) (rank : Z) (reasons : list string) : CompatibleMandate :=
  let terms := templateTerms (cr_templateType r) (cr_requestedAmountMinor r) (cr_durationDays r) in
  let core := JObj
    [("capitalRequestId", JStr (cr_tradingCapitalRequestId r)); ("requestHash", JStr (cr_requestHash r));
     ("requestVersion", JNum (cr_version r)); ("providerMandateId", JStr (pm_tradingProviderMandateId m));
     ("mandateHash", JStr (pm_mandateHash m)); ("mandateVersion", JNum (pm_version m));
     ("evidenceSnapshotHash", JStr (el_evidenceSnapshotHash (cr_evidenceEligibility r)));
     ("hardFilterReasonCodes", JArr (map JStr reasons)); ("termsHash", JStr (tt_termsHash terms));
     ("matchingPolicyVersion", JStr TRADING_MATCHING_POLICY_VERSION)] in
  MkCompatibleMandate (pm_tradingProviderMandateId m) (pm_mandateHash m) (pm_version m)
    (hashId "provider" (JStr (pm_providerId m))) (hashId "trading_match_compatibility" core) reasons rank terms.

(** [a || b] on the results of two comparisons *)
Definition or_else (a b : comparison) : comparison := match a with Eq => b | _ => a end.

(** The order of the candidates. *)
Definition candidate_order (left right : ProviderMandate * list string) : comparison :=
  or_else (localeCompare (pm_createdAt left.1) (pm_createdAt right.1))
    (or_else (localeCompare (pm_mandateHash left.1) (pm_mandateHash right.1))
       (localeCompare (pm_tradingProviderMandateId left.1) (pm_tradingProviderMandateId right.1))).

Fixpoint assert_mandates (l : list ProviderMandate) : result unit :=
  match l with [] => Ok () | m :: l => assertProviderMandate m ;; assert_mandates l end.

(** [.map(hardFilter).filter(compatible)] *)
Fixpoint compatible_candidates (r : CapitalRequest) (now : Z) (l : list ProviderMandate) : list (ProviderMandate * list string) :=
  match l with
  | [] => []
  | m :: l => match hardFilter r m now with
              | Compatible reasons => (m, reasons) :: compatible_candidates r now l
              | RejectedBy _ => compatible_candidates r now l
              end
  end.

Fixpoint summaries (r : CapitalRequest) (index : Z) (l : list (ProviderMandate * list string)) : list CompatibleMandate :=
  match l with [] => [] | (m, reasons) :: l => matchSummary r m (index + 1) reasons :: summaries r (index + 1) l end.

Definition listCompatibleTradingProviderMandates (r : CapitalRequest) (providerMandates : list ProviderMandate) (now : Z)
    : result CompatibleList :=
  assertCapitalRequest r ;;
  guard (MAX_CANDIDATES <? length providerMandates)%nat INVALID_MATCHING "Provider Mandate candidate set is unbounded" ;;
  assert_mandates providerMandates ;;
  let candidates := take MAX_MATCHES (stable_sort candidate_order (compatible_candidates r now providerMandates)) in
  let matches := summaries r 0 candidates in
  Ok (MkCompatibleList (cr_tradingCapitalRequestId r) (cr_requestHash r) (cr_version r) (Z.of_nat (length providerMandates))
        (Z.of_nat (length matches)) matches now).

(** ** Proposals *)

Definition proposalCore (p : MatchProposal) : list (string * json) :=
  [("capitalRequestId", JStr (mp_capitalRequestId p)); ("requestHash", JStr (mp_requestHash p));
   ("requestVersion", JNum (mp_requestVersion p)); ("providerMandateId", JStr (mp_providerMandateId p));
   ("mandateHash", JStr (mp_mandateHash p)); ("mandateVersion", JNum (mp_mandateVersion p));
   ("subjectId", JStr (mp_subjectId p)); ("principalId", JStr (mp_principalId p));
   ("subjectType", JStr (value (mp_subjectType p))); ("providerId", JStr (mp_providerId p));
   ("subjectActorHash", JStr (mp_subjectActorHash p)); ("providerActorHash", JStr (mp_providerActorHash p));
   ("compatibilityHash", JStr (mp_compatibilityHash p)); ("termsHash", JStr (tt_termsHash (mp_terms p)));
   ("createdAt", JStr (mp_createdAt p)); ("expiresAt", JStr (mp_expiresAt p));
   ("matchingPolicyVersion", JStr (mp_matchingPolicyVersion p))].

Definition acceptance_json (a : SideAcceptance) : json :=
  JObj ([("acceptanceId", JStr (sa_acceptanceId a)); ("actorHash", JStr (sa_actorHash a)); ("proposalHash", JStr (sa_proposalHash a));
         ("termsHash", JStr (sa_termsHash a)); ("acceptedAt", instant (sa_acceptedAt a))] ++ flags_json (sa_flags a) ++
        [("schemaVersion", JStr (sa_schemaVersion a))]).

Definition proposal_json (p : MatchProposal) : json :=
  JObj ([("tradingMatchProposalId", JStr (mp_tradingMatchProposalId p)); ("proposalHash", JStr (mp_proposalHash p))] ++
        proposalCore p ++
        [("terms", terms_json (mp_terms p)); ("hardFilterReasonCodes", JArr (map JStr (mp_hardFilterReasonCodes p)));
         ("status", JStr (value (mp_status p))); ("providerAcceptance", null_or acceptance_json (mp_providerAcceptance p));
         ("subjectAcceptance", null_or acceptance_json (mp_subjectAcceptance p)); ("version", JNum (mp_version p));
         ("updatedAt", instant (mp_updatedAt p)); ("immutableTerms", JBool (mp_immutableTerms p));
         ("autoAccepted", JBool (mp_autoAccepted p)); ("bilateralAcceptanceRequired", JBool (mp_bilateralAcceptanceRequired p));
         ("requestAndMandateRevalidationRequired", JBool (mp_requestAndMandateRevalidationRequired p))] ++
        flags_json (mp_safety p) ++ [("schemaVersion", JStr (mp_schemaVersion p))]).

(** [new Date(Math.min(...)).toISOString()] of the two expiries *)
Definition earlier_of (a b : string) : result string :=
  match date_parse a, date_parse b with Some x, Some y => iso_of (Z.min x y) | _, _ => Err RangeError end.

Definition createTradingMatchProposal (r : CapitalRequest) (m : ProviderMandate) (requestedMandateHash requestedRequestHash : string)
    (now : Z) : M Sys MatchProposal :=
  lift (assertCapitalRequest r) ;;
  lift (assertProviderMandate m) ;;
  lift (hash INVALID_MATCHING "requestedMandateHash" requestedMandateHash) ;;
  lift (hash INVALID_MATCHING "requestedRequestHash" requestedRequestHash) ;;
  throw_if (negb (String.eqb requestedMandateHash (pm_mandateHash m)) || negb (String.eqb requestedRequestHash (cr_requestHash r)))
    UNAVAILABLE_MATCHING "Capital Request or Provider Mandate changed" ;;
  result ← lift (listCompatibleTradingProviderMandates r [m] now);
  match cl_matches result with
  | [compatibility] =>
      let terms := cm_termsPreview compatibility in
      expiresAt ← lift (earlier_of (cr_expiresAt r) (pm_expiresAt m));
      tradingMatchProposalId ← createOperationalId "trading_match_proposal";
      let proposal hash := MkMatchProposal tradingMatchProposalId hash (cr_tradingCapitalRequestId r) (cr_requestHash r)
        (cr_version r) (pm_tradingProviderMandateId m) (pm_mandateHash m) (pm_version m) (cr_subjectId r) (cr_principalId r)
        (cr_subjectType r) (pm_providerId m) (cr_requestedByActorHash r) (pm_providerActorHash m)
        (cm_compatibilityHash compatibility) (toISOString now) expiresAt TRADING_MATCHING_POLICY_VERSION terms
        (cm_hardFilterReasonCodes compatibility) TradingMatchProposalStatus_PROPOSED None None 1 now true false true true
        matching_commonSafety TRADING_MATCH_PROPOSAL_SCHEMA_VERSION in
      let result := proposal (hashId "trading_match_proposal" (JObj (proposalCore (proposal "")))) in
      lift (assertNoRawPiiReference (proposal_json result)) ;;
      mret result
  | _ => throw UNAVAILABLE_MATCHING "Provider Mandate is not compatible"
  end.

Definition assertProposal (p : MatchProposal) : result unit :=
  guard (negb (String.eqb (mp_schemaVersion p) TRADING_MATCH_PROPOSAL_SCHEMA_VERSION) || negb (mp_immutableTerms p) ||
         mp_autoAccepted p || negb (mp_bilateralAcceptanceRequired p) || negb (mp_requestAndMandateRevalidationRequired p))
    UNAVAILABLE_MATCHING MATCHING_UNAVAILABLE_TEXT ;;
  hash INVALID_MATCHING "proposalHash" (mp_proposalHash p) ;;
  hash INVALID_MATCHING "termsHash" (tt_termsHash (mp_terms p)) ;;
  matching_assertCommonSafety (mp_safety p) ;;
  guard (negb (String.eqb (hashId "trading_match_proposal" (JObj (proposalCore p))) (mp_proposalHash p)))
    UNAVAILABLE_MATCHING "Match Proposal hash is invalid".

Definition assertCurrentProposalSources (p : MatchProposal) (r : CapitalRequest) (m : ProviderMandate) (now : Z) : result unit :=
  guard (negb (String.eqb (cr_requestHash r) (mp_requestHash p)) || negb (cr_version r =? mp_requestVersion p) ||
         negb (String.eqb (pm_mandateHash m) (mp_mandateHash p)) || negb (pm_version m =? mp_mandateVersion p) ||
         negb (String.eqb (cr_tradingCapitalRequestId r) (mp_capitalRequestId p)) ||
         negb (String.eqb (pm_tradingProviderMandateId m) (mp_providerMandateId p)) || elapsed (cr_expiresAt r) now ||
         elapsed (pm_expiresAt m) now || elapsed (mp_expiresAt p) now)
    UNAVAILABLE_MATCHING "Expired or changed request/mandate invalidates the proposal" ;;
  compatibility ← listCompatibleTradingProviderMandates r [m] now;
  guard (match cl_matches compatibility with
         | [c] => negb (String.eqb (cm_compatibilityHash c) (mp_compatibilityHash p)) ||
                  negb (String.eqb (tt_termsHash (cm_termsPreview c)) (tt_termsHash (mp_terms p)))
         | _ => true
         end) UNAVAILABLE_MATCHING "Proposal compatibility is no longer current".

Inductive Side := SideProvider | SideSubject.
Definition side_name (s : Side) : string := match s with SideProvider => "provider" | SideSubject => "subject" end.
Definition side_acceptance (s : Side) (p : MatchProposal) : option SideAcceptance :=
  match s with SideProvider => mp_providerAcceptance p | SideSubject => mp_subjectAcceptance p end.
Definition side_actorHash (s : Side) (p : MatchProposal) : string :=
  match s with SideProvider => mp_providerActorHash p | SideSubject => mp_subjectActorHash p end.

Definition proposal_status (provider subject : option SideAcceptance) : TradingMatchProposalStatus :=
  match provider, subject with
  | Some _, Some _ => TradingMatchProposalStatus_BILATERALLY_ACCEPTED
  | Some _, None => TradingMatchProposalStatus_PROVIDER_ACCEPTED
  | None, _ => TradingMatchProposalStatus_SUBJECT_ACCEPTED
  end.

(** [{ ...current, status, providerAcceptance, subjectAcceptance, version, updatedAt }] *)
Definition accepted_proposal (p : MatchProposal) (provider subject : option SideAcceptance) (now : Z) : MatchProposal :=
  MkMatchProposal (mp_tradingMatchProposalId p) (mp_proposalHash p) (mp_capitalRequestId p) (mp_requestHash p)
    (mp_requestVersion p) (mp_providerMandateId p) (mp_mandateHash p) (mp_mandateVersion p) (mp_subjectId p) (mp_principalId p)
    (mp_subjectType p) (mp_providerId p) (mp_subjectActorHash p) (mp_providerActorHash p) (mp_compatibilityHash p)
    (mp_createdAt p) (mp_expiresAt p) (mp_matchingPolicyVersion p) (mp_terms p) (mp_hardFilterReasonCodes p)
    (proposal_status provider subject) provider subject (mp_version p + 1) now (mp_immutableTerms p) (mp_autoAccepted p)
    (mp_bilateralAcceptanceRequired p) (mp_requestAndMandateRevalidationRequired p) (mp_safety p) (mp_schemaVersion p).

Definition acceptance (side : Side) (p : MatchProposal) (r : CapitalRequest) (m : ProviderMandate)
    (acceptedByActorId acceptedProposalHash acceptedTermsHash : string) (now : Z) : M Sys MatchProposal :=
  lift (assertProposal p) ;;
  lift (assertCapitalRequest r) ;;
  lift (assertProviderMandate m) ;;
  lift (identifier INVALID_MATCHING "acceptedByActorId" acceptedByActorId) ;;
  lift (hash INVALID_MATCHING "acceptedProposalHash" acceptedProposalHash) ;;
  lift (hash INVALID_MATCHING "acceptedTermsHash" acceptedTermsHash) ;;
  throw_if (negb (String.eqb acceptedProposalHash (mp_proposalHash p)) || negb (String.eqb acceptedTermsHash (tt_termsHash (mp_terms p))))
    UNAVAILABLE_MATCHING "Acceptance does not bind the exact immutable proposal terms" ;;
  lift (assertCurrentProposalSources p r m now) ;;
  let actorHash := hashId "actor" (JStr acceptedByActorId) in
  throw_if (negb (String.eqb actorHash (side_actorHash side p))) UNAVAILABLE_MATCHING MATCHING_UNAVAILABLE_TEXT ;;
  throw_if (match side_acceptance side p with Some _ => true | None => false end)
    UNAVAILABLE_MATCHING "This proposal side is already accepted" ;;
  acceptanceId ← createOperationalId ("trading_" +:+ side_name side +:+ "_acceptance");
  let record := MkSideAcceptance acceptanceId actorHash (mp_proposalHash p) (tt_termsHash (mp_terms p)) now
    [("exactTerms", true); ("automatic", false); ("fundsAuthority", false)]
    ("trading_match_" +:+ side_name side +:+ "_acceptance.v1") in
  let next := match side with
              | SideProvider => accepted_proposal p (Some record) (mp_subjectAcceptance p) now
              | SideSubject => accepted_proposal p (mp_providerAcceptance p) (Some record) now
              end in
  lift (assertNoRawPiiReference (proposal_json next)) ;;
  mret next.

Definition acceptTradingMatchAsProvider := acceptance SideProvider.
Definition acceptTradingMatchAsSubject := acceptance SideSubject.

Definition tradingCapitalRequestView (r : CapitalRequest) : result CapitalRequest := assertCapitalRequest r ;; Ok r.
Definition tradingProviderMandateView (m : ProviderMandate) : result ProviderMandate := assertProviderMandate m ;; Ok m.
Definition tradingMatchProposalView (p : MatchProposal) : result MatchProposal := assertProposal p ;; Ok p.
End matching.
