(* ===== verification/Facility.v ===== *)
(** * Trading capital: facilities and orders

    src/packages/domain/src/trading-capital-facility.js: a facility is created from
    an accepted proposal and a loan, funded by both sides, activated, traded on
    through order intents, evaluated for risk, flattened and settled.  Every change
    names the state hash and the version it is made on. *)

From stdpp Require Import base tactics sets relations gmap numbers strings list.
From S2P Require Import Prelude Js Enums EventStore Service Mandate Loan Servicing Trading Matching.
Local Open Scope string_scope.
Local Open Scope Z_scope.

Definition TRADING_FACILITY_SCHEMA_VERSION : string := "trading_facility.v1".
Definition TRADING_ORDER_INTENT_SCHEMA_VERSION : string := "trading_order_intent.v1".
Definition TRADING_FACILITY_RISK_EVALUATION_SCHEMA_VERSION : string := "trading_facility_risk_evaluation.v1".
Definition TRADING_FACILITY_POLICY_VERSION : string := "trading_no_funds_facility_policy.v1".
Definition TRADING_SHADOW_RISK_POLICY_VERSION : string := "trading_shadow_risk_policy.v1".

Definition RISK_STATE_ORDER : list TradingFacilityRiskState :=
  [TradingFacilityRiskState_NORMAL; TradingFacilityRiskState_WARNING; TradingFacilityRiskState_REDUCE_ONLY;
   TradingFacilityRiskState_FLATTEN; TradingFacilityRiskState_SETTLEMENT].
Definition LOCAL_OBSERVATION_MAX_AGE_MS : Z := 5 * 60 * 1000.
Definition SUBJECT_COLLATERAL_BPS : Z := 1000.
Definition BPS_DENOMINATOR : Z := 10000.
Definition MAX_OPEN_ORDERS : Z := 20.

(** ** Records *)

(** What is fixed when the facility is created. *)
Record FacilityTerms := MkFacilityTerms {
  fy_tradingFacilityId : string; fy_facilityHash : string; fy_matchProposalId : string; fy_proposalHash : string;
  fy_proposalVersion : Z; fy_obligationId : string; fy_obligationHash : string; fy_subjectId : string; fy_principalId : string;
  fy_providerId : string; fy_subjectActorHash : string; fy_providerActorHash : string;
  fy_templateType : TradingCapitalTemplateType; fy_termsHash : string; fy_assetId : string; fy_syntheticPrincipalMinor : Z;
  fy_requiredSubjectCollateralMinor : Z; fy_requiredProviderFundingMinor : Z; fy_activationDeadlineAt : string;
  fy_maturityAt : string; fy_linkedCanonicalObligation : bool; fy_secondLedgerCreated : bool; fy_callerEquityAccepted : bool;
  fy_createdByActorHash : string; fy_createdAt : Z; fy_facilityPolicyVersion : string; fy_riskPolicyVersion : string;
  fy_safety : flags; fy_schemaVersion : string }.

Record RiskObservation := MkRiskObservation {
  ob_observationHash : string; ob_facilityId : string; ob_facilityVersion : Z; ob_syntheticCapitalMinor : Z;
  ob_syntheticExposureMinor : Z; ob_syntheticEquityMinor : Z; ob_openOrderCount : Z; ob_observedAt : string; ob_source : string;
  ob_complete : bool; ob_reconciled : bool; ob_callerEquityAccepted : bool; ob_schemaVersion : string }.

Record Facility := MkFacility {
  fc_terms : FacilityTerms; fc_subjectCollateralMinor : Z; fc_providerFundingMinor : Z; fc_syntheticCapitalMinor : Z;
  fc_syntheticExposureMinor : Z; fc_syntheticEquityMinor : Z; fc_openOrderCount : Z; fc_subjectCollateralRecorded : bool;
  fc_providerFundingRecorded : bool; fc_lifecycleStatus : TradingFacilityLifecycleStatus; fc_riskState : TradingFacilityRiskState;
  fc_riskReasonCodes : list string; fc_latestRiskEvaluationId : option string; fc_latestRiskEvaluationHash : option string;
  fc_activatedAt : option Z; fc_flattenedAt : option Z; fc_updatedAt : Z; fc_version : Z; fc_riskObservation : RiskObservation;
  fc_stateHash : string }.

Record OrderIntent := MkOrderIntent {
  oi_tradingOrderIntentId : string; oi_orderIntentHash : string; oi_orderStateHash : string; oi_facilityId : string;
  oi_facilityHash : string; oi_subjectId : string; oi_principalId : string; oi_submittedByActorHash : string;
  oi_direction : TradingOrderDirection; oi_syntheticNotionalMinor : Z; oi_createdAt : Z; oi_orderPolicyVersion : string;
  oi_status : TradingOrderIntentStatus; oi_cancelReasonCode : option string; oi_canceledAt : option Z; oi_flattenedAt : option Z;
  oi_version : Z; oi_updatedAt : Z; oi_serverRiskEvaluated : bool; oi_rawVenueActionAccepted : bool; oi_safety : flags;
  oi_schemaVersion : string }.

Record RiskEvaluation := MkRiskEvaluation {
  re_tradingFacilityRiskEvaluationId : string; re_evaluationHash : string; re_facilityId : string; re_facilityHash : string;
  re_facilityVersionBefore : Z; re_facilityStateHashBefore : string; re_observationHash : string;
  re_previousRiskState : TradingFacilityRiskState; re_evaluatedRiskState : TradingFacilityRiskState; re_freshness : string;
  re_reasonCodes : list string; re_syntheticCapitalMinor : Z; re_syntheticExposureMinor : Z; re_syntheticEquityMinor : Z;
  re_utilizationBps : Z; re_evaluatorActorHash : string; re_evaluatedAt : Z; re_riskPolicyVersion : string;
  re_monotonicProtection : bool; re_authorizing : bool; re_callerEquityAccepted : bool; re_automaticRecovery : bool;
  re_safety : flags; re_schemaVersion : string }.

(** ** Checks *)

Definition INVALID_FACILITY : string := "invalid_trading_facility".
Definition UNAVAILABLE_FACILITY : string := "trading_facility_unavailable".
Definition FACILITY_UNAVAILABLE_TEXT : string := "Trading Facility is unavailable".
Definition unavailable_if (c : bool) (message : string) : result unit := guard c UNAVAILABLE_FACILITY message.

Definition exactVersion (name : string) (actual expected : Z) : result unit :=
  unavailable_if (negb (isSafeInteger expected) || (expected <? 1) || negb (actual =? expected)) (name +:+ " version changed").

Definition commonSafety : flags :=
  [("sandboxOnly", true); ("syntheticOnly", true); ("nonRedeemable", true); ("withdrawable", false); ("transferable", false);
   ("externalSystemQueried", false); ("externalOrderSubmitted", false); ("productionAuthority", false); ("fundsAuthority", false);
   ("realCollateral", false); ("realFunding", false); ("realEquity", false); ("realPricing", false);
   ("productionFundsMoved", false); ("piiIncluded", false); ("secretsIncluded", false)].
Definition assertCommonSafety (f : flags) : result unit :=
  assertFlags commonSafety f INVALID_FACILITY "Trading Facility safety boundary is invalid".

(** [RISK_STATE_ORDER.indexOf(value)] *)
Fixpoint index_in (s : TradingFacilityRiskState) (n : Z) (l : list TradingFacilityRiskState) : Z :=
  match l with [] => -1 | x :: l => if bool_decide (x = s) then n else index_in s (n + 1) l end.
Definition riskStateRank (s : TradingFacilityRiskState) : Z := index_in s 0 RISK_STATE_ORDER.

Definition mostRestrictiveRiskState (left right : TradingFacilityRiskState) : TradingFacilityRiskState :=
  if riskStateRank right <=? riskStateRank left then left else right.

Definition facilityLifecycle (subjectCollateralRecorded providerFundingRecorded : bool) : TradingFacilityLifecycleStatus :=
  if subjectCollateralRecorded && providerFundingRecorded then TradingFacilityLifecycleStatus_READY_FOR_ACTIVATION
  else if subjectCollateralRecorded then TradingFacilityLifecycleStatus_AWAITING_PROVIDER_FUNDING
  else if providerFundingRecorded then TradingFacilityLifecycleStatus_AWAITING_SUBJECT_COLLATERAL
  else TradingFacilityLifecycleStatus_AWAITING_CONTRIBUTIONS.

Definition is_lifecycle (s t : TradingFacilityLifecycleStatus) : bool := bool_decide (s = t).
Definition is_risk (s : TradingFacilityRiskState) (l : list TradingFacilityRiskState) : bool := bool_decide (s ∈ l).

(** ** Objects as JSON *)

Definition facilityCore (t : FacilityTerms) : list (string * json) :=
  [("matchProposalId", JStr (fy_matchProposalId t)); ("proposalHash", JStr (fy_proposalHash t));
   ("obligationId", JStr (fy_obligationId t)); ("obligationHash", JStr (fy_obligationHash t));
   ("subjectId", JStr (fy_subjectId t)); ("principalId", JStr (fy_principalId t)); ("providerId", JStr (fy_providerId t));
   ("subjectActorHash", JStr (fy_subjectActorHash t)); ("providerActorHash", JStr (fy_providerActorHash t));
   ("templateType", JStr (value (fy_templateType t))); ("termsHash", JStr (fy_termsHash t)); ("assetId", JStr (fy_assetId t));
   ("syntheticPrincipalMinor", money (fy_syntheticPrincipalMinor t));
   ("requiredSubjectCollateralMinor", money (fy_requiredSubjectCollateralMinor t));
   ("requiredProviderFundingMinor", money (fy_requiredProviderFundingMinor t));
   ("activationDeadlineAt", JStr (fy_activationDeadlineAt t)); ("maturityAt", JStr (fy_maturityAt t));
   ("facilityPolicyVersion", JStr (fy_facilityPolicyVersion t))].

Definition facilityStateCore (f : Facility) : list (string * json) :=
  [("tradingFacilityId", JStr (fy_tradingFacilityId (fc_terms f))); ("facilityHash", JStr (fy_facilityHash (fc_terms f)));
   ("lifecycleStatus", JStr (value (fc_lifecycleStatus f))); ("riskState", JStr (value (fc_riskState f)));
   ("riskReasonCodes", JArr (map JStr (fc_riskReasonCodes f))); ("subjectCollateralMinor", money (fc_subjectCollateralMinor f));
   ("providerFundingMinor", money (fc_providerFundingMinor f)); ("syntheticCapitalMinor", money (fc_syntheticCapitalMinor f));
   ("syntheticExposureMinor", money (fc_syntheticExposureMinor f)); ("syntheticEquityMinor", money (fc_syntheticEquityMinor f));
   ("openOrderCount", JNum (fc_openOrderCount f)); ("subjectCollateralRecorded", JBool (fc_subjectCollateralRecorded f));
   ("providerFundingRecorded", JBool (fc_providerFundingRecorded f));
   ("latestRiskEvaluationId", null_or JStr (fc_latestRiskEvaluationId f));
   ("latestRiskEvaluationHash", null_or JStr (fc_latestRiskEvaluationHash f));
   ("riskObservationHash", JStr (ob_observationHash (fc_riskObservation f))); ("version", JNum (fc_version f));
   ("activatedAt", null_or instant (fc_activatedAt f)); ("flattenedAt", null_or instant (fc_flattenedAt f));
   ("updatedAt", instant (fc_updatedAt f))].

Definition observation_core (o : RiskObservation) : list (string * json) :=
  [("facilityId", JStr (ob_facilityId o)); ("facilityVersion", JNum (ob_facilityVersion o));
   ("syntheticCapitalMinor", money (ob_syntheticCapitalMinor o)); ("syntheticExposureMinor", money (ob_syntheticExposureMinor o));
   ("syntheticEquityMinor", money (ob_syntheticEquityMinor o)); ("openOrderCount", JNum (ob_openOrderCount o));
   ("observedAt", JStr (ob_observedAt o)); ("source", JStr (ob_source o)); ("complete", JBool (ob_complete o));
   ("reconciled", JBool (ob_reconciled o)); ("callerEquityAccepted", JBool (ob_callerEquityAccepted o))].

(** The whole facility, for the check for personal data. *)
Definition facility_json (f : Facility) : json :=
  let t := fc_terms f in
  JObj (facilityCore t ++ facilityStateCore f ++
        [("proposalVersion", JNum (fy_proposalVersion t));
         ("riskObservation", JObj (("observationHash", JStr (ob_observationHash (fc_riskObservation f))) ::
            observation_core (fc_riskObservation f) ++ [("schemaVersion", JStr (ob_schemaVersion (fc_riskObservation f)))]));
         ("linkedCanonicalObligation", JBool (fy_linkedCanonicalObligation t)); ("secondLedgerCreated", JBool (fy_secondLedgerCreated t));
         ("callerEquityAccepted", JBool (fy_callerEquityAccepted t)); ("createdByActorHash", JStr (fy_createdByActorHash t));
         ("createdAt", instant (fy_createdAt t)); ("riskPolicyVersion", JStr (fy_riskPolicyVersion t));
         ("stateHash", JStr (fc_stateHash f))] ++ flags_json (fy_safety t) ++ [("schemaVersion", JStr (fy_schemaVersion t))]).

Definition order_immutable_core (o : OrderIntent) : list (string * json) :=
  [("facilityId", JStr (oi_facilityId o)); ("facilityHash", JStr (oi_facilityHash o)); ("subjectId", JStr (oi_subjectId o));
   ("principalId", JStr (oi_principalId o)); ("submittedByActorHash", JStr (oi_submittedByActorHash o));
   ("direction", JStr (value (oi_direction o))); ("syntheticNotionalMinor", money (oi_syntheticNotionalMinor o));
   ("createdAt", instant (oi_createdAt o)); ("orderPolicyVersion", JStr (oi_orderPolicyVersion o))].

Definition order_state_core (o : OrderIntent) : list (string * json) :=
  [("tradingOrderIntentId", JStr (oi_tradingOrderIntentId o)); ("orderIntentHash", JStr (oi_orderIntentHash o));
   ("status", JStr (value (oi_status o))); ("version", JNum (oi_version o)); ("cancelReasonCode", null_or JStr (oi_cancelReasonCode o));
   ("canceledAt", null_or instant (oi_canceledAt o)); ("flattenedAt", null_or instant (oi_flattenedAt o));
   ("updatedAt", instant (oi_updatedAt o))].

Definition order_json (o : OrderIntent) : json :=
  JObj (order_immutable_core o ++ order_state_core o ++
        [("orderStateHash", JStr (oi_orderStateHash o)); ("serverRiskEvaluated", JBool (oi_serverRiskEvaluated o));
         ("rawVenueActionAccepted", JBool (oi_rawVenueActionAccepted o))] ++ flags_json (oi_safety o) ++
        [("schemaVersion", JStr (oi_schemaVersion o))]).

Definition evaluation_core (r : RiskEvaluation) : list (string * json) :=
  [("facilityId", JStr (re_facilityId r)); ("facilityHash", JStr (re_facilityHash r));
   ("facilityVersionBefore", JNum (re_facilityVersionBefore r)); ("facilityStateHashBefore", JStr (re_facilityStateHashBefore r));
   ("observationHash", JStr (re_observationHash r)); ("previousRiskState", JStr (value (re_previousRiskState r)));
   ("evaluatedRiskState", JStr (value (re_evaluatedRiskState r))); ("freshness", JStr (re_freshness r));
   ("reasonCodes", JArr (map JStr (re_reasonCodes r))); ("syntheticCapitalMinor", money (re_syntheticCapitalMinor r));
   ("syntheticExposureMinor", money (re_syntheticExposureMinor r)); ("syntheticEquityMinor", money (re_syntheticEquityMinor r));
   ("utilizationBps", JNum (re_utilizationBps r)); ("evaluatorActorHash", JStr (re_evaluatorActorHash r));
   ("evaluatedAt", instant (re_evaluatedAt r)); ("riskPolicyVersion", JStr (re_riskPolicyVersion r))].

Definition evaluation_json (r : RiskEvaluation) : json :=
  JObj ([("tradingFacilityRiskEvaluationId", JStr (re_tradingFacilityRiskEvaluationId r));
         ("evaluationHash", JStr (re_evaluationHash r))] ++ evaluation_core r ++
        [("monotonicProtection", JBool (re_monotonicProtection r)); ("authorizing", JBool (re_authorizing r));
         ("callerEquityAccepted", JBool (re_callerEquityAccepted r)); ("automaticRecovery", JBool (re_automaticRecovery r))] ++
        flags_json (re_safety r) ++ [("schemaVersion", JStr (re_schemaVersion r))]).

(** ** Updates

    The parts of the [changes] that the operations spread over a facility. *)

Definition set_collateral (subjectCollateralMinor : Z) (subjectCollateralRecorded : bool) (f : Facility) : Facility :=
  MkFacility (fc_terms f) subjectCollateralMinor (fc_providerFundingMinor f) (fc_syntheticCapitalMinor f)
    (fc_syntheticExposureMinor f) (fc_syntheticEquityMinor f) (fc_openOrderCount f) subjectCollateralRecorded
    (fc_providerFundingRecorded f) (fc_lifecycleStatus f) (fc_riskState f) (fc_riskReasonCodes f)
    (fc_latestRiskEvaluationId f) (fc_latestRiskEvaluationHash f) (fc_activatedAt f) (fc_flattenedAt f) (fc_updatedAt
    f) (fc_version f) (fc_riskObservation f) (fc_stateHash f).
Definition set_funding (providerFundingMinor : Z) (providerFundingRecorded : bool) (f : Facility) : Facility :=
  MkFacility (fc_terms f) (fc_subjectCollateralMinor f) providerFundingMinor (fc_syntheticCapitalMinor f)
    (fc_syntheticExposureMinor f) (fc_syntheticEquityMinor f) (fc_openOrderCount f) (fc_subjectCollateralRecorded f)
    providerFundingRecorded (fc_lifecycleStatus f) (fc_riskState f) (fc_riskReasonCodes f) (fc_latestRiskEvaluationId
    f) (fc_latestRiskEvaluationHash f) (fc_activatedAt f) (fc_flattenedAt f) (fc_updatedAt f) (fc_version f)
    (fc_riskObservation f) (fc_stateHash f).
Definition set_capital (syntheticCapitalMinor : Z) (syntheticEquityMinor : Z) (f : Facility) : Facility :=
  MkFacility (fc_terms f) (fc_subjectCollateralMinor f) (fc_providerFundingMinor f) syntheticCapitalMinor
    (fc_syntheticExposureMinor f) syntheticEquityMinor (fc_openOrderCount f) (fc_subjectCollateralRecorded f)
    (fc_providerFundingRecorded f) (fc_lifecycleStatus f) (fc_riskState f) (fc_riskReasonCodes f)
    (fc_latestRiskEvaluationId f) (fc_latestRiskEvaluationHash f) (fc_activatedAt f) (fc_flattenedAt f) (fc_updatedAt
    f) (fc_version f) (fc_riskObservation f) (fc_stateHash f).
Definition set_orders (syntheticExposureMinor : Z) (syntheticEquityMinor : Z) (openOrderCount : Z) (f : Facility) : Facility :=
  MkFacility (fc_terms f) (fc_subjectCollateralMinor f) (fc_providerFundingMinor f) (fc_syntheticCapitalMinor f)
    syntheticExposureMinor syntheticEquityMinor openOrderCount (fc_subjectCollateralRecorded f)
    (fc_providerFundingRecorded f) (fc_lifecycleStatus f) (fc_riskState f) (fc_riskReasonCodes f)
    (fc_latestRiskEvaluationId f) (fc_latestRiskEvaluationHash f) (fc_activatedAt f) (fc_flattenedAt f) (fc_updatedAt
    f) (fc_version f) (fc_riskObservation f) (fc_stateHash f).
Definition set_lifecycle (lifecycleStatus : TradingFacilityLifecycleStatus) (f : Facility) : Facility :=
  MkFacility (fc_terms f) (fc_subjectCollateralMinor f) (fc_providerFundingMinor f) (fc_syntheticCapitalMinor f)
    (fc_syntheticExposureMinor f) (fc_syntheticEquityMinor f) (fc_openOrderCount f) (fc_subjectCollateralRecorded f)
    (fc_providerFundingRecorded f) lifecycleStatus (fc_riskState f) (fc_riskReasonCodes f) (fc_latestRiskEvaluationId
    f) (fc_latestRiskEvaluationHash f) (fc_activatedAt f) (fc_flattenedAt f) (fc_updatedAt f) (fc_version f)
    (fc_riskObservation f) (fc_stateHash f).
Definition set_risk (riskState : TradingFacilityRiskState) (f : Facility) : Facility :=
  MkFacility (fc_terms f) (fc_subjectCollateralMinor f) (fc_providerFundingMinor f) (fc_syntheticCapitalMinor f)
    (fc_syntheticExposureMinor f) (fc_syntheticEquityMinor f) (fc_openOrderCount f) (fc_subjectCollateralRecorded f)
    (fc_providerFundingRecorded f) (fc_lifecycleStatus f) riskState (fc_riskReasonCodes f) (fc_latestRiskEvaluationId
    f) (fc_latestRiskEvaluationHash f) (fc_activatedAt f) (fc_flattenedAt f) (fc_updatedAt f) (fc_version f)
    (fc_riskObservation f) (fc_stateHash f).
Definition set_reasons (riskReasonCodes : list string) (f : Facility) : Facility :=
  MkFacility (fc_terms f) (fc_subjectCollateralMinor f) (fc_providerFundingMinor f) (fc_syntheticCapitalMinor f)
    (fc_syntheticExposureMinor f) (fc_syntheticEquityMinor f) (fc_openOrderCount f) (fc_subjectCollateralRecorded f)
    (fc_providerFundingRecorded f) (fc_lifecycleStatus f) (fc_riskState f) riskReasonCodes (fc_latestRiskEvaluationId
    f) (fc_latestRiskEvaluationHash f) (fc_activatedAt f) (fc_flattenedAt f) (fc_updatedAt f) (fc_version f)
    (fc_riskObservation f) (fc_stateHash f).
Definition set_evaluation (latestRiskEvaluationId : option string) (latestRiskEvaluationHash : option string) (f : Facility) : Facility :=
  MkFacility (fc_terms f) (fc_subjectCollateralMinor f) (fc_providerFundingMinor f) (fc_syntheticCapitalMinor f)
    (fc_syntheticExposureMinor f) (fc_syntheticEquityMinor f) (fc_openOrderCount f) (fc_subjectCollateralRecorded f)
    (fc_providerFundingRecorded f) (fc_lifecycleStatus f) (fc_riskState f) (fc_riskReasonCodes f)
    latestRiskEvaluationId latestRiskEvaluationHash (fc_activatedAt f) (fc_flattenedAt f) (fc_updatedAt f) (fc_version
    f) (fc_riskObservation f) (fc_stateHash f).
Definition set_activatedAt (activatedAt : option Z) (f : Facility) : Facility :=
  MkFacility (fc_terms f) (fc_subjectCollateralMinor f) (fc_providerFundingMinor f) (fc_syntheticCapitalMinor f)
    (fc_syntheticExposureMinor f) (fc_syntheticEquityMinor f) (fc_openOrderCount f) (fc_subjectCollateralRecorded f)
    (fc_providerFundingRecorded f) (fc_lifecycleStatus f) (fc_riskState f) (fc_riskReasonCodes f)
    (fc_latestRiskEvaluationId f) (fc_latestRiskEvaluationHash f) activatedAt (fc_flattenedAt f) (fc_updatedAt f)
    (fc_version f) (fc_riskObservation f) (fc_stateHash f).
Definition set_flattenedAt (flattenedAt : option Z) (f : Facility) : Facility :=
  MkFacility (fc_terms f) (fc_subjectCollateralMinor f) (fc_providerFundingMinor f) (fc_syntheticCapitalMinor f)
    (fc_syntheticExposureMinor f) (fc_syntheticEquityMinor f) (fc_openOrderCount f) (fc_subjectCollateralRecorded f)
    (fc_providerFundingRecorded f) (fc_lifecycleStatus f) (fc_riskState f) (fc_riskReasonCodes f)
    (fc_latestRiskEvaluationId f) (fc_latestRiskEvaluationHash f) (fc_activatedAt f) flattenedAt (fc_updatedAt f)
    (fc_version f) (fc_riskObservation f) (fc_stateHash f).
Definition set_version (version : Z) (updatedAt : Z) (f : Facility) : Facility :=
  MkFacility (fc_terms f) (fc_subjectCollateralMinor f) (fc_providerFundingMinor f) (fc_syntheticCapitalMinor f)
    (fc_syntheticExposureMinor f) (fc_syntheticEquityMinor f) (fc_openOrderCount f) (fc_subjectCollateralRecorded f)
    (fc_providerFundingRecorded f) (fc_lifecycleStatus f) (fc_riskState f) (fc_riskReasonCodes f)
    (fc_latestRiskEvaluationId f) (fc_latestRiskEvaluationHash f) (fc_activatedAt f) (fc_flattenedAt f) updatedAt
    version (fc_riskObservation f) (fc_stateHash f).
Definition set_observation (riskObservation : RiskObservation) (f : Facility) : Facility :=
  MkFacility (fc_terms f) (fc_subjectCollateralMinor f) (fc_providerFundingMinor f) (fc_syntheticCapitalMinor f)
    (fc_syntheticExposureMinor f) (fc_syntheticEquityMinor f) (fc_openOrderCount f) (fc_subjectCollateralRecorded f)
    (fc_providerFundingRecorded f) (fc_lifecycleStatus f) (fc_riskState f) (fc_riskReasonCodes f)
    (fc_latestRiskEvaluationId f) (fc_latestRiskEvaluationHash f) (fc_activatedAt f) (fc_flattenedAt f) (fc_updatedAt
    f) (fc_version f) riskObservation (fc_stateHash f).
Definition set_stateHash (stateHash : string) (f : Facility) : Facility :=
  MkFacility (fc_terms f) (fc_subjectCollateralMinor f) (fc_providerFundingMinor f) (fc_syntheticCapitalMinor f)
    (fc_syntheticExposureMinor f) (fc_syntheticEquityMinor f) (fc_openOrderCount f) (fc_subjectCollateralRecorded f)
    (fc_providerFundingRecorded f) (fc_lifecycleStatus f) (fc_riskState f) (fc_riskReasonCodes f)
    (fc_latestRiskEvaluationId f) (fc_latestRiskEvaluationHash f) (fc_activatedAt f) (fc_flattenedAt f) (fc_updatedAt
    f) (fc_version f) (fc_riskObservation f) stateHash.
Definition set_order (orderStateHash : string) (status : TradingOrderIntentStatus) (cancelReasonCode : option string) (canceledAt : option Z) (flattenedAt : option Z) (version : Z) (updatedAt : Z) (o : OrderIntent) : OrderIntent :=
  MkOrderIntent (oi_tradingOrderIntentId o) (oi_orderIntentHash o) orderStateHash (oi_facilityId o) (oi_facilityHash o)
    (oi_subjectId o) (oi_principalId o) (oi_submittedByActorHash o) (oi_direction o) (oi_syntheticNotionalMinor o)
    (oi_createdAt o) (oi_orderPolicyVersion o) status cancelReasonCode canceledAt flattenedAt version updatedAt
    (oi_serverRiskEvaluated o) (oi_rawVenueActionAccepted o) (oi_safety o) (oi_schemaVersion o).

Section facility.
Context `{Platform}.

Definition withFacilityStateHash (f : Facility) : Facility :=
  set_stateHash (hashId "trading_facility_state" (JObj (facilityStateCore f))) f.

Definition riskObservation (facilityId : string) (facilityVersion capital exposure equity openOrderCount : Z) (observedAt : string)
    : RiskObservation :=
  let observation hash := MkRiskObservation hash facilityId facilityVersion capital exposure equity openOrderCount observedAt
    "local_synthetic_facility" true true false "trading_facility_risk_observation.v1" in
  observation (hashId "trading_facility_risk_observation" (JObj (observation_core (observation "")))).

Definition refreshRiskObservation (f : Facility) (now : Z) : Facility :=
  set_observation (riskObservation (fy_tradingFacilityId (fc_terms f)) (fc_version f) (fc_syntheticCapitalMinor f)
    (fc_syntheticExposureMinor f) (fc_syntheticEquityMinor f) (fc_openOrderCount f) (toISOString now)) f.

Definition has_flag (f : flags) (k : string) (b : bool) : bool := bool_decide (map_get k f = Some b).

Definition assertBilateralProposal (p : MatchProposal) (now : Z) (enforceDeadline : bool) : result unit :=
  unavailable_if (negb (String.eqb (mp_schemaVersion p) TRADING_MATCH_PROPOSAL_SCHEMA_VERSION) ||
      negb (bool_decide (mp_status p = TradingMatchProposalStatus_BILATERALLY_ACCEPTED)) || negb (mp_version p =? 3) ||
      match mp_providerAcceptance p with None => true | Some _ => false end ||
      match mp_subjectAcceptance p with None => true | Some _ => false end || negb (mp_immutableTerms p) ||
      negb (mp_bilateralAcceptanceRequired p) || negb (has_flag (mp_safety p) "sandboxOnly" true) ||
      negb (has_flag (mp_safety p) "syntheticOnly" true) || negb (has_flag (mp_safety p) "productionAuthority" false) ||
      negb (has_flag (mp_safety p) "fundsAuthority" false) || negb (has_flag (mp_safety p) "realFunding" false) ||
      negb (has_flag (mp_safety p) "realPricing" false)) "A bilaterally accepted no-funds Match Proposal is required" ;;
  hash INVALID_FACILITY "proposalHash" (mp_proposalHash p) ;;
  hash INVALID_FACILITY "termsHash" (tt_termsHash (mp_terms p)) ;;
  if enforceDeadline then
    expiresAt ← date INVALID_FACILITY "expiresAt" (mp_expiresAt p);
    unavailable_if (expiresAt <=? now) "Match Proposal activation window expired"
  else Ok ().

Definition assertCanonicalObligation (o : Loan) (p : MatchProposal) (requireExecuted : bool) : result unit :=
  let t := ln_terms o in
  unavailable_if (negb (String.eqb (tm_schemaVersion t) "obligation.v2") || negb (String.eqb (tm_subjectId t) (mp_subjectId p)) ||
      negb (String.eqb (tm_principalId t) (mp_principalId p)) || negb (String.eqb (tm_assetId t) (tt_assetId (mp_terms p))) ||
      negb (tm_originalPrincipalMinor t =? tt_syntheticPrincipalMinor (mp_terms p)) || negb (tm_sandboxOnly t) ||
      tm_productionFundsMoved t) "Canonical Obligation does not match the accepted proposal" ;;
  identifier INVALID_FACILITY "obligationId" (tm_obligationId t) ;;
  hash INVALID_FACILITY "obligationHash" (tm_obligationHash t) ;;
  date INVALID_FACILITY "maturityAt" (sc_maturityAt (ln_schedule o)) ;;
  unavailable_if (requireExecuted &&
      (negb (bool_decide (ex_executionStatus (ln_execution o) = ObligationExecutionStatus_EXECUTED)) ||
       negb (bool_decide (ln_status o = ObligationStatus_ACTIVE)) ||
       negb (is_flag (ex_withdrawable (ln_execution o)) false) || negb (bl_totalRepaidMinor (ln_balances o) =? 0) ||
       negb (bl_outstandingPrincipalMinor (ln_balances o) =? tm_originalPrincipalMinor t)))
    "Canonical Obligation must be active, unrepaid, and non-withdrawable".

Definition assertFacility (f : Facility) : result unit :=
  let t := fc_terms f in let o := fc_riskObservation f in
  unavailable_if (negb (String.eqb (fy_schemaVersion t) TRADING_FACILITY_SCHEMA_VERSION) || negb (isSafeInteger (fc_version f)) ||
      (fc_version f <? 1) || negb (isSafeInteger (fc_openOrderCount f)) || (fc_openOrderCount f <? 0) ||
      (MAX_OPEN_ORDERS <? fc_openOrderCount f) || negb (fy_linkedCanonicalObligation t) || fy_secondLedgerCreated t ||
      fy_callerEquityAccepted t) FACILITY_UNAVAILABLE_TEXT ;;
  identifier INVALID_FACILITY "tradingFacilityId" (fy_tradingFacilityId t) ;;
  hash INVALID_FACILITY "facilityHash" (fy_facilityHash t) ;;
  hash INVALID_FACILITY "stateHash" (fc_stateHash f) ;;
  nonNegativeMinor INVALID_FACILITY "subjectCollateralMinor" (fc_subjectCollateralMinor f) ;;
  nonNegativeMinor INVALID_FACILITY "providerFundingMinor" (fc_providerFundingMinor f) ;;
  nonNegativeMinor INVALID_FACILITY "syntheticCapitalMinor" (fc_syntheticCapitalMinor f) ;;
  nonNegativeMinor INVALID_FACILITY "syntheticExposureMinor" (fc_syntheticExposureMinor f) ;;
  nonNegativeMinor INVALID_FACILITY "syntheticEquityMinor" (fc_syntheticEquityMinor f) ;;
  assertCommonSafety (fy_safety t) ;;
  unavailable_if (negb (String.eqb (hashId "trading_facility" (JObj (facilityCore t))) (fy_facilityHash t)))
    "Facility immutable binding changed" ;;
  unavailable_if (negb (String.eqb (hashId "trading_facility_state" (JObj (facilityStateCore f))) (fc_stateHash f)))
    "Facility state hash changed" ;;
  unavailable_if (negb (String.eqb (ob_schemaVersion o) "trading_facility_risk_observation.v1") ||
      negb (String.eqb (ob_facilityId o) (fy_tradingFacilityId t)) || negb (ob_facilityVersion o =? fc_version f) ||
      negb (ob_syntheticCapitalMinor o =? fc_syntheticCapitalMinor f) ||
      negb (ob_syntheticExposureMinor o =? fc_syntheticExposureMinor f) ||
      negb (ob_syntheticEquityMinor o =? fc_syntheticEquityMinor f) || negb (ob_openOrderCount o =? fc_openOrderCount f) ||
      negb (String.eqb (ob_source o) "local_synthetic_facility") || negb (ob_complete o) || negb (ob_reconciled o) ||
      ob_callerEquityAccepted o ||
      negb (String.eqb (hashId "trading_facility_risk_observation" (JObj (observation_core o))) (ob_observationHash o)))
    "Facility risk observation is incomplete".

Definition assertExpectedFacility (f : Facility) (expectedStateHash : string) (expectedVersion : Z) : result unit :=
  assertFacility f ;;
  hash INVALID_FACILITY "expectedStateHash" expectedStateHash ;;
  exactVersion "Facility" (fc_version f) expectedVersion ;;
  unavailable_if (negb (String.eqb (fc_stateHash f) expectedStateHash)) "Facility state changed".

Definition assertFacilityDeadline (f : Facility) (now : Z) (activation : bool) : result unit :=
  deadline ← date INVALID_FACILITY "facilityDeadline"
    (if activation then fy_activationDeadlineAt (fc_terms f) else fy_maturityAt (fc_terms f));
  unavailable_if (deadline <=? now) "Facility deadline elapsed".

(** [changed] is the facility with the changes spread over it. *)
Definition updateFacilityState (facility changed : Facility) (now : Z) : result Facility :=
  let next := set_version (fc_version facility + 1) now changed in
  let next := withFacilityStateHash (refreshRiskObservation next now) in
  assertNoRawPiiReference (facility_json next) ;;
  assertFacility next ;;
  Ok next.

(** ** Order intents *)

Definition assertOrderIntent (o : OrderIntent) : result unit :=
  unavailable_if (negb (String.eqb (oi_schemaVersion o) TRADING_ORDER_INTENT_SCHEMA_VERSION) || negb (isSafeInteger (oi_version o)) ||
      (oi_version o <? 1) || negb (oi_serverRiskEvaluated o) || oi_rawVenueActionAccepted o) "Order Intent is unavailable" ;;
  identifier INVALID_FACILITY "tradingOrderIntentId" (oi_tradingOrderIntentId o) ;;
  hash INVALID_FACILITY "orderIntentHash" (oi_orderIntentHash o) ;;
  hash INVALID_FACILITY "orderStateHash" (oi_orderStateHash o) ;;
  storedPositiveMinor INVALID_FACILITY "syntheticNotionalMinor" (oi_syntheticNotionalMinor o) ;;
  assertCommonSafety (oi_safety o) ;;
  unavailable_if (negb (String.eqb (hashId "trading_order_intent" (JObj (order_immutable_core o))) (oi_orderIntentHash o)) ||
      negb (String.eqb (hashId "trading_order_intent_state" (JObj (order_state_core o))) (oi_orderStateHash o)))
    "Order Intent binding changed".

Definition withOrderStateHash (o : OrderIntent) : OrderIntent :=
  set_order (hashId "trading_order_intent_state" (JObj (order_state_core o))) (oi_status o) (oi_cancelReasonCode o)
    (oi_canceledAt o) (oi_flattenedAt o) (oi_version o) (oi_updatedAt o) o.

Definition updateOrderState (o : OrderIntent) (status : TradingOrderIntentStatus) (cancelReasonCode : string)
    (canceledAt flattenedAt : option Z) (now : Z) : result OrderIntent :=
  let next := withOrderStateHash
    (set_order (oi_orderStateHash o) status (Some cancelReasonCode) canceledAt flattenedAt (oi_version o + 1) now o) in
  assertNoRawPiiReference (order_json next) ;;
  assertOrderIntent next ;;
  Ok next.

Definition actorHash (actorId : string) : result string :=
  identifier INVALID_FACILITY "actorId" actorId ;;
  Ok (hashId "actor" (JStr actorId)).

(** ** Creation, contributions and activation *)

Definition createTradingFacility (p : MatchProposal) (o : Loan) (createdByActorId : string) (now : Z) : M Sys Facility :=
  lift (assertBilateralProposal p now true) ;;
  lift (assertCanonicalObligation o p false) ;;
  creatorHash ← lift (actorHash createdByActorId);
  lift (unavailable_if (negb (String.eqb creatorHash (mp_subjectActorHash p))) FACILITY_UNAVAILABLE_TEXT) ;;
  let principal := tt_syntheticPrincipalMinor (mp_terms p) in
  lift (storedPositiveMinor INVALID_FACILITY "syntheticPrincipalMinor" principal) ;;
  let requiredSubjectCollateral := Z.quot (principal * SUBJECT_COLLATERAL_BPS) BPS_DENOMINATOR in
  let requiredSubjectCollateralMinor := if 0 <? requiredSubjectCollateral then requiredSubjectCollateral else 1 in
  tradingFacilityId ← createOperationalId "trading_facility";
  let terms hash := MkFacilityTerms tradingFacilityId hash (mp_tradingMatchProposalId p) (mp_proposalHash p) (mp_version p)
    (tm_obligationId (ln_terms o)) (tm_obligationHash (ln_terms o)) (mp_subjectId p) (mp_principalId p) (mp_providerId p)
    (mp_subjectActorHash p) (mp_providerActorHash p) (tt_templateType (mp_terms p)) (tt_termsHash (mp_terms p))
    (tt_assetId (mp_terms p)) principal requiredSubjectCollateralMinor principal (mp_expiresAt p)
    (sc_maturityAt (ln_schedule o)) true false false creatorHash now TRADING_FACILITY_POLICY_VERSION
    TRADING_SHADOW_RISK_POLICY_VERSION commonSafety TRADING_FACILITY_SCHEMA_VERSION in
  let facility := MkFacility (terms (hashId "trading_facility" (JObj (facilityCore (terms ""))))) 0 0 0 0 0 0 false false
    TradingFacilityLifecycleStatus_AWAITING_CONTRIBUTIONS TradingFacilityRiskState_NORMAL ["synthetic_facility_created"] None None
    None None now 1 (riskObservation "" 0 0 0 0 0 "") "" in
  let completed := withFacilityStateHash (refreshRiskObservation facility now) in
  lift (assertNoRawPiiReference (facility_json completed)) ;;
  lift (assertFacility completed) ;;
  mret completed.

(** [lifecycleStatus] is neither active nor flattened. *)
Definition not_yet_active (f : Facility) : bool :=
  negb (is_lifecycle (fc_lifecycleStatus f) TradingFacilityLifecycleStatus_ACTIVE) &&
  negb (is_lifecycle (fc_lifecycleStatus f) TradingFacilityLifecycleStatus_FLATTENED).

Definition contributeTradingSubjectCollateral (f : Facility) (contributedByActorId amountMinor expectedStateHash : string)
    (expectedVersion now : Z) : result Facility :=
  assertExpectedFacility f expectedStateHash expectedVersion ;;
  assertFacilityDeadline f now true ;;
  actor ← actorHash contributedByActorId;
  unavailable_if (negb (String.eqb actor (fy_subjectActorHash (fc_terms f))) || fc_subjectCollateralRecorded f ||
                  negb (not_yet_active f)) FACILITY_UNAVAILABLE_TEXT ;;
  amount ← positiveMinor INVALID_FACILITY "amountMinor" amountMinor;
  unavailable_if (negb (amount =? fy_requiredSubjectCollateralMinor (fc_terms f)))
    "Subject collateral must match the exact synthetic requirement" ;;
  let capital := amount + fc_providerFundingMinor f in
  updateFacilityState f
    (set_collateral amount true (set_capital capital capital
      (set_lifecycle (facilityLifecycle true (fc_providerFundingRecorded f))
        (set_reasons ["synthetic_subject_collateral_recorded"] f)))) now.

Definition recordTradingProviderFunding (f : Facility) (fundedByActorId amountMinor expectedStateHash : string)
    (expectedVersion now : Z) : result Facility :=
  assertExpectedFacility f expectedStateHash expectedVersion ;;
  assertFacilityDeadline f now true ;;
  actor ← actorHash fundedByActorId;
  unavailable_if (negb (String.eqb actor (fy_providerActorHash (fc_terms f))) || fc_providerFundingRecorded f ||
                  negb (not_yet_active f)) FACILITY_UNAVAILABLE_TEXT ;;
  amount ← positiveMinor INVALID_FACILITY "amountMinor" amountMinor;
  unavailable_if (negb (amount =? fy_requiredProviderFundingMinor (fc_terms f)))
    "Provider funding must match the exact synthetic requirement" ;;
  let capital := amount + fc_subjectCollateralMinor f in
  updateFacilityState f
    (set_funding amount true (set_capital capital capital
      (set_lifecycle (facilityLifecycle (fc_subjectCollateralRecorded f) true)
        (set_reasons ["synthetic_provider_funding_recorded"] f)))) now.

Definition activateTradingFacility (f : Facility) (p : MatchProposal) (o : Loan) (activatedByActorId expectedStateHash : string)
    (expectedVersion now : Z) : result Facility :=
  assertExpectedFacility f expectedStateHash expectedVersion ;;
  assertFacilityDeadline f now true ;;
  assertBilateralProposal p now false ;;
  assertCanonicalObligation o p true ;;
  let t := fc_terms f in
  let prerequisites :=
    is_lifecycle (fc_lifecycleStatus f) TradingFacilityLifecycleStatus_READY_FOR_ACTIVATION &&
    (fc_subjectCollateralMinor f =? fy_requiredSubjectCollateralMinor t) &&
    (fc_providerFundingMinor f =? fy_requiredProviderFundingMinor t) &&
    String.eqb (fy_matchProposalId t) (mp_tradingMatchProposalId p) && String.eqb (fy_proposalHash t) (mp_proposalHash p) &&
    String.eqb (fy_obligationId t) (tm_obligationId (ln_terms o)) &&
    String.eqb (fy_obligationHash t) (tm_obligationHash (ln_terms o)) in
  unavailable_if (negb prerequisites) "Facility activation prerequisites are not current" ;;
  actor ← actorHash activatedByActorId;
  unavailable_if (negb (String.eqb actor (fy_subjectActorHash t))) "Facility activation prerequisites are not current" ;;
  updateFacilityState f
    (set_lifecycle TradingFacilityLifecycleStatus_ACTIVE (set_risk TradingFacilityRiskState_NORMAL
      (set_reasons ["synthetic_facility_activated"] (set_activatedAt (Some now) f)))) now.

(** ** Orders *)

Definition submitTradingOrderIntent (f : Facility) (submittedByActorId : string) (direction : TradingOrderDirection)
    (syntheticNotionalMinor expectedStateHash : string) (expectedVersion now : Z) : M Sys (Facility * OrderIntent) :=
  lift (assertExpectedFacility f expectedStateHash expectedVersion) ;;
  lift (assertFacilityDeadline f now false) ;;
  lift (unavailable_if (negb (is_lifecycle (fc_lifecycleStatus f) TradingFacilityLifecycleStatus_ACTIVE) ||
      negb (is_risk (fc_riskState f) [TradingFacilityRiskState_NORMAL; TradingFacilityRiskState_WARNING]))
    "Facility does not admit new synthetic risk") ;;
  actor ← lift (actorHash submittedByActorId);
  lift (unavailable_if (negb (String.eqb actor (fy_subjectActorHash (fc_terms f))) || (MAX_OPEN_ORDERS <=? fc_openOrderCount f))
    "Facility does not admit new synthetic risk") ;;
  notional ← lift (positiveMinor INVALID_FACILITY "syntheticNotionalMinor" syntheticNotionalMinor);
  lift (unavailable_if (fc_syntheticEquityMinor f <? notional) "Synthetic notional exceeds Facility equity") ;;
  tradingOrderIntentId ← createOperationalId "trading_order_intent";
  let order intentHash := MkOrderIntent tradingOrderIntentId intentHash "" (fy_tradingFacilityId (fc_terms f))
    (fy_facilityHash (fc_terms f)) (fy_subjectId (fc_terms f)) (fy_principalId (fc_terms f)) actor direction notional now
    TRADING_FACILITY_POLICY_VERSION TradingOrderIntentStatus_OPEN None None None 1 now true false commonSafety
    TRADING_ORDER_INTENT_SCHEMA_VERSION in
  let orderIntent := withOrderStateHash (order (hashId "trading_order_intent" (JObj (order_immutable_core (order ""))))) in
  lift (assertNoRawPiiReference (order_json orderIntent)) ;;
  lift (assertOrderIntent orderIntent) ;;
  let exposure := fc_syntheticExposureMinor f + notional in
  updated ← lift (updateFacilityState f
    (set_orders exposure (fc_syntheticCapitalMinor f - exposure) (fc_openOrderCount f + 1)
      (set_reasons ["synthetic_order_intent_open"] f)) now);
  mret (updated, orderIntent).

Definition cancelTradingOrderIntent (f : Facility) (o : OrderIntent) (canceledByActorId expectedFacilityStateHash : string)
    (expectedFacilityVersion : Z) (expectedOrderIntentHash : string) (expectedOrderVersion now : Z)
    : result (Facility * OrderIntent) :=
  assertExpectedFacility f expectedFacilityStateHash expectedFacilityVersion ;;
  assertOrderIntent o ;;
  hash INVALID_FACILITY "expectedOrderIntentHash" expectedOrderIntentHash ;;
  exactVersion "Order Intent" (oi_version o) expectedOrderVersion ;;
  unavailable_if (negb (String.eqb expectedOrderIntentHash (oi_orderIntentHash o)) ||
      negb (bool_decide (oi_status o = TradingOrderIntentStatus_OPEN)) ||
      negb (String.eqb (oi_facilityId o) (fy_tradingFacilityId (fc_terms f)))) FACILITY_UNAVAILABLE_TEXT ;;
  actor ← actorHash canceledByActorId;
  unavailable_if (negb (String.eqb actor (fy_subjectActorHash (fc_terms f)))) FACILITY_UNAVAILABLE_TEXT ;;
  let exposure := fc_syntheticExposureMinor f - oi_syntheticNotionalMinor o in
  unavailable_if (exposure <? 0) "Order exposure exceeds Facility exposure" ;;
  updatedOrder ← updateOrderState o TradingOrderIntentStatus_CANCELED "subject_canceled_synthetic_intent" (Some now)
    (oi_flattenedAt o) now;
  updatedFacility ← updateFacilityState f
    (set_orders exposure (fc_syntheticCapitalMinor f - exposure) (fc_openOrderCount f - 1)
      (set_reasons ["synthetic_order_intent_canceled"] f)) now;
  Ok (updatedFacility, updatedOrder).

(** ** Risk *)

(** [targetState], [freshness] and [reasonCodes] *)
Definition riskTarget (f : Facility) (now : Z) : result (TradingFacilityRiskState * string * list string) :=
  observedAt ← date INVALID_FACILITY "riskObservation.observedAt" (ob_observedAt (fc_riskObservation f));
  if (now <? observedAt) || (LOCAL_OBSERVATION_MAX_AGE_MS <? now - observedAt)
    then Ok (TradingFacilityRiskState_REDUCE_ONLY, "stale", ["risk_observation_stale"]) else
  let capital := fc_syntheticCapitalMinor f in
  let exposure := fc_syntheticExposureMinor f in
  if capital <=? 0 then Ok (TradingFacilityRiskState_REDUCE_ONLY, "unknown", ["synthetic_capital_unavailable"]) else
  let utilizationBps := Z.quot (exposure * BPS_DENOMINATOR) capital in
  Ok (if 10000 <=? utilizationBps then (TradingFacilityRiskState_FLATTEN, "fresh", ["synthetic_exposure_at_cap"])
      else if 7500 <? utilizationBps then (TradingFacilityRiskState_REDUCE_ONLY, "fresh", ["synthetic_exposure_high"])
      else if 5000 <? utilizationBps then (TradingFacilityRiskState_WARNING, "fresh", ["synthetic_exposure_elevated"])
      else (TradingFacilityRiskState_NORMAL, "fresh", ["synthetic_exposure_within_envelope"])).

Definition evaluateTradingFacilityRisk (f : Facility) (evaluatedByActorId expectedStateHash : string) (expectedVersion now : Z)
    : M Sys (Facility * RiskEvaluation) :=
  lift (assertExpectedFacility f expectedStateHash expectedVersion) ;;
  lift (unavailable_if (negb (is_lifecycle (fc_lifecycleStatus f) TradingFacilityLifecycleStatus_ACTIVE))
    "Only an active Facility can be risk-evaluated") ;;
  evaluatorActorHash ← lift (actorHash evaluatedByActorId);
  target ← lift (riskTarget f now);
  let '(targetState, freshness, reasonCodes) := (target : TradingFacilityRiskState * string * list string) in
  let nextRiskState := mostRestrictiveRiskState (fc_riskState f) targetState in
  let utilizationBps := if fc_syntheticCapitalMinor f =? 0 then 0
                        else Z.quot (fc_syntheticExposureMinor f * BPS_DENOMINATOR) (fc_syntheticCapitalMinor f) in
  id ← createOperationalId "trading_facility_risk_evaluation";
  let evaluation hash := MkRiskEvaluation id hash (fy_tradingFacilityId (fc_terms f)) (fy_facilityHash (fc_terms f))
    (fc_version f) (fc_stateHash f) (ob_observationHash (fc_riskObservation f)) (fc_riskState f) nextRiskState freshness reasonCodes
    (fc_syntheticCapitalMinor f) (fc_syntheticExposureMinor f) (fc_syntheticEquityMinor f) utilizationBps evaluatorActorHash now
    TRADING_SHADOW_RISK_POLICY_VERSION true false false false commonSafety TRADING_FACILITY_RISK_EVALUATION_SCHEMA_VERSION in
  let evaluated := evaluation (hashId "trading_facility_risk_evaluation" (JObj (evaluation_core (evaluation "")))) in
  lift (assertNoRawPiiReference (evaluation_json evaluated)) ;;
  updated ← lift (updateFacilityState f
    (set_risk nextRiskState (set_reasons reasonCodes (set_evaluation (Some id) (Some (re_evaluationHash evaluated)) f))) now);
  mret (updated, evaluated).

Definition flattening : list TradingFacilityRiskState := [TradingFacilityRiskState_FLATTEN; TradingFacilityRiskState_SETTLEMENT].

Definition pauseTradingFacilityNewRisk (f : Facility) (pausedByActorId reasonCode expectedStateHash : string) (expectedVersion now : Z)
    : result Facility :=
  assertExpectedFacility f expectedStateHash expectedVersion ;;
  identifier INVALID_FACILITY "reasonCode" reasonCode ;;
  actorHash pausedByActorId ;;
  unavailable_if (negb (is_lifecycle (fc_lifecycleStatus f) TradingFacilityLifecycleStatus_ACTIVE) ||
                  is_risk (fc_riskState f) flattening) FACILITY_UNAVAILABLE_TEXT ;;
  updateFacilityState f
    (set_risk (mostRestrictiveRiskState (fc_riskState f) TradingFacilityRiskState_REDUCE_ONLY)
      (set_reasons ["protective_pause:" +:+ reasonCode] f)) now.

(** The callback of [openOrderIntents.map], with the ids seen so far; it returns the
    flattened orders and their total notional. *)
Fixpoint flatten_orders (facilityId reasonCode : string) (now : Z) (seen : list string) (l : list OrderIntent)
    : result (list OrderIntent * Z) :=
  match l with
  | [] => Ok ([], 0)
  | o :: l =>
      assertOrderIntent o ;;
      unavailable_if (negb (String.eqb (oi_facilityId o) facilityId) || negb (bool_decide (oi_status o = TradingOrderIntentStatus_OPEN)) ||
                      bool_decide (oi_tradingOrderIntentId o ∈ seen)) "Open Order Intent set is inconsistent" ;;
      o' ← updateOrderState o TradingOrderIntentStatus_FLATTENED ("protective_flatten:" +:+ reasonCode) (oi_canceledAt o)
        (Some now) now;
      rest ← flatten_orders facilityId reasonCode now (oi_tradingOrderIntentId o :: seen) l;
      Ok (o' :: rest.1, oi_syntheticNotionalMinor o + rest.2)
  end.

Definition flattenTradingFacility (f : Facility) (openOrderIntents : list OrderIntent)
    (flattenedByActorId reasonCode expectedStateHash : string) (expectedVersion now : Z) : result (Facility * list OrderIntent) :=
  assertExpectedFacility f expectedStateHash expectedVersion ;;
  identifier INVALID_FACILITY "reasonCode" reasonCode ;;
  actorHash flattenedByActorId ;;
  unavailable_if (negb (is_lifecycle (fc_lifecycleStatus f) TradingFacilityLifecycleStatus_ACTIVE) ||
      is_risk (fc_riskState f) flattening || negb (Z.of_nat (length openOrderIntents) =? fc_openOrderCount f) ||
      (MAX_OPEN_ORDERS <? Z.of_nat (length openOrderIntents))) FACILITY_UNAVAILABLE_TEXT ;;
  flattened ← flatten_orders (fy_tradingFacilityId (fc_terms f)) reasonCode now [] openOrderIntents;
  unavailable_if (negb (flattened.2 =? fc_syntheticExposureMinor f)) "Open Order Intent exposure does not reconcile" ;;
  updatedFacility ← updateFacilityState f
    (set_lifecycle TradingFacilityLifecycleStatus_FLATTENED (set_risk TradingFacilityRiskState_FLATTEN
      (set_reasons ["protective_flatten:" +:+ reasonCode] (set_orders 0 (fc_syntheticCapitalMinor f) 0
        (set_flattenedAt (Some now) f))))) now;
  Ok (updatedFacility, flattened.1).

Definition settleTradingFacility (f : Facility) (settledByActorId expectedStateHash : string) (expectedVersion now : Z)
    : result Facility :=
  assertExpectedFacility f expectedStateHash expectedVersion ;;
  actorHash settledByActorId ;;
  unavailable_if (negb (is_lifecycle (fc_lifecycleStatus f) TradingFacilityLifecycleStatus_FLATTENED) ||
      negb (is_risk (fc_riskState f) [TradingFacilityRiskState_FLATTEN]) || negb (fc_openOrderCount f =? 0) ||
      negb (fc_syntheticExposureMinor f =? 0) || negb (fc_syntheticEquityMinor f =? fc_syntheticCapitalMinor f) ||
      negb (fc_subjectCollateralRecorded f) || negb (fc_providerFundingRecorded f) ||
      negb (fc_subjectCollateralMinor f + fc_providerFundingMinor f =? fc_syntheticCapitalMinor f))
    "Facility is not ready for deterministic settlement" ;;
  updateFacilityState f
    (set_risk TradingFacilityRiskState_SETTLEMENT (set_reasons ["synthetic_settlement_finalized"] f)) now.

(** ** Views *)

Definition tradingFacilityView (f : Facility) : result Facility := assertFacility f ;; Ok f.
Definition tradingOrderIntentView (o : OrderIntent) : result OrderIntent := assertOrderIntent o ;; Ok o.
Definition tradingFacilityRiskEvaluationView (r : RiskEvaluation) : result RiskEvaluation :=
  unavailable_if (negb (String.eqb (re_schemaVersion r) TRADING_FACILITY_RISK_EVALUATION_SCHEMA_VERSION) ||
      negb (re_monotonicProtection r) || re_authorizing r || re_callerEquityAccepted r || re_automaticRecovery r)
    "Risk evaluation is unavailable" ;;
  hash INVALID_FACILITY "evaluationHash" (re_evaluationHash r) ;;
  assertCommonSafety (re_safety r) ;;
  Ok r.
End facility.
