(* ===== verification/Settlement.v ===== *)
(** * Trading capital: closing a facility

    src/packages/domain/src/trading-capital-settlement.js: the request to close a
    flattened facility, the settlement that returns both contributions, and the
    performance proof issued on it. *)

From stdpp Require Import base tactics sets relations gmap numbers strings list.
From S2P Require Import Prelude Js Enums EventStore Service Mandate Loan Servicing Trading Matching Facility.
Local Open Scope string_scope.
Local Open Scope Z_scope.

Definition TRADING_FACILITY_CLOSE_REQUEST_SCHEMA_VERSION : string := "trading_facility_close_request.v1".
Definition TRADING_SETTLEMENT_SCHEMA_VERSION : string := "trading_settlement.v1".
Definition TRADING_PERFORMANCE_PROOF_SCHEMA_VERSION : string := "trading_performance_proof.v1".
Definition TRADING_SETTLEMENT_POLICY_VERSION : string := "trading_no_funds_conservation_settlement_policy.v1".
Definition TRADING_PERFORMANCE_PROOF_POLICY_VERSION : string := "trading_performance_proof_policy.v1".
Definition PROOF_LIFETIME_MS : Z := 7 * 24 * 60 * 60 * 1000.

(** ** Records *)

Record CloseRequest := MkCloseRequest {
  cq_tradingFacilityCloseRequestId : string; cq_requestHash : string; cq_facilityId : string; cq_facilityHash : string;
  cq_facilityStateHash : string; cq_facilityVersion : Z; cq_obligationId : string; cq_obligationHash : string;
  cq_subjectId : string; cq_principalId : string; cq_providerId : string; cq_subjectActorHash : string;
  cq_providerActorHash : string; cq_requestedByActorHash : string; cq_reasonCode : string; cq_status : string;
  cq_immutable : bool; cq_requestedAt : string; cq_version : Z; cq_closePolicyVersion : string; cq_safety : flags;
  cq_schemaVersion : string }.

Record Settlement := MkSettlement {
  st_tradingSettlementId : string; st_settlementHash : string; st_closeRequestId : string; st_closeRequestHash : string;
  st_facilityId : string; st_facilityHash : string; st_facilityStateHashBefore : string; st_facilityVersionBefore : Z;
  st_facilityStateHashAfter : string; st_facilityVersionAfter : Z; st_obligationId : string; st_obligationHash : string;
  st_subjectId : string; st_principalId : string; st_providerId : string; st_assetId : string;
  st_finalSyntheticEquityMinor : Z; st_subjectContributionMinor : Z; st_providerContributionMinor : Z;
  st_subjectReturnMinor : Z; st_providerPrincipalReturnMinor : Z; st_realizedPnlMinor : Z; st_venueCostMinor : Z;
  st_closingCostMinor : Z; st_fixedReturnMinor : Z; st_performanceParticipationMinor : Z; st_ipoOneFeeMinor : Z;
  st_totalAllocatedMinor : Z; st_waterfallBalanced : bool; st_zeroExposureVerified : bool;
  st_canonicalObligationUnchanged : bool; st_canonicalLedgerMutationCreated : bool; st_secondLedgerCreated : bool;
  st_officialSettlement : bool; st_status : string; st_version : Z; st_settledByActorHash : string; st_settledAt : string;
  st_settlementPolicyVersion : string; st_safety : flags; st_schemaVersion : string }.

(** The claims of a proof; the amounts are those of the settlement. *)
Record Claims := MkClaims {
  pc_facilityFinalized : bool; pc_zeroExposure : bool; pc_contributionConservation : bool; pc_canonicalObligationLinked : bool;
  pc_realProfitClaimed : bool; pc_finalSyntheticEquityMinor : Z; pc_subjectReturnMinor : Z;
  pc_providerPrincipalReturnMinor : Z; pc_realizedPnlMinor : Z; pc_ipoOneFeeMinor : Z }.

Record PerformanceProof := MkPerformanceProof {
  pp_tradingPerformanceProofId : string; pp_proofHash : string; pp_settlementId : string; pp_settlementHash : string;
  pp_facilityId : string; pp_facilityHash : string; pp_obligationId : string; pp_obligationHash : string; pp_subjectId : string;
  pp_principalId : string; pp_providerId : string; pp_claims : Claims; pp_claimSetHash : string; pp_status : string;
  pp_proofVersion : Z; pp_revocable : bool; pp_revoked : bool; pp_externalVerificationAvailable : bool; pp_officialReport : bool;
  pp_universalScore : bool; pp_strategyDataIncluded : bool; pp_rawHistoryIncluded : bool; pp_issuedByActorHash : string;
  pp_issuedAt : string; pp_expiresAt : string; pp_proofPolicyVersion : string; pp_safety : flags; pp_schemaVersion : string }.

(** ** Checks *)

Definition INVALID_SETTLEMENT : string := "invalid_trading_settlement".
Definition UNAVAILABLE_SETTLEMENT : string := "trading_settlement_unavailable".
Definition settlement_unavailable_if (c : bool) (message : string) : result unit := guard c UNAVAILABLE_SETTLEMENT message.
Definition settlement_assertCommonSafety (f : flags) : result unit :=
  assertFlags commonSafety f UNAVAILABLE_SETTLEMENT "Trading settlement safety boundary changed".

Definition closeRequestCore (r : CloseRequest) : list (string * json) :=
  [("facilityId", JStr (cq_facilityId r)); ("facilityHash", JStr (cq_facilityHash r));
   ("facilityStateHash", JStr (cq_facilityStateHash r)); ("facilityVersion", JNum (cq_facilityVersion r));
   ("obligationId", JStr (cq_obligationId r)); ("obligationHash", JStr (cq_obligationHash r));
   ("subjectId", JStr (cq_subjectId r)); ("principalId", JStr (cq_principalId r)); ("providerId", JStr (cq_providerId r));
   ("subjectActorHash", JStr (cq_subjectActorHash r)); ("providerActorHash", JStr (cq_providerActorHash r));
   ("requestedByActorHash", JStr (cq_requestedByActorHash r)); ("reasonCode", JStr (cq_reasonCode r));
   ("requestedAt", JStr (cq_requestedAt r)); ("closePolicyVersion", JStr (cq_closePolicyVersion r))].

Definition close_request_json (r : CloseRequest) : json :=
  JObj ([("tradingFacilityCloseRequestId", JStr (cq_tradingFacilityCloseRequestId r)); ("requestHash", JStr (cq_requestHash r))] ++
        closeRequestCore r ++
        [("status", JStr (cq_status r)); ("immutable", JBool (cq_immutable r)); ("version", JNum (cq_version r))] ++
        flags_json (cq_safety r) ++ [("schemaVersion", JStr (cq_schemaVersion r))]).

Definition settlementCore (s : Settlement) : list (string * json) :=
  [("closeRequestId", JStr (st_closeRequestId s)); ("closeRequestHash", JStr (st_closeRequestHash s));
   ("facilityId", JStr (st_facilityId s)); ("facilityHash", JStr (st_facilityHash s));
   ("facilityStateHashBefore", JStr (st_facilityStateHashBefore s)); ("facilityVersionBefore", JNum (st_facilityVersionBefore s));
   ("facilityStateHashAfter", JStr (st_facilityStateHashAfter s)); ("facilityVersionAfter", JNum (st_facilityVersionAfter s));
   ("obligationId", JStr (st_obligationId s)); ("obligationHash", JStr (st_obligationHash s)); ("subjectId", JStr (st_subjectId s));
   ("principalId", JStr (st_principalId s)); ("providerId", JStr (st_providerId s)); ("assetId", JStr (st_assetId s));
   ("finalSyntheticEquityMinor", money (st_finalSyntheticEquityMinor s));
   ("subjectContributionMinor", money (st_subjectContributionMinor s));
   ("providerContributionMinor", money (st_providerContributionMinor s)); ("subjectReturnMinor", money (st_subjectReturnMinor s));
   ("providerPrincipalReturnMinor", money (st_providerPrincipalReturnMinor s)); ("realizedPnlMinor", money (st_realizedPnlMinor s));
   ("venueCostMinor", money (st_venueCostMinor s)); ("closingCostMinor", money (st_closingCostMinor s));
   ("fixedReturnMinor", money (st_fixedReturnMinor s)); ("performanceParticipationMinor", money (st_performanceParticipationMinor s));
   ("ipoOneFeeMinor", money (st_ipoOneFeeMinor s)); ("totalAllocatedMinor", money (st_totalAllocatedMinor s));
   ("settledByActorHash", JStr (st_settledByActorHash s)); ("settledAt", JStr (st_settledAt s));
   ("settlementPolicyVersion", JStr (st_settlementPolicyVersion s))].

Definition settlement_json (s : Settlement) : json :=
  JObj ([("tradingSettlementId", JStr (st_tradingSettlementId s)); ("settlementHash", JStr (st_settlementHash s))] ++
        settlementCore s ++
        [("waterfallBalanced", JBool (st_waterfallBalanced s)); ("zeroExposureVerified", JBool (st_zeroExposureVerified s));
         ("canonicalObligationUnchanged", JBool (st_canonicalObligationUnchanged s));
         ("canonicalLedgerMutationCreated", JBool (st_canonicalLedgerMutationCreated s));
         ("secondLedgerCreated", JBool (st_secondLedgerCreated s)); ("officialSettlement", JBool (st_officialSettlement s));
         ("status", JStr (st_status s)); ("version", JNum (st_version s))] ++
        flags_json (st_safety s) ++ [("schemaVersion", JStr (st_schemaVersion s))]).

Definition claims_json (c : Claims) : json :=
  JObj [("facilityFinalized", JBool (pc_facilityFinalized c)); ("zeroExposure", JBool (pc_zeroExposure c));
        ("contributionConservation", JBool (pc_contributionConservation c));
        ("canonicalObligationLinked", JBool (pc_canonicalObligationLinked c)); ("realProfitClaimed", JBool (pc_realProfitClaimed c));
        ("finalSyntheticEquityMinor", money (pc_finalSyntheticEquityMinor c)); ("subjectReturnMinor", money (pc_subjectReturnMinor c));
        ("providerPrincipalReturnMinor", money (pc_providerPrincipalReturnMinor c));
        ("realizedPnlMinor", money (pc_realizedPnlMinor c)); ("ipoOneFeeMinor", money (pc_ipoOneFeeMinor c))].

Definition performanceProofCore (p : PerformanceProof) : list (string * json) :=
  [("settlementId", JStr (pp_settlementId p)); ("settlementHash", JStr (pp_settlementHash p));
   ("facilityId", JStr (pp_facilityId p)); ("facilityHash", JStr (pp_facilityHash p)); ("obligationId", JStr (pp_obligationId p));
   ("obligationHash", JStr (pp_obligationHash p)); ("subjectId", JStr (pp_subjectId p)); ("principalId", JStr (pp_principalId p));
   ("providerId", JStr (pp_providerId p)); ("claimSetHash", JStr (pp_claimSetHash p));
   ("issuedByActorHash", JStr (pp_issuedByActorHash p)); ("issuedAt", JStr (pp_issuedAt p)); ("expiresAt", JStr (pp_expiresAt p));
   ("proofVersion", JNum (pp_proofVersion p)); ("proofPolicyVersion", JStr (pp_proofPolicyVersion p))].

Definition proof_json (p : PerformanceProof) : json :=
  JObj ([("tradingPerformanceProofId", JStr (pp_tradingPerformanceProofId p)); ("proofHash", JStr (pp_proofHash p))] ++
        performanceProofCore p ++
        [("claims", claims_json (pp_claims p)); ("status", JStr (pp_status p)); ("revocable", JBool (pp_revocable p));
         ("revoked", JBool (pp_revoked p)); ("externalVerificationAvailable", JBool (pp_externalVerificationAvailable p));
         ("officialReport", JBool (pp_officialReport p)); ("universalScore", JBool (pp_universalScore p));
         ("strategyDataIncluded", JBool (pp_strategyDataIncluded p)); ("rawHistoryIncluded", JBool (pp_rawHistoryIncluded p))] ++
        flags_json (pp_safety p) ++ [("schemaVersion", JStr (pp_schemaVersion p))]).

Section settlement.
Context `{Platform}.

Definition timestamp (name value : string) : result unit :=
  date INVALID_SETTLEMENT name value ;; Ok ().

Definition settlement_actorHash (actorId : string) : result string :=
  identifier INVALID_SETTLEMENT "actorId" actorId ;;
  Ok (hashId "actor" (JStr actorId)).

Definition assertCloseRequest (r : CloseRequest) : result unit :=
  settlement_unavailable_if (negb (String.eqb (cq_schemaVersion r) TRADING_FACILITY_CLOSE_REQUEST_SCHEMA_VERSION) ||
      negb (String.eqb (cq_status r) "requested") || negb (cq_version r =? 1) ||
      negb (String.eqb (cq_reasonCode r) "operator_request") || negb (cq_immutable r))
    "Facility close request is unavailable" ;;
  identifier INVALID_SETTLEMENT "tradingFacilityCloseRequestId" (cq_tradingFacilityCloseRequestId r) ;;
  hash INVALID_SETTLEMENT "requestHash" (cq_requestHash r) ;;
  timestamp "requestedAt" (cq_requestedAt r) ;;
  settlement_assertCommonSafety (cq_safety r) ;;
  settlement_unavailable_if (negb (String.eqb (hashId "trading_facility_close_request" (JObj (closeRequestCore r))) (cq_requestHash r)))
    "Facility close request binding changed".

Definition assertSettlement (s : Settlement) : result unit :=
  settlement_unavailable_if (negb (String.eqb (st_schemaVersion s) TRADING_SETTLEMENT_SCHEMA_VERSION) ||
      negb (String.eqb (st_status s) "finalized") || negb (st_version s =? 1) || negb (st_waterfallBalanced s) ||
      negb (st_zeroExposureVerified s) || negb (st_canonicalObligationUnchanged s) || st_canonicalLedgerMutationCreated s ||
      st_secondLedgerCreated s || st_officialSettlement s || negb (st_realizedPnlMinor s =? 0) || negb (st_venueCostMinor s =? 0) ||
      negb (st_closingCostMinor s =? 0) || negb (st_fixedReturnMinor s =? 0) || negb (st_performanceParticipationMinor s =? 0) ||
      negb (st_ipoOneFeeMinor s =? 0) ||
      negb (st_subjectReturnMinor s + st_providerPrincipalReturnMinor s =? st_totalAllocatedMinor s) ||
      negb (st_totalAllocatedMinor s =? st_finalSyntheticEquityMinor s) ||
      negb (st_subjectReturnMinor s =? st_subjectContributionMinor s) ||
      negb (st_providerPrincipalReturnMinor s =? st_providerContributionMinor s))
    "Settlement conservation proof is unavailable" ;;
  identifier INVALID_SETTLEMENT "tradingSettlementId" (st_tradingSettlementId s) ;;
  hash INVALID_SETTLEMENT "settlementHash" (st_settlementHash s) ;;
  timestamp "settledAt" (st_settledAt s) ;;
  settlement_assertCommonSafety (st_safety s) ;;
  settlement_unavailable_if (negb (String.eqb (hashId "trading_settlement" (JObj (settlementCore s))) (st_settlementHash s)))
    "Settlement binding changed".

Definition assertPerformanceProof (p : PerformanceProof) : result unit :=
  let c := pp_claims p in
  settlement_unavailable_if (negb (String.eqb (pp_schemaVersion p) TRADING_PERFORMANCE_PROOF_SCHEMA_VERSION) ||
      negb (String.eqb (pp_status p) "active") || negb (pp_proofVersion p =? 1) || negb (pp_revocable p) || pp_revoked p ||
      pp_externalVerificationAvailable p || pp_officialReport p || pp_universalScore p || pp_strategyDataIncluded p ||
      pp_rawHistoryIncluded p || negb (pc_facilityFinalized c) || negb (pc_zeroExposure c) ||
      negb (pc_contributionConservation c) || negb (pc_canonicalObligationLinked c) || pc_realProfitClaimed c)
    "Performance Proof is unavailable" ;;
  identifier INVALID_SETTLEMENT "tradingPerformanceProofId" (pp_tradingPerformanceProofId p) ;;
  hash INVALID_SETTLEMENT "proofHash" (pp_proofHash p) ;;
  hash INVALID_SETTLEMENT "claimSetHash" (pp_claimSetHash p) ;;
  timestamp "issuedAt" (pp_issuedAt p) ;;
  timestamp "expiresAt" (pp_expiresAt p) ;;
  settlement_assertCommonSafety (pp_safety p) ;;
  settlement_unavailable_if (negb (String.eqb (hashId "trading_performance_proof_claims" (claims_json c)) (pp_claimSetHash p)) ||
      negb (String.eqb (hashId "trading_performance_proof" (JObj (performanceProofCore p))) (pp_proofHash p)))
    "Performance Proof binding changed".

Definition settlement_assertCanonicalObligation (o : Loan) (f : Facility) : result unit :=
  let t := ln_terms o in let ft := fc_terms f in
  settlement_unavailable_if (negb (String.eqb (tm_schemaVersion t) "obligation.v2") ||
      negb (String.eqb (tm_obligationId t) (fy_obligationId ft)) || negb (String.eqb (tm_obligationHash t) (fy_obligationHash ft)) ||
      negb (String.eqb (tm_subjectId t) (fy_subjectId ft)) || negb (String.eqb (tm_principalId t) (fy_principalId ft)) ||
      negb (String.eqb (tm_assetId t) (fy_assetId ft)) || negb (tm_sandboxOnly t) || tm_productionFundsMoved t)
    "Canonical Obligation binding changed".

(** ** Operations *)

Definition requestTradingFacilityClose (f : Facility) (requestedByActorId expectedStateHash : string) (expectedVersion now : Z)
    : M Sys CloseRequest :=
  let t := fc_terms f in
  lift (tradingFacilityView f) ;;
  lift (hash INVALID_SETTLEMENT "expectedStateHash" expectedStateHash) ;;
  lift (settlement_unavailable_if (negb (String.eqb (fy_schemaVersion t) TRADING_FACILITY_SCHEMA_VERSION) ||
      negb (String.eqb (fc_stateHash f) expectedStateHash) || negb (fc_version f =? expectedVersion) ||
      negb (is_lifecycle (fc_lifecycleStatus f) TradingFacilityLifecycleStatus_FLATTENED) ||
      negb (is_risk (fc_riskState f) [TradingFacilityRiskState_FLATTEN]) || negb (fc_openOrderCount f =? 0) ||
      negb (fc_syntheticExposureMinor f =? 0) || negb (fc_syntheticEquityMinor f =? fc_syntheticCapitalMinor f))
    "Facility cannot accept a close request") ;;
  actor ← lift (settlement_actorHash requestedByActorId);
  lift (settlement_unavailable_if (negb (String.eqb actor (fy_subjectActorHash t))) "Facility cannot accept a close request") ;;
  id ← createOperationalId "trading_facility_close_request";
  let request hash := MkCloseRequest id hash (fy_tradingFacilityId t) (fy_facilityHash t) (fc_stateHash f) (fc_version f)
    (fy_obligationId t) (fy_obligationHash t) (fy_subjectId t) (fy_principalId t) (fy_providerId t) (fy_subjectActorHash t)
    (fy_providerActorHash t) actor "operator_request" "requested" true (toISOString now) 1 TRADING_SETTLEMENT_POLICY_VERSION
    commonSafety TRADING_FACILITY_CLOSE_REQUEST_SCHEMA_VERSION in
  let result := request (hashId "trading_facility_close_request" (JObj (closeRequestCore (request "")))) in
  lift (assertNoRawPiiReference (close_request_json result)) ;;
  lift (assertCloseRequest result) ;;
  mret result.

Definition runTradingSettlement (f : Facility) (request : CloseRequest) (o : Loan)
    (settledByActorId expectedCloseRequestHash expectedFacilityStateHash : string) (expectedFacilityVersion now : Z)
    : M Sys (Facility * Settlement) :=
  let t := fc_terms f in
  lift (tradingFacilityView f) ;;
  lift (assertCloseRequest request) ;;
  lift (settlement_assertCanonicalObligation o f) ;;
  lift (hash INVALID_SETTLEMENT "expectedCloseRequestHash" expectedCloseRequestHash) ;;
  lift (settlement_unavailable_if (negb (String.eqb (cq_requestHash request) expectedCloseRequestHash) ||
      negb (String.eqb (cq_facilityId request) (fy_tradingFacilityId t)) ||
      negb (String.eqb (cq_facilityHash request) (fy_facilityHash t)) ||
      negb (String.eqb (cq_facilityStateHash request) (fc_stateHash f)) || negb (cq_facilityVersion request =? fc_version f) ||
      negb (String.eqb (cq_obligationId request) (tm_obligationId (ln_terms o))))
    "Close request or Facility changed before settlement") ;;
  next ← lift (settleTradingFacility f settledByActorId expectedFacilityStateHash expectedFacilityVersion now);
  let equity := fc_syntheticEquityMinor f in
  let subjectReturn := fc_subjectCollateralMinor f in
  let providerReturn := fc_providerFundingMinor f in
  let total := subjectReturn + providerReturn in
  lift (settlement_unavailable_if (negb (total =? equity) || negb (equity =? fc_syntheticCapitalMinor f))
    "Synthetic settlement does not conserve Facility equity") ;;
  id ← createOperationalId "trading_settlement";
  actor ← lift (settlement_actorHash settledByActorId);
  let settlement hash := MkSettlement id hash (cq_tradingFacilityCloseRequestId request) (cq_requestHash request)
    (fy_tradingFacilityId t) (fy_facilityHash t) (fc_stateHash f) (fc_version f) (fc_stateHash next) (fc_version next)
    (fy_obligationId t) (fy_obligationHash t) (fy_subjectId t) (fy_principalId t) (fy_providerId t) (fy_assetId t) equity
    (fc_subjectCollateralMinor f) (fc_providerFundingMinor f) subjectReturn providerReturn 0 0 0 0 0 0 total true true true false
    false false "finalized" 1 actor (toISOString now) TRADING_SETTLEMENT_POLICY_VERSION commonSafety
    TRADING_SETTLEMENT_SCHEMA_VERSION in
  let result := settlement (hashId "trading_settlement" (JObj (settlementCore (settlement "")))) in
  lift (assertNoRawPiiReference (settlement_json result)) ;;
  lift (assertSettlement result) ;;
  mret (next, result).

Definition issueTradingPerformanceProof (s : Settlement) (f : Facility) (o : Loan) (issuedByActorId : string) (now : Z)
    : M Sys PerformanceProof :=
  let t := fc_terms f in
  lift (assertSettlement s) ;;
  lift (tradingFacilityView f) ;;
  lift (settlement_assertCanonicalObligation o f) ;;
  issuerHash ← lift (settlement_actorHash issuedByActorId);
  lift (settlement_unavailable_if (negb (String.eqb (st_facilityId s) (fy_tradingFacilityId t)) ||
      negb (String.eqb (st_facilityHash s) (fy_facilityHash t)) || negb (String.eqb (st_facilityStateHashAfter s) (fc_stateHash f)) ||
      negb (is_risk (fc_riskState f) [TradingFacilityRiskState_SETTLEMENT]) ||
      negb (String.eqb (st_obligationId s) (tm_obligationId (ln_terms o))) ||
      negb (bool_decide (issuerHash ∈ [fy_subjectActorHash t; fy_providerActorHash t])))
    "Performance Proof bindings are unavailable") ;;
  let claims := MkClaims true true true true false (st_finalSyntheticEquityMinor s) (st_subjectReturnMinor s)
    (st_providerPrincipalReturnMinor s) 0 0 in
  expiresAt ← lift (iso_of (now + PROOF_LIFETIME_MS));
  id ← createOperationalId "trading_performance_proof";
  let proof hash := MkPerformanceProof id hash (st_tradingSettlementId s) (st_settlementHash s) (fy_tradingFacilityId t)
    (fy_facilityHash t) (tm_obligationId (ln_terms o)) (tm_obligationHash (ln_terms o)) (fy_subjectId t) (fy_principalId t)
    (fy_providerId t) claims (hashId "trading_performance_proof_claims" (claims_json claims)) "active" 1 true false false false
    false false false issuerHash (toISOString now) expiresAt TRADING_PERFORMANCE_PROOF_POLICY_VERSION commonSafety
    TRADING_PERFORMANCE_PROOF_SCHEMA_VERSION in
  let result := proof (hashId "trading_performance_proof" (JObj (performanceProofCore (proof "")))) in
  lift (assertNoRawPiiReference (proof_json result)) ;;
  lift (assertPerformanceProof result) ;;
  mret result.

Definition tradingFacilityCloseRequestView (r : CloseRequest) : result CloseRequest := assertCloseRequest r ;; Ok r.
Definition tradingSettlementView (s : Settlement) : result Settlement := assertSettlement s ;; Ok s.
Definition tradingPerformanceProofView (p : PerformanceProof) : result PerformanceProof := assertPerformanceProof p ;; Ok p.
End settlement.
