(* ===== verification/FacilityProps.v ===== *)
(** * Trading facilities: theorems

    A desk is a facility with the orders made on it.  The theorems are about every
    sequence of operations on a desk. *)

From stdpp Require Import base tactics sets relations gmap numbers strings list.
From S2P Require Import Prelude Js Enums EventStore Service Ledger Mandate Loan Servicing SandboxCredit LoanProps LoanLedger AcceptanceProps DecisionProps Trading Matching Facility.
Local Open Scope string_scope.
Local Open Scope Z_scope.

(** ** Amounts *)

(** What fits in the decimal strings of the facility. *)
Definition minor_ok (z : Z) : Prop := 0 <= z < 10 ^ 78.

Lemma toString_neg_pattern z : z < 0 -> MINOR_PATTERN (toString z) = false.
Proof. intros Hz. unfold toString. by rewrite (proj2 (Z.ltb_lt _ _) Hz). Qed.

Lemma minor_pattern_iff z : NON_NEGATIVE_MINOR_PATTERN (toString z) = true <-> minor_ok z.
Proof.
  unfold NON_NEGATIVE_MINOR_PATTERN, minor_ok. rewrite andb_true_iff, Nat.leb_le. destruct (decide (0 <= z)) as [Hz|Hz].
  - rewrite fits_iff by done. pose proof (toString_pattern z Hz). intuition.
  - rewrite toString_neg_pattern by lia. split; [by intros [? _]|lia].
Qed.

Lemma nonNegativeMinor_iff e name z : nonNegativeMinor e name z = Ok () <-> minor_ok z.
Proof. unfold nonNegativeMinor. rewrite guard_Ok, negb_false_iff. apply minor_pattern_iff. Qed.

Lemma storedPositiveMinor_iff e name z : storedPositiveMinor e name z = Ok () <-> amount_ok z.
Proof.
  unfold storedPositiveMinor, POSITIVE_MINOR_PATTERN. rewrite guard_Ok, negb_false_iff, andb_true_iff, minor_pattern_iff, negb_true_iff, String.eqb_neq.
  unfold minor_ok, amount_ok. split; intros [Hz Hne].
  - split; [|lia]. assert (z <> 0) by (intros ->; by apply Hne). lia.
  - split; [lia|]. intros E. apply (f_equal BigInt) in E. rewrite BigInt_toString in E by lia. vm_compute in E. lia.
Qed.

(** An amount a caller passes is the decimal string of a positive amount. *)
Lemma positiveMinor_iff e name s z : positiveMinor e name s = Ok z <-> s = toString z /\ amount_ok z.
Proof.
  unfold positiveMinor. rewrite guard_then, negb_false_iff. split.
  - intros [Hp [= <-]]. assert (Hs : toString (BigInt s) = s).
    { apply andb_true_iff in Hp as [[Hm Hl]%andb_true_iff _].
      destruct (toMinorUnitBigInt_string s (BigInt s) "") as [E _]; [|done].
      unfold toMinorUnitBigInt. rewrite (proj2 (guard_Ok (_ || _) _ _ ())); [done|].
      rewrite Hm. apply Nat.leb_le in Hl. by rewrite (proj2 (Nat.ltb_ge _ _) Hl). }
    split; [done|]. apply (storedPositiveMinor_iff e name). unfold storedPositiveMinor. apply guard_Ok, negb_false_iff. by rewrite Hs.
  - intros [-> Hz]. pose proof (proj2 (storedPositiveMinor_iff e name z) Hz) as K. unfold storedPositiveMinor in K.
    apply guard_Ok, negb_false_iff in K. split; [done|]. f_equal. apply BigInt_toString. unfold amount_ok in Hz. lia.
Qed.

Lemma unavailable_iff c m : unavailable_if c m = Ok () <-> c = false.
Proof. apply guard_Ok. Qed.

Lemma flags_self_ok e m : assertFlags commonSafety commonSafety e m = Ok ().
Proof. apply guard_Ok. vm_compute. reflexivity. Qed.

(** ** The check for personal data *)

Lemma no_pii_null_or {A} (g : A -> json) o : (forall a, no_pii (g a)) -> no_pii (null_or g o).
Proof. intros Hg. destruct o; [apply Hg|reflexivity]. Qed.

Lemma no_pii_strings l : no_pii (JArr (map JStr l)).
Proof. apply no_pii_arr, Forall_fmap, Forall_true. reflexivity. Qed.

Lemma no_pii_flags f : Forall no_pii (map snd (flags_json f)).
Proof. unfold flags_json. induction f as [|[k b] f IH]; constructor; [reflexivity|done]. Qed.

(** The fields of an object that has the safety flags. *)
Ltac fields :=
  repeat (apply Forall_app; split); try apply no_pii_flags; repeat (apply Forall_cons; split);
  first [by apply Forall_nil | reflexivity | apply no_pii_strings | (by apply no_pii_null_or) | idtac].

(** Premises that the hypotheses give as they stand. *)
Ltac given := try first [assumption | intros; first [reflexivity | assumption]].

(** ** Updates of a facility *)

Section facility.
Context `{DigestLaws}.

(** A facility after an update. *)
Definition sealed (f changed : Facility) (now : Z) : Facility :=
  withFacilityStateHash (refreshRiskObservation (set_version (fc_version f + 1) now changed) now).

Record terms_ok (t : FacilityTerms) : Prop := {
  to_schema : fy_schemaVersion t = TRADING_FACILITY_SCHEMA_VERSION;
  to_links : fy_linkedCanonicalObligation t = true /\ fy_secondLedgerCreated t = false /\ fy_callerEquityAccepted t = false;
  to_id : IDENTIFIER_PATTERN (fy_tradingFacilityId t) = true;
  to_hash : HASH_PATTERN (fy_facilityHash t) = true /\ hashId "trading_facility" (JObj (facilityCore t)) = fy_facilityHash t;
  to_safety : fy_safety t = commonSafety }.

(** The bounds every stored facility is checked against. *)
Record within_bounds (f : Facility) : Prop := {
  wb_version : 1 <= fc_version f <= 9007199254740991;
  wb_count : 0 <= fc_openOrderCount f <= MAX_OPEN_ORDERS;
  wb_collateral : minor_ok (fc_subjectCollateralMinor f);
  wb_funding : minor_ok (fc_providerFundingMinor f);
  wb_capital : minor_ok (fc_syntheticCapitalMinor f);
  wb_exposure : minor_ok (fc_syntheticExposureMinor f);
  wb_equity : minor_ok (fc_syntheticEquityMinor f) }.

Definition observed (f : Facility) : Prop := exists now,
  fc_riskObservation f = riskObservation (fy_tradingFacilityId (fc_terms f)) (fc_version f) (fc_syntheticCapitalMinor f)
    (fc_syntheticExposureMinor f) (fc_syntheticEquityMinor f) (fc_openOrderCount f) (toISOString now).
Definition hashed (f : Facility) : Prop := fc_stateHash f = hashId "trading_facility_state" (JObj (facilityStateCore f)).

Lemma assertFacility_Ok f : terms_ok (fc_terms f) -> observed f -> hashed f -> assertFacility f = Ok () <-> within_bounds f.
Proof.
  intros [T1 (T2 & T3 & T4) T5 [T6 T7] T8] [now Ho] Hh. unfold hashed in Hh.
  assert (Hx : HASH_PATTERN (fc_stateHash f) = true) by (rewrite Hh; apply hashId_hex). unfold assertFacility. rewrite Ho.
  unfold riskObservation. cbn [ob_schemaVersion ob_facilityId ob_facilityVersion ob_syntheticCapitalMinor ob_syntheticExposureMinor ob_syntheticEquityMinor ob_openOrderCount ob_source ob_complete ob_reconciled ob_callerEquityAccepted ob_observationHash].
  rewrite T1, T2, T3, T4, T7, T8, !String.eqb_refl, !Z.eqb_refl. rewrite <- Hh, String.eqb_refl. unfold hash, identifier, assertCommonSafety. rewrite T5, T6, flags_self_ok.
  rewrite Hx. cbn [negb orb]. rewrite !check_then, !nonNegativeMinor_iff, !unavailable_iff.
  rewrite !orb_false_iff, !Z.ltb_ge. unfold isSafeInteger. split.
  - intros ((((((((K0 & K1) & K2) & K3) & K4) & K5) & _) & _) & _ & _ & _ & B1 & B2 & B3 & B4 & B5 & _). split; try done; unfold MAX_OPEN_ORDERS in *; lia.
  - intros [V C B1 B2 B3 B4 B5]. unfold MAX_OPEN_ORDERS in *. split_and!; try done; lia.
Qed.

Lemma no_pii_facility f : fy_safety (fc_terms f) = commonSafety -> no_pii (facility_json f).
Proof.
  intros E. apply no_pii_obj.
  - rewrite E. vm_compute. reflexivity.
  - rewrite !map_app. cbn [map snd facilityCore facilityStateCore]. fields.
Qed.

Lemma no_pii_order o : oi_safety o = commonSafety -> no_pii (order_json o).
Proof.
  intros E. apply no_pii_obj.
  - rewrite E. vm_compute. reflexivity.
  - rewrite !map_app. cbn [map snd order_immutable_core order_state_core]. fields.
Qed.

Lemma no_pii_evaluation r : re_safety r = commonSafety -> no_pii (evaluation_json r).
Proof.
  intros E. apply no_pii_obj.
  - rewrite E. vm_compute. reflexivity.
  - rewrite !map_app. cbn [map snd evaluation_core]. fields.
Qed.

(** ** Stored facilities *)

(** A facility as the operations leave it. *)
Record stored (f : Facility) : Prop := {
  sf_terms : terms_ok (fc_terms f);
  sf_observed : observed f;
  sf_hashed : hashed f;
  sf_bounds : within_bounds f }.

Lemma stored_assert f : stored f -> assertFacility f = Ok ().
Proof. intros []. by apply assertFacility_Ok. Qed.

Lemma sealed_observed f g now : observed (sealed f g now).
Proof. by exists now. Qed.
Lemma sealed_hashed f g now : hashed (sealed f g now).
Proof. reflexivity. Qed.

(** An update succeeds exactly when the bounds hold after it. *)
Lemma updateFacilityState_Ok f g now f' : terms_ok (fc_terms g) ->
  updateFacilityState f g now = Ok f' <-> f' = sealed f g now /\ stored f'.
Proof.
  intros Ht. unfold updateFacilityState. fold (sealed f g now). rewrite !check_then.
  assert (terms_ok (fc_terms (sealed f g now))) as Ht' by exact Ht.
  rewrite (assertFacility_Ok _ Ht' (sealed_observed f g now) (sealed_hashed f g now)). split.
  - intros (_ & Hb & [= <-]). split; [done|]. by split; [|apply sealed_observed|apply sealed_hashed|].
  - intros (-> & []). split_and!; [|done|done]. apply no_pii_facility. apply Ht'.
Qed.

(** A request is made on a state when it names its hash and its version. *)
Lemma assertExpectedFacility_Ok f h v : stored f ->
  assertExpectedFacility f h v = Ok () <-> h = fc_stateHash f /\ v = fc_version f.
Proof.
  intros Hs. unfold assertExpectedFacility, exactVersion, hash. rewrite stored_assert by done. cbn [mbind result_bind].
  rewrite !check_then, !unavailable_iff, guard_Ok, !negb_false_iff, String.eqb_eq, !orb_false_iff, !negb_false_iff.
  pose proof (wb_version _ (sf_bounds _ Hs)). unfold isSafeInteger. split.
  - intros (_ & (_ & E) & ->). split; [done|]. lia.
  - intros [-> ->]. split_and!; [|lia..|done]. rewrite (sf_hashed _ Hs). apply hashId_hex.
Qed.

Lemma actorHash_Ok a h : actorHash a = Ok h <-> IDENTIFIER_PATTERN a = true /\ h = hashId "actor" (JStr a).
Proof.
  unfold actorHash, identifier. rewrite guard_then, negb_false_iff. split; intros [? E]; split; try done; [by injection E|by rewrite E].
Qed.

(** ** Order intents *)

Record order_ok (o : OrderIntent) : Prop := {
  oo_schema : oi_schemaVersion o = TRADING_ORDER_INTENT_SCHEMA_VERSION;
  oo_version : 1 <= oi_version o <= 9007199254740991;
  oo_server : oi_serverRiskEvaluated o = true /\ oi_rawVenueActionAccepted o = false;
  oo_id : IDENTIFIER_PATTERN (oi_tradingOrderIntentId o) = true;
  oo_amount : amount_ok (oi_syntheticNotionalMinor o);
  oo_safety : oi_safety o = commonSafety;
  oo_intent : oi_orderIntentHash o = hashId "trading_order_intent" (JObj (order_immutable_core o));
  oo_state : oi_orderStateHash o = hashId "trading_order_intent_state" (JObj (order_state_core o)) }.

Lemma assertOrderIntent_Ok o :
  oi_safety o = commonSafety -> oi_orderIntentHash o = hashId "trading_order_intent" (JObj (order_immutable_core o)) ->
  oi_orderStateHash o = hashId "trading_order_intent_state" (JObj (order_state_core o)) ->
  assertOrderIntent o = Ok () <-> order_ok o.
Proof.
  intros Hs Hi Ht. unfold assertOrderIntent, identifier, hash, assertCommonSafety. rewrite Hs, flags_self_ok.
  assert (HASH_PATTERN (oi_orderIntentHash o) = true) as -> by (rewrite Hi; apply hashId_hex).
  assert (HASH_PATTERN (oi_orderStateHash o) = true) as -> by (rewrite Ht; apply hashId_hex).
  rewrite <- Hi, <- Ht, !String.eqb_refl. cbn [negb orb].
  rewrite !check_then, !unavailable_iff, !guard_Ok, !storedPositiveMinor_iff, !negb_false_iff, !orb_false_iff, !negb_false_iff, String.eqb_eq.
  unfold isSafeInteger. split.
  - intros (((((K1 & K2) & K3) & K4) & K5) & K6 & _ & _ & K7 & _). split; try done; lia.
  - intros []. split_and!; try done; try lia; by destruct oo_server0.
Qed.

Lemma order_ok_assert o : order_ok o -> assertOrderIntent o = Ok ().
Proof. intros Ho. by apply assertOrderIntent_Ok; [apply Ho..|]. Qed.

(** An order after an update. *)
Definition changed_order (o : OrderIntent) (status : TradingOrderIntentStatus) (reason : string) (canceledAt flattenedAt : option Z) (now : Z)
    : OrderIntent :=
  withOrderStateHash (set_order (oi_orderStateHash o) status (Some reason) canceledAt flattenedAt (oi_version o + 1) now o).

Lemma updateOrderState_Ok o status reason canceledAt flattenedAt now o' : order_ok o ->
  updateOrderState o status reason canceledAt flattenedAt now = Ok o' <->
  o' = changed_order o status reason canceledAt flattenedAt now /\ oi_version o < 9007199254740991.
Proof.
  intros Ho. unfold updateOrderState. fold (changed_order o status reason canceledAt flattenedAt now). rewrite !check_then.
  rewrite assertOrderIntent_Ok by (try apply Ho; reflexivity). split.
  - intros (_ & Hn & [= <-]). split; [done|]. pose proof (oo_version _ Hn) as K. cbn in K. lia.
  - intros (-> & Hv). split_and!; [apply no_pii_order, Ho| |done]. destruct Ho. split; try done. cbn. lia.
Qed.

Lemma changed_order_ok o status reason canceledAt flattenedAt now : order_ok o -> oi_version o < 9007199254740991 ->
  order_ok (changed_order o status reason canceledAt flattenedAt now).
Proof. intros [] Hv. split; try done. cbn. lia. Qed.
End facility.
