(* ===== verification/Desk.v ===== *)
(** * Trading desks

    A desk is a facility with the order intents made on it, the records that the
    operations of Facility.v read and replace.  The theorems are about every
    sequence of operations on a desk, those that are refused included. *)

From stdpp Require Import base tactics sets relations gmap numbers strings list.
From S2P Require Import Prelude Js Enums EventStore Service Ledger Mandate Loan Servicing SandboxCredit LoanProps LoanLedger AcceptanceProps DecisionProps Trading Matching Facility FacilityProps.
Local Open Scope string_scope.
Local Open Scope Z_scope.

(** ** Desks *)

Record Desk := MkDesk { dk_facility : Facility; dk_orders : list OrderIntent }.

Definition is_open (o : OrderIntent) : bool := bool_decide (oi_status o = TradingOrderIntentStatus_OPEN).
Definition open_orders (l : list OrderIntent) : list OrderIntent := List.filter is_open l.
Definition find_order (id : string) (l : list OrderIntent) : option OrderIntent :=
  List.find (fun o => String.eqb (oi_tradingOrderIntentId o) id) l.

(** A stored order replaced by its next version. *)
Definition put_order (o : OrderIntent) (l : list OrderIntent) : list OrderIntent :=
  map (fun x => if String.eqb (oi_tradingOrderIntentId x) (oi_tradingOrderIntentId o) then o else x) l.
Definition put_orders (os l : list OrderIntent) : list OrderIntent := foldr put_order l os.

Inductive DeskOp :=
  | Collateralize (actor amount : string)
  | Fund (actor amount : string)
  | Activate (p : MatchProposal) (o : Loan) (actor : string)
  | Submit (actor : string) (direction : TradingOrderDirection) (notional : string)
  | Cancel (id actor orderHash : string) (orderVersion : Z)
  | Evaluate (actor : string)
  | Pause (actor reason : string)
  | Flatten (actor reason : string)
  | Settle (actor : string).

(** A request: an operation, the state it is made on and the time. *)
Record Request := MkRequest { rq_op : DeskOp; rq_stateHash : string; rq_version : Z; rq_now : Z }.

Section desk.
Context `{Platform}.

Definition keep_orders (d : Desk) (r : result Facility) : M Sys Desk :=
  f ← lift r; mret (MkDesk f (dk_orders d)).

Definition serve (r : Request) (d : Desk) : M Sys Desk :=
  let f := dk_facility d in
  let h := rq_stateHash r in let v := rq_version r in let now := rq_now r in
  match rq_op r with
  | Collateralize actor amount => keep_orders d (contributeTradingSubjectCollateral f actor amount h v now)
  | Fund actor amount => keep_orders d (recordTradingProviderFunding f actor amount h v now)
  | Activate p o actor => keep_orders d (activateTradingFacility f p o actor h v now)
  | Submit actor direction notional =>
      res ← submitTradingOrderIntent f actor direction notional h v now;
      mret (MkDesk res.1 (dk_orders d ++ [res.2]))
  | Cancel id actor orderHash orderVersion =>
      o ← some_or (find_order id (dk_orders d)) UNAVAILABLE_FACILITY FACILITY_UNAVAILABLE_TEXT;
      res ← lift (cancelTradingOrderIntent f o actor h v orderHash orderVersion now);
      mret (MkDesk res.1 (put_order res.2 (dk_orders d)))
  | Evaluate actor =>
      res ← evaluateTradingFacilityRisk f actor h v now;
      mret (MkDesk res.1 (dk_orders d))
  | Pause actor reason => keep_orders d (pauseTradingFacilityNewRisk f actor reason h v now)
  | Flatten actor reason =>
      res ← lift (flattenTradingFacility f (open_orders (dk_orders d)) actor reason h v now);
      mret (MkDesk res.1 (put_orders res.2 (dk_orders d)))
  | Settle actor => keep_orders d (settleTradingFacility f actor h v now)
  end.

(** One request served or refused; a refused one changes no record. *)
Inductive desk_step : Sys * Desk -> Sys * Desk -> Prop :=
  | step_served r y d y' d' : serve r d y = (Ok d', y') -> desk_step (y, d) (y', d')
  | step_refused r y d e y' : serve r d y = (Err e, y') -> desk_step (y, d) (y', d).

Definition desk_run : relation (Sys * Desk) := rtc desk_step.

(** A desk that is opened on a new facility and used. *)
Definition reachable (y : Sys) (d : Desk) : Prop := exists p o actor now y0 y1 f,
  createTradingFacility p o actor now y0 = (Ok f, y1) /\ desk_run (y1, MkDesk f []) (y, d).
End desk.

(** ** Sums over orders *)

Definition open_notional (o : OrderIntent) : Z := if is_open o then oi_syntheticNotionalMinor o else 0.
Definition open_count (o : OrderIntent) : Z := if is_open o then 1 else 0.
Definition ids (l : list OrderIntent) : list string := map oi_tradingOrderIntentId l.

Lemma open_orders_cons o l : open_orders (o :: l) = if is_open o then o :: open_orders l else open_orders l.
Proof. done. Qed.

Lemma sum_open (g : OrderIntent -> Z) l : (forall o, is_open o = false -> g o = 0) -> sum_by g (open_orders l) = sum_by g l.
Proof.
  intros Hg. induction l as [|o l IH]; [done|]. rewrite open_orders_cons, sum_by_cons. destruct (is_open o) eqn:E.
  - by rewrite sum_by_cons, IH.
  - by rewrite IH, Hg.
Qed.

Lemma sum_open_notional l : sum_by open_notional l = sum_by oi_syntheticNotionalMinor (open_orders l).
Proof.
  induction l as [|o l IH]; [done|]. rewrite open_orders_cons, sum_by_cons. unfold open_notional at 1. destruct (is_open o); [|done].
  by rewrite sum_by_cons, IH.
Qed.

Lemma count_open l : Z.of_nat (length (open_orders l)) = sum_by open_count l.
Proof.
  induction l as [|o l IH]; [done|]. rewrite open_orders_cons, sum_by_cons. unfold open_count at 1. destruct (is_open o); cbn [length]; lia.
Qed.

Lemma put_order_cons o x l :
  put_order o (x :: l) = (if String.eqb (oi_tradingOrderIntentId x) (oi_tradingOrderIntentId o) then o else x) :: put_order o l.
Proof. done. Qed.

Lemma ids_put o l : ids (put_order o l) = ids l.
Proof.
  induction l as [|x l IH]; [done|]. rewrite put_order_cons. cbn [ids map]. fold (ids (put_order o l)) (ids l). rewrite IH. f_equal.
  by destruct (String.eqb_spec (oi_tradingOrderIntentId x) (oi_tradingOrderIntentId o)).
Qed.
Lemma ids_put_orders os l : ids (put_orders os l) = ids l.
Proof. induction os as [|o os IH]; [done|]. cbn [put_orders foldr]. fold (put_orders os l). by rewrite ids_put. Qed.

Lemma put_order_absent o l : oi_tradingOrderIntentId o ∉ ids l -> put_order o l = l.
Proof.
  induction l as [|x l IH]; [done|]. cbn [ids map]. intros [Hx Hl]%not_elem_of_cons. rewrite put_order_cons.
  rewrite (proj2 (String.eqb_neq _ _)) by done. by rewrite IH.
Qed.

Lemma member_id o l : o ∈ l -> oi_tradingOrderIntentId o ∈ ids l.
Proof. apply list_elem_of_fmap_2. Qed.

Lemma sum_put (g : OrderIntent -> Z) l o o' : NoDup (ids l) -> o ∈ l -> oi_tradingOrderIntentId o' = oi_tradingOrderIntentId o ->
  sum_by g (put_order o' l) = sum_by g l - g o + g o'.
Proof.
  intros Hn Hin Hid. induction l as [|x l IH]; [by apply not_elem_of_nil in Hin|]. apply NoDup_cons in Hn as [Hx Hn].
  rewrite put_order_cons, !sum_by_cons, Hid. apply elem_of_cons in Hin as [->|Hin].
  - rewrite String.eqb_refl, put_order_absent by (by rewrite Hid). lia.
  - destruct (String.eqb_spec (oi_tradingOrderIntentId x) (oi_tradingOrderIntentId o)) as [E|_].
    { destruct Hx. rewrite E. by apply member_id. }
    rewrite IH by done. lia.
Qed.

(** The orders of a list and their next versions. *)
Definition replaces (os os' : list OrderIntent) : Prop :=
  Forall2 (fun o o' => oi_tradingOrderIntentId o' = oi_tradingOrderIntentId o) os os'.

Lemma put_member o x l : x ∈ l -> oi_tradingOrderIntentId x <> oi_tradingOrderIntentId o -> x ∈ put_order o l.
Proof. intros Hin Hne. apply list_elem_of_fmap. exists x. by rewrite (proj2 (String.eqb_neq _ _)). Qed.

Lemma sum_put_orders (g : OrderIntent -> Z) l os os' : NoDup (ids l) -> NoDup (ids os) -> (forall o, o ∈ os -> o ∈ l) -> replaces os os' ->
  sum_by g (put_orders os' l) = sum_by g l - sum_by g os + sum_by g os'.
Proof.
  intros Hl Hos Hin Hr. induction Hr as [|o o' os os' Ho Hr IH]; [rewrite !sum_by_nil; cbn [put_orders foldr]; lia|]. apply NoDup_cons in Hos as [Hx Hos].
  cbn [put_orders foldr]. fold (put_orders os' l). rewrite (sum_put _ _ o); [|by rewrite ids_put_orders| |done].
  - rewrite IH; [rewrite !sum_by_cons; lia|done|]. intros x Hx'. apply Hin, elem_of_cons. by right.
  - specialize (Hin o (list_elem_of_here _ _)). clear IH Hos. revert Hx. induction Hr as [|x x' os os' Hxx Hr IH]; [done|].
    cbn [ids map]. intros [Hne Hx]%not_elem_of_cons. cbn [put_orders foldr]. fold (put_orders os' l).
    apply put_member; [by apply IH|]. by rewrite Hxx.
Qed.

Lemma forall_put (P : OrderIntent -> Prop) o l : Forall P l -> P o -> Forall P (put_order o l).
Proof. intros Hl Ho. apply Forall_fmap. eapply Forall_impl; [done|]. intros x Hx. cbn. by case_match. Qed.
Lemma forall_put_orders (P : OrderIntent -> Prop) os l : Forall P l -> Forall P os -> Forall P (put_orders os l).
Proof. intros Hl. induction 1 as [|o os Ho Hos IH]; [done|]. by apply forall_put. Qed.

(** ** What a desk keeps *)

(** The money of a facility. *)
Record money_ok (f : Facility) : Prop := {
  mo_collateral : fc_subjectCollateralMinor f = if fc_subjectCollateralRecorded f then fy_requiredSubjectCollateralMinor (fc_terms f) else 0;
  mo_funding : fc_providerFundingMinor f = if fc_providerFundingRecorded f then fy_requiredProviderFundingMinor (fc_terms f) else 0;
  mo_capital : fc_syntheticCapitalMinor f = fc_subjectCollateralMinor f + fc_providerFundingMinor f;
  mo_equity : fc_syntheticEquityMinor f = fc_syntheticCapitalMinor f - fc_syntheticExposureMinor f }.

(** What the status of a facility says of it. *)
Record phase_ok (f : Facility) : Prop := {
  ph_waiting : not_yet_active f = true ->
    fc_lifecycleStatus f = facilityLifecycle (fc_subjectCollateralRecorded f) (fc_providerFundingRecorded f) /\
    fc_syntheticExposureMinor f = 0 /\ fc_openOrderCount f = 0 /\ fc_riskState f = TradingFacilityRiskState_NORMAL;
  ph_contributed : not_yet_active f = false -> fc_subjectCollateralRecorded f = true /\ fc_providerFundingRecorded f = true;
  ph_active : fc_lifecycleStatus f = TradingFacilityLifecycleStatus_ACTIVE -> fc_riskState f <> TradingFacilityRiskState_SETTLEMENT;
  ph_flat : fc_lifecycleStatus f = TradingFacilityLifecycleStatus_FLATTENED ->
    fc_syntheticExposureMinor f = 0 /\ fc_openOrderCount f = 0 /\ is_risk (fc_riskState f) flattening = true }.

(** How one operation may change a facility. *)
Record moved (f f' : Facility) : Prop := {
  mv_terms : fc_terms f' = fc_terms f;
  mv_version : fc_version f < fc_version f';
  mv_started : not_yet_active f = false -> not_yet_active f' = false;
  mv_rank : riskStateRank (fc_riskState f) <= riskStateRank (fc_riskState f');
  mv_exposure : is_risk (fc_riskState f) [TradingFacilityRiskState_NORMAL; TradingFacilityRiskState_WARNING] = false ->
    fc_syntheticExposureMinor f' <= fc_syntheticExposureMinor f;
  mv_stuck : fc_lifecycleStatus f = TradingFacilityLifecycleStatus_ACTIVE -> is_risk (fc_riskState f) flattening = true ->
    fc_lifecycleStatus f' = TradingFacilityLifecycleStatus_ACTIVE }.

Section invariant.
Context `{HP : PlatformLaws} {HD : DigestLaws}.

(** An order in the store of the desk. *)
Record filed (n : nat) (f : Facility) (o : OrderIntent) : Prop := {
  fo_ok : order_ok o;
  fo_facility : oi_facilityId o = fy_tradingFacilityId (fc_terms f);
  fo_id : minted "trading_order_intent" n (oi_tradingOrderIntentId o);
  fo_version : is_open o = true -> oi_version o = 1 }.

Record DeskInv (n : nat) (d : Desk) : Prop := {
  di_stored : stored (dk_facility d);
  di_money : money_ok (dk_facility d);
  di_phase : phase_ok (dk_facility d);
  di_orders : Forall (filed n (dk_facility d)) (dk_orders d);
  di_ids : NoDup (ids (dk_orders d));
  di_exposure : fc_syntheticExposureMinor (dk_facility d) = sum_by open_notional (dk_orders d);
  di_count : fc_openOrderCount (dk_facility d) = sum_by open_count (dk_orders d) }.

Lemma DeskInv_mono n m d : (n <= m)%nat -> DeskInv n d -> DeskInv m d.
Proof.
  intros Hle []. split; try done. eapply Forall_impl; [done|]. intros o []. split; try done. by eapply minted_mono.
Qed.

Lemma sealed_money f g now : money_ok g -> money_ok (sealed f g now).
Proof. intros []. by split. Qed.
Lemma sealed_phase f g now : phase_ok g -> phase_ok (sealed f g now).
Proof. intros []. by split. Qed.

Lemma terms_of_stored f : stored f -> terms_ok (fc_terms f).
Proof. apply sf_terms. Qed.

(** An operation that leaves the orders as they are. *)
Lemma DeskInv_sealed n f l g now f' :
  DeskInv n (MkDesk f l) -> f' = sealed f g now -> stored f' -> fc_terms g = fc_terms f -> money_ok g -> phase_ok g ->
  fc_syntheticExposureMinor g = fc_syntheticExposureMinor f -> fc_openOrderCount g = fc_openOrderCount f ->
  DeskInv n (MkDesk f' l).
Proof.
  intros [_ _ _ Ho Hi He Hc] -> Hs Ht Hm Hp Ee Ec. cbn [dk_facility dk_orders] in *.
  split; cbn [dk_facility dk_orders]; [done|by apply sealed_money|by apply sealed_phase| |done| |].
  - eapply Forall_impl; [done|]. intros o []. split; try done. cbn. by rewrite Ht.
  - cbn. by rewrite Ee.
  - cbn. by rewrite Ec.
Qed.
End invariant.

(** Opens an operation that returned: its checks, decided, and its result. *)
Ltac decide_checks :=
  repeat match goal with
  | u : unit |- _ => destruct u
  | H : unavailable_if _ _ = Ok _ |- _ => apply unavailable_iff in H
  | H : _ || _ = false |- _ => apply orb_false_iff in H as [? ?]
  | H : _ && _ = true |- _ => apply andb_true_iff in H as [? ?]
  | H : negb _ = false |- _ => apply negb_false_iff in H
  | H : negb _ = true |- _ => apply negb_true_iff in H
  | H : String.eqb _ _ = true |- _ => apply String.eqb_eq in H
  | H : (_ =? _) = true |- _ => apply Z.eqb_eq in H
  | H : (_ <? _) = false |- _ => apply Z.ltb_ge in H
  | H : (_ <=? _) = false |- _ => apply Z.leb_gt in H
  | H : is_lifecycle _ _ = true |- _ => apply bool_decide_eq_true in H
  | H : actorHash _ = Ok _ |- _ => apply actorHash_Ok in H as [? ?]
  | H : positiveMinor _ _ _ = Ok _ |- _ => apply positiveMinor_iff in H as [? ?]
  end.
Ltac opened := result_inv; decide_checks.
