(* ===== verification/DeskProps.v ===== *)
(** * Trading desks: theorems

    What every desk keeps under every sequence of operations, and what the risk
    states of a facility let it do. *)

From stdpp Require Import base tactics sets relations gmap numbers strings list.
From S2P Require Import Prelude Js Enums EventStore Service Ledger Mandate Loan Servicing SandboxCredit LoanProps LoanLedger AcceptanceProps DecisionProps Trading Matching Facility FacilityProps Desk.
Local Open Scope string_scope.
Local Open Scope Z_scope.

(** Digests are compared by their arguments. *)
#[local] Opaque hashId.

(** ** Risk states *)

Lemma mostRestrictive_rank s t :
  riskStateRank (mostRestrictiveRiskState s t) = Z.max (riskStateRank s) (riskStateRank t).
Proof. by destruct s, t. Qed.

Lemma mostRestrictive_settlement s t : s <> TradingFacilityRiskState_SETTLEMENT -> t <> TradingFacilityRiskState_SETTLEMENT ->
  mostRestrictiveRiskState s t <> TradingFacilityRiskState_SETTLEMENT.
Proof. by destruct s, t. Qed.

Lemma not_yet_active_of f s : fc_lifecycleStatus f = s ->
  not_yet_active f = negb (is_lifecycle s TradingFacilityLifecycleStatus_ACTIVE) && negb (is_lifecycle s TradingFacilityLifecycleStatus_FLATTENED).
Proof. intros <-. done. Qed.

Lemma facilityLifecycle_waiting a b :
  facilityLifecycle a b <> TradingFacilityLifecycleStatus_ACTIVE /\ facilityLifecycle a b <> TradingFacilityLifecycleStatus_FLATTENED.
Proof. by destruct a, b. Qed.

Lemma facilityLifecycle_ready a b : facilityLifecycle a b = TradingFacilityLifecycleStatus_READY_FOR_ACTIVATION -> a = true /\ b = true.
Proof. by destruct a, b. Qed.

Section desk.
Context `{HP : PlatformLaws} {HD : DigestLaws}.

(** ** The operations, one at a time *)

(** An operation that leaves the orders keeps the invariant and moves the
    facility only as it may. *)
Definition moves (n : nat) (f : Facility) (l : list OrderIntent) (f' : Facility) : Prop := DeskInv n (MkDesk f' l) /\ moved f f'.

Lemma moves_sealed n f l g now f' :
  DeskInv n (MkDesk f l) -> updateFacilityState f g now = Ok f' -> fc_terms g = fc_terms f -> fc_version g = fc_version f ->
  money_ok g -> phase_ok g -> fc_syntheticExposureMinor g = fc_syntheticExposureMinor f -> fc_openOrderCount g = fc_openOrderCount f ->
  (not_yet_active f = false -> not_yet_active g = false) -> riskStateRank (fc_riskState f) <= riskStateRank (fc_riskState g) ->
  (fc_lifecycleStatus f = TradingFacilityLifecycleStatus_ACTIVE -> is_risk (fc_riskState f) flattening = true ->
   fc_lifecycleStatus g = TradingFacilityLifecycleStatus_ACTIVE) ->
  moves n f l f'.
Proof.
  intros Hi Hu Ht Hv Hm Hp He Hc Ha Hr Hk. apply updateFacilityState_Ok in Hu as [-> Hs].
  2: { rewrite Ht. apply Hi. }
  split; [by eapply DeskInv_sealed|]. split; try done; cbn; [lia|]. intros _. lia.
Qed.

(** The waiting facility once a side has contributed. *)
Lemma contributed_phase f (c r : bool) :
  fc_subjectCollateralRecorded f = c -> fc_providerFundingRecorded f = r -> fc_lifecycleStatus f = facilityLifecycle c r ->
  fc_syntheticExposureMinor f = 0 -> fc_openOrderCount f = 0 -> fc_riskState f = TradingFacilityRiskState_NORMAL -> phase_ok f.
Proof.
  intros Hc Hr Hl He Ho Hk. destruct (facilityLifecycle_waiting c r) as [N1 N2]. split; try congruence.
  - intros _. by rewrite Hc, Hr.
  - unfold not_yet_active, is_lifecycle. by rewrite Hl, !bool_decide_eq_false_2.
Qed.

Lemma waiting_not_active f : not_yet_active f = true -> fc_lifecycleStatus f <> TradingFacilityLifecycleStatus_ACTIVE.
Proof. intros Hw E. by rewrite (not_yet_active_of f _ E) in Hw. Qed.

Lemma collateral_moves n f l actor amount h v now f' : DeskInv n (MkDesk f l) ->
  contributeTradingSubjectCollateral f actor amount h v now = Ok f' -> moves n f l f'.
Proof.
  intros Hi. unfold contributeTradingSubjectCollateral. intros Hx. opened. subst.
  destruct (di_money _ _ Hi) as [M1 M2 M3 M4], (ph_waiting _ (di_phase _ _ Hi)) as (P1 & P2 & P3 & P4); [done|]. cbn [dk_facility] in *.
  eapply moves_sealed; [eassumption|eassumption|given..].
  - split; cbn; given; lia.
  - by apply (contributed_phase _ true (fc_providerFundingRecorded f)).
  - congruence.
  - intros K. by destruct (waiting_not_active _ ltac:(eassumption) K).
Qed.

Lemma funding_moves n f l actor amount h v now f' : DeskInv n (MkDesk f l) ->
  recordTradingProviderFunding f actor amount h v now = Ok f' -> moves n f l f'.
Proof.
  intros Hi. unfold recordTradingProviderFunding. intros Hx. opened. subst.
  destruct (di_money _ _ Hi) as [M1 M2 M3 M4], (ph_waiting _ (di_phase _ _ Hi)) as (P1 & P2 & P3 & P4); [done|]. cbn [dk_facility] in *.
  eapply moves_sealed; [eassumption|eassumption|given..].
  - split; cbn; given; lia.
  - by apply (contributed_phase _ (fc_subjectCollateralRecorded f) true).
  - congruence.
  - intros K. by destruct (waiting_not_active _ ltac:(eassumption) K).
Qed.

Lemma activate_moves n f l p o actor h v now f' : DeskInv n (MkDesk f l) ->
  activateTradingFacility f p o actor h v now = Ok f' -> moves n f l f'.
Proof.
  intros Hi. unfold activateTradingFacility. intros Hx. opened. subst.
  match goal with K : fc_lifecycleStatus f = _ |- _ => rename K into Hr end.
  destruct (ph_waiting _ (di_phase _ _ Hi)) as (P1 & P2 & P3 & P4); [by cbn [dk_facility]; rewrite (not_yet_active_of _ _ Hr)|]. cbn [dk_facility] in *.
  rewrite Hr in P1. symmetry in P1. apply facilityLifecycle_ready in P1 as [Hc Hf].
  eapply moves_sealed; [eassumption|eassumption|given..].
  - destruct (di_money _ _ Hi). split; given.
  - split; [intros K; vm_compute in K; discriminate|intros _; by split|discriminate|discriminate].
  - cbn -[riskStateRank]. by rewrite P4.
Qed.

(** The operations on an active facility that only tighten its risk state. *)
Lemma tightened_moves n f l target (g : Facility -> Facility) now f' :
  DeskInv n (MkDesk f l) -> fc_lifecycleStatus f = TradingFacilityLifecycleStatus_ACTIVE ->
  target <> TradingFacilityRiskState_SETTLEMENT ->
  (forall f, fc_terms (g f) = fc_terms f /\ fc_version (g f) = fc_version f /\ fc_lifecycleStatus (g f) = fc_lifecycleStatus f /\
     fc_subjectCollateralMinor (g f) = fc_subjectCollateralMinor f /\ fc_providerFundingMinor (g f) = fc_providerFundingMinor f /\
     fc_syntheticCapitalMinor (g f) = fc_syntheticCapitalMinor f /\ fc_syntheticExposureMinor (g f) = fc_syntheticExposureMinor f /\
     fc_syntheticEquityMinor (g f) = fc_syntheticEquityMinor f /\ fc_openOrderCount (g f) = fc_openOrderCount f /\
     fc_subjectCollateralRecorded (g f) = fc_subjectCollateralRecorded f /\
     fc_providerFundingRecorded (g f) = fc_providerFundingRecorded f) ->
  updateFacilityState f (set_risk (mostRestrictiveRiskState (fc_riskState f) target) (g f)) now = Ok f' -> moves n f l f'.
Proof.
  intros Hi Hl Ht Hg Hu. destruct (Hg f) as (G1 & G2 & G3 & G4 & G5 & G6 & G7 & G8 & G9 & G10 & G11).
  destruct (di_money _ _ Hi) as [M1 M2 M3 M4], (di_phase _ _ Hi) as [P1 P2 P3 P4]. cbn [dk_facility] in *.
  assert (Ha : not_yet_active f = false) by by rewrite (not_yet_active_of _ _ Hl).
  eapply moves_sealed; [eassumption|eassumption|cbn -[riskStateRank]; given..].
  - split; cbn; rewrite ?G1, ?G4, ?G5, ?G6, ?G7, ?G8, ?G10, ?G11; done.
  - split; cbn; rewrite ?G3, ?Hl, ?G10, ?G11; [|by intros _; apply P2|intros _; apply mostRestrictive_settlement; [by apply P3|done]|done].
    unfold not_yet_active. cbn. by rewrite G3, Hl.
  - unfold not_yet_active. cbn. by rewrite G3.
  - rewrite mostRestrictive_rank. lia.
  - by rewrite G3.
Qed.

Lemma pause_moves n f l actor reason h v now f' : DeskInv n (MkDesk f l) ->
  pauseTradingFacilityNewRisk f actor reason h v now = Ok f' -> moves n f l f'.
Proof.
  intros Hi. unfold pauseTradingFacilityNewRisk. intros Hx. opened.
  eapply (tightened_moves _ _ _ TradingFacilityRiskState_REDUCE_ONLY (set_reasons _)); [eassumption|assumption|discriminate|repeat split|eassumption].
Qed.

Lemma riskTarget_settlement f now r : riskTarget f now = Ok r -> r.1.1 <> TradingFacilityRiskState_SETTLEMENT.
Proof. unfold riskTarget. intros Hx. result_inv. repeat case_match; by simplify_eq. Qed.

Lemma settle_moves n f l actor h v now f' : DeskInv n (MkDesk f l) ->
  settleTradingFacility f actor h v now = Ok f' -> moves n f l f' /\ fc_lifecycleStatus f' = TradingFacilityLifecycleStatus_FLATTENED.
Proof.
  intros Hi. unfold settleTradingFacility. intros Hx. opened.
  match goal with K : fc_lifecycleStatus f = _ |- _ => rename K into Hl end.
  destruct (di_phase _ _ Hi) as [P1 P2 P3 P4]. cbn [dk_facility] in *.
  assert (Ha : not_yet_active f = false) by by rewrite (not_yet_active_of _ _ Hl). split.
  - eapply moves_sealed; [eassumption|eassumption|given..].
    + destruct (di_money _ _ Hi). by split.
    + destruct (P4 Hl) as (? & ? & _), (P2 Ha). split; [|intros _; by split|intros K; change (fc_lifecycleStatus f = TradingFacilityLifecycleStatus_ACTIVE) in K; congruence|intros _; by split_and!].
      intros K. change (not_yet_active f = true) in K. congruence.
    + cbn -[riskStateRank]. by destruct (fc_riskState f).
  - match goal with K : updateFacilityState _ _ _ = _ |- _ => apply updateFacilityState_Ok in K as [-> _] end; [done|apply Hi].
Qed.
(** An operation on an active facility that changes its orders. *)
Lemma orders_moves n m f l l' g now f' :
  DeskInv n (MkDesk f l) -> updateFacilityState f g now = Ok f' -> fc_terms g = fc_terms f -> fc_version g = fc_version f ->
  money_ok g -> phase_ok g -> Forall (filed m f) l' -> NoDup (ids l') ->
  fc_syntheticExposureMinor g = sum_by open_notional l' -> fc_openOrderCount g = sum_by open_count l' ->
  not_yet_active g = false -> riskStateRank (fc_riskState f) <= riskStateRank (fc_riskState g) ->
  (is_risk (fc_riskState f) [TradingFacilityRiskState_NORMAL; TradingFacilityRiskState_WARNING] = false ->
   fc_syntheticExposureMinor g <= fc_syntheticExposureMinor f) ->
  (fc_lifecycleStatus f = TradingFacilityLifecycleStatus_ACTIVE -> is_risk (fc_riskState f) flattening = true ->
   fc_lifecycleStatus g = TradingFacilityLifecycleStatus_ACTIVE) ->
  moves m f l' f'.
Proof.
  intros Hi Hu Ht Hv Hm Hp Ho Hn He Hc Ha Hr Hx Hk. apply updateFacilityState_Ok in Hu as [-> Hs].
  2: { rewrite Ht. apply Hi. }
  split; split; cbn [dk_facility dk_orders]; try done; [by apply sealed_money|by apply sealed_phase| |cbn; lia].
  eapply Forall_impl; [done|]. intros o []. split; given. cbn. by rewrite Ht.
Qed.

Lemma open_notional_nonneg n f l o : Forall (filed n f) l -> o ∈ l -> 0 <= open_notional o.
Proof.
  intros Hl Hin. destruct (proj1 (Forall_forall _ _) Hl o Hin) as [[] _ _ _]. unfold open_notional. case_match; [|done].
  match goal with K : amount_ok _ |- _ => unfold amount_ok in K; lia end.
Qed.

(** The facility of a desk with orders put in, still active. *)
Lemma traded_money f exposure count codes : money_ok f ->
  money_ok (set_orders exposure (fc_syntheticCapitalMinor f - exposure) count (set_reasons codes f)).
Proof. intros []. by split. Qed.

Lemma traded_phase f exposure equity count codes : fc_lifecycleStatus f = TradingFacilityLifecycleStatus_ACTIVE -> phase_ok f ->
  phase_ok (set_orders exposure equity count (set_reasons codes f)).
Proof.
  intros Hl []. split; cbn; try done; rewrite Hl; [|done]. intros K. exfalso. unfold not_yet_active in K. cbn in K. by rewrite Hl in K.
Qed.

Lemma wp_fresh_id prefix (Q : string -> Sys -> Prop) E y :
  Q (id_of prefix (uuids y)) (MkSys (S (uuids y)) (ticks y) (store y)) -> wp (createOperationalId prefix) Q E y.
Proof. done. Qed.

(** The checks of an operation in front of its result. *)
Ltac checks :=
  repeat (cbv beta zeta; lazymatch goal with
  | |- wp (lift _ ≫= _) _ _ _ => apply wp_bind, wp_lift; [intros ? _; cbv beta; cbn [uuids]; lia|intros ? ?]
  end).

Lemma ids_app l o : ids (l ++ [o]) = (ids l ++ [oi_tradingOrderIntentId o])%list.
Proof. apply map_app. Qed.

Lemma minted_ids n f l id : Forall (filed n f) l -> id ∈ ids l -> minted "trading_order_intent" n id.
Proof. intros Hl (o & -> & Ho)%list_elem_of_fmap. rewrite Forall_forall in Hl. by destruct (Hl o Ho). Qed.

Lemma submit_moves y f l actor direction notional h v now : DeskInv (uuids y) (MkDesk f l) ->
  wp (submitTradingOrderIntent f actor direction notional h v now)
    (fun res y' => moves (uuids y') f (l ++ [res.2]) res.1) (fun _ y' => (uuids y <= uuids y')%nat) y.
Proof.
  intros Hi. unfold submitTradingOrderIntent. checks. apply wp_bind, wp_fresh_id. checks. apply wp_ret. cbn [fst snd uuids].
  match goal with K : assertOrderIntent _ = Ok ?u |- _ => destruct u; apply assertOrderIntent_Ok in K; [|done..]; rename K into Hok end.
  match goal with |- moves _ _ (_ ++ [?o]) _ => set (order := o) in * end. opened. subst.
  pose proof Hi as [Hs Hm Hp Ho Hn He Hc]. cbn [dk_facility dk_orders] in *.
  assert (Hid : oi_tradingOrderIntentId order = id_of "trading_order_intent" (uuids y)) by done.
  eapply orders_moves; [eassumption|eassumption|given..].
  - by apply traded_money.
  - by apply traded_phase.
  - apply Forall_app. split; [|apply Forall_singleton; split; given].
    + eapply Forall_impl; [exact Ho|]. intros o []. split; given. eapply minted_mono; [|eassumption]. lia.
    + rewrite Hid. apply minted_new.
  - rewrite ids_app, Hid. apply NoDup_app. split_and!; [done| |apply NoDup_singleton].
    intros id Hin ->%list_elem_of_singleton. eapply minted_fresh; [|done]. by eapply minted_ids.
  - rewrite sum_by_app, <- He. change (sum_by open_notional [order]) with (oi_syntheticNotionalMinor order + 0). cbn. lia.
  - rewrite sum_by_app, <- Hc. change (sum_by open_count [order]) with (1 + 0). cbn. lia.
  - unfold not_yet_active. cbn. by match goal with K : fc_lifecycleStatus f = _ |- _ => rewrite K end.
  - match goal with K : is_risk _ _ = true |- _ => rewrite K end. done.
Qed.

Lemma active_of_exposure f : phase_ok f -> fc_syntheticExposureMinor f <> 0 ->
  fc_lifecycleStatus f = TradingFacilityLifecycleStatus_ACTIVE.
Proof.
  intros Hp He. destruct (not_yet_active f) eqn:E; [by destruct (ph_waiting _ Hp E) as (_ & ? & _)|].
  unfold not_yet_active in E. apply andb_false_iff in E as [E|E]; apply negb_false_iff, bool_decide_eq_true in E; [done|].
  by destruct (ph_flat _ Hp E) as (? & _).
Qed.

Lemma cancel_moves n f l o actor h v oh ov now res : DeskInv n (MkDesk f l) -> o ∈ l ->
  cancelTradingOrderIntent f o actor h v oh ov now = Ok res -> moves n f (put_order res.2 l) res.1.
Proof.
  intros Hi Hin. unfold cancelTradingOrderIntent. intros Hx. opened. cbn [fst snd].
  pose proof Hi as [Hs Hm Hp Ho Hn He Hc]. cbn [dk_facility dk_orders] in *.
  pose proof (proj1 (Forall_forall _ _) Ho o Hin) as [Fo Ff Fi Fv].
  match goal with K : updateOrderState _ _ _ _ _ _ = _ |- _ => apply updateOrderState_Ok in K as [-> Hv]; [|done] end.
  set (o' := changed_order _ _ _ _ _ _) in *. assert (Ht : is_open o = true) by done. pose proof (oo_amount _ Fo) as Ha. unfold amount_ok in Ha.
  assert (Hw : open_notional o = oi_syntheticNotionalMinor o) by (unfold open_notional; by rewrite Ht).
  assert (Hk : open_count o = 1) by (unfold open_count; by rewrite Ht).
  pose proof (sum_by_elem open_notional l o (fun x => open_notional_nonneg _ _ _ x Ho) Hin) as Hle.
  assert (Hl : fc_lifecycleStatus f = TradingFacilityLifecycleStatus_ACTIVE) by (apply active_of_exposure; [done|lia]).
  eapply orders_moves; [eassumption|eassumption|given..].
  - by apply traded_money.
  - by apply traded_phase.
  - apply forall_put; [assumption|]. split; [by apply changed_order_ok|assumption|exact Fi|discriminate].
  - by rewrite ids_put.
  - rewrite (sum_put _ _ o o'), <- He, Hw by done. change (open_notional o') with 0. cbn. lia.
  - rewrite (sum_put _ _ o o'), <- Hc, Hk by done. change (open_count o') with 0. cbn. lia.
  - unfold not_yet_active. cbn. by rewrite Hl.
  - intros _. cbn. lia.
Qed.

Lemma evaluate_moves y f l actor h v now : DeskInv (uuids y) (MkDesk f l) ->
  wp (evaluateTradingFacilityRisk f actor h v now)
    (fun res y' => moves (uuids y') f l res.1) (fun _ y' => (uuids y <= uuids y')%nat) y.
Proof.
  intros Hi. unfold evaluateTradingFacilityRisk. checks.
  match goal with K : riskTarget f now = Ok ?t |- _ => pose proof (riskTarget_settlement _ _ _ K) as Ht; destruct t as [[target freshness] codes] end.
  apply wp_bind, wp_fresh_id. checks. apply wp_ret. cbn [fst snd uuids] in *. opened.
  eapply (tightened_moves _ _ _ target (fun f => set_reasons codes (set_evaluation _ _ f))); [|assumption|exact Ht|repeat split|eassumption].
  eapply DeskInv_mono; [|done]. lia.
Qed.

(** The open orders after a flattening. *)
Definition flattened_order (reason : string) (now : Z) (o : OrderIntent) : OrderIntent :=
  changed_order o TradingOrderIntentStatus_FLATTENED ("protective_flatten:" +:+ reason) (oi_canceledAt o) (Some now) now.

Lemma flatten_orders_Ok fid reason now seen l res : Forall order_ok l -> flatten_orders fid reason now seen l = Ok res ->
  res = (map (flattened_order reason now) l, sum_by oi_syntheticNotionalMinor l) /\ Forall (fun o => oi_version o < 9007199254740991) l.
Proof.
  intros Hl. revert seen res. induction Hl as [|o l Ho Hl IH]; intros seen res; cbn [flatten_orders]; [by intros [= <-]|].
  intros Hx. opened. match goal with K : updateOrderState _ _ _ _ _ _ = _ |- _ => apply updateOrderState_Ok in K as [-> Hv]; [|done] end.
  match goal with K : flatten_orders _ _ _ _ l = _ |- _ => destruct (IH _ _ K) as [-> Hvs] end. split; [done|by constructor].
Qed.

Lemma replaces_flattened reason now l : replaces l (map (flattened_order reason now) l).
Proof. induction l; by constructor. Qed.

Lemma sum_flattened (g : OrderIntent -> Z) reason now l : (forall o, is_open o = false -> g o = 0) -> sum_by g (map (flattened_order reason now) l) = 0.
Proof. intros Hg. induction l as [|o l IH]; [done|]. cbn [map]. rewrite sum_by_cons, IH, Hg by done. done. Qed.

Lemma open_member o l : o ∈ open_orders l <-> o ∈ l /\ is_open o = true.
Proof. unfold open_orders. rewrite !list_elem_of_In, filter_In. done. Qed.

Lemma open_ids l : NoDup (ids l) -> NoDup (ids (open_orders l)).
Proof.
  induction l as [|o l IH]; [done|]. cbn [ids map]. intros [Hx Hl]%NoDup_cons. rewrite open_orders_cons. destruct (is_open o); [|by apply IH].
  apply NoDup_cons. split; [|by apply IH]. intros (x & Hid & [Hin _]%open_member)%list_elem_of_fmap. apply Hx. rewrite Hid. by apply member_id.
Qed.

Lemma flatten_moves n f l actor reason h v now res : DeskInv n (MkDesk f l) ->
  flattenTradingFacility f (open_orders l) actor reason h v now = Ok res -> moves n f (put_orders res.2 l) res.1.
Proof.
  intros Hi. unfold flattenTradingFacility. intros Hx. opened. cbn [fst snd].
  pose proof Hi as [Hs Hm Hp Ho Hn He Hc]. cbn [dk_facility dk_orders] in *.
  assert (Hop : Forall order_ok (open_orders l)).
  { apply Forall_forall. intros o [Hin _]%open_member. by destruct (proj1 (Forall_forall _ _) Ho o Hin). }
  match goal with K : flatten_orders _ _ _ _ _ = _ |- _ => destruct (flatten_orders_Ok _ _ _ _ _ _ Hop K) as [-> Hv] end. cbn [fst snd] in *.
  match goal with K : fc_lifecycleStatus f = _ |- _ => rename K into Hl end.
  destruct Hm as [M1 M2 M3 M4], Hp as [P1 P2 P3 P4]. destruct P2 as [C1 C2]; [by rewrite (not_yet_active_of _ _ Hl)|].
  assert (Hsum : forall g, (forall o, is_open o = false -> g o = 0) ->
    sum_by g (put_orders (map (flattened_order reason now) (open_orders l)) l) = 0).
  { intros g Hg. rewrite (sum_put_orders _ _ (open_orders l)); [|done|by apply open_ids|by intros o [? _]%open_member|apply replaces_flattened].
    rewrite sum_flattened, sum_open by done. lia. }
  eapply orders_moves; [eassumption|eassumption|given..].
  - split; cbn; given. lia.
  - split; [intros K; vm_compute in K; discriminate|intros _; by split|discriminate|intros _; by split_and!].
  - apply forall_put_orders; [done|]. apply Forall_fmap, Forall_forall. intros o Hin. pose proof (proj1 (Forall_forall _ _) Hv o Hin) as Hvo.
    apply open_member in Hin as [Hin _]. destruct (proj1 (Forall_forall _ _) Ho o Hin) as [F1 F2 F3 F4]. split; [by apply changed_order_ok|assumption|exact F3|discriminate].
  - by rewrite ids_put_orders.
  - rewrite Hsum; [done|]. unfold open_notional. by intros o ->.
  - rewrite Hsum; [done|]. unfold open_count. by intros o ->.
  - cbn -[riskStateRank]. specialize (P3 Hl). by destruct (fc_riskState f).
  - intros _. cbn. rewrite He. apply sum_by_nonneg. intros o Hin. by eapply open_notional_nonneg.
  - intros _ K. by match goal with K' : is_risk _ flattening = false |- _ => rewrite K' in K end.
Qed.

(** ** Every operation, and sequences of them *)

Definition desk_moves (d : Desk) (n : nat) (d' : Desk) : Prop := DeskInv n d' /\ moved (dk_facility d) (dk_facility d').

Lemma wp_keep_orders y d r :
  (forall f', r = Ok f' -> moves (uuids y) (dk_facility d) (dk_orders d) f') ->
  wp (keep_orders d r) (fun d' y' => desk_moves d (uuids y') d') (fun _ y' => (uuids y <= uuids y')%nat) y.
Proof. intros Hr. apply wp_bind, wp_lift; [by intros ? _|]. intros f' E. apply wp_ret. by apply Hr. Qed.

Lemma find_order_member id l o : find_order id l = Some o -> o ∈ l.
Proof. intros [Hin _]%List.find_some. by apply list_elem_of_In. Qed.

Lemma serve_moves r y d : DeskInv (uuids y) d ->
  wp (serve r d) (fun d' y' => desk_moves d (uuids y') d') (fun _ y' => (uuids y <= uuids y')%nat) y.
Proof.
  destruct d as [f l]. intros Hi. unfold serve. cbn [dk_facility dk_orders].
  destruct (rq_op r) as [actor amount|actor amount|p o actor|actor direction notional|id actor orderHash orderVersion|actor|actor reason|actor reason|actor].
  - apply wp_keep_orders. intros f'. by apply collateral_moves.
  - apply wp_keep_orders. intros f'. by apply funding_moves.
  - apply wp_keep_orders. intros f'. by apply activate_moves.
  - apply wp_bind. eapply wp_mono; [by apply submit_moves| |done]. intros [f' o] y' K. by apply wp_ret.
  - apply wp_bind, wp_some_or; [|by intros _]. intros o Ho%find_order_member. apply wp_bind, wp_lift; [by intros ? _|].
    intros res E. apply wp_ret. by eapply cancel_moves.
  - apply wp_bind. eapply wp_mono; [by apply evaluate_moves| |done]. intros [f' e] y' K. by apply wp_ret.
  - apply wp_keep_orders. intros f'. by apply pause_moves.
  - apply wp_bind, wp_lift; [by intros ? _|]. intros res E. apply wp_ret. by eapply flatten_moves.
  - apply wp_keep_orders. intros f' E. by eapply settle_moves in E as [? _].
Qed.

(** What several operations may do. *)
Record moved_on (f f' : Facility) : Prop := {
  mo_terms : fc_terms f' = fc_terms f;
  mo_version : fc_version f <= fc_version f';
  mo_started : not_yet_active f = false -> not_yet_active f' = false;
  mo_rank : riskStateRank (fc_riskState f) <= riskStateRank (fc_riskState f');
  mo_exposure : is_risk (fc_riskState f) [TradingFacilityRiskState_NORMAL; TradingFacilityRiskState_WARNING] = false ->
    fc_syntheticExposureMinor f' <= fc_syntheticExposureMinor f;
  mo_stuck : fc_lifecycleStatus f = TradingFacilityLifecycleStatus_ACTIVE -> is_risk (fc_riskState f) flattening = true ->
    fc_lifecycleStatus f' = TradingFacilityLifecycleStatus_ACTIVE }.

Lemma flattening_rank s : is_risk s flattening = (3 <=? riskStateRank s).
Proof. by destruct s. Qed.

Lemma is_risk_rank s : is_risk s [TradingFacilityRiskState_NORMAL; TradingFacilityRiskState_WARNING] = (riskStateRank s <? 2).
Proof. by destruct s. Qed.

#[export] Instance moved_on_preorder : PreOrder moved_on.
Proof.
  split; [by split|]. intros f1 f2 f3 [] []. split; try (by auto); try lia; try congruence.
  2: { rewrite flattening_rank in *. intros L K. apply mo_stuck1; [by apply mo_stuck0|lia]. }
  rewrite is_risk_rank in *. intros K. specialize (mo_exposure0 K). assert ((riskStateRank (fc_riskState f2) <? 2) = false) as K' by lia.
  specialize (mo_exposure1 K'). lia.
Qed.

Lemma moved_moved_on f f' : moved f f' -> moved_on f f'.
Proof. intros []. split; try done. lia. Qed.

Lemma desk_step_inv y d y' d' : desk_step (y, d) (y', d') -> DeskInv (uuids y) d ->
  DeskInv (uuids y') d' /\ moved_on (dk_facility d) (dk_facility d').
Proof.
  intros Hst Hi. inversion Hst as [r y1 d1 y2 d2 E|r y1 d1 e y2 E]; subst; pose proof (wp_run _ _ _ _ _ _ (serve_moves r _ _ Hi) E) as K; cbn in K.
  - destruct K as [? ?%moved_moved_on]. done.
  - split; [by eapply DeskInv_mono|reflexivity].
Qed.

Lemma desk_run_inv y d y' d' : desk_run (y, d) (y', d') -> DeskInv (uuids y) d ->
  DeskInv (uuids y') d' /\ moved_on (dk_facility d) (dk_facility d').
Proof.
  intros Hr. remember (y, d) as s eqn:Es. remember (y', d') as s' eqn:Es'. revert y d Es Es'.
  induction Hr as [s|s [y1 d1] s' Hst Hr IH]; intros y d -> E Hi; [injection E as <- <-; by split|]. subst s'.
  destruct (desk_step_inv _ _ _ _ Hst Hi) as [Hi1 Hm1]. destruct (IH y1 d1 eq_refl eq_refl Hi1) as [Hi2 Hm2].
  split; [done|by etrans].
Qed.

Lemma create_inv p o actor now y0 y1 f : createTradingFacility p o actor now y0 = (Ok f, y1) -> DeskInv (uuids y1) (MkDesk f []).
Proof.
  intros E. refine (wp_run _ (fun f y => DeskInv (uuids y) (MkDesk f [])) (fun _ _ => True) _ _ _ _ E). clear E.
  unfold createTradingFacility. repeat (cbv beta zeta; lazymatch goal with
  | |- wp (lift _ ≫= _) _ _ _ => apply wp_bind, wp_lift; [by intros ? _|intros ? ?]
  | |- wp (createOperationalId _ ≫= _) _ _ _ => apply wp_bind, wp_fresh_id
  end). apply wp_ret.
  match goal with K : assertFacility ?g = Ok ?u |- _ => destruct u; assert (Ht : terms_ok (fc_terms g)) end.
  { match goal with K : assertFacility _ = Ok _ |- _ => unfold assertFacility in K end. result_inv.
    split; [reflexivity|by split_and!| |split; [apply hashId_hex|reflexivity]|reflexivity].
    match goal with K : identifier _ _ _ = Ok _ |- _ => apply guard_Ok, negb_false_iff in K; exact K end. }
  match goal with K : assertFacility ?g = Ok _ |- _ =>
    assert (Ho : observed g) by (eexists; reflexivity); apply assertFacility_Ok in K; [|exact Ht|exact Ho|reflexivity]; rename K into Hb end.
  split; cbn [dk_facility dk_orders].
  - split; [exact Ht|exact Ho|reflexivity|exact Hb].
  - split; reflexivity.
  - by apply (contributed_phase _ false false).
  - constructor.
  - constructor.
  - reflexivity.
  - reflexivity.
Qed.

Lemma reachable_inv y d : reachable y d -> DeskInv (uuids y) d.
Proof.
  intros (p & o & actor & now & y0 & y1 & f & Hc%create_inv & Hr). by destruct (desk_run_inv _ _ _ _ Hr Hc).
Qed.

(** C5: In every state a desk can reach, whatever operations are asked of it and
    whichever of them are refused, the facility passes its own integrity check; its
    exposure is the total notional of its open orders, and its order count their
    number, at most twenty; its capital is what the two sides have contributed, each
    exactly what the terms require of it or nothing; its equity is the capital less
    the exposure, and none of these is negative; and no order is filed twice. *)
Theorem desk_reconciles y d : reachable y d ->
  let f := dk_facility d in let l := dk_orders d in
  assertFacility f = Ok () /\ Forall (fun o => assertOrderIntent o = Ok ()) l /\ NoDup (ids l) /\
  fc_syntheticExposureMinor f = sum_by oi_syntheticNotionalMinor (open_orders l) /\
  fc_openOrderCount f = Z.of_nat (length (open_orders l)) /\ fc_openOrderCount f <= MAX_OPEN_ORDERS /\
  fc_subjectCollateralMinor f = (if fc_subjectCollateralRecorded f then fy_requiredSubjectCollateralMinor (fc_terms f) else 0) /\
  fc_providerFundingMinor f = (if fc_providerFundingRecorded f then fy_requiredProviderFundingMinor (fc_terms f) else 0) /\
  fc_syntheticCapitalMinor f = fc_subjectCollateralMinor f + fc_providerFundingMinor f /\
  fc_syntheticEquityMinor f = fc_syntheticCapitalMinor f - fc_syntheticExposureMinor f /\
  0 <= fc_syntheticExposureMinor f <= fc_syntheticCapitalMinor f.
Proof.
  intros Hr. destruct (reachable_inv _ _ Hr) as [Hs Hm Hp Ho Hn He Hc]. cbv zeta. destruct Hm as [M1 M2 M3 M4], (sf_bounds _ Hs) as [V C B1 B2 B3 B4 B5].
  unfold minor_ok in *. split_and!; try done; try lia.
  - by apply stored_assert.
  - eapply Forall_impl; [done|]. intros o []. by apply order_ok_assert.
  - by rewrite He, sum_open_notional.
  - by rewrite count_open.
Qed.

(** ** Protection and concurrency *)

(** C14: Protection only tightens: under any sequence of operations the risk state of
    a facility never becomes less restrictive, and from [REDUCE_ONLY] on, no sequence
    of operations raises its exposure; what was agreed when it was created does not
    change either. *)
Theorem protection_is_monotone y d y' d' : reachable y d -> desk_run (y, d) (y', d') ->
  riskStateRank (fc_riskState (dk_facility d)) <= riskStateRank (fc_riskState (dk_facility d')) /\
  (riskStateRank TradingFacilityRiskState_REDUCE_ONLY <= riskStateRank (fc_riskState (dk_facility d)) ->
   fc_syntheticExposureMinor (dk_facility d') <= fc_syntheticExposureMinor (dk_facility d)) /\
  fc_terms (dk_facility d') = fc_terms (dk_facility d).
Proof.
  intros Hi%reachable_inv Hr. destruct (desk_run_inv _ _ _ _ Hr Hi) as [_ [T V A R E _]]. split_and!; [done| |done].
  intros K. apply E. rewrite is_risk_rank. change (riskStateRank TradingFacilityRiskState_REDUCE_ONLY) with 2 in K. lia.
Qed.

Lemma serve_checks r d y d' y' : serve r d y = (Ok d', y') ->
  assertExpectedFacility (dk_facility d) (rq_stateHash r) (rq_version r) = Ok ().
Proof.
  destruct (assertExpectedFacility (dk_facility d) (rq_stateHash r) (rq_version r)) as [[]|e] eqn:E; [done|]. intros K. exfalso. revert K.
  unfold serve, keep_orders, contributeTradingSubjectCollateral, recordTradingProviderFunding, activateTradingFacility,
    submitTradingOrderIntent, cancelTradingOrderIntent, evaluateTradingFacilityRisk, pauseTradingFacilityNewRisk,
    flattenTradingFacility, settleTradingFacility.
  destruct (rq_op r); cbv beta iota zeta; try destruct (find_order _ _); unfold some_or; rewrite ?E; discriminate.
Qed.

Lemma serve_names r d y d' y' : stored (dk_facility d) -> serve r d y = (Ok d', y') -> rq_version r = fc_version (dk_facility d).
Proof. intros Hs K%serve_checks. by apply assertExpectedFacility_Ok in K as [_ ?]. Qed.

(** C15: No update is lost: once a request made on a version of a facility has been
    served, every other request made on that version, or on an earlier one, is refused,
    however many operations come in between. *)
Theorem stale_requests_refused r r' y d y1 d1 y2 d2 :
  reachable y d -> serve r d y = (Ok d1, y1) -> desk_run (y1, d1) (y2, d2) -> rq_version r' <= rq_version r ->
  exists e y', serve r' d2 y2 = (Err e, y').
Proof.
  intros Hi%reachable_inv Hs Hr Hle. pose proof (serve_names _ _ _ _ _ (di_stored _ _ Hi) Hs) as Hv.
  pose proof (wp_run _ _ _ _ _ _ (serve_moves r y d Hi) Hs) as [Hi1 Hm]. destruct (desk_run_inv _ _ _ _ Hr Hi1) as [Hi2 Ho].
  destruct (serve r' d2 y2) as [[d3|e] y'] eqn:E; [|eauto]. apply serve_names in E; [|apply Hi2].
  pose proof (mv_version _ _ Hm). pose proof (mo_version _ _ Ho). lia.
Qed.
End desk.
