(* ===== verification/SettlementProps.v ===== *)
(** * Closing a facility: theorems

    What a settlement returns, that a facility whose risk state still admits it can
    be flattened, closed and settled, and that one whose evaluation has reached
    [FLATTEN] cannot. *)

From stdpp Require Import base tactics sets relations gmap numbers strings list.
From S2P Require Import Prelude Js Enums EventStore Service Ledger Mandate Loan Servicing SandboxCredit LoanProps LoanLedger AcceptanceProps DecisionProps Trading Matching Facility Settlement FacilityProps Desk DeskProps.
Local Open Scope string_scope.
Local Open Scope Z_scope.

#[local] Opaque hashId.

(** ** Times and identifiers *)

Lemma get_append s t n : (String.length s <= n)%nat -> String.get n (s +:+ t) = String.get (n - String.length s) t.
Proof. revert n. induction s as [|c s IH]; intros [|n] Hn; cbn in *; try done; try lia. apply IH. lia. Qed.

Lemma ends_in_zone_Z s : ends_in_zone (s +:+ "Z") = true.
Proof.
  unfold ends_in_zone. rewrite get_append by (rewrite length_append; cbn; lia). rewrite length_append.
  replace (String.length s + String.length "Z" - 1 - String.length s)%nat with 0%nat by (cbn; lia). done.
Qed.

Lemma append_assoc s t u : s +:+ (t +:+ u) = (s +:+ t) +:+ u.
Proof. induction s as [|c s IH]; [done|exact (f_equal (String c) IH)]. Qed.

Lemma toISOString_zone t : ends_in_zone (toISOString t) = true.
Proof. unfold toISOString. destruct (civil_from_days _) as [[y m] d]. rewrite !append_assoc. apply ends_in_zone_Z. Qed.

Section settlement.
Context `{HP : PlatformLaws} {HD : DigestLaws}.

Lemma timestamp_now name now : reads now -> timestamp name (toISOString now) = Ok ().
Proof. intros (_ & _ & E). unfold timestamp, date. rewrite E, toISOString_zone. done. Qed.

Lemma uuid_identifier c : is_uuid_char c = true -> is_identifier_char c = true.
Proof. unfold is_uuid_char, is_identifier_char, is_alnum, is_lower. intros K. repeat (apply orb_true_iff in K as [K|K]); rewrite ?K, ?orb_true_r; try done. lia. Qed.

Lemma all_chars_mono (p q : Ascii.ascii -> bool) s : (forall c, p c = true -> q c = true) -> all_chars p s = true -> all_chars q s = true.
Proof. intros Hpq. induction s as [|c s IH]; [done|]. cbn. intros [Hc Hs]%andb_true_iff. by rewrite (Hpq _ Hc), (IH Hs). Qed.

Lemma id_identifier c prefix n :
  is_alnum c && all_chars is_identifier_char prefix && (String.length prefix <=? 100)%nat = true -> (String.length (randomUUID n) <= 36)%nat ->
  IDENTIFIER_PATTERN (id_of (String c prefix) n) = true.
Proof.
  intros [[Hc Hp]%andb_true_iff Hl%Nat.leb_le]%andb_true_iff Hn. unfold id_of.
  change (IDENTIFIER_PATTERN (String c (prefix +:+ "_" +:+ randomUUID n)) = true). unfold IDENTIFIER_PATTERN. rewrite !andb_true_iff. split_and!.
  - done.
  - rewrite !all_chars_append, Hp. cbn. eapply all_chars_mono; [apply uuid_identifier|apply randomUUID_chars].
  - apply Nat.leb_le. rewrite !length_append. cbn. lia.
Qed.

(** ** Flattening *)

Lemma updateFacilityState_total f g now : terms_ok (fc_terms g) -> within_bounds (sealed f g now) ->
  updateFacilityState f g now = Ok (sealed f g now).
Proof. intros Ht Hb. apply updateFacilityState_Ok; [done|]. split; [done|]. by split; [|apply sealed_observed|apply sealed_hashed|]. Qed.

Lemma updateOrderState_total o status reason canceledAt flattenedAt now : order_ok o -> oi_version o < 9007199254740991 ->
  updateOrderState o status reason canceledAt flattenedAt now = Ok (changed_order o status reason canceledAt flattenedAt now).
Proof. intros Ho Hv. by apply updateOrderState_Ok. Qed.

Lemma flatten_orders_total fid reason now seen l :
  Forall (fun o => order_ok o /\ oi_facilityId o = fid /\ is_open o = true /\ oi_version o = 1) l -> NoDup (ids l) ->
  (forall id, id ∈ ids l -> id ∉ seen) ->
  flatten_orders fid reason now seen l = Ok (map (flattened_order reason now) l, sum_by oi_syntheticNotionalMinor l).
Proof.
  intros Hl. revert seen. induction Hl as [|o l (Ho & Hf & Hop & Hv) Hl IH]; intros seen Hn Hs; [done|].
  cbn [ids map] in *. apply NoDup_cons in Hn as [Hx Hn]. cbn [flatten_orders]. rewrite order_ok_assert by done. cbn [mbind result_bind].
  rewrite Hf, String.eqb_refl. unfold is_open in Hop. rewrite Hop. rewrite (bool_decide_eq_false_2 (_ ∈ seen)) by (apply Hs; left).
  cbn [negb orb unavailable_if guard mbind result_bind].
  rewrite updateOrderState_total by (done || lia). cbn [mbind result_bind].
  rewrite IH; [done|done|]. intros id Hid Hin. apply elem_of_cons in Hin as [->|Hin]; [done|]. apply (Hs id); [by right|done].
Qed.

(** The facility after a flattening. *)
Definition flattened_facility (f : Facility) (reason : string) (now : Z) : Facility :=
  sealed f (set_lifecycle TradingFacilityLifecycleStatus_FLATTENED (set_risk TradingFacilityRiskState_FLATTEN
    (set_reasons ["protective_flatten:" +:+ reason] (set_orders 0 (fc_syntheticCapitalMinor f) 0 (set_flattenedAt (Some now) f))))) now.

Lemma flatten_total n f l actor reason now : DeskInv n (MkDesk f l) ->
  fc_lifecycleStatus f = TradingFacilityLifecycleStatus_ACTIVE -> is_risk (fc_riskState f) flattening = false ->
  IDENTIFIER_PATTERN actor = true -> IDENTIFIER_PATTERN reason = true -> fc_version f < 9007199254740991 ->
  flattenTradingFacility f (open_orders l) actor reason (fc_stateHash f) (fc_version f) now =
    Ok (flattened_facility f reason now, map (flattened_order reason now) (open_orders l)).
Proof.
  intros Hi Hl Hr Ha Hre Hv. pose proof Hi as [Hs Hm Hp Ho Hn He Hc]. cbn [dk_facility dk_orders] in *.
  pose proof (sf_bounds _ Hs) as [V C B1 B2 B3 B4 B5]. unfold flattenTradingFacility.
  apply check_then. split; [by apply assertExpectedFacility_Ok|]. apply check_then. split; [apply guard_Ok; by rewrite Hre|].
  apply bind_Ok. eexists. split; [by apply actorHash_Ok|]. apply check_then. split.
  { apply guard_Ok. unfold is_lifecycle. rewrite bool_decide_eq_true_2, Hr, count_open, <- Hc, Z.eqb_refl by done. cbn [negb orb]. apply Z.ltb_ge. lia. }
  apply bind_Ok. eexists. split; [apply flatten_orders_total|].
  - apply Forall_forall. intros o [Hin Hop]%open_member. destruct (proj1 (Forall_forall _ _) Ho o Hin) as [F1 F2 F3 F4]. by auto.
  - by apply open_ids.
  - by intros ? _ ?%not_elem_of_nil.
  - cbn [fst snd]. rewrite <- sum_open_notional, <- He. apply check_then. split; [apply guard_Ok; by rewrite Z.eqb_refl|].
    apply bind_Ok. eexists. split; [apply updateFacilityState_total|reflexivity]; [apply Hs|].
    split; try assumption; cbn [fc_version fc_openOrderCount fc_syntheticExposureMinor fc_syntheticEquityMinor sealed]; unfold minor_ok; cbn; lia.
Qed.

(** ** Closing *)

(** A facility that can be closed. *)
Record flat (f : Facility) : Prop := {
  fl_lifecycle : fc_lifecycleStatus f = TradingFacilityLifecycleStatus_FLATTENED;
  fl_risk : fc_riskState f = TradingFacilityRiskState_FLATTEN;
  fl_orders : fc_openOrderCount f = 0 /\ fc_syntheticExposureMinor f = 0;
  fl_equity : fc_syntheticEquityMinor f = fc_syntheticCapitalMinor f;
  fl_recorded : fc_subjectCollateralRecorded f = true /\ fc_providerFundingRecorded f = true }.

(** A request to close a facility in the state it is in. *)
Record closes (q : CloseRequest) (f : Facility) : Prop := {
  cl_ok : assertCloseRequest q = Ok ();
  cl_facility : cq_facilityId q = fy_tradingFacilityId (fc_terms f) /\ cq_facilityHash q = fy_facilityHash (fc_terms f);
  cl_state : cq_facilityStateHash q = fc_stateHash f /\ cq_facilityVersion q = fc_version f;
  cl_obligation : cq_obligationId q = fy_obligationId (fc_terms f) }.

Lemma no_pii_close_request q : cq_safety q = commonSafety -> no_pii (close_request_json q).
Proof.
  intros E. apply no_pii_obj.
  - rewrite E. vm_compute. reflexivity.
  - rewrite !map_app. cbn [map snd closeRequestCore]. fields.
Qed.

Lemma no_pii_settlement x : st_safety x = commonSafety -> no_pii (settlement_json x).
Proof.
  intros E. apply no_pii_obj.
  - rewrite E. vm_compute. reflexivity.
  - rewrite !map_app. cbn [map snd settlementCore]. fields.
Qed.

Lemma view_Ok f : stored f -> tradingFacilityView f = Ok f.
Proof. intros Hs. unfold tradingFacilityView. by rewrite stored_assert. Qed.

Lemma close_total f actor now y : stored f -> flat f -> IDENTIFIER_PATTERN actor = true ->
  hashId "actor" (JStr actor) = fy_subjectActorHash (fc_terms f) -> reads now -> (String.length (randomUUID (uuids y)) <= 36)%nat ->
  wp (requestTradingFacilityClose f actor (fc_stateHash f) (fc_version f) now)
    (fun q y' => closes q f /\ uuids y' = S (uuids y)) (fun _ _ => False) y.
Proof.
  intros Hs [L R [O1 O2] Eq _] Ha Hx Hnow Hid. unfold requestTradingFacilityClose. cbv zeta.
  eapply wp_passes; [by apply view_Ok|]. apply (wp_passes _ ()); [apply guard_Ok, negb_false_iff; rewrite (sf_hashed _ Hs); apply hashId_hex|].
  apply (wp_passes _ ()).
  { apply guard_Ok. rewrite (to_schema _ (sf_terms _ Hs)), !String.eqb_refl, L, R, O1, O2, Eq, !Z.eqb_refl. vm_compute. reflexivity. }
  unfold settlement_actorHash, identifier. eapply wp_passes; [by rewrite Ha|]. apply (wp_passes _ ()); [apply guard_Ok; by rewrite Hx, String.eqb_refl|].
  apply wp_bind, wp_fresh_id. cbv beta zeta.
  apply (wp_passes _ ()); [by apply no_pii_close_request|]. match goal with |- context [assertCloseRequest ?q] => assert (Hq : assertCloseRequest q = Ok ()) end.
  { apply check_then. split; [reflexivity|]. apply check_then. split; [apply guard_Ok, negb_false_iff; by apply id_identifier|].
    apply check_then. split; [apply guard_Ok, negb_false_iff, hashId_hex|]. apply check_then. split; [by apply timestamp_now|].
    apply check_then. split; [reflexivity|]. apply guard_Ok, negb_false_iff, String.eqb_eq. unfold closeRequestCore. cbn. reflexivity. }
  apply (wp_passes _ ()); [exact Hq|]. apply wp_ret. split; [|done]. by split.
Qed.

(** ** Settling *)

(** A settlement that gives each side its contribution back, and nothing else. *)
Record returns_contributions (x : Settlement) (f : Facility) : Prop := {
  rc_subject : st_subjectReturnMinor x = fc_subjectCollateralMinor f;
  rc_provider : st_providerPrincipalReturnMinor x = fc_providerFundingMinor f;
  rc_total : st_totalAllocatedMinor x = fc_syntheticCapitalMinor f /\
    st_subjectReturnMinor x + st_providerPrincipalReturnMinor x = fc_syntheticCapitalMinor f;
  rc_free : st_ipoOneFeeMinor x = 0 /\ st_realizedPnlMinor x = 0 /\ st_venueCostMinor x = 0 /\ st_closingCostMinor x = 0 /\
    st_fixedReturnMinor x = 0 /\ st_performanceParticipationMinor x = 0 }.

Lemma settle_facility_total f actor now : stored f -> flat f -> money_ok f -> IDENTIFIER_PATTERN actor = true ->
  fc_version f < 9007199254740991 ->
  exists f', settleTradingFacility f actor (fc_stateHash f) (fc_version f) now = Ok f' /\ stored f' /\
    fc_riskState f' = TradingFacilityRiskState_SETTLEMENT /\ fc_terms f' = fc_terms f.
Proof.
  intros Hs [L R [O1 O2] Eq [C1 C2]] [M1 M2 M3 M4] Ha Hv. destruct (sf_bounds _ Hs) as [V C B1 B2 B3 B4 B5].
  exists (sealed f (set_risk TradingFacilityRiskState_SETTLEMENT (set_reasons ["synthetic_settlement_finalized"] f)) now).
  split; [|split; [split|split; reflexivity]].
  - unfold settleTradingFacility. apply check_then. split; [by apply assertExpectedFacility_Ok|].
    apply bind_Ok. eexists. split; [by apply actorHash_Ok|]. apply check_then. split.
    { apply guard_Ok. rewrite L, R, O1, O2, Eq, C1, C2, M3, !Z.eqb_refl. reflexivity. }
    apply updateFacilityState_total; [apply Hs|]. split; cbn; given; lia.
  - apply Hs.
  - apply sealed_observed.
  - apply sealed_hashed.
  - split; cbn; given; lia.
Qed.

Lemma settlement_total f q loan actor now y : stored f -> flat f -> money_ok f -> closes q f ->
  settlement_assertCanonicalObligation loan f = Ok () -> IDENTIFIER_PATTERN actor = true -> reads now ->
  fc_version f < 9007199254740991 -> (String.length (randomUUID (uuids y)) <= 36)%nat ->
  wp (runTradingSettlement f q loan actor (cq_requestHash q) (fc_stateHash f) (fc_version f) now)
    (fun res _ => fc_riskState res.1 = TradingFacilityRiskState_SETTLEMENT /\ assertFacility res.1 = Ok () /\
       assertSettlement res.2 = Ok () /\ returns_contributions res.2 f) (fun _ _ => False) y.
Proof.
  intros Hs Hf Hm [Q1 [Q2 Q3] [Q4 Q5] Q6] Hloan Ha Hnow Hv Hid. unfold runTradingSettlement. cbv zeta.
  eapply wp_passes; [by apply view_Ok|]. apply (wp_passes _ ()); [exact Q1|]. apply (wp_passes _ ()); [exact Hloan|]. apply (wp_passes _ ()).
  { unfold assertCloseRequest in Q1. result_inv. by match goal with K : hash _ "requestHash" _ = Ok _ |- _ => apply guard_Ok in K; apply guard_Ok end. }
  assert (Ho : tm_obligationId (ln_terms loan) = fy_obligationId (fc_terms f)).
  { apply guard_Ok in Hloan. repeat (apply orb_false_iff in Hloan as [Hloan ?]). by apply String.eqb_eq, negb_false_iff. }
  apply (wp_passes _ ()); [apply guard_Ok; by rewrite Q2, Q3, Q4, Q5, Q6, Ho, !String.eqb_refl, Z.eqb_refl|].
  destruct (settle_facility_total f actor now Hs Hf Hm Ha Hv) as (f' & E & Hs' & Hr & Ht). eapply wp_passes; [exact E|].
  destruct Hf as [_ _ _ Eq _], Hm as [_ _ M3 _]. rewrite Eq, <- M3.
  apply (wp_passes _ ()); [apply guard_Ok; by rewrite Z.eqb_refl|]. apply wp_bind, wp_fresh_id. unfold settlement_actorHash, identifier.
  eapply wp_passes; [by rewrite Ha|]. cbv beta zeta. apply (wp_passes _ ()); [by apply no_pii_settlement|].
  match goal with |- context [assertSettlement ?x] => assert (Hx : assertSettlement x = Ok ()) end.
  { apply check_then. split; [apply guard_Ok; cbn [st_schemaVersion st_status st_version st_subjectReturnMinor st_providerPrincipalReturnMinor
      st_totalAllocatedMinor st_finalSyntheticEquityMinor st_subjectContributionMinor st_providerContributionMinor]; by rewrite <- M3, !Z.eqb_refl|].
    apply check_then. split; [apply guard_Ok, negb_false_iff; by apply id_identifier|].
    apply check_then. split; [apply guard_Ok, negb_false_iff, hashId_hex|]. apply check_then. split; [by apply timestamp_now|].
    apply check_then. split; [reflexivity|]. apply guard_Ok, negb_false_iff, String.eqb_eq. unfold settlementCore. cbn. reflexivity. }
  apply (wp_passes _ ()); [exact Hx|]. apply wp_ret. cbn [fst snd]. split_and!; [done|by apply stored_assert|exact Hx|]. split; cbn; lia.
Qed.

(** ** From trading to settlement *)

(** The operations that wind a desk down, one after the other. *)
Definition wind_down (d : Desk) (operator reason subject : string) (loan : Loan) (t1 t2 t3 : Z) : M Sys (Facility * Settlement) :=
  let f := dk_facility d in
  flat ← serve (MkRequest (Flatten operator reason) (fc_stateHash f) (fc_version f) t1) d;
  let f := dk_facility flat in
  q ← requestTradingFacilityClose f subject (fc_stateHash f) (fc_version f) t2;
  runTradingSettlement f q loan operator (cq_requestHash q) (fc_stateHash f) (fc_version f) t3.

Lemma flattened_flat n f l reason now : DeskInv n (MkDesk f l) -> fc_lifecycleStatus f = TradingFacilityLifecycleStatus_ACTIVE ->
  flat (flattened_facility f reason now).
Proof.
  intros Hi Hl. pose proof (ph_contributed _ (di_phase _ _ Hi)) as Hc. cbn [dk_facility] in Hc.
  split; try reflexivity; [by split|]. apply Hc. by rewrite (not_yet_active_of _ _ Hl).
Qed.

(** C6: An active facility that its risk evaluation has not put in [FLATTEN] can
    always be wound down, whatever orders are open on it and whoever operates it: the
    flattening, the close request by its own subject and the settlement all go through,
    and the settlement gives each side back exactly what the terms required of it, with
    no fee and no profit, the two returns together being the capital of the facility. *)
Theorem active_facility_settles y d operator reason subject loan t1 t2 t3 :
  reachable y d -> fc_lifecycleStatus (dk_facility d) = TradingFacilityLifecycleStatus_ACTIVE ->
  is_risk (fc_riskState (dk_facility d)) flattening = false ->
  IDENTIFIER_PATTERN operator = true -> IDENTIFIER_PATTERN reason = true -> IDENTIFIER_PATTERN subject = true ->
  hashId "actor" (JStr subject) = fy_subjectActorHash (fc_terms (dk_facility d)) ->
  settlement_assertCanonicalObligation loan (dk_facility d) = Ok () ->
  fc_version (dk_facility d) < 9007199254740990 -> reads t2 -> reads t3 -> short_ids y 2 ->
  match wind_down d operator reason subject loan t1 t2 t3 y with
  | (Ok (f, x), _) => fc_riskState f = TradingFacilityRiskState_SETTLEMENT /\ assertFacility f = Ok () /\ assertSettlement x = Ok () /\
      st_subjectReturnMinor x = fy_requiredSubjectCollateralMinor (fc_terms (dk_facility d)) /\
      st_providerPrincipalReturnMinor x = fy_requiredProviderFundingMinor (fc_terms (dk_facility d)) /\
      returns_contributions x (dk_facility d)
  | (Err _, _) => False
  end.
Proof.
  intros Hre Hl Hr Ho Hx Hs Ha Hloan Hv T2 T3 Hid. pose proof (reachable_inv _ _ Hre) as Hi. destruct d as [f l]. cbn [dk_facility] in *.
  pose proof (flatten_total _ _ _ operator reason t1 Hi Hl Hr Ho Hx ltac:(lia)) as Hf. pose proof (flatten_moves _ _ _ _ _ _ _ _ _ Hi Hf) as [Hi1 _].
  pose proof (flattened_flat _ _ _ reason t1 Hi Hl) as Hflat. cbn [fst snd] in Hi1. set (f1 := flattened_facility f reason t1) in *.
  destruct (ph_contributed _ (di_phase _ _ Hi)) as [C1 C2]; [cbn [dk_facility]; by rewrite (not_yet_active_of _ _ Hl)|].
  destruct (di_money _ _ Hi) as [M1 M2 _ _]. cbn [dk_facility] in *. rewrite C1 in M1. rewrite C2 in M2.
  enough (Hw : wp (wind_down (MkDesk f l) operator reason subject loan t1 t2 t3)
    (fun res _ => fc_riskState res.1 = TradingFacilityRiskState_SETTLEMENT /\ assertFacility res.1 = Ok () /\
       assertSettlement res.2 = Ok () /\ returns_contributions res.2 f1) (fun _ _ => False) y).
  { unfold wp in Hw. destruct (wind_down _ _ _ _ _ _ _ _ y) as [[[f' x]|e] y']; [|done]. destruct Hw as (W1 & W2 & W3 & [R1 R2 R3 R4]). cbn [fst snd] in *.
    split_and!; [exact W1|exact W2|exact W3|rewrite <- M1; exact R1|rewrite <- M2; exact R2|]. split; [exact R1|exact R2|exact R3|exact R4]. }
  apply wp_bind. unfold serve. cbn [rq_op dk_facility dk_orders rq_stateHash rq_version rq_now].
  eapply wp_passes; [exact Hf|]. apply wp_ret. cbn [fst snd]. cbv zeta. cbn [dk_facility]. fold f1.
  apply wp_bind. eapply wp_mono; [apply close_total|..]; [apply Hi1|exact Hflat|exact Hs|exact Ha|exact T2|apply Hid; lia| |by intros ? ?].
  intros q y1 [Hq Hy]. cbv beta. apply settlement_total; [apply Hi1|exact Hflat|apply Hi1|exact Hq|exact Hloan|exact Ho|exact T3| |].
  - change (fc_version f + 1 < 9007199254740991). lia.
  - apply Hid. lia.
Qed.

Lemma flatten_refused f l operator reason h v now : is_risk (fc_riskState f) flattening = true ->
  exists e, flattenTradingFacility f l operator reason h v now = Err e.
Proof.
  intros Hr. destruct (flattenTradingFacility f l operator reason h v now) as [res|e] eqn:E; [|by exists e]. exfalso.
  unfold flattenTradingFacility in E. opened. congruence.
Qed.

Lemma settle_refused f operator h v now : fc_lifecycleStatus f = TradingFacilityLifecycleStatus_ACTIVE ->
  exists e, settleTradingFacility f operator h v now = Err e.
Proof.
  intros Hl. destruct (settleTradingFacility f operator h v now) as [res|e] eqn:E; [|by exists e]. exfalso.
  unfold settleTradingFacility in E. opened. congruence.
Qed.

Lemma close_refused f actor h v now y : fc_lifecycleStatus f = TradingFacilityLifecycleStatus_ACTIVE ->
  wp (requestTradingFacilityClose f actor h v now) (fun _ _ => False) (fun _ _ => True) y.
Proof.
  intros Hl. unfold requestTradingFacilityClose. cbv zeta. do 3 (apply wp_bind, wp_lift; [by intros ? _|intros ? ?]; cbv beta).
  match goal with K : settlement_unavailable_if _ _ = Ok _ |- _ => apply guard_Ok in K; rewrite Hl in K end.
  repeat match goal with K : _ || _ = false |- _ => apply orb_false_iff in K as [K ?] end. discriminate.
Qed.

(** C17: A facility whose evaluation has reached [FLATTEN] while it is active, as one
    that uses its whole capital is, can never be closed: under no sequence of
    operations does it leave that state, and in it the flattening, the close request and
    the settlement are all refused, whoever asks and whatever they name.  The flattening
    is refused because it is open only to the states before [FLATTEN]. *)
Theorem flatten_verdict_is_final y d y' d' :
  reachable y d -> fc_lifecycleStatus (dk_facility d) = TradingFacilityLifecycleStatus_ACTIVE ->
  fc_riskState (dk_facility d) = TradingFacilityRiskState_FLATTEN -> desk_run (y, d) (y', d') ->
  let f := dk_facility d' in
  fc_lifecycleStatus f = TradingFacilityLifecycleStatus_ACTIVE /\ fc_riskState f = TradingFacilityRiskState_FLATTEN /\
  (forall l operator reason h v now, exists e, flattenTradingFacility f l operator reason h v now = Err e) /\
  (forall actor h v now y, exists e y', requestTradingFacilityClose f actor h v now y = (Err e, y')) /\
  (forall operator h v now, exists e, settleTradingFacility f operator h v now = Err e).
Proof.
  intros Hi%reachable_inv Hl Hr Hrun. cbv zeta. destruct (desk_run_inv _ _ _ _ Hrun Hi) as [Hi' [_ _ _ Hk _ Hst]].
  rewrite Hr in *. specialize (Hst Hl eq_refl). pose proof (ph_active _ (di_phase _ _ Hi') Hst) as Hne.
  assert (Hf : fc_riskState (dk_facility d') = TradingFacilityRiskState_FLATTEN) by
    (revert Hk Hne; by destruct (fc_riskState (dk_facility d'))).
  split_and!; [exact Hst|exact Hf|..].
  - intros. apply flatten_refused. by rewrite Hf.
  - intros actor h v now y0. pose proof (close_refused _ actor h v now y0 Hst) as K. unfold wp in K.
    destruct (requestTradingFacilityClose _ _ _ _ _ y0) as [[q|e] y1]; [done|by eauto].
  - intros. by apply settle_refused.
Qed.
End settlement.
