(* ===== verification/MatchingProps.v ===== *)
(** * Matching: theorems

    Which mandates a request is matched with, in which order, and what a proposal
    that both sides have accepted says. *)

From Stdlib Require Import Sorted.
From stdpp Require Import base tactics sets relations gmap numbers strings list.
From S2P Require Import Prelude Js Enums EventStore Service Ledger Mandate Loan Servicing SandboxCredit LoanProps LoanLedger AcceptanceProps DecisionProps RouterProps Trading Matching Facility FacilityProps.
Local Open Scope string_scope.
Local Open Scope Z_scope.

#[local] Opaque hashId.

(** ** Hard filters *)

(** What makes a mandate fit a request: neither has expired; the mandate covers the
    template, the asset, the amount, the duration, the kind of subject and the strategy;
    and the evidence has the class the mandate asks for, assessed by the server. *)
Record compatible `{Platform} (r : CapitalRequest) (now : Z) (m : ProviderMandate) : Prop := {
  co_current : elapsed (cr_expiresAt r) now = false /\ elapsed (pm_expiresAt m) now = false;
  co_template : cr_templateType r ∈ pm_supportedTemplateTypes m;
  co_asset : pm_assetId m = cr_assetId r;
  co_amount : pm_minAmountMinor m <= cr_requestedAmountMinor r <= pm_maxAmountMinor m;
  co_duration : pm_minDurationDays m <= cr_durationDays r <= pm_maxDurationDays m;
  co_subject : cr_subjectType r ∈ pm_allowedSubjectTypes m;
  co_strategy : cr_strategyClass r ∈ pm_allowedStrategyClasses m;
  co_evidence : el_eligibilityClass (cr_evidenceEligibility r) = pm_evidenceEligibilityClass m /\
    el_selfDeclaredRiskClassAccepted (cr_evidenceEligibility r) = false /\ el_authorizing (cr_evidenceEligibility r) = false }.

Lemma negb_decide_false (P : Prop) `{Decision P} : negb (bool_decide P) = false <-> P.
Proof. by rewrite negb_false_iff, bool_decide_eq_true. Qed.

Section matching.
Context `{Platform}.

Lemma hardFilter_compatible r m now reasons :
  hardFilter r m now = Compatible reasons <-> reasons = HARD_FILTER_CODES /\ compatible r now m.
Proof.
  unfold hardFilter. split.
  - intros E. repeat match type of E with (if ?c then _ else _) = _ => let K := fresh "K" in destruct c eqn:K; [discriminate|] end.
    injection E as <-. split; [done|]. rewrite ?negb_decide_false, ?orb_false_iff, ?negb_false_iff, ?String.eqb_eq, ?Z.ltb_ge in *.
    split; try tauto; lia.
  - intros [-> [[C1 C1'] C2 C3 C4 C5 C6 C7 (C8 & C9 & C10)]]. rewrite C1, C1', C3, C8, C9, C10, !String.eqb_refl, !bool_decide_eq_true_2 by done.
    rewrite !(proj2 (Z.ltb_ge _ _)) by lia. done.
Qed.

#[export] Instance compatible_dec r now m : Decision (compatible r now m).
Proof.
  destruct (hardFilter r m now) as [reasons|reason] eqn:E; [left; by apply hardFilter_compatible in E as [_ ?]|right]. intros K.
  assert (hardFilter r m now = Compatible HARD_FILTER_CODES) by (by apply hardFilter_compatible). congruence.
Defined.

Lemma candidates_filter r now l :
  compatible_candidates r now l = map (fun m => (m, HARD_FILTER_CODES)) (filter (compatible r now) l).
Proof.
  induction l as [|m l IH]; [done|]. cbn [compatible_candidates]. rewrite filter_cons, IH.
  destruct (hardFilter r m now) as [reasons|reason] eqn:E.
  - apply hardFilter_compatible in E as [-> K]. by rewrite decide_True.
  - rewrite decide_False; [done|]. intros K.
    assert (hardFilter r m now = Compatible HARD_FILTER_CODES) by (by apply hardFilter_compatible). congruence.
Qed.

Lemma summaries_ranked r i l : summaries r (Z.of_nat i) (map (fun m => (m, HARD_FILTER_CODES)) l) =
  imap (fun k m => matchSummary r m (Z.of_nat (i + k) + 1) HARD_FILTER_CODES) l.
Proof.
  revert i. induction l as [|m l IH]; intros i; [done|]. cbn [map summaries imap]. f_equal; [by rewrite Nat.add_0_r|].
  replace (Z.of_nat i + 1) with (Z.of_nat (S i)) by lia. rewrite IH. apply imap_ext. intros k x _. cbn. f_equal; lia.
Qed.

(** ** The order of the candidates *)

(** Comparing by one key and then by another. *)
Lemma lexicographic_opp a b x y : a = CompOpp b -> x = CompOpp y -> or_else a x = CompOpp (or_else b y).
Proof. intros -> ->. by destruct b. Qed.

Section order.
Context `{!LocaleLaws}.

(** The mandates come by the time they were created, then by hash and identifier. *)
Definition not_after (m1 m2 : ProviderMandate) : Prop := candidate_order (m1, []) (m2, []) <> Gt.

Lemma lexicographic_trans (k1 k2 k3 : string) (c12 c23 c13 : comparison) : (c12 <> Gt -> c23 <> Gt -> c13 <> Gt) ->
  or_else (localeCompare k1 k2) c12 <> Gt -> or_else (localeCompare k2 k3) c23 <> Gt -> or_else (localeCompare k1 k3) c13 <> Gt.
Proof.
  intros Hc H1 H2. destruct (localeCompare k1 k2) eqn:E; cbn [or_else] in H1; [| |done].
  - rewrite <- (locale_eq _ _ k3 E). destruct (localeCompare k2 k3); cbn [or_else] in *; [by apply Hc|done|done].
  - rewrite (locale_lt _ _ k3 E); [done|]. by destruct (localeCompare k2 k3).
Qed.

Lemma candidate_order_opp a b : candidate_order b a = CompOpp (candidate_order a b).
Proof. by repeat apply lexicographic_opp; apply locale_opp. Qed.

Lemma candidate_order_trans a b c : candidate_order a b <> Gt -> candidate_order b c <> Gt -> candidate_order a c <> Gt.
Proof. do 2 apply lexicographic_trans. apply locale_trans. Qed.

Lemma sorted_map_fst l : StronglySorted (fun a b => candidate_order a b <> Gt) l -> StronglySorted not_after (map fst l).
Proof.
  induction 1 as [|[m rs] l Hs IH Hf]; [constructor|]. cbn [map fst]. constructor; [done|]. apply Forall_fmap.
  eapply Forall_impl; [done|]. by intros [m' rs'].
Qed.

(** C16: The mandates a request is matched with are exactly the compatible ones among
    the candidates, at most twenty of them: those that come first by the time they were
    created, then by hash and by identifier.  Each match names its mandate, has the
    next rank from one on, and previews the terms of the request; none is there because
    a provider or a subject asked to be. *)
Theorem matches_are_the_first_compatible r ms now res : listCompatibleTradingProviderMandates r ms now = Ok res ->
  exists chosen left_out, (chosen ++ left_out)%list ≡ₚ filter (compatible r now) ms /\
    length chosen = Nat.min MAX_MATCHES (length (filter (compatible r now) ms)) /\
    StronglySorted not_after (chosen ++ left_out) /\
    cl_matches res = imap (fun k m => matchSummary r m (Z.of_nat k + 1) HARD_FILTER_CODES) chosen /\
    cl_compatibleMandateCount res = Z.of_nat (length chosen) /\ cl_evaluatedCandidateCount res = Z.of_nat (length ms).
Proof.
  unfold listCompatibleTradingProviderMandates. intros E. result_inv. rewrite candidates_filter. set (l := filter _ ms).
  set (s := stable_sort candidate_order _). assert (Hs : exists k, s = map (fun m => (m, HARD_FILTER_CODES)) k /\ k ≡ₚ l).
  { destruct (Permutation_map_inv _ _ (stable_sort_perm candidate_order (map (fun m => (m, HARD_FILTER_CODES)) l))) as (k & Hk & Hp).
    by exists k. }
  destruct Hs as (k & Hk & Hp). exists (take MAX_MATCHES k), (drop MAX_MATCHES k). rewrite take_drop. cbn [cl_matches cl_compatibleMandateCount cl_evaluatedCandidateCount].
  rewrite Hk, firstn_map. change 0 with (Z.of_nat 0). rewrite summaries_ranked. split_and!; [done| | | |by rewrite length_imap|done].
  - rewrite length_take, Hp. done.
  - pose proof (stable_sort_sorted candidate_order candidate_order_opp candidate_order_trans (map (fun m => (m, HARD_FILTER_CODES)) l)) as Hss.
    fold s in Hss. rewrite Hk in Hss. apply sorted_map_fst in Hss. by rewrite map_map, map_id in Hss.
  - apply imap_ext. intros i m _. f_equal; lia.
Qed.
End order.
End matching.

(** ** Proposals *)

Section proposals.
Context `{DigestLaws}.

(** One side accepting a proposal, with whatever it passes. *)
Inductive proposal_step : relation MatchProposal :=
  | step_accepts side p r m actor proposalHash termsHash now y p' y' :
      acceptance side p r m actor proposalHash termsHash now y = (Ok p', y') -> proposal_step p p'.

(** A recorded acceptance is by the side's own actor and names these terms. *)
Definition accepted_by (actorHash : string) (p : MatchProposal) (a : SideAcceptance) : Prop :=
  sa_actorHash a = actorHash /\ sa_proposalHash a = mp_proposalHash p /\ sa_termsHash a = tt_termsHash (mp_terms p).

Definition recorded (o : option SideAcceptance) : Z := match o with Some _ => 1 | None => 0 end.

Record ProposalInv (r : CapitalRequest) (m : ProviderMandate) (p : MatchProposal) : Prop := {
  pi_terms : mp_terms p = templateTerms (cr_templateType r) (cr_requestedAmountMinor r) (cr_durationDays r);
  pi_actors : mp_providerActorHash p = pm_providerActorHash m /\ mp_subjectActorHash p = cr_requestedByActorHash r;
  pi_shape : mp_schemaVersion p = TRADING_MATCH_PROPOSAL_SCHEMA_VERSION /\ mp_immutableTerms p = true /\
    mp_bilateralAcceptanceRequired p = true /\ mp_safety p = matching_commonSafety;
  pi_hash : HASH_PATTERN (mp_proposalHash p) = true;
  pi_version : mp_version p = 1 + recorded (mp_providerAcceptance p) + recorded (mp_subjectAcceptance p);
  pi_status : mp_status p = match mp_providerAcceptance p, mp_subjectAcceptance p with
    | None, None => TradingMatchProposalStatus_PROPOSED | a, b => proposal_status a b end;
  pi_provider : forall a, mp_providerAcceptance p = Some a -> accepted_by (pm_providerActorHash m) p a;
  pi_subject : forall a, mp_subjectAcceptance p = Some a -> accepted_by (cr_requestedByActorHash r) p a;
  pi_expires : earlier_of (cr_expiresAt r) (pm_expiresAt m) = Ok (mp_expiresAt p) }.

Lemma created_proposal r m mh rh now y p y' : createTradingMatchProposal r m mh rh now y = (Ok p, y') ->
  ProposalInv r m p /\ compatible r now m.
Proof.
  intros E. refine (wp_run _ (fun p _ => ProposalInv r m p /\ compatible r now m) (fun _ _ => True) _ _ _ _ E). clear E.
  unfold createTradingMatchProposal. do 4 (apply wp_bind, wp_lift; [by intros ? _|intros ? _]; cbv beta).
  apply wp_bind, wp_throw_if; [by intros _|intros _]. apply wp_bind, wp_lift; [by intros ? _|intros res E]. cbv beta.
  unfold listCompatibleTradingProviderMandates in E. result_inv. cbn [cl_matches compatible_candidates].
  destruct (hardFilter r m now) as [reasons|reason] eqn:Hf; [|by apply wp_throw]. apply hardFilter_compatible in Hf as [-> Hc].
  change (stable_sort candidate_order [(m, HARD_FILTER_CODES)]) with [(m, HARD_FILTER_CODES)].
  change (take MAX_MATCHES [(m, HARD_FILTER_CODES)]) with [(m, HARD_FILTER_CODES)]. cbn [summaries].
  apply wp_bind, wp_lift; [by intros ? _|intros expiresAt Hx]. apply wp_bind. unfold wp at 1, createOperationalId. cbv beta zeta.
  apply wp_bind, wp_lift; [by intros ? _|intros _ _]. apply wp_ret. split; [|done].
  split; [reflexivity|by split|by split_and!|apply hashId_hex|reflexivity|reflexivity|intros ? K; discriminate K|intros ? K; discriminate K|exact Hx].
Qed.

Lemma accepting_step r m p p' : ProposalInv r m p -> proposal_step p p' -> ProposalInv r m p'.
Proof.
  intros Hi Hst. destruct Hst as [side p r' m' actor ph th now y p' y' E].
  refine (wp_run _ (fun p' _ => ProposalInv r m p') (fun _ _ => True) _ _ _ _ E). clear E. unfold acceptance.
  do 6 (apply wp_bind, wp_lift; [by intros ? _|intros ? _]; cbv beta).
  apply wp_bind, wp_throw_if; [by intros _|intros _]. apply wp_bind, wp_lift; [by intros ? _|intros ? _]. cbv beta zeta.
  apply wp_bind, wp_throw_if; [by intros _|intros Ha%negb_false_iff%String.eqb_eq].
  apply wp_bind, wp_throw_if; [by intros _|intros Hn]. apply wp_bind. unfold wp at 1, createOperationalId. cbv beta zeta.
  apply wp_bind, wp_lift; [by intros ? _|intros _ _]. apply wp_ret. destruct Hi as [I1 [I2 I2'] I3 I4 I5 I6 I7 I8 I9].
  destruct side; cbn [side_acceptance side_actorHash] in *.
  - destruct (mp_providerAcceptance p) as [ac|] eqn:Ea; [discriminate|]. cbn [recorded] in I5.
    split; given; cbn [accepted_proposal mp_version mp_providerAcceptance mp_subjectAcceptance recorded]; [by split|lia|].
    intros ? [= <-]. by rewrite <- I2, <- Ha.
  - destruct (mp_subjectAcceptance p) as [ac|] eqn:Ea; [discriminate|]. cbn [recorded] in I5.
    split; given; cbn [accepted_proposal mp_version mp_providerAcceptance mp_subjectAcceptance recorded mp_status]; [by split|lia|].
    intros ? [= <-]. by rewrite <- I2', <- Ha.
Qed.

Lemma assertBilateral_status r m p now : ProposalInv r m p ->
  assertBilateralProposal p now false = Ok () <-> mp_status p = TradingMatchProposalStatus_BILATERALLY_ACCEPTED.
Proof.
  intros [I1 _ (S1 & S2 & S3 & S4) I4 I5 I6 I7 I8 _]. unfold assertBilateralProposal, hash.
  assert (HASH_PATTERN (tt_termsHash (mp_terms p)) = true) as Ht.
  { rewrite I1. unfold templateTerms. destruct (TEMPLATE_ECONOMICS _) as [[? ?] ?]. apply hashId_hex. }
  rewrite S1, S2, S3, S4, I4, Ht, String.eqb_refl, !check_then, unavailable_iff. split.
  - intros [K _]. repeat (apply orb_false_iff in K as [K ?]).
    match goal with K : negb (bool_decide (mp_status p = _)) = false |- _ => by apply negb_decide_false in K end.
  - intros Hs. rewrite Hs in *. destruct (mp_providerAcceptance p), (mp_subjectAcceptance p); try discriminate. rewrite I5. done.
Qed.

Lemma assertBilateral_deadline p now :
  assertBilateralProposal p now true = Ok () <->
  assertBilateralProposal p now false = Ok () /\
  exists t, date INVALID_FACILITY "expiresAt" (mp_expiresAt p) = Ok t /\ now < t.
Proof.
  unfold assertBilateralProposal. rewrite !check_then, bind_Ok. setoid_rewrite unavailable_iff. setoid_rewrite Z.leb_gt. tauto.
Qed.

(** C13: A proposal is bilaterally accepted exactly when both sides have accepted it:
    the provider's own actor and the subject's own actor, each naming its hash and the
    hash of its terms.  Whatever acceptances are tried, in any order, its terms stay
    those of the request, which the mandate was compatible with when it was made, and
    its deadline stays the earlier of theirs.  Creating a facility, which enforces the
    deadline, takes the proposal exactly when it is bilaterally accepted and the
    deadline reads as a date still ahead; activating it, which checks the facility's
    own deadline instead, takes the proposal exactly when it is bilaterally accepted. *)
Theorem bilateral_means_both_sides r m mh rh t0 y p0 y' p now :
  createTradingMatchProposal r m mh rh t0 y = (Ok p0, y') -> rtc proposal_step p0 p ->
  compatible r t0 m /\ mp_terms p = templateTerms (cr_templateType r) (cr_requestedAmountMinor r) (cr_durationDays r) /\
  (mp_status p = TradingMatchProposalStatus_BILATERALLY_ACCEPTED <->
   exists a b, mp_providerAcceptance p = Some a /\ accepted_by (pm_providerActorHash m) p a /\
     mp_subjectAcceptance p = Some b /\ accepted_by (cr_requestedByActorHash r) p b) /\
  earlier_of (cr_expiresAt r) (pm_expiresAt m) = Ok (mp_expiresAt p) /\
  (assertBilateralProposal p now true = Ok () <->
   mp_status p = TradingMatchProposalStatus_BILATERALLY_ACCEPTED /\
   exists t, date INVALID_FACILITY "expiresAt" (mp_expiresAt p) = Ok t /\ now < t) /\
  (assertBilateralProposal p now false = Ok () <-> mp_status p = TradingMatchProposalStatus_BILATERALLY_ACCEPTED).
Proof.
  intros [Hi0 Hc]%created_proposal Hr. assert (Hi : ProposalInv r m p) by (clear Hc; induction Hr; eauto using accepting_step).
  pose proof (assertBilateral_status _ _ _ now Hi) as Hb.
  split_and!; [done|apply Hi| |apply Hi|by rewrite assertBilateral_deadline, Hb|exact Hb]. rewrite (pi_status _ _ _ Hi). split.
  - destruct (mp_providerAcceptance p) as [a|] eqn:Ea, (mp_subjectAcceptance p) as [b|] eqn:Eb; try discriminate. intros _.
    exists a, b. split_and!; [done|by apply Hi|done|by apply Hi].
  - by intros (a & b & -> & _ & -> & _).
Qed.
End proposals.
