(* ===== verification/Quota.v ===== *)
(** * Request quotas

    src/modules/abuse-control/src/in-memory-quota-store.js with the contract of its
    requests (quota-store-contract.js) and the checks of abuse-utils.js: rate limits
    over fixed windows, capacities that are held while a request runs, and a record
    of commands so that a repeated one is charged once.  The checks of the shape of
    the argument objects are types here; the methods have no suspension point, so each
    runs as one step. *)

From Stdlib Require Import Ascii.
From stdpp Require Import base tactics sets relations gmap numbers strings list.
From S2P Require Import Prelude Js Enums EventStore Service Mandate Loan Servicing Trading.
Local Open Scope string_scope.
Local Open Scope Z_scope.

Definition COMMAND_RETENTION_MS : Z := 24 * 60 * 60000.
Definition PARTITIONS : list string := ["tenant"; "service"].
Definition RELEASE_MODES : list string := ["always"; "on_failure"].

(** ** Checks *)

(** [/^[A-Za-z0-9][A-Za-z0-9._:@/-]{1,255}$/] *)
Definition is_abuse_char (c : ascii) : bool := is_identifier_char c || (code c =? 64) || (code c =? 47).
Definition ABUSE_IDENTIFIER_PATTERN (s : string) : bool :=
  match s with
  | EmptyString => false
  | String c s => is_alnum c && all_chars is_abuse_char s && (1 <=? String.length s)%nat && (String.length s <=? 255)%nat
  end.

Definition invalid_abuse_if (c : bool) (message : string) : result unit := guard c "invalid_abuse_control_input" message.
Definition assertAbuseIdentifier (name value : string) : result unit :=
  invalid_abuse_if (negb (ABUSE_IDENTIFIER_PATTERN value)) (name +:+ " is invalid").
Definition assertAbuseHash (name value : string) : result unit :=
  invalid_abuse_if (negb (HASH_PATTERN value)) (name +:+ " is invalid").
Definition assertPositiveInteger (name : string) (value maximum : Z) : result unit :=
  invalid_abuse_if (negb (isSafeInteger value) || (value <? 1) || (maximum <? value)) (name +:+ " is invalid").
Definition if_defined (f : string -> result unit) (o : option string) : result unit :=
  match o with Some s => f s | None => Ok () end.

(** ** Records *)

Record RateReservation := MkRateReservation {
  rr_keyHash : string; rr_dimension : string; rr_windowMs : Z; rr_limit : Z; rr_units : Z; rr_commandScoped : bool;
  rr_partition : string }.
Record CapacityReservation := MkCapacityReservation {
  ca_keyHash : string; ca_kind : string; ca_limit : Z; ca_units : Z; ca_release : string; ca_commandScoped : bool;
  ca_partition : string }.
Record ReleaseReservation := MkReleaseReservation { rl_keyHash : string; rl_kind : string; rl_units : Z }.

Record QuotaRequest := MkQuotaRequest {
  qr_admissionId : string; qr_tenantId : string; qr_operationId : string; qr_quotaClass : string; qr_policyVersion : string;
  qr_rateReservations : list RateReservation; qr_capacityReservations : list CapacityReservation; qr_leaseMs : Z;
  qr_commandRefHash : option string; qr_actorRefHash : option string; qr_clientRefHash : option string }.

Record RateEntry := MkRateEntry {
  ra_windowStartedAt : Z; ra_expiresAt : Z; ra_used : Z; ra_limit : Z; ra_dimension : string }.
Record CapacityEntry := MkCapacityEntry { cp_used : Z; cp_limit : Z; cp_kind : string }.

Inductive AdmissionState := Admission_PENDING | Admission_COMPLETED | Admission_EXPIRED.
Record Admission := MkAdmission {
  am_request : QuotaRequest; am_state : AdmissionState; am_issuedAt : Z; am_expiresAt : Z; am_replayed : bool;
  am_appliedCapacities : list CapacityReservation; am_outcome : option string; am_completedAt : option Z }.

Inductive ChargeStatus := Charge_PENDING | Charge_FAILED | Charge_SUCCEEDED.
Record Charge := MkCharge { ch_status : ChargeStatus; ch_admissionId : string; ch_expiresAt : Z }.

#[export] Instance AdmissionState_eq_dec : EqDecision AdmissionState.
Proof. solve_decision. Defined.
#[export] Instance ChargeStatus_eq_dec : EqDecision ChargeStatus.
Proof. solve_decision. Defined.

(** The fields of the store. *)
Record QuotaStore := MkQuotaStore {
  qs_rates : jsmap RateEntry; qs_capacities : jsmap CapacityEntry; qs_admissions : jsmap Admission; qs_charges : jsmap Charge;
  qs_lastNow : Z }.
Definition empty_quotas : QuotaStore := MkQuotaStore [] [] [] [] 0.

(** What the constructor is given: the bound on the entries and the hook for faults. *)
Record QuotaConfig := MkQuotaConfig { qc_maxEntries : Z; qc_faultInjector : option (string -> result unit) }.
Definition new_quota_config (maxEntries : Z) (faultInjector : option (string -> result unit)) : result QuotaConfig :=
  guard (negb (isSafeInteger maxEntries) || (maxEntries <? 100)) "invalid_abuse_store_config"
    "in-memory quota store configuration is invalid" ;;
  Ok (MkQuotaConfig maxEntries faultInjector).

Definition set_rates (x : jsmap RateEntry) (s : QuotaStore) : QuotaStore :=
  MkQuotaStore x (qs_capacities s) (qs_admissions s) (qs_charges s) (qs_lastNow s).
Definition set_capacities (x : jsmap CapacityEntry) (s : QuotaStore) : QuotaStore :=
  MkQuotaStore (qs_rates s) x (qs_admissions s) (qs_charges s) (qs_lastNow s).
Definition set_admissions (x : jsmap Admission) (s : QuotaStore) : QuotaStore :=
  MkQuotaStore (qs_rates s) (qs_capacities s) x (qs_charges s) (qs_lastNow s).
Definition set_charges (x : jsmap Charge) (s : QuotaStore) : QuotaStore :=
  MkQuotaStore (qs_rates s) (qs_capacities s) (qs_admissions s) x (qs_lastNow s).
Definition set_lastNow (x : Z) (s : QuotaStore) : QuotaStore :=
  MkQuotaStore (qs_rates s) (qs_capacities s) (qs_admissions s) (qs_charges s) x.

(** [map.delete(key)] *)
Definition map_delete {V} (k : string) (m : jsmap V) : jsmap V := List.filter (fun e => negb (String.eqb k e.1)) m.

(** ** The contract of requests *)

Fixpoint assert_rates (seen : list string) (l : list RateReservation) : result unit :=
  match l with
  | [] => Ok ()
  | r :: l =>
      assertAbuseHash "rate keyHash" (rr_keyHash r) ;;
      assertAbuseIdentifier "rate dimension" (rr_dimension r) ;;
      assertPositiveInteger "rate windowMs" (rr_windowMs r) 600000 ;;
      assertPositiveInteger "rate limit" (rr_limit r) 25000 ;;
      assertPositiveInteger "rate units" (rr_units r) (rr_limit r) ;;
      invalid_abuse_if (negb (bool_decide (rr_partition r ∈ PARTITIONS))) "rate reservation flags are invalid" ;;
      invalid_abuse_if (bool_decide (rr_keyHash r ∈ seen)) "rate reservation is duplicated" ;;
      assert_rates (rr_keyHash r :: seen) l
  end.

Definition assertCapacityReservation (r : CapacityReservation) : result unit :=
  assertAbuseHash "capacity keyHash" (ca_keyHash r) ;;
  assertAbuseIdentifier "capacity kind" (ca_kind r) ;;
  assertPositiveInteger "capacity units" (ca_units r) 10000 ;;
  assertPositiveInteger "capacity limit" (ca_limit r) 10000 ;;
  invalid_abuse_if ((ca_limit r <? ca_units r) || negb (bool_decide (ca_release r ∈ RELEASE_MODES)) ||
      negb (bool_decide (ca_partition r ∈ PARTITIONS))) "capacity reservation is invalid".

(** [assertCapacityReservation(reservation, { release: true })] *)
Definition assertReleaseReservation (r : ReleaseReservation) : result unit :=
  assertAbuseHash "capacity keyHash" (rl_keyHash r) ;;
  assertAbuseIdentifier "capacity kind" (rl_kind r) ;;
  assertPositiveInteger "capacity units" (rl_units r) 10000.

Fixpoint assert_capacities (seen : list string) (l : list CapacityReservation) : result unit :=
  match l with
  | [] => Ok ()
  | r :: l =>
      assertCapacityReservation r ;;
      invalid_abuse_if (bool_decide (ca_keyHash r ∈ seen)) "capacity reservation is duplicated" ;;
      assert_capacities (ca_keyHash r :: seen) l
  end.

Fixpoint assert_releases (seen : list string) (l : list ReleaseReservation) : result unit :=
  match l with
  | [] => Ok ()
  | r :: l =>
      assertReleaseReservation r ;;
      invalid_abuse_if (bool_decide (rl_keyHash r ∈ seen)) "resource release is duplicated" ;;
      assert_releases (rl_keyHash r :: seen) l
  end.

Definition tenant_matches (tenantId : option string) (actual : string) : result unit :=
  guard (match tenantId with Some t => negb (String.eqb actual t) | None => false end)
    "tenant_quota_context_mismatch" "quota store tenant context does not match".

Definition assertQuotaStoreRequest (r : QuotaRequest) (tenantId : option string) (requireActorClient : bool) : result unit :=
  assertAbuseIdentifier "admissionId" (qr_admissionId r) ;;
  assertAbuseIdentifier "tenantId" (qr_tenantId r) ;;
  assertAbuseIdentifier "operationId" (qr_operationId r) ;;
  assertAbuseIdentifier "quotaClass" (qr_quotaClass r) ;;
  assertAbuseIdentifier "policyVersion" (qr_policyVersion r) ;;
  tenant_matches tenantId (qr_tenantId r) ;;
  if_defined (assertAbuseHash "commandRefHash") (qr_commandRefHash r) ;;
  if_defined (assertAbuseHash "actorRefHash") (qr_actorRefHash r) ;;
  if_defined (assertAbuseHash "clientRefHash") (qr_clientRefHash r) ;;
  invalid_abuse_if (requireActorClient && match truthy (qr_actorRefHash r), truthy (qr_clientRefHash r) with Some _, Some _ => false | _, _ => true end)
    "tenant admission references are required" ;;
  assertPositiveInteger "leaseMs" (qr_leaseMs r) 60000 ;;
  invalid_abuse_if ((length (qr_rateReservations r) <? 1)%nat || (16 <? length (qr_rateReservations r))%nat ||
      (length (qr_capacityReservations r) <? 1)%nat || (16 <? length (qr_capacityReservations r))%nat)
    "quota reservations are invalid" ;;
  assert_rates [] (qr_rateReservations r) ;;
  assert_capacities [] (qr_capacityReservations r).

Definition assertQuotaStoreRelease (tenant : string) (reservations : list ReleaseReservation) (tenantId : option string) : result unit :=
  assertAbuseIdentifier "tenantId" tenant ;;
  tenant_matches tenantId tenant ;;
  invalid_abuse_if ((length reservations <? 1)%nat || (4 <? length reservations)%nat) "resource release is invalid" ;;
  assert_releases [] reservations.

(** ** Keys *)

Definition NUL : string := String (ascii_of_N 0) "".
Definition partition_of (tenantId partition : string) : string := if String.eqb partition "service" then "__service__" else tenantId.
Definition rateKey (tenantId keyHash partition : string) : result string :=
  assertAbuseHash "rate keyHash" keyHash ;; Ok (partition_of tenantId partition +:+ NUL +:+ keyHash).
Definition capacityKey (tenantId keyHash partition : string) : result string :=
  assertAbuseHash "capacity keyHash" keyHash ;; Ok (partition_of tenantId partition +:+ NUL +:+ keyHash).
Definition chargeKey (tenantId commandRefHash : string) : string := tenantId +:+ NUL +:+ commandRefHash.

(** ** Time and faults *)

(** A reading of the clock, absent when the clock is invalid. *)
Definition quota_now (clock : option Z) : M QuotaStore Z :=
  match clock with
  | Some timestamp => modify (fun s => set_lastNow (Z.max (qs_lastNow s) timestamp) s) ;; gets qs_lastNow
  | None => throw "quota_store_clock_invalid" "quota store clock is invalid"
  end.

Definition fault (cfg : QuotaConfig) (stage : string) : M QuotaStore unit :=
  lift (match qc_faultInjector cfg with Some f => f stage | None => Ok () end).

(** ** Capacities *)

Definition decrementCapacity (tenantId keyHash partition : string) (units : Z) : M QuotaStore unit :=
  key ← lift (capacityKey tenantId keyHash partition);
  found ← gets (fun s => map_get key (qs_capacities s));
  match found with
  | None => lift (Err TypeError)
  | Some current =>
      let used := cp_used current - units in
      modify (fun s => set_capacities (if used =? 0 then map_delete key (qs_capacities s)
        else map_set key (MkCapacityEntry used (cp_limit current) (cp_kind current)) (qs_capacities s)) s)
  end.

Fixpoint decrement_all (tenantId : string) (l : list CapacityReservation) : M QuotaStore unit :=
  match l with
  | [] => mret ()
  | r :: l => decrementCapacity tenantId (ca_keyHash r) (ca_partition r) (ca_units r) ;; decrement_all tenantId l
  end.

(** Whether a finished request gives a capacity back. *)
Definition gives_back (failed : bool) (r : CapacityReservation) : bool :=
  String.eqb (ca_release r) "always" || (failed && String.eqb (ca_release r) "on_failure").

Definition finished_admission (a : Admission) (outcome : string) (now : Z) : Admission :=
  MkAdmission (am_request a) (if String.eqb outcome "expired" then Admission_EXPIRED else Admission_COMPLETED) (am_issuedAt a)
    (am_expiresAt a) (am_replayed a) (am_appliedCapacities a) (Some outcome) (Some now).

Definition finishAdmission (a : Admission) (outcome : string) (now : Z) : M QuotaStore unit :=
  let failed := negb (String.eqb outcome "succeeded") in
  let id := qr_admissionId (am_request a) in
  decrement_all (qr_tenantId (am_request a)) (List.filter (gives_back failed) (am_appliedCapacities a)) ;;
  modify (fun s => set_admissions (map_set id (finished_admission a outcome now) (qs_admissions s)) s) ;;
  match qr_commandRefHash (am_request a) with
  | Some ref =>
      if am_replayed a then mret () else
      let key := chargeKey (qr_tenantId (am_request a)) ref in
      charge ← gets (fun s => map_get key (qs_charges s));
      match charge with
      | Some c => when (String.eqb (ch_admissionId c) id)
          (modify (fun s => set_charges (map_set key (MkCharge (if failed then Charge_FAILED else Charge_SUCCEEDED) (ch_admissionId c)
             (now + COMMAND_RETENTION_MS)) (qs_charges s)) s))
      | None => mret ()
      end
  | None => mret ()
  end.

(** ** Cleaning up *)

Definition is_pending (a : Admission) : bool := bool_decide (am_state a = Admission_PENDING).
Definition overdue (now : Z) (excluded : option string) (a : Admission) : bool :=
  negb (bool_decide (Some (qr_admissionId (am_request a)) = excluded)) && is_pending a && (am_expiresAt a <=? now).

Fixpoint expire_admissions (now : Z) (excluded : option string) (l : list Admission) : M QuotaStore unit :=
  match l with
  | [] => mret ()
  | a :: l => when (overdue now excluded a) (finishAdmission a "expired" now) ;; expire_admissions now excluded l
  end.

Definition cleanup (now : Z) (excluded : option string) : M QuotaStore unit :=
  l ← gets (fun s => map_values (qs_admissions s));
  expire_admissions now excluded l ;;
  modify (fun s => set_rates (List.filter (fun e => negb (ra_expiresAt e.2 <=? now)) (qs_rates s)) s) ;;
  modify (fun s => set_charges (List.filter (fun e => negb ((ch_expiresAt e.2 <=? now) &&
    negb (bool_decide (ch_status e.2 = Charge_PENDING)))) (qs_charges s)) s).

(** ** Room for new entries *)

Definition quota_size (s : QuotaStore) : Z :=
  Z.of_nat (length (qs_rates s)) + Z.of_nat (length (qs_capacities s)) + Z.of_nat (length (qs_admissions s)) +
  Z.of_nat (length (qs_charges s)).

Definition evictable (s : QuotaStore) : list (string * Admission) :=
  stable_sort (fun left right => Z.compare (default (am_expiresAt left.2) (am_completedAt left.2)) (default (am_expiresAt right.2) (am_completedAt right.2)))
    (List.filter (fun e => negb (is_pending e.2)) (qs_admissions s)).

Fixpoint evict (cfg : QuotaConfig) (additional : Z) (l : list (string * Admission)) : M QuotaStore unit :=
  match l with
  | [] => throw "quota_store_capacity_exceeded" "quota store capacity is unavailable"
  | (id, _) :: l =>
      modify (fun s => set_admissions (map_delete id (qs_admissions s)) s) ;;
      size ← gets quota_size;
      if size + additional <=? qc_maxEntries cfg then mret () else evict cfg additional l
  end.

Definition ensureCapacity (cfg : QuotaConfig) (additional : Z) : M QuotaStore unit :=
  size ← gets quota_size;
  if size + additional <=? qc_maxEntries cfg then mret () else
  l ← gets evictable;
  evict cfg additional l.

(** ** Reserving *)

(** [Math.floor(now / windowMs) * windowMs]; the quotient of two such counts rounds
    below the next integer. *)
Definition window_of (now windowMs : Z) : Z := now / windowMs * windowMs.

(** The loop over the rate reservations: the next entries, or none when one is refused. *)
Fixpoint next_rates (tenantId : string) (now : Z) (rates : jsmap RateEntry) (l : list RateReservation)
    : result (option (list (string * RateEntry))) :=
  match l with
  | [] => Ok (Some [])
  | r :: l =>
      key ← rateKey tenantId (rr_keyHash r) (rr_partition r);
      let windowStartedAt := window_of now (rr_windowMs r) in
      let current := match map_get key rates with
                     | Some e => if ra_windowStartedAt e =? windowStartedAt then Some e else None
                     | None => None
                     end in
      let used := match current with Some e => ra_used e | None => 0 end in
      if rr_limit r <? used + rr_units r then Ok None else
      rest ← next_rates tenantId now rates l;
      Ok (match rest with
          | Some entries => Some ((key, MkRateEntry windowStartedAt (windowStartedAt + rr_windowMs r) (used + rr_units r)
              (match current with Some e => Z.min (ra_limit e) (rr_limit r) | None => rr_limit r end) (rr_dimension r)) :: entries)
          | None => None
          end)
  end.

Fixpoint next_capacities (tenantId : string) (capacities : jsmap CapacityEntry) (l : list CapacityReservation)
    : result (option (list (string * CapacityEntry))) :=
  match l with
  | [] => Ok (Some [])
  | r :: l =>
      key ← capacityKey tenantId (ca_keyHash r) (ca_partition r);
      let current := map_get key capacities in
      let used := match current with Some e => cp_used e | None => 0 end in
      let limit := match current with Some e => Z.min (cp_limit e) (ca_limit r) | None => ca_limit r end in
      if limit <? used + ca_units r then Ok None else
      rest ← next_capacities tenantId capacities l;
      Ok (match rest with
          | Some entries => Some ((key, MkCapacityEntry (used + ca_units r) limit (ca_kind r)) :: entries)
          | None => None
          end)
  end.

Fixpoint set_all {V} (entries : list (string * V)) (m : jsmap V) : jsmap V :=
  match entries with [] => m | (k, v) :: entries => set_all entries (map_set k v m) end.

(** How many of the keys are new. *)
Definition new_keys {V} (entries : list (string * V)) (m : jsmap V) : Z :=
  Z.of_nat (length (List.filter (fun e => match map_get e.1 m with Some _ => false | None => true end) entries)).

(** [{ admitted: true, replayed, issuedAt, expiresAt }] or [{ admitted: false, reason }] *)
Inductive Reserved := Granted (replayed : bool) (issuedAt expiresAt : string) | Refused (reason : string).

Definition reserve (cfg : QuotaConfig) (clock : option Z) (request : QuotaRequest) : M QuotaStore Reserved :=
  fault cfg "reserve" ;;
  now ← quota_now clock;
  cleanup now None ;;
  lift (assertQuotaStoreRequest request None false) ;;
  let tenantId := qr_tenantId request in
  let commandChargeKey := option_map (chargeKey tenantId) (qr_commandRefHash request) in
  commandCharge ← gets (fun s => match commandChargeKey with Some k => map_get k (qs_charges s) | None => None end);
  if match commandCharge with Some c => bool_decide (ch_status c = Charge_PENDING) && (now <? ch_expiresAt c) | None => false end
    then mret (Refused "idempotency") else
  let replayed := match commandCharge with Some c => bool_decide (ch_status c = Charge_SUCCEEDED) && (now <? ch_expiresAt c) | None => false end in
  let rates := List.filter (fun r => negb (rr_commandScoped r) || negb replayed) (qr_rateReservations request) in
  let capacities := List.filter (fun r => negb (ca_commandScoped r) || negb replayed) (qr_capacityReservations request) in
  s ← gets (fun s => s);
  plannedRates ← lift (next_rates tenantId now (qs_rates s) rates);
  match plannedRates with None => mret (Refused "rate") | Some nextRates =>
  plannedCapacities ← lift (next_capacities tenantId (qs_capacities s) capacities);
  match plannedCapacities with None => mret (Refused "capacity") | Some nextCapacities =>
  ensureCapacity cfg (new_keys nextRates (qs_rates s) + new_keys nextCapacities (qs_capacities s) + 1 +
    match commandChargeKey with Some k => match map_get k (qs_charges s) with Some _ => 0 | None => 1 end | None => 0 end) ;;
  modify (fun s => set_rates (set_all nextRates (qs_rates s)) s) ;;
  modify (fun s => set_capacities (set_all nextCapacities (qs_capacities s)) s) ;;
  modify (fun s => set_admissions (map_set (qr_admissionId request)
    (MkAdmission request Admission_PENDING now (now + qr_leaseMs request) replayed capacities None None) (qs_admissions s)) s) ;;
  match commandChargeKey with
  | Some k => when (negb replayed) (modify (fun s => set_charges (map_set k
      (MkCharge Charge_PENDING (qr_admissionId request) (now + COMMAND_RETENTION_MS)) (qs_charges s)) s))
  | None => mret ()
  end ;;
  issuedAt ← lift (iso_of now);
  expiresAt ← lift (iso_of (now + qr_leaseMs request));
  mret (Granted replayed issuedAt expiresAt)
  end end.

(** ** Finishing and releasing *)

Definition finish (cfg : QuotaConfig) (clock : option Z) (admissionId tenantId outcome : string) : M QuotaStore AdmissionState :=
  fault cfg "finish" ;;
  now ← quota_now clock;
  cleanup now (Some admissionId) ;;
  lift (assertAbuseIdentifier "admissionId" admissionId) ;;
  found ← gets (fun s => map_get admissionId (qs_admissions s));
  match found with
  | None => throw "admission_not_found" "request admission is not available"
  | Some a =>
      throw_if (negb (String.eqb (qr_tenantId (am_request a)) tenantId)) "admission_not_found" "request admission is not available" ;;
      if negb (is_pending a) then mret (am_state a) else
      finishAdmission a outcome now ;;
      mret (am_state (finished_admission a outcome now))
  end.

Fixpoint check_releases (tenantId : string) (l : list ReleaseReservation) : M QuotaStore unit :=
  match l with
  | [] => mret ()
  | r :: l =>
      key ← lift (assertAbuseHash "keyHash" (rl_keyHash r) ;; capacityKey tenantId (rl_keyHash r) "tenant");
      current ← gets (fun s => map_get key (qs_capacities s));
      throw_if (match current with Some e => negb (String.eqb (cp_kind e) (rl_kind r)) || (cp_used e <? rl_units r) | None => true end)
        "resource_counter_underflow" "resource counter release is invalid" ;;
      check_releases tenantId l
  end.

Fixpoint release_all (tenantId : string) (l : list ReleaseReservation) : M QuotaStore unit :=
  match l with
  | [] => mret ()
  | r :: l => decrementCapacity tenantId (rl_keyHash r) "tenant" (rl_units r) ;; release_all tenantId l
  end.

Definition release (cfg : QuotaConfig) (clock : option Z) (tenantId : string) (reservations : list ReleaseReservation) : M QuotaStore unit :=
  fault cfg "release" ;;
  quota_now clock ;;
  lift (assertQuotaStoreRelease tenantId reservations None) ;;
  check_releases tenantId reservations ;;
  release_all tenantId reservations.

(** ** The snapshot: how many entries there are of each name *)

Definition state_name (s : AdmissionState) : string :=
  match s with Admission_PENDING => "pending" | Admission_COMPLETED => "completed" | Admission_EXPIRED => "expired" end.
Definition status_name (s : ChargeStatus) : string :=
  match s with Charge_PENDING => "pending" | Charge_FAILED => "failed" | Charge_SUCCEEDED => "succeeded" end.
Definition count_by {V} (name : V -> string) (amount : V -> Z) (m : jsmap V) : jsmap Z :=
  foldl (fun acc v => map_set (name v) (default 0 (map_get (name v) acc) + amount v) acc) [] (map_values m).

Definition snapshot (s : QuotaStore) : jsmap Z * jsmap Z * jsmap Z * jsmap Z :=
  (count_by ra_dimension (fun _ => 1) (qs_rates s), count_by cp_kind cp_used (qs_capacities s),
   count_by (fun a => state_name (am_state a)) (fun _ => 1) (qs_admissions s),
   count_by (fun c => status_name (ch_status c)) (fun _ => 1) (qs_charges s)).
