(* ===== verification/QuotaProps.v ===== *)
(** * Request quotas: theorems

    A rate limit bounds what is admitted in each window, and the capacities held are
    those of the requests that are running and of the resources that were kept. *)

From stdpp Require Import base tactics sets relations gmap numbers strings list.
From S2P Require Import Prelude Js Enums EventStore Service Mandate Loan Servicing Trading Quota.
Local Open Scope string_scope.
Local Open Scope Z_scope.

(** ** Maps *)

Lemma map_get_filter {V} (p : string * V -> bool) k (m : jsmap V) : NoDup (map_keys m) ->
  map_get k (List.filter p m) = match map_get k m with Some v => if p (k, v) then Some v else None | None => None end.
Proof.
  unfold map_keys. induction m as [|[j v] m IH]; [done|]. rewrite fmap_cons. intros [Hj Hm]%NoDup_cons. specialize (IH Hm). cbn [List.filter map_get fst] in *.
  destruct (String.eqb_spec k j) as [->|Hne].
  - destruct (p (j, v)) eqn:E; cbn [map_get]; [by rewrite String.eqb_refl|]. rewrite IH.
    assert (map_get j m = None) as -> by (by apply map_get_None). done.
  - destruct (p (j, v)); cbn [map_get]; [|done]. by rewrite (proj2 (String.eqb_neq _ _) Hne).
Qed.

Lemma keys_filter {V} (p : string * V -> bool) (m : jsmap V) : NoDup (map_keys m) -> NoDup (map_keys (List.filter p m)).
Proof.
  unfold map_keys. induction m as [|[j v] m IH]; [done|]. rewrite fmap_cons. intros [Hj Hm]%NoDup_cons. cbn [List.filter].
  destruct (p (j, v)); [|by apply IH]. rewrite fmap_cons. apply NoDup_cons. split; [|by apply IH]. cbn [fst] in *.
  intros (x & Hx & Hin)%list_elem_of_fmap. apply Hj, list_elem_of_fmap. exists x. split; [done|].
  apply list_elem_of_In, filter_In in Hin as [? _]. by apply list_elem_of_In.
Qed.

Lemma map_get_delete {V} k j (m : jsmap V) : map_get k (map_delete j m) = if decide (j = k) then None else map_get k m.
Proof.
  unfold map_delete. induction m as [|[i v] m IH]; [by case_decide|]. cbn [List.filter map_get fst].
  destruct (String.eqb_spec j i) as [->|Hji]; cbn [negb map_get]; destruct (String.eqb_spec k i) as [->|Hki]; rewrite ?IH; case_decide; try done; congruence.
Qed.

Lemma set_all_keys {V} (es : list (string * V)) m : NoDup (map_keys m) -> NoDup (map_keys (set_all es m)).
Proof. revert m. induction es as [|[k v] es IH]; intros m Hm; [done|]. by apply IH, map_set_NoDup. Qed.

Lemma set_all_absent {V} (es : list (string * V)) m k : k ∉ map fst es -> map_get k (set_all es m) = map_get k m.
Proof.
  revert m. induction es as [|[j v] es IH]; intros m; [done|]. cbn [map fst set_all]. intros [Hne Hin]%not_elem_of_cons.
  rewrite IH by done. apply map_get_set_ne. congruence.
Qed.

Lemma set_all_present {V} (es : list (string * V)) m k v : NoDup (map fst es) -> (k, v) ∈ es -> map_get k (set_all es m) = Some v.
Proof.
  revert m. induction es as [|[j w] es IH]; intros m; [by intros _ ?%not_elem_of_nil|]. cbn [map fst set_all]. intros [Hj Hn]%NoDup_cons.
  intros [[= -> ->]|Hin]%elem_of_cons; [|by apply IH]. by rewrite set_all_absent, map_get_set_eq.
Qed.

(** ** Sums at a key *)

(** The amounts of the items at a key. *)
Definition sum_at {A} (key : A -> string) (amount : A -> Z) (k : string) (l : list A) : Z :=
  sum_by (fun x => if decide (key x = k) then amount x else 0) l.

Lemma sum_at_cons {A} (key : A -> string) amount k x l :
  sum_at key amount k (x :: l) = (if decide (key x = k) then amount x else 0) + sum_at key amount k l.
Proof. apply sum_by_cons. Qed.

Lemma sum_at_nonneg {A} (key : A -> string) amount k l : (forall x, x ∈ l -> 0 <= amount x) -> 0 <= sum_at key amount k l.
Proof. intros H. apply sum_by_nonneg. intros x Hx. pose proof (H x Hx). case_decide; lia. Qed.

(** With distinct keys there is at most one item at the key. *)
Lemma sum_at_cases {A} (key : A -> string) amount k l : NoDup (map key l) ->
  (k ∉ map key l /\ sum_at key amount k l = 0) \/ exists x, x ∈ l /\ key x = k /\ sum_at key amount k l = amount x.
Proof.
  induction l as [|r l IH]; [left; split; [apply not_elem_of_nil|done]|]. cbn [map]. intros [Hr Hl]%NoDup_cons. rewrite sum_at_cons.
  destruct (IH Hl) as [[Hn ->]|(r' & Hin & <- & ->)]; case_decide as Hk.
  - right. exists r. split; [left|]. split; [done|lia].
  - left. split; [by apply not_elem_of_cons|lia].
  - destruct Hr. rewrite Hk. apply list_elem_of_fmap. by exists r'.
  - right. exists r'. split; [by right|]. split; [done|lia].
Qed.

(** ** Keys *)

Definition rate_key (tenantId : string) (r : RateReservation) : string := partition_of tenantId (rr_partition r) +:+ NUL +:+ rr_keyHash r.
Definition capacity_key (tenantId keyHash partition : string) : string := partition_of tenantId partition +:+ NUL +:+ keyHash.

Lemma append_length s t : String.length (s +:+ t) = (String.length s + String.length t)%nat.
Proof. induction s as [|c s IH]; [done|exact (f_equal S IH)]. Qed.

Lemma append_same_length a b x y : String.length x = String.length y -> a +:+ x = b +:+ y -> x = y.
Proof.
  revert b. induction a as [|c a IH]; intros [|d b] Hl E.
  - exact E.
  - apply (f_equal String.length) in E. rewrite !append_length in E. cbn in E. lia.
  - apply (f_equal String.length) in E. rewrite !append_length in E. cbn in E. lia.
  - injection E as _ E. by eapply IH.
Qed.

Lemma hash_length s : HASH_PATTERN s = true -> String.length s = 66%nat.
Proof. unfold HASH_PATTERN. rewrite !andb_true_iff. by intros [[_ ?%Nat.eqb_eq] _]. Qed.

(** The hash at the end of a key is the key's. *)
Lemma key_hash p q x y : HASH_PATTERN x = true -> HASH_PATTERN y = true -> p +:+ NUL +:+ x = q +:+ NUL +:+ y -> x = y.
Proof.
  intros Hx%hash_length Hy%hash_length E. apply append_same_length in E; [|by rewrite !append_length, Hx, Hy].
  apply append_same_length in E; [done|congruence].
Qed.

(** Distinct hashes make distinct keys. *)
Lemma keys_NoDup {A} (hash part : A -> string) (l : list A) : Forall (fun x => HASH_PATTERN (hash x) = true) l -> NoDup (map hash l) ->
  NoDup (map (fun x => part x +:+ NUL +:+ hash x) l).
Proof.
  induction l as [|r l IH]; [constructor|]. intros [Hr Hl]%Forall_cons. cbn [map]. intros [Hh Hn]%NoDup_cons. apply NoDup_cons. split; [|by apply IH].
  intros (r' & E & Hin)%list_elem_of_fmap. apply Hh, list_elem_of_fmap. exists r'. split; [|done]. rewrite Forall_forall in Hl.
  eapply key_hash; [apply Hr|apply (Hl r' Hin)|exact E].
Qed.

Lemma rateKey_Ok t h p : HASH_PATTERN h = true -> rateKey t h p = Ok (partition_of t p +:+ NUL +:+ h).
Proof. intros Hh. unfold rateKey, assertAbuseHash, invalid_abuse_if. by rewrite Hh. Qed.
Lemma capacityKey_Ok t h p : HASH_PATTERN h = true -> capacityKey t h p = Ok (capacity_key t h p).
Proof. intros Hh. unfold capacityKey, assertAbuseHash, invalid_abuse_if. by rewrite Hh. Qed.

(** ** What the contract guarantees *)

Record rate_ok (r : RateReservation) : Prop := {
  rk_hash : HASH_PATTERN (rr_keyHash r) = true;
  rk_window : 0 < rr_windowMs r;
  rk_units : 1 <= rr_units r <= rr_limit r }.

Record capacity_ok (r : CapacityReservation) : Prop := {
  ck_hash : HASH_PATTERN (ca_keyHash r) = true;
  ck_units : 1 <= ca_units r <= ca_limit r;
  ck_release : ca_release r = "always" \/ ca_release r = "on_failure" }.

Lemma assert_hash_Ok name s u : assertAbuseHash name s = Ok u -> HASH_PATTERN s = true.
Proof. intros K%guard_Ok. by apply negb_false_iff. Qed.
Lemma assert_positive_Ok name z m u : assertPositiveInteger name z m = Ok u -> 1 <= z <= m.
Proof. intros K%guard_Ok. apply orb_false_iff in K as [[_ K1]%orb_false_iff K2]. lia. Qed.

Lemma assert_rates_Ok seen l u : assert_rates seen l = Ok u ->
  Forall rate_ok l /\ NoDup (map rr_keyHash l) /\ forall h, h ∈ map rr_keyHash l -> h ∉ seen.
Proof.
  revert seen. induction l as [|r l IH]; intros seen; cbn [assert_rates map]; [intros _; split_and!; [constructor|constructor|set_solver]|].
  intros E. result_inv. repeat match goal with K : invalid_abuse_if _ _ = Ok _ |- _ => apply guard_Ok in K end.
  destruct (IH _ E) as (Hf & Hn & Hs). match goal with K : bool_decide (_ ∈ seen) = false |- _ => apply bool_decide_eq_false in K; rename K into Hr end.
  split_and!.
  - constructor; [|done]. split.
    + by eapply assert_hash_Ok.
    + match goal with K : assertPositiveInteger "rate windowMs" _ _ = _ |- _ => apply assert_positive_Ok in K; lia end.
    + match goal with K : assertPositiveInteger "rate units" _ _ = _ |- _ => apply assert_positive_Ok in K; lia end.
  - apply NoDup_cons. split; [|done]. intros Hin. apply (Hs _ Hin). left.
  - intros h [->|Hin]%elem_of_cons; [done|]. specialize (Hs _ Hin). set_solver.
Qed.

Lemma assert_capacities_Ok seen l u : assert_capacities seen l = Ok u ->
  Forall capacity_ok l /\ NoDup (map ca_keyHash l) /\ forall h, h ∈ map ca_keyHash l -> h ∉ seen.
Proof.
  revert seen. induction l as [|r l IH]; intros seen; cbn [assert_capacities map]; [intros _; split_and!; [constructor|constructor|set_solver]|].
  unfold assertCapacityReservation. intros E. result_inv. repeat match goal with K : invalid_abuse_if _ _ = Ok _ |- _ => apply guard_Ok in K end.
  destruct (IH _ E) as (Hf & Hn & Hs). match goal with K : bool_decide (_ ∈ seen) = false |- _ => apply bool_decide_eq_false in K; rename K into Hr end.
  match goal with K : _ || _ || _ = false |- _ => apply orb_false_iff in K as [[K1 K2%negb_false_iff%bool_decide_eq_true]%orb_false_iff _] end.
  split_and!.
  - constructor; [|done]. split.
    + by eapply assert_hash_Ok.
    + match goal with K : assertPositiveInteger "capacity units" _ _ = _ |- _ => apply assert_positive_Ok in K; lia end.
    + unfold RELEASE_MODES in K2. set_solver.
  - apply NoDup_cons. split; [|done]. intros Hin. apply (Hs _ Hin). left.
  - intros h [->|Hin]%elem_of_cons; [done|]. specialize (Hs _ Hin). set_solver.
Qed.

Lemma request_Ok r t b u : assertQuotaStoreRequest r t b = Ok u ->
  (Forall rate_ok (qr_rateReservations r) /\ NoDup (map rr_keyHash (qr_rateReservations r))) /\
  Forall capacity_ok (qr_capacityReservations r) /\ NoDup (map ca_keyHash (qr_capacityReservations r)).
Proof.
  unfold assertQuotaStoreRequest. intros E. result_inv. apply assert_capacities_Ok in E as (? & ? & _).
  match goal with K : assert_rates _ _ = Ok _ |- _ => apply assert_rates_Ok in K as (? & ? & _) end. done.
Qed.

(** ** Rates only age

    Everything but an admission leaves the rate entries or drops the expired ones. *)

Record aged (s s' : QuotaStore) : Prop := {
  ag_time : qs_lastNow s <= qs_lastNow s';
  ag_keys : NoDup (map_keys (qs_rates s'));
  ag_rates : forall k, map_get k (qs_rates s') = map_get k (qs_rates s) \/
    (map_get k (qs_rates s') = None /\ exists e, map_get k (qs_rates s) = Some e /\ ra_expiresAt e <= qs_lastNow s') }.

Definition ages {A} (m : M QuotaStore A) : Prop :=
  forall s, NoDup (map_keys (qs_rates s)) -> wp m (fun _ s' => aged s s') (fun _ s' => aged s s') s.

Lemma aged_trans s1 s2 s3 : aged s1 s2 -> aged s2 s3 -> aged s1 s3.
Proof.
  intros [T1 K1 R1] [T2 K2 R2]. split; [lia|done|]. intros k. destruct (R2 k) as [E2|(E2 & e & Ee & He)], (R1 k) as [E1|(E1 & e1 & Ee1 & He1)].
  - left. congruence.
  - right. split; [congruence|]. exists e1. split; [done|lia].
  - right. split; [done|]. exists e. split; [congruence|done].
  - congruence.
Qed.

Lemma ages_bind {A B} (m : M QuotaStore A) (f : A -> M QuotaStore B) : ages m -> (forall a, ages (f a)) -> ages (m ≫= f).
Proof.
  intros Hm Hf s Hs. apply wp_bind. eapply wp_mono; [by apply Hm| |done]. intros a s1 H1. cbv beta.
  eapply wp_mono; [apply Hf, H1|..]; intros ? s2 H2; exact (aged_trans _ _ _ H1 H2).
Qed.

Lemma aged_same s s' : NoDup (map_keys (qs_rates s)) -> qs_rates s' = qs_rates s -> qs_lastNow s' = qs_lastNow s -> aged s s'.
Proof. intros Hn E1 E2. split; [lia|by rewrite E1|]. intros k. left. by rewrite E1. Qed.

(** What leaves the rates and the time as they are. *)
Definition still {A} (m : M QuotaStore A) : Prop := forall s,
  wp m (fun _ s' => qs_rates s' = qs_rates s /\ qs_lastNow s' = qs_lastNow s)
    (fun _ s' => qs_rates s' = qs_rates s /\ qs_lastNow s' = qs_lastNow s) s.

Lemma still_ages {A} (m : M QuotaStore A) : still m -> ages m.
Proof. intros Hm s Hs. eapply wp_mono; [apply Hm|..]; intros ? s' [E1 E2]; by apply aged_same. Qed.

Lemma still_bind {A B} (m : M QuotaStore A) (f : A -> M QuotaStore B) : still m -> (forall a, still (f a)) -> still (m ≫= f).
Proof.
  intros Hm Hf s. apply wp_bind. eapply wp_mono; [by apply Hm| |done]. intros a s1 [E1 E2]. cbv beta.
  eapply wp_mono; [apply Hf|..]; intros ? s2 [F1 F2]; split; congruence.
Qed.
Lemma still_modify f : (forall s, qs_rates (f s) = qs_rates s /\ qs_lastNow (f s) = qs_lastNow s) -> still (modify f).
Proof. intros Hf s. exact (Hf s). Qed.
Lemma still_lift {A} (r : result A) : still (lift r).
Proof. intros s. by apply wp_lift. Qed.
Lemma still_gets {A} (f : QuotaStore -> A) : still (gets f).
Proof. by intros s. Qed.
Lemma still_ret {A} (a : A) : still (mret a).
Proof. by intros s. Qed.
Lemma still_throw {A} code text : still (throw (A:=A) code text).
Proof. by intros s. Qed.
Lemma still_throw_if c code text : still (throw_if c code text).
Proof. intros s. by apply wp_throw_if. Qed.

Create HintDb still.
#[export] Hint Resolve still_lift still_gets still_ret still_throw still_throw_if : still.

(** A method made of parts that leave the rates. *)
Ltac still :=
  repeat lazymatch goal with
  | |- still (_ ≫= _) => apply still_bind; [|intros ?]
  | |- still (modify _) => apply still_modify; done
  | |- still (when ?c _) => destruct c; cbn [when]
  | |- still (match ?x with _ => _ end) => destruct x
  | |- _ => solve [auto with still]
  end.

Lemma still_decrement t h p u : still (decrementCapacity t h p u).
Proof. unfold decrementCapacity. still. Qed.
#[export] Hint Resolve still_decrement : still.
Lemma still_decrement_all t l : still (decrement_all t l).
Proof. induction l; cbn [decrement_all]; still. Qed.
#[export] Hint Resolve still_decrement_all : still.
Lemma still_finishAdmission a o now : still (finishAdmission a o now).
Proof. unfold finishAdmission. cbv zeta. still. Qed.
#[export] Hint Resolve still_finishAdmission : still.
Lemma still_expire now ex l : still (expire_admissions now ex l).
Proof. induction l; cbn [expire_admissions]; still. Qed.
Lemma still_evict cfg n l : still (evict cfg n l).
Proof. induction l as [|[id a] l IH]; cbn [evict]; still. Qed.
#[export] Hint Resolve still_expire still_evict : still.
Lemma still_ensure cfg n : still (ensureCapacity cfg n).
Proof. unfold ensureCapacity. still. Qed.
Lemma still_fault cfg stage : still (fault cfg stage).
Proof. unfold fault. still. Qed.
Lemma still_check_releases t l : still (check_releases t l).
Proof. induction l; cbn [check_releases]; still. Qed.
Lemma still_release_all t l : still (release_all t l).
Proof. induction l; cbn [release_all]; still. Qed.
#[export] Hint Resolve still_ensure still_fault still_check_releases still_release_all : still.

(** The clock never runs back. *)
Lemma wp_quota_now clock s (Q : Z -> QuotaStore -> Prop) (E : DomainError -> QuotaStore -> Prop) :
  (forall e, E e s) -> (forall t, clock = Some t -> Q (Z.max (qs_lastNow s) t) (set_lastNow (Z.max (qs_lastNow s) t) s)) ->
  wp (quota_now clock) Q E s.
Proof. intros HE HQ. destruct clock as [t|]; [by apply HQ|apply HE]. Qed.

(** Cleaning up drops the rates whose window has ended. *)
Lemma wp_cleanup now ex s : NoDup (map_keys (qs_rates s)) -> now <= qs_lastNow s ->
  wp (cleanup now ex) (fun _ s' => aged s s' /\ qs_lastNow s' = qs_lastNow s) (fun _ s' => aged s s' /\ qs_lastNow s' = qs_lastNow s) s.
Proof.
  intros Hn Hle. unfold cleanup. apply wp_bind, wp_gets. apply wp_bind.
  eapply wp_mono; [apply still_expire| |intros e s1 [E1 E2]; split; [by apply aged_same|done]].
  intros _ s1 [E1 E2]. cbv beta. apply wp_bind, wp_modify. apply wp_modify. cbn. split; [|done]. split; [cbn; lia|cbn; rewrite E1; by apply keys_filter|].
  intros k. cbn. rewrite E1, map_get_filter by done. destruct (map_get k (qs_rates s)) as [e|]; [|by left]. cbn [snd].
  destruct (Z.leb_spec (ra_expiresAt e) now); cbn [negb]; [right|by left]. split; [done|]. exists e. split; [done|lia].
Qed.

(** The beginning of a method: the clock is read and the store cleaned up. *)
Lemma wp_begin {A} cfg stage clock ex (f : Z -> M QuotaStore A) Q E s : NoDup (map_keys (qs_rates s)) ->
  (forall e s', aged s s' -> E e s') -> (forall s1, aged s s1 -> wp (f (qs_lastNow s1)) Q E s1) ->
  wp (fault cfg stage ;; now ← quota_now clock; cleanup now ex ;; f now) Q E s.
Proof.
  intros Hn HE HQ. apply wp_bind. eapply wp_mono; [apply still_fault| |intros e s1 [E1 E2]; by apply HE, aged_same].
  intros _ s1 [E1 E2]. cbv beta. apply wp_bind, wp_quota_now; [intros e; by apply HE, aged_same|]. intros t _.
  set (s2 := set_lastNow _ s1). assert (H2 : aged s s2) by (split; [cbn; lia|cbn; by rewrite E1|intros k; left; cbn; by rewrite E1]).
  change (Z.max (qs_lastNow s1) t) with (qs_lastNow s2). apply wp_bind. eapply wp_mono; [apply wp_cleanup; [apply H2|done]|..].
  - intros _ s3 [H3 E3]. cbv beta. rewrite <- E3. apply HQ. by eapply aged_trans.
  - intros e s3 [H3 _]. apply HE. by eapply aged_trans.
Qed.

(** ** What a reservation records *)

(** What is used of a rate in a window. *)
Definition used_in (k : string) (W : Z) (s : QuotaStore) : Z :=
  match map_get k (qs_rates s) with Some e => if ra_windowStartedAt e =? W then ra_used e else 0 | None => 0 end.

(** The reservations a request makes: those of the command only when it is new. *)
Definition due_rates (replayed : bool) (request : QuotaRequest) : list RateReservation :=
  List.filter (fun r => negb (rr_commandScoped r) || negb replayed) (qr_rateReservations request).

Lemma due_rates_In replayed request r : r ∈ due_rates replayed request -> r ∈ qr_rateReservations request.
Proof. intros [? _]%list_elem_of_In%filter_In. by apply list_elem_of_In. Qed.

Lemma filter_NoDup_map {A B} (f : A -> B) (p : A -> bool) l : NoDup (map f l) -> NoDup (map f (List.filter p l)).
Proof.
  induction l as [|x l IH]; [done|]. cbn [map List.filter]. intros [Hx Hl]%NoDup_cons. destruct (p x); [|by apply IH].
  cbn [map]. apply NoDup_cons. split; [|by apply IH]. intros (y & Ey & Hy)%list_elem_of_fmap. apply Hx.
  apply list_elem_of_fmap. exists y. split; [exact Ey|]. apply list_elem_of_In, filter_In in Hy as [? _]. by apply list_elem_of_In.
Qed.

(** The entries of the loop over the rates, one for each reservation and within its limit. *)
Lemma next_rates_Some t now s l es : Forall rate_ok l -> next_rates t now (qs_rates s) l = Ok (Some es) ->
  map fst es = map (rate_key t) l /\
  forall r, r ∈ l -> exists e, (rate_key t r, e) ∈ es /\ ra_windowStartedAt e = window_of now (rr_windowMs r) /\
    ra_expiresAt e = window_of now (rr_windowMs r) + rr_windowMs r /\
    ra_used e = used_in (rate_key t r) (window_of now (rr_windowMs r)) s + rr_units r /\ ra_used e <= rr_limit r.
Proof.
  revert es. induction l as [|r l IH]; intros es Hl; cbn [next_rates map]; [intros [= <-]; split; [done|by intros r ?%not_elem_of_nil]|].
  apply Forall_cons in Hl as [Hr Hl]. rewrite rateKey_Ok by apply Hr. cbn [mbind result_bind]. fold (rate_key t r).
  set (current := match map_get (rate_key t r) (qs_rates s) with Some e => _ | None => None end).
  assert (Hu : match current with Some e => ra_used e | None => 0 end = used_in (rate_key t r) (window_of now (rr_windowMs r)) s).
  { unfold current, used_in. destruct (map_get _ _) as [e|]; [|done]. by destruct (_ =? _). }
  rewrite Hu. destruct (Z.ltb_spec (rr_limit r) (used_in (rate_key t r) (window_of now (rr_windowMs r)) s + rr_units r)) as [|Hle]; [done|].
  destruct (next_rates t now (qs_rates s) l) as [[es'|]|err] eqn:E; cbn [mbind result_bind]; [|done|done]. intros [= <-].
  destruct (IH es' Hl eq_refl) as [Hk Hes]. split; [cbn [map fst]; by rewrite Hk|]. intros r' [->|Hin]%elem_of_cons.
  - eexists. split; [left|]. done.
  - destruct (Hes r' Hin) as (e & He & ?). exists e. split; [by right|done].
Qed.

(** An admission that was recorded: the clean store and the entries it gained. *)
Definition recorded (request : QuotaRequest) (replayed : bool) (s s' : QuotaStore) : Prop :=
  exists s1 es, aged s s1 /\ assertQuotaStoreRequest request None false = Ok () /\
    next_rates (qr_tenantId request) (qs_lastNow s1) (qs_rates s1) (due_rates replayed request) = Ok (Some es) /\
    qs_rates s' = set_all es (qs_rates s1) /\ qs_lastNow s' = qs_lastNow s1.

Lemma still_charge (key : option string) (replayed : bool) c :
  still (match key with
         | Some k => when (negb replayed) (modify (fun s => set_charges (map_set k c (qs_charges s)) s))
         | None => mret ()
         end).
Proof. still. Qed.

Lemma wp_reserve cfg clock request s : NoDup (map_keys (qs_rates s)) ->
  wp (reserve cfg clock request)
    (fun v s' => match v with Refused _ => aged s s' | Granted replayed _ _ => recorded request replayed s s' end)
    (fun _ s' => aged s s' \/ exists replayed, recorded request replayed s s') s.
Proof.
  intros Hn. unfold reserve. apply wp_begin; [done|by left|]. intros s1 H1. apply wp_bind, wp_lift; [by left|]. intros [] Ha. cbv zeta. apply wp_bind, wp_gets.
  set (charge := match option_map _ _ with Some k => _ | None => None end). apply wp_if; intros _; [by apply wp_ret|].
  set (replayed := match charge with Some c => _ | None => false end). apply wp_bind, wp_gets. apply wp_bind, wp_lift; [by left|].
  intros [es|] Er; [|by apply wp_ret]. apply wp_bind, wp_lift; [by left|]. intros [cs|] _; [|by apply wp_ret].
  apply wp_bind. eapply wp_mono; [apply still_ensure| |intros e s2 [E1 E2]; left; eapply aged_trans; [exact H1|apply aged_same; [apply H1|done|done]]].
  intros _ s2 [E1 E2]. cbv beta. apply wp_bind, wp_modify. set (s3 := set_rates _ s2).
  assert (H3 : forall s', qs_rates s' = qs_rates s3 -> qs_lastNow s' = qs_lastNow s3 -> recorded request replayed s s').
  { intros s' F1 F2. exists s1, es. split_and!; [done|done|exact Er|by rewrite F1; cbn; rewrite E1|by rewrite F2]. }
  apply wp_bind, wp_modify. apply wp_bind, wp_modify. set (s4 := set_admissions _ _).
  apply wp_bind. eapply wp_mono; [apply (still_charge _ replayed)| |]; intros ? s5 [F1 F2]; [|right; exists replayed; by apply H3].
  apply wp_bind, wp_lift; [right; exists replayed; by apply H3|]. intros i _. apply wp_bind, wp_lift; [right; exists replayed; by apply H3|].
  intros x _. apply wp_ret. by apply H3.
Qed.

(** ** Sequences of calls *)

Inductive QuotaOp :=
  | OpReserve (clock : option Z) (request : QuotaRequest)
  | OpFinish (clock : option Z) (admissionId tenantId outcome : string)
  | OpRelease (clock : option Z) (tenantId : string) (reservations : list ReleaseReservation).

(** A call of the store: the request it admitted and whether it was a replay, and the store after it. *)
Definition quota_step (cfg : QuotaConfig) (op : QuotaOp) (s : QuotaStore) : option (QuotaRequest * bool) * QuotaStore :=
  match op with
  | OpReserve clock request => match reserve cfg clock request s with
                               | (Ok (Granted replayed _ _), s') => (Some (request, replayed), s')
                               | (_, s') => (None, s')
                               end
  | OpFinish clock a t o => (None, (finish cfg clock a t o s).2)
  | OpRelease clock t l => (None, (release cfg clock t l s).2)
  end.

Lemma finish_ages cfg clock a t o : ages (finish cfg clock a t o).
Proof.
  intros s Hs. unfold finish. apply wp_begin; [done|done|]. intros s1 H1. eapply wp_mono; [eapply still_ages; [|apply H1]|..].
  - still.
  - intros v s2 H2. exact (aged_trans _ _ _ H1 H2).
  - intros v s2 H2. exact (aged_trans _ _ _ H1 H2).
Qed.

Lemma release_ages cfg clock t l : ages (release cfg clock t l).
Proof.
  intros s Hs. unfold release. apply ages_bind; [apply still_ages, still_fault|intros _|done]. apply ages_bind; [|intros _; apply still_ages; still].
  intros s1 H1. apply wp_quota_now; [intros e; by apply aged_same|]. intros x _. split; [cbn; lia|done|by left].
Qed.

Section rate.
Context (cfg : QuotaConfig) (k : string) (w L : Z) (Hw : 0 < w) (HL : 0 <= L).

(** The units an admitted request takes of the rate. *)
Definition admitted_units (a : option (QuotaRequest * bool)) : Z :=
  match a with Some (request, replayed) => sum_at (rate_key (qr_tenantId request)) rr_units k (due_rates replayed request) | None => 0 end.

(** What a sequence of calls admits in the window that starts at [W]. *)
Fixpoint admitted_in (W : Z) (ops : list QuotaOp) (s : QuotaStore) : Z :=
  match ops with
  | [] => 0
  | op :: ops => let '(a, s') := quota_step cfg op s in
                 (if window_of (qs_lastNow s') w =? W then admitted_units a else 0) + admitted_in W ops s'
  end.

(** The policy gives the rate one window, and never a limit above [L]. *)
Definition rate_policy (op : QuotaOp) : Prop :=
  match op with
  | OpReserve _ request => forall r, r ∈ qr_rateReservations request -> rate_key (qr_tenantId request) r = k -> rr_windowMs r = w /\ rr_limit r <= L
  | _ => True
  end.

Definition current (s : QuotaStore) : Z := window_of (qs_lastNow s) w.

Lemma current_bounds s : current s <= qs_lastNow s < current s + w.
Proof. unfold current, window_of. pose proof (Z.mod_pos_bound (qs_lastNow s) w Hw). pose proof (Z.div_mod (qs_lastNow s) w). lia. Qed.
Lemma current_mono s s' : qs_lastNow s <= qs_lastNow s' -> current s <= current s'.
Proof. intros. unfold current, window_of. apply Z.mul_le_mono_nonneg_r; [lia|]. apply Z.div_le_mono; lia. Qed.
Record rate_inv (s : QuotaStore) : Prop := {
  ri_keys : NoDup (map_keys (qs_rates s));
  ri_entry : forall e, map_get k (qs_rates s) = Some e ->
    ra_windowStartedAt e <= current s /\ ra_expiresAt e = ra_windowStartedAt e + w /\ 0 <= ra_used e <= L }.

Lemma used_bounds s W : rate_inv s -> 0 <= used_in k W s <= L.
Proof. intros [_ He]. unfold used_in. destruct (map_get k _) as [e|]; [|lia]. destruct (He e eq_refl) as (_ & _ & ?). destruct (_ =? _); lia. Qed.
Lemma used_future s W : rate_inv s -> current s < W -> used_in k W s = 0.
Proof. intros [_ He] ?. unfold used_in. destruct (map_get k _) as [e|]; [|done]. destruct (He e eq_refl) as (? & _). destruct (Z.eqb_spec (ra_windowStartedAt e) W); [lia|done]. Qed.

Lemma aged_inv s s' : rate_inv s -> aged s s' -> rate_inv s'.
Proof.
  intros [Hk He] [Ht Hk' Hr]. split; [done|]. intros e E. destruct (Hr k) as [E'|[E' _]]; [|congruence].
  destruct (He e) as (? & ? & ?); [congruence|]. pose proof (current_mono _ _ Ht). split_and!; lia.
Qed.
Lemma aged_used s s' W : rate_inv s -> aged s s' -> current s' <= W -> used_in k W s' = used_in k W s.
Proof.
  intros [Hk He] [Ht Hk' Hr] HW. unfold used_in. destruct (Hr k) as [->|(-> & e & Ee & Hx)]; [done|]. rewrite Ee.
  destruct (He e Ee) as (_ & E & _). pose proof (current_bounds s'). destruct (Z.eqb_spec (ra_windowStartedAt e) W); [lia|done].
Qed.

Lemma admitted_nonneg request replayed s s' : recorded request replayed s s' -> 0 <= admitted_units (Some (request, replayed)).
Proof.
  intros (s1 & es & _ & Ha & _). destruct (request_Ok _ _ _ _ Ha) as ((Hf & _) & _). apply sum_at_nonneg. intros r Hr%due_rates_In.
  rewrite Forall_forall in Hf. pose proof (rk_units _ (Hf r Hr)). lia.
Qed.

(** A recorded admission adds its units to the current window. *)
Lemma recorded_effect request replayed s s' : rate_inv s -> rate_policy (OpReserve None request) -> recorded request replayed s s' ->
  rate_inv s' /\ qs_lastNow s <= qs_lastNow s' /\
  forall W, current s' <= W ->
    used_in k W s + (if current s' =? W then admitted_units (Some (request, replayed)) else 0) <= used_in k W s'.
Proof.
  intros Hs Hp (s1 & es & H1 & Ha & Hes & Er & Et). pose proof (aged_inv _ _ Hs H1) as Hs1.
  destruct (request_Ok _ _ _ _ Ha) as ((Hf & Hn) & _).
  assert (Hf' : Forall rate_ok (due_rates replayed request)) by (apply Forall_forall; intros r Hr%due_rates_In; by eapply Forall_forall).
  assert (Hn' : NoDup (map (rate_key (qr_tenantId request)) (due_rates replayed request))) .
  { apply (keys_NoDup rr_keyHash (fun r => partition_of (qr_tenantId request) (rr_partition r))); [|by apply filter_NoDup_map].
    eapply Forall_impl; [exact Hf'|]. intros r Hr. apply Hr. }
  destruct (next_rates_Some _ _ _ _ _ Hf' Hes) as [Hk Hent]. assert (Ec : current s' = current s1) by (unfold current; by rewrite Et).
  cbn [admitted_units]. destruct (sum_at_cases _ rr_units k _ Hn') as [[Habs ->]|(r & Hin & Hrk & ->)].
  - assert (E : map_get k (qs_rates s') = map_get k (qs_rates s1)) by (rewrite Er; apply set_all_absent; by rewrite Hk).
    split_and!; [split|rewrite Et; apply H1|].
    + rewrite Er. apply set_all_keys, H1.
    + rewrite E, Ec. apply Hs1.
    + intros W HW. rewrite Ec in HW. pose proof (aged_used _ _ W Hs H1 HW) as Hu. unfold used_in in *. rewrite E, Hu. by destruct (_ =? _); lia.
  - destruct (Hp r (due_rates_In _ _ _ Hin) Hrk) as [Hrw Hrl]. destruct (Hent r Hin) as (e & He & Ew & Ex & Eu & El).
    rewrite Hrk, Hrw in *. fold (current s1) in *.
    assert (E : map_get k (qs_rates s') = Some e) by (rewrite Er; apply set_all_present; [by rewrite Hk|done]).
    pose proof (used_bounds s1 (current s1) Hs1) as Hb. assert (Hru : 1 <= rr_units r) by (eapply Forall_forall in Hf'; [apply Hf'|done]).
    split_and!; [split|rewrite Et; apply H1|].
    + rewrite Er. apply set_all_keys, H1.
    + rewrite E, Ec. intros ? [= <-]. split_and!; lia.
    + intros W HW. rewrite Ec in HW |- *. rewrite <- (aged_used _ _ W Hs H1 HW). unfold used_in at 2. rewrite E, Ew.
      destruct (Z.eqb_spec (current s1) W) as [<-|]; [lia|]. rewrite (used_future s1 W Hs1); lia.
Qed.

Lemma aged_effect s s' : rate_inv s -> aged s s' ->
  rate_inv s' /\ qs_lastNow s <= qs_lastNow s' /\ forall W, current s' <= W -> used_in k W s + (if current s' =? W then 0 else 0) <= used_in k W s'.
Proof.
  intros Hs H1. split_and!; [by eapply aged_inv|apply H1|]. intros W HW. rewrite (aged_used _ _ W Hs H1 HW). by destruct (_ =? _); lia.
Qed.

Lemma quota_step_effect op s a s' : rate_inv s -> rate_policy op -> quota_step cfg op s = (a, s') ->
  rate_inv s' /\ qs_lastNow s <= qs_lastNow s' /\
  forall W, current s' <= W -> used_in k W s + (if current s' =? W then admitted_units a else 0) <= used_in k W s'.
Proof.
  intros Hs Hp. destruct op as [clock request|clock i t o|clock t l]; cbn [quota_step].
  - pose proof (wp_reserve cfg clock request s (ri_keys _ Hs)) as H. unfold wp in H. destruct (reserve cfg clock request s) as [[[replayed ? ?|]|] s1].
    + intros [= <- <-]. by apply recorded_effect.
    + intros [= <- <-]. by apply aged_effect.
    + intros [= <- <-]. destruct H as [H|[replayed H]]; [by apply aged_effect|].
      destruct (recorded_effect _ _ _ _ Hs Hp H) as (? & ? & Hu). split_and!; [done|done|]. intros W HW. specialize (Hu W HW).
      destruct (current s1 =? W); [|done]. pose proof (admitted_nonneg _ _ _ _ H). cbn [admitted_units] in *. lia.
  - pose proof (finish_ages cfg clock i t o s (ri_keys _ Hs)) as H. unfold wp in H. destruct (finish cfg clock i t o s) as [[] s1]; intros [= <- <-]; by apply aged_effect.
  - pose proof (release_ages cfg clock t l s (ri_keys _ Hs)) as H. unfold wp in H. destruct (release cfg clock t l s) as [[] s1]; intros [= <- <-]; by apply aged_effect.
Qed.

(** What is still admitted in a window is what its limit leaves, and nothing once it is over. *)
Lemma admitted_bound W ops s : rate_inv s -> Forall rate_policy ops ->
  admitted_in W ops s <= (if W <? current s then 0 else L - used_in k W s).
Proof.
  revert s. induction ops as [|op ops IH]; intros s Hs Hp; cbn [admitted_in].
  - pose proof (used_bounds s W Hs). destruct (W <? current s); lia.
  - apply Forall_cons in Hp as [Hop Hp]. destruct (quota_step cfg op s) as [a s'] eqn:E. destruct (quota_step_effect _ _ _ _ Hs Hop E) as (Hs' & Ht & Hu).
    specialize (IH s' Hs' Hp). fold (current s'). pose proof (current_mono _ _ Ht). pose proof (used_bounds s W Hs).
    destruct (Z.ltb_spec W (current s')) as [Hlt|Hge].
    + destruct (Z.eqb_spec (current s') W); [lia|]. destruct (W <? current s); lia.
    + specialize (Hu W Hge). destruct (Z.ltb_spec W (current s)); [lia|]. destruct (current s' =? W); lia.
Qed.
End rate.

(** However the calls of the store are ordered, whatever the clock reads and whatever faults strike, the
    requests it admits in a window of a rate together take no more than the limit of the rate: starting from an
    empty store, when each reservation of the rate names the same window and a limit of at most [L], the units of
    the reservations admitted while the store's time lies in the window that starts at [W] add up to at most [L].
    A replayed command counts only what it is charged. *)
Theorem rate_budget_respected (cfg : QuotaConfig) (k : string) (w L W : Z) (ops : list QuotaOp) :
  0 < w -> 0 <= L -> Forall (rate_policy k w L) ops -> admitted_in cfg k w W ops empty_quotas <= L.
Proof.
  intros Hw HL Hp. assert (Hs : rate_inv k w L empty_quotas) by (split; [constructor|done]).
  pose proof (admitted_bound cfg k w L Hw HL W ops _ Hs Hp). destruct (_ <? _); [lia|]. pose proof (used_bounds k w L HL _ W Hs). lia.
Qed.
