(* ===== verification/QuotaCapacity.v ===== *)
(** * Request quotas: the capacities

    The units counted at a capacity are those of the requests that are running and
    those that succeeded requests have kept: nothing is lost and nothing is given back
    twice, so cleaning up never fails. *)

From stdpp Require Import base tactics sets relations gmap numbers strings list.
From S2P Require Import Prelude Js Enums EventStore Service Mandate Loan Servicing Trading Quota QuotaProps.
Local Open Scope string_scope.
Local Open Scope Z_scope.

(** ** Counting *)

(** The units counted at a key. *)
Definition capacity_used (k : string) (s : QuotaStore) : Z :=
  match map_get k (qs_capacities s) with Some e => cp_used e | None => 0 end.

Definition reservation_key (t : string) (r : CapacityReservation) : string := capacity_key t (ca_keyHash r) (ca_partition r).
Definition need (k t : string) (l : list CapacityReservation) : Z := sum_at (reservation_key t) ca_units k l.
Definition admission_units (k : string) (a : Admission) : Z := need k (qr_tenantId (am_request a)) (am_appliedCapacities a).

(** The units that running requests hold, and those that were kept. *)
Definition held (k : string) (s : QuotaStore) : Z :=
  sum_by (fun a => if is_pending a then admission_units k a else 0) (map_values (qs_admissions s)).
Definition kept (k : string) (s : QuotaStore) : Z := capacity_used k s - held k s.

(** What finishing an admission keeps of a capacity. *)
Definition keeps (k : string) (a : Admission) (outcome : string) : Z :=
  need k (qr_tenantId (am_request a)) (List.filter (fun r => negb (gives_back (negb (String.eqb outcome "succeeded")) r)) (am_appliedCapacities a)).

(** Every count is positive and within its limit. *)
Definition within_limits (s : QuotaStore) : Prop := forall k e, map_get k (qs_capacities s) = Some e -> 0 < cp_used e <= cp_limit e.

Record capacity_inv (s : QuotaStore) : Prop := {
  ci_keys : NoDup (map_keys (qs_admissions s));
  ci_admission : forall id a, map_get id (qs_admissions s) = Some a -> qr_admissionId (am_request a) = id /\ Forall capacity_ok (am_appliedCapacities a);
  ci_limit : within_limits s;
  ci_kept : forall k, 0 <= kept k s }.

Lemma need_cons k t r l : need k t (r :: l) = (if decide (reservation_key t r = k) then ca_units r else 0) + need k t l.
Proof. apply sum_at_cons. Qed.
Lemma need_nonneg k t l : Forall capacity_ok l -> 0 <= need k t l.
Proof. rewrite Forall_forall. intros Hl. apply sum_at_nonneg. intros r Hr. pose proof (ck_units _ (Hl r Hr)). lia. Qed.

(** What is given back and what is kept make up the whole. *)
Lemma need_split k t (p : CapacityReservation -> bool) l :
  need k t l = need k t (List.filter p l) + need k t (List.filter (fun r => negb (p r)) l).
Proof. induction l as [|r l IH]; [done|]. cbn [List.filter]. rewrite need_cons, IH. destruct (p r); cbn [negb]; rewrite need_cons; lia. Qed.

Lemma filter_Forall {A} (P : A -> Prop) (p : A -> bool) l : Forall P l -> Forall P (List.filter p l).
Proof. induction 1 as [|x l Hx Hl IH]; [constructor|]. cbn [List.filter]. destruct (p x); [by constructor|done]. Qed.

Lemma pending_units_le k (m : jsmap Admission) id a : (forall i b, map_get i m = Some b -> Forall capacity_ok (am_appliedCapacities b)) ->
  NoDup (map_keys m) -> map_get id m = Some a -> is_pending a = true ->
  admission_units k a <= sum_by (fun a => if is_pending a then admission_units k a else 0) (map_values m).
Proof.
  intros Hm Hn E Hp. transitivity (if is_pending a then admission_units k a else 0); [by rewrite Hp|].
  apply (sum_by_elem (fun a => if is_pending a then admission_units k a else 0)).
  - intros b ([i c] & -> & Hb)%list_elem_of_fmap. pose proof (Hm i c (elem_map_get _ _ _ Hn Hb)) as Hc. cbn [snd].
    pose proof (need_nonneg k (qr_tenantId (am_request c)) _ Hc). unfold admission_units. destruct (is_pending c); lia.
  - by eapply map_get_value.
Qed.

Lemma held_units k s id a : capacity_inv s -> map_get id (qs_admissions s) = Some a -> is_pending a = true ->
  admission_units k a <= held k s <= capacity_used k s.
Proof.
  intros Hs E Hp. pose proof (ci_kept _ Hs k). unfold kept in *. split; [|lia]. eapply pending_units_le; [|apply Hs|done|done].
  intros i b Hb. by apply (ci_admission _ Hs i b).
Qed.

(** ** Giving back *)

(** What leaves everything but the capacities and the charges. *)
Definition same_admissions (s s' : QuotaStore) : Prop := qs_admissions s' = qs_admissions s.

(** Giving back units that are counted. *)
Lemma wp_decrement t h p u s : HASH_PATTERN h = true -> within_limits s -> 1 <= u <= capacity_used (capacity_key t h p) s ->
  wp (decrementCapacity t h p u) (fun _ s' => within_limits s' /\ same_admissions s s' /\
    forall k, capacity_used k s' = capacity_used k s - if decide (capacity_key t h p = k) then u else 0) (fun _ _ => False) s.
Proof.
  intros Hh Hl Hu. unfold decrementCapacity. rewrite (capacityKey_Ok _ _ _ Hh). apply wp_passes with (1 := eq_refl). apply wp_bind, wp_gets.
  unfold capacity_used in Hu. destruct (map_get (capacity_key t h p) (qs_capacities s)) as [e|] eqn:E; [|lia]. cbv zeta.
  pose proof (Hl _ _ E) as Hle. apply wp_modify. unfold capacity_used, within_limits. cbn [qs_capacities set_capacities]. split_and!; [|done|].
  - intros k e'. destruct (Z.eqb_spec (cp_used e - u) 0).
    + rewrite map_get_delete. case_decide; [done|apply Hl].
    + rewrite map_get_set. case_decide; [|apply Hl]. intros [= <-]. cbn. lia.
  - intros k. destruct (Z.eqb_spec (cp_used e - u) 0).
    + rewrite map_get_delete. case_decide; subst; [rewrite E; lia|lia].
    + rewrite map_get_set. case_decide; subst; [rewrite E; cbn; lia|lia].
Qed.

Lemma wp_decrement_all t l s : Forall capacity_ok l -> within_limits s -> (forall k, need k t l <= capacity_used k s) ->
  wp (decrement_all t l) (fun _ s' => within_limits s' /\ same_admissions s s' /\
    forall k, capacity_used k s' = capacity_used k s - need k t l) (fun _ _ => False) s.
Proof.
  revert s. induction l as [|r l IH]; intros s Hok Hl Hn; cbn [decrement_all].
  - apply wp_ret. split_and!; [done|done|]. intros k. unfold need, sum_at. rewrite sum_by_nil. lia.
  - apply Forall_cons in Hok as [Hr Hok]. pose proof (ck_units _ Hr) as Hu. apply wp_bind. eapply wp_mono; [apply wp_decrement; [apply Hr|done|]| |done].
    + specialize (Hn (reservation_key t r)). rewrite need_cons, decide_True in Hn by done. pose proof (need_nonneg (reservation_key t r) t l Hok). unfold reservation_key in *. lia.
    + intros _ s1 (Hl1 & Ha1 & Hu1). cbv beta. eapply wp_mono; [apply IH; [done|done|]| |done].
      * intros k. specialize (Hn k). rewrite need_cons in Hn. rewrite Hu1. unfold reservation_key in Hn. lia.
      * intros _ s2 (Hl2 & Ha2 & Hu2). split_and!; [done|congruence|]. intros k. rewrite Hu2, Hu1, need_cons. unfold reservation_key. lia.
Qed.

(** ** Finishing *)

(** What the capacities and the admissions say is all that counts. *)
Lemma capacity_inv_ext s s' : capacity_inv s -> qs_capacities s' = qs_capacities s -> qs_admissions s' = qs_admissions s ->
  capacity_inv s' /\ forall k, kept k s' = kept k s.
Proof.
  intros [H1 H2 H3 H4] Ec Ea. assert (Hk : forall k, kept k s' = kept k s) by (intros k; unfold kept, capacity_used, held; by rewrite Ec, Ea).
  split; [|done]. split; [by rewrite Ea|by rewrite Ea|unfold within_limits; by rewrite Ec|intros k; by rewrite Hk].
Qed.

Lemma finished_not_pending a o now : is_pending (finished_admission a o now) = false.
Proof. unfold is_pending, finished_admission. cbn. by destruct (String.eqb o "expired"). Qed.

(** An admission's units leave the held ones; what is not given back is kept. *)
Lemma finished_inv a o now s s' : capacity_inv s -> map_get (qr_admissionId (am_request a)) (qs_admissions s) = Some a -> is_pending a = true ->
  within_limits s' ->
  (forall k, capacity_used k s' = capacity_used k s -
    need k (qr_tenantId (am_request a)) (List.filter (gives_back (negb (String.eqb o "succeeded"))) (am_appliedCapacities a))) ->
  qs_admissions s' = map_set (qr_admissionId (am_request a)) (finished_admission a o now) (qs_admissions s) ->
  capacity_inv s' /\ forall k, kept k s' = kept k s + keeps k a o.
Proof.
  intros Hs E Hp Hl Hu Ea. destruct (ci_admission _ Hs _ _ E) as [_ Hok].
  assert (Hk : forall k, kept k s' = kept k s + keeps k a o).
  { intros k. unfold kept, held. rewrite Hu, Ea, sum_values_set, E, Hp, finished_not_pending. fold (held k s). unfold admission_units, keeps.
    rewrite (need_split k _ (gives_back (negb (String.eqb o "succeeded"))) (am_appliedCapacities a)). lia. }
  split; [|done]. split.
  - rewrite Ea. apply map_set_NoDup, Hs.
  - intros id b. rewrite Ea, map_get_set. case_decide; [|apply Hs]. intros [= <-]. done.
  - done.
  - intros k. rewrite Hk. pose proof (ci_kept _ Hs k). assert (0 <= keeps k a o) by (by apply need_nonneg, filter_Forall). lia.
Qed.

Lemma wp_finishAdmission a o now s : capacity_inv s -> map_get (qr_admissionId (am_request a)) (qs_admissions s) = Some a -> is_pending a = true ->
  wp (finishAdmission a o now) (fun _ s' => capacity_inv s' /\ (forall k, kept k s' = kept k s + keeps k a o) /\
    qs_admissions s' = map_set (qr_admissionId (am_request a)) (finished_admission a o now) (qs_admissions s)) (fun _ _ => False) s.
Proof.
  intros Hs E Hp. destruct (ci_admission _ Hs _ _ E) as [_ Hok]. unfold finishAdmission. cbv zeta. apply wp_bind.
  eapply wp_mono; [apply wp_decrement_all; [by apply filter_Forall|apply Hs|]| |done].
  { intros k. pose proof (held_units k s _ a Hs E Hp) as Hh. unfold admission_units in Hh.
    rewrite (need_split k _ (gives_back (negb (String.eqb o "succeeded"))) (am_appliedCapacities a)) in Hh.
    pose proof (need_nonneg k (qr_tenantId (am_request a)) _ (filter_Forall _ (fun r => negb (gives_back (negb (String.eqb o "succeeded")) r)) _ Hok)). lia. }
  intros _ s1 (Hl & Ha & Hu). cbv beta. apply wp_bind, wp_modify. set (s2 := set_admissions _ s1).
  assert (H2 : capacity_inv s2 /\ forall k, kept k s2 = kept k s + keeps k a o) by (eapply finished_inv; [done|done|done|exact Hl|exact Hu|cbn; by rewrite Ha]).
  assert (H : forall s', qs_capacities s' = qs_capacities s2 -> qs_admissions s' = qs_admissions s2 -> capacity_inv s' /\ (forall k, kept k s' = kept k s + keeps k a o) /\
    qs_admissions s' = map_set (qr_admissionId (am_request a)) (finished_admission a o now) (qs_admissions s)).
  { intros s' Ec Ea. destruct (capacity_inv_ext _ s' (proj1 H2) Ec Ea) as [? Hk]. split_and!; [done|intros k; rewrite Hk; apply H2|rewrite Ea; cbn; by rewrite Ha]. }
  destruct (qr_commandRefHash (am_request a)) as [ref|]; [|apply wp_ret; by apply H]. apply wp_if; intros _; [apply wp_ret; by apply H|]. cbv zeta.
  apply wp_bind, wp_gets. destruct (map_get _ (qs_charges s2)) as [c|]; [|apply wp_ret; by apply H]. apply wp_when; intros _; [apply wp_modify; by apply H|by apply H].
Qed.

(** A request that fails or expires keeps nothing. *)
Lemma failure_keeps_nothing k a o : Forall capacity_ok (am_appliedCapacities a) -> o <> "succeeded" -> keeps k a o = 0.
Proof.
  intros Hok Ho. unfold keeps. rewrite (proj2 (String.eqb_neq o "succeeded") Ho). cbn [negb].
  assert (E : List.filter (fun r => negb (gives_back true r)) (am_appliedCapacities a) = []); [|by rewrite E].
  induction Hok as [|r l Hr Hl IH]; [done|]. cbn [List.filter]. unfold gives_back at 1. destruct (ck_release _ Hr) as [-> | ->]; exact IH.
Qed.

(** ** Cleaning up *)

(** What leaves the kept units, and the admission that is excluded; nothing is admitted. *)
Record settles (excluded : option string) (s s' : QuotaStore) : Prop := {
  se_inv : capacity_inv s';
  se_kept : forall k, kept k s' = kept k s;
  se_excluded : forall id, excluded = Some id -> map_get id (qs_admissions s') = map_get id (qs_admissions s);
  se_absent : forall id, map_get id (qs_admissions s) = None -> map_get id (qs_admissions s') = None }.

Lemma settles_refl ex s : capacity_inv s -> settles ex s s.
Proof. by split. Qed.
Lemma settles_trans ex s1 s2 s3 : settles ex s1 s2 -> settles ex s2 s3 -> settles ex s1 s3.
Proof.
  intros [I1 K1 E1 A1] [I2 K2 E2 A2]. split; [done|intros k; by rewrite K2|intros id H; by rewrite E2, E1|intros id H; by apply A2, A1].
Qed.
Lemma settles_ext ex s s1 s2 : settles ex s s1 -> qs_capacities s2 = qs_capacities s1 -> qs_admissions s2 = qs_admissions s1 -> settles ex s s2.
Proof.
  intros [I1 K1 E1 A1] Ec Ea. destruct (capacity_inv_ext _ s2 I1 Ec Ea) as [I2 K2]. split; [done|intros k; by rewrite K2|intros id H; rewrite Ea; by apply E1|intros id H; rewrite Ea; by apply A1].
Qed.

Lemma wp_expire now ex l s : capacity_inv s -> NoDup (map (fun a => qr_admissionId (am_request a)) l) ->
  (forall a, a ∈ l -> map_get (qr_admissionId (am_request a)) (qs_admissions s) = Some a) ->
  wp (expire_admissions now ex l) (fun _ s' => settles ex s s') (fun _ _ => False) s.
Proof.
  revert s. induction l as [|a l IH]; intros s Hs; cbn [expire_admissions map]; [intros _ _; by apply wp_ret, settles_refl|].
  intros [Ha Hn]%NoDup_cons Hl. apply wp_bind, wp_when; [|intros _; apply IH; [done|done|intros b Hb; apply Hl; by right]].
  unfold overdue. intros [[Hex Hp]%andb_true_iff _]%andb_true_iff. apply negb_true_iff, bool_decide_eq_false in Hex.
  pose proof (Hl a (list_elem_of_here _ _)) as E. eapply wp_mono; [by apply wp_finishAdmission| |done]. intros _ s1 (H1 & K1 & E1). cbv beta.
  assert (H : settles ex s s1).
  { split; [done|..].
    - intros k. rewrite K1, failure_keeps_nothing; [lia|apply (ci_admission _ Hs _ _ E)|done].
    - intros id ->. rewrite E1. apply map_get_set_ne. congruence.
    - intros id Hid. rewrite E1, map_get_set_ne; [done|congruence]. }
  eapply wp_mono; [apply IH; [done|done|]| |done].
  - intros b Hb. rewrite E1, map_get_set_ne; [apply Hl; by right|]. intros Eab. apply Ha. rewrite Eab. apply list_elem_of_fmap. by exists b.
  - intros ? s2 H2. by eapply settles_trans.
Qed.

Lemma admission_ids s : capacity_inv s -> map (fun a => qr_admissionId (am_request a)) (map_values (qs_admissions s)) = map_keys (qs_admissions s).
Proof.
  intros Hs. unfold map_values, map_keys. etrans; [exact (List.map_map _ _ _)|]. apply map_ext_in. intros [id a] Hin%list_elem_of_In.
  cbn [fst snd]. eapply (ci_admission _ Hs), elem_map_get; [apply Hs|done].
Qed.

(** Cleaning up never fails, and keeps what is kept. *)
Lemma cleanup_settles now ex s : capacity_inv s -> wp (cleanup now ex) (fun _ s' => settles ex s s') (fun _ _ => False) s.
Proof.
  intros Hs. unfold cleanup. apply wp_bind, wp_gets. apply wp_bind. eapply wp_mono; [apply wp_expire; [done|rewrite admission_ids by done; apply Hs|]| |done].
  - intros a ([id b] & -> & Hin)%list_elem_of_fmap. cbn [snd]. pose proof (elem_map_get _ _ _ (ci_keys _ Hs) Hin) as E. by rewrite (proj1 (ci_admission _ Hs _ _ E)).
  - intros ? s1 H1. cbv beta. apply wp_bind, wp_modify, wp_modify. eapply settles_ext; [exact H1|reflexivity|reflexivity].
Qed.

(** The beginning of a method. *)
Lemma wp_cap_begin {A} cfg stage clock ex (f : Z -> M QuotaStore A) Q E s : capacity_inv s ->
  (forall e s', settles ex s s' -> E e s') -> (forall now s1, settles ex s s1 -> wp (f now) Q E s1) ->
  wp (fault cfg stage ;; now ← quota_now clock; cleanup now ex ;; f now) Q E s.
Proof.
  intros Hs HE HQ. unfold fault. apply wp_bind, wp_lift; [intros e _; by apply HE, settles_refl|]. intros _ _.
  apply wp_bind, wp_quota_now; [intros e; by apply HE, settles_refl|]. intros t _. set (s1 := set_lastNow _ s).
  assert (H1 : settles ex s s1) by (eapply settles_ext; [by apply settles_refl|done|done]).
  apply wp_bind. eapply wp_mono; [apply cleanup_settles, H1| |done]. intros ? s2 H2. apply HQ. exact (settles_trans _ _ _ _ H1 H2).
Qed.

(** ** Making room *)

Lemma sum_values_delete {V} (f : V -> Z) k (m : jsmap V) : NoDup (map_keys m) ->
  sum_by f (map_values (map_delete k m)) = sum_by f (map_values m) - match map_get k m with Some v => f v | None => 0 end.
Proof.
  unfold map_values, map_keys, map_delete. induction m as [|[j v] m IH]; [done|]. rewrite fmap_cons. intros [Hj Hm]%NoDup_cons. cbn [List.filter map_get fst] in *.
  specialize (IH Hm). destruct (String.eqb_spec k j) as [->|Hne]; cbn [negb]; rewrite !fmap_cons, !sum_by_cons; cbn [snd]; [|lia].
  rewrite IH. assert (map_get j m = None) as -> by (by apply map_get_None). lia.
Qed.

Lemma delete_settles id s : capacity_inv s -> (forall a, map_get id (qs_admissions s) = Some a -> is_pending a = false) ->
  settles None s (set_admissions (map_delete id (qs_admissions s)) s).
Proof.
  intros Hs Hp. assert (Hk : forall k, kept k (set_admissions (map_delete id (qs_admissions s)) s) = kept k s).
  { intros k. unfold kept, capacity_used, held. cbn [qs_admissions qs_capacities set_admissions]. rewrite sum_values_delete by apply Hs.
    destruct (map_get id (qs_admissions s)) as [a|]; [rewrite (Hp a eq_refl)|]; lia. }
  split; [split|done|done|].
  - cbn. apply keys_filter, Hs.
  - intros i a. cbn [qs_admissions set_admissions]. rewrite map_get_delete. case_decide; [done|apply Hs].
  - apply Hs.
  - intros k. rewrite Hk. apply Hs.
  - intros i E. cbn [qs_admissions set_admissions]. rewrite map_get_delete. by case_decide.
Qed.

Definition makes_room (s s' : QuotaStore) : Prop := settles None s s' /\ qs_capacities s' = qs_capacities s.

Lemma evict_room cfg n l s : capacity_inv s -> (forall id x a, (id, x) ∈ l -> map_get id (qs_admissions s) = Some a -> is_pending a = false) ->
  wp (evict cfg n l) (fun _ s' => makes_room s s') (fun _ s' => makes_room s s') s.
Proof.
  revert s. induction l as [|[id x] l IH]; intros s Hs Hl; cbn [evict]; [apply wp_throw; split; [by apply settles_refl|done]|].
  apply wp_bind, wp_modify. set (s1 := set_admissions _ s).
  assert (H1 : settles None s s1) by (apply delete_settles; [done|intros a; apply (Hl id x); left]).
  apply wp_bind, wp_gets. apply wp_if; intros _; [apply wp_ret; by split|]. eapply wp_mono; [apply IH; [apply H1|]|..].
  - intros i y a Hin. cbn [s1 qs_admissions set_admissions]. rewrite map_get_delete. case_decide; [done|]. apply (Hl i y). by right.
  - intros ? s2 [H2 E2]. split; [exact (settles_trans _ _ _ _ H1 H2)|exact E2].
  - intros ? s2 [H2 E2]. split; [exact (settles_trans _ _ _ _ H1 H2)|exact E2].
Qed.

Lemma ensureCapacity_room cfg n s : capacity_inv s ->
  wp (ensureCapacity cfg n) (fun _ s' => makes_room s s') (fun _ s' => makes_room s s') s.
Proof.
  intros Hs. unfold ensureCapacity. apply wp_bind, wp_gets. apply wp_if; intros _; [apply wp_ret; split; [by apply settles_refl|done]|].
  apply wp_bind, wp_gets. apply evict_room; [done|]. intros id x a Hin E. unfold evictable in Hin. rewrite stable_sort_perm in Hin.
  apply list_elem_of_In, filter_In in Hin as [Hin Hp]. apply list_elem_of_In, (elem_map_get _ _ _ (ci_keys _ Hs)) in Hin.
  apply negb_true_iff in Hp. cbn [snd] in Hp. congruence.
Qed.

(** ** Reserving *)

Lemma next_capacities_Some t s l es : Forall capacity_ok l -> next_capacities t (qs_capacities s) l = Ok (Some es) ->
  map fst es = map (reservation_key t) l /\
  forall r, r ∈ l -> exists e, (reservation_key t r, e) ∈ es /\ cp_used e = capacity_used (reservation_key t r) s + ca_units r /\ cp_used e <= cp_limit e.
Proof.
  revert es. induction l as [|r l IH]; intros es Hl; cbn [next_capacities map]; [intros [= <-]; split; [done|by intros r ?%not_elem_of_nil]|].
  apply Forall_cons in Hl as [Hr Hl]. rewrite capacityKey_Ok by apply Hr. cbn [mbind result_bind]. fold (reservation_key t r). cbv zeta.
  fold (capacity_used (reservation_key t r) s). set (limit := match map_get _ _ with Some e => Z.min _ _ | None => _ end).
  destruct (Z.ltb_spec limit (capacity_used (reservation_key t r) s + ca_units r)) as [|Hle]; [done|].
  destruct (next_capacities t (qs_capacities s) l) as [[es'|]|err] eqn:E; cbn [mbind result_bind]; [|done|done]. intros [= <-].
  destruct (IH es' Hl eq_refl) as [Hk Hes]. split; [cbn [map fst]; by rewrite Hk|]. intros r' [->|Hin]%elem_of_cons.
  - eexists. split; [left|]. done.
  - destruct (Hes r' Hin) as (e & He & ?). exists e. split; [by right|done].
Qed.

(** The counts after the entries of a request are set. *)
Lemma set_capacities_used t s l es s' : Forall capacity_ok l -> NoDup (map ca_keyHash l) -> within_limits s ->
  next_capacities t (qs_capacities s) l = Ok (Some es) -> qs_capacities s' = set_all es (qs_capacities s) ->
  within_limits s' /\ forall k, capacity_used k s' = capacity_used k s + need k t l.
Proof.
  intros Hok Hn Hl Hes Ec. destruct (next_capacities_Some _ _ _ _ Hok Hes) as [Hk Hent].
  assert (Hnk : NoDup (map (reservation_key t) l)).
  { apply (keys_NoDup ca_keyHash (fun r => partition_of t (ca_partition r))); [|done]. eapply Forall_impl; [exact Hok|]. intros r Hr. apply Hr. }
  assert (H : forall k, (map_get k (qs_capacities s') = map_get k (qs_capacities s) /\ need k t l = 0) \/
    exists e, map_get k (qs_capacities s') = Some e /\ cp_used e = capacity_used k s + need k t l /\ 1 <= need k t l /\ cp_used e <= cp_limit e).
  { intros k. unfold need. destruct (sum_at_cases (reservation_key t) ca_units k l Hnk) as [[Habs ->]|(r & Hin & <- & ->)].
    - left. split; [|done]. rewrite Ec. apply set_all_absent. by rewrite Hk.
    - right. destruct (Hent r Hin) as (e & He & Eu & El). exists e. split_and!; [|done| |done].
      + rewrite Ec. apply set_all_present; [by rewrite Hk|done].
      + rewrite Forall_forall in Hok. pose proof (ck_units _ (Hok r Hin)). lia. }
  assert (Hpos : forall k, 0 <= capacity_used k s).
  { intros k. unfold capacity_used. destruct (map_get k _) as [e|] eqn:E; [pose proof (Hl k e E)|]; lia. }
  split.
  - intros k e E. destruct (H k) as [[E' _]|(e' & E' & Eu & ? & ?)]; [rewrite E' in E; by apply (Hl k)|]. rewrite E' in E. injection E as <-. pose proof (Hpos k). lia.
  - intros k. unfold capacity_used at 1. destruct (H k) as [[-> ->]|(e & -> & -> & _)]; [|done]. unfold capacity_used. lia.
Qed.

Definition conserves (s s' : QuotaStore) : Prop := capacity_inv s' /\ forall k, kept k s' = kept k s.

Lemma settles_conserves ex s s' : settles ex s s' -> conserves s s'.
Proof. intros []. by split. Qed.

(** A new admission holds what it was given. *)
Lemma admitted_conserves s s' es request replayed now l : capacity_inv s -> map_get (qr_admissionId request) (qs_admissions s) = None ->
  Forall capacity_ok l -> NoDup (map ca_keyHash l) ->
  next_capacities (qr_tenantId request) (qs_capacities s) l = Ok (Some es) -> qs_capacities s' = set_all es (qs_capacities s) ->
  qs_admissions s' = map_set (qr_admissionId request) (MkAdmission request Admission_PENDING now (now + qr_leaseMs request) replayed l None None) (qs_admissions s) ->
  conserves s s'.
Proof.
  intros Hs Hf Hok Hn Hes Ec Ea. destruct (set_capacities_used _ _ _ _ s' Hok Hn (ci_limit _ Hs) Hes Ec) as [Hl Hu].
  assert (Hk : forall k, kept k s' = kept k s).
  { intros k. unfold kept, held. rewrite Hu, Ea, sum_values_set, Hf. change (is_pending (MkAdmission request Admission_PENDING now (now + qr_leaseMs request) replayed l None None)) with true.
    unfold admission_units. cbn [am_request am_appliedCapacities]. lia. }
  split; [|done]. split.
  - rewrite Ea. apply map_set_NoDup, Hs.
  - intros id a. rewrite Ea, map_get_set. case_decide; [|apply Hs]. by intros [= <-].
  - done.
  - intros k. rewrite Hk. apply Hs.
Qed.

Lemma reserve_conserves cfg clock request s : capacity_inv s -> map_get (qr_admissionId request) (qs_admissions s) = None ->
  wp (reserve cfg clock request) (fun _ s' => conserves s s') (fun _ s' => conserves s s') s.
Proof.
  intros Hs Hf. unfold reserve. apply wp_cap_begin; [done|intros e s'; apply settles_conserves|]. intros now s1 H1. pose proof (settles_conserves _ _ _ H1) as C1.
  apply wp_bind, wp_lift; [done|]. intros [] Ha. destruct (request_Ok _ _ _ _ Ha) as (_ & Hok & Hn). cbv zeta. apply wp_bind, wp_gets.
  set (charge := match option_map _ _ with Some k => _ | None => None end). apply wp_if; intros _; [by apply wp_ret|].
  set (replayed := match charge with Some c => _ | None => false end). apply wp_bind, wp_gets. apply wp_bind, wp_lift; [done|].
  intros [es|] _; [|by apply wp_ret]. apply wp_bind, wp_lift; [done|]. intros [cs|] Ec; [|by apply wp_ret].
  apply wp_bind. eapply wp_mono; [apply ensureCapacity_room, H1| |].
  2:{ intros e s2 [H2 _]. eapply settles_conserves, settles_trans; [|exact H2]. split; [apply H1|apply H1|done|apply H1]. }
  intros _ s2 [H2 E2]. cbv beta. apply wp_bind, wp_modify. apply wp_bind, wp_modify. apply wp_bind, wp_modify. set (s3 := set_admissions _ _).
  assert (H3 : forall s', qs_capacities s' = qs_capacities s3 -> qs_admissions s' = qs_admissions s3 -> conserves s s').
  { intros s' F1 F2. destruct (admitted_conserves s2 s' cs request replayed now (List.filter (fun r => negb (ca_commandScoped r) || negb replayed) (qr_capacityReservations request))) as [I3 K3].
    - apply H2.
    - apply H2, H1, Hf.
    - by apply filter_Forall.
    - by apply filter_NoDup_map.
    - rewrite E2. exact Ec.
    - rewrite F1. reflexivity.
    - rewrite F2. reflexivity.
    - split; [done|]. intros k. rewrite K3, (se_kept _ _ _ H2). apply H1. }
  apply wp_bind. apply (wp_mono _ (fun _ s' => conserves s s') _ (fun _ s' => conserves s s')); [| |done].
  - destruct (option_map _ _) as [k|]; [|apply wp_ret; by apply H3]. apply wp_when; intros _; [apply wp_modify; by apply H3|by apply H3].
  - intros _ s4 H4. apply wp_bind, wp_lift; [done|]. intros i _. apply wp_bind, wp_lift; [done|]. intros x _. by apply wp_ret.
Qed.

(** ** Finishing and releasing *)

(** What a finished admission keeps: nothing unless it was still running. *)
Definition finish_keeps (k id outcome : string) (s : QuotaStore) : Z :=
  match map_get id (qs_admissions s) with Some a => if is_pending a then keeps k a outcome else 0 | None => 0 end.

Lemma finish_conserves cfg clock id t o s : capacity_inv s ->
  wp (finish cfg clock id t o) (fun _ s' => capacity_inv s' /\ forall k, kept k s' = kept k s + finish_keeps k id o s)
    (fun _ s' => conserves s s') s.
Proof.
  intros Hs. unfold finish. apply wp_cap_begin; [done|intros e s'; apply settles_conserves|]. intros now s1 H1. pose proof (settles_conserves _ _ _ H1) as C1.
  apply wp_bind, wp_lift; [done|]. intros _ _. apply wp_bind, wp_gets. pose proof (se_excluded _ _ _ H1 id eq_refl) as E. unfold finish_keeps. rewrite <- E.
  destruct (map_get id (qs_admissions s1)) as [a|] eqn:Ea; [|by apply wp_throw]. apply wp_bind, wp_throw_if; [done|]. intros _.
  apply wp_if; intros Hp; [apply negb_true_iff in Hp; rewrite Hp; apply wp_ret; split; [apply H1|intros k; rewrite (se_kept _ _ _ H1); lia]|].
  apply negb_false_iff in Hp. rewrite Hp. destruct (ci_admission _ (se_inv _ _ _ H1) _ _ Ea) as [Hid _]. subst id.
  apply wp_bind. eapply wp_mono; [by apply wp_finishAdmission; [apply H1|..]| |done]. intros _ s2 (I2 & K2 & _). cbv beta. apply wp_ret. split; [done|].
  intros k. rewrite K2, (se_kept _ _ _ H1). done.
Qed.

Definition released (k t : string) (l : list ReleaseReservation) : Z := sum_at (fun r => capacity_key t (rl_keyHash r) "tenant") rl_units k l.
Definition release_ok (r : ReleaseReservation) : Prop := HASH_PATTERN (rl_keyHash r) = true /\ 1 <= rl_units r.

Lemma assert_releases_Ok seen l u : assert_releases seen l = Ok u ->
  Forall release_ok l /\ NoDup (map rl_keyHash l) /\ forall h, h ∈ map rl_keyHash l -> h ∉ seen.
Proof.
  revert seen. induction l as [|r l IH]; intros seen; cbn [assert_releases map]; [intros _; split_and!; [constructor|constructor|set_solver]|].
  unfold assertReleaseReservation. intros E. result_inv. match goal with K : invalid_abuse_if _ _ = Ok _ |- _ => apply guard_Ok, bool_decide_eq_false in K; rename K into Hr end.
  destruct (IH _ E) as (Hf & Hn & Hs). split_and!.
  - constructor; [|done]. split; [by eapply assert_hash_Ok|].
    match goal with K : assertPositiveInteger _ _ _ = _ |- _ => apply assert_positive_Ok in K; lia end.
  - apply NoDup_cons. split; [|done]. intros Hin. apply (Hs _ Hin). left.
  - intros h [->|Hin]%elem_of_cons; [done|]. specialize (Hs _ Hin). set_solver.
Qed.

Lemma release_Ok t l o u : assertQuotaStoreRelease t l o = Ok u -> Forall release_ok l /\ NoDup (map rl_keyHash l).
Proof. unfold assertQuotaStoreRelease. intros E. result_inv. by apply assert_releases_Ok in E as (? & ? & _). Qed.

Lemma wp_release_all t l s : Forall release_ok l -> within_limits s -> (forall k, released k t l <= capacity_used k s) ->
  wp (release_all t l) (fun _ s' => within_limits s' /\ same_admissions s s' /\
    forall k, capacity_used k s' = capacity_used k s - released k t l) (fun _ _ => False) s.
Proof.
  unfold released. revert s. induction l as [|r l IH]; intros s Hok Hl Hn; cbn [release_all].
  - apply wp_ret. split_and!; [done|done|]. intros k. unfold sum_at. rewrite sum_by_nil. lia.
  - apply Forall_cons in Hok as [[Hh Hu] Hok]. apply wp_bind. eapply wp_mono; [apply wp_decrement; [done|done|]| |done].
    + specialize (Hn (capacity_key t (rl_keyHash r) "tenant")). rewrite sum_at_cons, decide_True in Hn by done.
      pose proof (sum_at_nonneg (fun r => capacity_key t (rl_keyHash r) "tenant") rl_units (capacity_key t (rl_keyHash r) "tenant") l) as H0.
      rewrite Forall_forall in Hok. assert (forall x, x ∈ l -> 0 <= rl_units x) as H1 by (intros x Hx; destruct (Hok x Hx); lia). specialize (H0 H1). lia.
    + intros _ s1 (Hl1 & Ha1 & Hu1). cbv beta. eapply wp_mono; [apply IH; [done|done|]| |done].
      * intros k. specialize (Hn k). rewrite sum_at_cons in Hn. rewrite Hu1. lia.
      * intros _ s2 (Hl2 & Ha2 & Hu2). split_and!; [done|congruence|]. intros k. rewrite Hu2, Hu1, sum_at_cons. lia.
Qed.

Lemma wp_check_releases t l s : wp (check_releases t l) (fun _ s' => s' = s) (fun _ s' => s' = s) s.
Proof.
  induction l as [|r l IH]; cbn [check_releases]; [done|]. apply wp_bind, wp_lift; [done|]. intros key _. apply wp_bind, wp_gets.
  apply wp_bind, wp_throw_if; [done|]. intros _. exact IH.
Qed.

Lemma held_nonneg k s : capacity_inv s -> 0 <= held k s.
Proof.
  intros Hs. apply sum_by_nonneg. intros b ([i c] & -> & Hb)%list_elem_of_fmap. cbn [snd].
  pose proof (need_nonneg k (qr_tenantId (am_request c)) _ (proj2 (ci_admission _ Hs i c (elem_map_get _ _ _ (ci_keys _ Hs) Hb)))). unfold admission_units. destruct (is_pending c); lia.
Qed.

Lemma release_conserves cfg clock t l s : capacity_inv s -> (forall r, r ∈ l -> rl_units r <= kept (capacity_key t (rl_keyHash r) "tenant") s) ->
  wp (release cfg clock t l) (fun _ s' => capacity_inv s' /\ forall k, kept k s' = kept k s - released k t l) (fun _ s' => conserves s s') s.
Proof.
  intros Hs Hkept. unfold release, fault. assert (C0 : conserves s s) by done. apply wp_bind, wp_lift; [done|]. intros _ _.
  apply wp_bind, wp_quota_now; [done|]. intros now _. set (s1 := set_lastNow _ s). assert (C1 : conserves s s1) by (by apply capacity_inv_ext).
  apply wp_bind, wp_lift; [done|]. intros u Ha. destruct (release_Ok _ _ _ _ Ha) as [Hok Hn].
  apply wp_bind. eapply wp_mono; [apply wp_check_releases|cbv beta|intros e s2 ->; exact C1]. intros _ s2 ->.
  assert (Hnk : NoDup (map (fun r => capacity_key t (rl_keyHash r) "tenant") l)).
  { apply (keys_NoDup rl_keyHash (fun _ => partition_of t "tenant")); [|done]. eapply Forall_impl; [exact Hok|]. by intros r []. }
  assert (Hr : forall k, released k t l <= kept k s).
  { intros k. unfold released. destruct (sum_at_cases _ rl_units k l Hnk) as [[_ ->]|(r & Hin & <- & ->)]; [apply Hs|by apply Hkept]. }
  eapply wp_mono; [apply wp_release_all; [done|apply C1|]| |done].
  - intros k. pose proof (Hr k) as H. pose proof (held_nonneg k s Hs). unfold kept in H. change (capacity_used k s1) with (capacity_used k s). lia.
  - intros _ s3 (Hl & Ea & Hu). assert (K3 : forall k, kept k s3 = kept k s - released k t l).
    { intros k. unfold kept, held. rewrite Hu, Ea. change (capacity_used k s1) with (capacity_used k s). change (qs_admissions s1) with (qs_admissions s). lia. }
    split; [|done]. split; [rewrite Ea; apply Hs|rewrite Ea; apply Hs|done|]. intros k. rewrite K3. pose proof (Hr k). lia.
Qed.

(** ** Sequences of calls *)

Section calls.
Context (cfg : QuotaConfig).

(** How a call changes what is kept of a capacity. *)
Definition kept_by (k : string) (op : QuotaOp) (s : QuotaStore) : Z :=
  match op with
  | OpReserve _ _ => 0
  | OpFinish clock id t o => match (finish cfg clock id t o s).1 with Ok _ => finish_keeps k id o s | Err _ => 0 end
  | OpRelease clock t l => match (release cfg clock t l s).1 with Ok _ => - released k t l | Err _ => 0 end
  end.

Fixpoint run_quota (ops : list QuotaOp) (s : QuotaStore) : QuotaStore :=
  match ops with [] => s | op :: ops => run_quota ops (quota_step cfg op s).2 end.
Fixpoint kept_over (k : string) (ops : list QuotaOp) (s : QuotaStore) : Z :=
  match ops with [] => 0 | op :: ops => kept_by k op s + kept_over k ops (quota_step cfg op s).2 end.

(** Admission ids are not used twice, and only what is kept is released. *)
Definition proper_call (op : QuotaOp) (s : QuotaStore) : Prop :=
  match op with
  | OpReserve _ request => map_get (qr_admissionId request) (qs_admissions s) = None
  | OpFinish _ _ _ _ => True
  | OpRelease _ t l => forall r, r ∈ l -> rl_units r <= kept (capacity_key t (rl_keyHash r) "tenant") s
  end.
Fixpoint proper_calls (ops : list QuotaOp) (s : QuotaStore) : Prop :=
  match ops with [] => True | op :: ops => proper_call op s /\ proper_calls ops (quota_step cfg op s).2 end.

Lemma quota_step_conserves op s : capacity_inv s -> proper_call op s ->
  capacity_inv (quota_step cfg op s).2 /\ forall k, kept k (quota_step cfg op s).2 = kept k s + kept_by k op s.
Proof.
  intros Hs Hp. destruct op as [clock request|clock id t o|clock t l]; cbn [quota_step kept_by proper_call] in *.
  - pose proof (reserve_conserves cfg clock request s Hs Hp) as H. unfold wp in H.
    destruct (reserve cfg clock request s) as [[[]|] s1]; destruct H as [? Hk]; (split; [done|]; intros k; cbn [snd]; rewrite Hk; lia).
  - pose proof (finish_conserves cfg clock id t o s Hs) as H. unfold wp in H. destruct (finish cfg clock id t o s) as [[] s1]; [done|].
    destruct H as [? Hk]. split; [done|]. intros k. cbn [snd fst]. rewrite Hk. lia.
  - pose proof (release_conserves cfg clock t l s Hs Hp) as H. unfold wp in H. destruct (release cfg clock t l s) as [[] s1]; destruct H as [? Hk]; (split; [done|]; intros k; cbn [snd fst]; rewrite Hk; lia).
Qed.

Lemma run_conserves ops s : capacity_inv s -> proper_calls ops s ->
  capacity_inv (run_quota ops s) /\ forall k, kept k (run_quota ops s) = kept k s + kept_over k ops s.
Proof.
  revert s. induction ops as [|op ops IH]; intros s Hs; cbn [run_quota kept_over proper_calls]; [intros _; split; [done|intros k; lia]|].
  intros [Hp Hps]. destruct (quota_step_conserves op s Hs Hp) as [H1 K1]. destruct (IH _ H1 Hps) as [H2 K2]. split; [done|]. intros k. rewrite K2, K1. lia.
Qed.
End calls.

(** C20: the capacities are accounted for exactly.  After any sequence of calls on an empty store - at any times,
    with any outcomes, with faults - in which admission ids are fresh and only what was kept is released, the units
    counted at a capacity are those of the requests that are still running plus what successful requests kept less
    what was released; a count stays within its limit, and cleaning up the store, with which every reservation and
    every completion begins, never fails. *)
Theorem capacity_conserved (cfg : QuotaConfig) (ops : list QuotaOp) : proper_calls cfg ops empty_quotas ->
  let s := run_quota cfg ops empty_quotas in
  (forall k, capacity_used k s = held k s + kept_over cfg k ops empty_quotas /\ 0 <= held k s /\ 0 <= kept_over cfg k ops empty_quotas) /\
  (forall k e, map_get k (qs_capacities s) = Some e -> 0 < cp_used e <= cp_limit e) /\
  forall now excluded, exists s', cleanup now excluded s = (Ok (), s').
Proof.
  intros Hp s. assert (H0 : capacity_inv empty_quotas) by (by split; [constructor|..]). destruct (run_conserves cfg ops _ H0 Hp) as [Hs Hk]. fold s in Hs, Hk.
  split_and!; [|apply Hs|].
  - intros k. specialize (Hk k). pose proof (ci_kept _ Hs k). pose proof (held_nonneg k _ Hs).
    assert (E0 : kept k empty_quotas = 0) by reflexivity. rewrite E0 in Hk. unfold kept in *. lia.
  - intros now ex. pose proof (cleanup_settles now ex s Hs) as H. unfold wp in H. destruct (cleanup now ex s) as [[[]|] s1]; [by exists s1|done].
Qed.
