(* ===== verification/AbusePolicy.v ===== *)
(** * Request budgets: the policy

    src/modules/abuse-control/src/abuse-constants.js, abuse-policy.js and
    abuse-contexts.js: the classes of requests, the limits of each class and the class
    of every operation, and the contexts under which a request arrives.  The table of
    operations is checked against the authorization policies when the module is
    loaded; here it is the table of a module that loaded. *)

From stdpp Require Import base tactics sets relations gmap numbers strings list.
From S2P Require Import Prelude Js Enums EventStore Service Mandate Loan Servicing Trading Quota.
Local Open Scope string_scope.
Local Open Scope Z_scope.

(** ** Constants *)

Definition ABUSE_POLICY_VERSION : string := "abuse_001.v1".
Definition ABUSE_ADMISSION_SCHEMA_VERSION : string := "abuse_admission.v1".

Inductive QuotaClass :=
  | QuotaClass_DISCOVERY | QuotaClass_READ | QuotaClass_MUTATION | QuotaClass_ECONOMIC
  | QuotaClass_CREDENTIAL | QuotaClass_PRIVILEGED | QuotaClass_BATCH | QuotaClass_WORKER.
#[export] Instance Enum_QuotaClass : Enum QuotaClass := {|
  value x := match x with
    | QuotaClass_DISCOVERY => "discovery"
    | QuotaClass_READ => "read"
    | QuotaClass_MUTATION => "mutation"
    | QuotaClass_ECONOMIC => "economic"
    | QuotaClass_CREDENTIAL => "credential"
    | QuotaClass_PRIVILEGED => "privileged"
    | QuotaClass_BATCH => "batch"
    | QuotaClass_WORKER => "worker"
    end;
  enum_values := [QuotaClass_DISCOVERY; QuotaClass_READ; QuotaClass_MUTATION; QuotaClass_ECONOMIC;
    QuotaClass_CREDENTIAL; QuotaClass_PRIVILEGED; QuotaClass_BATCH; QuotaClass_WORKER] |}.
#[export] Instance EnumLaws_QuotaClass : EnumLaws QuotaClass.
Proof. enum_laws. Qed.

Inductive AdmissionDisposition :=
  | AdmissionDisposition_EXECUTE | AdmissionDisposition_REPLAY.
#[export] Instance Enum_AdmissionDisposition : Enum AdmissionDisposition := {|
  value x := match x with
    | AdmissionDisposition_EXECUTE => "execute"
    | AdmissionDisposition_REPLAY => "replay"
    end;
  enum_values := [AdmissionDisposition_EXECUTE; AdmissionDisposition_REPLAY] |}.
#[export] Instance EnumLaws_AdmissionDisposition : EnumLaws AdmissionDisposition.
Proof. enum_laws. Qed.

Inductive AdmissionOutcome :=
  | AdmissionOutcome_SUCCEEDED | AdmissionOutcome_FAILED.
#[export] Instance Enum_AdmissionOutcome : Enum AdmissionOutcome := {|
  value x := match x with
    | AdmissionOutcome_SUCCEEDED => "succeeded"
    | AdmissionOutcome_FAILED => "failed"
    end;
  enum_values := [AdmissionOutcome_SUCCEEDED; AdmissionOutcome_FAILED] |}.
#[export] Instance EnumLaws_AdmissionOutcome : EnumLaws AdmissionOutcome.
Proof. enum_laws. Qed.

Inductive ResourceKind :=
  | ResourceKind_AGENT_SUBJECTS | ResourceKind_MANDATES | ResourceKind_CREDIT_INTENTS
  | ResourceKind_CREDIT_DECISIONS | ResourceKind_OPEN_OBLIGATIONS | ResourceKind_PROVIDERS
  | ResourceKind_CREDENTIALS | ResourceKind_ACCESS_GRANTS | ResourceKind_PILOT_FEEDBACK_RECORDS
  | ResourceKind_PILOT_CASES | ResourceKind_CREDIT_PASSPORT_ARTIFACTS
  | ResourceKind_OFFICIAL_REPORT_ARTIFACTS.
#[export] Instance Enum_ResourceKind : Enum ResourceKind := {|
  value x := match x with
    | ResourceKind_AGENT_SUBJECTS => "agent_subjects"
    | ResourceKind_MANDATES => "mandates"
    | ResourceKind_CREDIT_INTENTS => "credit_intents"
    | ResourceKind_CREDIT_DECISIONS => "credit_decisions"
    | ResourceKind_OPEN_OBLIGATIONS => "open_obligations"
    | ResourceKind_PROVIDERS => "providers"
    | ResourceKind_CREDENTIALS => "credentials"
    | ResourceKind_ACCESS_GRANTS => "access_grants"
    | ResourceKind_PILOT_FEEDBACK_RECORDS => "pilot_feedback_records"
    | ResourceKind_PILOT_CASES => "pilot_cases"
    | ResourceKind_CREDIT_PASSPORT_ARTIFACTS => "credit_passport_artifacts"
    | ResourceKind_OFFICIAL_REPORT_ARTIFACTS => "official_report_artifacts"
    end;
  enum_values := [ResourceKind_AGENT_SUBJECTS; ResourceKind_MANDATES; ResourceKind_CREDIT_INTENTS;
    ResourceKind_CREDIT_DECISIONS; ResourceKind_OPEN_OBLIGATIONS; ResourceKind_PROVIDERS;
    ResourceKind_CREDENTIALS; ResourceKind_ACCESS_GRANTS; ResourceKind_PILOT_FEEDBACK_RECORDS;
    ResourceKind_PILOT_CASES; ResourceKind_CREDIT_PASSPORT_ARTIFACTS;
    ResourceKind_OFFICIAL_REPORT_ARTIFACTS] |}.
#[export] Instance EnumLaws_ResourceKind : EnumLaws ResourceKind.
Proof. enum_laws. Qed.

Inductive RequestMetric :=
  | RequestMetric_BODY_BYTES | RequestMetric_COMMAND_BYTES | RequestMetric_EVENT_BYTES
  | RequestMetric_PROJECTION_BYTES | RequestMetric_PROJECTION_WRITE_SET_BYTES
  | RequestMetric_RESPONSE_BYTES | RequestMetric_EXPORT_ROWS | RequestMetric_QUEUE_UNITS
  | RequestMetric_EXECUTION_MS | RequestMetric_UPSTREAM_COST_UNITS.
#[export] Instance Enum_RequestMetric : Enum RequestMetric := {|
  value x := match x with
    | RequestMetric_BODY_BYTES => "bodyBytes"
    | RequestMetric_COMMAND_BYTES => "commandBytes"
    | RequestMetric_EVENT_BYTES => "eventBytes"
    | RequestMetric_PROJECTION_BYTES => "projectionBytes"
    | RequestMetric_PROJECTION_WRITE_SET_BYTES => "projectionWriteSetBytes"
    | RequestMetric_RESPONSE_BYTES => "responseBytes"
    | RequestMetric_EXPORT_ROWS => "exportRows"
    | RequestMetric_QUEUE_UNITS => "queueUnits"
    | RequestMetric_EXECUTION_MS => "executionMs"
    | RequestMetric_UPSTREAM_COST_UNITS => "upstreamCostUnits"
    end;
  enum_values := [RequestMetric_BODY_BYTES; RequestMetric_COMMAND_BYTES; RequestMetric_EVENT_BYTES;
    RequestMetric_PROJECTION_BYTES; RequestMetric_PROJECTION_WRITE_SET_BYTES;
    RequestMetric_RESPONSE_BYTES; RequestMetric_EXPORT_ROWS; RequestMetric_QUEUE_UNITS;
    RequestMetric_EXECUTION_MS; RequestMetric_UPSTREAM_COST_UNITS] |}.
#[export] Instance EnumLaws_RequestMetric : EnumLaws RequestMetric.
Proof. enum_laws. Qed.

Inductive AbuseProfileId :=
  | AbuseProfileId_DISCOVERY | AbuseProfileId_CREDENTIAL.
#[export] Instance Enum_AbuseProfileId : Enum AbuseProfileId := {|
  value x := match x with
    | AbuseProfileId_DISCOVERY => "public.discovery"
    | AbuseProfileId_CREDENTIAL => "authentication.credential"
    end;
  enum_values := [AbuseProfileId_DISCOVERY; AbuseProfileId_CREDENTIAL] |}.
#[export] Instance EnumLaws_AbuseProfileId : EnumLaws AbuseProfileId.
Proof. enum_laws. Qed.

(** The fields of [profile.rate] and of [profile.concurrency]. *)
Inductive RateDimension :=
  | RateDimension_actor | RateDimension_client | RateDimension_tenant | RateDimension_operation | RateDimension_service
  | RateDimension_network | RateDimension_account.
#[export] Instance Enum_RateDimension : Enum RateDimension := {|
  value x := match x with
    | RateDimension_actor => "actor"
    | RateDimension_client => "client"
    | RateDimension_tenant => "tenant"
    | RateDimension_operation => "operation"
    | RateDimension_service => "service"
    | RateDimension_network => "network"
    | RateDimension_account => "account"
    end;
  enum_values := [RateDimension_actor; RateDimension_client; RateDimension_tenant; RateDimension_operation; RateDimension_service;
    RateDimension_network; RateDimension_account] |}.
#[export] Instance EnumLaws_RateDimension : EnumLaws RateDimension.
Proof. enum_laws. Qed.

Inductive ConcurrencyDimension := ConcurrencyDimension_actor | ConcurrencyDimension_tenant | ConcurrencyDimension_service.
#[export] Instance Enum_ConcurrencyDimension : Enum ConcurrencyDimension := {|
  value x := match x with
    | ConcurrencyDimension_actor => "actor"
    | ConcurrencyDimension_tenant => "tenant"
    | ConcurrencyDimension_service => "service"
    end;
  enum_values := [ConcurrencyDimension_actor; ConcurrencyDimension_tenant; ConcurrencyDimension_service] |}.
#[export] Instance EnumLaws_ConcurrencyDimension : EnumLaws ConcurrencyDimension.
Proof. enum_laws. Qed.

(** ** Profiles *)

Definition MINUTE : Z := 60000.

Definition HARD_CEILINGS_metrics (m : RequestMetric) : Z :=
  match m with
  | RequestMetric_BODY_BYTES => 64 * 1024
  | RequestMetric_COMMAND_BYTES => 1024 * 1024
  | RequestMetric_EVENT_BYTES => 64 * 1024
  | RequestMetric_PROJECTION_BYTES => 128 * 1024
  | RequestMetric_PROJECTION_WRITE_SET_BYTES => 2 * 1024 * 1024
  | RequestMetric_RESPONSE_BYTES => 256 * 1024
  | RequestMetric_EXPORT_ROWS => 10000
  | RequestMetric_QUEUE_UNITS => 16
  | RequestMetric_EXECUTION_MS => 30000
  | RequestMetric_UPSTREAM_COST_UNITS => 100
  end.

Definition HARD_CEILINGS_resources (k : ResourceKind) : Z :=
  match k with
  | ResourceKind_AGENT_SUBJECTS => 500
  | ResourceKind_MANDATES => 1000
  | ResourceKind_CREDIT_INTENTS => 1000
  | ResourceKind_CREDIT_DECISIONS => 1000
  | ResourceKind_OPEN_OBLIGATIONS => 1000
  | ResourceKind_PROVIDERS => 100
  | ResourceKind_CREDENTIALS => 50
  | ResourceKind_ACCESS_GRANTS => 500
  | ResourceKind_PILOT_FEEDBACK_RECORDS => 10000
  | ResourceKind_PILOT_CASES => 10000
  | ResourceKind_CREDIT_PASSPORT_ARTIFACTS => 10000
  | ResourceKind_OFFICIAL_REPORT_ARTIFACTS => 10000
  end.

Record Profile := MkProfile {
  pf_quotaClass : QuotaClass; pf_windowMs : Z; pf_rate : RateDimension -> Z; pf_concurrency : ConcurrencyDimension -> Z;
  pf_metrics : RequestMetric -> Z; pf_resources : ResourceKind -> Z; pf_maxAutomaticRetries : Z; pf_idempotencyRequired : bool;
  pf_upstreamCostUnitsPerMinute : Z; pf_admissionLeaseMs : Z }.

(** [{ ...defaults, ...given }] *)
Definition spread {K} `{EqDecision K} (defaults : K -> Z) (given : list (K * Z)) (k : K) : Z :=
  foldl (fun v e => if decide (e.1 = k) then e.2 else v) (defaults k) given.

Definition commonMetrics : RequestMetric -> Z :=
  spread HARD_CEILINGS_metrics [(RequestMetric_EXPORT_ROWS, 0); (RequestMetric_QUEUE_UNITS, 0); (RequestMetric_UPSTREAM_COST_UNITS, 0)].

Definition profile (quotaClass : QuotaClass) (windowMs : Z) (rate : list (RateDimension * Z)) (concurrency : list (ConcurrencyDimension * Z))
    (metrics : list (RequestMetric * Z)) (maxAutomaticRetries : Z) (idempotencyRequired : bool) (upstreamCostUnitsPerMinute admissionLeaseMs : Z)
    : Profile :=
  MkProfile quotaClass windowMs (spread (fun _ => 0) rate) (spread (fun _ => 0) concurrency) (spread commonMetrics metrics)
    HARD_CEILINGS_resources maxAutomaticRetries idempotencyRequired upstreamCostUnitsPerMinute admissionLeaseMs.

(** The rates of a tenant's requests, in the order of the source. *)
Definition tenant_rates (actor client tenant operation service network : Z) : list (RateDimension * Z) :=
  [(RateDimension_actor, actor); (RateDimension_client, client); (RateDimension_tenant, tenant); (RateDimension_operation, operation);
   (RateDimension_service, service); (RateDimension_network, network)].
Definition concurrencies (actor tenant service : Z) : list (ConcurrencyDimension * Z) :=
  [(ConcurrencyDimension_actor, actor); (ConcurrencyDimension_tenant, tenant); (ConcurrencyDimension_service, service)].

Definition QUOTA_PROFILES (c : QuotaClass) : Profile :=
  match c with
  | QuotaClass_DISCOVERY => profile c MINUTE [(RateDimension_network, 30); (RateDimension_service, 3000)]
      [(ConcurrencyDimension_service, 64)] [(RequestMetric_EXECUTION_MS, 2000)] 1 false 0 3000
  | QuotaClass_READ => profile c MINUTE (tenant_rates 600 1200 3000 1200 10000 3000) (concurrencies 8 32 128)
      [(RequestMetric_EXECUTION_MS, 10000)] 2 false 0 15000
  | QuotaClass_MUTATION => profile c MINUTE (tenant_rates 120 240 600 240 2400 600) (concurrencies 4 24 96)
      [(RequestMetric_EXECUTION_MS, 15000)] 0 true 0 15000
  | QuotaClass_ECONOMIC => profile c MINUTE (tenant_rates 30 60 180 60 600 180) (concurrencies 2 12 48)
      [(RequestMetric_EXECUTION_MS, 15000); (RequestMetric_UPSTREAM_COST_UNITS, 100)] 0 true 300 15000
  | QuotaClass_CREDENTIAL => profile c (10 * MINUTE) (tenant_rates 10 10 50 50 1000 10 ++ [(RateDimension_account, 10)]) (concurrencies 2 16 32)
      [(RequestMetric_EXECUTION_MS, 10000)] 0 false 0 12000
  | QuotaClass_PRIVILEGED => profile c MINUTE (tenant_rates 30 60 120 30 480 120) (concurrencies 2 8 32)
      [(RequestMetric_EXECUTION_MS, 15000)] 0 true 0 15000
  | QuotaClass_BATCH => profile c MINUTE (tenant_rates 6 12 6 6 30 30) (concurrencies 1 1 8)
      [(RequestMetric_EXPORT_ROWS, 10000); (RequestMetric_QUEUE_UNITS, 8); (RequestMetric_EXECUTION_MS, 30000)] 0 true 0 35000
  | QuotaClass_WORKER => profile c MINUTE (tenant_rates 120 240 600 120 2400 600) (concurrencies 4 16 64)
      [(RequestMetric_QUEUE_UNITS, 8); (RequestMetric_EXECUTION_MS, 30000)] 3 true 0 35000
  end.

(** ** Operations *)

Definition CLASSIFIED_OPERATIONS : list (QuotaClass * list string) :=
  [(QuotaClass_READ,
    ["pilotReadApproval"; "pilotReadAgentAccountBinding"; "pilotReadAgentSelf"; "pilotReadOwnSecuredPool";
     "pilotReviewSecuredPoolAction"; "pilotReadSecuredPoolRisk"; "pilotReadHumanSelf";
     "pilotReadWorkspaceResume"; "pilotReadCapitalPartnerSelf"; "pilotReadCapitalPartnerPassportInbox";
     "pilotReadTenantRiskPortfolioReference"; "pilotReadServicingQueueReference"; "pilotReadApprovalInbox";
     "pilotReadRiskAgentDirectory"; "pilotReadConsent"; "pilotReadIdentityReference"; "pilotReadMandate";
     "pilotReadCreditApplication"; "pilotReadTenantRisk"; "pilotReadPilotHealth";
     "pilotReadPilotFeedbackSummary"; "pilotReadClosedPilotReadiness"; "pilotListOwnCases";
     "pilotReadCaseQueue"; "pilotReadServicingQueue"; "pilotReadProviderIntent";
     "pilotReadCreditRegistryEvidence"; "pilotReadEvidence"; "pilotReadOwnObligation";
     "pilotReadOwnCreditState"; "pilotReadOwnObligationEvidence"; "pilotReadOwnCreditPassportArtifact";
     "pilotVerifyCreditPassportArtifact"; "pilotReadCapitalPartnerPortfolio"; "pilotReadCapitalPartnerFacility";
     "pilotReadOfficialReport"; "pilotRetrieveOfficialReport"; "walletReadAccountBindings"; "walletReadGrant";
     "walletDiscoverCapabilities"; "walletReadExecution"; "venueDiscoverCapabilities"; "venueReadBinding";
     "venueReadExecution"; "tradingReadCreditProfile"; "tradingListCompatibleMandates";
     "tradingReadFacilityState"; "agentReadSecuredFacilityAuthorization"; "tradingReadSettlement";
     "tradingReadFacilityEvidence"]);
   (QuotaClass_MUTATION,
    ["pilotCreateAgentSubject"; "pilotCreateHumanSubject"; "pilotActivateSandboxHumanSubject";
     "pilotCreateConsent"; "pilotRevokeConsent"; "pilotCreateDraftMandate"; "pilotActivateSandboxMandate";
     "pilotRevokeDraftMandate"; "pilotAcknowledgeProviderIntent"; "pilotSubmitPilotFeedback"; "pilotFileCase";
     "pilotTransitionCase"; "pilotCreateCreditPassportArtifact"; "pilotRevokeCreditPassportArtifact";
     "pilotCreateOfficialReport"; "pilotRevokeOfficialReport"; "pilotTransitionCapitalPartnerOffer";
     "tradingCreateAccountBindingChallenge"; "tradingImportHyperliquidHistory";
     "tradingFinalizeEvidenceSnapshot"; "tradingCreateCapitalRequest"; "tradingCreateProviderMandate";
     "tradingCreateMatchProposal"; "tradingAcceptMatchAsProvider"; "tradingAcceptMatchAsSubject";
     "tradingCreateFacility"; "tradingContributeSubjectCollateral"; "tradingRecordProviderFunding";
     "tradingActivateFacility"; "agentCreateSecuredFacilityAuthorization";
     "agentRevokeSecuredFacilityAuthorization"; "tradingSubmitOrderIntent"; "tradingCancelOrderIntent";
     "tradingRequestClose"; "tradingIssuePerformanceProof"]);
   (QuotaClass_CREDENTIAL,
    ["pilotCreateAgentAccountChallenge"; "pilotSubmitAgentAccountProof"; "walletPrepareAccountBinding";
     "walletSubmitAccountBinding"; "walletRevokeAccountBinding"]);
   (QuotaClass_ECONOMIC,
    ["pilotAcceptCreditOffer"; "pilotExecuteSandboxObligation"; "pilotPostSandboxRepayment";
     "pilotRequestCredit"; "pilotEvaluateCreditApplication"; "pilotPersistAgentContinuationReceipt";
     "pilotAuthorCapitalPartnerOffer"; "pilotSubmitSpend"; "pilotCaptureRevenue"; "pilotAutoRepay";
     "workerAutoRepay"; "walletPrepareExecution"; "walletSubmitExecution"; "venuePrepareExecution";
     "venueSubmitExecution"]);
   (QuotaClass_PRIVILEGED,
    ["pilotProposeApproval"; "pilotDecideApproval"; "pilotCancelApproval"; "pilotFreezeSubject";
     "pilotReduceCreditLimit"; "pilotIncreaseCreditLimit"; "pilotUnfreezeSubject";
     "pilotRestructureSandboxObligation"; "pilotRepurchaseSandboxObligation"; "pilotWriteOffSandboxObligation";
     "walletPrepareGrant"; "walletActivateGrant"; "walletRevokeGrant"; "walletApproveExecution";
     "venuePrepareDelegate"; "venueActivateDelegate"; "venueRevokeDelegate"; "tradingEvaluateRisk";
     "tradingPauseNewRisk"; "tradingFlattenFacility"; "workerPlanProjectionRepair";
     "workerExecuteProjectionRepair"]);
   (QuotaClass_BATCH,
    ["pilotExportAudit"; "workerRunReconciliation"]);
   (QuotaClass_WORKER,
    ["workerPublishOutbox"; "workerExpireApproval"; "workerProcessInbox"; "workerAdmitMeteredUsage";
     "workerAdvanceSandboxServicing"; "tradingRunSettlement"])].

(** [operationPolicies.get(operationId)], of which the service reads the profile. *)
Definition operation_class (operationId : string) : option QuotaClass :=
  option_map fst (List.find (fun e => bool_decide (operationId ∈ e.2)) CLASSIFIED_OPERATIONS).

Definition getTenantAbusePolicy (operationId : string) : result Profile :=
  assertAbuseIdentifier "operationId" operationId ;;
  match operation_class operationId with
  | Some c => Ok (QUOTA_PROFILES c)
  | None => fail "abuse_policy_not_found" "The requested operation is not available."
  end.

(** [PUBLIC_ABUSE_PROFILES] *)
Definition PUBLIC_ABUSE_PROFILES (p : AbuseProfileId) : Profile :=
  match p with
  | AbuseProfileId_DISCOVERY => QUOTA_PROFILES QuotaClass_DISCOVERY
  | AbuseProfileId_CREDENTIAL => QUOTA_PROFILES QuotaClass_CREDENTIAL
  end.
Definition getPublicAbuseProfile (p : AbuseProfileId) : result Profile :=
  assertAbuseIdentifier "profileId" (value p) ;; Ok (PUBLIC_ABUSE_PROFILES p).

(** ** Contexts

    A context is known by its place among those the module has created: the members of
    the [WeakSet] are the places below the length of the list. *)

Record HashedContext := MkHashedContext { hc_referenceHash : string; hc_legacyReferenceHash : option string; hc_source : string; hc_schemaVersion : string }.

Definition NETWORK_SOURCES : list string := ["verified_proxy"; "direct_socket"; "local_test"].
Definition ACCOUNT_SOURCES : list string := ["normalized_login_identifier"; "recovery_identifier"; "local_test"].

Definition createHashedContext (v : string) (legacyValue : option string) (source : string) (allowedSources : list string) (schemaVersion : string)
    : M (list HashedContext) nat :=
  throw_if (negb (bool_decide (source ∈ allowedSources))) "invalid_abuse_control_input" "context source is not trusted" ;;
  lift (assertAbuseHash "referenceHash" v) ;;
  lift (if_defined (assertAbuseHash "legacyReferenceHash") legacyValue) ;;
  throw_if (bool_decide (legacyValue = Some v)) "invalid_abuse_control_input" "legacy context hash must differ from primary hash" ;;
  place ← gets length;
  modify (fun trusted => (trusted ++ [MkHashedContext v legacyValue source schemaVersion])%list) ;;
  mret place.

Definition createTrustedNetworkContext (networkRefHash : string) (legacyNetworkRefHash : option string) (source : string) : M (list HashedContext) nat :=
  createHashedContext networkRefHash legacyNetworkRefHash source NETWORK_SOURCES "trusted_network_context.v1".
Definition createTrustedAccountContext (accountRefHash : string) (legacyAccountRefHash : option string) (source : string) : M (list HashedContext) nat :=
  createHashedContext accountRefHash legacyAccountRefHash source ACCOUNT_SOURCES "trusted_account_context.v1".

Definition assertTrustedNetworkContext (trusted : list HashedContext) (context : nat) : result HashedContext :=
  match trusted !! context with
  | Some c => Ok c
  | None => fail "trusted_network_context_required" "a server-created trusted network context is required"
  end.
Definition assertTrustedAccountContext (trusted : list HashedContext) (context : nat) : result HashedContext :=
  match trusted !! context with
  | Some c => Ok c
  | None => fail "trusted_account_context_required" "a server-created trusted account context is required"
  end.
