(* ===== verification/AbuseControl.v ===== *)
(** * Request budgets: the service

    src/modules/abuse-control/src/abuse-control-service.js over the in-memory quota
    store, with the counters of abuse-telemetry.js and the hashes of abuse-utils.js.

    A method that waits for the store or for a handler is split where it waits: the
    part up to the wait, which includes the call of the store, and the part that
    resumes with the outcome.  The in-memory store has neither
    [reserveWithResourceBaselines] nor the transactional methods, so the methods that
    need them end with the service's own errors.  Admissions, like the contexts, are
    known by their place among those the service has created. *)

From Stdlib Require Import Ascii.
From stdpp Require Import base tactics sets relations gmap numbers strings list.
From S2P Require Import Prelude Js Enums EventStore Service Mandate Loan Servicing Trading Quota AbusePolicy.
Local Open Scope string_scope.
Local Open Scope Z_scope.

(** ** Telemetry *)

Inductive Surface := Surface_tenant | Surface_discovery | Surface_credential.
Inductive TelemetryOutcome := Telemetry_admitted | Telemetry_denied | Telemetry_completed | Telemetry_failed.
Inductive TelemetryReason :=
  | Reason_none | Reason_rate | Reason_capacity | Reason_size | Reason_retry | Reason_idempotency | Reason_unavailable | Reason_execution.

Definition surface_name (s : Surface) : string :=
  match s with Surface_tenant => "tenant" | Surface_discovery => "discovery" | Surface_credential => "credential" end.
Definition outcome_name (o : TelemetryOutcome) : string :=
  match o with Telemetry_admitted => "admitted" | Telemetry_denied => "denied" | Telemetry_completed => "completed" | Telemetry_failed => "failed" end.
Definition reason_name (r : TelemetryReason) : string :=
  match r with
  | Reason_none => "none" | Reason_rate => "rate" | Reason_capacity => "capacity" | Reason_size => "size" | Reason_retry => "retry"
  | Reason_idempotency => "idempotency" | Reason_unavailable => "unavailable" | Reason_execution => "execution"
  end.

(** ** State *)

Inductive Lifecycle := Lifecycle_active | Lifecycle_claimed | Lifecycle_consumed | Lifecycle_indeterminate.
#[export] Instance Lifecycle_eq_dec : EqDecision Lifecycle.
Proof. solve_decision. Defined.

(** What the service reads of an authentication context. *)
Record AuthenticationContext := MkAuthenticationContext { au_tenantId : string; au_actorId : string; au_clientId : string }.

(** [admissionFacts]: contexts are places. *)
Inductive Facts :=
  | Facts_tenant (authenticationContext : nat) (operationId : string) (networkContext : option nat)
  | Facts_discovery (networkContext : nat)
  | Facts_credential (networkContext accountContext : nat).

Record RequestAdmission := MkRequestAdmission {
  ad_admissionId : string; ad_tenantId : string; ad_operationId : string; ad_quotaClass : QuotaClass; ad_surface : Surface;
  ad_disposition : AdmissionDisposition; ad_policyVersion : string; ad_issuedAt : string; ad_expiresAt : string; ad_facts : Facts;
  ad_lifecycle : Lifecycle }.

Record AbuseControl := MkAbuseControl {
  ac_store : QuotaStore; ac_admissions : list RequestAdmission; ac_counters : jsmap Z; ac_uuids : nat }.

Definition set_store (x : QuotaStore) (s : AbuseControl) : AbuseControl := MkAbuseControl x (ac_admissions s) (ac_counters s) (ac_uuids s).
Definition set_admission_list (x : list RequestAdmission) (s : AbuseControl) : AbuseControl := MkAbuseControl (ac_store s) x (ac_counters s) (ac_uuids s).
Definition set_counters (x : jsmap Z) (s : AbuseControl) : AbuseControl := MkAbuseControl (ac_store s) (ac_admissions s) x (ac_uuids s).
Definition set_lifecycle (l : Lifecycle) (a : RequestAdmission) : RequestAdmission :=
  MkRequestAdmission (ad_admissionId a) (ad_tenantId a) (ad_operationId a) (ad_quotaClass a) (ad_surface a) (ad_disposition a)
    (ad_policyVersion a) (ad_issuedAt a) (ad_expiresAt a) (ad_facts a) l.
(** [admissionLifecycle.set(admission, l)] *)
Definition mark (admission : nat) (l : Lifecycle) : M AbuseControl unit :=
  modify (fun s => set_admission_list (alter (set_lifecycle l) admission (ac_admissions s)) s).

Section service.
Context `{Platform} (cfg : QuotaConfig) (authentications : list AuthenticationContext) (networks accounts : list HashedContext).

(** A call of the store. *)
Definition on_store {A} (m : M QuotaStore A) : M AbuseControl A := zoom ac_store set_store m.

(** [telemetry.record]: every surface, class, outcome and reason of the service is one of the allowed ones. *)
Definition record (surface : Surface) (quotaClass : QuotaClass) (outcome : TelemetryOutcome) (reason : TelemetryReason) : M AbuseControl unit :=
  let key := surface_name surface +:+ NUL +:+ value quotaClass +:+ NUL +:+ outcome_name outcome +:+ NUL +:+ reason_name reason in
  modify (fun s => set_counters (map_set key (default 0 (map_get key (ac_counters s)) + 1) (ac_counters s)) s).

(** ** Errors and hashes *)

Definition budgetExceeded {A} : M AbuseControl A := throw "request_budget_exceeded" "The request budget is temporarily unavailable.".
Definition admissionUnavailable {A} : M AbuseControl A := throw "request_admission_unavailable" "Request admission is temporarily unavailable.".
Definition abuseHash (namespace : string) (payload : json) : string := hashId ("abuse_control." +:+ namespace) payload.
Definition assertNonNegativeInteger (name : string) (v : Z) : result unit :=
  invalid_abuse_if (negb (isSafeInteger v) || (v <? 0)) (name +:+ " is invalid").

(** ** Counters of a request *)

Fixpoint check_counters {K} `{Enum K} (name : string) (given : K -> option Z) (l : list K) : result unit :=
  match l with
  | [] => Ok ()
  | k :: l => assertNonNegativeInteger (name +:+ "." +:+ value k) (default 0 (given k)) ;; check_counters name given l
  end.
(** [normalizeBoundedCounters]: a counter that is not given is zero. *)
Definition normalizeBoundedCounters {K} `{Enum K} (name : string) (given : K -> option Z) : result (K -> Z) :=
  check_counters name given enum_values ;; Ok (fun k => default 0 (given k)).

Definition is_control (c : ascii) : bool := (code c <=? 31) || (code c =? 127).
Definition idempotencyHash (tenantId operationId idempotencyKey : string) (actorRefHash clientRefHash : option string) : result string :=
  guard ((String.length idempotencyKey <? 8)%nat || (256 <? String.length idempotencyKey)%nat || negb (all_chars (fun c => negb (is_control c)) idempotencyKey))
    "invalid_idempotency_key" "A bounded idempotency key is required." ;;
  Ok (abuseHash "command_reference" (JObj [("tenantId", JStr tenantId); ("operationId", JStr operationId);
    ("actorRefHash", match actorRefHash with Some h => JStr h | None => JNull end);
    ("clientRefHash", match clientRefHash with Some h => JStr h | None => JNull end); ("idempotencyKey", JStr idempotencyKey)])).

Definition rateReservation (keyHash dimension : string) (windowMs limit units : Z) (commandScoped : bool) : RateReservation :=
  MkRateReservation keyHash dimension windowMs limit units commandScoped (if String.eqb dimension "service" then "service" else "tenant").
Definition capacityReservation (keyHash kind : string) (limit units : Z) (release : string) (commandScoped : bool) : CapacityReservation :=
  MkCapacityReservation keyHash kind limit units release commandScoped (if String.eqb kind "concurrency_service" then "service" else "tenant").

(** ** Admitting *)

(** The argument of [#admit]. *)
Record AdmitInput := MkAdmitInput {
  ai_surface : Surface; ai_tenantId : string; ai_actorRefHash : option string; ai_clientRefHash : option string;
  ai_networkRefHash : option string; ai_networkLegacyRefHash : option string; ai_accountRefHash : option string;
  ai_accountLegacyRefHash : option string; ai_operationId : string; ai_profile : Profile; ai_idempotencyKey : option string;
  ai_requestMetrics : RequestMetric -> option Z; ai_resourceDeltas : ResourceKind -> option Z; ai_resourceBaselineLoader : bool;
  ai_retryAttempt : Z; ai_facts : Facts }.

Definition tenant_reference (tenantId : string) : string := abuseHash "tenant_reference" (JObj [("tenantId", JStr tenantId)]).
Definition operation_reference (tenantId operationId : string) : string :=
  abuseHash "operation_reference" (JObj [("tenantId", JStr tenantId); ("operationId", JStr operationId)]).
Definition service_reference (c : QuotaClass) : string :=
  abuseHash "service_reference" (JObj [("policyVersion", JStr ABUSE_POLICY_VERSION); ("quotaClass", JStr (value c))]).

Definition bucket (namespace : string) (c : QuotaClass) (dimension referenceHash : string) : string :=
  abuseHash namespace (JObj [("policyVersion", JStr ABUSE_POLICY_VERSION); ("quotaClass", JStr (value c)); ("dimension", JStr dimension);
    ("referenceHash", JStr referenceHash)]).

Definition rateDimensions (i : AdmitInput) : list (RateDimension * option string) :=
  let c := pf_quotaClass (ai_profile i) in
  [(RateDimension_actor, ai_actorRefHash i); (RateDimension_client, ai_clientRefHash i);
   (RateDimension_tenant, Some (tenant_reference (ai_tenantId i)));
   (RateDimension_operation, Some (operation_reference (ai_tenantId i) (ai_operationId i)));
   (RateDimension_service, Some (service_reference c)); (RateDimension_network, ai_networkRefHash i);
   (RateDimension_network, ai_networkLegacyRefHash i); (RateDimension_account, ai_accountRefHash i);
   (RateDimension_account, ai_accountLegacyRefHash i)].

(** The reservations of the dimensions that have a limit and a reference. *)
Fixpoint dimension_rates (p : Profile) (l : list (RateDimension * option string)) : list RateReservation :=
  match l with
  | [] => []
  | (d, reference) :: l =>
      match truthy reference with
      | Some h => if 0 <? pf_rate p d
                  then rateReservation (bucket "rate_bucket" (pf_quotaClass p) (value d) h) (value d) (pf_windowMs p) (pf_rate p d) 1 false :: dimension_rates p l
                  else dimension_rates p l
      | None => dimension_rates p l
      end
  end.

Definition upstream_rates (i : AdmitInput) (metrics : RequestMetric -> Z) : list RateReservation :=
  let p := ai_profile i in
  if 0 <? metrics RequestMetric_UPSTREAM_COST_UNITS
  then [rateReservation (abuseHash "upstream_cost_bucket" (JObj [("tenantId", JStr (ai_tenantId i)); ("quotaClass", JStr (value (pf_quotaClass p)))]))
          "upstream_cost" 60000 (pf_upstreamCostUnitsPerMinute p) (metrics RequestMetric_UPSTREAM_COST_UNITS) true]
  else [].

Definition concurrency_references (i : AdmitInput) : list (ConcurrencyDimension * option string) :=
  [(ConcurrencyDimension_actor, ai_actorRefHash i); (ConcurrencyDimension_tenant, Some (tenant_reference (ai_tenantId i)));
   (ConcurrencyDimension_service, Some (service_reference (pf_quotaClass (ai_profile i))))].

Fixpoint concurrency_capacities (p : Profile) (l : list (ConcurrencyDimension * option string)) : list CapacityReservation :=
  match l with
  | [] => []
  | (d, reference) :: l =>
      match truthy reference with
      | Some h => if 0 <? pf_concurrency p d
                  then capacityReservation (bucket "concurrency_bucket" (pf_quotaClass p) (value d) h) ("concurrency_" +:+ value d)
                         (pf_concurrency p d) 1 "always" false :: concurrency_capacities p l
                  else concurrency_capacities p l
      | None => concurrency_capacities p l
      end
  end.

Definition queue_capacities (i : AdmitInput) (metrics : RequestMetric -> Z) : list CapacityReservation :=
  let p := ai_profile i in
  if 0 <? metrics RequestMetric_QUEUE_UNITS
  then [capacityReservation (abuseHash "queue_capacity" (JObj [("tenantId", JStr (ai_tenantId i)); ("quotaClass", JStr (value (pf_quotaClass p)))]))
          "queue" (pf_metrics p RequestMetric_QUEUE_UNITS) (metrics RequestMetric_QUEUE_UNITS) "always" false]
  else [].

Definition resource_key (tenantId : string) (kind : ResourceKind) : string :=
  abuseHash "resource_capacity" (JObj [("tenantId", JStr tenantId); ("kind", JStr (value kind))]).
Definition resource_capacities (i : AdmitInput) (resources : ResourceKind -> Z) : list CapacityReservation :=
  map (fun kind => capacityReservation (resource_key (ai_tenantId i) kind) (value kind) (pf_resources (ai_profile i) kind) (resources kind) "on_failure" true)
    (List.filter (fun kind => 0 <? resources kind) enum_values).

Definition quota_request (i : AdmitInput) (metrics : RequestMetric -> Z) (resources : ResourceKind -> Z) (commandRefHash : option string)
    (admissionId : string) : QuotaRequest :=
  let p := ai_profile i in
  MkQuotaRequest admissionId (ai_tenantId i) (ai_operationId i) (value (pf_quotaClass p)) ABUSE_POLICY_VERSION
    (dimension_rates p (rateDimensions i) ++ upstream_rates i metrics)
    (concurrency_capacities p (concurrency_references i) ++ queue_capacities i metrics ++ resource_capacities i resources)
    (pf_admissionLeaseMs p) commandRefHash (ai_actorRefHash i) (ai_clientRefHash i).

(** The first counter above its limit refuses the request. *)
Definition exceeds {K} `{Enum K} (given limit : K -> Z) : bool := existsb (fun k => limit k <? given k) enum_values.

Definition denied {A} (i : AdmitInput) (reason : TelemetryReason) (m : M AbuseControl A) : M AbuseControl A :=
  record (ai_surface i) (pf_quotaClass (ai_profile i)) Telemetry_denied reason ;; m.

(** [#admit] up to the reservation. *)
Definition admit_request (i : AdmitInput) : M AbuseControl QuotaRequest :=
  let p := ai_profile i in
  metrics ← lift (normalizeBoundedCounters "requestMetrics" (ai_requestMetrics i));
  resources ← lift (normalizeBoundedCounters "resourceDeltas" (ai_resourceDeltas i));
  lift (assertNonNegativeInteger "retryAttempt" (ai_retryAttempt i)) ;;
  if exceeds metrics (pf_metrics p) then denied i Reason_size budgetExceeded else
  if exceeds resources (pf_resources p) then denied i Reason_capacity budgetExceeded else
  if pf_maxAutomaticRetries p <? ai_retryAttempt i
    then denied i Reason_retry (throw "automatic_retry_prohibited" "Automatic retry is not permitted for this operation.") else
  if pf_idempotencyRequired p && bool_decide (ai_idempotencyKey i = None)
    then denied i Reason_idempotency (throw "idempotency_key_required" "An idempotency key is required for this operation.") else
  commandRefHash ← lift (match ai_idempotencyKey i with
    | Some key => h ← idempotencyHash (ai_tenantId i) (ai_operationId i) key (ai_actorRefHash i) (ai_clientRefHash i); Ok (Some h)
    | None => Ok None
    end);
  n ← gets ac_uuids;
  modify (fun s => MkAbuseControl (ac_store s) (ac_admissions s) (ac_counters s) (S n)) ;;
  lift (assertAbuseIdentifier "tenantId" (ai_tenantId i)) ;;
  lift (assertAbuseIdentifier "operationId" (ai_operationId i)) ;;
  throw_if (ai_resourceBaselineLoader i) "invalid_abuse_control_config" "quota store does not support resource baseline loading" ;;
  mret (quota_request i metrics resources commandRefHash ("abuse_admission" +:+ "_" +:+ randomUUID n)).

Definition admit_begin (clock : option Z) (i : AdmitInput) : M AbuseControl (QuotaRequest * result Reserved) :=
  request ← admit_request i;
  outcome ← attempt (on_store (reserve cfg clock request));
  mret (request, outcome).

(** [#admit] after the reservation. *)
Definition admit_end (i : AdmitInput) (request : QuotaRequest) (outcome : result Reserved) : M AbuseControl nat :=
  let p := ai_profile i in
  match outcome with
  | Err _ => denied i Reason_unavailable admissionUnavailable
  | Ok (Refused reason) =>
      if String.eqb reason "idempotency"
      then denied i Reason_idempotency (throw "idempotency_in_progress" "The idempotent request is already in progress.")
      else denied i (if String.eqb reason "capacity" then Reason_capacity else Reason_rate) budgetExceeded
  | Ok (Granted replayed issuedAt expiresAt) =>
      place ← gets (fun s => length (ac_admissions s));
      modify (fun s => set_admission_list (ac_admissions s ++ [MkRequestAdmission (qr_admissionId request) (ai_tenantId i) (ai_operationId i)
        (pf_quotaClass p) (ai_surface i) (if replayed then AdmissionDisposition_REPLAY else AdmissionDisposition_EXECUTE) ABUSE_POLICY_VERSION
        issuedAt expiresAt (ai_facts i) Lifecycle_active]) s) ;;
      record (ai_surface i) (pf_quotaClass p) Telemetry_admitted Reason_none ;;
      mret place
  end.

(** A request that meets no other between its two parts. *)
Definition admit_now (clock : option Z) (i : AdmitInput) : M AbuseControl nat :=
  started ← admit_begin clock i; admit_end i started.1 started.2.

(** ** The three surfaces *)

Definition assertAuthenticationContext (context : nat) : result AuthenticationContext :=
  match authentications !! context with
  | Some a => Ok a
  | None => fail "authentication_context_required" "a server-created Authentication Context is required"
  end.

Definition actor_reference (a : AuthenticationContext) : string :=
  abuseHash "actor_reference" (JObj [("tenantId", JStr (au_tenantId a)); ("actorId", JStr (au_actorId a))]).
Definition client_reference (a : AuthenticationContext) : string :=
  abuseHash "client_reference" (JObj [("tenantId", JStr (au_tenantId a)); ("clientId", JStr (au_clientId a))]).

Definition optional_network (context : option nat) : result (option HashedContext) :=
  match context with Some n => c ← assertTrustedNetworkContext networks n; Ok (Some c) | None => Ok None end.

Record TenantRequest := MkTenantRequest {
  tr_authenticationContext : nat; tr_operationId : string; tr_networkContext : option nat; tr_idempotencyKey : option string;
  tr_requestMetrics : RequestMetric -> option Z; tr_resourceDeltas : ResourceKind -> option Z; tr_retryAttempt : option Z;
  tr_resourceBaselineLoader : bool }.

Definition admitTenant (r : TenantRequest) : result AdmitInput :=
  a ← assertAuthenticationContext (tr_authenticationContext r);
  network ← optional_network (tr_networkContext r);
  p ← getTenantAbusePolicy (tr_operationId r);
  Ok (MkAdmitInput Surface_tenant (au_tenantId a) (Some (actor_reference a)) (Some (client_reference a)) (option_map hc_referenceHash network)
    (network ≫= hc_legacyReferenceHash) None None (tr_operationId r) p (tr_idempotencyKey r) (tr_requestMetrics r) (tr_resourceDeltas r)
    (tr_resourceBaselineLoader r) (default 0 (tr_retryAttempt r))
    (Facts_tenant (tr_authenticationContext r) (tr_operationId r) (tr_networkContext r))).

Definition admitDiscovery (networkContext : nat) (requestMetrics : RequestMetric -> option Z) (retryAttempt : option Z) : result AdmitInput :=
  network ← assertTrustedNetworkContext networks networkContext;
  p ← getPublicAbuseProfile AbuseProfileId_DISCOVERY;
  Ok (MkAdmitInput Surface_discovery "public_boundary" None None (Some (hc_referenceHash network)) (hc_legacyReferenceHash network) None None
    (value AbuseProfileId_DISCOVERY) p None requestMetrics (fun _ => None) false (default 0 retryAttempt) (Facts_discovery networkContext)).

Definition admitCredentialAttempt (networkContext accountContext : nat) (requestMetrics : RequestMetric -> option Z) : result AdmitInput :=
  network ← assertTrustedNetworkContext networks networkContext;
  account ← assertTrustedAccountContext accounts accountContext;
  p ← getPublicAbuseProfile AbuseProfileId_CREDENTIAL;
  Ok (MkAdmitInput Surface_credential "authentication_boundary" None None (Some (hc_referenceHash network)) (hc_legacyReferenceHash network)
    (Some (hc_referenceHash account)) (hc_legacyReferenceHash account) (value AbuseProfileId_CREDENTIAL) p None requestMetrics (fun _ => None)
    false 0 (Facts_credential networkContext accountContext)).

(** ** Claiming *)

Record Expected := MkExpected {
  ex_authenticationContext : option nat; ex_operationId : option string; ex_disposition : option AdmissionDisposition }.
Definition nothing_expected : Expected := MkExpected None None None.

Definition service_now (clock : option Z) : result Z :=
  match clock with Some t => Ok t | None => fail "invalid_abuse_control_clock" "abuse-control clock is invalid" end.
Definition mismatch (c : bool) (text : string) : result unit := guard c "request_admission_mismatch" text.

Definition assertAdmission (clock : option Z) (admission : nat) (expected : Expected) : M AbuseControl RequestAdmission :=
  found ← gets (fun s => ac_admissions s !! admission);
  match found with
  | None => throw "request_admission_required" "a server-created request admission is required"
  | Some a =>
      throw_if (negb (bool_decide (ad_lifecycle a = Lifecycle_active))) "request_admission_consumed" "request admission has already been consumed" ;;
      now ← lift (service_now clock);
      throw_if (match date_parse (ad_expiresAt a) with Some t => t <=? now | None => false end)
        "request_admission_expired" "request admission has expired" ;;
      lift (match ex_authenticationContext expected with
            | Some context =>
                assertAuthenticationContext context ;;
                mismatch (match ad_facts a with Facts_tenant own _ _ => negb (own =? context)%nat | _ => true end)
                  "request admission does not match the command context"
            | None => Ok ()
            end) ;;
      lift (mismatch (match ex_operationId expected with Some o => negb (String.eqb (ad_operationId a) o) | None => false end)
        "request admission does not match the command operation") ;;
      lift (mismatch (match ex_disposition expected with Some d => negb (bool_decide (ad_disposition a = d)) | None => false end)
        "request admission disposition is invalid") ;;
      mret a
  end.

Definition claimAdmission (clock : option Z) (admission : nat) : M AbuseControl RequestAdmission :=
  a ← assertAdmission clock admission nothing_expected;
  mark admission Lifecycle_claimed ;;
  mret a.

(** ** Completing *)

(** [#finishClaimedAdmission] up to the store's answer, and after it. *)
Definition finish_begin (storeClock : option Z) (a : RequestAdmission) (outcome : AdmissionOutcome) : M AbuseControl (result AdmissionState) :=
  attempt (on_store (finish cfg storeClock (ad_admissionId a) (ad_tenantId a) (value outcome))).

Definition finish_end (admission : nat) (a : RequestAdmission) (outcome : AdmissionOutcome) (answer : result AdmissionState) : M AbuseControl AdmissionState :=
  match answer with
  | Ok state =>
      match outcome with
      | AdmissionOutcome_SUCCEEDED => record (ad_surface a) (ad_quotaClass a) Telemetry_completed Reason_none
      | AdmissionOutcome_FAILED => record (ad_surface a) (ad_quotaClass a) Telemetry_failed Reason_execution
      end ;;
      mark admission Lifecycle_consumed ;;
      mret state
  | Err _ =>
      mark admission Lifecycle_indeterminate ;;
      record (ad_surface a) (ad_quotaClass a) Telemetry_failed Reason_unavailable ;;
      admissionUnavailable
  end.

(** [complete] up to the store's answer. *)
Definition complete_begin (clock storeClock : option Z) (admission : nat) (outcome : AdmissionOutcome)
    : M AbuseControl (RequestAdmission * result AdmissionState) :=
  a ← claimAdmission clock admission;
  answer ← finish_begin storeClock a outcome;
  mret (a, answer).

(** [executeAdmitted] up to the handler: which of the two runs. *)
Definition execute_begin (clock : option Z) (admission : nat) (has_execute has_loadReplay : bool) : M AbuseControl RequestAdmission :=
  a ← claimAdmission clock admission;
  let replay := bool_decide (ad_disposition a = AdmissionDisposition_REPLAY) in
  if (if replay then has_loadReplay else has_execute) then mret a else
  mark admission Lifecycle_active ;;
  throw (if replay then "idempotency_replay_handler_required" else "admitted_command_handler_required") "the admitted command handler is unavailable".

(** After the handler has thrown, or the completion after it has: whether the admission is still claimed. *)
Definition still_claimed (admission : nat) : M AbuseControl bool :=
  gets (fun s => match ac_admissions s !! admission with Some a => bool_decide (ad_lifecycle a = Lifecycle_claimed) | None => false end).

(** ** Releasing *)

Definition releaseTenantResources (storeClock : option Z) (context : nat) (resourceCounts : ResourceKind -> option Z) : M AbuseControl unit :=
  a ← lift (assertAuthenticationContext context);
  resources ← lift (normalizeBoundedCounters "resourceCounts" resourceCounts);
  let reservations := map (fun kind => MkReleaseReservation (resource_key (au_tenantId a) kind) (value kind) (resources kind))
    (List.filter (fun kind => 0 <? resources kind) enum_values) in
  throw_if (bool_decide (reservations = [])) "invalid_abuse_control_input" "at least one resource count is required" ;;
  answer ← attempt (on_store (release cfg storeClock (au_tenantId a) reservations));
  match answer with
  | Ok _ => mret ()
  | Err e => if String.eqb (err_code e) "resource_counter_underflow" then lift (Err e) else admissionUnavailable
  end.

(** ** Transactions

    The in-memory store has no transactions, and so no admission is ever locked. *)

Definition lockAdmissionForTransaction (clock : option Z) (admission context : nat) (operationId : string) : M AbuseControl unit :=
  assertAdmission clock admission (MkExpected (Some context) (Some operationId) None) ;;
  throw "transactional_admission_unavailable" "the quota store does not support transactional admissions".
Definition completeAdmissionInTransaction : M AbuseControl unit := throw "request_admission_mismatch" "transactional admission claim is invalid".
Definition synchronizePersistentResourcesInTransaction : M AbuseControl unit := throw "request_admission_mismatch" "transactional admission claim is invalid".
Definition confirmAdmissionTransactionCommit : M AbuseControl unit := throw "request_admission_mismatch" "transactional admission completion is invalid".
Definition failAdmissionAfterTransactionRollback : M AbuseControl unit := throw "request_admission_mismatch" "transactional admission rollback is invalid".
End service.
