(* ===== verification/AbuseProps.v ===== *)
(** * Request budgets: theorems

    The service's methods interleave wherever one of them waits.  Under every
    interleaving an admission's handler runs at most once and the store is told of its
    end at most once, and the requests admitted in a window stay within the limit that
    the policy gives their class. *)

From stdpp Require Import base tactics sets relations gmap numbers strings list.
From S2P Require Import Prelude Js Enums EventStore Service Mandate Loan Servicing Trading Quota QuotaProps AbusePolicy AbuseControl.
Local Open Scope string_scope.
Local Open Scope Z_scope.
Local Open Scope list_scope.

(** ** The event loop *)

Inductive SurfaceRequest :=
  | TenantSurface (r : TenantRequest)
  | DiscoverySurface (networkContext : nat) (requestMetrics : RequestMetric -> option Z) (retryAttempt : option Z)
  | CredentialSurface (networkContext accountContext : nat) (requestMetrics : RequestMetric -> option Z).

(** A method that waits, and what it resumes with. *)
Inductive Task :=
  | Admitting (i : AdmitInput) (request : QuotaRequest) (outcome : result Reserved)
  | Completing (admission : nat) (a : RequestAdmission) (outcome : AdmissionOutcome) (answer : result AdmissionState)
  | Handling (admission : nat) (a : RequestAdmission)
  | Finishing (admission : nat) (a : RequestAdmission) (outcome : AdmissionOutcome) (answer : result AdmissionState).

(** A reservation: the request, the store's answer and the store's time. *)
Record Reservation := MkReservation { rv_request : QuotaRequest; rv_outcome : result Reserved; rv_at : Z }.

(** The service, the methods that wait, and, in order, the admissions whose handler was started, those which the
    store was told to finish, and the reservations that were made. *)
Record World := MkWorld {
  wd_service : AbuseControl; wd_tasks : list Task; wd_started : list nat; wd_finished : list nat; wd_reserved : list Reservation }.

(** What happens next: a call of the service, the return or the failure of a handler, or the resumption of a method
    that waits for the store. *)
Inductive Event :=
  | CallAdmit (storeClock : option Z) (r : SurfaceRequest)
  | CallComplete (clock storeClock : option Z) (admission : nat) (outcome : AdmissionOutcome)
  | CallExecute (clock : option Z) (admission : nat) (has_execute has_loadReplay : bool)
  | CallAssert (clock : option Z) (admission : nat) (expected : Expected)
  | CallRelease (storeClock : option Z) (context : nat) (resourceCounts : ResourceKind -> option Z)
  | HandlerReturns (task : nat) (storeClock : option Z)
  | HandlerThrows (task : nat) (storeClock : option Z)
  | Resume (task : nat) (storeClock : option Z).

Section loop.
Context `{Platform} (cfg : QuotaConfig) (authentications : list AuthenticationContext) (networks accounts : list HashedContext).

Definition surface_input (r : SurfaceRequest) : result AdmitInput :=
  match r with
  | TenantSurface r => admitTenant authentications networks r
  | DiscoverySurface n m a => admitDiscovery networks n m a
  | CredentialSurface n a m => admitCredentialAttempt networks accounts n a m
  end.

Definition put_service (s : AbuseControl) (w : World) : World := MkWorld s (wd_tasks w) (wd_started w) (wd_finished w) (wd_reserved w).
Definition add_task (t : Task) (w : World) : World := MkWorld (wd_service w) (wd_tasks w ++ [t]) (wd_started w) (wd_finished w) (wd_reserved w).
Definition drop_task (n : nat) (w : World) : World := MkWorld (wd_service w) (delete n (wd_tasks w)) (wd_started w) (wd_finished w) (wd_reserved w).
Definition log_started (n : nat) (w : World) : World := MkWorld (wd_service w) (wd_tasks w) (wd_started w ++ [n]) (wd_finished w) (wd_reserved w).
Definition log_finished (n : nat) (w : World) : World := MkWorld (wd_service w) (wd_tasks w) (wd_started w) (wd_finished w ++ [n]) (wd_reserved w).
Definition log_reserved (r : Reservation) (w : World) : World :=
  MkWorld (wd_service w) (wd_tasks w) (wd_started w) (wd_finished w) (wd_reserved w ++ [r]).

(** [#finishClaimedAdmission] of [executeAdmitted] calls the store and waits. *)
Definition finish_claimed (storeClock : option Z) (admission : nat) (a : RequestAdmission) (outcome : AdmissionOutcome) (w : World) : World :=
  let '(answer, s) := finish_begin cfg storeClock a outcome (wd_service w) in
  match answer with
  | Ok answer => add_task (Finishing admission a outcome answer) (log_finished admission (put_service s w))
  | Err _ => put_service s w
  end.

(** The [catch] of [executeAdmitted]. *)
Definition catch_execute (storeClock : option Z) (admission : nat) (a : RequestAdmission) (w : World) : World :=
  match (still_claimed admission (wd_service w)).1 with
  | Ok true => finish_claimed storeClock admission a AdmissionOutcome_FAILED w
  | _ => w
  end.

Definition resume (storeClock : option Z) (t : Task) (w : World) : World :=
  match t with
  | Admitting i request outcome => put_service (admit_end i request outcome (wd_service w)).2 w
  | Completing n a outcome answer => put_service (finish_end n a outcome answer (wd_service w)).2 w
  | Finishing n a outcome answer =>
      let '(r, s) := finish_end n a outcome answer (wd_service w) in
      match r, outcome with
      | Err _, AdmissionOutcome_SUCCEEDED => catch_execute storeClock n a (put_service s w)
      | _, _ => put_service s w
      end
  | Handling _ _ => w
  end.

Definition happens (e : Event) (w : World) : World :=
  match e with
  | CallAdmit storeClock r =>
      match surface_input r with
      | Err _ => w
      | Ok i => match admit_begin cfg storeClock i (wd_service w) with
                | (Ok (request, outcome), s) => add_task (Admitting i request outcome) (log_reserved (MkReservation request outcome (qs_lastNow (ac_store s))) (put_service s w))
                | (Err _, s) => put_service s w
                end
      end
  | CallComplete clock storeClock n outcome =>
      match complete_begin cfg authentications clock storeClock n outcome (wd_service w) with
      | (Ok (a, answer), s) => add_task (Completing n a outcome answer) (log_finished n (put_service s w))
      | (Err _, s) => put_service s w
      end
  | CallExecute clock n has_execute has_loadReplay =>
      match execute_begin authentications clock n has_execute has_loadReplay (wd_service w) with
      | (Ok a, s) => add_task (Handling n a) (log_started n (put_service s w))
      | (Err _, s) => put_service s w
      end
  | CallAssert clock n expected => put_service (assertAdmission authentications clock n expected (wd_service w)).2 w
  | CallRelease storeClock context counts => put_service (releaseTenantResources cfg authentications storeClock context counts (wd_service w)).2 w
  | HandlerReturns task storeClock =>
      match wd_tasks w !! task with
      | Some (Handling n a) => finish_claimed storeClock n a AdmissionOutcome_SUCCEEDED (drop_task task w)
      | _ => w
      end
  | HandlerThrows task storeClock =>
      match wd_tasks w !! task with
      | Some (Handling n a) => catch_execute storeClock n a (drop_task task w)
      | _ => w
      end
  | Resume task storeClock =>
      match wd_tasks w !! task with
      | Some (Handling _ _) | None => w
      | Some t => resume storeClock t (drop_task task w)
      end
  end.

Definition live (events : list Event) (w : World) : World := foldl (fun w e => happens e w) w events.
End loop.

Definition new_service : AbuseControl := MkAbuseControl empty_quotas [] [] 0.
Definition new_world : World := MkWorld new_service [] [] [] [].

(** ** The life of an admission *)

Definition retired (n : nat) (s : AbuseControl) : Prop := exists a, ac_admissions s !! n = Some a /\ ad_lifecycle a <> Lifecycle_active.
(** What was claimed stays so. *)
Definition tightens (s s' : AbuseControl) : Prop := forall m, retired m s -> retired m s'.

Lemma tightens_same s s' : ac_admissions s' = ac_admissions s -> tightens s s'.
Proof. intros E m (a & Ha & Hl). exists a. by rewrite E. Qed.
Lemma tightens_trans s1 s2 s3 : tightens s1 s2 -> tightens s2 s3 -> tightens s1 s3.
Proof. intros H1 H2 m Hm. by apply H2, H1. Qed.
Lemma tightens_mark n l s s' : l <> Lifecycle_active -> ac_admissions s' = alter (set_lifecycle l) n (ac_admissions s) -> tightens s s'.
Proof.
  intros Hl E m (a & Ha & Hm). destruct (decide (n = m)) as [->|Hne].
  - exists (set_lifecycle l a). rewrite E, list_lookup_alter_eq, Ha. done.
  - exists a. rewrite E, list_lookup_alter_ne by done. done.
Qed.

(** What leaves a field, such as the admissions or the store. *)
Definition leaves {X A} (field : AbuseControl -> X) (m : M AbuseControl A) : Prop := forall s,
  wp m (fun _ s' => field s' = field s) (fun _ s' => field s' = field s) s.

Section leaves.
Context {X : Type} (field : AbuseControl -> X).

Lemma leaves_bind {A B} (m : M AbuseControl A) (f : A -> M AbuseControl B) : leaves field m -> (forall a, leaves field (f a)) -> leaves field (m ≫= f).
Proof.
  intros Hm Hf s. apply wp_bind. eapply wp_mono; [by apply Hm| |done]. intros a s1 E1. cbv beta.
  eapply wp_mono; [apply Hf|..]; intros ? s2 E2; cbv beta in *; congruence.
Qed.
Lemma leaves_modify f : (forall s, field (f s) = field s) -> leaves field (modify f).
Proof. intros Hf s. exact (Hf s). Qed.
Lemma leaves_lift {A} (r : result A) : leaves field (lift r).
Proof. intros s. by apply wp_lift. Qed.
Lemma leaves_gets {A} (f : AbuseControl -> A) : leaves field (gets f).
Proof. by intros s. Qed.
Lemma leaves_ret {A} (a : A) : leaves field (mret a).
Proof. by intros s. Qed.
Lemma leaves_throw {A} code text : leaves field (throw (A:=A) code text).
Proof. by intros s. Qed.
Lemma leaves_throw_if c code text : leaves field (throw_if c code text).
Proof. intros s. by apply wp_throw_if. Qed.
Lemma leaves_attempt {A} (m : M AbuseControl A) : leaves field m -> leaves field (attempt m).
Proof. intros Hm s. apply wp_attempt, Hm. Qed.
(** The state after a segment that leaves the field. *)
Lemma leaves_state {A} (m : M AbuseControl A) s : leaves field m -> field (m s).2 = field s.
Proof. intros Hm. specialize (Hm s). unfold wp in Hm. by destruct (m s) as [[] ?]. Qed.
End leaves.

Lemma leaves_on_store {A} (m : M QuotaStore A) : leaves ac_admissions (on_store m).
Proof. intros s. unfold on_store, wp, zoom. by destruct (m (ac_store s)) as [[] ?]. Qed.

Create HintDb leaves.
#[export] Hint Resolve leaves_lift leaves_gets leaves_ret leaves_throw leaves_throw_if leaves_on_store : leaves.

Ltac leaves :=
  repeat lazymatch goal with
  | |- leaves _ (_ ≫= _) => apply leaves_bind; [|intros ?]
  | |- leaves _ (attempt _) => apply leaves_attempt
  | |- leaves _ (modify _) => apply leaves_modify; done
  | |- leaves _ (match ?x with _ => _ end) => destruct x
  | |- _ => solve [auto with leaves]
  end.

Lemma leaves_record_admissions f c o r : leaves ac_admissions (record f c o r).
Proof. unfold record. leaves. Qed.
Lemma leaves_record_store f c o r : leaves ac_store (record f c o r).
Proof. unfold record. leaves. Qed.
#[export] Hint Resolve leaves_record_admissions leaves_record_store : leaves.
Lemma leaves_denied {X A} (field : AbuseControl -> X) i r (m : M AbuseControl A) :
  (forall f c o r, leaves field (record f c o r)) -> leaves field m -> leaves field (denied i r m).
Proof. intros Hr Hm. unfold denied. leaves. Qed.

(** ** Segments *)

Section segments.
Context `{Platform} (cfg : QuotaConfig) (authentications : list AuthenticationContext).

Lemma leaves_admit_request {X} (field : AbuseControl -> X) i : (forall f c o r, leaves field (record f c o r)) ->
  (forall s n, field (MkAbuseControl (ac_store s) (ac_admissions s) (ac_counters s) n) = field s) -> leaves field (admit_request i).
Proof.
  intros Hr Hn. unfold admit_request, budgetExceeded. cbv zeta.
  repeat lazymatch goal with
  | |- leaves _ (denied _ _ _) => apply leaves_denied; [exact Hr|apply leaves_throw]
  | |- leaves _ (modify _) => apply leaves_modify; intros s; apply Hn
  | |- _ => progress leaves
  end.
Qed.
Lemma leaves_admit_begin clock i : leaves ac_admissions (admit_begin cfg clock i).
Proof. unfold admit_begin. apply leaves_bind; [apply leaves_admit_request; [auto with leaves|done]|]. intros request. leaves. Qed.
Lemma leaves_finish_begin clock a o : leaves ac_admissions (finish_begin cfg clock a o).
Proof. unfold finish_begin. leaves. Qed.
Lemma leaves_release clock context counts : leaves ac_admissions (releaseTenantResources cfg authentications clock context counts).
Proof. unfold releaseTenantResources, admissionUnavailable. cbv zeta. leaves. Qed.
Lemma leaves_assert clock n expected : leaves ac_admissions (assertAdmission authentications clock n expected).
Proof. unfold assertAdmission. leaves. Qed.

Lemma admit_end_tightens i request outcome s : tightens s (admit_end i request outcome s).2.
Proof.
  destruct outcome as [[replayed issuedAt expiresAt|reason]|e]; cbn [admit_end].
  - intros m (a & Ha & Hm). exists a. split; [|done]. unfold admit_end. cbn. by apply lookup_app_l_Some.
  - apply tightens_same, leaves_state. unfold budgetExceeded. destruct (String.eqb reason "idempotency"); apply leaves_denied; auto with leaves.
  - apply tightens_same, leaves_state, leaves_denied; [auto with leaves|apply leaves_throw].
Qed.

(** A claim takes an active admission. *)
Definition claimed_from (n : nat) (s s' : AbuseControl) : Prop :=
  ~ retired n s /\ (n < length (ac_admissions s))%nat /\ ac_admissions s' = alter (set_lifecycle Lifecycle_claimed) n (ac_admissions s).

Lemma claimed_retired n s s' : claimed_from n s s' -> retired n s' /\ tightens s s'.
Proof.
  intros (_ & Hn & E). split; [|eapply tightens_mark; [|exact E]; done]. destruct (lookup_lt_is_Some_2 _ _ Hn) as [a Ha].
  exists (set_lifecycle Lifecycle_claimed a). by rewrite E, list_lookup_alter_eq, Ha.
Qed.

Lemma wp_assert clock n expected s : wp (assertAdmission authentications clock n expected)
  (fun _ s' => s' = s /\ ~ retired n s /\ (n < length (ac_admissions s))%nat) (fun _ s' => s' = s) s.
Proof.
  unfold assertAdmission. apply wp_bind, wp_gets. destruct (ac_admissions s !! n) as [a|] eqn:Ha; [|by apply wp_throw].
  apply wp_bind, wp_throw_if; [done|]. intros Hl%negb_false_iff%bool_decide_eq_true. do 5 (apply wp_bind; first [apply wp_lift|apply wp_throw_if]; [done|intros; cbv beta]).
  apply wp_ret. split_and!; [done| |by apply lookup_lt_Some in Ha]. intros (a' & Ha' & Hm). congruence.
Qed.

Lemma wp_claim clock n s : wp (claimAdmission authentications clock n) (fun _ s' => claimed_from n s s') (fun _ s' => s' = s) s.
Proof.
  unfold claimAdmission. apply wp_bind. eapply wp_mono; [apply wp_assert| |done]. intros a s1 (-> & Hr & Hn). cbv beta.
  apply wp_bind, wp_modify, wp_ret. by split_and!.
Qed.

(** An execution either takes the admission or leaves it as it was. *)
Lemma wp_execute clock n b1 b2 s : wp (execute_begin authentications clock n b1 b2) (fun _ s' => claimed_from n s s') (fun _ s' => tightens s s') s.
Proof.
  unfold execute_begin. apply wp_bind. eapply wp_mono; [apply wp_claim| |intros e s' ->; by apply tightens_same].
  intros a s1 H1. cbv beta zeta. apply wp_if; intros _; [by apply wp_ret|]. apply wp_bind, wp_modify, wp_throw. destruct H1 as (Hr & Hn & E).
  intros m Hm. destruct (decide (n = m)) as [->|Hne]; [done|]. destruct Hm as (b & Hb & Hl). exists b. cbn.
  rewrite list_lookup_alter_ne, E, list_lookup_alter_ne by done. done.
Qed.

Lemma wp_complete clock storeClock n o s : wp (complete_begin cfg authentications clock storeClock n o) (fun _ s' => claimed_from n s s') (fun _ s' => s' = s) s.
Proof.
  unfold complete_begin. apply wp_bind. eapply wp_mono; [apply wp_claim| |done]. intros a s1 (Hr & Hn & E). cbv beta.
  apply wp_bind. unfold finish_begin. apply wp_attempt. eapply wp_mono; [apply leaves_on_store|..]; intros ? s2 E2; apply wp_ret; split_and!; try done; cbv beta in *; congruence.
Qed.

(** The end of a completion marks the admission; a failed one is no longer claimed. *)
Lemma finish_end_tightens n a o answer s : let '(r, s') := finish_end n a o answer s in
  tightens s s' /\ match r with Err _ => (still_claimed n s').1 = Ok false | Ok _ => True end.
Proof.
  destruct answer as [st|e].
  - destruct o; cbn; (split; [|done]); (eapply tightens_mark; [|reflexivity]); done.
  - destruct (finish_end n a o (Err e) s) as [r s'] eqn:E. assert (E' : r = Err (MkDomainError "request_admission_unavailable" "Request admission is temporarily unavailable.") /\
      ac_admissions s' = alter (set_lifecycle Lifecycle_indeterminate) n (ac_admissions s)) by (injection E as <- <-; done).
    destruct E' as [-> Ea]. split; [eapply tightens_mark; [|exact Ea]; done|]. unfold still_claimed, gets. cbn [fst]. rewrite Ea, list_lookup_alter_eq.
    by destruct (ac_admissions s !! n).
Qed.
End segments.

(** ** Every interleaving *)

Definition handling (t : Task) : option nat := match t with Handling n _ => Some n | _ => None end.
Definition handlers (w : World) : list nat := omap handling (wd_tasks w).

(** Each admission was handed to one handler, which runs or was followed by one completion, and is not active. *)
Record loop_inv (w : World) : Prop := {
  li_started : NoDup (wd_started w);
  li_finished : NoDup (wd_finished w ++ handlers w);
  li_retired : forall n, n ∈ wd_started w \/ n ∈ wd_finished w ++ handlers w -> retired n (wd_service w) }.

Lemma inv_service s w : loop_inv w -> tightens (wd_service w) s -> loop_inv (put_service s w).
Proof. intros [H1 H2 H3] Ht. split; [done|done|]. intros n Hn. by apply Ht, H3. Qed.

Lemma handlers_add t w : handlers (add_task t w) = (handlers w ++ match handling t with Some n => [n] | None => [] end).
Proof. unfold handlers. cbn [wd_tasks add_task]. rewrite omap_app. cbn. by destruct (handling t). Qed.

Lemma inv_add t w : loop_inv w -> handling t = None -> loop_inv (add_task t w).
Proof.
  intros [H1 H2 H3] Ht. assert (E : handlers (add_task t w) = handlers w) by (rewrite handlers_add, Ht; apply app_nil_r).
  split; [done|by rewrite E|]. intros n. rewrite E. apply H3.
Qed.

Lemma handlers_drop i t w : wd_tasks w !! i = Some t ->
  handlers w ≡ₚ match handling t with Some n => n :: handlers (drop_task i w) | None => handlers (drop_task i w) end.
Proof. intros Ht. unfold handlers. cbn [wd_tasks drop_task]. rewrite (delete_Permutation (wd_tasks w) i t Ht) at 1. cbn. by destruct (handling t). Qed.

(** A task that ends: its admission, if it had one, has neither a handler nor a completion. *)
Lemma inv_drop i t w : loop_inv w -> wd_tasks w !! i = Some t ->
  loop_inv (drop_task i w) /\ forall n, handling t = Some n -> retired n (wd_service w) /\ n ∉ wd_finished w ++ handlers (drop_task i w).
Proof.
  intros [H1 H2 H3] Ht. pose proof (handlers_drop i t w Ht) as Hp. rewrite Hp in H2. setoid_rewrite Hp in H3.
  destruct (handling t) as [m|].
  - rewrite <- Permutation_middle in H2. apply NoDup_cons in H2 as [Hm H2]. split; [|intros n [= <-]; split; [apply H3; set_solver|done]].
    split; [done|done|]. intros n Hn. apply H3. cbn [wd_started wd_finished drop_task] in Hn. set_solver.
  - split; [|done]. by split.
Qed.

(** A new completion of an admission that had none. *)
Lemma inv_finished n w : loop_inv w -> retired n (wd_service w) -> n ∉ wd_finished w ++ handlers w -> loop_inv (log_finished n w).
Proof.
  intros [H1 H2 H3] Hr Hn. assert (E : wd_finished (log_finished n w) ++ handlers (log_finished n w) ≡ₚ n :: wd_finished w ++ handlers w).
  { cbn. change (handlers (log_finished n w)) with (handlers w). rewrite <- app_assoc. symmetry. apply Permutation_middle. }
  split; [done|rewrite E; by apply NoDup_cons|]. intros m. rewrite E, elem_of_cons. intros [Hm|[->|Hm]]; [apply H3; by left|done|apply H3; by right].
Qed.

Lemma retired_service n s w : tightens (wd_service w) s -> retired n (wd_service w) -> retired n (wd_service (put_service s w)).
Proof. intros Ht. apply Ht. Qed.

Section interleavings.
Context `{Platform} (cfg : QuotaConfig) (authentications : list AuthenticationContext) (networks accounts : list HashedContext).

Lemma finish_claimed_inv clock n a o w : loop_inv w -> retired n (wd_service w) -> n ∉ wd_finished w ++ handlers w -> loop_inv (finish_claimed cfg clock n a o w).
Proof.
  intros Hw Hr Hn. unfold finish_claimed. pose proof (leaves_finish_begin cfg clock a o (wd_service w)) as H1. unfold wp in H1.
  destruct (finish_begin cfg clock a o (wd_service w)) as [[answer|e] s]; apply tightens_same in H1; [|by apply inv_service].
  apply inv_add; [|done]. apply inv_finished; [by apply inv_service|by apply H1|done].
Qed.

Lemma catch_execute_inv clock n a w : loop_inv w -> retired n (wd_service w) -> n ∉ wd_finished w ++ handlers w -> loop_inv (catch_execute cfg clock n a w).
Proof. intros Hw Hr Hn. unfold catch_execute. destruct (still_claimed n (wd_service w)).1 as [[]|]; [by apply finish_claimed_inv|done|done]. Qed.

Lemma resume_inv clock t w : loop_inv w -> loop_inv (resume cfg clock t w).
Proof.
  intros Hw. destruct t as [i request outcome|n a o answer|n a|n a o answer]; cbn [resume].
  - apply inv_service; [done|apply admit_end_tightens].
  - pose proof (finish_end_tightens n a o answer (wd_service w)) as H1. destruct (finish_end n a o answer (wd_service w)) as [r s]. by apply inv_service, H1.
  - done.
  - pose proof (finish_end_tightens n a o answer (wd_service w)) as H1. destruct (finish_end n a o answer (wd_service w)) as [r s]. destruct H1 as [Ht Hc].
    assert (Hs : loop_inv (put_service s w)) by (by apply inv_service). destruct r as [|e]; [done|]. destruct o; [|done].
    unfold catch_execute. cbn [wd_service put_service]. by rewrite Hc.
Qed.

Lemma claimed_new n s w : loop_inv w -> claimed_from n (wd_service w) s ->
  loop_inv (put_service s w) /\ retired n s /\ n ∉ wd_started w /\ n ∉ wd_finished w ++ handlers w.
Proof.
  intros Hw Hc. destruct (claimed_retired _ _ _ Hc) as [Hr Ht]. destruct Hc as (Hn & _). split_and!; [by apply inv_service|done|..]; intros Hin; apply Hn, Hw; [by left|by right].
Qed.

Lemma happens_inv e w : loop_inv w -> loop_inv (happens cfg authentications networks accounts e w).
Proof.
  intros Hw. destruct e as [clock r|clock storeClock n o|clock n b1 b2|clock n ex|clock context counts|task clock|task clock|task clock]; cbn [happens].
  - destruct (surface_input _ _ _ r) as [i|]; [|done]. pose proof (leaves_admit_begin cfg clock i (wd_service w)) as H1. unfold wp in H1.
    destruct (admit_begin cfg clock i (wd_service w)) as [[[request outcome]|] s]; apply tightens_same in H1; [|by apply inv_service].
    apply inv_add; [|done]. pose proof (inv_service s w Hw H1) as []. by split.
  - pose proof (wp_complete cfg authentications clock storeClock n o (wd_service w)) as H1. unfold wp in H1.
    destruct (complete_begin _ _ _ _ _ _ _) as [[[a answer]|] s]; [|apply inv_service; [done|by apply tightens_same; rewrite H1]].
    destruct (claimed_new n s w Hw H1) as (Hs & Hr & _ & Hf). apply inv_add; [|done]. by apply inv_finished.
  - pose proof (wp_execute authentications clock n b1 b2 (wd_service w)) as H1. unfold wp in H1.
    destruct (execute_begin _ _ _ _ _ _) as [[a|] s]; [|by apply inv_service]. destruct (claimed_new n s w Hw H1) as ([K1 K2 K3] & Hr & Hst & Hf).
    change (handlers (put_service s w)) with (handlers w) in *. cbn [wd_started wd_finished wd_service put_service] in *.
    split; cbn [wd_started wd_finished wd_service put_service add_task log_started]; rewrite ?handlers_add; cbn [handling].
    + apply NoDup_app. split; [done|]. split; [set_solver|apply NoDup_singleton].
    + change (handlers (log_started n (put_service s w))) with (handlers w). rewrite app_assoc. apply NoDup_app. split; [done|]. split; [set_solver|apply NoDup_singleton].
    + change (handlers (log_started n (put_service s w))) with (handlers w). intros m Hm.
      destruct (decide (m = n)) as [->|Hne]; [done|]. apply K3. set_solver.
  - apply inv_service; [done|]. apply tightens_same, leaves_state, leaves_assert.
  - apply inv_service; [done|]. apply tightens_same, leaves_state, leaves_release.
  - destruct (wd_tasks w !! task) as [[]|] eqn:E; try done. destruct (inv_drop _ _ _ Hw E) as [Hd Hn]. destruct (Hn _ eq_refl). by apply finish_claimed_inv.
  - destruct (wd_tasks w !! task) as [[]|] eqn:E; try done. destruct (inv_drop _ _ _ Hw E) as [Hd Hn]. destruct (Hn _ eq_refl). by apply catch_execute_inv.
  - destruct (wd_tasks w !! task) as [t|] eqn:E; [|done]. destruct (inv_drop _ _ _ Hw E) as [Hd _]. destruct t; try done; by apply resume_inv.
Qed.

Lemma live_inv events w : loop_inv w -> loop_inv (live cfg authentications networks accounts events w).
Proof. unfold live. revert w. induction events as [|e events IH]; intros w Hw; [done|]. by apply IH, happens_inv. Qed.
End interleavings.

(** C19: an admission is used once.  However the calls of the service interleave - admissions, completions, executions,
    releases, handlers that return or throw, and the waits of each of them - no admission's handler is started twice, and
    the store is told at most once that an admission has ended; from then on the admission is refused. *)
Theorem admission_used_once `{Platform} (cfg : QuotaConfig) authentications networks accounts (events : list Event) :
  let w := live cfg authentications networks accounts events new_world in
  NoDup (wd_started w) /\ NoDup (wd_finished w) /\
  forall n clock expected, n ∈ wd_started w \/ n ∈ wd_finished w ->
    (assertAdmission authentications clock n expected (wd_service w)).1 = fail "request_admission_consumed" "request admission has already been consumed".
Proof.
  intros w. assert (Hw : loop_inv w) by (apply live_inv; by split; [constructor|constructor|intros n; rewrite !elem_of_nil; intros []]).
  split_and!; [apply Hw|exact (proj1 (proj1 (NoDup_app _ _) (li_finished _ Hw)))|]. intros n clock expected Hn.
  destruct (li_retired _ Hw n) as (a & Ha & Hl); [set_solver|]. unfold assertAdmission, mbind, M_bind, gets, throw_if. rewrite Ha.
  rewrite bool_decide_eq_false_2 by done. done.
Qed.
