(* ===== verification/AbuseBudget.v ===== *)
(** * Request budgets: the limits of the policy

    The service and the quota store together: whatever happens, the requests that are
    granted in a window of a bucket stay within the limit that the policy gives the
    class and the dimension of the bucket.  The theorem joins the store's account of a
    rate with the reservations the service builds from the policy. *)

From stdpp Require Import base tactics sets relations gmap numbers strings list.
From S2P Require Import Prelude Js Enums EventStore Service Mandate Loan Servicing Trading Quota QuotaProps AbusePolicy AbuseControl AbuseProps.
Local Open Scope string_scope.
Local Open Scope Z_scope.
Local Open Scope list_scope.

(** ** The policy *)

Lemma profile_class c : pf_quotaClass (QUOTA_PROFILES c) = c.
Proof. by destruct c. Qed.
Lemma profile_window c : 0 < pf_windowMs (QUOTA_PROFILES c).
Proof. by destruct c. Qed.
Lemma profile_rate c d : 0 <= pf_rate (QUOTA_PROFILES c) d.
Proof. by destruct c, d. Qed.

Section budget.
Context `{Platform} (cfg : QuotaConfig) (authentications : list AuthenticationContext) (networks accounts : list HashedContext).

(** The profile of a request is that of a class. *)
Lemma surface_profile r i : surface_input authentications networks accounts r = Ok i -> exists c, ai_profile i = QUOTA_PROFILES c.
Proof.
  destruct r as [r|n m a|n a m]; cbn [surface_input]; unfold admitTenant, admitDiscovery, admitCredentialAttempt, getPublicAbuseProfile; intros E; result_inv; cbn [ai_profile].
  - unfold getTenantAbusePolicy in *. result_inv. destruct (operation_class _) as [c|]; [|done]. result_inv. by exists c.
  - by exists QuotaClass_DISCOVERY.
  - by exists QuotaClass_CREDENTIAL.
Qed.

(** ** The reservations of a request *)

Lemma dimension_rates_policy p l r : r ∈ dimension_rates p l ->
  rr_windowMs r = pf_windowMs p /\ exists d, rr_dimension r = value d /\ rr_limit r = pf_rate p d.
Proof.
  induction l as [|[d reference] l IH]; cbn [dimension_rates]; [by intros ?%not_elem_of_nil|].
  destruct (truthy reference) as [h|]; [|done]. destruct (0 <? pf_rate p d); [|done]. intros [->|Hin]%elem_of_cons; [|by apply IH]. split; [done|]. by exists d.
Qed.

(** The reservations of a dimension have the limits of the policy. *)
Lemma request_policy i metrics resources ref id r d : r ∈ qr_rateReservations (quota_request i metrics resources ref id) -> rr_dimension r = value d ->
  rr_windowMs r = pf_windowMs (ai_profile i) /\ rr_limit r = pf_rate (ai_profile i) d.
Proof.
  cbn [quota_request qr_rateReservations]. intros [Hin|Hin]%elem_of_app Hd.
  - apply dimension_rates_policy in Hin as (? & d' & Hd' & ?). rewrite Hd in Hd'. apply (inj value) in Hd' as <-. done.
  - unfold upstream_rates in Hin. destruct (0 <? _); [|by apply not_elem_of_nil in Hin]. apply list_elem_of_singleton in Hin. subst r.
    cbn in Hd. by destruct d.
Qed.

(** An admission that begins leaves the store, or reserves what its input says. *)
Lemma admit_begin_store clock i s : let '(r, s') := admit_begin cfg clock i s in
  match r with
  | Ok (request, outcome) => (exists metrics resources ref id, request = quota_request i metrics resources ref id) /\
      (outcome, ac_store s') = reserve cfg clock request (ac_store s)
  | Err _ => ac_store s' = ac_store s
  end.
Proof.
  enough (Hw : wp (admit_begin cfg clock i) (fun v s' => (exists metrics resources ref id, v.1 = quota_request i metrics resources ref id) /\
    (v.2, ac_store s') = reserve cfg clock v.1 (ac_store s)) (fun _ s' => ac_store s' = ac_store s) s).
  { unfold wp in Hw. destruct (admit_begin cfg clock i s) as [[[request outcome]|] s']; exact Hw. }
  unfold admit_begin. apply wp_bind. eapply (wp_mono _ (fun request s' => (exists metrics resources ref id, request = quota_request i metrics resources ref id) /\ ac_store s' = ac_store s) _
    (fun _ s' => ac_store s' = ac_store s)); [| |done].
  - pose proof (leaves_admit_request ac_store i leaves_record_store (fun _ _ => eq_refl) s) as Hl.
    assert (Hr : wp (admit_request i) (fun request _ => exists metrics resources ref id, request = quota_request i metrics resources ref id) (fun _ _ => True) s).
    { unfold admit_request. cbv zeta. apply wp_bind, wp_lift; [done|]. intros metrics _. apply wp_bind, wp_lift; [done|]. intros resources _.
      apply wp_bind, wp_lift; [done|]. intros _ _. do 4 (apply wp_if; intros _; [done|]). apply wp_bind, wp_lift; [done|]. intros ref _.
      apply wp_bind, wp_gets. apply wp_bind, wp_modify. do 2 (apply wp_bind, wp_lift; [done|intros _ _]). apply wp_bind, wp_throw_if; [done|]. intros _. apply wp_ret. eauto. }
    unfold wp in *. destruct (admit_request i s) as [[request|] s1]; [by split|exact Hl].
  - intros request s1 [Hq Hs]. cbv beta. apply wp_bind, wp_attempt. unfold on_store, wp, zoom. rewrite Hs.
    destruct (reserve cfg clock request (ac_store s)) as [[v|e] t] eqn:E; apply wp_ret; cbn; rewrite E; done.
Qed.

(** ** The other calls of the store *)

Definition store_moves (s s' : QuotaStore) : Prop :=
  s' = s \/ exists op, (match op with OpReserve _ _ => False | _ => True end) /\ s' = (quota_step cfg op s).2.

Lemma finish_begin_store clock a o s : store_moves (ac_store s) (ac_store (finish_begin cfg clock a o s).2).
Proof.
  right. exists (OpFinish clock (ad_admissionId a) (ad_tenantId a) (value o)). split; [done|]. unfold finish_begin, attempt, on_store, zoom. cbn [quota_step].
  by destruct (finish cfg clock (ad_admissionId a) (ad_tenantId a) (value o) (ac_store s)).
Qed.

Lemma finish_claimed_store clock n a o w : store_moves (ac_store (wd_service w)) (ac_store (wd_service (finish_claimed cfg clock n a o w))).
Proof.
  unfold finish_claimed. pose proof (finish_begin_store clock a o (wd_service w)) as Hs. by destruct (finish_begin cfg clock a o (wd_service w)) as [[] s].
Qed.
Lemma catch_execute_store clock n a w : store_moves (ac_store (wd_service w)) (ac_store (wd_service (catch_execute cfg clock n a w))).
Proof. unfold catch_execute. destruct (still_claimed n (wd_service w)).1 as [[]|]; [apply finish_claimed_store|by left|by left]. Qed.

Lemma leaves_mark n l : leaves ac_store (mark n l).
Proof. unfold mark. leaves. Qed.
#[local] Hint Resolve leaves_mark : leaves.
Lemma leaves_assert_store clock n ex : leaves ac_store (assertAdmission authentications clock n ex).
Proof. unfold assertAdmission. leaves. Qed.
#[local] Hint Resolve leaves_assert_store : leaves.
Lemma leaves_claim clock n : leaves ac_store (claimAdmission authentications clock n).
Proof. unfold claimAdmission. leaves. Qed.
#[local] Hint Resolve leaves_claim : leaves.
Lemma leaves_execute clock n b1 b2 : leaves ac_store (execute_begin authentications clock n b1 b2).
Proof. unfold execute_begin. cbv zeta. leaves. Qed.
Lemma leaves_admit_end i request outcome : leaves ac_store (admit_end i request outcome).
Proof.
  unfold admit_end, budgetExceeded, admissionUnavailable. cbv zeta. destruct outcome as [[]|]; leaves; apply leaves_denied; auto with leaves.
Qed.
Lemma leaves_finish_end n a o answer : leaves ac_store (finish_end n a o answer).
Proof. unfold finish_end, admissionUnavailable. leaves. Qed.

Lemma complete_store clock storeClock n o s : store_moves (ac_store s) (ac_store (complete_begin cfg authentications clock storeClock n o s).2).
Proof.
  pose proof (leaves_claim clock n s) as Hc. unfold complete_begin, mbind, M_bind, wp in *. destruct (claimAdmission authentications clock n s) as [[a|] s1]; [|by left].
  pose proof (finish_begin_store storeClock a o s1) as Hf. rewrite Hc in Hf. by destruct (finish_begin cfg storeClock a o s1) as [[] s2].
Qed.

Lemma release_store clock context counts s : store_moves (ac_store s) (ac_store (releaseTenantResources cfg authentications clock context counts s).2).
Proof.
  unfold releaseTenantResources. destruct (assertAuthenticationContext authentications context) as [a|]; [|by left]. unfold mbind, M_bind, lift.
  destruct (normalizeBoundedCounters "resourceCounts" counts) as [resources|]; [|by left]. cbv zeta.
  set (l := map _ _). unfold throw_if, guard. destruct (bool_decide (l = [])); [by left|]. right. exists (OpRelease clock (au_tenantId a) l). split; [done|].
  unfold attempt, on_store, zoom. cbn [quota_step]. destruct (release cfg clock (au_tenantId a) l (ac_store s)) as [[u|e] t]; [done|]. unfold admissionUnavailable. by destruct (String.eqb _ _).
Qed.

Lemma resume_store clock t w : store_moves (ac_store (wd_service w)) (ac_store (wd_service (resume cfg clock t w))) /\ wd_reserved (resume cfg clock t w) = wd_reserved w.
Proof.
  destruct t as [i request outcome|n a o answer|n a|n a o answer]; cbn [resume].
  - split; [left; apply leaves_state, leaves_admit_end|done].
  - split; [left; apply leaves_state, leaves_finish_end|done].
  - split; [by left|done].
  - pose proof (leaves_finish_end n a o answer (wd_service w)) as Hf. unfold wp in Hf. destruct (finish_end n a o answer (wd_service w)) as [[|] s]; [split; [by left|done]|].
    destruct o; [|split; [by left|done]]. pose proof (catch_execute_store clock n a (put_service s w)) as Hc. cbn [wd_service put_service] in Hc. rewrite Hf in Hc. split; [done|].
    unfold catch_execute, finish_claimed. destruct (still_claimed _ _).1 as [[]|]; [|done|done]. by destruct (finish_begin _ _ _ _ _) as [[] ?].
Qed.

(** ** What is granted in a window *)

(** The units that a key's reservations were granted in the window that starts at [W]. *)
Definition granted_in (k : string) (windowMs W : Z) (log : list Reservation) : Z :=
  sum_by (fun v => match rv_outcome v with
                   | Ok (Granted replayed _ _) => if window_of (rv_at v) windowMs =? W then admitted_units k (Some (rv_request v, replayed)) else 0
                   | _ => 0
                   end) log.

(** Only reservations of a class and a dimension were made under the key. *)
Definition bucket_of (c : QuotaClass) (d : RateDimension) (k : string) (log : list Reservation) : Prop :=
  forall v r, v ∈ log -> r ∈ qr_rateReservations (rv_request v) -> rate_key (qr_tenantId (rv_request v)) r = k ->
    rr_dimension r = value d /\ qr_quotaClass (rv_request v) = value c.

Section bucket.
Context (c : QuotaClass) (d : RateDimension) (k : string).
Let p := QUOTA_PROFILES c.
Let windowMs := pf_windowMs p.
Let L := pf_rate p d.

Record budget_inv (w : World) : Prop := {
  bi_rate : rate_inv k windowMs L (ac_store (wd_service w));
  bi_bound : forall W, granted_in k windowMs W (wd_reserved w) <= L;
  bi_counted : forall W, current windowMs (ac_store (wd_service w)) <= W -> granted_in k windowMs W (wd_reserved w) <= used_in k W (ac_store (wd_service w)) }.

(** A call of the store and what it granted. *)
Lemma budget_step op a q w w' : budget_inv w -> rate_policy k windowMs L op -> quota_step cfg op (ac_store (wd_service w)) = (a, q) ->
  ac_store (wd_service w') = q ->
  (forall W, granted_in k windowMs W (wd_reserved w') = granted_in k windowMs W (wd_reserved w) + if current windowMs q =? W then admitted_units k a else 0) ->
  budget_inv w'.
Proof.
  intros [Hr Hb Hc] Hp E Eq Hg. destruct (quota_step_effect cfg k windowMs L (profile_window c) (profile_rate c d) op _ _ _ Hr Hp E) as (Hr' & Ht & Hu).
  pose proof (current_mono windowMs (profile_window c) _ _ Ht) as Hm.
  assert (Hn : forall W, current windowMs q <= W -> granted_in k windowMs W (wd_reserved w') <= used_in k W q).
  { intros W HW. rewrite Hg. specialize (Hu W HW). specialize (Hc W). lia. }
  split; rewrite ?Eq; [done| |done]. intros W. destruct (Z.le_gt_cases (current windowMs q) W) as [HW|HW].
  - pose proof (used_bounds k windowMs L (profile_rate c d) q W Hr'). specialize (Hn W HW). lia.
  - rewrite Hg. destruct (Z.eqb_spec (current windowMs q) W); [lia|]. specialize (Hb W). lia.
Qed.

Lemma budget_moves w w' : budget_inv w -> store_moves (ac_store (wd_service w)) (ac_store (wd_service w')) -> wd_reserved w' = wd_reserved w -> budget_inv w'.
Proof.
  intros Hw [E|(op & Hop & E)] El; [destruct Hw as [H1 H2 H3]; split; by rewrite ?E, ?El|].
  destruct (quota_step cfg op (ac_store (wd_service w))) as [a q] eqn:Eq. assert (a = None) as -> by (destruct op; [done|by injection Eq as <- <-|by injection Eq as <- <-]).
  eapply (budget_step op None q w w'); [done|by destruct op|done|exact E|]. intros W. rewrite El. by destruct (_ =? _); cbn; lia.
Qed.

Lemma reserve_step clock request s : quota_step cfg (OpReserve clock request) s =
  (match (reserve cfg clock request s).1 with Ok (Granted replayed _ _) => Some (request, replayed) | _ => None end, (reserve cfg clock request s).2).
Proof. cbn [quota_step]. by destruct (reserve cfg clock request s) as [[[]|] ?]. Qed.

Lemma happens_budget e w : budget_inv w -> bucket_of c d k (wd_reserved (happens cfg authentications networks accounts e w)) ->
  budget_inv (happens cfg authentications networks accounts e w).
Proof.
  intros Hw. destruct e as [clock r|clock storeClock n o|clock n b1 b2|clock n ex|clock context counts|task clock|task clock|task clock]; cbn [happens].
  - destruct (surface_input _ _ _ r) as [i|] eqn:Ei; [|done]. apply surface_profile in Ei as [c' Ec]. pose proof (admit_begin_store clock i (wd_service w)) as Hb.
    destruct (admit_begin cfg clock i (wd_service w)) as [[[request outcome]|] s]; [|intros _; apply (budget_moves w); [done|by left|done]].
    destruct Hb as [(metrics & resources & ref & id & Hq) Hs]. pose proof (reserve_step clock request (ac_store (wd_service w))) as E. rewrite <- Hs in E. cbn [fst snd] in E.
    cbn [wd_reserved add_task log_reserved put_service]. intros Hk. eapply (budget_step _ _ _ w); [done| |exact E|done|].
    + intros r' Hin Hrk. destruct (Hk (MkReservation request outcome (qs_lastNow (ac_store s))) r') as [Hd Hc]; [apply elem_of_app; right; by apply list_elem_of_singleton|done|done|].
      cbn [rv_request] in Hc. rewrite Hq in Hin, Hc. cbn [quota_request qr_quotaClass] in Hc. apply (inj value) in Hc. rewrite Ec, profile_class in Hc. subst c'.
      destruct (request_policy _ _ _ _ _ _ _ Hin Hd) as [Ew El]. rewrite Ec in Ew, El. split; [done|by rewrite El].
    + intros W. unfold granted_in. cbn [wd_reserved add_task log_reserved put_service]. rewrite sum_by_app, sum_by_cons, sum_by_nil. cbn [rv_outcome rv_at rv_request]. fold (current windowMs (ac_store s)).
      destruct outcome as [[]|]; cbn; destruct (_ =? _); lia.
  - pose proof (complete_store clock storeClock n o (wd_service w)) as Hm. intros _. destruct (complete_begin _ _ _ _ _ _ _) as [[[a answer]|] s]; by apply (budget_moves w).
  - pose proof (leaves_execute clock n b1 b2 (wd_service w)) as Hm. unfold wp in Hm. intros _. destruct (execute_begin _ _ _ _ _ _) as [[a|] s]; by apply (budget_moves w); [|left|].
  - intros _. apply (budget_moves w); [done|left; apply leaves_state, leaves_assert_store|done].
  - intros _. apply (budget_moves w); [done|apply release_store|done].
  - intros _. destruct (wd_tasks w !! task) as [[]|]; try done. apply (budget_moves w); [done|apply (finish_claimed_store _ _ _ _ (drop_task task w))|].
    unfold finish_claimed. by destruct (finish_begin _ _ _ _ _) as [[] ?].
  - intros _. destruct (wd_tasks w !! task) as [[]|]; try done. apply (budget_moves w); [done|apply (catch_execute_store _ _ _ (drop_task task w))|].
    unfold catch_execute, finish_claimed. destruct (still_claimed _ _).1 as [[]|]; [|done|done]. by destruct (finish_begin _ _ _ _ _) as [[] ?].
  - intros _. destruct (wd_tasks w !! task) as [t|]; [|done]. destruct t; try done; (apply (budget_moves w); [done|apply (resume_store clock _ (drop_task task w))|apply (resume_store clock _ (drop_task task w))]).
Qed.

Lemma happens_log e w : exists l, wd_reserved (happens cfg authentications networks accounts e w) = wd_reserved w ++ l.
Proof.
  destruct e as [clock r|clock storeClock n o|clock n b1 b2|clock n ex|clock context counts|task clock|task clock|task clock]; cbn [happens].
  - destruct (surface_input _ _ _ r) as [i|]; [|exists []; by rewrite app_nil_r]. destruct (admit_begin _ _ _ _) as [[[request outcome]|] s]; [by eexists|exists []; by rewrite app_nil_r].
  - exists []. rewrite app_nil_r. by destruct (complete_begin _ _ _ _ _ _ _) as [[[]|] ?].
  - exists []. rewrite app_nil_r. by destruct (execute_begin _ _ _ _ _ _) as [[]?].
  - exists []. by rewrite app_nil_r.
  - exists []. by rewrite app_nil_r.
  - exists []. rewrite app_nil_r. destruct (wd_tasks w !! task) as [[]|]; try done. unfold finish_claimed. by destruct (finish_begin _ _ _ _ _) as [[] ?].
  - exists []. rewrite app_nil_r. destruct (wd_tasks w !! task) as [[]|]; try done.
    unfold catch_execute, finish_claimed. destruct (still_claimed _ _).1 as [[]|]; [|done|done]. by destruct (finish_begin _ _ _ _ _) as [[] ?].
  - exists []. rewrite app_nil_r. destruct (wd_tasks w !! task) as [t|]; [|done]. destruct t; try done; apply (resume_store clock _ (drop_task task w)).
Qed.

Lemma live_budget events : bucket_of c d k (wd_reserved (live cfg authentications networks accounts events new_world)) ->
  budget_inv (live cfg authentications networks accounts events new_world).
Proof.
  induction events as [|e events IH] using rev_ind; unfold live in *; [|rewrite foldl_app; cbn [foldl]].
  - intros _. split; [split; [constructor|done]|intros W; apply profile_rate|done].
  - intros Hk. apply happens_budget; [|done]. apply IH. destruct (happens_log e (foldl (fun w e => happens cfg authentications networks accounts e w) new_world events)) as [l El].
    intros v r Hv. apply Hk. rewrite El. apply elem_of_app. by left.
Qed.
End bucket.
End budget.

(** C18: the service enforces its policy.  Take a bucket of the quota store, a key that only reservations of one class
    of requests and of one dimension (an actor, a client, a tenant, an operation, the service, a network, an account)
    were made under.  However the service's calls interleave, whatever the clocks read and whatever faults strike, the
    reservations granted to the bucket in any one of the consecutive fixed windows of the class's length that the store
    counts by (aligned to multiples of the length, not sliding) add up to no more than the limit that the
    policy's profile of the class gives the dimension. *)
Theorem policy_limits_enforced `{Platform} (cfg : QuotaConfig) authentications networks accounts (events : list Event) (c : QuotaClass)
    (d : RateDimension) (k : string) (W : Z) :
  let w := live cfg authentications networks accounts events new_world in
  bucket_of c d k (wd_reserved w) -> granted_in k (pf_windowMs (QUOTA_PROFILES c)) W (wd_reserved w) <= pf_rate (QUOTA_PROFILES c) d.
Proof. intros w Hk. by apply (bi_bound c d k w), live_budget. Qed.
