(* ===== verification/Identity.v ===== *)
(** * Identities

    src/modules/identity/src/identity-service.js, with the constructors of principals,
    subjects, wallet accounts and account bindings of src/packages/domain/src/models.js.
    The verifier of account bindings is given to the service from outside. *)

From stdpp Require Import base tactics sets relations gmap numbers strings list.
From S2P Require Import Prelude Js Enums EventStore Service Trading.
Local Open Scope string_scope.
Local Open Scope Z_scope.

(** ** Enumerations *)

Inductive PrincipalType :=
  | PrincipalType_HUMAN_SELF | PrincipalType_DEVELOPER | PrincipalType_COMPANY | PrincipalType_ORIGINATOR | PrincipalType_EMPLOYER
  | PrincipalType_PLATFORM.
#[export] Instance Enum_PrincipalType : Enum PrincipalType := {|
  value x := match x with
    | PrincipalType_HUMAN_SELF => "human_self"
    | PrincipalType_DEVELOPER => "developer"
    | PrincipalType_COMPANY => "company"
    | PrincipalType_ORIGINATOR => "originator"
    | PrincipalType_EMPLOYER => "employer"
    | PrincipalType_PLATFORM => "platform"
    end;
  enum_values := [PrincipalType_HUMAN_SELF; PrincipalType_DEVELOPER; PrincipalType_COMPANY; PrincipalType_ORIGINATOR; PrincipalType_EMPLOYER;
    PrincipalType_PLATFORM] |}.
#[export] Instance EnumLaws_PrincipalType : EnumLaws PrincipalType.
Proof. enum_laws. Qed.

Inductive AccountPurpose :=
  | AccountPurpose_PRIMARY | AccountPurpose_REVENUE | AccountPurpose_REPAYMENT | AccountPurpose_TREASURY | AccountPurpose_EXECUTION.
#[export] Instance Enum_AccountPurpose : Enum AccountPurpose := {|
  value x := match x with
    | AccountPurpose_PRIMARY => "primary"
    | AccountPurpose_REVENUE => "revenue"
    | AccountPurpose_REPAYMENT => "repayment"
    | AccountPurpose_TREASURY => "treasury"
    | AccountPurpose_EXECUTION => "execution"
    end;
  enum_values := [AccountPurpose_PRIMARY; AccountPurpose_REVENUE; AccountPurpose_REPAYMENT; AccountPurpose_TREASURY; AccountPurpose_EXECUTION] |}.
#[export] Instance EnumLaws_AccountPurpose : EnumLaws AccountPurpose.
Proof. enum_laws. Qed.

Inductive AccountBindingStatus := AccountBindingStatus_ACTIVE | AccountBindingStatus_REVOKED | AccountBindingStatus_COMPROMISED.
#[export] Instance Enum_AccountBindingStatus : Enum AccountBindingStatus := {|
  value x := match x with
    | AccountBindingStatus_ACTIVE => "active"
    | AccountBindingStatus_REVOKED => "revoked"
    | AccountBindingStatus_COMPROMISED => "compromised"
    end;
  enum_values := [AccountBindingStatus_ACTIVE; AccountBindingStatus_REVOKED; AccountBindingStatus_COMPROMISED] |}.
#[export] Instance EnumLaws_AccountBindingStatus : EnumLaws AccountBindingStatus.
Proof. enum_laws. Qed.

(** ** Data *)

Record Principal := MkPrincipal {
  pr_principalId : string; pr_principalHash : string; pr_principalType : string; pr_legalEntityRef : option string; pr_jurisdiction : string;
  pr_linkedSubjectIds : list string; pr_status : PrincipalStatus; pr_createdAt : string }.

Record Subject := MkSubject {
  sb_subjectId : string; sb_subjectHash : string; sb_subjectType : string; sb_displayName : string; sb_primaryPrincipalId : string;
  sb_linkedAccountIds : list string; sb_status : SubjectStatus; sb_metadataRef : option string; sb_prototypeOnly : bool;
  sb_createdAt : string; sb_updatedAt : string }.

Record WalletAccount := MkWalletAccount {
  wa_accountId : string; wa_accountHash : string; wa_purpose : string; wa_verifiedAt : string; wa_verificationMethod : string }.

Record AccountBinding := MkAccountBinding {
  bd_accountBindingId : string; bd_subjectId : string; bd_accountHash : string; bd_accountIdRef : string; bd_chainId : string;
  bd_purpose : string; bd_signatureHash : string; bd_nonce : string; bd_status : AccountBindingStatus; bd_boundAt : string }.

(** The fields of the service. *)
Record Identities := MkIdentities {
  principals : jsmap Principal; subjects : jsmap Subject; accountBindings : jsmap AccountBinding; accountHashToSubject : jsmap string }.
Definition empty_identities : Identities := MkIdentities [] [] [] [].

(** What is checked of an account binding. *)
Record BindAccount := MkBindAccount {
  ba_subjectId : string; ba_accountId : string; ba_signature : string; ba_nonce : string; ba_purpose : option string }.

(** What the constructor of the service is given. *)
Record IdentityConfig := MkIdentityConfig {
  ic_accountBindingVerifier : option (BindAccount -> result bool); ic_allowUnverifiedDemoBindings : bool }.

(** The argument of [createPrincipal], with the fields the service does not read. *)
Record NewPrincipal := MkNewPrincipal {
  np_principalType : string; np_jurisdiction : option string; np_legalEntityRef : option string; np_now : option Z;
  np_other : list (string * json) }.
Definition principal_input (i : NewPrincipal) : json :=
  JObj ([("principalType", JStr (np_principalType i)); ("jurisdiction", opt_json (np_jurisdiction i)); ("legalEntityRef", opt_json (np_legalEntityRef i))] ++ np_other i)%list.

Record NewSubject := MkNewSubject {
  ns_subjectType : string; ns_primaryPrincipalId : string; ns_displayName : string; ns_metadataRef : option string; ns_prototypeOnly : bool;
  ns_metadata : option json; ns_now : option Z }.

Definition put_principal (p : Principal) (t : Identities) : Identities :=
  MkIdentities (map_set (pr_principalId p) p (principals t)) (subjects t) (accountBindings t) (accountHashToSubject t).
Definition put_subject (s : Subject) (t : Identities) : Identities :=
  MkIdentities (principals t) (map_set (sb_subjectId s) s (subjects t)) (accountBindings t) (accountHashToSubject t).
Definition put_binding (b : AccountBinding) (t : Identities) : Identities :=
  MkIdentities (principals t) (subjects t) (map_set (bd_accountBindingId b) b (accountBindings t))
    (map_set (bd_accountHash b) (bd_subjectId b) (accountHashToSubject t)).

Definition link_subject (subjectId : string) (p : Principal) : Principal :=
  MkPrincipal (pr_principalId p) (pr_principalHash p) (pr_principalType p) (pr_legalEntityRef p) (pr_jurisdiction p)
    (pr_linkedSubjectIds p ++ [subjectId])%list (pr_status p) (pr_createdAt p).
Definition link_account (bindingId : string) (s : Subject) : Subject :=
  MkSubject (sb_subjectId s) (sb_subjectHash s) (sb_subjectType s) (sb_displayName s) (sb_primaryPrincipalId s)
    (sb_linkedAccountIds s ++ [bindingId])%list (sb_status s) (sb_metadataRef s) (sb_prototypeOnly s) (sb_createdAt s) (sb_updatedAt s).
Definition with_subject_status (st : SubjectStatus) (updatedAt : string) (s : Subject) : Subject :=
  MkSubject (sb_subjectId s) (sb_subjectHash s) (sb_subjectType s) (sb_displayName s) (sb_primaryPrincipalId s) (sb_linkedAccountIds s) st
    (sb_metadataRef s) (sb_prototypeOnly s) (sb_createdAt s) updatedAt.

(** ** Operations *)

Section operations.
Context `{Platform} (cfg : IdentityConfig).

Definition createPrincipalHash (payload : json) : string := hashId "principal" payload.
Definition createSubjectHash (payload : json) : string := hashId "subject" payload.

(** [legalEntityRef ?? null] *)
Definition or_null (o : option string) : json := match o with Some s => JStr s | None => JNull end.

(** The constructors of models.js. *)
Definition newPrincipal (i : NewPrincipal) : M Sys Principal :=
  now ← default_now (np_now i);
  let jurisdiction := default "global" (np_jurisdiction i) in
  principalId ← createOperationalId "principal";
  mret (MkPrincipal principalId (createPrincipalHash (JObj [("principalType", JStr (np_principalType i)); ("jurisdiction", JStr jurisdiction);
      ("legalEntityRef", or_null (np_legalEntityRef i))])) (np_principalType i) (np_legalEntityRef i) jurisdiction [] PrincipalStatus_ACTIVE (toISOString now)).

Definition newSubject (i : NewSubject) : M Sys Subject :=
  now ← default_now (ns_now i);
  subjectId ← createOperationalId "subject";
  mret (MkSubject subjectId (createSubjectHash (JObj [("subjectType", JStr (ns_subjectType i)); ("primaryPrincipalId", JStr (ns_primaryPrincipalId i));
      ("displayName", JStr (ns_displayName i)); ("metadataRef", or_null (ns_metadataRef i))])) (ns_subjectType i) (ns_displayName i) (ns_primaryPrincipalId i)
    [] SubjectStatus_PENDING (ns_metadataRef i) (ns_prototypeOnly i) (toISOString now) (toISOString now)).

Definition createWalletAccount (accountId purpose verificationMethod : string) : M Sys WalletAccount :=
  now ← default_now None;
  mret (MkWalletAccount accountId (createAccountHash accountId) purpose (toISOString now) verificationMethod).

(** [accountId.split(":").slice(0, 2).join(":")] *)
Definition account_chain (accountId : string) : string := join ":" (take 2 (split_colon accountId)).
Definition createAccountBinding (subjectId : string) (account : WalletAccount) (signatureHash nonce : string) : M Sys AccountBinding :=
  now ← default_now None;
  accountBindingId ← createOperationalId "account_binding";
  mret (MkAccountBinding accountBindingId subjectId (wa_accountHash account) (wa_accountId account) (account_chain (wa_accountId account)) (wa_purpose account)
    signatureHash nonce AccountBindingStatus_ACTIVE (toISOString now)).

Definition createPrincipal (i : NewPrincipal) : M (Sys * Identities) Principal :=
  lift (assertEnumValue "principalType" (np_principalType i) (enumValues PrincipalType)) ;;
  lift (assertNoRawPiiReference (principal_input i)) ;;
  principal ← sys (newPrincipal i);
  update (put_principal principal) ;;
  sys (emit CreditEventType_PRINCIPAL_CREATED None None None
    (JObj [("principalId", JStr (pr_principalId principal)); ("principalHash", JStr (pr_principalHash principal))]) None) ;;
  mret principal.

Definition createSubject (i : NewSubject) : M (Sys * Identities) Subject :=
  lift (assertEnumValue "subjectType" (ns_subjectType i) (enumValues SubjectType)) ;;
  lift (assertNonEmptyString "displayName" (JStr (ns_displayName i))) ;;
  known ← own principals;
  match map_get (ns_primaryPrincipalId i) known with
  | None => throw "principal_not_active" "subject requires an active principal"
  | Some principal =>
      throw_if (negb (bool_decide (pr_status principal = PrincipalStatus_ACTIVE))) "principal_not_active" "subject requires an active principal" ;;
      throw_if (String.eqb (ns_subjectType i) (value SubjectType_HUMAN) && negb (ns_prototypeOnly i)) "human_production_lending_blocked"
        "Human subjects are prototype-only in MVP" ;;
      lift (assertNoRawPiiReference (default (JObj []) (ns_metadata i))) ;;
      subject ← sys (newSubject i);
      update (put_subject subject) ;;
      update (put_principal (link_subject (sb_subjectId subject) principal)) ;;
      sys (emit CreditEventType_SUBJECT_CREATED (Some (sb_subjectId subject)) None None
        (JObj [("subjectId", JStr (sb_subjectId subject)); ("subjectHash", JStr (sb_subjectHash subject));
               ("subjectType", JStr (sb_subjectType subject)); ("primaryPrincipalId", JStr (sb_primaryPrincipalId subject))]) None) ;;
      mret subject
  end.

Definition requireSubject (subjectId : string) : M (Sys * Identities) Subject :=
  known ← own subjects;
  some_or (map_get subjectId known) "subject_not_found" "subject not found".

(** [activateSubject] and [suspendSubject], which differ in the status and in the reason reported. *)
Definition set_subject_status (subjectId : string) (next : SubjectStatus) (reason : list (string * json)) : M (Sys * Identities) Subject :=
  subject ← requireSubject subjectId;
  lift (assertTransition "subject" SubjectTransitions (sb_status subject) next) ;;
  at_ ← sys new_Date;
  let changed := with_subject_status next (toISOString at_) subject in
  update (put_subject changed) ;;
  sys (emit CreditEventType_SUBJECT_STATUS_CHANGED (Some subjectId) None None
    (JObj ([("subjectId", JStr subjectId); ("previousStatus", JStr (value (sb_status subject))); ("newStatus", JStr (value next))] ++ reason)%list) None) ;;
  mret changed.
Definition activateSubject (subjectId : string) : M (Sys * Identities) Subject := set_subject_status subjectId SubjectStatus_ACTIVE [].
Definition suspendSubject (subjectId : string) (reason : option string) : M (Sys * Identities) Subject :=
  set_subject_status subjectId SubjectStatus_SUSPENDED [("reason", opt_json reason)].

(** How the binding is verified, or why it is refused. *)
Definition verification (i : BindAccount) : result string :=
  match ic_accountBindingVerifier cfg with
  | Some verifier =>
      verified ← verifier i;
      guard (negb verified) "account_binding_verification_failed" "account binding signature verification failed" ;;
      Ok "verified_signature"
  | None =>
      guard (negb (ic_allowUnverifiedDemoBindings cfg)) "account_binding_verifier_required"
        "account binding requires a configured verifier outside explicit demo mode" ;;
      Ok "demo_unverified"
  end.

Definition bindAccount (i : BindAccount) : M (Sys * Identities) AccountBinding :=
  let purpose := default (value AccountPurpose_PRIMARY) (ba_purpose i) in
  subject ← requireSubject (ba_subjectId i);
  throw_if (negb (bool_decide (sb_status subject = SubjectStatus_ACTIVE))) "subject_not_active" "only active subjects can bind accounts" ;;
  lift (assertCAIP10 (ba_accountId i)) ;;
  lift (assertNonEmptyString "signature" (JStr (ba_signature i))) ;;
  lift (assertNonEmptyString "nonce" (JStr (ba_nonce i))) ;;
  verificationMethod ← lift (verification (MkBindAccount (ba_subjectId i) (ba_accountId i) (ba_signature i) (ba_nonce i) (Some purpose)));
  account ← sys (createWalletAccount (ba_accountId i) purpose verificationMethod);
  bound ← own accountHashToSubject;
  throw_if (match map_get (wa_accountHash account) bound with Some _ => true | None => false end) "account_already_bound" "CAIP-10 account is already bound" ;;
  chainId ← lift (chainIdFromCAIP10 (ba_accountId i));
  let signatureHash := hashId "signature" (JObj [("signature", JStr (ba_signature i)); ("nonce", JStr (ba_nonce i)); ("chainId", JStr chainId)]) in
  binding ← sys (createAccountBinding (ba_subjectId i) account signatureHash (ba_nonce i));
  update (put_binding binding) ;;
  update (put_subject (link_account (bd_accountBindingId binding) subject)) ;;
  sys (emit CreditEventType_WALLET_BOUND (Some (ba_subjectId i)) None (Some (bd_chainId binding))
    (JObj [("subjectId", JStr (ba_subjectId i)); ("accountHash", JStr (bd_accountHash binding)); ("purpose", JStr purpose);
           ("signatureHash", JStr signatureHash); ("nonce", JStr (ba_nonce i)); ("verificationMethod", JStr verificationMethod)]) None) ;;
  mret binding.

Definition getSubject (subjectId : string) : M (Sys * Identities) Subject := requireSubject subjectId.
Definition getPrincipal (principalId : string) : M (Sys * Identities) Principal :=
  known ← own principals;
  some_or (map_get principalId known) "principal_not_found" "principal not found".
Definition listSubjects : M (Sys * Identities) (list Subject) := own (fun t => map_values (subjects t)).
End operations.
