(* ===== verification/IdentityProps.v ===== *)
(** * Identities: theorems

    However the service is called, an account belongs to one subject, a subject to one
    principal, and each lists exactly what belongs to it. *)

From stdpp Require Import base tactics sets relations gmap numbers strings list.
From S2P Require Import Prelude Js Enums EventStore Service Trading Identity.
Local Open Scope string_scope.
Local Open Scope Z_scope.
Local Open Scope list_scope.

(** ** Maps with values listed by an owner *)

Lemma values_set_fresh {V} k (v : V) m : map_get k m = None -> map_values (map_set k v m) = map_values m ++ [v].
Proof. intros Hk. rewrite (map_keys_set_fresh _ _ _ Hk). unfold map_values. by rewrite fmap_app. Qed.

(** What is listed does not change when a value is replaced by one that looks the same. *)
Lemma listed_set {V B} (f : V -> B) (p : V -> bool) k (v w : V) m : map_get k m = Some w -> f v = f w -> p v = p w ->
  map f (List.filter p (map_values (map_set k v m))) = map f (List.filter p (map_values m)).
Proof.
  unfold map_values. induction m as [|[j x] m IH]; cbn [map_get map_set]; [done|]. destruct (String.eqb k j).
  - intros [= ->] Hf Hp. rewrite !fmap_cons. cbn [snd List.filter]. rewrite Hp. destruct (p w); cbn [map]; by rewrite ?Hf.
  - intros Hg Hf Hp. rewrite !fmap_cons. cbn [snd List.filter]. specialize (IH Hg Hf Hp). destruct (p x); cbn [map]; by rewrite IH.
Qed.
Lemma listed_app {V B} (f : V -> B) (p : V -> bool) l (v : V) :
  map f (List.filter p (l ++ [v])) = map f (List.filter p l) ++ (if p v then [f v] else []).
Proof. rewrite List.filter_app, map_app. cbn [List.filter]. by destruct (p v). Qed.

Lemma NoDup_map_same {V B} (f : V -> B) l (v w : V) : NoDup (map f l) -> v ∈ l -> w ∈ l -> f v = f w -> v = w.
Proof.
  induction l as [|x l IH]; [by intros _ ?%not_elem_of_nil|]. cbn [map]. intros [Hx Hl]%NoDup_cons Hv Hw E.
  apply elem_of_cons in Hv as [->|Hv], Hw as [->|Hw]; [done| | |by apply IH].
  - destruct Hx. rewrite E. apply list_elem_of_fmap. by exists w.
  - destruct Hx. rewrite <- E. apply list_elem_of_fmap. by exists v.
Qed.

(** ** The invariant *)

Definition subjects_of (principalId : string) (t : Identities) : list string :=
  map sb_subjectId (List.filter (fun s => String.eqb (sb_primaryPrincipalId s) principalId) (map_values (subjects t))).
Definition bindings_of (subjectId : string) (t : Identities) : list string :=
  map bd_accountBindingId (List.filter (fun b => String.eqb (bd_subjectId b) subjectId) (map_values (accountBindings t))).

(** What an operation may change of a subject. *)
Record subject_evolves (s s' : Subject) : Prop := {
  se_id : sb_subjectId s' = sb_subjectId s;
  se_hash : sb_subjectHash s' = sb_subjectHash s;
  se_type : sb_subjectType s' = sb_subjectType s;
  se_principal : sb_primaryPrincipalId s' = sb_primaryPrincipalId s;
  se_prototype : sb_prototypeOnly s' = sb_prototypeOnly s;
  se_accounts : sb_linkedAccountIds s `prefix_of` sb_linkedAccountIds s';
  se_status : rtc (steps SubjectTransitions) (sb_status s) (sb_status s') }.

#[export] Instance subject_evolves_preorder : PreOrder subject_evolves.
Proof.
  split.
  - intros s. by split.
  - intros a b c [] []. split; try congruence; by etrans.
Qed.

Record identities_evolve (t t' : Identities) : Prop := {
  ie_subjects : forall id s, map_get id (subjects t) = Some s -> exists s', map_get id (subjects t') = Some s' /\ subject_evolves s s';
  ie_bindings : forall id b, map_get id (accountBindings t) = Some b -> map_get id (accountBindings t') = Some b }.

#[export] Instance identities_evolve_preorder : PreOrder identities_evolve.
Proof.
  split.
  - intros t. split; [|done]. intros id s Hs. by exists s.
  - intros a b c [S1 B1] [S2 B2]. split; [|auto]. intros id s Hs. destruct (S1 id s Hs) as (s1 & Hs1 & E1). destruct (S2 id s1 Hs1) as (s2 & Hs2 & E2).
    exists s2. split; [done|by etrans].
Qed.

Section identities.
Context `{PlatformLaws} (cfg : IdentityConfig).

Record subject_ok (t : Identities) (s : Subject) : Prop := {
  so_owner : map_get (sb_primaryPrincipalId s) (principals t) <> None;
  so_type : sb_subjectType s ∈ enumValues SubjectType;
  so_human : sb_subjectType s = value SubjectType_HUMAN -> sb_prototypeOnly s = true;
  so_accounts : sb_linkedAccountIds s = bindings_of (sb_subjectId s) t;
  so_pending : sb_status s = SubjectStatus_PENDING -> sb_linkedAccountIds s = [] }.

Record IdentityInv (n : nat) (t : Identities) : Prop := {
  ii_subject_keys : NoDup (map_keys (subjects t));
  ii_binding_keys : NoDup (map_keys (accountBindings t));
  ii_principals : forall id p, map_get id (principals t) = Some p ->
    pr_principalId p = id /\ minted "principal" n id /\ pr_status p = PrincipalStatus_ACTIVE /\ pr_linkedSubjectIds p = subjects_of id t;
  ii_subjects : forall id s, map_get id (subjects t) = Some s -> sb_subjectId s = id /\ minted "subject" n id /\ subject_ok t s;
  ii_bindings : forall id b, map_get id (accountBindings t) = Some b ->
    bd_accountBindingId b = id /\ minted "account_binding" n id /\ bd_accountHash b = createAccountHash (bd_accountIdRef b) /\
    map_get (bd_subjectId b) (subjects t) <> None;
  ii_bound : forall b, b ∈ map_values (accountBindings t) -> map_get (bd_accountHash b) (accountHashToSubject t) = Some (bd_subjectId b);
  ii_once : NoDup (map bd_accountHash (map_values (accountBindings t))) }.

Lemma IdentityInv_empty n : IdentityInv n empty_identities.
Proof. split; try done; try constructor. by intros b ?%not_elem_of_nil. Qed.

Lemma IdentityInv_mono n m t : (n <= m)%nat -> IdentityInv n t -> IdentityInv m t.
Proof.
  intros Hle [Hk1 Hk2 Hp Hs Hb Hh Ho]. split; [done|done| | | |done|done].
  - intros id p Hg. destruct (Hp id p Hg) as (? & ? & ? & ?). split_and!; try done. by eapply minted_mono.
  - intros id s Hg. destruct (Hs id s Hg) as (? & ? & ?). split_and!; try done. by eapply minted_mono.
  - intros id b Hg. destruct (Hb id b Hg) as (? & ? & ? & ?). split_and!; try done. by eapply minted_mono.
Qed.

Abbreviation keeps := (keeps IdentityInv identities_evolve).
Abbreviation kept := (kept IdentityInv identities_evolve).

Ltac unchanged := apply (kept_same _ _ IdentityInv_mono); [assumption|cbn [fst]; grows].

(** Nothing belongs to what is not there. *)
Lemma listed_none {V} (f : V -> string) (p : V -> bool) (m : jsmap V) : NoDup (map_keys m) -> (forall id v, map_get id m = Some v -> p v = false) ->
  map f (List.filter p (map_values m)) = [].
Proof.
  intros Hn Hp. enough (E : List.filter p (map_values m) = []) by by rewrite E. assert (Hf : forall v, v ∈ map_values m -> p v = false).
  { intros v ([id w] & -> & Hin)%list_elem_of_fmap. by eapply Hp, elem_map_get. }
  clear Hp. induction (map_values m) as [|v l IH]; [done|]. cbn [List.filter]. rewrite (Hf v (list_elem_of_here _ _)). apply IH. intros w Hw. apply Hf. by right.
Qed.
Lemma no_subjects n t id : IdentityInv n t -> map_get id (principals t) = None -> subjects_of id t = [].
Proof.
  intros Hi Hn. apply listed_none; [apply Hi|]. intros sid s Hs. apply String.eqb_neq. intros <-. apply (ii_subjects _ _ Hi) in Hs as (_ & _ & Hs). by apply (so_owner _ _ Hs).
Qed.
Lemma no_bindings n t id : IdentityInv n t -> map_get id (subjects t) = None -> bindings_of id t = [].
Proof.
  intros Hi Hn. apply listed_none; [apply Hi|]. intros bid b Hb. apply String.eqb_neq. intros <-. apply (ii_bindings _ _ Hi) in Hb as (_ & _ & _ & Hb). done.
Qed.

(** An identifier that has not been minted names nothing. *)
Lemma fresh_in {V} (m : jsmap V) prefix n : (forall id v, map_get id m = Some v -> minted prefix n id) -> map_get (id_of prefix n) m = None.
Proof. intros Hm. destruct (map_get (id_of prefix n) m) as [v|] eqn:E; [|done]. by apply Hm, minted_fresh in E. Qed.

(** ** Principals *)

Lemma IdentityInv_principal n t p : IdentityInv n t -> pr_principalId p = id_of "principal" n -> pr_status p = PrincipalStatus_ACTIVE -> pr_linkedSubjectIds p = [] ->
  IdentityInv (S n) (put_principal p t) /\ identities_evolve t (put_principal p t).
Proof.
  intros Hi Hid Hst Hl. assert (Hf : map_get (pr_principalId p) (principals t) = None) by (rewrite Hid; apply fresh_in; intros id q Hq; by apply (ii_principals _ _ Hi) in Hq as (_ & ? & _)).
  pose proof (IdentityInv_mono n (S n) t ltac:(lia) Hi) as Hi'. split; [|split; [|done]; intros id s Hs; by exists s]. split; try apply Hi'.
  - intros id q. cbn [put_principal principals]. rewrite map_get_set. case_decide as E; [|apply Hi']. intros [= <-].
    split_and!; [done|rewrite <- E, Hid; apply minted_new|done|]. rewrite Hl. symmetry. apply (no_subjects n t id Hi). by rewrite <- E.
  - intros id s Hs. destruct (ii_subjects _ _ Hi' _ _ Hs) as (? & ? & []). split_and!; [done|done|]. split; try done. cbn [put_principal principals].
    rewrite map_get_set. by case_decide.
Qed.

Lemma createPrincipal_keeps i : keeps (createPrincipal i).
Proof.
  intros y t Hi. unfold createPrincipal. do 2 (svc_step; svc_step; [unchanged|]). svc_step. unfold newPrincipal.
  svc_step. svc_step. apply wp_now. intros now y1 Hu1 Hg1. cbv beta. svc_step. svc_step. apply wp_new_id. intros y2 Hu2 Hg2. svc_step.
  assert (Hi1 : IdentityInv (uuids y1) t) by (eapply IdentityInv_mono; [|done]; by apply gr_uuids).
  match goal with |- context [put_principal ?p] => destruct (IdentityInv_principal _ t p Hi1 eq_refl eq_refl eq_refl) as [Hn He] end.
  rewrite <- Hu2 in Hn. svc_steps; (eapply kept_step; [apply IdentityInv_mono|done| | |done]; grows).
Qed.

(** ** Subjects *)

Lemma IdentityInv_subject n t s p : IdentityInv n t -> sb_subjectId s = id_of "subject" n ->
  map_get (sb_primaryPrincipalId s) (principals t) = Some p -> sb_subjectType s ∈ enumValues SubjectType ->
  (sb_subjectType s = value SubjectType_HUMAN -> sb_prototypeOnly s = true) -> sb_linkedAccountIds s = [] ->
  let t' := put_principal (link_subject (sb_subjectId s) p) (put_subject s t) in IdentityInv (S n) t' /\ identities_evolve t t'.
Proof.
  intros Hi Hid Hp Hty Hh Hl t'. assert (Hf : map_get (sb_subjectId s) (subjects t) = None) by (rewrite Hid; apply fresh_in; intros id q Hq; by apply (ii_subjects _ _ Hi) in Hq as (_ & ? & _)).
  destruct (ii_principals _ _ Hi _ _ Hp) as (Hpid & _ & Hpst & Hpl). pose proof (IdentityInv_mono n (S n) t ltac:(lia) Hi) as Hi'.
  assert (Hv : map_values (subjects t') = map_values (subjects t) ++ [s]) by (by apply values_set_fresh).
  assert (Hs : forall id, subjects_of id t' = subjects_of id t ++ (if String.eqb (sb_primaryPrincipalId s) id then [sb_subjectId s] else [])).
  { intros id. unfold subjects_of. rewrite Hv. exact (listed_app sb_subjectId (fun x => String.eqb (sb_primaryPrincipalId x) id) _ s). }
  assert (Hpr : forall id, map_get id (principals t') = if decide (sb_primaryPrincipalId s = id) then Some (link_subject (sb_subjectId s) p) else map_get id (principals t)).
  { intros id. cbn [t' put_principal principals link_subject pr_principalId]. rewrite map_get_set, Hpid. done. }
  assert (Hget : forall id x, map_get id (subjects t) = Some x -> map_get id (subjects t') = Some x).
  { intros id x Hx. cbn [t' put_principal put_subject subjects]. rewrite map_get_set_ne; [done|]. intros E. rewrite E in Hf. congruence. }
  split; [|split; [|done]; intros id x Hx; exists x; split; [by apply Hget|done]]. split; try apply Hi'.
  - apply map_set_NoDup, Hi.
  - intros id q. rewrite Hpr, Hs. case_decide as E.
    + intros [= <-]. subst id. cbn [link_subject pr_principalId pr_status pr_linkedSubjectIds]. rewrite String.eqb_refl, Hpl.
      split_and!; [done| |done|done]. eapply minted_mono; [|apply (ii_principals _ _ Hi _ _ Hp)]. lia.
    + intros Hq. rewrite (proj2 (String.eqb_neq _ _) E), app_nil_r. by apply Hi'.
  - intros id x. cbn [t' put_principal put_subject subjects]. rewrite map_get_set. case_decide as E.
    + intros [= <-]. split_and!; [done|rewrite <- E, Hid; apply minted_new|]. split; try done.
      * rewrite Hpr. by rewrite decide_True.
      * rewrite Hl. symmetry. apply (no_bindings n t _ Hi Hf).
    + intros Hx. destruct (ii_subjects _ _ Hi' _ _ Hx) as (? & ? & []). split_and!; [done|done|]. split; try done. rewrite Hpr. by case_decide.
  - intros id b Hb. destruct (ii_bindings _ _ Hi' _ _ Hb) as (? & ? & ? & Hne). split_and!; try done. destruct (map_get (bd_subjectId b) (subjects t)) as [x|] eqn:E; [|done]. by rewrite (Hget _ _ E).
Qed.

Lemma createSubject_keeps i : keeps (createSubject i).
Proof.
  intros y t Hi. unfold createSubject. apply wp_bind, wp_lift; [intros; unchanged|]. intros [] Hty%guard_Ok. apply bool_decide_eq_false in Hty.
  apply wp_bind, wp_lift; [intros; unchanged|]. intros _ _. apply wp_bind, wp_own. destruct (map_get (ns_primaryPrincipalId i) (principals t)) as [p|] eqn:Hp; [|apply wp_throw; unchanged].
  apply wp_bind, wp_throw_if; [intros; unchanged|]. intros _. apply wp_bind, wp_throw_if; [intros; unchanged|]. intros Hh.
  apply wp_bind, wp_lift; [intros; unchanged|]. intros _ _. svc_step. unfold newSubject.
  svc_step. svc_step. apply wp_now. intros now y1 Hu1 Hg1. cbv beta. svc_step. svc_step. apply wp_new_id. intros y2 Hu2 Hg2. svc_step.
  assert (Hi1 : IdentityInv (uuids y1) t) by (eapply IdentityInv_mono; [|done]; by apply gr_uuids).
  match goal with |- context [put_subject ?s] => destruct (IdentityInv_subject _ t s p Hi1) as [Hn He] end; try done.
  - apply dec_stable, Hty.
  - cbn [sb_subjectType sb_prototypeOnly]. intros E. rewrite E, String.eqb_refl in Hh. by apply negb_false_iff.
  - rewrite <- Hu2 in Hn. svc_steps; (eapply kept_step; [apply IdentityInv_mono|done| | |done]; grows).
Qed.

(** A subject replaced by one that it may become, with the accounts it is due. *)
Lemma IdentityInv_replace n t s s' : IdentityInv n t -> map_get (sb_subjectId s) (subjects t) = Some s -> subject_evolves s s' ->
  subject_ok (put_subject s' t) s' -> IdentityInv n (put_subject s' t) /\ identities_evolve t (put_subject s' t).
Proof.
  intros Hi Hg He Hok. pose proof (se_id _ _ He) as Eid. pose proof (se_principal _ _ He) as Epr.
  assert (Hget : forall id, map_get id (subjects (put_subject s' t)) = if decide (sb_subjectId s = id) then Some s' else map_get id (subjects t)).
  { intros id. cbn [put_subject subjects]. by rewrite map_get_set, Eid. }
  split; split; try apply Hi.
  - apply map_set_NoDup, Hi.
  - intros id p Hp. destruct (ii_principals _ _ Hi _ _ Hp) as (? & ? & ? & Hl). split_and!; try done. rewrite Hl. symmetry. unfold subjects_of. cbn [put_subject subjects].
    rewrite Eid. apply (listed_set sb_subjectId (fun x => String.eqb (sb_primaryPrincipalId x) id) _ s' s); [done|done|by rewrite Epr].
  - intros id x. rewrite Hget. case_decide as E; [|intros Hx; destruct (ii_subjects _ _ Hi _ _ Hx) as (? & ? & []); split_and!; [done|done|by split]].
    intros [= <-]. split_and!; [congruence| |done]. rewrite <- E. apply (ii_subjects _ _ Hi _ _ Hg).
  - intros id b Hb. destruct (ii_bindings _ _ Hi _ _ Hb) as (? & ? & ? & ?). split_and!; try done. rewrite Hget. by case_decide.
  - intros id x Hx. rewrite Hget. case_decide as E; [|by exists x]. exists s'. split; [done|]. rewrite <- E, Hg in Hx. by injection Hx as <-.
  - done.
Qed.

(** ** Statuses *)

Lemma set_subject_status_keeps id next reason : next <> SubjectStatus_PENDING -> keeps (set_subject_status id next reason).
Proof.
  intros Hnp y t Hi. unfold set_subject_status, requireSubject. apply wp_bind, wp_bind, wp_own. destruct (map_get id (subjects t)) as [s|] eqn:Hg; [|apply wp_throw; unchanged].
  apply wp_ret. apply wp_bind, wp_lift; [intros; unchanged|]. intros u Htr%assertTransition_Ok. apply wp_bind. apply (wp_now None). intros now y1 Hu1 Hg1. cbv beta zeta.
  destruct (ii_subjects _ _ Hi _ _ Hg) as (Hid & Hm & Hok). rewrite <- Hid in Hg.
  destruct (IdentityInv_replace (uuids y) t s (with_subject_status next (toISOString now) s) Hi Hg) as [Hn He].
  - split; try done. by apply rtc_once.
  - destruct Hok. split; try done. 
  - rewrite <- Hu1 in Hn. svc_steps; (eapply kept_step; [apply IdentityInv_mono|done| | |done]; grows).
Qed.

(** ** Accounts *)

Lemma bindings_put b t id : map_get (bd_accountBindingId b) (accountBindings t) = None ->
  bindings_of id (put_binding b t) = bindings_of id t ++ (if String.eqb (bd_subjectId b) id then [bd_accountBindingId b] else []).
Proof.
  intros Hf. unfold bindings_of. cbn [put_binding accountBindings]. rewrite values_set_fresh by done.
  exact (listed_app bd_accountBindingId (fun x => String.eqb (bd_subjectId x) id) _ b).
Qed.

Lemma IdentityInv_bind n t s b : IdentityInv n t -> map_get (sb_subjectId s) (subjects t) = Some s -> sb_status s <> SubjectStatus_PENDING ->
  bd_accountBindingId b = id_of "account_binding" n -> bd_subjectId b = sb_subjectId s -> bd_accountHash b = createAccountHash (bd_accountIdRef b) ->
  map_get (bd_accountHash b) (accountHashToSubject t) = None ->
  let t' := put_subject (link_account (bd_accountBindingId b) s) (put_binding b t) in IdentityInv (S n) t' /\ identities_evolve t t'.
Proof.
  intros Hi Hg Hst Hid Hsub Hash Hfree t'.
  assert (Hf : map_get (bd_accountBindingId b) (accountBindings t) = None) by (rewrite Hid; apply fresh_in; intros id q Hq; by apply (ii_bindings _ _ Hi) in Hq as (_ & ? & _)).
  assert (Hi' : IdentityInv (S n) t) by (eapply IdentityInv_mono; [|done]; lia). destruct (ii_subjects _ _ Hi' _ _ Hg) as (_ & Hm & Hok).
  assert (Hs : forall id, map_get id (subjects t') = if decide (sb_subjectId s = id) then Some (link_account (bd_accountBindingId b) s) else map_get id (subjects t)).
  { intros id. cbn [t' put_subject subjects link_account sb_subjectId put_binding]. by rewrite map_get_set. }
  assert (Hb : forall id, map_get id (accountBindings t') = if decide (bd_accountBindingId b = id) then Some b else map_get id (accountBindings t)).
  { intros id. cbn [t' put_subject accountBindings put_binding]. by rewrite map_get_set. }
  assert (Hv : map_values (accountBindings t') = map_values (accountBindings t) ++ [b]) by (by apply values_set_fresh).
  assert (Hl : forall id, bindings_of id t' = bindings_of id t ++ (if String.eqb (sb_subjectId s) id then [bd_accountBindingId b] else [])).
  { intros id. rewrite <- Hsub. by apply bindings_put. }
  split; split.
  - apply map_set_NoDup, Hi.
  - apply map_set_NoDup, Hi.
  - intros id p Hp. destruct (ii_principals _ _ Hi' _ _ Hp) as (? & ? & ? & El). split_and!; try done. rewrite El. symmetry. unfold subjects_of.
    exact (listed_set sb_subjectId (fun x => String.eqb (sb_primaryPrincipalId x) id) _ (link_account (bd_accountBindingId b) s) s (subjects t) Hg eq_refl eq_refl).
  - intros id x. rewrite Hs. case_decide as E.
    + intros [= <-]. subst id. destruct Hok as [? ? ? Ha _]. split_and!; [done|done|]. split; try done. cbn [link_account sb_linkedAccountIds sb_subjectId].
      rewrite Hl, String.eqb_refl, <- Ha. done.
    + intros Hx. destruct (ii_subjects _ _ Hi' _ _ Hx) as (Ex & ? & [? ? ? Ha ?]). split_and!; [done|done|]. split; try done.
      rewrite Hl, Ex, (proj2 (String.eqb_neq _ _) E), app_nil_r, <- Ex. exact Ha.
  - intros id c. rewrite Hb. case_decide as E.
    + intros [= <-]. split_and!; [done|rewrite <- E, Hid; apply minted_new|done|]. rewrite Hs, Hsub. by rewrite decide_True.
    + intros Hc. destruct (ii_bindings _ _ Hi' _ _ Hc) as (? & ? & ? & ?). split_and!; try done. rewrite Hs. by case_decide.
  - intros c. rewrite Hv. cbn [t' put_subject accountHashToSubject put_binding]. rewrite map_get_set. intros [Hc|Hc%list_elem_of_singleton]%elem_of_app; [|subst c; by rewrite decide_True].
    pose proof (ii_bound _ _ Hi _ Hc) as Hbc. case_decide as E; [|done]. rewrite E in Hfree. congruence.
  - rewrite Hv, map_app. apply NoDup_app. split; [apply Hi|]. split; [|apply NoDup_singleton]. intros h (c & -> & Hc)%list_elem_of_fmap Hin%list_elem_of_singleton.
    apply (ii_bound _ _ Hi) in Hc. rewrite Hin in Hc. congruence.
  - intros id x Hx. rewrite Hs. case_decide as E; [|by exists x]. subst id. rewrite Hg in Hx. injection Hx as <-. eexists. split; [done|]. split; try done. by eexists.
  - intros id c Hc. rewrite Hb. case_decide as E; [|done]. rewrite E in Hf. congruence.
Qed.

Lemma bindAccount_keeps i : keeps (bindAccount cfg i).
Proof.
  intros y t Hi. unfold bindAccount, requireSubject. cbv zeta. apply wp_bind, wp_bind, wp_own. destruct (map_get (ba_subjectId i) (subjects t)) as [s|] eqn:Hg; [|apply wp_throw; unchanged].
  apply wp_ret. apply wp_bind, wp_throw_if; [intros; unchanged|]. intros Hst%negb_false_iff%bool_decide_eq_true. do 4 (apply wp_bind, wp_lift; [intros; unchanged|intros ? _; cbv beta]).
  destruct (ii_subjects _ _ Hi _ _ Hg) as (Hid & _ & _). unfold createWalletAccount. svc_step. svc_step. svc_step. apply wp_now. intros n1 y1 Hu1 Hg1. cbv beta. svc_step.
  apply wp_bind, wp_own. apply wp_bind, wp_throw_if; [intros; unchanged|]. intros Hfree. apply wp_bind, wp_lift; [intros; unchanged|]. intros chain _.
  unfold createAccountBinding. svc_step. svc_step. svc_step. apply wp_now. intros n2 y2 Hu2 Hg2. cbv beta. svc_step. svc_step. apply wp_new_id. intros y3 Hu3 Hg3. svc_step.
  assert (Hi2 : IdentityInv (uuids y2) t) by (eapply IdentityInv_mono; [|done]; apply gr_uuids; grows).
  match goal with |- context [put_binding ?b] => destruct (IdentityInv_bind (uuids y2) t s b Hi2) as [Hn He] end; try done.
  - by rewrite Hid.
  - by rewrite Hst.
  - cbn [bd_accountHash wa_accountHash] in *. by destruct (map_get (createAccountHash (ba_accountId i)) (accountHashToSubject t)).
  - rewrite <- Hu3 in Hn. svc_steps; (eapply kept_step; [apply IdentityInv_mono|done| | |done]; grows).
Qed.

(** ** Executions *)

Inductive identity_call :=
| CallCreatePrincipal (i : NewPrincipal)
| CallCreateSubject (i : NewSubject)
| CallActivateSubject (subjectId : string)
| CallSuspendSubject (subjectId : string) (reason : option string)
| CallBindAccount (i : BindAccount).

Definition run_identity (c : identity_call) : M (Sys * Identities) unit :=
  match c with
  | CallCreatePrincipal i => createPrincipal i ;; mret ()
  | CallCreateSubject i => createSubject i ;; mret ()
  | CallActivateSubject id => activateSubject id ;; mret ()
  | CallSuspendSubject id reason => suspendSubject id reason ;; mret ()
  | CallBindAccount i => bindAccount cfg i ;; mret ()
  end.

Lemma run_identity_keeps c : keeps (run_identity c).
Proof.
  destruct c; (apply keeps_bind; [apply _| |intros ?; apply keeps_ret; [apply _|apply IdentityInv_mono]]);
    auto using createPrincipal_keeps, createSubject_keeps, bindAccount_keeps; by apply set_subject_status_keeps.
Qed.

(** C22: identities stay consistent.  After any sequence of calls from an empty service, whichever of them threw: no two
    bindings are of the same account; a subject's linked accounts are exactly its bindings and it has none before it
    was activated; a principal's linked subjects are exactly its subjects, and every subject's principal exists; a human
    subject is a prototype.  Whatever is called next, a binding never changes or moves to another subject, and a subject keeps
    its type, principal and hash while its status moves along the transition table. *)
Theorem identities_consistent cs y :
  let t := (exec run_identity cs (y, empty_identities)).2 in
  (forall i j b c, map_get i (accountBindings t) = Some b -> map_get j (accountBindings t) = Some c -> bd_accountIdRef b = bd_accountIdRef c -> i = j) /\
  (forall id s, map_get id (subjects t) = Some s ->
    sb_linkedAccountIds s = bindings_of id t /\ (sb_status s = SubjectStatus_PENDING -> sb_linkedAccountIds s = []) /\
    map_get (sb_primaryPrincipalId s) (principals t) <> None /\ (sb_subjectType s = value SubjectType_HUMAN -> sb_prototypeOnly s = true)) /\
  (forall id p, map_get id (principals t) = Some p -> pr_linkedSubjectIds p = subjects_of id t) /\
  forall more, identities_evolve t (exec run_identity more (exec run_identity cs (y, empty_identities))).2.
Proof.
  destruct (exec_kept _ _ IdentityInv_mono run_identity cs y empty_identities run_identity_keeps (IdentityInv_empty _)) as (Hi & _ & _).
  destruct (exec run_identity cs (y, empty_identities)) as [y1 t]. cbn [fst snd] in *. split_and!.
  - intros i j b c Hb Hc E. destruct (ii_bindings _ _ Hi _ _ Hb) as (Eb & _ & Hhb & _). destruct (ii_bindings _ _ Hi _ _ Hc) as (Ec & _ & Hhc & _).
    assert (b = c) as ->; [|congruence]. eapply (NoDup_map_same bd_accountHash); [apply (ii_once _ _ Hi)|by eapply map_get_value|by eapply map_get_value|congruence].
  - intros id s Hs. destruct (ii_subjects _ _ Hi _ _ Hs) as (<- & _ & []). done.
  - intros id p Hp. by destruct (ii_principals _ _ Hi _ _ Hp) as (_ & _ & _ & ?).
  - intros more. by destruct (exec_kept _ _ IdentityInv_mono run_identity more y1 t run_identity_keeps Hi) as (_ & _ & ?).
Qed.
End identities.
