(* ===== verification/Scenarios.v ===== *)
(** * A concrete platform and worked executions

    The platform laws are satisfiable, and each theorem about the services is
    applied to a run of the code on this platform. *)

From Stdlib Require Import Ascii.
From stdpp Require Import base tactics sets relations gmap numbers strings list.
From S2P Require Import Prelude Js Enums EventStore Service Ledger LedgerProps Obligation ObligationProps Lockbox LockboxProps Mandate MandateProps.
Local Open Scope string_scope.
Local Open Scope Z_scope.

(** ** The platform *)

(** A checksum in place of the digest. *)
Fixpoint checksum (h : Z) (s : string) : Z :=
  match s with EmptyString => h | String c s => checksum ((h * 31 + code c) mod 8191) s end.

Definition days_from_civil (y m d : Z) : Z :=
  let y := if m <=? 2 then y - 1 else y in
  let era := y / 400 in
  let yoe := y mod 400 in
  let doy := (153 * (if 2 <? m then m - 3 else m + 9) + 2) / 5 + d - 1 in
  era * 146097 + (yoe * 365 + yoe / 4 - yoe / 100 + doy) - 719468.

(** Reads [YYYY-MM-DDTHH:MM:SS.mmmZ], within the instants of the language. *)
Definition parse_iso (s : string) : option Z :=
  if (String.length s =? 24)%nat then
    let n i k := BigInt (String.substring i k s) in
    let t := days_from_civil (n 0%nat 4%nat) (n 5%nat 2%nat) (n 8%nat 2%nat) * day_ms +
             n 11%nat 2%nat * 3600000 + n 14%nat 2%nat * 60000 + n 17%nat 2%nat * 1000 + n 20%nat 3%nat in
    if (-8640000000000000 <=? t) && (t <=? 8640000000000000) then Some t else None
  else None.

#[export] Instance demo_platform : Platform := {|
  randomUUID n := toString (Z.of_nat n);
  clock n := 1700000000000 + 1000 * Z.of_nat n;
  sha3_256_hex s := toString (checksum 7 s);
  date_parse := parse_iso;
  localeCompare := String.compare |}.

Lemma all_chars_impl (f g : ascii -> bool) s :
  (forall c, f c = true -> g c = true) -> all_chars f s = true -> all_chars g s = true.
Proof.
  intros Hfg. induction s as [|c s IH]; [done|]. cbn. rewrite !andb_true_iff. intros [? ?]. auto.
Qed.

#[export] Instance demo_laws : PlatformLaws.
Proof.
  split.
  - intros n m E%(f_equal BigInt). cbn in E. rewrite !BigInt_toString in E by lia. lia.
  - intros n. cbn. rewrite toString_uint by lia. eapply all_chars_impl; [|apply string_of_uint_digits].
    intros c Hc. unfold is_uuid_char. by rewrite Hc.
Qed.

Definition y0 : Sys := MkSys 0 0 empty_store.

(** A result's value, for evaluation. *)
Definition get {A} (d : A) (r : result A) : A := match r with Ok a => a | Err _ => d end.

(** Runs a call that returns: the goal's [match] on its result is reduced to the
    branch of the returned value, with the run as the equation [E]. *)
Ltac run E :=
  lazymatch goal with
  | |- match ?r with _ => _ end =>
      let v := fresh "v" in let e := fresh "e" in let s := fresh "s" in
      destruct r as [[v|e] s] eqn:E;
      [|let K := fresh in assert (K : is_ok (fst r) = true) by (vm_compute; reflexivity); rewrite E in K; discriminate K]
  end.

(** ** The event store *)

Definition demo_event : CreditEvent :=
  MkCreditEvent "credit_event_0" CreditEventType_SPEND_REQUESTED (Some "subject_1") None None FinalityStatus_FINALIZED
    "0x1" (JObj [("spendRequestId", JStr "spend_request_1")]) "2024-01-01T00:00:00.000Z".

(** The theorem on an append that returns. *)
Lemma event_store_append_only_witness :
  match appendCreditEvent demo_event y0 with
  | (Ok _, s') => StoreInv (store s') /\ creditEvents (store s') = [demo_event]
  | (Err _, _) => False
  end.
Proof.
  run E. destruct (proj1 (event_store_append_only y0 StoreInv_empty) _ _ _ E) as (? & _ & ? & _). by split.
Defined.

(** ** The ledger *)

Definition demo_accounts : list ledger_call :=
  [CallOpenAccount (MkOpenAccount "system" "external_revenue" "USD" LedgerAccountType_EXTERNAL_REVENUE
     LedgerNormalSide_CREDIT None None);
   CallOpenAccount (MkOpenAccount "lockbox" "lockbox_1" "USD" LedgerAccountType_LOCKBOX_ASSET
     LedgerNormalSide_DEBIT None None)].
Definition demo_posting (key : string) (amount : Z) : PostTransaction :=
  MkPostTransaction key "capture" "USD"
    [MkEntryInput "ledger_account_0" LedgerEntryDirection_CREDIT (MBigInt amount);
     MkEntryInput "ledger_account_2" LedgerEntryDirection_DEBIT (MString (toString amount))]
    "lockbox" "lockbox_1" None (JObj []) None.

Lemma ledger_always_balanced_witness :
  let t := (exec run_ledger (demo_accounts ++ [CallPostTransaction (demo_posting "k1" 5)]) (y0, empty_ledger)).2 in
  ig_transactionCount (verifyIntegrity t) = 1 /\ ig_balanced (verifyIntegrity t) = true.
Proof.
  intros t. split; [vm_compute; reflexivity|]. unfold t.
  rewrite (proj1 (ledger_always_balanced (demo_accounts ++ [CallPostTransaction (demo_posting "k1" 5)]) y0)). done.
Defined.

Lemma posting_idempotent_witness :
  match postTransaction (demo_posting "k1" 5) (exec run_ledger demo_accounts (y0, empty_ledger)) with
  | (Ok (v, b), s1) => b = false /\ exists y',
      postTransaction (demo_posting "k1" 5) (exec run_ledger [CallPostTransaction (demo_posting "k2" 7)] s1) =
      (Ok (v, true), (y', (exec run_ledger [CallPostTransaction (demo_posting "k2" 7)] s1).2))
  | (Err _, _) => False
  end.
Proof.
  run E. destruct v as [v b]. split; [|exact (posting_idempotent _ _ _ _ _ _ _ E)].
  assert (K : snd (get (v, true) (fst (postTransaction (demo_posting "k1" 5) (exec run_ledger demo_accounts (y0, empty_ledger)))))
              = false) by (vm_compute; reflexivity). rewrite E in K. exact K.
Defined.

Lemma posting_moves_balances_witness :
  match postTransaction (demo_posting "k1" 5) (exec run_ledger demo_accounts (y0, empty_ledger)) with
  | (Ok (v, false), s1) => getAccountBalance s1.2 "ledger_account_2" = Ok 5
  | _ => False
  end.
Proof.
  run E. destruct v as [v [|]].
  - assert (K : snd (get (v, true) (fst (postTransaction (demo_posting "k1" 5) (exec run_ledger demo_accounts (y0, empty_ledger)))))
              = false) by (vm_compute; reflexivity). rewrite E in K. discriminate K.
  - rewrite (posting_moves_balances _ _ _ _ _ "ledger_account_2"
      (MkLedgerAccount "ledger_account_2" "0x7081" "lockbox" "lockbox_1" "USD" LedgerAccountType_LOCKBOX_ASSET
        LedgerNormalSide_DEBIT LedgerAccountStatus_ACTIVE "2023-11-14T22:13:22.000Z") 0 E); vm_compute; reflexivity.
Defined.

(** ** Obligations *)

Definition demo_obligation : CreateObligation :=
  MkCreateObligation (Some "subject_1") (Some "principal_1") (JStr "mandate_1") (Some "USD") (MString "100")
    "2024-06-01T00:00:00.000Z" None None (Some "nonce_1") None.
Definition demo_obligations : list obligation_call :=
  [CallCreateObligation demo_obligation; CallActivateObligation "obligation_0"; CallApplyRepayment "obligation_0" (MBigInt 30)].

Lemma obligations_conserved_witness :
  match map_get "obligation_0" (obligations (exec run_obligation demo_obligations (y0, empty_obligations)).2) with
  | Some o => ob_outstandingPrincipalMinor o = 70 /\ sound o /\ ob_repaidAmountMinor o = 30
  | None => False
  end.
Proof.
  destruct (map_get _ _) as [o|] eqn:E; [|vm_compute in E; discriminate E].
  destruct (obligations_conserved _ _ _ _ E) as (Hs & Hr & _).
  assert (K : option_map ob_outstandingPrincipalMinor
    (map_get "obligation_0" (obligations (exec run_obligation demo_obligations (y0, empty_obligations)).2)) = Some 70)
    by (vm_compute; reflexivity). rewrite E in K. injection K as K.
  split_and!; [done|done|]. rewrite Hr. vm_compute. reflexivity.
Defined.

Lemma applyRepayment_exact_witness :
  match applyRepayment "obligation_0" (MString "90") (exec run_obligation demo_obligations (y0, empty_obligations)) with
  | (Ok v, s') => rr_surplusMinor v = 20 /\ exists amount o,
      applies (uuids (exec run_obligation demo_obligations (y0, empty_obligations)).1)
        (exec run_obligation demo_obligations (y0, empty_obligations)).2 "obligation_0" amount o
        (rr_obligation v) (rr_repayment v) s'.2
  | (Err _, _) => False
  end.
Proof.
  run E. destruct (applyRepayment_exact _ _ _ _ _ _ E) as (amount & o & _ & Hap & _). split; [|exists amount, o; exact Hap].
  assert (K : match fst (applyRepayment "obligation_0" (MString "90") (exec run_obligation demo_obligations (y0, empty_obligations)))
    with Ok v => rr_surplusMinor v | Err _ => 0 end = 20) by (vm_compute; reflexivity). rewrite E in K. exact K.
Defined.

(** ** Lockboxes *)

Definition demo_lockboxes : list lockbox_call :=
  [CallCreateLockbox (Some "subject_1") "USD" "eip155:1:0xabc"; CallActivateLockbox "lockbox_0";
   CallCaptureRevenue "lockbox_0" (MString "50") "provider_sandbox" (Some "k1")].

Lemma lockbox_never_overdrawn_witness :
  match map_get "lockbox_0" (lockboxes (exec run_lockbox demo_lockboxes (y0, empty_lockboxes)).2) with
  | Some b => exists b' s', getLockbox "lockbox_0" (exec run_lockbox demo_lockboxes (y0, empty_lockboxes)) = (Ok b', s') /\
      0 <= lb_balanceMinor b'
  | None => False
  end.
Proof.
  destruct (map_get _ _) as [b|] eqn:E; [|vm_compute in E; discriminate E].
  destruct (lockbox_never_overdrawn _ _ _ _ E) as (b' & s' & spent & Hg & _ & _ & _ & _ & Hb).
  exists b', s'. split; [exact Hg|exact Hb].
Defined.

Lemma captureRevenue_exact_witness :
  match captureRevenue "lockbox_0" (MString "7") "provider_sandbox" None
          (exec run_lockbox demo_lockboxes (y0, empty_lockboxes)) with
  | (Ok b', s') => lb_balanceMinor b' = 57 /\ exists b, lb_balanceMinor b' = ledger_balance s'.2 b
  | (Err _, _) => False
  end.
Proof.
  run E. destruct (captureRevenue_exact _ _ _ _ _ _ _ _ E) as (b & amount & _ & _ & _ & Hb & _). split; [|exists b; exact Hb].
  assert (K : match fst (captureRevenue "lockbox_0" (MString "7") "provider_sandbox" None
          (exec run_lockbox demo_lockboxes (y0, empty_lockboxes)))
    with Ok v => lb_balanceMinor v | Err _ => 0 end = 57) by (vm_compute; reflexivity). rewrite E in K. exact K.
Defined.

Lemma reduceBalance_exact_witness :
  match reduceBalance "lockbox_0" (MString "20") "repayment" (Some "d1")
          (exec run_lockbox demo_lockboxes (y0, empty_lockboxes)) with
  | (Ok b', s') => lb_balanceMinor b' = 30 /\ exists b, lb_balanceMinor b' = ledger_balance s'.2 b
  | (Err _, _) => False
  end.
Proof.
  run E. destruct (reduceBalance_exact _ _ _ _ _ _ _ _ E) as (b & amount & _ & _ & _ & _ & Hb & _). split; [|exists b; exact Hb].
  assert (K : match fst (reduceBalance "lockbox_0" (MString "20") "repayment" (Some "d1")
          (exec run_lockbox demo_lockboxes (y0, empty_lockboxes)))
    with Ok v => lb_balanceMinor v | Err _ => 0 end = 30) by (vm_compute; reflexivity). rewrite E in K. exact K.
Defined.

(** ** Mandates *)

Definition demo_mandate : CreateMandate :=
  MkCreateMandate "principal_1" "subject_1" "nonce_1" "terms_1"
    ["request_credit"; "provider_spend"] ["provider_1"] ["model_api"] ["USD"] (MString "100") (MString "250") None None None.
Definition demo_authorize (amount : Z) : Authorize :=
  MkAuthorize "mandate_0" "subject_1" "provider_spend" (Some "provider_1") (Some "model_api") "USD"
    (Some (MBigInt amount)) true None.
Definition demo_mandates : list mandate_call :=
  [CallCreateMandate demo_mandate; CallActivateMandate "mandate_0" "system" None;
   CallReserveUtilization "spend_1" (demo_authorize 80);
   CallReleaseUtilization (MkReleaseUtilization "mandate_0" "spend_1" "release_1" (MBigInt 30) "partial" None)].

Lemma mandate_utilization_accounted_witness :
  match map_get "mandate_0" (mandates (exec run_mandate demo_mandates (y0, empty_mandates)).2) with
  | Some m => ma_utilizedMinor m = 50
  | None => False
  end.
Proof.
  destruct (map_get _ _) as [m|] eqn:E; [|vm_compute in E; discriminate E].
  destruct (proj1 (mandate_utilization_accounted demo_mandates y0) _ _ E) as [_ ->]. vm_compute. reflexivity.
Defined.

Lemma mandate_terms_fixed_witness :
  match map_get "mandate_0" (mandates (exec run_mandate demo_mandates (y0, empty_mandates)).2) with
  | Some m => exists m', map_get "mandate_0" (mandates (exec run_mandate
        [CallRevokeMandate "mandate_0" None "breach" None] (exec run_mandate demo_mandates (y0, empty_mandates))).2) = Some m' /\
      mandate_evolves m m'
  | None => False
  end.
Proof.
  destruct (map_get _ _) as [m|] eqn:E; [|vm_compute in E; discriminate E].
  destruct (mandate_terms_fixed _ _ _ _ [CallRevokeMandate "mandate_0" None "breach" None] E) as (m' & Hm & He & _).
  exists m'. split; [exact Hm|exact He].
Defined.

Lemma authorization_sound_witness :
  match assertAuthorized (demo_authorize 100) (exec run_mandate demo_mandates (y0, empty_mandates)) with
  | (Ok m, s') => exists now, authorized m (demo_authorize 100) now
  | (Err _, _) => False
  end.
Proof.
  run E. destruct (authorization_sound _ _ _ _ _ E) as (_ & _ & now & _ & Ha). exists now. exact Ha.
Defined.

Lemma reservation_idempotent_witness :
  match reserveUtilization "spend_2" (demo_authorize 100) (exec run_mandate demo_mandates (y0, empty_mandates)) with
  | (Ok v, s') => rv_replayed v = false /\ exists v' y',
      reserveUtilization "spend_2" (demo_authorize 100) (exec run_mandate [] s') = (Ok v', (y', s'.2)) /\ rv_replayed v' = true
  | (Err _, _) => False
  end.
Proof.
  run E. destruct (reservation_idempotent _ _ _ _ _ _ [] E) as (_ & v' & y' & Hr & Hv & _).
  split; [|exists v', y'; split; [exact Hr|exact Hv]].
  assert (K : match fst (reserveUtilization "spend_2" (demo_authorize 100) (exec run_mandate demo_mandates (y0, empty_mandates)))
    with Ok v => rv_replayed v | Err _ => true end = false) by (vm_compute; reflexivity). rewrite E in K. exact K.
Defined.
