(* ===== verification/CreditScenarios.v ===== *)
(** * Worked executions of the credit services

    The theorems about credit lines, spend policies and the repayment router,
    applied to runs of the code on the platform of Scenarios.v. *)

From Stdlib Require Import Ascii.
From stdpp Require Import base tactics sets relations gmap numbers strings list.
From S2P Require Import Prelude Js Enums EventStore Service Ledger Obligation ObligationProps Lockbox LockboxProps Mandate MandateProps Risk RiskProps Spend SpendProps SpendDays Router RouterProps Scenarios.
Local Open Scope string_scope.
Local Open Scope Z_scope.

(** ** Credit lines *)

Definition demo_inputs : RiskInputs :=
  MkRiskInputs (Some LockboxStatus_ACTIVE) (Some PrincipalStatus_ACTIVE) (Some 1) None None
    (Some (MString "400")) (Some (MString "200")) None None None.
Definition demo_risks : list risk_call :=
  [CallAuthorization (CallCreateMandate demo_mandate); CallAuthorization (CallActivateMandate "mandate_0" "system" None);
   CallRequestCreditLine "subject_1" "mandate_0" "USD" demo_inputs].
Abbreviation demo_risk := (exec run_risk demo_risks (y0, risk_start true 1000 3000 5000)).

(** ** Spend policies *)

Definition demo_spend_mandate : CreateMandate :=
  MkCreateMandate "principal_1" "subject_1" "nonce_1" "terms_1"
    ["request_credit"; "provider_spend"] ["provider_0"] ["model_api"] ["USD"] (MString "100") (MString "250") None None None.
Definition demo_spend_policy : CreateSpendPolicy :=
  MkCreateSpendPolicy "subject_1" "provider_0" "USD" (MString "60") (MString "80") (MString "70") "model_api" None.
Definition demo_spends : list spend_call :=
  [CallAllowProvider "models" "eip155:1:0xabc" "low" None; CallCreateSpendPolicy demo_spend_policy;
   CallSpendAuthorization (CallCreateMandate demo_spend_mandate);
   CallSpendAuthorization (CallActivateMandate "mandate_4" "system" None)].
Definition demo_spend (amount : string) : RequestSpend :=
  MkRequestSpend "mandate_4" "subject_1" "provider_0" "spend_policy_2" "USD" (MString amount) "model_api" (MString "1000").

(** ** The router *)

Definition demo_debt (nonce amount due : string) : CreateObligation :=
  MkCreateObligation (Some "subject_1") (Some "principal_1") (JStr "mandate_0") (Some "USD") (MString amount) due
    None None (Some nonce) None.
Definition demo_routes : list router_call :=
  (map CallRisk demo_risks ++
   [CallRisk (CallReserveLine "credit_line_5" (MString "100"));
    CallLockboxes (CallCreateLockbox (Some "subject_1") "USD" "eip155:1:0xabc");
    CallLockboxes (CallActivateLockbox "lockbox_9");
    CallLockboxes (CallCaptureRevenue "lockbox_9" (MString "100") "provider_sandbox" (Some "k1"));
    CallObligations (CallCreateObligation (demo_debt "n1" "60" "2024-06-01T00:00:00.000Z"));
    CallObligations (CallCreateObligation (demo_debt "n2" "40" "2024-05-01T00:00:00.000Z"));
    CallObligations (CallActivateObligation "obligation_23"); CallObligations (CallActivateObligation "obligation_25")])%list.
Abbreviation demo_router := (exec run_router demo_routes (y0, router_start true 1000 3000 5000)).
Definition demo_route (amount key : string) : ApplyRevenue :=
  MkApplyRevenue "lockbox_9" ["obligation_23"; "obligation_25"] (Some "credit_line_5") (MString amount) (Some key).

Lemma string_compare_trans a b c :
  String.compare a b <> Gt -> String.compare b c <> Gt -> String.compare a c <> Gt.
Proof.
  revert b c. induction a as [|x a IH]; intros [|z b] [|w c] H1 H2; try done. cbn in *.
  unfold Ascii.compare in *.
  destruct (N.compare_spec (N_of_ascii x) (N_of_ascii z)) as [E1|L1|L1]; [|  |done];
    destruct (N.compare_spec (N_of_ascii z) (N_of_ascii w)) as [E2|L2|L2]; try done;
    destruct (N.compare_spec (N_of_ascii x) (N_of_ascii w)) as [E3|L3|L3]; try done; try lia. by eapply IH.
Qed.

#[export] Instance demo_locale : LocaleLaws.
Proof.
  split; cbn.
  - intros a b. apply String.compare_antisym.
  - exact string_compare_trans.
Defined.

Lemma credit_lines_bounded_witness :
  match map_get "credit_line_5" (creditLines demo_risk.2) with
  | Some l => 0 <= cl_utilizedMinor l <= cl_limitMinor l /\ exists l',
      map_get "credit_line_5" (creditLines (exec run_risk [CallCloseLine "credit_line_5" "admin" "end"] demo_risk).2) = Some l' /\
      line_evolves l l'
  | None => False
  end.
Proof.
  destruct (map_get "credit_line_5" (creditLines demo_risk.2)) as [l|] eqn:E; [|vm_compute in E; discriminate E].
  destruct (credit_lines_bounded demo_risks y0 true 1000 3000 5000 "credit_line_5" l [CallCloseLine "credit_line_5" "admin" "end"] E)
    as (Hb & _ & l' & Hl & He & _).
  split; [exact Hb|]. exists l'. split; [exact Hl|exact He].
Defined.

Lemma credit_granted_soundly_witness :
  match requestCreditLine "subject_1" "mandate_0" "USD" demo_inputs demo_risk with
  | (Ok (d, line), s') => rd_status d = CreditLineStatus_APPROVED /\ gates_open demo_inputs
  | (Err _, _) => False
  end.
Proof.
  run E. destruct v as [d line].
  assert (K : match fst (requestCreditLine "subject_1" "mandate_0" "USD" demo_inputs demo_risk) with
    | Ok v => bool_decide (rd_status v.1 = CreditLineStatus_APPROVED) | Err _ => false end = true) by (vm_compute; reflexivity).
  rewrite E in K. apply bool_decide_eq_true in K. split; [exact K|].
  destruct (credit_granted_soundly demo_risks y0 true 1000 3000 5000 "subject_1" "mandate_0" "USD" demo_inputs d line s E) as [Hd _].
  exact (proj1 (dc_approved _ _ _ _ _ _ _ _ Hd K)).
Defined.

Lemma utilization_exact_witness :
  match reserveUtilization "credit_line_5" (MString "30") demo_risk with
  | (Ok l', s') => exists l amount, cl_utilizedMinor l' = cl_utilizedMinor l + amount
  | (Err _, _) => False
  end.
Proof.
  run E.
  destruct (proj1 (utilization_exact demo_risks y0 true 1000 3000 5000 "credit_line_5" (MString "30") v s) E) as (l & amount & _ & _ & _ & _ & Hu & _).
  exists l, amount. exact Hu.
Defined.

Lemma spend_approved_soundly_witness :
  match requestSpend (demo_spend "50") (exec run_spend demo_spends (y0, spend_start true)) with
  | (Ok r, s') => sr_status r = SpendRequestStatus_APPROVED /\
      spend_decided (ticks (exec run_spend demo_spends (y0, spend_start true)).1) (ticks s'.1)
        (exec run_spend demo_spends (y0, spend_start true)).2 (demo_spend "50") r s'.2
  | (Err _, _) => False
  end.
Proof.
  run E. split; [|exact (spend_approved_soundly demo_spends y0 true (demo_spend "50") v s E)].
  assert (K : match fst (requestSpend (demo_spend "50") (exec run_spend demo_spends (y0, spend_start true))) with
    | Ok v => bool_decide (sr_status v = SpendRequestStatus_APPROVED) | Err _ => false end = true) by (vm_compute; reflexivity).
  rewrite E in K. apply bool_decide_eq_true in K. exact K.
Defined.

(** Two spends of the same day, of 50 and 20, and a third of 40 that the day's
    limit of 80 refuses. *)
Definition demo_day : list spend_call :=
  demo_spends ++ [CallRequestSpend (demo_spend "50"); CallRequestSpend (demo_spend "20"); CallRequestSpend (demo_spend "40")].

(** The readings of that day. *)
Lemma demo_days_pass : days_pass (ticks (exec run_spend demo_day (y0, spend_start true)).1).
Proof. apply same_day_passes. vm_compute. reflexivity. Qed.

Lemma spend_within_policy_witness :
  match map_get "spend_policy_2" (policies (exec run_spend demo_day (y0, spend_start true)).2) with
  | Some p => sp_dailySpentMinor p = 70 /\ sp_dailyLimitMinor p = 80 /\
      exists at_, spent_on at_ "spend_policy_2" (sp_dailySpentDate p) (exec run_spend demo_day (y0, spend_start true)).2 = 70
  | None => False
  end.
Proof.
  assert (K : option_map (fun p => (sp_dailySpentMinor p, sp_dailyLimitMinor p))
    (map_get "spend_policy_2" (policies (exec run_spend demo_day (y0, spend_start true)).2)) = Some (70, 80))
    by (vm_compute; reflexivity).
  destruct (map_get _ _) as [p|] eqn:E; [|discriminate K]. injection K as K1 K2. split; [exact K1|]. split; [exact K2|].
  destruct (spend_within_policy demo_day y0 true [] demo_days_pass) as ((at_ & _ & Hp) & _).
  exists at_. rewrite <- K1. symmetry. exact (proj1 (Hp _ _ E)).
Defined.

(** The obligation due first is paid in full, the other gets the rest. *)
Lemma revenue_routed_witness :
  match applyLockboxRevenue (demo_route "70" "r1") demo_router with
  | (Ok (v, b), s') => b = false /\ rt_appliedMinor v + rt_surplusMinor v = 70 /\ map re_amountMinor (rt_repayments v) = [40; 30]
  | (Err _, _) => False
  end.
Proof.
  run E. destruct v as [v b].
  assert (K : match fst (applyLockboxRevenue (demo_route "70" "r1") demo_router) with
    | Ok v => (v.2, map re_amountMinor (rt_repayments v.1)) | Err _ => (true, []) end = (false, [40; 30])) by (vm_compute; reflexivity).
  rewrite E in K. injection K as Kb Kr. cbn in Kb, Kr. split; [exact Kb|]. subst b.
  pose proof (revenue_routed demo_routes y0 true 1000 3000 5000 (demo_route "70" "r1") v false s E) as Hr.
  destruct (rd_flow _ _ _ _ Hr) as (amount & b & cs & Ha & _ & _ & _ & _ & _ & Hs & _ & _).
  vm_compute in Ha. injection Ha as <-. split; [exact Hs|exact Kr].
Defined.

Lemma routing_idempotent_witness :
  match applyLockboxRevenue (demo_route "70" "r1") demo_router with
  | (Ok (v, b), s') =>
      applyLockboxRevenue (demo_route "70" "r1") (exec run_router [CallApplyRevenue (demo_route "30" "r2")] s') =
      (Ok (v, true), exec run_router [CallApplyRevenue (demo_route "30" "r2")] s')
  | (Err _, _) => False
  end.
Proof.
  run E. destruct v as [v b].
  exact (routing_idempotent demo_routes y0 true 1000 3000 5000 (demo_route "70" "r1") "r1" v b s
    [CallApplyRevenue (demo_route "30" "r2")] eq_refl E).
Defined.

(** The two obligations before the route. *)
Definition demo_first : Obligation :=
  Eval vm_compute in match map_get "obligation_25" (obligations (obligationService demo_router.2)) with
                     | Some o => o | None => repaid_obligation 0 0 (MkObligation "" "" None None JNull None 0 0 0 None None "" ObligationStatus_CREATED "" "") end.
Definition demo_later : Obligation :=
  Eval vm_compute in match map_get "obligation_23" (obligations (obligationService demo_router.2)) with
                     | Some o => o | None => demo_first end.

Lemma demo_candidates o :
  o = demo_first \/ o = demo_later ->
  repayable (ob_status o) = true /\ exists id, id ∈ ar_obligationIds (demo_route "70" "r1") /\
    map_get id (obligations (obligationService demo_router.2)) = Some o.
Proof.
  intros [->| ->]; (split; [reflexivity|]).
  - exists "obligation_25". split; [right; left|vm_compute; reflexivity].
  - exists "obligation_23". split; [left|vm_compute; reflexivity].
Qed.

Lemma earliest_due_first_witness :
  match applyLockboxRevenue (demo_route "70" "r1") demo_router with
  | (Ok (v, b), s') => exists o',
      map_get "obligation_25" (obligations (obligationService s'.2)) = Some o' /\ ob_outstandingPrincipalMinor o' = 0
  | (Err _, _) => False
  end.
Proof.
  run E. destruct v as [v b].
  assert (K : match fst (applyLockboxRevenue (demo_route "70" "r1") demo_router) with
    | Ok v => (v.2, map re_obligationId (rt_repayments v.1)) | Err _ => (true, []) end =
      (false, ["obligation_25"; "obligation_23"])) by (vm_compute; reflexivity).
  rewrite E in K. injection K as Kb Kr. cbn in Kb, Kr. subst b.
  destruct (rt_repayments v) as [|r1 [|r2 [|]]] eqn:Er; try discriminate Kr. injection Kr as Kr1 Kr2.
  refine (earliest_due_first demo_routes y0 true 1000 3000 5000 (demo_route "70" "r1") v s demo_first demo_later r2 E _ _ _ Kr2).
  - exact demo_candidates.
  - vm_compute. reflexivity.
  - rewrite Er. right. left.
Defined.

(** What is owed in all, and the lockbox's balance on the ledger. *)
Definition owed (t : Router) : Z := sum_by ob_outstandingPrincipalMinor (map_values (obligations (obligationService t))).
Definition held (t : Router) : result Z :=
  match map_get "lockbox_9" (lockboxes (lockboxService t)) with
  | Some b => getAccountBalance (ledger (lockboxService t)) (lb_ledgerAccountId b)
  | None => fail "lockbox_not_found" "lockbox not found"
  end.

Definition failure {A} (r : result A) : option string := match r with Ok _ => None | Err e => Some (err_code e) end.

(** A route against a closed credit line fails after it has paid.  The
    router does not check the line's status before it repays, so the release is
    the first step to fail, with [credit_line_closed], when the obligations have
    been repaid and the lockbox debited; the route is not recorded, so asking for
    it again with the same key repays the obligations a second time while the
    ledger replays the first debit: here 100 of debt is repaid with 50. *)
Theorem closed_line_route_repays_twice :
  let s := exec run_router [CallRisk (CallCloseLine "credit_line_5" "admin" "end")] demo_router in
  let first := applyLockboxRevenue (demo_route "50" "r1") s in
  let second := applyLockboxRevenue (demo_route "50" "r1") first.2 in
  failure first.1 = Some "credit_line_closed" /\
  failure second.1 = Some "credit_line_closed" /\
  (owed s.2, owed first.2.2, owed second.2.2) = (100, 50, 0) /\
  (held s.2, held first.2.2, held second.2.2) = (Ok 100, Ok 50, Ok 50).
Proof. vm_compute. auto. Qed.
