(* ===== verification/LoanScenarios.v ===== *)
(** * Worked executions of sandbox loans

    The theorems about loans applied to runs of the code on the platform of
    Scenarios.v, and two runs that end where they should not. *)

From stdpp Require Import base tactics sets relations gmap numbers strings list.
From S2P Require Import Prelude Js Enums EventStore Service Ledger Mandate Loan Servicing SandboxCredit LoanProps ServicingProps LoanLedger RepaymentProps ScheduleProps LoanBook AcceptanceProps Scenarios.
Local Open Scope string_scope.
Local Open Scope Z_scope.

#[export] Instance demo_dates : DateLaws.
Proof.
  split. intros s t. unfold date_parse. cbn [demo_platform]. unfold parse_iso. destruct (String.length s =? 24)%nat; [|done].
  match goal with |- context [if ?b then _ else _] => destruct b eqn:E end; [|done]. intros [= <-].
  apply andb_true_iff in E as [E1 E2]. unfold valid_instant. lia.
Qed.

(** ** An offer *)

Definition demo_offer : CreditOffer :=
  MkCreditOffer "credit_offer.v1" "credit_offer_1" "0x1" "0x2" "credit_intent_1" "risk_decision_1" "subject_1" "USD"
    1000 3650 0 RepaymentFrequency_WEEKLY 2 "2024-01-08T00:00:00.000Z" "2024-01-15T00:00:00.000Z" "2024-01-01T00:00:00.000Z"
    ["sandbox_rules_v1_approved"] "urn:disclosure" CreditOfferStatus_ACCEPTED (Some "credit_offer_acceptance_1") None 0 0 true false.
Definition demo_intent : CreditIntent :=
  MkCreditIntent "credit_intent.v1" "credit_intent_1" "0x8" "subject_1" "principal_1" CreditAuthorityType_CONSENT "consent_1" "USD"
    1000 "working_capital" 14 RepaymentFrequency_WEEKLY 2 CreditIntentStatus_DECIDED true false 0 0.
Definition demo_decision : CreditDecision :=
  MkCreditDecision "risk_decision.v2" "risk_decision_1" "0x9" "credit_intent_1" "subject_1" "principal_1"
    CreditAuthorityType_CONSENT "consent_1" "USD" RiskDecisionStatus_APPROVED "credit-application-rules.v1" 1000 0
    "credit_application_evaluation" ["sandbox_rules_v1_approved"] true false 0 None None.
Definition demo_acceptance : Acceptance :=
  MkAcceptance "credit_offer_acceptance_1" "0x3" "credit_offer_1" "0x1" "0x2" "credit_intent_1" "risk_decision_1" "subject_1"
    "principal_1" CreditAuthorityType_CONSENT "consent_1" "0x4" "0x5" 1704060000000.

(** 2024-01-01 and the days after it. *)
Definition day (d : Z) : Z := 1704067200000 + d * DAY_MS.

Definition demo_loan : Loan :=
  ltac:(let v := eval vm_compute in (fst (createAcceptedOfferObligation demo_offer demo_intent demo_decision demo_acceptance (day 0) y0)) in
        match v with Ok ?o => exact o end).
Definition demo_sys : Sys :=
  ltac:(let v := eval vm_compute in (snd (createAcceptedOfferObligation demo_offer demo_intent demo_decision demo_acceptance (day 0) y0)) in
        exact v).

Lemma demo_created :
  createAcceptedOfferObligation demo_offer demo_intent demo_decision demo_acceptance (day 0) y0 = (Ok demo_loan, demo_sys).
Proof. vm_compute. reflexivity. Qed.

Definition demo_receipt : AdapterReceipt :=
  MkAdapterReceipt (JStr (tm_obligationId (ln_terms demo_loan))) (JStr "USD") (JStr "1000") (JBool true) (JBool false) (JBool false)
    (JStr "adapter_1") (JStr "v1") (JStr "key_1") (JStr "0x6") (JStr "0x7") "2024-01-01T00:00:00.000Z" None None None.

Lemma inj_of_NoDup {A B} (f : A -> B) l : (forall x, x ∈ l) -> NoDup (map f l) -> Inj (=) (=) f.
Proof.
  intros Hall Hnd x1 x2 E. destruct (proj1 (list_elem_of_lookup _ _) (Hall x1)) as [i Hi].
  destruct (proj1 (list_elem_of_lookup _ _) (Hall x2)) as [j Hj].
  assert (i = j) as ->; [|congruence]. apply (proj1 (NoDup_alt _) Hnd i j (f x1)); change (map f l) with (f <$> l);
    rewrite list_lookup_fmap; [by rewrite Hi|by rewrite Hj, E].
Qed.

(** The checksum tells the loan's accounts apart. *)
Lemma demo_distinct : accounts_distinct demo_loan.
Proof.
  apply (inj_of_NoDup _ enum_values); [apply enum_values_all|].
  apply (bool_decide_eq_true_1 (NoDup (map (account_id demo_loan) enum_values))). vm_compute. reflexivity.
Qed.

(** ** The witnesses *)

Lemma schedule_spreads_principal_witness :
  exists hash rows, createObligationSchedule "obligation_0" demo_offer = Ok (hash, rows) /\
    map in_scheduledPrincipalMinor rows = [500; 500] /\ schedule_good demo_offer (day 7) (day 14) rows.
Proof.
  assert (Hready : schedule_ready "obligation_0" demo_offer (day 7) (day 14)).
  { split; try (vm_compute; reflexivity); try done. intros _. by exists 7. }
  destruct (proj1 schedule_spreads_principal "obligation_0" demo_offer (day 7) (day 14) Hready) as (hash & rows & E).
  exists hash, rows. split; [done|]. split.
  - vm_compute in E. injection E as _ <-. reflexivity.
  - destruct (proj2 schedule_spreads_principal "obligation_0" demo_offer hash rows ltac:(done) E) as (f & m & Hf & Hm & G).
    vm_compute in Hf, Hm. injection Hf as <-. injection Hm as <-. exact G.
Defined.

(** A standing offer, accepted an hour before it expires. *)
Definition hash_of (c : string) : string := "0x" +:+ String.concat "" (repeat c 64).
Definition demo_standing : CreditOffer :=
  MkCreditOffer "credit_offer.v1" "credit_offer_1" (hash_of "a") (hash_of "b") "credit_intent_1" "risk_decision_1" "subject_1" "USD"
    1000 3650 0 RepaymentFrequency_WEEKLY 2 "2024-01-08T00:00:00.000Z" "2024-01-15T00:00:00.000Z" "2024-01-01T00:00:00.000Z"
    ["sandbox_rules_v1_approved"] "urn:disclosure" CreditOfferStatus_OFFERED None None 0 0 true false.

Lemma offer_accepted_once_witness :
  match acceptCreditOffer demo_standing (hash_of "a") (hash_of "b") "acceptance_1" (day 0 - 3600000) with
  | Ok offer => of_status offer = CreditOfferStatus_ACCEPTED /\
      is_ok (acceptCreditOffer offer (hash_of "a") (hash_of "b") "acceptance_2" (day 0 - 3600000)) = false
  | Err _ => False
  end.
Proof.
  destruct (acceptCreditOffer demo_standing (hash_of "a") (hash_of "b") "acceptance_1" (day 0 - 3600000)) as [offer|] eqn:E;
    [|vm_compute in E; discriminate].
  destruct (offer_accepted_once demo_standing (hash_of "a") (hash_of "b") "acceptance_1" (day 0 - 3600000) offer E)
    as (_ & _ & _ & _ & _ & _ & Ho & Hno).
  split; [rewrite Ho; reflexivity|apply Hno].
Defined.

Definition demo_resolution : Resolution := MkResolution "uncollectible" "actor_1" "proposal_1" "execution_1".

(** Executed, repaid in part, late, restructured, repurchased and written off. *)
Definition demo_ops : list (BookOp * Z) :=
  [(OpExecute (Some demo_receipt), day 0); (OpRepay (MString "300") "synthetic_wallet" "actor_1", day 5);
   (OpAdvance "worker_1", day 12); (OpRestructure 30 demo_resolution, day 13); (OpAdvance "worker_1", day 140);
   (OpRepurchase SandboxServicingOwner_ORIGINATOR demo_resolution, day 141); (OpWriteOff demo_resolution, day 142)].

Abbreviation demo_book := (fst (run_book (MkBook demo_loan [] []) demo_ops demo_sys)).

Lemma demo_times : Forall (fun x => time_ok (snd x)) demo_ops.
Proof. repeat constructor; vm_compute; discriminate. Qed.

Lemma demo_start : BookInv (MkBook demo_loan [] []).
Proof.
  pose proof (wp_createAcceptedOfferObligation demo_offer demo_intent demo_decision demo_acceptance (day 0) y0 ltac:(done) ltac:(done)) as Hw.
  unfold wp in Hw. rewrite demo_created in Hw. destruct Hw as (Hi & Hpen & Hst & _). split; cbn [bk_loan bk_postings bk_writeOffs]; try done.
  apply demo_distinct.
Qed.

(** The loan just executed. *)
Definition demo_executed : Loan :=
  ltac:(let v := eval vm_compute in (bk_loan (fst (run_book (MkBook demo_loan [] []) (firstn 1 demo_ops) demo_sys))) in exact v).

Lemma demo_executed_inv : LoanInv demo_executed.
Proof.
  assert (E : demo_executed = bk_loan (fst (run_book (MkBook demo_loan [] []) (firstn 1 demo_ops) demo_sys))) by (vm_compute; reflexivity).
  rewrite E. apply bi_loan, run_book_inv; [apply demo_start|]. repeat constructor; vm_compute; discriminate.
Qed.

(** Two days' interest and then three days' is five days'. *)
Lemma accrual_path_independent_witness :
  match accrueSimpleInterest demo_executed (day 2) with
  | Ok a1 => match accrueSimpleInterest (al_obligation a1) (day 5) with
    | Ok a2 => exists a, accrueSimpleInterest demo_executed (day 5) = Ok a /\ al_obligation a = al_obligation a2 /\
        al_accruedInterestMinor a = 5
    | Err _ => False
    end
  | Err _ => False
  end.
Proof.
  destruct (accrueSimpleInterest demo_executed (day 2)) as [a1|] eqn:E1; [|vm_compute in E1; discriminate].
  destruct (accrueSimpleInterest (al_obligation a1) (day 5)) as [a2|] eqn:E2;
    [|vm_compute in E1; injection E1 as <-; vm_compute in E2; discriminate].
  destruct (accrual_path_independent demo_executed (day 2) (day 5) a1 a2 ltac:(done) ltac:(done) ltac:(done) E1 E2 ltac:(done))
    as (a & Ha & Ho & _). exists a. split_and!; [done|done|]. vm_compute in Ha. injection Ha as <-. reflexivity.
Defined.

(** Five days after the first installment the loan is delinquent. *)
Lemma servicing_advances_witness :
  exists o' act, advanceSandboxServicing demo_executed "worker_1" (day 12) = Ok (o', act) /\
    sv_daysPastDue (ln_servicing o') = 5 /\ ln_status o' = ObligationStatus_DELINQUENT.
Proof.
  destruct (servicing_advances demo_executed "worker_1" (day 12) demo_executed_inv eq_refl ltac:(vm_compute; discriminate)
    ltac:(vm_compute; discriminate) ltac:(vm_compute; split; discriminate)
    ltac:(vm_compute; reflexivity)) as (o' & act & E & _ & _ & _ & Hd & _ & Hdel & _).
  exists o', act. split_and!; [exact E|rewrite Hd; vm_compute; reflexivity|]. apply Hdel. vm_compute. split; reflexivity.
Defined.

(** 300 paid on the fifth day: 5 of interest, 295 of principal. *)
Lemma repayment_applied_witness :
  exists r y', postSandboxRepayment demo_executed (MString "300") "synthetic_wallet" "actor_1" (day 5) demo_sys = (Ok r, y') /\
    lr_appliedMinor (ro_repayment r) = 300 /\ ln_interest (ro_obligation r) + ln_principal (ro_obligation r) + ln_fees (ro_obligation r) = 705.
Proof.
  assert (Hready : repay_ready demo_executed (MString "300") "synthetic_wallet" "actor_1" (day 5)).
  { split.
    - reflexivity.
    - reflexivity.
    - apply (bool_decide_eq_true_1 (_ ∈ repayableStatuses)). vm_compute. reflexivity.
    - exists 300. vm_compute. reflexivity.
    - apply (bool_decide_eq_true_1 (_ ∈ enumValues SandboxRepaymentSource)). vm_compute. reflexivity.
    - vm_compute. reflexivity.
    - exists (day 0). vm_compute. split; [reflexivity|discriminate].
    - intros a Ha. vm_compute in Ha. injection Ha as <-. vm_compute. split; reflexivity. }
  destruct (repayment_applied demo_executed (MString "300") "synthetic_wallet" "actor_1" (day 5) demo_sys demo_executed_inv
    ltac:(vm_compute; split; discriminate) Hready) as (r & a & requested & y' & E & Hq & R).
  exists r, y'. split; [exact E|]. assert (requested = 300) as -> by (vm_compute in Hq; by injection Hq as <-).
  pose proof (ry_accrual _ _ _ _ _ R) as Ha. vm_compute in Ha. injection Ha as <-.
  destruct (ry_applied _ _ _ _ _ R) as [_ Happ]. destruct (ry_balances _ _ _ _ _ R) as (B1 & B2 & B3). pose proof (ry_parts _ _ _ _ _ R) as Hp.
  split; [rewrite Happ; by vm_compute|]. rewrite B1, B2, B3. rewrite Happ in Hp. revert Hp. vm_compute (Z.min _ _).
  unfold ln_interest, ln_principal, ln_fees. cbn [al_obligation ln_balances bl_outstandingInterestMinor bl_outstandingPrincipalMinor bl_outstandingFeesMinor].
  lia.
Defined.

(** The whole life of a loan; what was owed in the end is in the loss account. *)
Lemma loan_book_reconciles_witness :
  length (bk_writeOffs demo_book) = 1%nat /\ ln_status (bk_loan demo_book) = ObligationStatus_WRITTEN_OFF /\
  net (account_id (bk_loan demo_book) LedgerAccountType_WRITE_OFF_LOSS) (book_lines demo_book) = 705.
Proof.
  pose proof (loan_book_reconciles demo_offer demo_intent demo_decision demo_acceptance (day 0) y0 demo_loan demo_sys demo_ops
    ltac:(done) ltac:(done) demo_created demo_distinct demo_times) as [_ Hb].
  assert (H1 : length (bk_writeOffs demo_book) = 1%nat) by (vm_compute; reflexivity).
  assert (H2 : ln_status (bk_loan demo_book) = ObligationStatus_WRITTEN_OFF) by (vm_compute; reflexivity).
  split; [exact H1|]. split; [exact H2|].
  destruct (bk_writeOffs demo_book) as [|w [|]] eqn:E; [discriminate H1| |discriminate H1].
  rewrite (Hb w LedgerAccountType_WRITE_OFF_LOSS eq_refl H2). vm_compute. reflexivity.
Defined.

(** ** Two runs that should not be possible *)

Definition demo_reopening : list (BookOp * Z) :=
  [(OpExecute (Some demo_receipt), day 0); (OpAdvance "worker_1", day 100); (OpWriteOff demo_resolution, day 100);
   (OpAdvance "worker_1", day 101); (OpWriteOff demo_resolution, day 102)].
Abbreviation book_after n := (fst (run_book (MkBook demo_loan [] []) (firstn n demo_reopening) demo_sys)).

(** [advanceSandboxServicing] does not look at the status of the loan, so a
    written-off loan that the servicing worker visits again becomes defaulted, and
    can then be written off a second time: the principal receivable of a loan of
    1000 ends at -1000, with a loss of 2000 in the loss account. *)
Theorem written_off_loan_reopened :
  ln_status (bk_loan (book_after 3)) = ObligationStatus_WRITTEN_OFF /\
  ln_status (bk_loan (book_after 4)) = ObligationStatus_DEFAULTED /\
  length (bk_writeOffs (book_after 5)) = 2%nat /\
  net (account_id demo_loan LedgerAccountType_PRINCIPAL_RECEIVABLE) (book_lines (book_after 5)) = -1000 /\
  net (account_id demo_loan LedgerAccountType_WRITE_OFF_LOSS) (book_lines (book_after 5)) = 2000.
Proof. vm_compute. repeat split. Qed.

(** The loan written off on the hundredth day, taken up again and written off again the next. *)
Definition demo_written_off : Loan := ltac:(let v := eval vm_compute in (bk_loan (book_after 3)) in exact v).


Definition demo_curing : list (BookOp * Z) :=
  [(OpExecute (Some demo_receipt), day 0); (OpAdvance "worker_1", day 12);
   (OpRepay (MString "514") "synthetic_wallet" "actor_1", day 14 + 43200000)].
Abbreviation cured_book := (fst (run_book (MkBook demo_loan [] []) demo_curing demo_sys)).

(** A loan counts as cured when no installment is a whole day late, although an
    unpaid one is past due: after a repayment of the first installment, twelve
    hours after the second was due, the loan is partially repaid and cured, and the
    servicing worker makes it delinquent at the very same instant. *)
Theorem cured_while_past_due :
  sv_servicingClassification (ln_servicing (bk_loan cured_book)) = ServicingClassification_CURED /\
  ln_status (bk_loan cured_book) = ObligationStatus_PARTIALLY_REPAID /\
  overdue (ln_installments (bk_loan cured_book)) (day 14 + 43200000) = true /\
  match advanceSandboxServicing (bk_loan cured_book) "worker_1" (day 14 + 43200000) with
  | Ok (o, _) => ln_status o = ObligationStatus_DELINQUENT
  | Err _ => False
  end.
Proof. vm_compute. repeat split. Qed.
