(* ===== verification/ApplicationScenarios.v ===== *)
(** * Worked applications for credit

    The theorems about applications applied to runs of the code, on a platform
    whose digests have the shape the code checks. *)

From Stdlib Require Import Ascii.
From stdpp Require Import base tactics sets relations gmap numbers strings list.
From S2P Require Import Prelude Js Enums EventStore Service Ledger Mandate Loan Servicing SandboxCredit LoanProps LoanLedger ScheduleProps LoanBook AcceptanceProps Application Decision DecisionProps Scenarios.
Local Open Scope string_scope.
Local Open Scope Z_scope.

(** ** A platform with digests of 64 hexadecimal digits *)

Definition hex_digit (z : Z) : string := if z =? 0 then "0" else if z =? 1 then "1" else if z =? 2 then "2" else "3".
Fixpoint hex_digits (n : nat) (z : Z) : string :=
  match n with O => "" | S n => hex_digit (z mod 4) +:+ hex_digits n (z / 4) end.

#[local] Instance hex_platform : Platform := {|
  randomUUID n := toString (Z.of_nat n);
  clock n := 1700000000000 + 1000 * Z.of_nat n;
  sha3_256_hex s := hex_digits 64 (checksum 7 s);
  date_parse := parse_iso;
  localeCompare := String.compare |}.

Lemma hex_digits_length n z : String.length (hex_digits n z) = n.
Proof.
  revert z. induction n as [|n IH]; intros z; [done|]. cbn [hex_digits]. rewrite length_append, IH.
  unfold hex_digit. by repeat case_match.
Qed.

Lemma hex_digits_chars f n z : f "0"%char = true -> f "1"%char = true -> f "2"%char = true -> f "3"%char = true -> all_chars f (hex_digits n z) = true.
Proof.
  intros H0 H1 H2 H3. revert z. induction n as [|n IH]; intros z; [done|]. cbn [hex_digits]. rewrite all_chars_append, IH.
  unfold hex_digit. repeat case_match; cbn; by rewrite ?H0, ?H1, ?H2, ?H3.
Qed.

Lemma substring_whole s : String.substring 0 (String.length s) s = s.
Proof. induction s as [|c s IH]; [done|]. cbn. by rewrite IH. Qed.

#[local] Instance hex_digests : DigestLaws.
Proof.
  split. intros s. unfold sha3_256_hex. cbn [hex_platform]. set (d := hex_digits 64 (checksum 7 s)).
  assert (Hl : String.length d = 64%nat) by apply hex_digits_length. unfold HASH_PATTERN. rewrite !andb_true_iff. split_and!.
  - clearbody d. by destruct d.
  - apply Nat.eqb_eq. rewrite length_append, Hl. done.
  - change (String.substring 2 64 ("0x" +:+ d)) with (String.substring 0 64 d). rewrite <- Hl, substring_whole. by apply hex_digits_chars.
Qed.

#[local] Instance hex_dates : DateLaws.
Proof.
  split. intros s t. unfold date_parse. cbn [hex_platform]. unfold parse_iso. destruct (String.length s =? 24)%nat; [|done].
  match goal with |- context [if ?b then _ else _] => destruct b eqn:E end; [|done]. intros [= <-].
  apply andb_true_iff in E as [E1 E2]. unfold valid_instant. lia.
Qed.

(** ** A person's application *)

(** 2024-01-01, and the time of the decision and of the acceptance. *)
Definition t_submitted : Z := 1704067200000.
Definition t_decided : Z := t_submitted + 60000.
Definition t_accepted : Z := t_decided + 3600000.

Definition demo_application : NewIntent :=
  MkNewIntent "subject_1" "principal_1" CreditAuthorityType_CONSENT "consent_1" "urn:ipo-one:sandbox-asset:usd-cent"
    (MString "100000") "working_capital" 20 RepaymentFrequency_WEEKLY 3.

Definition demo_hash : string := "0x" +:+ hex_digits 64 228.
Definition demo_source (role : string) : SourceEvidence :=
  MkSourceEvidence role role demo_hash demo_hash 1 "event_1" demo_hash "finalized".
Definition demo_sources : list SourceEvidence :=
  map demo_source ["authority"; "subject"; "credit_intent"; "human_identity_reference"; "principal"].
Definition demo_facts : EligibilityFacts := MkEligibilityFacts true false true true (Some true) None.
Definition demo_state : RiskState := MkRiskState 0 0 1 RISK_STATE_QUERY_VERSION demo_hash.

Lemma named_by_computation s :
  negb (all_chars is_space s) && (String.length s <=? MAX_DOMAIN_STRING_LENGTH)%nat = true -> named s.
Proof. intros [H1%negb_true_iff H2%Nat.leb_le]%andb_true_iff. by split. Qed.

Ltac is_named := apply named_by_computation; vm_compute; reflexivity.
Ltac is_read := split_and!; [vm_compute; split; discriminate|is_named|vm_compute; reflexivity].

Lemma demo_application_ok : application_ok demo_application 100000.
Proof. split; try (vm_compute; reflexivity); try done. split_and!; is_named. Qed.

Definition demo_ordered : list SourceEvidence :=
  Eval vm_compute in match normalizeSourceEvidence demo_sources with Ok l => l | Err _ => [] end.

Lemma demo_sources_ok : normalizeSourceEvidence demo_sources = Ok demo_ordered.
Proof. vm_compute. reflexivity. Qed.

Lemma demo_evidence_ok : evidence_ok CreditAuthorityType_CONSENT demo_facts (map se_role demo_ordered) demo_state.
Proof.
  split; try (vm_compute; reflexivity); try (intros _; apply (bool_decide_eq_true_1 _); vm_compute; reflexivity).
  vm_compute. intuition discriminate.
Qed.

Lemma application_becomes_loan_witness :
  match apply_and_accept demo_application demo_facts demo_sources demo_state demo_hash "actor_1" t_submitted t_decided t_accepted y0 with
  | (Ok (offer, loan), _) => of_status offer = CreditOfferStatus_ACCEPTED /\ ln_principal loan = 100000
  | (Err _, _) => False
  end.
Proof.
  pose proof (application_becomes_loan demo_application 100000 demo_facts demo_sources demo_ordered demo_state demo_hash "actor_1"
    t_submitted t_decided t_accepted y0 demo_application_ok demo_sources_ok demo_evidence_ok ltac:(split; vm_compute; try split; reflexivity)
    ltac:(vm_compute; reflexivity) ltac:(is_named)
    ltac:(vm_compute; split; [discriminate|reflexivity]) ltac:(intros [|[|[|k]]] Hk; [apply Nat.leb_le; vm_compute; reflexivity..|unfold y0 in Hk; cbn [uuids] in Hk; lia]) ltac:(is_read) ltac:(is_read) ltac:(is_read)) as K.
  destruct (apply_and_accept _ _ _ _ _ _ _ _ _ y0) as [[[offer loan]|] y']; [|done]. destruct K as (K1 & _ & _ & K2 & _). by split.
Defined.

(** ** Evaluations *)

Definition demo_application_intent : CreditIntent :=
  ltac:(let v := eval vm_compute in (fst (createCreditIntent demo_application t_submitted y0)) in match v with Ok ?i => exact i end).

Definition demo_snapshot : RiskFeatureSnapshot :=
  ltac:(let v := eval vm_compute in (createCreditApplicationRiskFeatureSnapshot demo_application_intent demo_facts demo_sources demo_state
          SANDBOX_CREDIT_DECISION_POLICY SANDBOX_CREDIT_POLICY_HASH t_decided) in match v with Ok ?s => exact s end).

Lemma demo_submitted : submitted demo_application_intent.
Proof.
  split; try (vm_compute; reflexivity); [done|split_and!; is_named|apply small_amount; vm_compute; split; [reflexivity|discriminate]].
Qed.

Lemma demo_within : within_policy demo_application_intent.
Proof. split; try (vm_compute; reflexivity); vm_compute; try split; discriminate. Qed.

Lemma credit_decision_decided_witness :
  match createDeterministicCreditDecisionOutcome demo_application_intent None false (Some demo_snapshot) t_decided y0 with
  | (Ok (decision, offer), _) => cd_status decision = RiskDecisionStatus_APPROVED /\ is_Some offer
  | (Err _, _) => False
  end.
Proof.
  pose proof (credit_decision_decided demo_application_intent None false (Some demo_snapshot) t_decided y0 demo_submitted
    ltac:(intros s [= <-]; split_and!; vm_compute; reflexivity) ltac:(intros _; split_and!; is_read)) as K.
  destruct (createDeterministicCreditDecisionOutcome _ _ _ _ _ y0) as [[[d o]|] y']; [|by destruct K as (? & ? & _)].
  assert (Hst : cd_status d = RiskDecisionStatus_APPROVED) by (apply (oc_approved _ _ _ _ _ _ K); split; [done|apply demo_within]).
  split; [done|]. destruct (oc_offer _ _ _ _ _ _ K Hst) as (_ & offer & E & _). cbn [snd] in E. rewrite E. by exists offer.
Defined.

Lemma approval_backed_by_evidence_witness :
  exists s, createCreditApplicationRiskFeatureSnapshot demo_application_intent demo_facts demo_sources demo_state
    SANDBOX_CREDIT_DECISION_POLICY SANDBOX_CREDIT_POLICY_HASH t_decided = Ok s /\ within_policy demo_application_intent /\
    NoDup (map se_role (sn_sourceEvidence s)).
Proof.
  exists demo_snapshot. assert (E : createCreditApplicationRiskFeatureSnapshot demo_application_intent demo_facts demo_sources demo_state
    SANDBOX_CREDIT_DECISION_POLICY SANDBOX_CREDIT_POLICY_HASH t_decided = Ok demo_snapshot) by (vm_compute; reflexivity).
  destruct (approval_backed_by_evidence demo_application_intent demo_facts demo_sources demo_state t_decided demo_snapshot E
    ltac:(vm_compute; reflexivity)) as (Hw & _ & _ & Hs & _).
  split; [exact E|]. split; [exact Hw|]. exact (so_unique _ _ Hs).
Defined.

(** The evaluation looks at the denial it is passed and at the policy, not at the
    features it records: three open adverse obligations and a frozen line do not
    stop it when no denial is passed, and the decision's reasons then say there is
    no adverse obligation. *)
Example approved_despite_adverse_features :
  match createEvidenceDerivedCreditDecisionOutcome demo_application_intent None false demo_facts demo_sources
          (MkRiskState 3 1 1 RISK_STATE_QUERY_VERSION demo_hash) t_decided y0 with
  | (Ok (decision, _), _) => cd_status decision = RiskDecisionStatus_APPROVED /\ "no_adverse_obligation" ∈ cd_reasons decision /\
      ft_allRequiredFeaturesSatisfied <$> (sn_features <$> cd_riskFeatureSnapshot decision) = Some false
  | (Err _, _) => False
  end.
Proof. vm_compute. split; [reflexivity|]. split; [|reflexivity]. repeat (first [left|right]). Qed.
