(* ===== verification/TradingScenarios.v ===== *)
(** * A worked trading facility

    The theorems about matching, desks and settlement applied to a run of the code:
    a request is matched and accepted by both sides, the facility is funded, activated,
    traded on and wound down.  A second desk uses its whole capital. *)

From Stdlib Require Import Ascii Sorted.
From stdpp Require Import base tactics sets relations gmap numbers strings list.
From S2P Require Import Prelude Js Enums EventStore Service Ledger Mandate Loan Servicing SandboxCredit LoanProps LoanLedger AcceptanceProps Application Decision DecisionProps RouterProps Trading Matching Facility Settlement FacilityProps Desk DeskProps SettlementProps MatchingProps Scenarios CreditScenarios ApplicationScenarios.
Local Open Scope string_scope.
Local Open Scope Z_scope.

#[local] Existing Instance hex_platform.
#[local] Existing Instance hex_digests.

#[local] Instance hex_laws : PlatformLaws.
Proof. split; [exact (@randomUUID_inj demo_platform demo_laws)|exact (@randomUUID_chars demo_platform demo_laws)]. Qed.
#[local] Instance hex_locale : LocaleLaws.
Proof. split; [exact (@locale_opp demo_platform demo_locale)|exact (@locale_trans demo_platform demo_locale)]. Qed.

(** The value of a run that returns. *)
Ltac returned m := let v := eval vm_compute in m in lazymatch v with (Ok ?a, _) => exact a | Ok ?a => exact a end.

(** ** The loan and the match *)

Definition minute (n : Z) : Z := t_accepted + n * 60000.

Definition trading_loan : Loan := ltac:(
  let v := eval vm_compute in (apply_and_accept demo_application demo_facts demo_sources demo_state demo_hash "actor_1" t_submitted t_decided t_accepted y0) in
  lazymatch v with (Ok (_, ?l), _) => exact l end).
Definition executed_loan : Loan :=
  MkLoan (ln_terms trading_loan) (ln_balances trading_loan) (ln_schedule trading_loan)
    (MkExecution ObligationExecutionStatus_EXECUTED (Some "receipt_1") (Some (minute 1)) (Some (minute 1)) (Some 0) (Some false))
    (ln_servicing trading_loan) ObligationStatus_ACTIVE (minute 1).

Definition demo_profile : TradingCreditProfile :=
  MkTradingCreditProfile "trading_credit_profile_1" TRADING_CREDIT_PROFILE_SCHEMA_VERSION "finalized" 3 true false false false (Some true)
    (Some false) (Some (repeat (MkFactor "factor" "adequate" false false) 5)) false demo_hash demo_hash "subject_1" "principal_1"
    SubjectType_HUMAN "human".

Definition demo_request : CapitalRequest := ltac:(returned (createTradingCapitalRequest demo_profile "actor_1"
  TradingCapitalTemplateType_CREDIT TradingStrategyClass_MARKET_NEUTRAL TRADING_SYNTHETIC_ASSET_ID "100000" 20 (minute 2) y0)).

Definition demo_new_mandate (provider : string) (template : TradingCapitalTemplateType) : NewMandate :=
  MkNewMandate (MkTradingProvider provider demo_hash "allowlisted" "provider.v1") "actor_2" [template]
    [SubjectType_HUMAN; SubjectType_AGENT] [TradingStrategyClass_MARKET_NEUTRAL] TRADING_SYNTHETIC_ASSET_ID "1000" "500000" 7 90.
Definition demo_provider_mandate : ProviderMandate :=
  ltac:(returned (createTradingProviderMandate (demo_new_mandate "provider_1" TradingCapitalTemplateType_CREDIT) (minute 2) y0)).
Definition other_mandate : ProviderMandate :=
  ltac:(returned (createTradingProviderMandate (demo_new_mandate "provider_2" TradingCapitalTemplateType_HYBRID) (minute 2) y0)).

Definition demo_proposed : MatchProposal := ltac:(returned (createTradingMatchProposal demo_request demo_provider_mandate
  (pm_mandateHash demo_provider_mandate) (cr_requestHash demo_request) (minute 3) y0)).
Definition demo_half : MatchProposal := ltac:(returned (acceptTradingMatchAsProvider demo_proposed demo_request demo_provider_mandate "actor_2"
  (mp_proposalHash demo_proposed) (tt_termsHash (mp_terms demo_proposed)) (minute 4) y0)).
Definition demo_proposal : MatchProposal := ltac:(returned (acceptTradingMatchAsSubject demo_half demo_request demo_provider_mandate "actor_1"
  (mp_proposalHash demo_half) (tt_termsHash (mp_terms demo_half)) (minute 5) y0)).

(** ** The desks *)

Definition demo_facility : Facility := ltac:(returned (createTradingFacility demo_proposal executed_loan "actor_1" (minute 6) y0)).
Definition desk_sys : Sys :=
  ltac:(let v := eval vm_compute in (snd (createTradingFacility demo_proposal executed_loan "actor_1" (minute 6) y0)) in exact v).

(** Operations, each made on the state it finds. *)
Definition ask (op : DeskOp * Z) (d : Desk) : Request :=
  MkRequest op.1 (fc_stateHash (dk_facility d)) (fc_version (dk_facility d)) op.2.
Definition play (s : Sys * Desk) (op : DeskOp * Z) : Sys * Desk :=
  match serve (ask op s.2) s.2 s.1 with (Ok d, y) => (y, d) | (Err _, y) => (y, s.2) end.

Lemma play_run ops s : desk_run s (foldl play s ops).
Proof.
  revert s. induction ops as [|op ops IH]; intros s; [by apply rtc_refl|]. cbn [foldl]. eapply rtc_l; [|apply IH].
  destruct s as [y d]. unfold play. cbn [fst snd]. destruct (serve (ask op d) d y) as [[d'|e] y'] eqn:E.
  - by eapply step_served.
  - by eapply step_refused.
Qed.

Definition started : list (DeskOp * Z) :=
  [(Fund "actor_2" "100000", minute 7); (Collateralize "actor_1" "10000", minute 8);
   (Activate demo_proposal executed_loan "actor_1", minute 9)].
Definition traded : list (DeskOp * Z) := started ++
  [(Submit "actor_1" TradingOrderDirection_LONG "30000", minute 10); (Submit "actor_1" TradingOrderDirection_SHORT "40000", minute 11);
   (Submit "actor_1" TradingOrderDirection_LONG "90000", minute 12); (Cancel "trading_order_intent_1" "actor_2" "" 1, minute 13);
   (Evaluate "guardian", minute 14); (Pause "guardian" "manual", minute 15)].
(** The whole capital in one order. *)
Definition exhausted : list (DeskOp * Z) := started ++
  [(Submit "actor_1" TradingOrderDirection_LONG "110000", minute 10); (Evaluate "guardian", minute 11)].

Definition start : Sys * Desk := (desk_sys, MkDesk demo_facility []).
Definition trading_desk : Sys * Desk := ltac:(let v := eval vm_compute in (foldl play start traded) in exact v).
Definition exhausted_desk : Sys * Desk := ltac:(let v := eval vm_compute in (foldl play start exhausted) in exact v).

Lemma play_reachable ops : reachable (foldl play start ops).1 (foldl play start ops).2.
Proof.
  exists demo_proposal, executed_loan, "actor_1", (minute 6), y0, desk_sys, demo_facility. split; [vm_compute; reflexivity|].
  rewrite <- surjective_pairing. apply play_run.
Qed.

Lemma trading_desk_reached : reachable trading_desk.1 trading_desk.2.
Proof. assert (foldl play start traded = trading_desk) as <- by (vm_compute; reflexivity). apply play_reachable. Qed.
Lemma exhausted_desk_reached : reachable exhausted_desk.1 exhausted_desk.2.
Proof. assert (foldl play start exhausted = exhausted_desk) as <- by (vm_compute; reflexivity). apply play_reachable. Qed.

(** One order was over the equity left, and a stranger could not cancel: two orders
    are open, and the pause left the facility in [REDUCE_ONLY]. *)
Example trading_desk_state :
  (fc_riskState (dk_facility trading_desk.2), fc_version (dk_facility trading_desk.2), map oi_syntheticNotionalMinor (open_orders (dk_orders trading_desk.2)))
  = (TradingFacilityRiskState_REDUCE_ONLY, 8, [30000; 40000]).
Proof. vm_compute. reflexivity. Qed.

Lemma desk_reconciles_witness :
  fc_syntheticExposureMinor (dk_facility trading_desk.2) = sum_by oi_syntheticNotionalMinor (open_orders (dk_orders trading_desk.2)) /\
  fc_syntheticEquityMinor (dk_facility trading_desk.2) = 40000.
Proof.
  destruct (desk_reconciles trading_desk.1 trading_desk.2 trading_desk_reached) as (_ & _ & _ & K & _). split; [exact K|vm_compute; reflexivity].
Defined.

(** Once paused, a smaller order is refused and the exposure stays. *)
Lemma protection_is_monotone_witness :
  fc_syntheticExposureMinor (dk_facility (foldl play trading_desk [(Submit "actor_1" TradingOrderDirection_LONG "1", minute 16)]).2) <= 70000.
Proof.
  set (more := [(Submit "actor_1" TradingOrderDirection_LONG "1", minute 16)]).
  pose proof (protection_is_monotone trading_desk.1 trading_desk.2 (foldl play trading_desk more).1 (foldl play trading_desk more).2
    trading_desk_reached ltac:(rewrite <- !surjective_pairing; apply play_run)) as (_ & K & _).
  assert (E : fc_syntheticExposureMinor (dk_facility trading_desk.2) = 70000) by (vm_compute; reflexivity).
  rewrite E in K. apply K. vm_compute. discriminate.
Defined.

(** A pause made on the state before the last pause. *)
Lemma stale_requests_refused_witness :
  match serve (ask (Pause "guardian" "manual", minute 16) trading_desk.2) trading_desk.2 trading_desk.1 with
  | (Ok d, y) => exists e y', serve (ask (Pause "guardian" "again", minute 17) trading_desk.2) d y = (Err e, y')
  | (Err _, _) => False
  end.
Proof.
  run E. refine (stale_requests_refused (ask (Pause "guardian" "manual", minute 16) trading_desk.2)
    (ask (Pause "guardian" "again", minute 17) trading_desk.2) trading_desk.1 trading_desk.2 _ _ _ _ trading_desk_reached E _ _).
  - apply rtc_refl.
  - apply Z.le_refl.
Defined.

Lemma reads_minute n : 0 <= n < 1000 -> date_parse (toISOString (minute n)) = Some (minute n) ->
  negb (all_chars is_space (toISOString (minute n))) && (String.length (toISOString (minute n)) <=? MAX_DOMAIN_STRING_LENGTH)%nat = true ->
  reads (minute n).
Proof.
  intros Hn Hd Hs. split_and!; [|by apply named_by_computation|done]. unfold valid_instant, minute, t_accepted, t_decided, t_submitted. lia.
Qed.

(** The desk of two open orders is wound down: both sides have their money back. *)
Lemma active_facility_settles_witness :
  match wind_down trading_desk.2 "guardian" "maturity" "actor_1" executed_loan (minute 20) (minute 21) (minute 22) trading_desk.1 with
  | (Ok (_, x), _) => st_subjectReturnMinor x = 10000 /\ st_providerPrincipalReturnMinor x = 100000
  | (Err _, _) => False
  end.
Proof.
  pose proof (active_facility_settles trading_desk.1 trading_desk.2 "guardian" "maturity" "actor_1" executed_loan (minute 20) (minute 21) (minute 22)
    trading_desk_reached ltac:(vm_compute; reflexivity) ltac:(vm_compute; reflexivity) ltac:(vm_compute; reflexivity)
    ltac:(vm_compute; reflexivity) ltac:(vm_compute; reflexivity) ltac:(vm_compute; reflexivity) ltac:(vm_compute; reflexivity)
    ltac:(vm_compute; reflexivity) ltac:(apply reads_minute; [lia|vm_compute; reflexivity|vm_compute; reflexivity])
    ltac:(apply reads_minute; [lia|vm_compute; reflexivity|vm_compute; reflexivity])
    ltac:(intros k Hk; assert (E : uuids trading_desk.1 = 4%nat) by (vm_compute; reflexivity); rewrite E in Hk;
          assert (k = 4%nat \/ k = 5%nat) as [-> | ->] by lia; apply Nat.leb_le; vm_compute; reflexivity)) as K.
  destruct (wind_down _ _ _ _ _ _ _ _ _) as [[[f x]|e] y]; [|done]. destruct K as (_ & _ & _ & K1 & K2 & _).
  split; [rewrite K1|rewrite K2]; vm_compute; reflexivity.
Defined.

(** The desk whose one order uses the whole capital, asked to flatten and to settle. *)
Definition after_verdict : list (DeskOp * Z) :=
  [(Flatten "guardian" "protective", minute 12); (Settle "guardian", minute 13)].
Lemma flatten_verdict_is_final_witness :
  fc_riskState (dk_facility exhausted_desk.2) = TradingFacilityRiskState_FLATTEN /\
  fc_lifecycleStatus (dk_facility (foldl play exhausted_desk after_verdict).2) = TradingFacilityLifecycleStatus_ACTIVE.
Proof.
  assert (E : fc_riskState (dk_facility exhausted_desk.2) = TradingFacilityRiskState_FLATTEN) by (vm_compute; reflexivity). split; [exact E|].
  exact (proj1 (flatten_verdict_is_final exhausted_desk.1 exhausted_desk.2 (foldl play exhausted_desk after_verdict).1
    (foldl play exhausted_desk after_verdict).2 exhausted_desk_reached ltac:(vm_compute; reflexivity) E
    ltac:(rewrite <- !surjective_pairing; apply play_run))).
Defined.

(** Of two mandates, the one that covers the template is matched. *)
Lemma matches_are_the_first_compatible_witness :
  match listCompatibleTradingProviderMandates demo_request [other_mandate; demo_provider_mandate] (minute 3) with
  | Ok res => map cm_rank (cl_matches res) = [1] /\ exists chosen left_out,
      (chosen ++ left_out)%list ≡ₚ filter (compatible demo_request (minute 3)) [other_mandate; demo_provider_mandate] /\
      StronglySorted not_after (chosen ++ left_out)
  | Err _ => False
  end.
Proof.
  destruct (listCompatibleTradingProviderMandates demo_request [other_mandate; demo_provider_mandate] (minute 3)) as [res|e] eqn:E;
    [|vm_compute in E; discriminate].
  destruct (matches_are_the_first_compatible demo_request [other_mandate; demo_provider_mandate] (minute 3) res E)
    as (chosen & left_out & K1 & _ & K2 & _).
  split; [vm_compute in E; injection E as <-; reflexivity|]. exists chosen, left_out. split; [exact K1|exact K2].
Defined.

Lemma accepts side p r m actor ph th now y p' : fst (acceptance side p r m actor ph th now y) = Ok p' -> proposal_step p p'.
Proof. destruct (acceptance side p r m actor ph th now y) as [res y'] eqn:E. cbn [fst]. intros ->. by eapply step_accepts. Qed.

Lemma bilateral_means_both_sides_witness :
  mp_status demo_proposal = TradingMatchProposalStatus_BILATERALLY_ACCEPTED /\
  exists a b, mp_providerAcceptance demo_proposal = Some a /\ mp_subjectAcceptance demo_proposal = Some b.
Proof.
  destruct (createTradingMatchProposal demo_request demo_provider_mandate (pm_mandateHash demo_provider_mandate) (cr_requestHash demo_request)
    (minute 3) y0) as [[p|e] y] eqn:E; [|vm_compute in E; discriminate].
  assert (Hp : p = demo_proposed) by (vm_compute in E; injection E as <- _; reflexivity). subst p.
  destruct (bilateral_means_both_sides demo_request demo_provider_mandate (pm_mandateHash demo_provider_mandate) (cr_requestHash demo_request)
    (minute 3) y0 demo_proposed y demo_proposal (minute 6) E) as (_ & _ & [K _] & _).
  - eapply rtc_l; [|apply rtc_once].
    + apply (accepts SideProvider _ demo_request demo_provider_mandate "actor_2" (mp_proposalHash demo_proposed)
        (tt_termsHash (mp_terms demo_proposed)) (minute 4) y0). vm_compute. reflexivity.
    + apply (accepts SideSubject _ demo_request demo_provider_mandate "actor_1" (mp_proposalHash demo_half)
        (tt_termsHash (mp_terms demo_half)) (minute 5) y0). vm_compute. reflexivity.
  - assert (Hs : mp_status demo_proposal = TradingMatchProposalStatus_BILATERALLY_ACCEPTED) by reflexivity.
    split; [exact Hs|]. destruct (K Hs) as (a & b & K1 & _ & K2 & _). exists a, b. split; [exact K1|exact K2].
Defined.
