(* ===== verification/QuotaScenarios.v ===== *)
(** * Request quotas: scenarios

    A store with two requests at its limits, and what follows when a resource is
    released while the request that reserved it is still running. *)

From stdpp Require Import base tactics sets relations gmap numbers strings list.
From S2P Require Import Prelude Js Enums EventStore Service Mandate Loan Servicing Trading Quota QuotaProps QuotaCapacity.
Local Open Scope string_scope.
Local Open Scope Z_scope.

Definition quota_cfg : QuotaConfig := MkQuotaConfig 20000 None.
Definition actor_hash : string := "0xaaaaaaaaaaaaaaaaaaaaaaaaaaaaaaaaaaaaaaaaaaaaaaaaaaaaaaaaaaaaaaaa".
Definition mandates_hash : string := "0xbbbbbbbbbbbbbbbbbbbbbbbbbbbbbbbbbbbbbbbbbbbbbbbbbbbbbbbbbbbbbbbb".
Definition rate_hash : string := "0xcccccccccccccccccccccccccccccccccccccccccccccccccccccccccccccccc".
Definition command_hash : string := "0xdddddddddddddddddddddddddddddddddddddddddddddddddddddddddddddddd".

(** A command that creates a mandate, with two requests a minute. *)
Definition mandate_request (id : string) : QuotaRequest :=
  MkQuotaRequest id "tenant_1" "pilotCreateDraftMandate" "mutation" "abuse_001.v1"
    [MkRateReservation rate_hash "actor" 60000 2 1 false "tenant"]
    [MkCapacityReservation actor_hash "concurrency_actor" 4 1 "always" false "tenant";
     MkCapacityReservation mandates_hash "mandates" 1000 1 "on_failure" true "tenant"]
    15000 None None None.

Definition rate_key_1 : string := "tenant_1" +:+ NUL +:+ rate_hash.
Definition mandates_key_1 : string := "tenant_1" +:+ NUL +:+ mandates_hash.

Definition quota_calls : list QuotaOp :=
  [OpReserve (Some 1000) (mandate_request "admission_1"); OpReserve (Some 2000) (mandate_request "admission_2");
   OpReserve (Some 3000) (mandate_request "admission_3"); OpFinish (Some 4000) "admission_1" "tenant_1" "succeeded";
   OpRelease (Some 5000) "tenant_1" [MkReleaseReservation mandates_hash "mandates" 1];
   OpReserve (Some 61000) (mandate_request "admission_4")].

Lemma rate_budget_respected_witness : admitted_in quota_cfg rate_key_1 60000 0 quota_calls empty_quotas = 2 /\
  admitted_in quota_cfg rate_key_1 60000 0 quota_calls empty_quotas <= 2.
Proof.
  split; [vm_compute; reflexivity|]. apply (rate_budget_respected quota_cfg rate_key_1 60000 2 0 quota_calls); [lia|lia|].
  assert (H : forall clock id, rate_policy rate_key_1 60000 2 (OpReserve clock (mandate_request id))).
  { intros clock id r Hr _. apply list_elem_of_singleton in Hr. subst r. cbn. lia. }
  repeat (apply Forall_cons; split; [first [exact I|apply H]|]). apply Forall_nil. exact I.
Defined.

Lemma capacity_conserved_witness : let s := run_quota quota_cfg quota_calls empty_quotas in
  (capacity_used mandates_key_1 s = 1 /\ held mandates_key_1 s = 1 /\ kept_over quota_cfg mandates_key_1 quota_calls empty_quotas = 0) /\
  exists s', cleanup 0 None s = (Ok (), s').
Proof.
  split; [vm_compute; done|]. apply (capacity_conserved quota_cfg quota_calls).
  split; [reflexivity|]. split; [reflexivity|]. split; [reflexivity|]. split; [exact I|]. split; [|split; [reflexivity|exact I]].
  intros r Hr. apply list_elem_of_singleton in Hr; subst r. vm_compute. discriminate.
Defined.

(** ** Releasing what a running request holds *)

(** The one admission is overdue, and the counts it would give back are gone. *)
Definition blocked (s : QuotaStore) : Prop := exists a r rest,
  qs_admissions s = [(qr_admissionId (am_request a), a)] /\ is_pending a = true /\ am_expiresAt a <= qs_lastNow s /\
  am_appliedCapacities a = r :: rest /\ ca_release r = "always" /\ HASH_PATTERN (ca_keyHash r) = true /\ qs_capacities s = [].

Lemma blocked_finishAdmission a r rest o now s : am_appliedCapacities a = r :: rest -> ca_release r = "always" ->
  HASH_PATTERN (ca_keyHash r) = true -> qs_capacities s = [] -> finishAdmission a o now s = (Err TypeError, s).
Proof.
  intros El Er Eh Ec. unfold finishAdmission. rewrite El. cbn [List.filter]. unfold gives_back at 1. rewrite Er. cbn [String.eqb orb Ascii.eqb Bool.eqb].
  cbn [decrement_all]. unfold decrementCapacity. rewrite capacityKey_Ok by done. unfold mbind, M_bind, lift, gets. rewrite Ec. reflexivity.
Qed.

Lemma blocked_cleanup now ex s : blocked s -> qs_lastNow s <= now -> wp (cleanup now ex)
  (fun _ s' => qs_admissions s' = qs_admissions s /\ qs_capacities s' = [] /\ qs_lastNow s' = qs_lastNow s /\
    exists a, qs_admissions s = [(qr_admissionId (am_request a), a)] /\ ex = Some (qr_admissionId (am_request a))) (fun _ s' => s' = s) s.
Proof.
  intros (a & r & rest & Ea & Hp & Hx & El & Er & Eh & Ec) Hnow. unfold cleanup. apply wp_bind, wp_gets. rewrite Ea. unfold map_values. rewrite fmap_cons, fmap_nil.
  cbn [snd expire_admissions]. apply wp_bind, wp_bind, wp_when.
  - intros _. unfold wp. rewrite (blocked_finishAdmission a r rest) by done. done.
  - unfold overdue. rewrite Hp, (proj2 (Z.leb_le _ _)) by lia. rewrite !andb_true_r. intros Hex%negb_false_iff%bool_decide_eq_true.
    apply wp_ret. apply wp_bind, wp_modify, wp_modify. cbn. split_and!; [done|done|done|]. by exists a.
Qed.

Lemma blocked_time s x : blocked s -> qs_lastNow s <= x -> blocked (set_lastNow x s).
Proof. intros (a & r & rest & Ea & Hp & Hx & H) Hle. exists a, r, rest. cbn. split_and!; [done|done|lia|apply H..]. Qed.

Lemma blocked_ext s s' : blocked s -> qs_admissions s' = qs_admissions s -> qs_capacities s' = [] -> qs_lastNow s' = qs_lastNow s -> blocked s'.
Proof. intros (a & r & rest & Ea & Hp & Hx & El & Er & Eh & _) E1 E2 E3. exists a, r, rest. rewrite E1, E3. done. Qed.

Definition fails {A} (m : M QuotaStore A) : Prop := forall s, blocked s -> wp m (fun _ _ => False) (fun _ s' => blocked s') s.

Lemma blocked_now {A} cfg stage clock (f : Z -> M QuotaStore A) :
  (forall s now, blocked s -> qs_lastNow s <= now -> wp (f now) (fun _ _ => False) (fun _ s' => blocked s') s) ->
  fails (fault cfg stage ;; now ← quota_now clock; f now).
Proof.
  intros Hf s Hs. unfold fault. apply wp_bind, wp_lift; [done|]. intros _ _. apply wp_bind, wp_quota_now; [done|]. intros t _.
  apply Hf; [apply blocked_time; [done|lia]|cbn; lia].
Qed.

Lemma blocked_reserve cfg clock request : fails (reserve cfg clock request).
Proof.
  apply blocked_now. intros s now Hs Hn. apply wp_bind. eapply wp_mono; [by apply (blocked_cleanup now None)| |intros e s' ->; exact Hs].
  intros _ s1 (_ & _ & _ & a & _ & ?). done.
Qed.

Lemma blocked_finish cfg clock id t o : fails (finish cfg clock id t o).
Proof.
  apply blocked_now. intros s now Hs Hn. apply wp_bind. eapply wp_mono; [by apply (blocked_cleanup now (Some id))| |intros e s' ->; exact Hs].
  intros _ s1 (E1 & E2 & E3 & a & Ea & [= ->]). cbv beta. assert (H1 : blocked s1) by (by apply (blocked_ext s)).
  destruct Hs as (a' & r & rest & Ea' & Hp & Hx & El & Er & Eh & _). rewrite Ea in Ea'. injection Ea' as _ <-.
  apply wp_bind, wp_lift; [done|]. intros _ _. apply wp_bind, wp_gets. rewrite E1, Ea. cbn [map_get]. rewrite String.eqb_refl.
  apply wp_bind, wp_throw_if; [done|]. intros _. rewrite Hp. cbn [negb]. unfold wp, mbind, M_bind. rewrite (blocked_finishAdmission a r rest) by done. done.
Qed.

Lemma blocked_release cfg clock t l : fails (release cfg clock t l).
Proof.
  apply (blocked_now cfg "release" clock (fun _ => lift (assertQuotaStoreRelease t l None) ;; check_releases t l ;; release_all t l)). intros s now Hs _.
  apply wp_bind, wp_lift; [done|]. intros u Hu. destruct (release_Ok _ _ _ _ Hu) as [Hok _]. destruct l as [|r l].
  - unfold assertQuotaStoreRelease in Hu. result_inv. done.
  - apply wp_bind. cbn [check_releases]. apply wp_bind, wp_lift; [done|]. intros key _. apply wp_bind, wp_gets.
    destruct Hs as (a & r' & rest & Ea & Hp & Hx & El & Er & Eh & Ec). rewrite Ec. cbn [map_get]. apply wp_bind, wp_throw_if; [|done].
    intros _. by exists a, r', rest.
Qed.

(** Whether a call returns. *)
Definition returns (cfg : QuotaConfig) (op : QuotaOp) (s : QuotaStore) : bool :=
  match op with
  | OpReserve clock request => match (reserve cfg clock request s).1 with Ok _ => true | Err _ => false end
  | OpFinish clock id t o => match (finish cfg clock id t o s).1 with Ok _ => true | Err _ => false end
  | OpRelease clock t l => match (release cfg clock t l s).1 with Ok _ => true | Err _ => false end
  end.
Fixpoint returned (cfg : QuotaConfig) (ops : list QuotaOp) (s : QuotaStore) : list bool :=
  match ops with [] => [] | op :: ops => returns cfg op s :: returned cfg ops (quota_step cfg op s).2 end.

Lemma blocked_step cfg op s : blocked s -> returns cfg op s = false /\ blocked (quota_step cfg op s).2.
Proof.
  intros Hs. destruct op as [clock request|clock id t o|clock t l]; cbn [returns quota_step].
  - pose proof (blocked_reserve cfg clock request s Hs) as H. unfold wp in H. by destruct (reserve cfg clock request s) as [[] ?].
  - pose proof (blocked_finish cfg clock id t o s Hs) as H. unfold wp in H. by destruct (finish cfg clock id t o s) as [[] ?].
  - pose proof (blocked_release cfg clock t l s Hs) as H. unfold wp in H. by destruct (release cfg clock t l s) as [[] ?].
Qed.

Lemma blocked_forever cfg ops s : blocked s -> Forall (fun b => b = false) (returned cfg ops s).
Proof.
  revert s. induction ops as [|op ops IH]; intros s Hs; cbn [returned]; [constructor|]. destruct (blocked_step cfg op s Hs) as [-> H]. constructor; [done|by apply IH].
Qed.

(** A mandate is created and released again before its request has been completed, and the lease of the request
    runs out. *)
Definition early_release : list QuotaOp :=
  [OpReserve (Some 1000) (mandate_request "admission_1");
   OpRelease (Some 2000) "tenant_1" [MkReleaseReservation mandates_hash "mandates" 1];
   OpReserve (Some 16000) (mandate_request "admission_2")].

(** C21: the store accepts the release of a resource that a running request holds, because it compares the units
    with the count and not with what was kept; when that request's lease runs out its units are no longer there to
    give back, and the store never works again.  After a reservation, such a release, and one later reservation,
    every call of the store - whatever its arguments, whichever tenant it serves, whenever it comes - fails. *)
Theorem early_release_blocks (ops : list QuotaOp) :
  returned quota_cfg early_release empty_quotas = [true; true; false] /\
  Forall (fun b => b = false) (returned quota_cfg ops (run_quota quota_cfg early_release empty_quotas)).
Proof.
  split; [vm_compute; reflexivity|]. apply blocked_forever.
  exists (MkAdmission (mandate_request "admission_1") Admission_PENDING 1000 16000 false (qr_capacityReservations (mandate_request "admission_1")) None None).
  eexists _, _. split; [vm_compute; reflexivity|]. split; [reflexivity|]. split; [vm_compute; discriminate|].
  split; [reflexivity|]. split; [reflexivity|]. split; [vm_compute; reflexivity|vm_compute; reflexivity].
Qed.
