(* ===== verification/AbuseScenarios.v ===== *)
(** * Request budgets: scenarios

    A tenant's actor exports an audit again and again: the policy lets six exports a
    minute through. *)

From stdpp Require Import base tactics sets relations gmap numbers strings list.
From S2P Require Import Prelude Js Enums EventStore Service Mandate Loan Servicing Trading Quota QuotaProps AbusePolicy AbuseControl AbuseProps AbuseBudget Scenarios ApplicationScenarios QuotaScenarios.
Local Open Scope string_scope.
Local Open Scope Z_scope.
Local Open Scope list_scope.

#[local] Existing Instance hex_platform.

Definition exporter : AuthenticationContext := MkAuthenticationContext "tenant_1" "actor_1" "client_1".

Definition export_request (n : nat) : TenantRequest :=
  MkTenantRequest 0 "pilotExportAudit" None (Some ("export_command_" +:+ toString (Z.of_nat n))) (fun _ => None) (fun _ => None) None false.

(** The n-th export is admitted and completed, a second after the one before. *)
Definition export_events (n : nat) : list Event :=
  let t := Some (1000 * Z.of_nat n) in
  [CallAdmit t (TenantSurface (export_request n)); Resume 0 None; CallExecute t n true false; HandlerReturns 0 t; Resume 0 None].
Definition exports : list Event := List.flat_map export_events (seq 0 8).

Definition exporter_key : string :=
  "tenant_1" +:+ NUL +:+ bucket "rate_bucket" QuotaClass_BATCH "actor" (actor_reference exporter).

(** Whether the key is that of a class and a dimension, computed. *)
Definition bucket_check (c : QuotaClass) (d : RateDimension) (k : string) (log : list Reservation) : bool :=
  forallb (fun v => forallb (fun r => negb (String.eqb (rate_key (qr_tenantId (rv_request v)) r) k) ||
    (String.eqb (rr_dimension r) (value d) && String.eqb (qr_quotaClass (rv_request v)) (value c))) (qr_rateReservations (rv_request v))) log.
Lemma bucket_checked c d k log : bucket_check c d k log = true -> bucket_of c d k log.
Proof.
  intros Hc v r Hv Hr Hk. apply list_elem_of_In in Hv, Hr. pose proof (proj1 (forallb_forall _ _) Hc v Hv) as Hc1. pose proof (proj1 (forallb_forall _ _) Hc1 r Hr) as Hc2. cbv beta in Hc2.
  apply orb_true_iff in Hc2 as [Hc2|[Hd%String.eqb_eq Hq%String.eqb_eq]%andb_true_iff]; [|done]. apply negb_true_iff, String.eqb_neq in Hc2. done.
Qed.

Definition exported : World := live quota_cfg [exporter] [] [] exports new_world.

Lemma policy_limits_enforced_witness : granted_in exporter_key MINUTE 0 (wd_reserved exported) = 6 /\
  granted_in exporter_key (pf_windowMs (QUOTA_PROFILES QuotaClass_BATCH)) 0 (wd_reserved exported) <= pf_rate (QUOTA_PROFILES QuotaClass_BATCH) RateDimension_actor.
Proof.
  split; [vm_compute; reflexivity|]. unfold exported. refine (policy_limits_enforced quota_cfg [exporter] [] [] exports QuotaClass_BATCH RateDimension_actor exporter_key 0 _).
  apply bucket_checked. vm_compute. reflexivity.
Defined.

(** Six handlers ran, once each, and a seventh attempt to run the first is refused. *)
Lemma admission_used_once_witness : wd_started exported = [0; 1; 2; 3; 4; 5]%nat /\
  (assertAdmission [exporter] (Some 9000) 0 nothing_expected (wd_service exported)).1 = fail "request_admission_consumed" "request admission has already been consumed".
Proof.
  split; [vm_compute; reflexivity|]. unfold exported. refine (proj2 (proj2 (admission_used_once quota_cfg [exporter] [] [] exports)) 0%nat (Some 9000) nothing_expected _). left. vm_compute. left.
Defined.
