(* ===== verification/IdentityScenarios.v ===== *)
(** * Identities: a scenario

    A developer's agent is created, activated and given a wallet, which another agent
    cannot take. *)

From stdpp Require Import base tactics sets relations gmap numbers strings list.
From S2P Require Import Prelude Js Enums EventStore Service Trading Identity IdentityProps Scenarios.
Local Open Scope string_scope.
Local Open Scope Z_scope.

Definition demo_identity : IdentityConfig := MkIdentityConfig None true.
Definition demo_wallet (subjectId : string) : BindAccount := MkBindAccount subjectId "eip155:8453:0xabc" "signature" "nonce_1" None.

(** The identifiers are numbered across all kinds, the events' included; the person is not a prototype. *)
Definition demo_agents : list identity_call :=
  [CallCreatePrincipal (MkNewPrincipal "developer" None None None []);
   CallCreateSubject (MkNewSubject "agent" "principal_0" "Agent one" None false None None);
   CallCreateSubject (MkNewSubject "human" "principal_0" "Person" None false None None);
   CallCreateSubject (MkNewSubject "agent" "principal_0" "Agent two" None false None None);
   CallActivateSubject "subject_2"; CallActivateSubject "subject_4";
   CallBindAccount (demo_wallet "subject_2"); CallBindAccount (demo_wallet "subject_4")].
Definition demo_identities : Sys * Identities := exec (run_identity demo_identity) demo_agents (y0, empty_identities).

Lemma identities_consistent_witness : map_keys (subjects demo_identities.2) = ["subject_2"; "subject_4"] /\
  match map_get "subject_2" (subjects demo_identities.2) with
  | Some s => length (sb_linkedAccountIds s) = 1%nat /\ sb_linkedAccountIds s = bindings_of "subject_2" demo_identities.2
  | None => False
  end.
Proof.
  split; [vm_compute; reflexivity|]. destruct (map_get "subject_2" (subjects demo_identities.2)) as [s|] eqn:E; [|vm_compute in E; discriminate E].
  pose proof (proj1 (proj2 (identities_consistent demo_identity demo_agents y0)) "subject_2" s E) as [K _]. split; [|exact K].
  rewrite K. vm_compute. reflexivity.
Defined.
